(* ===== verification/_CoqProject ===== *)
-Q . S2P
Prelude.v
Tokens.v
Fees.v
Mempool.v
Curve.v
CurveState.v
Merkle.v
TokenCore.v
Store.v
Codec.v
Ledger.v
CurveExec.v
Memo.v
Transaction.v
Executor.v
Frame.v
Blocks.v
BlockValue.v
Recovery.v
Ubi.v
Treasury.v
Roles.v
Caps.v
Payouts.v
TreasuryGov.v
Oracle.v
Swap.v
DaoStaking.v
Validators.v
Consensus.v
ConsensusSafety.v
QuorumProof.v
Funds.v
Replication.v
