(* ===== verification/Prelude.v ===== *)
(** * The Sovereign Network: ledger, markets, blocks, treasury, funds, oracle, consensus, replication

    A model of the state machine of the node in [src/]: what a block does to the
    committed state, with the libraries it is built from.  Every definition is
    executable and follows the Rust function it is named after, branch by
    branch, with machine integers at their width.

    ** The program and the files

    A transaction enters the pool ([lib-mempool]) if it pays the fee of
    [lib-fees].  A block of transactions goes to [BlockExecutor::apply_block]
    ([lib-blockchain/src/execution/executor.rs]), which validates the header,
    opens a batch on [SledStore], validates and applies each transaction through
    the primitives of [execution/tx_apply.rs], pays the coinbase and commits the
    batch, or rolls it back.  Which block is next is decided by the validators:
    each runs a [ConsensusEngine] ([lib-consensus]) that exchanges proposals and
    votes and hands a block with a quorum certificate to the chain; a node that
    catches up checks the certificate ([block/verification.rs]).

    - [Prelude]: machine integers, the result type, the state-and-error monad
      with its notations and tactics, sums over lists and maps.
    - [Tokens] ([lib-tokens]): token contracts, policies, fee schedules and
      [apply_token_transfer] over the [TokenStore] trait, against an abstract
      ledger.
    - [Fees] ([lib-types/src/fees.rs], [lib-fees/src/model_v2.rs]): the fee model.
    - [Mempool] ([lib-types/src/mempool.rs], [lib-mempool]): admission and the
      counters of the pool, with the pool behind them as a step relation.
    - [Curve] ([contracts/bonding_curve/canonical.rs], [contracts/utils/math.rs]):
      bands, prices, costs, purchases and payouts.
    - [CurveState] ([lib-types/src/bonding_curve.rs]): pools, 48-bit nonces, the
      economic and account states, pre-backed debts.
    - [Merkle] and [Store] ([storage/sled_store.rs], [storage/mod.rs]): the
      incremental UTXO Merkle tree; committed trees, the pending batch and the
      block protocol.
    - [TokenCore] ([contracts/tokens/core.rs]): the token contract object of the
      registry, with allowances, locks and kernel authority.
    - [Codec] ([transaction/bonding_curve_codec.rs]) and [Memo]
      ([transaction/token_creation.rs], [contract_deployment.rs],
      [contract_execution.rs]): payload encodings.
    - [Ledger] ([execution/tx_apply.rs]): UTXO, balance and nonce primitives;
      native transfers, token transfers, mints and coinbase.
    - [CurveExec] (the curve, payroll, treasury and stake handlers of
      [execution/executor.rs]).
    - [Transaction] ([types/transaction_type.rs], [transaction/core.rs],
      [block/core.rs], [resources.rs]): transaction and block data, the block
      resource accumulator.
    - [Executor] (the rest of [execution/executor.rs]): validation, dispatch, all
      handlers, [apply_block].
    - [Frame], [Blocks], [BlockValue]: theorems about whole blocks and chains.
      [Frame] is a small program logic: a computation respects a preorder on the
      batch when all its writes do.
    - [Recovery] ([SledStore::commit_block] interrupted between two trees).
    - [Ubi], [Treasury], [Roles], [Caps], [Payouts], [TreasuryGov]
      ([contracts/treasury_kernel/], [contracts/governance/citizen_role.rs]): the
      treasury kernel.  [Ubi] holds the citizens, their claims, the pool of an epoch
      and the reference value; [Treasury] the operations of the kernel on the token
      contract of [TokenCore], delayed mints and burns, and vesting; [Roles] the roles
      and the assignments that copy their caps; [Caps] the ledger of reservations
      against those caps; [Payouts] the metrics of an epoch, the computation of a
      payout from them and the record of payments; [TreasuryGov] the proposals that
      govern the treasury.
    - [Oracle] ([oracle/], [blockchain/oracle.rs]): the price oracle: its committee,
      attestations, finalized prices, penalties and scheduled updates, and what a
      block does with them.
    - [Swap] ([contracts/sov_swap/]): the constant-product pool between SOV and a
      DAO token and the positions of its liquidity providers.
    - [DaoStaking] ([contracts/staking/sov_dao_staking.rs]): stakes that launch a
      DAO or are given back.
    - [Validators] ([lib-consensus/src/validators/], [slashing/mod.rs], the fault
      reports of [byzantine/fault_detector.rs], the epochs of
      [engines/consensus_engine/mod.rs]): the validator set, penalties and recovery,
      queued changes and their application at epoch boundaries.
    - [Consensus] ([lib-consensus/src/engines/consensus_engine/]): one engine, its
      message, timeout and vote handlers as programs on the engine's state that
      append what they send to [outputs].
    - [ConsensusSafety]: an invariant of the engine that every handler keeps, a
      network of engines as a step relation in which everyone else may send
      anything but the votes of honest nodes, and a concrete network of four.
    - [QuorumProof] ([block/verification.rs]): certificates, and what those made by
      the engine are worth.
    - [Funds] ([contracts/emergency_reserve/], [contracts/dev_grants/],
      [contracts/ubi_distribution/]): the reserve whose withdrawals are signed, the
      grants and the monthly payments, over the token contract of [TokenCore], the
      kernel of [Treasury] and the signatures of [Consensus].
    - [Replication] ([lib-storage/src/consistency/]): vector clocks, replicated
      registers, counters and sets, and read and write quorums.  The class [MergeLaws]
      states what a merge promises; convergence is proved against it once.

    ** State

    [SledStore] is the record of the committed trees (one [gmap] each), the flag
    and height of the open block and its batch.  Reads see the committed trees,
    writes go to the batch: this is how the source works, and the theorems on
    blocks depend on it.  Hashes, keys, addresses and identifiers are numbers.

    ** What the theorems show

    - Blocks: a block is applied as a whole or leaves no trace, and accepted
      blocks form a linked chain; every committed amount keeps its type and the
      curve stays solvent; transfers are not replayed in later blocks; proposals
      are immutable and executed in one block only; resources stay within the
      limits; a block issues exactly its reward.
    - Ledger and tokens: transfers conserve value and route fees, refine the
      abstract ledger movement, and succeed when their checks pass; the books of
      a token contract balance.
    - Curve: a purchase terminates and is the largest the reserve affords, save where
      the curve is exhausted or the reserve is spent exactly at the end of a band;
      burning it pays back exactly its cost; buying and selling back takes
      nothing out of the reserve; payrolls and stakes do what they record.
    - Swap pool: while the pending fees fit their type, no sequence of trades lowers
      the product of the reserves or gains one side without paying on the other;
      simulations agree with swaps that overflow nothing; shares just minted return
      at most the deposit, where shares were outstanding before.
    - Treasury: a citizen is paid once for an epoch and the pool is not exceeded;
      an authorization is executed once and in time; a vesting pays by its schedule
      and, unless the kernel is paused, pays what the schedule has released when it is
      claimed; payments in the order of time keep to the caps the role of an assignment
      had when it was made, reservations made one at a time, under caps that are only
      raised and registered once, to the caps of the ledger; a payout is
      the work under every cap, paid once; a closed epoch takes no more metrics or
      attestations and a final metric is attested; proposals wait for their timelock
      and succeed once.
    - DAO launches and funds: what is recorded for a staker is settled once and in full,
      and it is stuck only in a DAO for which a stake was refused for overflow after it
      had been recorded; a launched DAO has the backing it announced; withdrawals from
      the reserve are signed by the threshold, each with its own nonce; a grant is paid
      in the approved amount to a key with the approved identifier, or not at all; a
      citizen is paid once a month.
    - Replication: replicas that have seen the same states agree; a counter shows what
      was counted; comparing vector clocks is causality; quorums meet.
    - Oracle: a price becomes final only with the signatures of more than two thirds
      of the committee and never changes; the median the deviation check uses lies
      where the majority of the prices lies.
    - Validator set: after any operations it is within its bound with distinct keys
      and a status that agrees with the jail; a ban lasts; an epoch changes a third
      of the validators at most, and of the queued changes loses only a refused
      registration with the due ones after it.
    - Encodings round-trip, the Merkle update agrees with the tree of its
      leaves, fees agree with their formula, the pool counters with the pool.
    - Consensus: an honest validator never signs two votes of one kind in a
      round; nodes that commit on the votes of one round agree when less than a
      third is dishonest; evidence of double voting names the dishonest only; a
      completed quorum commits in any step; each validator leads one of as many
      rounds as there are validators; the certificate of a commit on votes of one
      round is accepted by the check of other nodes exactly when all registered
      validators are active; that check holds exactly for a supermajority of distinct signers, and two accepted certificates share more
      than a third of the validators.
    - Defects: the theorems and lemmas that state one exhibit it.  Reading
      committed state inside a block makes a UTXO spendable twice, a self-transfer
      creative, curve updates and token fees lost; an interrupted commit is not
      repaired by applying the block again; some arithmetic wraps.  In consensus the
      lock is lost with the round and commit votes add up over rounds, so that
      honest nodes alone, or one dishonest validator of four, can fork the chain; a
      liveness fault lifts a ban, and updates from the runtime register nobody.  The
      oracle punishes contradictions and counts CBE prices whose signature it has not
      checked, and meets finalized epochs again when epochs get longer.  In the
      treasury, accounts made up from an identifier shadow real ones and block claims,
      a revocation before the cliff or under a pause strands tokens, open reservations
      are not counted, reactivations bypass incompatible roles, the limit on the
      reference value is cut to 16 bits, and an execution can be completed without an
      approval.  A stake refused for overflow is refunded all the same or keeps a DAO and
      its stakes waiting for ever, placeholder bytes
      count as one signature of the reserve, funds identify people by a part of their key,
      and anyone can use up a citizen's claim.  A node added to a quorum breaks its
      overlap, signed responses are counted with repetition, removed elements return, and
      registers that were copied diverge.

    ** Parameters

    [PairHash] (the Poseidon hash of two nodes), [ChainParams] (token ids, the
    hash of keys and the address of the fee sink), [Bincode] and
    [BincodeRoundtrip] (serialization, and that it is inverted), [CharTables]
    (Unicode classes), [OracleEnv] (Blake3, Dilithium), [ExecutorEnv] (transaction hashes, block sizes, proof
    verification), [ConsensusEnv] (hashing, Dilithium, the chain behind the
    engine, consensus proofs and rewards) and [VotingPower] (a floating-point
    formula), and the hashes in identifiers of the treasury ([KernelHash],
    [VestingHash], [AssignmentHash], [ReservationHash], [PayoutHash]) stand for code of
    other libraries or configuration.  What is assumed of them is [BincodeRoundtrip],
    that identifiers of assignments do not collide, [ChainLaws] (a chain only grows) and [CryptoLaws] (a signature just made verifies, iterating
    a map visits each entry once); the witnesses instantiate all of them.

    ** Bounds

    Loops are structural.  The binary searches take as fuel the width of their
    range in bits, the loops over bands the number of bands, the loops over lists
    their list; the theorems show that the fuel is never exhausted.  Additions
    that the source leaves unchecked wrap, as in a build without overflow checks.
    [chain_linked] and [transfer_nonces_increase] speak of at most 2^64 blocks.
    In the network of [ConsensusSafety] a round number does not pass 2^32 by
    timeouts; the validator set does not change there because no event of the loop
    can change it ([update_validators_id]).  [trading_never_profits] speaks of
    sequences in which the pending fees stay within their type.  In the treasury the
    64-bit counters of identifiers and epochs do not wrap, and a cap of the largest
    number is no cap.  The runs of [DaoStaking] are at heights that do not decrease,
    and stakes that overflow a total belong to them, with what they leave behind; the
    totals of a replicated counter and the length of a history stay below 2^64.

    ** Not modelled

    The facade of [blockchain.rs] and [transaction/validation.rs], which keep
    in-memory mirrors of the state and check against them before a block is
    formed; the WASM contract runtime and most contracts reached only through it
    (treasuries, registries, employment, messaging and the like);
    networking, identity, the DHT and its storage, cryptography and the node
    programs, which are I/O or wrap foreign libraries.  Of the store, the identity
    and supplementary-index trees and failures of sled.  Of consensus, rewards
    and governance, heartbeats, replay and partition records, and the drivers other
    than [run_consensus_loop], from which alone epoch changes are applied; the
    deprecated [jail] and [try_release_from_jail], which nothing calls, are no steps of
    the registry.  Of the treasury kernel, serialisation, formatting, query lists and events without
    effect; [prepare_srv_update], a query that looks at no grace period, does not count
    as the begin of an execution.  Of the oracle, the decoding of proposals, shadow-mode
    metrics and old snapshots; [try_finalize_price], which only tests call, is modelled
    but no operation of its runs.  Numeric
    constants, plain accessors and helpers inside a mapped function are modelled
    without an entry in the map of definitions. *)
From stdpp Require Import base tactics numbers list option gmap fin_maps.
From Stdlib Require Import ZArith Lia.

#[global] Open Scope Z_scope.

(** ** Unsigned machine integers

    A Rust [uN] value is a [Z] in the range [0 .. 2^N - 1].  The width is an
    argument of every operation, so that the overflow behaviour of each source
    expression is visible where it is translated. *)

Definition umax (w : Z) : Z := 2 ^ w - 1.

Definition in_u (w z : Z) : Prop := 0 <= z <= umax w.

(** [checked_add], [checked_sub], [checked_mul], [checked_div]. *)
Definition checked_add (w a b : Z) : option Z :=
  if a + b <=? umax w then Some (a + b) else None.
Definition checked_sub (a b : Z) : option Z :=
  if b <=? a then Some (a - b) else None.
Definition checked_mul (w a b : Z) : option Z :=
  if a * b <=? umax w then Some (a * b) else None.
Definition checked_div (a b : Z) : option Z :=
  if b =? 0 then None else Some (a / b).

(** [saturating_add], [saturating_sub], [saturating_mul]. *)
Definition saturating_add (w a b : Z) : Z := Z.min (a + b) (umax w).
Definition saturating_sub (a b : Z) : Z := Z.max (a - b) 0.
Definition saturating_mul (w a b : Z) : Z := Z.min (a * b) (umax w).

(** The plain operators [+], [-], [*] and the [as uN] casts, which wrap in the
    workspace's release profiles (no [overflow-checks]). *)
Definition wadd (w a b : Z) : Z := (a + b) mod 2 ^ w.
Definition wsub (w a b : Z) : Z := (a - b) mod 2 ^ w.
Definition wmul (w a b : Z) : Z := (a * b) mod 2 ^ w.
Definition as_u (w a : Z) : Z := a mod 2 ^ w.

(** ** Results and the state-and-error monad

    [result] is Rust's [Result].  A method on [&mut self] that returns a
    [Result] is an [M S E A]: the state reached so far is kept when an error is
    returned, as a Rust method that fails half-way leaves its earlier writes in
    place. *)

Inductive result (A E : Type) : Type :=
| Ok (a : A)
| Err (e : E).
Arguments Ok {A E} _.
Arguments Err {A E} _.

Declare Scope rust_scope.
Delimit Scope rust_scope with rust.
#[global] Open Scope rust_scope.

(** The [?] operator on a pure [Result]. *)
Notation "'let?' x ':=' e 'in' k" :=
  (match e with Ok x => k | Err er => Err er end)
  (at level 10, x name, e at level 100, k at level 200) : rust_scope.

Definition ok_or {A E : Type} (o : option A) (e : E) : result A E :=
  match o with Some a => Ok a | None => Err e end.

Definition is_ok {A E : Type} (r : result A E) : bool :=
  match r with Ok _ => true | Err _ => false end.

Definition M (S E A : Type) : Type := S → S * result A E.

Section Monad.
Context {S E : Type}.

Definition ret {A : Type} (a : A) : M S E A := λ s, (s, Ok a).
Definition throw {A : Type} (e : E) : M S E A := λ s, (s, Err e).
Definition bind {A B : Type} (m : M S E A) (k : A → M S E B) : M S E B :=
  λ s, match m s with
       | (s', Ok a) => k a s'
       | (s', Err e) => (s', Err e)
       end.
Definition gets {A : Type} (f : S → A) : M S E A := λ s, (s, Ok (f s)).
Definition modify (f : S → S) : M S E unit := λ s, (f s, Ok tt).
Definition lift {A : Type} (r : result A E) : M S E A := λ s, (s, r).
Definition guard (b : bool) (e : E) : M S E unit :=
  if b then ret tt else throw e.

End Monad.

Notation "x '<-' m ';;' k" := (bind m (λ x, k))
  (at level 100, m at next level, right associativity) : rust_scope.
Notation "m ';;;' k" := (bind m (λ _, k))
  (at level 100, right associativity) : rust_scope.

Section MonadLemmas.
Context {S E : Type}.

Lemma bind_ok {A B : Type} (m : M S E A) (k : A → M S E B) (s s' : S) (b : B) :
  bind m k s = (s', Ok b) ↔ ∃ s1 a, m s = (s1, Ok a) ∧ k a s1 = (s', Ok b).
Proof.
  unfold bind; destruct (m s) as [s1 [a|e]]; split.
  - by exists s1, a.
  - by intros (? & ? & [= <- <-] & ?).
  - by intros [=].
  - by intros (? & ? & [=] & ?).
Qed.

Lemma bind_err {A B : Type} (m : M S E A) (k : A → M S E B) (s s' : S) (e : E) :
  bind m k s = (s', Err e) ↔
  m s = (s', Err e) ∨ ∃ s1 a, m s = (s1, Ok a) ∧ k a s1 = (s', Err e).
Proof.
  unfold bind; destruct (m s) as [s1 [a|e1]]; split.
  - intros ?; right; by exists s1, a.
  - by intros [[=]|(? & ? & [= <- <-] & ?)].
  - intros [= <- <-]; by left.
  - by intros [[= <- <-]|(? & ? & [=] & ?)].
Qed.

Lemma bind_step {A B : Type} (m : M S E A) (k : A → M S E B) (s s' : S) (a : A) :
  m s = (s', Ok a) → bind m k s = k a s'.
Proof. unfold bind; by intros ->. Qed.

Lemma bind_stop {A B : Type} (m : M S E A) (k : A → M S E B) (s s' : S) (e : E) :
  m s = (s', Err e) → bind m k s = (s', Err e).
Proof. unfold bind; by intros ->. Qed.

Lemma bind_ext {A B : Type} (m : M S E A) (k1 k2 : A → M S E B) (s : S) :
  (∀ a s', k1 a s' = k2 a s') → bind m k1 s = bind m k2 s.
Proof. unfold bind; intros Hk; destruct (m s) as [s' [a|e]]; [apply Hk|done]. Qed.

Lemma ret_ok {A : Type} (a b : A) (s s' : S) :
  (ret a : M S E A) s = (s', Ok b) ↔ s' = s ∧ b = a.
Proof. unfold ret; naive_solver. Qed.

Lemma throw_ok {A : Type} (e : E) (a : A) (s s' : S) :
  (throw e : M S E A) s = (s', Ok a) ↔ False.
Proof. unfold throw; naive_solver. Qed.

Lemma gets_ok {A : Type} (f : S → A) (a : A) (s s' : S) :
  (gets f : M S E A) s = (s', Ok a) ↔ s' = s ∧ a = f s.
Proof. unfold gets; naive_solver. Qed.

Lemma modify_ok (f : S → S) (u : unit) (s s' : S) :
  (modify f : M S E unit) s = (s', Ok u) ↔ s' = f s.
Proof. unfold modify; destruct u; naive_solver. Qed.

Lemma lift_ok {A : Type} (r : result A E) (a : A) (s s' : S) :
  (lift r : M S E A) s = (s', Ok a) ↔ s' = s ∧ r = Ok a.
Proof. unfold lift; naive_solver. Qed.

Lemma guard_ok (b : bool) (e : E) (u : unit) (s s' : S) :
  (guard b e : M S E unit) s = (s', Ok u) ↔ s' = s ∧ b = true.
Proof. unfold guard, ret, throw; destruct b, u; naive_solver. Qed.

Lemma ok_or_ok {A : Type} (o : option A) (e : E) (a : A) :
  ok_or o e = Ok a ↔ o = Some a.
Proof. destruct o; simpl; naive_solver. Qed.

End MonadLemmas.

(** [monad_inv] turns every hypothesis saying that a monadic program returned
    [Ok] into the facts about its steps. *)
Ltac monad_inv_step :=
  match goal with
  | H : bind _ _ _ = (_, Ok _) |- _ =>
      apply bind_ok in H; destruct H as (? & ? & ? & ?)
  | H : ret _ _ = (_, Ok _) |- _ => apply ret_ok in H; destruct H; subst
  | H : throw _ _ = (_, Ok _) |- _ => apply throw_ok in H; destruct H
  | H : gets _ _ = (_, Ok _) |- _ => apply gets_ok in H; destruct H; subst
  | H : modify _ _ = (_, Ok _) |- _ => apply modify_ok in H; subst
  | H : lift _ _ = (_, Ok _) |- _ => apply lift_ok in H; destruct H; subst
  | H : guard _ _ _ = (_, Ok _) |- _ => apply guard_ok in H; destruct H; subst
  | H : ok_or _ _ = Ok _ |- _ => apply ok_or_ok in H
  | H : Ok _ = Ok _ |- _ => injection H as H; subst
  | H : Err _ = Ok _ |- _ => discriminate H
  | H : Ok _ = Err _ |- _ => discriminate H
  | H : Some _ = Some _ |- _ => injection H as H; subst
  end.
Ltac monad_inv := repeat (monad_inv_step; simpl in *).

(** ** Facts about the integer operations *)

Create HintDb rust.

Section Ints.
Context (w : Z).

Lemma umax_nonneg : 0 <= w → 0 <= umax w.
Proof. intros; unfold umax; pose proof (Z.pow_pos_nonneg 2 w); lia. Qed.

Lemma checked_add_Some a b c :
  checked_add w a b = Some c ↔ c = a + b ∧ a + b <= umax w.
Proof. unfold checked_add; case_match; rewrite ?Z.leb_le, ?Z.leb_gt in *; naive_solver lia. Qed.

Lemma checked_add_None a b : checked_add w a b = None ↔ umax w < a + b.
Proof. unfold checked_add; case_match; rewrite ?Z.leb_le, ?Z.leb_gt in *; naive_solver lia. Qed.

Lemma checked_mul_Some a b c :
  checked_mul w a b = Some c ↔ c = a * b ∧ a * b <= umax w.
Proof. unfold checked_mul; case_match; rewrite ?Z.leb_le, ?Z.leb_gt in *; naive_solver lia. Qed.

Lemma checked_mul_None a b : checked_mul w a b = None ↔ umax w < a * b.
Proof. unfold checked_mul; case_match; rewrite ?Z.leb_le, ?Z.leb_gt in *; naive_solver lia. Qed.

Lemma saturating_add_small a b :
  a + b <= umax w → saturating_add w a b = a + b.
Proof. unfold saturating_add; lia. Qed.

Lemma saturating_mul_small a b :
  a * b <= umax w → saturating_mul w a b = a * b.
Proof. unfold saturating_mul; lia. Qed.

Lemma wadd_small a b : 0 <= a + b <= umax w → wadd w a b = a + b.
Proof. unfold wadd, umax; intros; apply Z.mod_small; lia. Qed.

Lemma wsub_small a b : 0 <= a - b <= umax w → wsub w a b = a - b.
Proof. unfold wsub, umax; intros; apply Z.mod_small; lia. Qed.

Lemma wmul_small a b : 0 <= a * b <= umax w → wmul w a b = a * b.
Proof. unfold wmul, umax; intros; apply Z.mod_small; lia. Qed.

Lemma as_u_small a : in_u w a → as_u w a = a.
Proof. unfold as_u, in_u, umax; intros; apply Z.mod_small; lia. Qed.

Lemma as_u_range a : 0 <= w → in_u w (as_u w a).
Proof.
  intros; unfold as_u, in_u, umax.
  pose proof (Z.mod_pos_bound a (2 ^ w)); pose proof (Z.pow_pos_nonneg 2 w); lia.
Qed.

End Ints.

Lemma checked_sub_Some a b c : checked_sub a b = Some c ↔ c = a - b ∧ b <= a.
Proof. unfold checked_sub; case_match; rewrite ?Z.leb_le, ?Z.leb_gt in *; naive_solver lia. Qed.

Lemma checked_sub_None a b : checked_sub a b = None ↔ a < b.
Proof. unfold checked_sub; case_match; rewrite ?Z.leb_le, ?Z.leb_gt in *; naive_solver lia. Qed.

Lemma checked_div_Some a b c : checked_div a b = Some c ↔ c = a / b ∧ b ≠ 0.
Proof. unfold checked_div; case_match; rewrite ?Z.eqb_eq, ?Z.eqb_neq in *; naive_solver lia. Qed.

#[export] Hint Resolve umax_nonneg as_u_range : rust.

(** [int_inv] turns the checked operations and the boolean comparisons in the
    hypotheses into linear facts. *)
Ltac int_inv_step :=
  match goal with
  | H : checked_add _ _ _ = Some _ |- _ =>
      apply checked_add_Some in H; destruct H as [-> ?]
  | H : checked_sub _ _ = Some _ |- _ =>
      apply checked_sub_Some in H; destruct H as [-> ?]
  | H : checked_mul _ _ _ = Some _ |- _ =>
      apply checked_mul_Some in H; destruct H as [-> ?]
  | H : checked_div _ _ = Some _ |- _ =>
      apply checked_div_Some in H; destruct H as [-> ?]
  | H : checked_add _ _ _ = None |- _ => apply checked_add_None in H
  | H : checked_sub _ _ = None |- _ => apply checked_sub_None in H
  | H : checked_mul _ _ _ = None |- _ => apply checked_mul_None in H
  | H : (_ <=? _) = true |- _ => apply Z.leb_le in H
  | H : (_ <=? _) = false |- _ => apply Z.leb_gt in H
  | H : (_ <? _) = true |- _ => apply Z.ltb_lt in H
  | H : (_ <? _) = false |- _ => apply Z.ltb_ge in H
  | H : (_ =? _) = true |- _ => apply Z.eqb_eq in H
  | H : (_ =? _) = false |- _ => apply Z.eqb_neq in H
  | H : negb _ = true |- _ => apply negb_true_iff in H
  | H : negb _ = false |- _ => apply negb_false_iff in H
  | H : (_ && _)%bool = true |- _ => apply andb_true_iff in H; destruct H
  | H : (_ || _)%bool = false |- _ => apply orb_false_iff in H; destruct H
  end.
Ltac int_inv := repeat int_inv_step.

(** [unsat] removes the saturating operations of the goal, innermost first, by
    showing with linear arithmetic that they do not saturate. *)
Ltac no_sat t :=
  lazymatch t with
  | context [saturating_add _ _ _] => fail
  | context [saturating_mul _ _ _] => fail
  | _ => idtac
  end.
Ltac unsat_step :=
  match goal with
  | |- context [saturating_add ?w ?a ?b] =>
      no_sat a; no_sat b; rewrite (saturating_add_small w a b) by (unfold umax; lia)
  | |- context [saturating_mul ?w ?a ?b] =>
      no_sat a; no_sat b; rewrite (saturating_mul_small w a b) by (unfold umax; lia)
  end.
Ltac unsat := repeat unsat_step.

(** ** Sums over lists and finite maps *)

Definition sumZ (l : list Z) : Z := foldr Z.add 0 l.

Lemma sumZ_cons (z : Z) (l : list Z) : sumZ (z :: l) = z + sumZ l.
Proof. done. Qed.

Lemma sumZ_app (l1 l2 : list Z) : sumZ (l1 ++ l2) = sumZ l1 + sumZ l2.
Proof. unfold sumZ; induction l1; simpl; lia. Qed.

Lemma sumZ_Permutation (l1 l2 : list Z) : l1 ≡ₚ l2 → sumZ l1 = sumZ l2.
Proof. unfold sumZ; induction 1; simpl; lia. Qed.

Lemma sumZ_nonneg (l : list Z) : Forall (λ z, 0 <= z) l → 0 <= sumZ l.
Proof. unfold sumZ; induction 1; simpl; lia. Qed.

Section MapSum.
Context `{Countable K} {V : Type}.
Implicit Types (m : gmap K V) (f : K → V → Z).

(** The sum of [f k v] over the entries of a map. *)
Definition msum (f : K → V → Z) (m : gmap K V) : Z :=
  sumZ (uncurry f <$> map_to_list m).

Lemma msum_empty f : msum f ∅ = 0.
Proof. unfold msum; by rewrite map_to_list_empty. Qed.

Lemma msum_insert_fresh f m k v :
  m !! k = None → msum f (<[k:=v]> m) = f k v + msum f m.
Proof.
  intros Hk; unfold msum.
  rewrite (sumZ_Permutation _ (uncurry f <$> (k, v) :: map_to_list m)); [done|].
  by apply fmap_Permutation, map_to_list_insert.
Qed.

Lemma msum_delete f m k v :
  m !! k = Some v → msum f (delete k m) = msum f m - f k v.
Proof.
  intros Hk. rewrite <- (insert_delete_id m k v Hk) at 2.
  rewrite msum_insert_fresh by apply lookup_delete_eq. lia.
Qed.

Lemma msum_insert f m k v :
  msum f (<[k:=v]> m) = msum f m + f k v - from_option (f k) 0 (m !! k).
Proof.
  destruct (m !! k) as [v0|] eqn:Hk; simpl.
  - rewrite <- insert_delete_eq, msum_insert_fresh by apply lookup_delete_eq.
    rewrite (msum_delete _ _ _ v0 Hk). lia.
  - rewrite msum_insert_fresh by done. lia.
Qed.

Lemma msum_nonneg f m : (∀ k v, m !! k = Some v → 0 <= f k v) → 0 <= msum f m.
Proof.
  intros Hf; apply sumZ_nonneg, Forall_fmap, Forall_forall.
  intros [k v] Hkv; simpl. by apply Hf, elem_of_map_to_list.
Qed.

Lemma msum_lookup_le f m k v :
  (∀ k v, m !! k = Some v → 0 <= f k v) → m !! k = Some v → f k v <= msum f m.
Proof.
  intros Hf Hk. rewrite <- (Z.add_0_r (f k v)).
  replace (msum f m) with (f k v + msum f (delete k m))
    by (rewrite (msum_delete f m k v) by done; lia).
  apply Z.add_le_mono_l, msum_nonneg.
  intros k' v' Hk'. by apply (Hf k'), (lookup_delete_Some m k).
Qed.

Lemma msum_ext f1 f2 m :
  (∀ k v, m !! k = Some v → f1 k v = f2 k v) → msum f1 m = msum f2 m.
Proof.
  induction m as [|k v m Hk IH] using map_ind; intros Hf.
  - by rewrite !msum_empty.
  - rewrite !msum_insert_fresh by done.
    rewrite (Hf k v) by apply lookup_insert_eq.
    rewrite IH; [done|]. intros k' v' Hk'. apply Hf.
    rewrite lookup_insert_ne; [done|]. by intros <-; congruence.
Qed.

End MapSum.
