(* ===== verification/Tokens.v ===== *)
(** * Token contracts (lib-tokens)

    [lib-tokens/src/contract.rs]: roles and authority sets, supply and transfer
    policies, fee schedules and the [TokenContract] record.
    [lib-tokens/src/transfer.rs]: the [TokenStore] trait, as the class
    [TokenStore] with the laws [TokenStoreLaws] a storage back end promises, and
    [apply_token_transfer] over any such store.  The map-backed
    [MockTokenStore] of that file is an instance.

    The theorems: fees are exact and capped; a successful transfer conserves
    the token (balances lose exactly the burned fee, as the supply does); on a
    well-formed ledger a transfer that passes its checks cannot fail half-way;
    off such a ledger it can, and leaves the sender debited. *)
From stdpp Require Import base tactics numbers list option gmap fin_maps strings.
From S2P Require Import Prelude.

(** ** Identifiers and amounts

    [Address] and [TokenId] are 32-byte arrays that the code only compares and
    hashes: a [Z] stands for the array's value. [Amount] is [u128]. *)
Notation Address := Z (only parsing).
Notation TokenId := Z (only parsing).
Notation Amount := Z (only parsing).

Definition MAX_BPS : Z := 10000.
Definition SPEC_VERSION : Z := 2.

(** ** Roles and authorities *)

Inductive Role : Type := Kernel | Governance | Treasury | Mint | Pause.

#[export] Instance Role_eq_dec : EqDecision Role.
Proof. solve_decision. Defined.

Definition Role_to_nat (r : Role) : nat :=
  match r with
  | Kernel => 0 | Governance => 1 | Treasury => 2 | Mint => 3 | Pause => 4
  end%nat.

Definition Role_of_nat (n : nat) : option Role :=
  [Kernel; Governance; Treasury; Mint; Pause] !! n.

#[export] Instance Role_countable : Countable Role.
Proof.
  apply (inj_countable Role_to_nat Role_of_nat). by intros [].
Defined.

Record AuthoritySet : Type := { authorities_of : gmap Role (gset Address) }.

Definition AuthoritySet_new : AuthoritySet := {| authorities_of := ∅ |}.

(** [self.authorities.entry(role).or_default().insert(address)]. *)
Definition AuthoritySet_add (role : Role) (address : Address)
    (a : AuthoritySet) : AuthoritySet :=
  {| authorities_of :=
       <[role := {[address]} ∪ default ∅ (authorities_of a !! role)]>
         (authorities_of a) |}.

Definition AuthoritySet_remove (role : Role) (address : Address)
    (a : AuthoritySet) : AuthoritySet :=
  match authorities_of a !! role with
  | Some set =>
      {| authorities_of := <[role := set ∖ {[address]}]> (authorities_of a) |}
  | None => a
  end.

Definition has_role (a : AuthoritySet) (role : Role) (address : Address) : bool :=
  match authorities_of a !! role with
  | Some set => bool_decide (address ∈ set)
  | None => false
  end.

(** ** Policies *)

Inductive SupplyPolicy : Type :=
| FixedCap (max : Amount)
| CappedMint (max : Amount) (authority : Role)
| UncappedMint (authority : Role).

Definition max_supply (p : SupplyPolicy) : option Amount :=
  match p with
  | FixedCap max => Some max
  | CappedMint max _ => Some max
  | UncappedMint _ => None
  end.

Definition mint_authority (p : SupplyPolicy) : option Role :=
  match p with
  | FixedCap _ => None
  | CappedMint _ authority => Some authority
  | UncappedMint authority => Some authority
  end.

Definition SupplyPolicy_can_mint (p : SupplyPolicy) : bool :=
  match p with FixedCap _ => false | _ => true end.

Inductive TransferPolicy : Type :=
| Free
| AllowlistOnly (allowlist : gset Address)
| NonTransferable.

Definition allows_transfer (p : TransferPolicy) (from to : Address) : bool :=
  match p with
  | Free => true
  | AllowlistOnly allowlist =>
      bool_decide (from ∈ allowlist) && bool_decide (to ∈ allowlist)
  | NonTransferable => false
  end.

(** ** Fee schedule *)

Record FeeSchedule : Type := {
  transfer_fee_bps : Z; (* u16 *)
  burn_fee_bps : Z;     (* u16 *)
  fee_cap : Amount;
  min_fee : Amount;
}.

Definition FeeSchedule_zero : FeeSchedule :=
  {| transfer_fee_bps := 0; burn_fee_bps := 0; fee_cap := 0; min_fee := 0 |}.

Definition compute_transfer_fee (f : FeeSchedule) (amount : Amount) : Amount :=
  if transfer_fee_bps f =? 0 then 0
  else
    let raw_fee := saturating_mul 128 amount (transfer_fee_bps f) / MAX_BPS in
    let clamped := Z.max raw_fee (min_fee f) in
    if 0 <? fee_cap f then Z.min clamped (fee_cap f) else clamped.

Definition compute_burn_fee (f : FeeSchedule) (amount : Amount) : Amount :=
  if burn_fee_bps f =? 0 then 0
  else
    let raw_fee := saturating_mul 128 amount (burn_fee_bps f) / MAX_BPS in
    if 0 <? fee_cap f then Z.min raw_fee (fee_cap f) else raw_fee.

Definition total_debit (f : FeeSchedule) (amount : Amount) : option Amount :=
  let transfer_fee := compute_transfer_fee f amount in
  let burn_fee := compute_burn_fee f amount in
  match checked_add 128 amount transfer_fee with
  | Some v => checked_add 128 v burn_fee
  | None => None
  end.

(** ** Token contract *)

Record TokenContract : Type := {
  id : TokenId;
  spec_version : Z; (* u16 *)
  name : string;
  symbol : string;
  decimals : Z;     (* u8 *)
  metadata_hash : Z;
  supply_policy : SupplyPolicy;
  transfer_policy : TransferPolicy;
  fee_schedule : FeeSchedule;
  authorities : AuthoritySet;
  treasury : Address;
  fee_recipient : Address;
  total_supply : Amount;
  total_burned : Amount;
  paused : bool;
}.

Definition TokenContract_new (id : TokenId) (name symbol : string) (decimals : Z)
    (supply_policy : SupplyPolicy) (treasury : Address) : TokenContract := {|
  id := id;
  spec_version := SPEC_VERSION;
  name := name;
  symbol := symbol;
  decimals := decimals;
  metadata_hash := 0;
  supply_policy := supply_policy;
  transfer_policy := Free;
  fee_schedule := FeeSchedule_zero;
  authorities := AuthoritySet_new;
  treasury := treasury;
  fee_recipient := treasury;
  total_supply := 0;
  total_burned := 0;
  paused := false;
|}.

Definition is_valid (c : TokenContract) : bool :=
  if negb (spec_version c =? SPEC_VERSION) then false
  else
    match max_supply (supply_policy c) with
    | Some max => negb (max <? total_supply c)
    | None => true
    end.

Definition can_mint (c : TokenContract) (address : Address) : bool :=
  match mint_authority (supply_policy c) with
  | Some role => has_role (authorities c) role address
  | None => false
  end.

Definition can_pause (c : TokenContract) (address : Address) : bool :=
  has_role (authorities c) Pause address.

Definition mintable_supply (c : TokenContract) : option Amount :=
  match max_supply (supply_policy c) with
  | Some max => Some (saturating_sub max (total_supply c))
  | None => None
  end.

Record TransferResult : Type := {
  res_amount : Amount;
  res_transfer_fee : Amount;
  res_burn_fee : Amount;
  res_total_debit : Amount;
}.

(** ** Errors *)

Inductive TokenError : Type :=
| Paused
| TransferNotAllowed (msg : string)
| InsufficientBalance (have need : Amount)
| TokenNotFound (token : TokenId)
| InvalidAmount (msg : string)
| ZeroAmount
| Overflow
| Underflow
| Unauthorized (msg : string)
| SupplyCapExceeded (max would_have : Amount)
| InvalidSpecVersion (version : Z)
| ConservationViolated (msg : string)
| Storage (msg : string).

(** ** The [TokenStore] trait

    The trait's methods take [&self] and mutate through interior mutability:
    [S] is the store's state. *)
Class TokenStore (S : Type) : Type := {
  get_token_contract : TokenId → S → result (option TokenContract) TokenError;
  put_token_contract : TokenContract → M S TokenError unit;
  get_token_balance : TokenId → Address → S → result Amount TokenError;
  set_token_balance : TokenId → Address → Amount → M S TokenError unit;
}.

Section Transfer.
Context {St : Type} `{TokenStore St}.

(** The pair of the store and the [&mut TokenContract]. *)
Definition with_store {A : Type} (m : M St TokenError A)
    : M (St * TokenContract) TokenError A :=
  λ '(s, c), let '(s', r) := m s in ((s', c), r).
#[global] Arguments with_store : simpl never.

Definition read_balance (token : TokenId) (address : Address)
    : M (St * TokenContract) TokenError Amount :=
  with_store (λ s, (s, get_token_balance token address s)).

(** The contract with its supply counters replaced. *)
Definition set_supply (supply burned : Amount) (c : TokenContract)
    : TokenContract := {|
  id := id c; spec_version := spec_version c; name := name c;
  symbol := symbol c; decimals := decimals c; metadata_hash := metadata_hash c;
  supply_policy := supply_policy c; transfer_policy := transfer_policy c;
  fee_schedule := fee_schedule c; authorities := authorities c;
  treasury := treasury c; fee_recipient := fee_recipient c;
  total_supply := supply; total_burned := burned; paused := paused c |}.

(** Step 3 of the transfer: credit the fee recipient. *)
Definition credit_fee_recipient (transfer_fee : Amount)
    : M (St * TokenContract) TokenError unit :=
  if 0 <? transfer_fee then
    c <- gets snd ;;
    fee_balance <- read_balance (id c) (fee_recipient c) ;;
    new_fee_balance <- lift (ok_or (checked_add 128 fee_balance transfer_fee) Overflow) ;;
    with_store (set_token_balance (id c) (fee_recipient c) new_fee_balance)
  else ret tt.

(** Step 4 of the transfer: burn. The two counters are updated one after the
    other, so that an overflow of the second leaves the first changed. *)
Definition apply_burn (burn_fee : Amount) : M (St * TokenContract) TokenError unit :=
  if 0 <? burn_fee then
    c <- gets snd ;;
    supply <- lift (ok_or (checked_sub (total_supply c) burn_fee) Underflow) ;;
    modify (λ '(s, c), (s, set_supply supply (total_burned c) c)) ;;;
    burned <- lift (ok_or (checked_add 128 (total_burned c) burn_fee) Overflow) ;;
    modify (λ '(s, c), (s, set_supply (total_supply c) burned c)) ;;;
    c' <- gets snd ;;
    with_store (put_token_contract c')
  else ret tt.

Definition apply_token_transfer (from to : Address) (amount : Amount)
    : M (St * TokenContract) TokenError TransferResult :=
  c <- gets snd ;;
  guard (spec_version c =? 2) (InvalidSpecVersion (spec_version c)) ;;;
  guard (negb (paused c)) Paused ;;;
  guard (allows_transfer (transfer_policy c) from to)
    (TransferNotAllowed "Transfer not allowed by policy") ;;;
  guard (negb (amount =? 0)) ZeroAmount ;;;
  let transfer_fee := compute_transfer_fee (fee_schedule c) amount in
  let burn_fee := compute_burn_fee (fee_schedule c) amount in
  debit <- lift (ok_or (v ← checked_add 128 amount transfer_fee;
                        checked_add 128 v burn_fee) Overflow) ;;
  from_balance <- read_balance (id c) from ;;
  guard (negb (from_balance <? debit)) (InsufficientBalance from_balance debit) ;;;
  (* 1. debit the sender *)
  new_from_balance <- lift (ok_or (checked_sub from_balance debit) Underflow) ;;
  with_store (set_token_balance (id c) from new_from_balance) ;;;
  (* 2. credit the recipient *)
  to_balance <- read_balance (id c) to ;;
  new_to_balance <- lift (ok_or (checked_add 128 to_balance amount) Overflow) ;;
  with_store (set_token_balance (id c) to new_to_balance) ;;;
  (* 3. credit the fee recipient; 4. burn *)
  credit_fee_recipient transfer_fee ;;;
  apply_burn burn_fee ;;;
  (* conservation check *)
  expected_debit <- lift (ok_or (v ← checked_add 128 amount transfer_fee;
                                 checked_add 128 v burn_fee) Overflow) ;;
  guard (debit =? expected_debit) (ConservationViolated "total_debit mismatch") ;;;
  (* cap check *)
  c' <- gets snd ;;
  guard (match max_supply (supply_policy c') with
         | Some max => negb (max <? total_supply c')
         | None => true
         end)
    (SupplyCapExceeded (default 0 (max_supply (supply_policy c'))) (total_supply c')) ;;;
  ret {| res_amount := amount; res_transfer_fee := transfer_fee;
         res_burn_fee := burn_fee; res_total_debit := debit |}.

End Transfer.

(** ** What a store promises

    [balances] and [contracts] are the tables a back end represents.  A call
    that returns [Ok] acts on them as on maps; a call may also fail with an
    error of its own, about which nothing is promised. *)
Class TokenStoreLaws (St : Type) `{TokenStore St} : Type := {
  balances : St → gmap (TokenId * Address) Amount;
  contracts : St → gmap TokenId TokenContract;
  get_token_contract_law t s c :
    get_token_contract t s = Ok c → c = contracts s !! t;
  get_token_balance_law t a s v :
    get_token_balance t a s = Ok v → v = default 0 (balances s !! (t, a));
  set_token_balance_law t a v s s' u :
    set_token_balance t a v s = (s', Ok u) →
    balances s' = <[(t, a) := v]> (balances s) ∧ contracts s' = contracts s;
  put_token_contract_law c s s' u :
    put_token_contract c s = (s', Ok u) →
    balances s' = balances s ∧ contracts s' = <[id c := c]> (contracts s);
}.

(** A store none of whose calls fails. *)
Class TokenStoreTotal (St : Type) `{TokenStore St} : Prop := {
  get_token_balance_total t a s : ∃ v, get_token_balance t a s = Ok v;
  set_token_balance_total t a v s : ∃ s', set_token_balance t a v s = (s', Ok tt);
  put_token_contract_total c s : ∃ s', put_token_contract c s = (s', Ok tt);
}.

(** The map-backed store of [transfer.rs]. *)
Record MockTokenStore : Type := {
  mock_contracts : gmap TokenId TokenContract;
  mock_balances : gmap (TokenId * Address) Amount;
}.

#[export] Instance MockTokenStore_store : TokenStore MockTokenStore := {
  get_token_contract t s := Ok (mock_contracts s !! t);
  put_token_contract c s :=
    ({| mock_contracts := <[id c := c]> (mock_contracts s);
        mock_balances := mock_balances s |}, Ok tt);
  get_token_balance t a s := Ok (default 0 (mock_balances s !! (t, a)));
  set_token_balance t a v s :=
    ({| mock_contracts := mock_contracts s;
        mock_balances := <[(t, a) := v]> (mock_balances s) |}, Ok tt);
}.

#[export] Instance MockTokenStore_laws : TokenStoreLaws MockTokenStore.
Proof.
  refine {| balances := mock_balances; contracts := mock_contracts |};
    simpl; naive_solver.
Defined.

#[export] Instance MockTokenStore_total : TokenStoreTotal MockTokenStore.
Proof. split; simpl; eauto. Qed.

(** The amount of a token held by all addresses. *)
Definition token_sum (t : TokenId) (m : gmap (TokenId * Address) Amount) : Amount :=
  msum (λ k v, if decide (k.1 = t) then v else 0) m.

(** The balance of an address; an absent entry is zero. *)
Definition bal (t : TokenId) (m : gmap (TokenId * Address) Amount) (a : Address) : Amount :=
  default 0 (m !! (t, a)).

(** ** Abstract ledger

    What a transfer means on the table of balances: [credit] adds an amount
    (possibly negative) to one balance, [ledger_transfer] is the whole
    movement of a transfer. *)
Definition credit (t : TokenId) (a : Address) (d : Z)
    (m : gmap (TokenId * Address) Amount) : gmap (TokenId * Address) Amount :=
  <[(t, a) := bal t m a + d]> m.

Definition ledger_transfer (t : TokenId) (from to collector : Address)
    (amount fee burn : Amount) (m : gmap (TokenId * Address) Amount)
    : gmap (TokenId * Address) Amount :=
  let m1 := credit t from (- (amount + fee + burn)) m in
  let m2 := credit t to amount m1 in
  if 0 <? fee then credit t collector fee m2 else m2.

(** No entry of the table is negative. *)
Definition nonneg (m : gmap (TokenId * Address) Amount) : Prop :=
  map_Forall (λ _ v, 0 <= v) m.

Lemma bal_credit t a d m a' :
  bal t (credit t a d m) a' = bal t m a' + (if decide (a' = a) then d else 0).
Proof.
  unfold credit, bal at 1. case_decide as Ha.
  - subst. by rewrite lookup_insert_eq.
  - rewrite lookup_insert_ne by congruence. unfold bal. lia.
Qed.

Lemma credit_other t a d m t' a' : t' ≠ t → bal t' (credit t a d m) a' = bal t' m a'.
Proof. intros. unfold credit, bal. by rewrite lookup_insert_ne by congruence. Qed.

Lemma token_sum_credit t a d m : token_sum t (credit t a d m) = token_sum t m + d.
Proof.
  unfold token_sum, credit, bal. rewrite msum_insert; simpl.
  rewrite decide_True by done.
  destruct (m !! (t, a)); simpl; [rewrite decide_True by done|]; lia.
Qed.

Lemma nonneg_bal t m a : nonneg m → 0 <= bal t m a.
Proof. intros Hm; unfold bal. destruct (m !! _) eqn:Hk; simpl; [by apply Hm in Hk|done]. Qed.

Lemma nonneg_credit t a d m : nonneg m → 0 <= bal t m a + d → nonneg (credit t a d m).
Proof. intros. by apply map_Forall_insert_2. Qed.

Lemma bal_le_token_sum t m a : nonneg m → bal t m a <= token_sum t m.
Proof.
  intros Hm. unfold bal, token_sum. set (f := λ k v, _).
  assert (∀ k v, m !! k = Some v → 0 <= f k v) as Hf.
  { intros k v Hk; unfold f; apply Hm in Hk; case_decide; done. }
  destruct (m !! (t, a)) as [v|] eqn:Hk; simpl.
  - pose proof (msum_lookup_le f m (t, a) v Hf Hk) as Hle.
    unfold f in Hle at 1. by rewrite decide_True in Hle.
  - by apply msum_nonneg.
Qed.

(** Every balance after the movement, including when the parties coincide. *)
Lemma bal_ledger_transfer t from to col amount fee burn m a :
  0 <= fee →
  bal t (ledger_transfer t from to col amount fee burn m) a =
  bal t m a - (if decide (a = from) then amount + fee + burn else 0)
            + (if decide (a = to) then amount else 0)
            + (if decide (a = col) then fee else 0).
Proof.
  intros. unfold ledger_transfer. case_match; int_inv; rewrite !bal_credit;
    repeat case_decide; lia.
Qed.

Lemma ledger_transfer_other t from to col amount fee burn m t' a :
  t' ≠ t →
  bal t' (ledger_transfer t from to col amount fee burn m) a = bal t' m a.
Proof. intros. unfold ledger_transfer. case_match; by rewrite !credit_other. Qed.

Lemma token_sum_ledger_transfer t from to col amount fee burn m :
  0 <= fee →
  token_sum t (ledger_transfer t from to col amount fee burn m) = token_sum t m - burn.
Proof.
  intros. unfold ledger_transfer. case_match; int_inv; rewrite !token_sum_credit; lia.
Qed.

Lemma nonneg_ledger_transfer t from to col amount fee burn m :
  nonneg m → 0 <= amount → 0 <= fee → amount + fee + burn <= bal t m from →
  nonneg (ledger_transfer t from to col amount fee burn m).
Proof.
  intros Hm ???. unfold ledger_transfer.
  assert (nonneg (credit t from (- (amount + fee + burn)) m)) as Hd
    by (apply nonneg_credit; [done|lia]).
  assert (nonneg (credit t to amount (credit t from (- (amount + fee + burn)) m))) as Hr.
  { apply nonneg_credit; [done|]. pose proof (nonneg_bal t _ to Hd). lia. }
  case_match; [|done]. apply nonneg_credit; [done|].
  pose proof (nonneg_bal t _ col Hr). lia.
Qed.

Section StoreSteps.
Context {St : Type} `{TokenStoreLaws St}.
Implicit Types σ : St * TokenContract.

Lemma with_store_ok {A : Type} (m : M St TokenError A) σ σ' a :
  with_store m σ = (σ', Ok a) → m σ.1 = (σ'.1, Ok a) ∧ σ'.2 = σ.2.
Proof.
  destruct σ as [s c]; unfold with_store; simpl; destruct (m s) as [s' r] eqn:Hm.
  intros Hr; injection Hr; intros; by subst.
Qed.

Lemma read_balance_ok t a σ σ' v :
  read_balance t a σ = (σ', Ok v) → σ' = σ ∧ v = bal t (balances σ.1) a.
Proof.
  intros [[= H1 H2] H3]%with_store_ok. split.
  - destruct σ, σ'; simpl in *; congruence.
  - by apply get_token_balance_law.
Qed.

Lemma write_balance_ok t a v d σ σ' u :
  with_store (set_token_balance t a v) σ = (σ', Ok u) →
  v = bal t (balances σ.1) a + d →
  σ'.2 = σ.2 ∧ balances σ'.1 = credit t a d (balances σ.1).
Proof. by intros [[H1 _]%set_token_balance_law H2]%with_store_ok ->. Qed.

Lemma credit_fee_recipient_ok fee σ σ' u :
  credit_fee_recipient fee σ = (σ', Ok u) →
  σ'.2 = σ.2 ∧ balances σ'.1 =
    if 0 <? fee then credit (id σ.2) (fee_recipient σ.2) fee (balances σ.1)
    else balances σ.1.
Proof.
  unfold credit_fee_recipient; case_match; intros ?; monad_inv; int_inv; [|done].
  match goal with H : read_balance _ _ _ = _ |- _ =>
    apply read_balance_ok in H as [-> ->] end.
  by eapply write_balance_ok.
Qed.

Lemma apply_burn_ok burn σ σ' u :
  0 <= burn → apply_burn burn σ = (σ', Ok u) →
  balances σ'.1 = balances σ.1 ∧ burn <= Z.max 0 (total_supply σ.2) ∧
  σ'.2 = set_supply (total_supply σ.2 - burn) (total_burned σ.2 + burn) σ.2.
Proof.
  intros Hburn; unfold apply_burn; case_match; intros ?; monad_inv; int_inv.
  - destruct σ as [s c]; simpl in *.
    match goal with H : with_store _ _ = _ |- _ =>
      apply with_store_ok in H as [[Hb _]%put_token_contract_law Hc] end.
    split_and!; [done|lia|]. by rewrite Hc.
  - replace burn with 0 by lia. split_and!; [done|lia|].
    rewrite Z.sub_0_r, Z.add_0_r. by destruct σ as [s []].
Qed.

End StoreSteps.

Lemma fees_nonneg f amount :
  0 <= amount → 0 <= transfer_fee_bps f → 0 <= burn_fee_bps f → 0 <= min_fee f →
  0 <= compute_transfer_fee f amount ∧ 0 <= compute_burn_fee f amount.
Proof.
  intros. assert (∀ b, 0 <= b → 0 <= saturating_mul 128 amount b / MAX_BPS) as Hpos.
  { intros. apply Z.div_pos; [|done].
    unfold saturating_mul. pose proof (umax_nonneg 128). nia. }
  pose proof (Hpos (transfer_fee_bps f)). pose proof (Hpos (burn_fee_bps f)).
  unfold compute_transfer_fee, compute_burn_fee.
  split; repeat case_match; int_inv; lia.
Qed.

(** The fields of a fee schedule are within their types. *)
Definition wf_fees (f : FeeSchedule) : Prop :=
  in_u 16 (transfer_fee_bps f) ∧ in_u 16 (burn_fee_bps f) ∧
  in_u 128 (fee_cap f) ∧ in_u 128 (min_fee f).

Lemma wf_fees_nonneg f amount :
  wf_fees f → 0 <= amount →
  0 <= compute_transfer_fee f amount ∧ 0 <= compute_burn_fee f amount.
Proof. unfold wf_fees, in_u; intros; apply fees_nonneg; lia. Qed.

(** The checks made before anything is written, in the code's order. *)
Definition precheck {St : Type} `{TokenStore St} (σ : St * TokenContract)
    (from to : Address) (amount : Amount) : result Amount TokenError :=
  let c := σ.2 in
  if negb (spec_version c =? 2) then Err (InvalidSpecVersion (spec_version c))
  else if paused c then Err Paused
  else if negb (allows_transfer (transfer_policy c) from to)
  then Err (TransferNotAllowed "Transfer not allowed by policy")
  else if amount =? 0 then Err ZeroAmount
  else match total_debit (fee_schedule c) amount with
       | None => Err Overflow
       | Some debit =>
           let? have := get_token_balance (id c) from σ.1 in
           if have <? debit then Err (InsufficientBalance have debit) else Ok debit
       end.

(** What the transfer does once the checks have passed. *)
Definition execute {St : Type} `{TokenStore St}
    (c : TokenContract) (from to : Address) (amount debit : Amount)
    : M (St * TokenContract) TokenError TransferResult :=
  let transfer_fee := compute_transfer_fee (fee_schedule c) amount in
  let burn_fee := compute_burn_fee (fee_schedule c) amount in
  from_balance <- read_balance (id c) from ;;
  with_store (set_token_balance (id c) from (from_balance - debit)) ;;;
  to_balance <- read_balance (id c) to ;;
  new_to_balance <- lift (ok_or (checked_add 128 to_balance amount) Overflow) ;;
  with_store (set_token_balance (id c) to new_to_balance) ;;;
  credit_fee_recipient transfer_fee ;;;
  apply_burn burn_fee ;;;
  c' <- gets snd ;;
  guard (match max_supply (supply_policy c') with
         | Some max => negb (max <? total_supply c')
         | None => true
         end)
    (SupplyCapExceeded (default 0 (max_supply (supply_policy c'))) (total_supply c')) ;;;
  ret {| res_amount := amount; res_transfer_fee := transfer_fee;
         res_burn_fee := burn_fee; res_total_debit := debit |}.

Section TransferTheorems.
Context {St : Type} `{TokenStoreLaws St}.
Implicit Types σ : St * TokenContract.

(** The transfer is its checks followed by its writes. *)
Lemma apply_token_transfer_split from to amount σ :
  apply_token_transfer from to amount σ =
  match precheck σ from to amount with
  | Ok debit => execute σ.2 from to amount debit σ
  | Err e => (σ, Err e)
  end.
Proof.
  destruct σ as [s c]. unfold apply_token_transfer, precheck, execute, total_debit.
  erewrite bind_step by done. simpl. unfold guard.
  destruct (spec_version c =? 2); [|done]. erewrite bind_step by done. simpl.
  destruct (paused c); [done|]. erewrite bind_step by done. simpl.
  destruct (allows_transfer _ _ _); [|done]. erewrite bind_step by done. simpl.
  destruct (amount =? 0); [done|]. erewrite bind_step by done. simpl.
  unfold mbind, option_bind.
  destruct (checked_add 128 amount _) as [v|] eqn:E1; [|done].
  destruct (checked_add 128 v _) as [debit|] eqn:E2; [|done].
  erewrite bind_step by done.
  destruct (get_token_balance (id c) from s) as [have|e] eqn:Hget.
  2:{ apply bind_stop. unfold read_balance, with_store. by rewrite Hget. }
  assert (read_balance (id c) from (s, c) = ((s, c), Ok have)) as Hread.
  { unfold read_balance, with_store. by rewrite Hget. }
  rewrite (bind_step _ _ _ _ _ Hread).
  destruct (have <? debit) eqn:Hlt; [done|]. erewrite bind_step by done.
  rewrite (bind_step _ _ _ _ _ Hread).
  unfold checked_sub. replace (debit <=? have) with true by lia.
  erewrite bind_step by done.
  do 6 (apply bind_ext; intros ??). simpl.
  erewrite bind_step by done. rewrite Z.eqb_refl. by erewrite bind_step.
Qed.

(** The writes of a transfer, on the abstract ledger. *)
Lemma execute_ok c from to amount debit σ σ' r :
  σ.2 = c → wf_fees (fee_schedule c) → 0 <= amount →
  total_debit (fee_schedule c) amount = Some debit →
  execute c from to amount debit σ = (σ', Ok r) →
  let fee := compute_transfer_fee (fee_schedule c) amount in
  let burn := compute_burn_fee (fee_schedule c) amount in
  r = {| res_amount := amount; res_transfer_fee := fee;
         res_burn_fee := burn; res_total_debit := amount + fee + burn |} ∧
  balances σ'.1 =
    ledger_transfer (id c) from to (fee_recipient c) amount fee burn (balances σ.1) ∧
  σ'.2 = set_supply (total_supply c - burn) (total_burned c + burn) c ∧
  (spec_version c = 2 → is_valid σ'.2 = true).
Proof.
  intros Hc Hf Ha Hd Hex fee burn.
  pose proof (wf_fees_nonneg (fee_schedule c) amount Hf Ha) as [Hfee Hburn].
  fold fee burn in Hfee, Hburn.
  unfold total_debit in Hd. fold fee burn in Hd.
  destruct (checked_add 128 amount fee) eqn:E; [|done]. int_inv.
  unfold execute in Hex. fold fee burn in Hex. monad_inv.
  repeat match goal with H : read_balance _ _ _ = _ |- _ =>
    apply read_balance_ok in H as [-> ->] end.
  int_inv.
  match goal with H : with_store (set_token_balance _ from _) _ = _ |- _ =>
    eapply (write_balance_ok _ _ _ (- (amount + fee + burn))) in H as [Hc1 Hb1]; [|lia] end.
  match goal with H : with_store (set_token_balance _ to _) _ = _ |- _ =>
    eapply write_balance_ok in H as [Hc2 Hb2]; [|reflexivity] end.
  match goal with H : credit_fee_recipient _ _ = _ |- _ =>
    apply credit_fee_recipient_ok in H as [Hc3 Hb3] end.
  match goal with H : apply_burn _ _ = _ |- _ =>
    apply apply_burn_ok in H as (Hb4 & _ & Hc4); [|done] end.
  rewrite Hc3, Hc2, Hc1 in *. split_and!; [done| | |].
  - rewrite Hb4, Hb3, Hb2, Hb1. done.
  - done.
  - intros Hv. unfold is_valid. rewrite Hc4 in *. simpl in *. rewrite Hv. simpl.
    by destruct (max_supply _).
Qed.

Lemma precheck_ok from to amount σ debit :
  precheck σ from to amount = Ok debit →
  spec_version σ.2 = 2 ∧ paused σ.2 = false ∧
  allows_transfer (transfer_policy σ.2) from to = true ∧ amount ≠ 0 ∧
  total_debit (fee_schedule σ.2) amount = Some debit ∧
  debit <= bal (id σ.2) (balances σ.1) from.
Proof.
  unfold precheck. intros Hp. repeat case_match; simplify_eq; int_inv.
  match goal with H : get_token_balance _ _ _ = _ |- _ =>
    apply get_token_balance_law in H; subst end.
  done.
Qed.

(** C39: a transfer that succeeds moves exactly the amounts it reports: the
    balances become those of the abstract [ledger_transfer] (sender minus
    amount and both fees, recipient plus amount, fee recipient plus the
    transfer fee), the supply falls and the burned counter rises by the burn
    fee, nothing else of the contract changes, and the cap still holds. *)
Theorem apply_token_transfer_refines from to amount σ σ' r :
  wf_fees (fee_schedule σ.2) → 0 <= amount →
  apply_token_transfer from to amount σ = (σ', Ok r) →
  let c := σ.2 in
  let fee := compute_transfer_fee (fee_schedule c) amount in
  let burn := compute_burn_fee (fee_schedule c) amount in
  r = {| res_amount := amount; res_transfer_fee := fee;
         res_burn_fee := burn; res_total_debit := amount + fee + burn |} ∧
  balances σ'.1 =
    ledger_transfer (id c) from to (fee_recipient c) amount fee burn (balances σ.1) ∧
  σ'.2 = set_supply (total_supply c - burn) (total_burned c + burn) c ∧
  is_valid σ'.2 = true.
Proof.
  intros Hf Ha. rewrite apply_token_transfer_split.
  destruct (precheck _ _ _ _) as [debit|e] eqn:Hp; [|by intros].
  apply precheck_ok in Hp as (Hv & _ & _ & _ & Hd & _).
  intros Hex. eapply execute_ok in Hex as (? & ? & ? & ?); naive_solver.
Qed.

(** A token ledger in good order: balances are not negative and add up to the
    supply, the counters fit their type, the contract is valid. *)
Definition ledger_wf (σ : St * TokenContract) : Prop :=
  let c := σ.2 in
  nonneg (balances σ.1) ∧
  token_sum (id c) (balances σ.1) = total_supply c ∧
  0 <= total_burned c ∧ total_supply c + total_burned c <= umax 128 ∧
  is_valid c = true ∧ wf_fees (fee_schedule c).

(** A transfer is the only way balances and supply change together, and it
    keeps the ledger in good order: the balances still add up to the supply. *)
Theorem apply_token_transfer_wf from to amount σ σ' r :
  ledger_wf σ → 0 <= amount →
  apply_token_transfer from to amount σ = (σ', Ok r) → ledger_wf σ'.
Proof.
  intros (Hn & Hs & Hb & Hu & Hv & Hf) Ha. rewrite apply_token_transfer_split.
  destruct (precheck _ _ _ _) as [debit|e] eqn:Hp; [|by intros].
  apply precheck_ok in Hp as (Hv2 & _ & _ & _ & Hd & Hle).
  pose proof (wf_fees_nonneg _ _ Hf Ha) as [Hfee Hburn]. intros Hex.
  eapply execute_ok in Hex as (-> & Hb' & Hc' & Hv'); [|done..].
  unfold total_debit in Hd. case_match; [|done]. int_inv.
  unfold ledger_wf. rewrite Hb', Hc' in *. simpl. split_and!.
  - apply nonneg_ledger_transfer; try done; lia.
  - rewrite token_sum_ledger_transfer by done. lia.
  - lia.
  - lia.
  - by apply Hv'.
  - done.
Qed.

(** A transfer writes nothing unless every check passed: the contract is
    of the right version and not paused, its policy allows the two parties, the
    amount is positive and the sender holds the amount and both fees. *)
Theorem apply_token_transfer_guarded from to amount σ σ' r :
  apply_token_transfer from to amount σ = (σ', r) →
  σ' ≠ σ ∨ is_ok r = true →
  spec_version σ.2 = SPEC_VERSION ∧ paused σ.2 = false ∧
  allows_transfer (transfer_policy σ.2) from to = true ∧ amount ≠ 0 ∧
  ∃ debit, total_debit (fee_schedule σ.2) amount = Some debit ∧
           debit <= bal (id σ.2) (balances σ.1) from.
Proof.
  rewrite apply_token_transfer_split.
  destruct (precheck _ _ _ _) as [debit|e] eqn:Hp.
  - apply precheck_ok in Hp. naive_solver.
  - intros [= <- <-] [?|?]; done.
Qed.

End TransferTheorems.

Section Progress.
Context {St : Type} `{TokenStoreLaws St} `{!TokenStoreTotal St}.
Implicit Types σ : St * TokenContract.

Lemma read_balance_total t a σ :
  read_balance t a σ = (σ, Ok (bal t (balances σ.1) a)).
Proof.
  destruct σ as [s c]. unfold read_balance, with_store.
  destruct (get_token_balance_total t a s) as [v Hv].
  rewrite Hv. by apply get_token_balance_law in Hv as ->.
Qed.

Lemma write_balance_total t a v σ :
  ∃ σ', with_store (set_token_balance t a v) σ = (σ', Ok tt) ∧ σ'.2 = σ.2 ∧
        balances σ'.1 = <[(t, a) := v]> (balances σ.1).
Proof.
  destruct σ as [s c]. unfold with_store.
  destruct (set_token_balance_total t a v s) as [s' Hs]. rewrite Hs.
  apply set_token_balance_law in Hs as [? _]. by exists (s', c).
Qed.

Lemma credit_total t a d σ :
  nonneg (balances σ.1) → 0 <= bal t (balances σ.1) a + d →
  ∃ σ', with_store (set_token_balance t a (bal t (balances σ.1) a + d)) σ = (σ', Ok tt) ∧
        σ'.2 = σ.2 ∧ nonneg (balances σ'.1) ∧
        token_sum t (balances σ'.1) = token_sum t (balances σ.1) + d.
Proof.
  intros Hn Hd.
  destruct (write_balance_total t a (bal t (balances σ.1) a + d) σ) as (σ' & Hw & Hc & Hb).
  change (balances σ'.1 = credit t a d (balances σ.1)) in Hb.
  exists σ'. rewrite Hb. split_and!; [done..| |].
  - by apply nonneg_credit.
  - apply token_sum_credit.
Qed.

Lemma credit_fee_recipient_total fee σ :
  nonneg (balances σ.1) → 0 <= fee →
  token_sum (id σ.2) (balances σ.1) + fee <= umax 128 →
  ∃ σ', credit_fee_recipient fee σ = (σ', Ok tt).
Proof.
  intros Hn Hfee Hu. unfold credit_fee_recipient. case_match; [|by exists σ].
  erewrite bind_step by done. erewrite bind_step by apply read_balance_total.
  pose proof (bal_le_token_sum (id σ.2) _ (fee_recipient σ.2) Hn).
  unfold checked_add. replace (_ <=? _) with true by lia.
  erewrite bind_step by done.
  destruct (write_balance_total (id σ.2) (fee_recipient σ.2)
    (bal (id σ.2) (balances σ.1) (fee_recipient σ.2) + fee) σ) as (σ' & ? & _).
  by exists σ'.
Qed.

Lemma apply_burn_total burn σ :
  burn <= total_supply σ.2 → total_burned σ.2 + burn <= umax 128 →
  ∃ σ', apply_burn burn σ = (σ', Ok tt).
Proof.
  destruct σ as [s c]; simpl. intros Hs Hb. unfold apply_burn.
  case_match; [|by exists (s, c)].
  erewrite bind_step by done. unfold checked_sub. simpl.
  replace (burn <=? total_supply c) with true by lia.
  erewrite bind_step by done. erewrite bind_step by done.
  unfold checked_add. replace (_ <=? umax 128) with true by lia.
  do 3 (erewrite bind_step by done). unfold with_store. simpl.
  match goal with |- context [put_token_contract ?c s] =>
    destruct (put_token_contract_total c s) as [s' Hs'] end.
  rewrite Hs'. by eexists.
Qed.

(** On a ledger in good order, over a store whose calls do not fail, a
    transfer that passes its checks succeeds: no overflow, underflow or cap
    error can stop it after the sender has been debited. *)
Theorem apply_token_transfer_progress from to amount σ debit :
  ledger_wf σ → 0 <= amount → precheck σ from to amount = Ok debit →
  ∃ σ' r, apply_token_transfer from to amount σ = (σ', Ok r).
Proof.
  intros (Hn & Hs & Hb & Hu & Hv & Hf) Ha Hp. rewrite apply_token_transfer_split, Hp.
  apply precheck_ok in Hp as (Hv2 & _ & _ & _ & Hd & Hle).
  pose proof (wf_fees_nonneg _ _ Hf Ha) as [Hfee Hburn].
  unfold total_debit in Hd. case_match; [|done]. int_inv.
  destruct σ as [s c]; simpl in *. set (fee := compute_transfer_fee _ _) in *.
  set (burn := compute_burn_fee _ _) in *. unfold execute. fold fee burn.
  pose proof (bal_le_token_sum (id c) _ from Hn).
  erewrite bind_step by apply read_balance_total.
  destruct (credit_total (id c) from (- (amount + fee + burn)) (s, c))
    as (σ1 & Hw1 & Hc1 & Hn1 & Hs1); [done|simpl; lia|]. simpl in *.
  rewrite (bind_step _ _ _ _ _ Hw1). erewrite bind_step by apply read_balance_total.
  pose proof (bal_le_token_sum (id c) _ to Hn1). pose proof (nonneg_bal (id c) _ to Hn1).
  unfold checked_add. replace (_ <=? umax 128) with true by lia.
  erewrite bind_step by done.
  destruct (credit_total (id c) to amount σ1)
    as (σ2 & Hw2 & Hc2 & Hn2 & Hs2); [done|lia|].
  rewrite (bind_step _ _ _ _ _ Hw2).
  destruct (credit_fee_recipient_total fee σ2) as (σ3 & Hw3); [done..| |].
  { rewrite Hc2, Hc1; simpl. lia. }
  rewrite (bind_step _ _ _ _ _ Hw3). apply credit_fee_recipient_ok in Hw3 as [Hc3 _].
  rewrite Hc2, Hc1 in Hc3. simpl in Hc3.
  destruct (apply_burn_total burn σ3) as (σ4 & Hw4); [rewrite Hc3; lia..|].
  rewrite (bind_step _ _ _ _ _ Hw4). apply apply_burn_ok in Hw4 as (_ & _ & Hc4); [|done].
  erewrite bind_step by done. rewrite Hc4, Hc3. simpl.
  unfold is_valid in Hv. rewrite Hv2 in Hv. simpl in Hv.
  destruct (max_supply (supply_policy c)); simpl.
  - int_inv. replace (_ <? _) with false by lia. simpl. by repeat eexists.
  - by repeat eexists.
Qed.

End Progress.

(** ** Fees *)

Lemma transfer_fee_exact f amount :
  transfer_fee_bps f ≠ 0 → amount * transfer_fee_bps f <= umax 128 →
  compute_transfer_fee f amount =
  let fee := Z.max (amount * transfer_fee_bps f / MAX_BPS) (min_fee f) in
  if 0 <? fee_cap f then Z.min fee (fee_cap f) else fee.
Proof.
  intros Hb Hs. unfold compute_transfer_fee. rewrite saturating_mul_small by done.
  by case_match; int_inv.
Qed.

Lemma burn_fee_exact f amount :
  amount * burn_fee_bps f <= umax 128 →
  compute_burn_fee f amount =
  let fee := amount * burn_fee_bps f / MAX_BPS in
  if (burn_fee_bps f =? 0) then 0
  else if 0 <? fee_cap f then Z.min fee (fee_cap f) else fee.
Proof. intros Hs. unfold compute_burn_fee. by rewrite saturating_mul_small. Qed.

(** With fees of at most 100% and an amount whose product with the rates
    fits 128 bits, the sender pays the amount plus at most the amount again for
    each of the two fees and the minimum fee; with a cap, at most the cap for
    each fee; and the total is refused exactly when it does not fit. *)
Theorem total_debit_bounds f amount :
  wf_fees f → transfer_fee_bps f <= MAX_BPS → burn_fee_bps f <= MAX_BPS →
  0 <= amount → amount * MAX_BPS <= umax 128 →
  match total_debit f amount with
  | Some debit =>
      amount <= debit <= amount + (amount + min_fee f) + amount ∧
      (0 < fee_cap f → debit <= amount + fee_cap f + fee_cap f)
  | None => umax 128 < amount + compute_transfer_fee f amount + compute_burn_fee f amount
  end.
Proof.
  intros Hf Ht Hb Ha Hs. pose proof (wf_fees_nonneg f amount Hf Ha) as [Hfee Hburn].
  unfold wf_fees, in_u in Hf.
  assert (∀ b, 0 <= b <= MAX_BPS → amount * b <= umax 128 ∧ amount * b / MAX_BPS <= amount) as Hrate.
  { intros b Hr. split; [nia|]. apply Z.div_le_upper_bound; unfold MAX_BPS in *; nia. }
  destruct (Hrate (transfer_fee_bps f)) as [Ht1 Ht2]; [lia|].
  destruct (Hrate (burn_fee_bps f)) as [Hb1 Hb2]; [lia|].
  assert (compute_transfer_fee f amount <= amount + min_fee f ∧
          (0 < fee_cap f → compute_transfer_fee f amount <= fee_cap f)) as [??].
  { unfold compute_transfer_fee. rewrite saturating_mul_small by done.
    repeat case_match; int_inv; lia. }
  assert (compute_burn_fee f amount <= amount ∧
          (0 < fee_cap f → compute_burn_fee f amount <= fee_cap f)) as [??].
  { rewrite burn_fee_exact by done. simpl. repeat case_match; int_inv; lia. }
  unfold total_debit. repeat case_match; int_inv; simplify_eq; try split; lia.
Qed.

(** ** Authorities *)

(** Adding or removing a role assignment changes that assignment and no
    other, so a role held by an address is held until it is removed. *)
Theorem authority_set_spec a role address role' address' :
  has_role (AuthoritySet_add role address a) role' address' =
    (bool_decide (role' = role ∧ address' = address) || has_role a role' address') ∧
  has_role (AuthoritySet_remove role address a) role' address' =
    (negb (bool_decide (role' = role ∧ address' = address)) && has_role a role' address').
Proof.
  unfold has_role, AuthoritySet_add, AuthoritySet_remove.
  destruct (decide (role' = role)) as [->|Hr].
  - split.
    + simpl. rewrite lookup_insert_eq.
      destruct (authorities_of a !! role); simpl;
        repeat case_bool_decide; set_solver.
    + destruct (authorities_of a !! role) eqn:E; simpl; rewrite ?lookup_insert_eq, ?E;
        repeat case_bool_decide; set_solver.
  - split.
    + simpl. rewrite lookup_insert_ne by done.
      rewrite (bool_decide_false (role' = role ∧ _)) by naive_solver. done.
    + rewrite (bool_decide_false (role' = role ∧ _)) by naive_solver.
      destruct (authorities_of a !! role) eqn:E; simpl; [|done].
      by rewrite lookup_insert_ne.
Qed.

(** ** A concrete ledger *)

Definition demo_fees : FeeSchedule :=
  {| transfer_fee_bps := 100; burn_fee_bps := 50; fee_cap := 0; min_fee := 10 |}.

Definition demo_contract : TokenContract := {|
  id := 7; spec_version := SPEC_VERSION; name := "Demo"; symbol := "DMO";
  decimals := 8; metadata_hash := 0; supply_policy := CappedMint 2000000 Mint;
  transfer_policy := Free; fee_schedule := demo_fees;
  authorities := AuthoritySet_add Mint 3 AuthoritySet_new;
  treasury := 90; fee_recipient := 91; total_supply := 1000000;
  total_burned := 0; paused := false |}.

Definition demo_store : MockTokenStore :=
  {| mock_contracts := ∅; mock_balances := {[ (7, 1) := 600000; (7, 2) := 400000 ]} |}.

Lemma demo_ledger_wf : ledger_wf (demo_store, demo_contract).
Proof.
  unfold ledger_wf. split_and!; try by vm_compute.
  intros k v. simpl. rewrite lookup_insert_Some, lookup_singleton_Some. naive_solver lia.
Qed.

Lemma apply_token_transfer_refines_witness :
  let σ' := (apply_token_transfer 1 2 50000 (demo_store, demo_contract)).1 in
  balances σ'.1 =
    ledger_transfer 7 1 2 91 50000 500 250 (mock_balances demo_store) ∧
  total_supply σ'.2 = 999750.
Proof.
  destruct (apply_token_transfer_refines 1 2 50000 (demo_store, demo_contract)
    (apply_token_transfer 1 2 50000 (demo_store, demo_contract)).1
    {| res_amount := 50000; res_transfer_fee := 500;
       res_burn_fee := 250; res_total_debit := 50750 |}) as (_ & Hb & Hc & _).
  - apply demo_ledger_wf.
  - lia.
  - by vm_compute.
  - split; [exact Hb|by rewrite Hc].
Defined.

Lemma apply_token_transfer_wf_witness :
  ledger_wf (apply_token_transfer 1 2 50000 (demo_store, demo_contract)).1.
Proof.
  apply (apply_token_transfer_wf 1 2 50000 (demo_store, demo_contract) _
    {| res_amount := 50000; res_transfer_fee := 500;
       res_burn_fee := 250; res_total_debit := 50750 |}).
  - apply demo_ledger_wf.
  - lia.
  - by vm_compute.
Defined.

Lemma apply_token_transfer_guarded_witness :
  ∃ debit, total_debit demo_fees 50000 = Some debit ∧
           debit <= bal 7 (mock_balances demo_store) 1.
Proof.
  destruct (apply_token_transfer_guarded 1 2 50000 (demo_store, demo_contract) _ _
    (surjective_pairing _)) as (_ & _ & _ & _ & Hd).
  - right. by vm_compute.
  - exact Hd.
Defined.

Lemma apply_token_transfer_progress_witness :
  ∃ σ' r, apply_token_transfer 1 2 50000 (demo_store, demo_contract) = (σ', Ok r).
Proof.
  apply (apply_token_transfer_progress 1 2 50000 (demo_store, demo_contract) 50750).
  - apply demo_ledger_wf.
  - lia.
  - by vm_compute.
Defined.

Lemma total_debit_bounds_witness :
  total_debit demo_fees 50000 = Some 50750 ∧ 50000 <= 50750 <= 50000 + 50010 + 50000.
Proof.
  assert (total_debit demo_fees 50000 = Some 50750) as Hd by (by vm_compute).
  pose proof (total_debit_bounds demo_fees 50000) as Hb. rewrite Hd in Hb.
  split; [done|]. change (50000 + 50010) with (50000 + (50000 + min_fee demo_fees)).
  apply Hb; by vm_compute.
Defined.

(** The writes of a transfer are not atomic.  On a store whose balances do
    not add up to the supply, the recipient's credit can overflow after the
    sender's debit has been written: the call returns an error and the sender's
    tokens are gone. *)
Theorem apply_token_transfer_not_atomic :
  let store := {| mock_contracts := ∅;
                  mock_balances := {[ (7, 1) := 600000; (7, 2) := umax 128 ]} |} in
  let '((s', _), r) := apply_token_transfer 1 2 50000 (store, demo_contract) in
  r = Err Overflow ∧
  bal 7 (mock_balances s') 1 = 600000 - 50750 ∧
  bal 7 (mock_balances s') 2 = umax 128.
Proof. by vm_compute. Qed.
