(* ===== verification/Fees.v ===== *)
(** * Transaction fees (lib-fees, lib-types)

    The types of [lib-types/src/fees.rs] and the fee model of
    [lib-fees/src/model_v2.rs]: per-kind witness caps and multipliers,
    [compute_fee_v2], [verify_fee] and the estimators.

    The theorems: the 128-bit saturating computation never saturates, so that it
    equals the formula of its documentation over unbounded integers
    ([fee_formula]); fees are monotone in every resource; [verify_fee] accepts
    exactly the fees the block executor must accept; the estimated range is
    ordered and lies within the configured limits. *)
From stdpp Require Import base tactics numbers list option.
From S2P Require Import Prelude.

Inductive TxKind : Type :=
| NativeTransfer | TokenTransfer | ContractCall | DataUpload | Governance
| Staking | Unstaking | ValidatorRegistration | ValidatorExit.

#[export] Instance TxKind_eq_dec : EqDecision TxKind.
Proof. solve_decision. Defined.

Inductive SigScheme : Type := Ed25519 | Dilithium5 | Hybrid.

#[export] Instance SigScheme_eq_dec : EqDecision SigScheme.
Proof. solve_decision. Defined.

Record FeeInput : Type := {
  kind : TxKind;
  sig_scheme : SigScheme;
  sig_count : Z;          (* u8 *)
  envelope_bytes : Z;     (* u32, as the fields below *)
  payload_bytes : Z;
  witness_bytes : Z;
  exec_units : Z;
  state_reads : Z;
  state_writes : Z;
  state_write_bytes : Z;
  zk_verify_units : Z;
}.

Record FeeParams : Type := {
  base_fee_per_byte : Z;  (* u64, as the fields below *)
  fee_per_exec_unit : Z;
  fee_per_state_read : Z;
  fee_per_state_write : Z;
  fee_per_state_write_byte : Z;
  fee_per_signature : Z;
  fee_per_zk_verify_unit : Z;
  minimum_fee : Z;
  maximum_fee : Z;
}.

Definition FeeParams_default : FeeParams := {|
  base_fee_per_byte := 1; fee_per_exec_unit := 10; fee_per_state_read := 100;
  fee_per_state_write := 500; fee_per_state_write_byte := 10;
  fee_per_signature := 1000; fee_per_zk_verify_unit := 0;
  minimum_fee := 1000; maximum_fee := 1000000000 |}.

Definition FeeParams_for_testing : FeeParams := {|
  base_fee_per_byte := 1; fee_per_exec_unit := 10; fee_per_state_read := 100;
  fee_per_state_write := 500; fee_per_state_write_byte := 10;
  fee_per_signature := 1000; fee_per_zk_verify_unit := 0;
  minimum_fee := 1000; maximum_fee := 100000000 |}.

Inductive FeeParamsError : Type :=
| MinExceedsMax (min max : Z)
| ZeroBaseFeePerByte
| ZeroFeePerStateRead
| ZeroFeePerStateWrite
| ZeroFeePerSignature
| ZeroFeePerExecUnit.

Definition FeeParams_validate (p : FeeParams) : result unit FeeParamsError :=
  if maximum_fee p <? minimum_fee p
  then Err (MinExceedsMax (minimum_fee p) (maximum_fee p))
  else if base_fee_per_byte p =? 0 then Err ZeroBaseFeePerByte
  else if fee_per_state_read p =? 0 then Err ZeroFeePerStateRead
  else if fee_per_state_write p =? 0 then Err ZeroFeePerStateWrite
  else if fee_per_signature p =? 0 then Err ZeroFeePerSignature
  else if fee_per_exec_unit p =? 0 then Err ZeroFeePerExecUnit
  else Ok tt.

Record FeeDeficit : Type := { required : Z; paid : Z; deficit : Z }.

(** ** Kinds and signature schemes *)

Definition witness_cap (k : TxKind) : Z :=
  match k with
  | NativeTransfer => 1024
  | TokenTransfer => 2048
  | ContractCall => 65536
  | DataUpload => 131072
  | Governance => 4096
  | Staking => 2048
  | Unstaking => 2048
  | ValidatorRegistration => 4096
  | ValidatorExit => 2048
  end.

Definition base_multiplier_bps (k : TxKind) : Z :=
  match k with
  | NativeTransfer => 10000
  | TokenTransfer => 12000
  | ContractCall => 15000
  | DataUpload => 20000
  | Governance => 5000
  | Staking => 12000
  | Unstaking => 12000
  | ValidatorRegistration => 13000
  | ValidatorExit => 12000
  end.

Definition size_multiplier_bps (s : SigScheme) : Z :=
  match s with Ed25519 => 10000 | Dilithium5 => 50000 | Hybrid => 55000 end.

Definition signature_size (s : SigScheme) : Z :=
  match s with Ed25519 => 64 | Dilithium5 => 4627 | Hybrid => 4691 end.

Definition native_transfer (envelope : Z) (scheme : SigScheme) : FeeInput := {|
  kind := NativeTransfer; sig_scheme := scheme; sig_count := 1;
  envelope_bytes := envelope; payload_bytes := 32;
  witness_bytes := signature_size scheme; exec_units := 0; state_reads := 2;
  state_writes := 2; state_write_bytes := 32; zk_verify_units := 0 |}.

Definition effective_witness_bytes (i : FeeInput) : Z :=
  Z.min (witness_bytes i) (witness_cap (kind i)).

Definition total_bytes (i : FeeInput) : Z :=
  saturating_add 32 (saturating_add 32 (envelope_bytes i) (payload_bytes i))
    (effective_witness_bytes i).

(** ** Fee computation *)

Definition compute_fee_v2 (i : FeeInput) (p : FeeParams) : Z :=
  let effective_witness := effective_witness_bytes i in
  let total_bytes :=
    saturating_add 128 (saturating_add 128 (envelope_bytes i) (payload_bytes i))
      effective_witness in
  let byte_fee := saturating_mul 128 total_bytes (base_fee_per_byte p) in
  let exec_fee := saturating_mul 128 (exec_units i) (fee_per_exec_unit p) in
  let state_read_fee := saturating_mul 128 (state_reads i) (fee_per_state_read p) in
  let state_write_fee := saturating_mul 128 (state_writes i) (fee_per_state_write p) in
  let state_write_byte_fee :=
    saturating_mul 128 (state_write_bytes i) (fee_per_state_write_byte p) in
  let state_fee :=
    saturating_add 128 (saturating_add 128 state_read_fee state_write_fee)
      state_write_byte_fee in
  let sig_base_fee := saturating_mul 128 (sig_count i) (fee_per_signature p) in
  let sig_multiplier := size_multiplier_bps (sig_scheme i) in
  let sig_fee := saturating_mul 128 sig_base_fee sig_multiplier / 10000 in
  let zk_verify_fee := saturating_mul 128 (zk_verify_units i) (fee_per_zk_verify_unit p) in
  let base_fee :=
    saturating_add 128 (saturating_add 128 (saturating_add 128
      (saturating_add 128 byte_fee exec_fee) state_fee) sig_fee) zk_verify_fee in
  let kind_multiplier := base_multiplier_bps (kind i) in
  let adjusted_fee := saturating_mul 128 base_fee kind_multiplier / 10000 in
  let clamped := Z.min (Z.max adjusted_fee (minimum_fee p)) (maximum_fee p) in
  as_u 64 clamped.

Definition verify_fee (i : FeeInput) (p : FeeParams) (paid_fee : Z)
    : result unit FeeDeficit :=
  let req := compute_fee_v2 i p in
  if req <=? paid_fee then Ok tt
  else Err {| required := req; paid := paid_fee; deficit := wsub 64 req paid_fee |}.

(** ** Estimators *)

Definition estimate_native_transfer_fee (s : SigScheme) (p : FeeParams) : Z :=
  compute_fee_v2 (native_transfer 200 s) p.

Definition estimate_token_transfer_fee (s : SigScheme) (p : FeeParams) : Z :=
  let i := native_transfer 250 s in
  compute_fee_v2 {|
    kind := TokenTransfer; sig_scheme := sig_scheme i; sig_count := sig_count i;
    envelope_bytes := envelope_bytes i; payload_bytes := 64;
    witness_bytes := witness_bytes i; exec_units := exec_units i; state_reads := 3;
    state_writes := 3; state_write_bytes := state_write_bytes i;
    zk_verify_units := zk_verify_units i |} p.

Definition estimate_contract_call_fee (s : SigScheme) (units : Z) (p : FeeParams) : Z :=
  compute_fee_v2 {|
    kind := ContractCall; sig_scheme := s; sig_count := 1; envelope_bytes := 300;
    payload_bytes := 256; witness_bytes := signature_size s; exec_units := units;
    state_reads := 5; state_writes := 3; state_write_bytes := 128;
    zk_verify_units := 0 |} p.

Definition estimate_min_input (k : TxKind) (s : SigScheme) : FeeInput := {|
  kind := k; sig_scheme := s; sig_count := 1; envelope_bytes := 100;
  payload_bytes := 32; witness_bytes := signature_size s; exec_units := 0;
  state_reads := 2; state_writes := 2; state_write_bytes := 32;
  zk_verify_units := 0 |}.

Definition estimate_max_input (k : TxKind) (s : SigScheme) : FeeInput := {|
  kind := k; sig_scheme := s; sig_count := 1; envelope_bytes := 500;
  payload_bytes := 256; witness_bytes := Z.min (witness_cap k) 4096;
  exec_units := match k with ContractCall => 1000 | DataUpload => 500 | _ => 0 end;
  state_reads := 10; state_writes := 5; state_write_bytes := 256;
  zk_verify_units := 0 |}.

Definition estimate_fee_range (k : TxKind) (s : SigScheme) (p : FeeParams) : Z * Z :=
  let min_fee := compute_fee_v2 (estimate_min_input k s) p in
  let max_fee := compute_fee_v2 (estimate_max_input k s) p in
  (Z.min (Z.max min_fee (minimum_fee p)) (maximum_fee p),
   Z.min (Z.max max_fee (minimum_fee p)) (maximum_fee p)).

(** ** The documented formula, over unbounded integers *)

Definition wf_input (i : FeeInput) : Prop :=
  in_u 8 (sig_count i) ∧ in_u 32 (envelope_bytes i) ∧ in_u 32 (payload_bytes i) ∧
  in_u 32 (witness_bytes i) ∧ in_u 32 (exec_units i) ∧ in_u 32 (state_reads i) ∧
  in_u 32 (state_writes i) ∧ in_u 32 (state_write_bytes i) ∧ in_u 32 (zk_verify_units i).

Definition wf_params (p : FeeParams) : Prop :=
  in_u 64 (base_fee_per_byte p) ∧ in_u 64 (fee_per_exec_unit p) ∧
  in_u 64 (fee_per_state_read p) ∧ in_u 64 (fee_per_state_write p) ∧
  in_u 64 (fee_per_state_write_byte p) ∧ in_u 64 (fee_per_signature p) ∧
  in_u 64 (fee_per_zk_verify_unit p) ∧ in_u 64 (minimum_fee p) ∧ in_u 64 (maximum_fee p).

(** The fee before the kind's multiplier. *)
Definition base_formula (i : FeeInput) (p : FeeParams) : Z :=
  (envelope_bytes i + payload_bytes i + effective_witness_bytes i) * base_fee_per_byte p
  + exec_units i * fee_per_exec_unit p
  + (state_reads i * fee_per_state_read p + state_writes i * fee_per_state_write p
     + state_write_bytes i * fee_per_state_write_byte p)
  + sig_count i * fee_per_signature p * size_multiplier_bps (sig_scheme i) / 10000
  + zk_verify_units i * fee_per_zk_verify_unit p.

Definition fee_formula (i : FeeInput) (p : FeeParams) : Z :=
  Z.min (Z.max (base_formula i p * base_multiplier_bps (kind i) / 10000)
               (minimum_fee p)) (maximum_fee p).

Lemma multipliers_range k s :
  0 < base_multiplier_bps k <= 20000 ∧ 0 < size_multiplier_bps s <= 55000 ∧
  0 < witness_cap k <= 131072 ∧ 0 < signature_size s <= 4691.
Proof. destruct k, s; simpl; lia. Qed.

Lemma mul_bound a b A B : 0 <= a <= A → 0 <= b <= B → 0 <= a * b <= A * B.
Proof. nia. Qed.

(** The products of the computation fit far below 128 bits. *)
Lemma resource_fee_bound a b : in_u 32 a → in_u 64 b → 0 <= a * b <= 2 ^ 96.
Proof.
  unfold in_u, umax; intros. pose proof (mul_bound a b (2 ^ 32) (2 ^ 64)). lia.
Qed.

Lemma compute_fee_v2_formula i p :
  wf_input i → wf_params p → compute_fee_v2 i p = fee_formula i p.
Proof.
  intros (Hsc & Henv & Hpay & Hwit & Hex & Hrd & Hwr & Hwb & Hzk)
         (Hb & He & Hr & Hw & Hwby & Hs & Hz & Hmin & Hmax).
  pose proof (multipliers_range (kind i) (sig_scheme i)) as (Hk & Hm & Hc & _).
  pose proof (resource_fee_bound _ _ Hex He). pose proof (resource_fee_bound _ _ Hrd Hr).
  pose proof (resource_fee_bound _ _ Hwr Hw). pose proof (resource_fee_bound _ _ Hwb Hwby).
  pose proof (resource_fee_bound _ _ Hzk Hz).
  unfold in_u, umax in *.
  assert (0 <= effective_witness_bytes i <= 131072) as Heff
    by (unfold effective_witness_bytes; lia).
  pose proof (mul_bound (envelope_bytes i + payload_bytes i + effective_witness_bytes i)
    (base_fee_per_byte p) (2 ^ 34) (2 ^ 64) ltac:(lia) ltac:(lia)).
  pose proof (mul_bound (sig_count i) (fee_per_signature p) (2 ^ 8) (2 ^ 64)
    ltac:(lia) ltac:(lia)).
  pose proof (mul_bound (sig_count i * fee_per_signature p)
    (size_multiplier_bps (sig_scheme i)) (2 ^ 72) (2 ^ 16) ltac:(lia) ltac:(lia)) as Hsig.
  assert (0 <= sig_count i * fee_per_signature p * size_multiplier_bps (sig_scheme i) / 10000
          <= 2 ^ 88) as Hsig'.
  { split; [apply Z.div_pos; lia|apply Z.div_le_upper_bound; lia]. }
  assert (0 <= base_formula i p <= 2 ^ 100) as Hbase by (unfold base_formula; lia).
  pose proof (mul_bound (base_formula i p) (base_multiplier_bps (kind i)) (2 ^ 100) (2 ^ 15)
    ltac:(lia) ltac:(lia)).
  unfold compute_fee_v2, fee_formula, base_formula in *. unsat.
  apply as_u_small. unfold in_u, umax. lia.
Qed.

(** For every transaction and every parameter setting that fits its types,
    the 128-bit saturating computation and its final cast lose nothing: the fee
    is the documented formula over unbounded integers, and lies between the
    minimum and the maximum fee whenever the two are in order. *)
Theorem compute_fee_v2_exact i p :
  wf_input i → wf_params p →
  compute_fee_v2 i p = fee_formula i p ∧
  (minimum_fee p <= maximum_fee p → minimum_fee p <= compute_fee_v2 i p) ∧
  compute_fee_v2 i p <= maximum_fee p.
Proof.
  intros Hi Hp. rewrite compute_fee_v2_formula by done. unfold fee_formula. lia.
Qed.

(** [i1] uses no more of any resource than [i2]. *)
Definition input_le (i1 i2 : FeeInput) : Prop :=
  kind i1 = kind i2 ∧ sig_scheme i1 = sig_scheme i2 ∧
  sig_count i1 <= sig_count i2 ∧
  envelope_bytes i1 + payload_bytes i1 + effective_witness_bytes i1 <=
    envelope_bytes i2 + payload_bytes i2 + effective_witness_bytes i2 ∧
  exec_units i1 <= exec_units i2 ∧ state_reads i1 <= state_reads i2 ∧
  state_writes i1 <= state_writes i2 ∧ state_write_bytes i1 <= state_write_bytes i2 ∧
  zk_verify_units i1 <= zk_verify_units i2.

Lemma fee_formula_mono i1 i2 p :
  wf_params p → input_le i1 i2 → fee_formula i1 p <= fee_formula i2 p.
Proof.
  intros (Hb & He & Hr & Hw & Hwby & Hs & Hz & _)
    (Hk & Hsch & Hsc & Hby & Hex & Hrd & Hwr & Hwb & Hzk).
  unfold in_u in *. unfold fee_formula. rewrite Hk.
  apply Z.min_le_compat_r, Z.max_le_compat_r, Z.div_le_mono; [lia|].
  pose proof (multipliers_range (kind i2) (sig_scheme i2)).
  apply Z.mul_le_mono_nonneg_r; [lia|]. unfold base_formula. rewrite Hsch.
  repeat apply Z.add_le_mono; try (apply Z.mul_le_mono_nonneg_r; lia).
  apply Z.div_le_mono; [lia|]. repeat (apply Z.mul_le_mono_nonneg_r; [lia|]). done.
Qed.

(** A transaction that uses at least as much of every resource (bytes,
    signatures, execution, state access, proof verification) never pays less;
    bytes of witness beyond the kind's cap are free. *)
Theorem compute_fee_v2_mono i1 i2 p :
  wf_input i1 → wf_input i2 → wf_params p → input_le i1 i2 →
  compute_fee_v2 i1 p <= compute_fee_v2 i2 p.
Proof. intros. rewrite !compute_fee_v2_formula by done. by apply fee_formula_mono. Qed.

(** [verify_fee] accepts a fee exactly when it is at least the required
    one, and otherwise reports the required fee and the positive shortfall. *)
Theorem verify_fee_spec i p paid_fee :
  wf_input i → wf_params p → in_u 64 paid_fee →
  match verify_fee i p paid_fee with
  | Ok _ => fee_formula i p <= paid_fee
  | Err d => required d = fee_formula i p ∧ paid d = paid_fee ∧
             0 < deficit d ∧ paid_fee + deficit d = fee_formula i p
  end.
Proof.
  intros Hi Hp Hpaid. unfold verify_fee. rewrite compute_fee_v2_formula by done.
  destruct (Z.leb_spec (fee_formula i p) paid_fee); simpl; [done|].
  destruct Hp as (_ & _ & _ & _ & _ & _ & _ & _ & Hmax).
  rewrite wsub_small; [lia|]. unfold in_u, fee_formula in *. lia.
Qed.

(** The two ends of an estimated fee range are in order and within the
    configured limits, for every kind, scheme and validated parameter setting. *)
Theorem estimate_fee_range_ordered k s p :
  wf_params p → FeeParams_validate p = Ok tt →
  let '(lo, hi) := estimate_fee_range k s p in
  minimum_fee p <= lo ∧ lo <= hi ∧ hi <= maximum_fee p.
Proof.
  intros Hp Hv. unfold FeeParams_validate in Hv.
  destruct (Z.ltb_spec (maximum_fee p) (minimum_fee p)); [done|]. clear Hv.
  assert (wf_input (estimate_min_input k s) ∧ wf_input (estimate_max_input k s)) as [??].
  { pose proof (multipliers_range k s).
    unfold wf_input, in_u, umax; simpl. destruct k; simpl in *; lia. }
  assert (compute_fee_v2 (estimate_min_input k s) p <=
          compute_fee_v2 (estimate_max_input k s) p) as Hle.
  { rewrite !compute_fee_v2_formula by done. apply fee_formula_mono; [done|].
    unfold input_le, effective_witness_bytes. destruct k, s; simpl; split_and!; by try lia. }
  unfold estimate_fee_range.
  generalize dependent (compute_fee_v2 (estimate_min_input k s) p).
  generalize dependent (compute_fee_v2 (estimate_max_input k s) p). lia.
Qed.

(** ** Concrete instances *)

Lemma wf_params_default : wf_params FeeParams_default.
Proof. unfold wf_params, in_u, umax; simpl; lia. Qed.

Lemma wf_native_transfer s : wf_input (native_transfer 200 s).
Proof. unfold wf_input, in_u, umax; destruct s; simpl; lia. Qed.

Lemma compute_fee_v2_exact_witness :
  compute_fee_v2 (native_transfer 200 Dilithium5) FeeParams_default = 7776 ∧
  fee_formula (native_transfer 200 Dilithium5) FeeParams_default = 7776.
Proof.
  split; [by vm_compute|].
  destruct (compute_fee_v2_exact (native_transfer 200 Dilithium5) FeeParams_default
    (wf_native_transfer _) wf_params_default) as [<- _].
  by vm_compute.
Defined.

Lemma compute_fee_v2_mono_witness :
  estimate_native_transfer_fee Ed25519 FeeParams_default <=
  compute_fee_v2 (native_transfer 300 Ed25519) FeeParams_default.
Proof.
  apply (compute_fee_v2_mono (native_transfer 200 Ed25519) (native_transfer 300 Ed25519)).
  - apply wf_native_transfer.
  - unfold wf_input, in_u, umax; simpl; lia.
  - apply wf_params_default.
  - unfold input_le, effective_witness_bytes; simpl; split_and!; by try lia.
Defined.

Lemma verify_fee_spec_witness :
  verify_fee (native_transfer 200 Dilithium5) FeeParams_default 7000 =
    Err {| required := 7776; paid := 7000; deficit := 776 |} ∧
  7000 + 776 = fee_formula (native_transfer 200 Dilithium5) FeeParams_default.
Proof.
  assert (verify_fee (native_transfer 200 Dilithium5) FeeParams_default 7000 =
    Err {| required := 7776; paid := 7000; deficit := 776 |}) as Hc by (by vm_compute).
  split; [done|].
  pose proof (verify_fee_spec (native_transfer 200 Dilithium5) FeeParams_default 7000
    (wf_native_transfer _) wf_params_default ltac:(unfold in_u, umax; lia)) as Hv.
  rewrite Hc in Hv. apply Hv.
Defined.

Lemma estimate_fee_range_ordered_witness :
  estimate_fee_range ContractCall Dilithium5 FeeParams_default = (16918, 38868) ∧
  16918 <= 38868.
Proof.
  assert (estimate_fee_range ContractCall Dilithium5 FeeParams_default = (16918, 38868))
    as Hc by (by vm_compute).
  split; [done|].
  pose proof (estimate_fee_range_ordered ContractCall Dilithium5 FeeParams_default
    wf_params_default eq_refl) as Hr.
  rewrite Hc in Hr. apply Hr.
Defined.
