(* ===== verification/Mempool.v ===== *)
(** * Mempool admission (lib-mempool, lib-types)

    The configuration, state and transaction view of
    [lib-types/src/mempool.rs], the bookkeeping of [lib-mempool/src/state.rs]
    and the admission check of [lib-mempool/src/admission.rs].

    The theorems: [mempool_admit] accepts exactly the transactions within every limit
    that pay the documented fee; as long as transactions enter through [mempool_admit]
    and only pooled transactions are removed, the counters describe the pool
    exactly and stay within the configured capacity (an invariant of the step
    relation [pool_step]); the per-period rate limit, however, is forgotten when
    the sender's last pending transaction leaves. *)
From stdpp Require Import base tactics numbers list option gmap fin_maps strings.
From S2P Require Import Prelude Fees.

Notation Address := Z (only parsing).

Record MempoolConfig : Type := {
  max_mempool_bytes : Z;         (* u64 *)
  max_tx_count : Z;              (* u32 *)
  max_per_sender : Z;            (* u32 *)
  max_tx_bytes : Z;              (* u32 *)
  max_witness_bytes : Z;         (* u32 *)
  max_signatures : Z;            (* u8 *)
  max_inputs : Z;                (* u16 *)
  max_outputs : Z;               (* u16 *)
  min_fee_multiplier_bps : Z;    (* u16 *)
  max_per_sender_per_period : Z; (* u32 *)
  rate_limit_period_blocks : Z;  (* u32 *)
}.

Definition MempoolConfig_default : MempoolConfig := {|
  max_mempool_bytes := 50 * 1024 * 1024; max_tx_count := 50000;
  max_per_sender := 100; max_tx_bytes := 100000; max_witness_bytes := 50000;
  max_signatures := 16; max_inputs := 256; max_outputs := 256;
  min_fee_multiplier_bps := 10000; max_per_sender_per_period := 10;
  rate_limit_period_blocks := 10 |}.

Definition MempoolConfig_for_testing : MempoolConfig := {|
  max_mempool_bytes := umax 64; max_tx_count := umax 32; max_per_sender := umax 32;
  max_tx_bytes := umax 32; max_witness_bytes := umax 32; max_signatures := umax 8;
  max_inputs := umax 16; max_outputs := umax 16; min_fee_multiplier_bps := 10000;
  max_per_sender_per_period := umax 32; rate_limit_period_blocks := 1 |}.

Definition effective_min_fee (c : MempoolConfig) (computed_fee : Z) : Z :=
  saturating_mul 128 computed_fee (min_fee_multiplier_bps c) / 10000.

Record SenderState : Type := {
  pending_count : Z;       (* u32 *)
  sender_total_bytes : Z;  (* u64 *)
  period_count : Z;        (* u32 *)
  period_start_block : Z;  (* u64 *)
}.

Definition SenderState_default : SenderState :=
  {| pending_count := 0; sender_total_bytes := 0; period_count := 0;
     period_start_block := 0 |}.

Record MempoolState : Type := {
  pool_bytes : Z;          (* u64, [total_bytes] *)
  tx_count : Z;            (* u32 *)
  per_sender : gmap Address SenderState;
}.

Definition MempoolState_new : MempoolState :=
  {| pool_bytes := 0; tx_count := 0; per_sender := ∅ |}.

Inductive AdmitErrorKind : Type :=
| InsufficientFee (required provided : Z)
| TxTooLarge (size max : Z)
| WitnessTooLarge (size max : Z)
| TooManyInputs (count max : Z)
| TooManyOutputs (count max : Z)
| TooManySignatures (count max : Z)
| MempoolFull
| MempoolBytesFull (prospective_total_bytes max : Z)
| SenderLimitReached (sender : Address) (count max : Z)
| RateLimited (sender : Address) (period_count max : Z)
| InvalidTransaction (msg : string)
| DuplicateTransaction.

Inductive AdmitResult : Type := Accepted | Rejected (e : AdmitErrorKind).

Definition is_accepted (r : AdmitResult) : bool :=
  match r with Accepted => true | Rejected _ => false end.

Definition is_rejected (r : AdmitResult) : bool :=
  match r with Rejected _ => true | Accepted => false end.

Record AdmitTx : Type := {
  fee : Z;                 (* u128 *)
  tx_bytes : Z;            (* u32 *)
  tx_witness_bytes : Z;    (* u32 *)
  input_count : Z;         (* u16 *)
  output_count : Z;        (* u16 *)
  tx_sig_count : Z;        (* u8 *)
  tx_kind : TxKind;
  tx_sig_scheme : SigScheme;
  sender : Address;
  compute_units : Z;       (* u32, as the fields below *)
  tx_state_reads : Z;
  tx_state_writes : Z;
  tx_state_write_bytes : Z;
}.

(** ** State bookkeeping *)

Definition get_sender (s : MempoolState) (a : Address) : option SenderState :=
  per_sender s !! a.

Definition sender_pending_count (s : MempoolState) (a : Address) : Z :=
  default 0 (pending_count <$> per_sender s !! a).

Definition sender_period_count (s : MempoolState) (a : Address)
    (current_block period_blocks : Z) : Z :=
  match per_sender s !! a with
  | Some st =>
      if current_block <? wadd 64 (period_start_block st) period_blocks
      then period_count st else 0
  | None => 0
  end.

Definition add_sender_tx (st : SenderState) (bytes current_block period_blocks : Z)
    : SenderState :=
  let pending := saturating_add 32 (pending_count st) 1 in
  let total := saturating_add 64 (sender_total_bytes st) bytes in
  if wadd 64 (period_start_block st) period_blocks <=? current_block then
    {| pending_count := pending; sender_total_bytes := total;
       period_count := 1; period_start_block := current_block |}
  else
    {| pending_count := pending; sender_total_bytes := total;
       period_count := saturating_add 32 (period_count st) 1;
       period_start_block := period_start_block st |}.

Definition add_tx (a : Address) (bytes current_block period_blocks : Z)
    (s : MempoolState) : MempoolState := {|
  pool_bytes := saturating_add 64 (pool_bytes s) bytes;
  tx_count := saturating_add 32 (tx_count s) 1;
  per_sender :=
    <[a := add_sender_tx (default SenderState_default (per_sender s !! a))
             bytes current_block period_blocks]> (per_sender s) |}.

Definition remove_sender_tx (st : SenderState) (bytes : Z) : SenderState := {|
  pending_count := saturating_sub (pending_count st) 1;
  sender_total_bytes := saturating_sub (sender_total_bytes st) bytes;
  period_count := period_count st;
  period_start_block := period_start_block st |}.

Definition remove_tx (a : Address) (bytes : Z) (s : MempoolState) : MempoolState := {|
  pool_bytes := saturating_sub (pool_bytes s) bytes;
  tx_count := saturating_sub (tx_count s) 1;
  per_sender :=
    match per_sender s !! a with
    | Some st =>
        let st' := remove_sender_tx st bytes in
        if pending_count st' =? 0 then delete a (per_sender s)
        else <[a := st']> (per_sender s)
    | None => per_sender s
    end |}.

Definition has_byte_capacity (s : MempoolState) (max_bytes : Z) : bool :=
  pool_bytes s <? max_bytes.

Definition has_tx_capacity (s : MempoolState) (max_count : Z) : bool :=
  tx_count s <? max_count.

Definition remaining_bytes (s : MempoolState) (max_bytes : Z) : Z :=
  saturating_sub max_bytes (pool_bytes s).

Definition clear (s : MempoolState) : MempoolState :=
  {| pool_bytes := 0; tx_count := 0; per_sender := ∅ |}.

(** ** Admission *)

Definition admit_fee_input (tx : AdmitTx) : FeeInput := {|
  kind := tx_kind tx; sig_scheme := tx_sig_scheme tx; sig_count := tx_sig_count tx;
  envelope_bytes := 100;
  payload_bytes := saturating_sub (tx_bytes tx) (tx_witness_bytes tx);
  witness_bytes := tx_witness_bytes tx; exec_units := compute_units tx;
  state_reads := tx_state_reads tx; state_writes := tx_state_writes tx;
  state_write_bytes := tx_state_write_bytes tx;
  zk_verify_units := wmul 32 (input_count tx) 50 |}.

Definition mempool_admit (tx : AdmitTx) (fee_params : FeeParams) (config : MempoolConfig)
    (state : MempoolState) (current_block : Z) : AdmitResult :=
  if negb (has_tx_capacity state (max_tx_count config)) then Rejected MempoolFull
  else
  let prospective_bytes := saturating_add 64 (pool_bytes state) (tx_bytes tx) in
  if max_mempool_bytes config <? prospective_bytes
  then Rejected (MempoolBytesFull prospective_bytes (max_mempool_bytes config))
  else if max_tx_bytes config <? tx_bytes tx
  then Rejected (TxTooLarge (tx_bytes tx) (max_tx_bytes config))
  else if max_witness_bytes config <? tx_witness_bytes tx
  then Rejected (WitnessTooLarge (tx_witness_bytes tx) (max_witness_bytes config))
  else
  let kind_witness_cap := witness_cap (tx_kind tx) in
  let effective_witness_cap := Z.min (max_witness_bytes config) kind_witness_cap in
  if effective_witness_cap <? tx_witness_bytes tx
  then Rejected (WitnessTooLarge (tx_witness_bytes tx) effective_witness_cap)
  else if max_inputs config <? input_count tx
  then Rejected (TooManyInputs (input_count tx) (max_inputs config))
  else if max_outputs config <? output_count tx
  then Rejected (TooManyOutputs (output_count tx) (max_outputs config))
  else if max_signatures config <? tx_sig_count tx
  then Rejected (TooManySignatures (tx_sig_count tx) (max_signatures config))
  else
  let sender_count := sender_pending_count state (sender tx) in
  if max_per_sender config <=? sender_count
  then Rejected (SenderLimitReached (sender tx) sender_count (max_per_sender config))
  else
  let period := sender_period_count state (sender tx) current_block
                  (rate_limit_period_blocks config) in
  if max_per_sender_per_period config <=? period
  then Rejected (RateLimited (sender tx) period (max_per_sender_per_period config))
  else
  let min_fee := compute_fee_v2 (admit_fee_input tx) fee_params in
  let required_fee := effective_min_fee config min_fee in
  if fee tx <? required_fee then Rejected (InsufficientFee required_fee (fee tx))
  else Accepted.

(** ** What admission promises *)

Definition wf_tx (tx : AdmitTx) : Prop :=
  in_u 128 (fee tx) ∧ in_u 32 (tx_bytes tx) ∧ in_u 32 (tx_witness_bytes tx) ∧
  in_u 16 (input_count tx) ∧ in_u 16 (output_count tx) ∧ in_u 8 (tx_sig_count tx) ∧
  in_u 32 (compute_units tx) ∧ in_u 32 (tx_state_reads tx) ∧
  in_u 32 (tx_state_writes tx) ∧ in_u 32 (tx_state_write_bytes tx).

Definition wf_config (c : MempoolConfig) : Prop :=
  in_u 64 (max_mempool_bytes c) ∧ in_u 32 (max_tx_count c) ∧
  in_u 32 (max_per_sender c) ∧ in_u 16 (min_fee_multiplier_bps c).

(** The fee a transaction must offer, over unbounded integers. *)
Definition required_fee (tx : AdmitTx) (p : FeeParams) (c : MempoolConfig) : Z :=
  fee_formula (admit_fee_input tx) p * min_fee_multiplier_bps c / 10000.

(** The limits of the configuration, as one proposition. *)
Definition within_limits (tx : AdmitTx) (c : MempoolConfig) (s : MempoolState)
    (current_block : Z) : Prop :=
  tx_count s < max_tx_count c ∧
  saturating_add 64 (pool_bytes s) (tx_bytes tx) <= max_mempool_bytes c ∧
  tx_bytes tx <= max_tx_bytes c ∧
  tx_witness_bytes tx <= max_witness_bytes c ∧
  tx_witness_bytes tx <= witness_cap (tx_kind tx) ∧
  input_count tx <= max_inputs c ∧ output_count tx <= max_outputs c ∧
  tx_sig_count tx <= max_signatures c ∧
  sender_pending_count s (sender tx) < max_per_sender c ∧
  sender_period_count s (sender tx) current_block (rate_limit_period_blocks c) <
    max_per_sender_per_period c.

Lemma admit_fee_input_wf tx : wf_tx tx → wf_input (admit_fee_input tx).
Proof.
  intros (Hf & Hb & Hw & Hi & Ho & Hs & Hc & Hr & Hwr & Hwb).
  unfold wf_input, in_u, umax, saturating_sub in *; simpl in *.
  rewrite wmul_small by (unfold umax; lia). unfold saturating_sub. lia.
Qed.

Lemma effective_min_fee_exact tx p c :
  wf_tx tx → wf_params p → wf_config c →
  effective_min_fee c (compute_fee_v2 (admit_fee_input tx) p) = required_fee tx p c.
Proof.
  intros Ht Hp (_ & _ & _ & Hm). unfold effective_min_fee, required_fee.
  rewrite compute_fee_v2_formula by (try apply admit_fee_input_wf; done).
  rewrite saturating_mul_small; [done|].
  destruct Hp as (_ & _ & _ & _ & _ & _ & _ & Hmin & Hmax).
  assert (fee_formula (admit_fee_input tx) p <= umax 64) as Hle
    by (unfold fee_formula, in_u in *; lia).
  unfold in_u, umax in *. nia.
Qed.

Lemma admit_accepted tx p c s b :
  mempool_admit tx p c s b = Accepted ↔
  within_limits tx c s b ∧
  effective_min_fee c (compute_fee_v2 (admit_fee_input tx) p) <= fee tx.
Proof.
  unfold mempool_admit, within_limits, has_tx_capacity.
  repeat case_match; int_inv; split; try done; try lia.
  all: intros Hx; exfalso; lia.
Qed.

(** A transaction is accepted exactly when the pool has room for it in
    number and in bytes, it is within every per-transaction limit and its
    kind's witness cap, its sender is below the pending and the rate limit, and
    it pays the documented fee times the configured multiplier. *)
Theorem admit_spec tx p c s b :
  wf_tx tx → wf_params p → wf_config c →
  mempool_admit tx p c s b = Accepted ↔
  within_limits tx c s b ∧ required_fee tx p c <= fee tx.
Proof. intros. by rewrite admit_accepted, effective_min_fee_exact. Qed.

(** ** The pool behind the counters *)

Notation pool_tx := (Address * Z)%type (only parsing).

Definition count_of (a : Address) (pool : list pool_tx) : Z :=
  sumZ ((λ t, if decide (t.1 = a) then 1 else 0) <$> pool).

Definition bytes_of (a : Address) (pool : list pool_tx) : Z :=
  sumZ ((λ t, if decide (t.1 = a) then t.2 else 0) <$> pool).

(** The counters describe the pool: totals, and per sender, with an entry for
    exactly the senders that have pending transactions. *)
Definition describes (pool : list pool_tx) (s : MempoolState) : Prop :=
  pool_bytes s = sumZ (snd <$> pool) ∧ tx_count s = Z.of_nat (length pool) ∧
  ∀ a, match per_sender s !! a with
       | Some st => 0 < pending_count st ∧ pending_count st = count_of a pool ∧
                    sender_total_bytes st = bytes_of a pool
       | None => count_of a pool = 0
       end.

(** A pooled transaction enters through [mempool_admit] and leaves by [remove_tx]
    (included in a block or evicted) or when everything is cleared. *)
Inductive pool_step (p : FeeParams) (c : MempoolConfig)
    : list pool_tx * MempoolState → list pool_tx * MempoolState → Prop :=
| step_add pool s tx b :
    wf_tx tx → mempool_admit tx p c s b = Accepted →
    pool_step p c (pool, s)
      ((sender tx, tx_bytes tx) :: pool,
       add_tx (sender tx) (tx_bytes tx) b (rate_limit_period_blocks c) s)
| step_remove pool pool' s a bytes :
    pool ≡ₚ (a, bytes) :: pool' →
    pool_step p c (pool, s) (pool', remove_tx a bytes s)
| step_clear pool s :
    pool_step p c (pool, s) ([], clear s).

Definition pool_inv (c : MempoolConfig) (x : list pool_tx * MempoolState) : Prop :=
  describes x.1 x.2 ∧ Forall (λ t, 0 <= t.2) x.1 ∧
  pool_bytes x.2 <= max_mempool_bytes c ∧ tx_count x.2 <= max_tx_count c ∧
  ∀ a, count_of a x.1 <= Z.max 0 (max_per_sender c).

Lemma sums_perm pool pool' a :
  pool ≡ₚ pool' →
  sumZ (snd <$> pool) = sumZ (snd <$> pool') ∧
  count_of a pool = count_of a pool' ∧ bytes_of a pool = bytes_of a pool'.
Proof. intros Hp. split_and!; apply sumZ_Permutation; by rewrite Hp. Qed.

Lemma count_cons a t pool :
  count_of a (t :: pool) = (if decide (t.1 = a) then 1 else 0) + count_of a pool.
Proof. done. Qed.

Lemma bytes_cons a t pool :
  bytes_of a (t :: pool) = (if decide (t.1 = a) then t.2 else 0) + bytes_of a pool.
Proof. done. Qed.

Lemma sender_sums_bounds a pool :
  Forall (λ t, 0 <= t.2) pool →
  0 <= count_of a pool <= Z.of_nat (length pool) ∧ 0 <= bytes_of a pool <= sumZ (snd <$> pool).
Proof.
  induction 1 as [|[x n] pool Hx Hpool IH]; [done|].
  rewrite count_cons, bytes_cons, fmap_cons, sumZ_cons, length_cons. simpl in Hx |- *.
  case_decide; lia.
Qed.

(** A sender absent from the pool has no bytes in it. *)
Lemma bytes_of_absent a pool :
  Forall (λ t, 0 <= t.2) pool → count_of a pool = 0 → bytes_of a pool = 0.
Proof.
  induction 1 as [|[x n] pool Hx Hpool IH]; [done|].
  pose proof (sender_sums_bounds a pool Hpool).
  rewrite count_cons, bytes_cons. simpl. case_decide; lia.
Qed.

Lemma add_tx_describes c pool s a bytes b pb :
  pool_inv c (pool, s) → 0 <= bytes → wf_config c → max_mempool_bytes c < umax 64 →
  tx_count s < max_tx_count c → saturating_add 64 (pool_bytes s) bytes <= max_mempool_bytes c →
  describes ((a, bytes) :: pool) (add_tx a bytes b pb s) ∧
  pool_bytes s + bytes <= max_mempool_bytes c.
Proof.
  intros ((Hb & Hn & Hs) & Hpos & _) Hbytes (Hmb & Hmc & _) Hlim Hroom Hcap; simpl in *.
  unfold saturating_add, in_u, umax in *.
  destruct (decide (pool_bytes s + bytes <= 2 ^ 64 - 1)) as [Hfit|]; [|lia].
  split; [|lia]. unfold describes, add_tx; cbn [pool_bytes tx_count per_sender].
  rewrite (saturating_add_small 64), (saturating_add_small 32) by (unfold umax; lia).
  split_and!.
  - rewrite Hb, fmap_cons, sumZ_cons. simpl. lia.
  - rewrite Hn, length_cons. lia.
  - intros a'. rewrite count_cons, bytes_cons. simpl.
    pose proof (sender_sums_bounds a' pool Hpos) as [Hcb Hbb]. specialize (Hs a').
    destruct (decide (a = a')) as [<-|Hne].
    + rewrite lookup_insert_eq. unfold add_sender_tx.
      destruct (per_sender s !! a) as [st|]; simpl.
      * destruct Hs as (Hp & Hc' & Hb'). case_match; simpl; unsat; lia.
      * rewrite (bytes_of_absent a pool) by done. case_match; simpl; unsat; lia.
    + rewrite lookup_insert_ne by done. destruct (per_sender s !! a'); lia.
Qed.

Lemma remove_tx_describes pool pool' s a bytes :
  describes pool s → Forall (λ t, 0 <= t.2) pool → pool ≡ₚ (a, bytes) :: pool' →
  describes pool' (remove_tx a bytes s).
Proof.
  intros (Hb & Hn & Hs) Hpos Hp. rewrite Hp in Hpos, Hn.
  apply Forall_cons in Hpos as [Hbytes Hpos]; simpl in *.
  assert (0 <= sumZ (snd <$> pool')) as Hsum.
  { apply sumZ_nonneg, Forall_fmap. by eapply Forall_impl. }
  unfold describes, remove_tx, saturating_sub; cbn [pool_bytes tx_count per_sender].
  split_and!.
  - rewrite Hb. destruct (sums_perm _ _ a Hp) as [-> _].
    rewrite fmap_cons, sumZ_cons. simpl. lia.
  - lia.
  - intros a'. specialize (Hs a') as Hs'. specialize (Hs a).
    destruct (sums_perm _ _ a Hp) as (_ & Hc & Hby).
    destruct (sums_perm _ _ a' Hp) as (_ & Hc' & Hby').
    rewrite Hc, Hby, count_cons, bytes_cons, decide_True in Hs by done.
    rewrite Hc', Hby', count_cons, bytes_cons in Hs'. simpl in *.
    pose proof (sender_sums_bounds a pool' Hpos). pose proof (sender_sums_bounds a' pool' Hpos).
    destruct (per_sender s !! a) as [st|] eqn:Ha; [|lia].
    unfold saturating_sub in *.
    destruct (Z.eqb_spec (Z.max (pending_count st - 1) 0) 0);
      (destruct (decide (a = a')) as [<-|Hne]; [rewrite Ha in Hs'|]).
    + rewrite lookup_delete_eq. lia.
    + by rewrite lookup_delete_ne.
    + rewrite lookup_insert_eq. simpl. unfold saturating_sub. lia.
    + by rewrite lookup_insert_ne.
Qed.

Lemma pool_step_inv p c x y :
  wf_config c → max_mempool_bytes c < umax 64 →
  pool_inv c x → pool_step p c x y → pool_inv c y.
Proof.
  intros Hc Hlim Hx Hstep. destruct Hstep as [pool s tx b Htx Hok|pool pool' s a bytes Hp|pool s].
  - apply admit_accepted in Hok as [(Hroom & Hcap & _ & _ & _ & _ & _ & _ & Hsend & _) _].
    destruct Htx as (_ & Hbytes & _). unfold in_u in Hbytes.
    destruct (add_tx_describes c pool s (sender tx) (tx_bytes tx) b
      (rate_limit_period_blocks c) Hx) as [Hd Hle]; [lia|done..|].
    destruct Hx as ((Hb & Hn & Hs) & Hpos & Hmb & Hmc & Hcnt); simpl in *.
    split_and!; simpl; [done|constructor; [simpl; lia|done]| | |].
    + unfold saturating_add. lia.
    + unfold saturating_add. lia.
    + intros a. rewrite count_cons. simpl. specialize (Hcnt a). case_decide; [|lia].
      subst. specialize (Hs (sender tx)). unfold sender_pending_count in Hsend.
      destruct (per_sender s !! sender tx); simpl in *; lia.
  - destruct Hx as (Hd & Hpos & Hmb & Hmc & Hcnt); simpl in *.
    pose proof (remove_tx_describes _ _ _ _ _ Hd Hpos Hp) as Hd'.
    assert (Hpos' := Hpos). rewrite Hp in Hpos'. apply Forall_cons in Hpos' as [Hbytes Hpos'].
    assert (0 <= pool_bytes s ∧ 0 <= tx_count s) as [??].
    { destruct Hd as (-> & -> & _). split; [|lia].
      apply sumZ_nonneg, Forall_fmap. by eapply Forall_impl. }
    split_and!; simpl; [done..| | |]; try (unfold saturating_sub; simpl in *; lia).
    intros a'. specialize (Hcnt a'). destruct (sums_perm _ _ a' Hp) as (_ & Hc' & _).
    rewrite Hc', count_cons in Hcnt. simpl in Hcnt. case_decide; lia.
  - destruct Hc as (Hmb & Hmc & _). unfold in_u in *.
    split_and!; simpl; [|constructor|lia|lia|intros; unfold count_of, sumZ; simpl; lia].
    split_and!; [done..|]. intros a. simpl. by rewrite lookup_empty.
Qed.

(** Starting from an empty pool, whatever transactions arrive through
    admission, are removed or cleared, the byte, transaction and per-sender
    counters describe the pooled transactions exactly, and the pool never
    exceeds its capacity in bytes, in number, or per sender. *)
Theorem pool_reachable_inv p c x :
  wf_config c → max_mempool_bytes c < umax 64 →
  rtc (pool_step p c) ([], MempoolState_new) x → pool_inv c x.
Proof.
  intros Hc Hlim Hr. remember ([], MempoolState_new) as x0 eqn:Hx0.
  assert (pool_inv c x0) as H0.
  { subst. apply (pool_step_inv p c ([], MempoolState_new)); [done..| |constructor].
    destruct Hc as (Hmb & Hmc & _). unfold in_u in *.
    split_and!; simpl; [|constructor|lia|lia|intros; unfold count_of, sumZ; simpl; lia].
    split_and!; [done..|]. intros a. simpl. by rewrite lookup_empty. }
  clear Hx0. induction Hr; [done|]. eauto using pool_step_inv.
Qed.

(** Removing the transaction that was just added restores the counters of
    the pool, of its sender and of every other sender, but not the sender's
    count for the current rate-limit period. *)
Theorem add_remove_roundtrip s a bytes b pb :
  in_u 64 (pool_bytes s) → in_u 32 (tx_count s) →
  pool_bytes s + bytes <= umax 64 → 0 <= bytes → tx_count s + 1 <= umax 32 →
  (∀ st, per_sender s !! a = Some st →
    0 < pending_count st ∧ pending_count st + 1 <= umax 32 ∧
    0 <= sender_total_bytes st ∧ sender_total_bytes st + bytes <= umax 64) →
  let s' := remove_tx a bytes (add_tx a bytes b pb s) in
  pool_bytes s' = pool_bytes s ∧ tx_count s' = tx_count s ∧
  sender_pending_count s' a = sender_pending_count s a ∧
  (∀ a', a' ≠ a → per_sender s' !! a' = per_sender s !! a').
Proof.
  intros Hb Hn Hfit Hpos Hfit' Hst s'. unfold in_u in *.
  unfold s', remove_tx, add_tx, sender_pending_count; cbn [pool_bytes tx_count per_sender].
  rewrite lookup_insert_eq. set (st' := add_sender_tx _ _ _ _).
  assert (pending_count st' = default 0 (pending_count <$> per_sender s !! a) + 1) as Hp.
  { unfold st', add_sender_tx. destruct (per_sender s !! a) as [st|]; simpl.
    - destruct (Hst st) as (? & ? & _); [done|].
      case_match; simpl; rewrite saturating_add_small by lia; done.
    - case_match; done. }
  unfold saturating_sub, remove_sender_tx; cbn [pending_count]. rewrite Hp.
  rewrite !saturating_add_small by lia. split_and!; [lia|lia| |].
  - unfold saturating_sub. destruct (per_sender s !! a) as [st|] eqn:Ha; simpl.
    + destruct (Hst st) as (? & _); [done|].
      destruct (Z.eqb_spec (Z.max (pending_count st + 1 - 1) 0) 0); [lia|].
      rewrite lookup_insert_eq. simpl. lia.
    + by rewrite lookup_delete_eq.
  - intros a' Hne. case_match; rewrite ?lookup_delete_ne, ?lookup_insert_ne; done.
Qed.

(** ** Concrete runs *)

Definition demo_tx : AdmitTx := {|
  fee := 10000; tx_bytes := 500; tx_witness_bytes := 200; input_count := 2;
  output_count := 2; tx_sig_count := 1; tx_kind := NativeTransfer;
  tx_sig_scheme := Ed25519; sender := 5; compute_units := 0; tx_state_reads := 2;
  tx_state_writes := 2; tx_state_write_bytes := 64 |}.

Lemma demo_tx_wf : wf_tx demo_tx.
Proof. unfold wf_tx, in_u, umax; simpl; lia. Qed.

Lemma demo_config_wf : wf_config MempoolConfig_default.
Proof. unfold wf_config, in_u, umax; simpl; lia. Qed.

Lemma admit_spec_witness :
  mempool_admit demo_tx FeeParams_default MempoolConfig_default MempoolState_new 100
    = Accepted ∧
  required_fee demo_tx FeeParams_default MempoolConfig_default <= 10000.
Proof.
  assert (mempool_admit demo_tx FeeParams_default MempoolConfig_default MempoolState_new 100
    = Accepted) as Hok by (by vm_compute).
  split; [done|].
  apply (admit_spec demo_tx FeeParams_default MempoolConfig_default MempoolState_new 100
    demo_tx_wf wf_params_default demo_config_wf) in Hok as [_ Hfee].
  exact Hfee.
Defined.

Lemma pool_reachable_inv_witness :
  pool_inv MempoolConfig_default
    ([(5, 500)], add_tx 5 500 100 10 MempoolState_new).
Proof.
  apply (pool_reachable_inv FeeParams_default).
  - apply demo_config_wf.
  - by vm_compute.
  - apply rtc_once.
    apply (step_add FeeParams_default MempoolConfig_default [] MempoolState_new demo_tx 100).
    + apply demo_tx_wf.
    + by vm_compute.
Defined.

Lemma add_remove_roundtrip_witness :
  tx_count (remove_tx 5 500 (add_tx 5 500 100 10 MempoolState_new)) = 0.
Proof.
  destruct (add_remove_roundtrip MempoolState_new 5 500 100 10) as (_ & H & _);
    [by vm_compute..| |exact H].
  intros st. simpl. by rewrite lookup_empty.
Defined.

(** A sender that adds a transaction and has it removed, [n] times in a block. *)
Definition churn (n : nat) (s : MempoolState) : MempoolState :=
  Nat.iter n (λ s, remove_tx 5 500 (add_tx 5 500 100 10 s)) s.

(** The limit of [max_per_sender_per_period] transactions per period does
    not bound what a sender submits: removing the sender's last pending
    transaction deletes the period counter with the sender's entry, so after any
    number of submissions in the same block the next one is accepted. *)
Theorem rate_limit_forgotten n :
  mempool_admit demo_tx FeeParams_default MempoolConfig_default
    (churn n MempoolState_new) 100 = Accepted.
Proof.
  assert (churn n MempoolState_new = MempoolState_new) as ->; [|by vm_compute].
  induction n as [|n IH]; [done|]. unfold churn in *. simpl. rewrite IH. by vm_compute.
Qed.

(** A transaction whose witness carries a Dilithium5 or hybrid signature is
    rejected under every configuration unless it is a contract call or a data
    upload, because the signature alone exceeds the witness cap of its kind. *)
Theorem post_quantum_witness_rejected tx p c s b :
  tx_sig_scheme tx ≠ Ed25519 → signature_size (tx_sig_scheme tx) <= tx_witness_bytes tx →
  tx_kind tx ≠ ContractCall → tx_kind tx ≠ DataUpload →
  is_rejected (mempool_admit tx p c s b) = true.
Proof.
  intros Hs Hsize Hk1 Hk2. destruct (mempool_admit tx p c s b) eqn:Hok; [|done].
  apply admit_accepted in Hok as [(_ & _ & _ & _ & Hcap & _) _].
  destruct (tx_kind tx), (tx_sig_scheme tx); simpl in *; try done; lia.
Qed.

Lemma post_quantum_witness_rejected_witness :
  is_rejected (mempool_admit {|
    fee := 1000000000; tx_bytes := 5000; tx_witness_bytes := 4627; input_count := 1;
    output_count := 1; tx_sig_count := 1; tx_kind := NativeTransfer;
    tx_sig_scheme := Dilithium5; sender := 5; compute_units := 0; tx_state_reads := 2;
    tx_state_writes := 2; tx_state_write_bytes := 64 |}
    FeeParams_default MempoolConfig_default MempoolState_new 100) = true.
Proof. apply post_quantum_witness_rejected; simpl; [done|lia|done|done]. Defined.
