(* ===== verification/Curve.v ===== *)
(** * Bonding-curve arithmetic (lib-blockchain)

    [lib-blockchain/src/contracts/utils/math.rs]: floor multiplication and
    division through 256-bit intermediates and the two integer square roots.
    [lib-blockchain/src/contracts/bonding_curve/canonical.rs]: the five-band
    price curve, the cost of minting a supply segment, the supply a reserve
    buys, and the payout of a burn.

    Loops carry fuel: 33 and 129 halvings for the two square roots, 6 band
    visits for the curve (there are five bands), 128 halvings for the search of
    the affordable supply; every theorem below shows the fuel is enough. An
    [expect] that may panic is an [Err].

    The theorems: the binary searches compute [Z.sqrt]; the band table is the
    derived one and the price is continuous and monotone; every operation is
    total on the valid domain, with no 256-bit or 128-bit overflow; minting and
    burning price a segment identically, so that a round trip gains nothing; and
    [mint_with_reserve] returns the largest affordable amount. *)
From stdpp Require Import base tactics numbers list option sets.
From S2P Require Import Prelude.

Inductive MathError : Type := MathOverflow | DivisionByZero | DowncastOverflow.

(** ** Integer square roots *)

(** The loop [while lo + 1 < hi] of both square roots. *)
Fixpoint sqrt_search (fuel : nat) (n lo hi : Z) : Z :=
  match fuel with
  | O => lo
  | S fuel =>
      if lo + 1 <? hi then
        let mid := lo + (hi - lo) / 2 in
        if mid <=? n / mid then sqrt_search fuel n mid hi
        else sqrt_search fuel n lo mid
      else lo
  end.

(** [math::integer_sqrt] on [u64]. *)
Definition integer_sqrt_u64 (n : Z) : Z :=
  if n <? 2 then n else sqrt_search 33 n 0 (Z.min n (umax 32 + 1)).

Definition integer_sqrt_u256 (n : Z) : Z :=
  if n <=? 1 then n else sqrt_search 129 n 0 (umax 128 + 1).

Definition u256_to_u128 (value : Z) : result Z MathError :=
  if umax 128 <? value then Err DowncastOverflow else Ok value.

Definition mul_div_floor_u256 (a b den : Z) : result Z MathError :=
  if den =? 0 then Err DivisionByZero
  else let? p := ok_or (checked_mul 256 a b) MathOverflow in Ok (p / den).

Definition mul_div_floor_u128 (a b den : Z) : result Z MathError :=
  let? r := mul_div_floor_u256 a b den in u256_to_u128 r.

Definition scaled_mul_u128 (a b scale : Z) : result Z MathError :=
  mul_div_floor_u128 a b scale.

(** ** Curve constants *)

Definition TOKEN_SCALE_18 : Z := 1000000000000000000.
Definition CBE_TOTAL_SUPPLY_TOKENS : Z := 100000000000.
Definition CBE_TOTAL_SUPPLY : Z := CBE_TOTAL_SUPPLY_TOKENS * TOKEN_SCALE_18.
Definition SCALE : Z := TOKEN_SCALE_18.
Definition SLOPE_DEN : Z := 100000000000000.
Definition GRAD_THRESHOLD : Z := 2745966 * SCALE.
Definition BAND_COUNT : Z := 5.
Definition MAX_GROSS_SOV_PER_TX : Z := 1000000000000000000000000.
Definition MAX_DELTA_S_PER_TX : Z := 100000000000 * SCALE.
Definition MAX_SUPPLY : Z := 100000000000 * SCALE.
Definition P_START_0 : Z := 313345700000000.
Definition P_START_1 : Z := 413345700000000.
Definition P_START_2 : Z := 813345700000000.
Definition P_START_3 : Z := 1713345700000000.
Definition P_START_4 : Z := 2713345700000000.
Definition COMPENSATION_POOL_CEILING : Z := 400000000 * SCALE.
Definition TREASURY_POOL_CEILING : Z := 200000000 * SCALE.
Definition LIQUIDITY_POOL_CEILING : Z := 200000000 * SCALE.
Definition INCENTIVE_POOL_CEILING : Z := 100000000 * SCALE.
Definition STRATEGIC_RESERVE_CEILING : Z := 100000000 * SCALE.
Definition DEBT_CEILING : Z := 147900000 * SCALE.
Definition GENESIS_TREASURY_ALLOCATION : Z := 20000000000 * SCALE.
Definition DEBT_GREEN_MAX : Z := DEBT_CEILING / 4.
Definition DEBT_YELLOW_MAX : Z := DEBT_CEILING / 2.
Definition DEBT_ORANGE_MAX : Z := DEBT_CEILING * 3 / 4.
Definition SOV_TREASURY_SHARE_PCT : Z := 20.
Definition RESERVE_SHARE_PCT : Z := 32.
Definition PAYROLL_GROSS_NUM : Z := 25.
Definition PAYROLL_GROSS_DEN : Z := 12.
Definition PAYROLL_TREASURY_PCT : Z := 20.
Definition PAYROLL_RESERVE_PCT : Z := 32.
Definition PAYROLL_COLLABORATOR_PCT : Z := 48.

Inductive DebtState : Type := Green | Yellow | Orange | Red.

Definition compute_debt_state (outstanding : Z) : DebtState :=
  if outstanding <=? DEBT_GREEN_MAX then Green
  else if outstanding <=? DEBT_YELLOW_MAX then Yellow
  else if outstanding <=? DEBT_ORANGE_MAX then Orange
  else Red.

(** ** Bands *)

Record Band : Type := {
  index : Z;          (* u64 *)
  start_supply : Z;   (* u128, as the fields below *)
  end_supply : Z;
  slope_num : Z;
  slope_den : Z;
  p_start : Z;
}.

Definition mk_band (i start end' slope p : Z) : Band :=
  {| index := i; start_supply := start; end_supply := end';
     slope_num := slope; slope_den := SLOPE_DEN; p_start := p |}.

Definition BANDS : list Band :=
  [ mk_band 0 0 (10000000000 * SCALE) 1 P_START_0;
    mk_band 1 (10000000000 * SCALE) (30000000000 * SCALE) 2 P_START_1;
    mk_band 2 (30000000000 * SCALE) (60000000000 * SCALE) 3 P_START_2;
    mk_band 3 (60000000000 * SCALE) (85000000000 * SCALE) 4 P_START_3;
    mk_band 4 (85000000000 * SCALE) MAX_SUPPLY 5 P_START_4 ].

(** The sums and products are plain [u128] operators; the constant products fit
    and only the sums with [p_start_0] can wrap. *)
Definition derive_cbe_bands (p_start_0 : Z) : list Band :=
  let S1 := 10000000000 * SCALE in
  let S2 := 30000000000 * SCALE in
  let S3 := 60000000000 * SCALE in
  let S4 := 85000000000 * SCALE in
  let p1 := wadd 128 p_start_0 (1 * S1 / SLOPE_DEN) in
  let p2 := wadd 128 p1 (2 * (S2 - S1) / SLOPE_DEN) in
  let p3 := wadd 128 p2 (3 * (S3 - S2) / SLOPE_DEN) in
  let p4 := wadd 128 p3 (4 * (S4 - S3) / SLOPE_DEN) in
  [ mk_band 0 0 S1 1 p_start_0; mk_band 1 S1 S2 2 p1; mk_band 2 S2 S3 3 p2;
    mk_band 3 S3 S4 4 p3; mk_band 4 S4 MAX_SUPPLY 5 p4 ].

Definition band_local_supply (supply : Z) (b : Band) : result Z MathError :=
  ok_or (checked_sub supply (start_supply b)) MathOverflow.

Definition price_at_supply_in_band (supply : Z) (b : Band) : result Z MathError :=
  if (supply <? start_supply b) || (end_supply b <? supply) then Err MathOverflow
  else
    let? local := band_local_supply supply b in
    let? slope_component := mul_div_floor_u128 (slope_num b) local (slope_den b) in
    ok_or (checked_add 128 (p_start b) slope_component) MathOverflow.

Definition in_band (supply : Z) (b : Band) : bool :=
  if index b =? BAND_COUNT - 1
  then (start_supply b <=? supply) && (supply <=? end_supply b)
  else (start_supply b <=? supply) && (supply <? end_supply b).

Definition band_for_supply (supply : Z) : result Band MathError :=
  if MAX_SUPPLY <? supply then Err MathOverflow
  else ok_or (find (in_band supply) BANDS) MathOverflow.

Definition in_redemption_band (supply : Z) (b : Band) : bool :=
  if index b =? 0
  then (start_supply b <=? supply) && (supply <=? end_supply b)
  else (start_supply b <? supply) && (supply <=? end_supply b).

Definition band_for_redemption_supply (supply : Z) : Band :=
  default (mk_band 0 0 (10000000000 * SCALE) 1 P_START_0)
    (find (in_redemption_band supply) BANDS).

Definition price_at_supply (supply : Z) : result Z MathError :=
  let? b := band_for_supply supply in price_at_supply_in_band supply b.

(** [canonical::integer_sqrt] on [u128]. *)
Definition integer_sqrt (n : Z) : result Z MathError :=
  u256_to_u128 (integer_sqrt_u256 n).

(** ** Costs *)

Definition cost_single_band (s_from s_to : Z) (b : Band) : result Z MathError :=
  if (s_to <? s_from) || (s_from <? start_supply b) || (end_supply b <? s_to)
  then Err MathOverflow
  else
    let? from_local := band_local_supply s_from b in
    let? to_local := band_local_supply s_to b in
    let? delta_s := ok_or (checked_sub s_to s_from) MathOverflow in
    let? sum_local := ok_or (checked_add 256 to_local from_local) MathOverflow in
    let? num1 := ok_or (checked_mul 256 (slope_num b) sum_local) MathOverflow in
    let? numerator := ok_or (checked_mul 256 num1 delta_s) MathOverflow in
    let? den1 := ok_or (checked_mul 256 2 (slope_den b)) MathOverflow in
    let? denominator := ok_or (checked_mul 256 den1 SCALE) MathOverflow in
    let? term1 :=
      (if numerator =? 0 then Ok 0
       else if denominator =? 0 then Err DivisionByZero
       else Ok (numerator / denominator)) in
    let? prod := ok_or (checked_mul 256 (p_start b) delta_s) MathOverflow in
    let term2 := prod / SCALE in
    let? cost := ok_or (checked_add 256 term1 term2) MathOverflow in
    u256_to_u128 cost.

Definition inverse_mint (reserve_credit s_c : Z) (b : Band) : result Z MathError :=
  if (s_c <? start_supply b) || (end_supply b <? s_c) then Err MathOverflow
  else if slope_num b =? 0 then mul_div_floor_u128 reserve_credit SCALE (p_start b)
  else
    let? p_local := price_at_supply_in_band s_c b in
    let? p_local_sq := ok_or (checked_mul 256 p_local p_local) MathOverflow in
    let? m1 := ok_or (checked_mul 256 2 (slope_num b)) MathOverflow in
    let? m2 := ok_or (checked_mul 256 m1 reserve_credit) MathOverflow in
    let? m3 := ok_or (checked_mul 256 m2 SCALE) MathOverflow in
    let two_m_r := m3 / slope_den b in
    let? discriminant := ok_or (checked_add 256 p_local_sq two_m_r) MathOverflow in
    let sqrt_disc := integer_sqrt_u256 discriminant in
    let? numerator := ok_or (checked_sub sqrt_disc p_local) MathOverflow in
    let? prod := ok_or (checked_mul 256 numerator (slope_den b)) MathOverflow in
    u256_to_u128 (prod / slope_num b).

Fixpoint cost_to_mint_loop (fuel : nat) (target current total : Z)
    : result Z MathError :=
  match fuel with
  | O => Err MathOverflow
  | S fuel =>
      if current <? target then
        let? b := band_for_supply current in
        let band_end := Z.min (end_supply b) target in
        let? band_cost := cost_single_band current band_end b in
        let? total := ok_or (checked_add 128 total band_cost) MathOverflow in
        cost_to_mint_loop fuel target band_end total
      else Ok total
  end.

Definition cost_to_mint (delta_s s_c : Z) : result Z MathError :=
  let? target := ok_or (checked_add 128 s_c delta_s) MathOverflow in
  if MAX_SUPPLY <? target then Err MathOverflow
  else cost_to_mint_loop 6 target s_c 0.

(** The inner [while low < high] of [mint_with_reserve]. *)
Fixpoint mint_search (fuel : nat) (current remaining : Z) (b : Band) (low high : Z)
    : result Z MathError :=
  match fuel with
  | O => Err MathOverflow
  | S fuel =>
      if low <? high then
        let? sum := ok_or (checked_add 128 low high) MathOverflow in
        let? sum1 := ok_or (checked_add 128 sum 1) MathOverflow in
        let mid := sum1 / 2 in
        let? mid_cost := cost_single_band current (wadd 128 current mid) b in
        if mid_cost <=? remaining then mint_search fuel current remaining b mid high
        else mint_search fuel current remaining b low (mid - 1)
      else Ok low
  end.

Fixpoint mint_loop (fuel : nat) (remaining minted current : Z) : result Z MathError :=
  match fuel with
  | O => Err MathOverflow
  | S fuel =>
      if (0 <? remaining) && (current <? MAX_SUPPLY) then
        let? b := band_for_supply current in
        let? band_capacity := ok_or (checked_sub (end_supply b) current) MathOverflow in
        if band_capacity =? 0 then Ok minted
        else
        let? full_band_cost := cost_single_band current (end_supply b) b in
        if full_band_cost <=? remaining then
          let? minted := ok_or (checked_add 128 minted band_capacity) MathOverflow in
          let? remaining := ok_or (checked_sub remaining full_band_cost) MathOverflow in
          mint_loop fuel remaining minted (end_supply b)
        else
        let? inv := inverse_mint remaining current b in
        let estimate := Z.min inv band_capacity in
        let? estimate_cost := cost_single_band current (wadd 128 current estimate) b in
        let high := if estimate_cost <=? remaining then band_capacity else estimate in
        let? delta_s := mint_search 128 current remaining b 0 high in
        ok_or (checked_add 128 minted delta_s) MathOverflow
      else Ok minted
  end.

Definition mint_with_reserve (reserve_credit s_c : Z) : result Z MathError :=
  if MAX_SUPPLY <? s_c then Err MathOverflow
  else mint_loop 6 reserve_credit 0 s_c.

Fixpoint payout_loop (fuel : nat) (remaining current total : Z) : result Z MathError :=
  match fuel with
  | O => Err MathOverflow
  | S fuel =>
      if 0 <? remaining then
        let b := band_for_redemption_supply current in
        let? rest := ok_or (checked_sub current remaining) MathOverflow in
        let band_floor := Z.max rest (start_supply b) in
        let? band_payout := cost_single_band band_floor current b in
        let? total := ok_or (checked_add 128 total band_payout) MathOverflow in
        let? burned_here := ok_or (checked_sub current band_floor) MathOverflow in
        let? remaining := ok_or (checked_sub remaining burned_here) MathOverflow in
        payout_loop fuel remaining band_floor total
      else Ok total
  end.

Definition payout_for_burn (amount_cbe s_c : Z) : result Z MathError :=
  if s_c <? amount_cbe then Err MathOverflow
  else payout_loop 6 amount_cbe s_c 0.

(** ** Square roots *)

Lemma sqrt_test n mid : 0 < mid → 0 <= n → (mid <=? n / mid) = (mid * mid <=? n).
Proof.
  intros Hm Hn. apply eq_bool_prop_intro; rewrite !Is_true_true, !Z.leb_le. split.
  - intros H. pose proof (Z.mul_div_le n mid Hm). nia.
  - intros H. apply Z.div_le_lower_bound; lia.
Qed.

Lemma sqrt_search_spec fuel n lo hi :
  0 <= lo < hi → lo * lo <= n < hi * hi → hi - lo <= 2 ^ Z.of_nat fuel →
  sqrt_search fuel n lo hi = Z.sqrt n.
Proof.
  revert lo hi; induction fuel as [|fuel IH]; intros lo hi Hlh Hn Hf.
  - simpl in *. symmetry. apply Z.sqrt_unique. nia.
  - cbn [sqrt_search]. rewrite Nat2Z.inj_succ, Z.pow_succ_r in Hf by lia.
    destruct (Z.ltb_spec (lo + 1) hi).
    + set (d := (hi - lo) / 2).
      pose proof (Z.div_mod (hi - lo) 2 ltac:(lia)) as Hd.
      pose proof (Z.mod_pos_bound (hi - lo) 2 ltac:(lia)). fold d in Hd.
      rewrite sqrt_test by nia.
      destruct (Z.leb_spec ((lo + d) * (lo + d)) n); apply IH; lia.
    + symmetry. apply Z.sqrt_unique. assert (hi = Z.succ lo) by lia. subst. nia.
Qed.

Lemma integer_sqrt_u256_sqrt n : in_u 256 n → integer_sqrt_u256 n = Z.sqrt n.
Proof.
  unfold in_u, umax, integer_sqrt_u256. intros Hn. destruct (Z.leb_spec n 1).
  - assert (n = 0 ∨ n = 1) as [-> | ->] by lia; done.
  - apply sqrt_search_spec; unfold umax; lia.
Qed.

(** Both binary searches return the integer square root: the largest [r]
    with [r * r <= n], for every [u64] and every 256-bit argument, within the
    number of halvings of the starting interval. *)
Theorem integer_sqrt_correct n :
  (in_u 64 n → integer_sqrt_u64 n = Z.sqrt n) ∧
  (in_u 256 n → integer_sqrt_u256 n = Z.sqrt n) ∧
  (in_u 128 n → integer_sqrt n = Ok (Z.sqrt n)).
Proof.
  split_and!; [|apply integer_sqrt_u256_sqrt|].
  - unfold in_u, umax, integer_sqrt_u64. intros Hn. destruct (Z.ltb_spec n 2).
    + assert (n = 0 ∨ n = 1) as [-> | ->] by lia; done.
    + apply sqrt_search_spec; unfold umax; [lia| |lia].
      destruct (Z.min_spec n (2 ^ 32 - 1 + 1)) as [[? ->]|[? ->]]; nia.
  - intros Hn. unfold integer_sqrt, u256_to_u128. unfold in_u, umax in *.
    rewrite integer_sqrt_u256_sqrt by (unfold in_u, umax; lia). pose proof (Z.sqrt_le_lin n). replace (_ <? _) with false; [done|].
    symmetry. apply Z.ltb_ge. lia.
Qed.

Lemma integer_sqrt_correct_witness :
  integer_sqrt_u64 99980001 = 9999 ∧ integer_sqrt_u64 99980001 = Z.sqrt 99980001.
Proof.
  split; [by vm_compute|]. apply (integer_sqrt_correct 99980001). by vm_compute.
Defined.

(** ** Bands *)

(** What every band of the table satisfies. *)
Definition wf_band (b : Band) : Prop :=
  0 <= start_supply b < end_supply b ∧ end_supply b <= MAX_SUPPLY ∧
  1 <= slope_num b <= 5 ∧ slope_den b = SLOPE_DEN ∧ P_START_0 <= p_start b <= P_START_4.

Ltac curve_consts := unfold MAX_SUPPLY, SLOPE_DEN, SCALE, TOKEN_SCALE_18,
  P_START_0, P_START_1, P_START_2, P_START_3, P_START_4 in *.

Lemma BANDS_wf : Forall wf_band BANDS.
Proof. repeat constructor; by vm_compute. Qed.

Lemma in_BANDS_wf b : b ∈ BANDS → wf_band b.
Proof. pose proof BANDS_wf as Hb. rewrite list.Forall_forall in Hb. apply Hb. Qed.

Lemma mul_div_floor_u128_ok a b den :
  0 <= a <= 2 ^ 64 → 0 <= b <= 2 ^ 128 → 0 < den → a * b / den <= umax 128 →
  mul_div_floor_u128 a b den = Ok (a * b / den).
Proof.
  intros Ha Hb Hd Hr. unfold mul_div_floor_u128, mul_div_floor_u256, checked_mul, u256_to_u128.
  replace (den =? 0) with false by lia. unfold umax in *.
  replace (a * b <=? 2 ^ 256 - 1) with true by (symmetry; apply Z.leb_le; nia).
  simpl ok_or. cbv iota beta. by replace (_ <? _) with false by lia.
Qed.

(** The price inside a band, over unbounded integers. *)
Definition band_price (b : Band) (s : Z) : Z :=
  p_start b + slope_num b * (s - start_supply b) / SLOPE_DEN.

Lemma band_price_bounds b s :
  wf_band b → start_supply b <= s <= end_supply b →
  0 <= slope_num b * (s - start_supply b) / SLOPE_DEN <= 5 * 10 ^ 15 ∧
  P_START_0 <= band_price b s <= 10 ^ 16.
Proof.
  intros (Hs & He & Hm & Hd & Hp) Hr. unfold band_price. curve_consts.
  assert (0 <= slope_num b * (s - start_supply b) / 100000000000000 <= 5 * 10 ^ 15).
  { split; [apply Z.div_pos; nia|]. apply Z.div_le_upper_bound; nia. }
  lia.
Qed.

Lemma price_in_band_ok b s :
  wf_band b → start_supply b <= s <= end_supply b →
  price_at_supply_in_band s b = Ok (band_price b s).
Proof.
  intros Hb Hr. pose proof (band_price_bounds b s Hb Hr) as [Hsl Hp].
  destruct Hb as (Hs & He & Hm & Hd & _).
  unfold price_at_supply_in_band, band_local_supply, checked_sub, checked_add.
  replace (s <? start_supply b) with false by lia.
  replace (end_supply b <? s) with false by lia.
  replace (start_supply b <=? s) with true by lia. simpl.
  rewrite Hd. rewrite mul_div_floor_u128_ok.
  - unfold band_price in *. unfold umax. curve_consts.
    replace (_ <=? _) with true by lia. done.
  - lia.
  - curve_consts. lia.
  - curve_consts. lia.
  - unfold umax. lia.
Qed.

(** The cost of a segment of a band, over unbounded integers: the two floors of
    the code. *)
Definition band_cost (b : Band) (x y : Z) : Z :=
  slope_num b * ((y - start_supply b) + (x - start_supply b)) * (y - x)
    / (2 * SLOPE_DEN * SCALE)
  + p_start b * (y - x) / SCALE.

Lemma band_cost_bounds b x y :
  wf_band b → start_supply b <= x <= y → y <= end_supply b →
  0 <= slope_num b * ((y - start_supply b) + (x - start_supply b)) * (y - x) <= 10 ^ 60 ∧
  0 <= p_start b * (y - x) <= 10 ^ 46 ∧
  0 <= band_cost b x y <= 10 ^ 29.
Proof.
  intros (Hs & He & Hm & Hd & Hp) Hx Hy. unfold band_cost. curve_consts.
  assert (0 <= slope_num b * ((y - start_supply b) + (x - start_supply b)) <= 10 ^ 30) by nia.
  assert (0 <= slope_num b * ((y - start_supply b) + (x - start_supply b)) * (y - x)
          <= 10 ^ 60) by nia.
  assert (0 <= p_start b * (y - x) <= 10 ^ 46) by nia.
  assert (0 <= slope_num b * ((y - start_supply b) + (x - start_supply b)) * (y - x)
    / (2 * 100000000000000 * 1000000000000000000) <= 10 ^ 28)
    by (split; [apply Z.div_pos; lia|apply Z.div_le_upper_bound; lia]).
  assert (0 <= p_start b * (y - x) / 1000000000000000000 <= 10 ^ 28)
    by (split; [apply Z.div_pos; lia|apply Z.div_le_upper_bound; lia]).
  lia.
Qed.

Lemma cost_single_band_ok b x y :
  wf_band b → start_supply b <= x <= y → y <= end_supply b →
  cost_single_band x y b = Ok (band_cost b x y).
Proof.
  intros Hb Hx Hy. pose proof (band_cost_bounds b x y Hb Hx Hy) as (Hn & Hp & Hc).
  destruct Hb as (Hs & He & Hm & Hd & Hps).
  unfold cost_single_band, band_local_supply, checked_sub, checked_add, checked_mul.
  replace (y <? x) with false by lia. replace (x <? start_supply b) with false by lia.
  replace (end_supply b <? y) with false by lia. simpl.
  replace (start_supply b <=? x) with true by lia.
  replace (start_supply b <=? y) with true by lia.
  replace (x <=? y) with true by lia. simpl. rewrite Hd.
  assert (0 <= slope_num b * ((y - start_supply b) + (x - start_supply b)) <= 10 ^ 30)
    by (curve_consts; nia).
  change (2 * SLOPE_DEN <=? umax 256) with true. simpl.
  change (2 * SLOPE_DEN * SCALE <=? umax 256) with true.
  change (2 * SLOPE_DEN * SCALE =? 0) with false. unfold umax.
  repeat (replace (_ <=? 2 ^ 256 - 1) with true
            by (symmetry; apply Z.leb_le; curve_consts; lia); simpl ok_or; cbv iota beta).
  set (n := slope_num b * _ * (y - x)) in *.
  replace (if n =? 0 then Ok 0 else _)
    with (@Ok Z MathError (n / (2 * SLOPE_DEN * SCALE)))
    by (destruct (Z.eqb_spec n 0) as [->|]; done).
  unfold band_cost in *. fold n in Hc |- *.
  replace (_ <=? 2 ^ 256 - 1) with true by lia. simpl ok_or. cbv iota beta.
  unfold u256_to_u128, umax. by replace (_ <? _) with false by lia.
Qed.

Lemma band_cost_self b x : band_cost b x x = 0.
Proof. unfold band_cost. by rewrite Z.sub_diag, !Z.mul_0_r. Qed.

Lemma band_cost_mono b x y1 y2 :
  wf_band b → start_supply b <= x <= y1 → y1 <= y2 → band_cost b x y1 <= band_cost b x y2.
Proof.
  intros (Hs & He & Hm & Hd & Hp) Hx Hy. unfold band_cost. curve_consts.
  apply Z.add_le_mono; (apply Z.div_le_mono; [lia|]); [|nia].
  apply Z.mul_le_mono_nonneg; nia.
Qed.

(** ** Which band a supply is in *)

(** Runs the search of a band table entry and turns its tests into linear facts. *)
Ltac find_band test :=
  unfold BANDS; cbn [find];
  repeat match goal with
  | |- context [if test ?s ?b then _ else _] => destruct (test s b) eqn:?
  end;
  unfold test in *; simpl in *; curve_consts; int_inv;
  rewrite ?andb_false_iff, ?Z.leb_gt, ?Z.ltb_ge in *.

Lemma band_for_supply_ok s :
  0 <= s <= MAX_SUPPLY →
  ∃ b, band_for_supply s = Ok b ∧ b ∈ BANDS ∧
       start_supply b <= s <= end_supply b ∧ (s < MAX_SUPPLY → s < end_supply b).
Proof.
  intros Hs. unfold band_for_supply. replace (MAX_SUPPLY <? s) with false by lia.
  find_band in_band; try lia; eexists; (split; [done|]);
    (split; [repeat constructor|simpl; lia]).
Qed.

Lemma band_for_redemption_ok s :
  0 < s <= MAX_SUPPLY →
  let b := band_for_redemption_supply s in
  b ∈ BANDS ∧ start_supply b < s <= end_supply b.
Proof.
  intros Hs. unfold band_for_redemption_supply.
  find_band in_redemption_band; try lia;
    (split; [repeat constructor|simpl; lia]).
Qed.

(** ** The cost of a supply segment across bands *)

Definition clamp (b : Band) (x : Z) : Z := Z.max (start_supply b) (Z.min (end_supply b) x).

(** The specification of the loops: the sum over the bands of the cost of the
    part of the segment that lies in the band. *)
Definition curve_cost (s t : Z) : Z :=
  sumZ ((λ b, band_cost b (clamp b s) (clamp b t)) <$> BANDS).

Lemma bands_disjoint b j :
  b ∈ BANDS → j ∈ BANDS →
  j = b ∨ end_supply j <= start_supply b ∨ end_supply b <= start_supply j.
Proof.
  unfold BANDS. rewrite !elem_of_cons, !elem_of_nil.
  intros [->|[->|[->|[->|[->|[]]]]]] [->|[->|[->|[->|[->|[]]]]]];
    ((by left) || (right; left; by vm_compute) || (right; right; by vm_compute)).
Qed.

Lemma sumZ_fmap_ext {A : Type} (f g : A → Z) (l : list A) :
  (∀ x, x ∈ l → f x = g x) → sumZ (f <$> l) = sumZ (g <$> l).
Proof.
  induction l as [|x l IH]; intros H; [done|].
  rewrite !fmap_cons, !sumZ_cons, IH, H; [done|left|]. intros; apply H; by right.
Qed.

Lemma sumZ_fmap_le {A : Type} (f g : A → Z) (l : list A) :
  (∀ x, x ∈ l → f x <= g x) → sumZ (f <$> l) <= sumZ (g <$> l).
Proof.
  induction l as [|x l IH]; intros H; [done|]. rewrite !fmap_cons, !sumZ_cons.
  apply Z.add_le_mono; [apply H; left|]. apply IH. intros; apply H; by right.
Qed.

Lemma sumZ_fmap_add {A : Type} (f g : A → Z) (l : list A) :
  sumZ ((λ x, f x + g x) <$> l) = sumZ (f <$> l) + sumZ (g <$> l).
Proof. induction l; [done|]. rewrite !fmap_cons, !sumZ_cons. lia. Qed.

Lemma sumZ_fmap_const {A : Type} (c : Z) (l : list A) :
  sumZ ((λ _, c) <$> l) = Z.of_nat (length l) * c.
Proof. induction l; [done|]. rewrite fmap_cons, sumZ_cons, length_cons. lia. Qed.

Lemma curve_cost_split s e t :
  (∀ b, b ∈ BANDS → clamp b s = clamp b e ∨ clamp b e = clamp b t) →
  curve_cost s t = curve_cost s e + curve_cost e t.
Proof.
  intros H. unfold curve_cost. rewrite <- sumZ_fmap_add. apply sumZ_fmap_ext.
  intros b Hb. destruct (H b Hb) as [->| ->]; rewrite band_cost_self; lia.
Qed.

Lemma curve_cost_self s : curve_cost s s = 0.
Proof.
  unfold curve_cost. rewrite (sumZ_fmap_ext _ (λ _, 0)); [by rewrite sumZ_fmap_const, Z.mul_0_r|].
  intros. apply band_cost_self.
Qed.

(** Segments that end, or start, at the boundary of a band. *)
Lemma curve_cost_split_up b s e t :
  b ∈ BANDS → start_supply b <= s <= e → e <= end_supply b → e <= t →
  e = end_supply b ∨ e = t → curve_cost s t = curve_cost s e + curve_cost e t.
Proof.
  intros Hb Hs He Ht Hend. apply curve_cost_split. intros j Hj.
  pose proof (in_BANDS_wf j Hj) as (? & _). unfold clamp.
  destruct (bands_disjoint b j Hb Hj) as [->|[?|?]]; lia.
Qed.

Lemma curve_cost_split_down b s e t :
  b ∈ BANDS → start_supply b <= e <= t → t <= end_supply b → s <= e →
  e = start_supply b ∨ e = s → curve_cost s t = curve_cost s e + curve_cost e t.
Proof.
  intros Hb Hs He Ht Hend. apply curve_cost_split. intros j Hj.
  pose proof (in_BANDS_wf j Hj) as (? & _). unfold clamp.
  destruct (bands_disjoint b j Hb Hj) as [->|[?|?]]; lia.
Qed.

Lemma curve_cost_within b s e :
  b ∈ BANDS → start_supply b <= s <= e → e <= end_supply b →
  curve_cost s e = band_cost b s e.
Proof.
  intros Hb Hs He. unfold curve_cost.
  apply list_elem_of_split in Hb as Hsplit. destruct Hsplit as (l1 & l2 & Heq).
  assert (∀ j, j ∈ l1 ∨ j ∈ l2 → band_cost j (clamp j s) (clamp j e) = 0) as Hz.
  { intros j Hj. assert (j ∈ BANDS) as Hj' by (rewrite Heq; set_solver).
    pose proof (in_BANDS_wf j Hj') as (? & _).
    replace (clamp j s) with (clamp j e); [apply band_cost_self|].
    unfold clamp. destruct (bands_disjoint b j Hb Hj') as [->|[?|?]]; [|lia|lia].
    exfalso. assert (NoDup BANDS) as Hnd.
    { unfold BANDS. repeat constructor; set_solver. }
    rewrite Heq in Hnd. apply NoDup_app in Hnd as (_ & Hd & Hnd).
    apply NoDup_cons in Hnd as [Hnd _]. set_solver. }
  rewrite Heq, fmap_app, fmap_cons, sumZ_app, sumZ_cons.
  rewrite (sumZ_fmap_ext _ (λ _, 0) l1) by set_solver.
  rewrite (sumZ_fmap_ext _ (λ _, 0) l2) by set_solver.
  rewrite !sumZ_fmap_const. unfold clamp.
  replace (Z.max _ (Z.min _ s)) with s by lia.
  replace (Z.max _ (Z.min _ e)) with e by lia. lia.
Qed.

Lemma curve_cost_bounds s t : s <= t → 0 <= curve_cost s t <= 5 * 10 ^ 29.
Proof.
  intros Hst. unfold curve_cost.
  assert (∀ b, b ∈ BANDS → 0 <= band_cost b (clamp b s) (clamp b t) <= 10 ^ 29) as Hb.
  { intros b Hin. pose proof (in_BANDS_wf b Hin) as Hw. pose proof Hw as (? & _).
    apply band_cost_bounds; [done|unfold clamp; lia..]. }
  split.
  - apply sumZ_nonneg, Forall_fmap. rewrite list.Forall_forall. intros b Hin. by apply Hb.
  - transitivity (sumZ ((λ _ : Band, 10 ^ 29) <$> BANDS)); [|by vm_compute].
    apply sumZ_fmap_le. intros b Hin. by apply Hb.
Qed.

Lemma curve_cost_mono s t1 t2 : s <= t1 <= t2 → curve_cost s t1 <= curve_cost s t2.
Proof.
  intros Ht. apply sumZ_fmap_le. intros b Hin.
  pose proof (in_BANDS_wf b Hin) as Hw. pose proof Hw as (? & _).
  apply band_cost_mono; [done|unfold clamp; lia..].
Qed.

(** The number of bands that end above, or start below, a supply: the measure
    of the loops over bands. *)
Definition bands_above (s : Z) : Z := sumZ ((λ b, if s <? end_supply b then 1 else 0) <$> BANDS).
Definition bands_below (s : Z) : Z := sumZ ((λ b, if start_supply b <? s then 1 else 0) <$> BANDS).

Lemma bands_above_lt b s : b ∈ BANDS → s < end_supply b → bands_above (end_supply b) < bands_above s.
Proof.
  intros Hb Hs. apply list_elem_of_split in Hb as (l1 & l2 & Heq).
  unfold bands_above. rewrite Heq, !fmap_app, !fmap_cons, !sumZ_app, !sumZ_cons.
  rewrite (proj2 (Z.ltb_ge _ _)) by lia. rewrite (proj2 (Z.ltb_lt _ _)) by lia.
  assert (∀ l, sumZ ((λ j, if end_supply b <? end_supply j then 1 else 0) <$> l) <=
               sumZ ((λ j, if s <? end_supply j then 1 else 0) <$> l)) as Hle.
  { intros l. apply sumZ_fmap_le. intros j _.
    destruct (Z.ltb_spec (end_supply b) (end_supply j)), (Z.ltb_spec s (end_supply j)); lia. }
  pose proof (Hle l1). pose proof (Hle l2). lia.
Qed.

Lemma bands_below_lt b s :
  b ∈ BANDS → start_supply b < s → bands_below (start_supply b) < bands_below s.
Proof.
  intros Hb Hs. apply list_elem_of_split in Hb as (l1 & l2 & Heq).
  unfold bands_below. rewrite Heq, !fmap_app, !fmap_cons, !sumZ_app, !sumZ_cons.
  rewrite (proj2 (Z.ltb_ge _ _)) by lia. rewrite (proj2 (Z.ltb_lt _ _)) by lia.
  assert (∀ l, sumZ ((λ j, if start_supply j <? start_supply b then 1 else 0) <$> l) <=
               sumZ ((λ j, if start_supply j <? s then 1 else 0) <$> l)) as Hle.
  { intros l. apply sumZ_fmap_le. intros j _.
    destruct (Z.ltb_spec (start_supply j) (start_supply b)), (Z.ltb_spec (start_supply j) s); lia. }
  pose proof (Hle l1). pose proof (Hle l2). lia.
Qed.

Lemma bands_count_range s : 0 <= bands_above s <= 5 ∧ 0 <= bands_below s <= 5.
Proof.
  unfold bands_above, bands_below, BANDS. cbn [fmap list_fmap]. unfold sumZ. simpl foldr.
  repeat case_match; lia.
Qed.

Lemma bands_above_pos b s : b ∈ BANDS → s < end_supply b → 1 <= bands_above s.
Proof.
  intros Hb Hs. pose proof (bands_above_lt b s Hb Hs).
  pose proof (bands_count_range (end_supply b)). lia.
Qed.

Lemma checked_add_ok w a b e :
  a + b <= umax w → ok_or (checked_add w a b) e = Ok (E := MathError) (a + b).
Proof. intros. unfold checked_add. by replace (_ <=? _) with true by lia. Qed.

Lemma checked_sub_ok a b e :
  b <= a → ok_or (checked_sub a b) e = Ok (E := MathError) (a - b).
Proof. intros. unfold checked_sub. by replace (_ <=? _) with true by lia. Qed.

Lemma cost_to_mint_loop_ok fuel target current total :
  0 <= current <= target → target <= MAX_SUPPLY →
  total + curve_cost current target <= umax 128 →
  bands_above current < Z.of_nat fuel →
  cost_to_mint_loop fuel target current total = Ok (total + curve_cost current target).
Proof.
  revert current total; induction fuel as [|fuel IH]; intros current total Hc Ht Htot Hf.
  { pose proof (bands_count_range current). lia. }
  cbn [cost_to_mint_loop]. destruct (Z.ltb_spec current target).
  2:{ replace target with current by lia. rewrite curve_cost_self. f_equal. lia. }
  destruct (band_for_supply_ok current) as (b & -> & Hb & Hs & He); [lia|].
  specialize (He ltac:(lia)). pose proof (in_BANDS_wf b Hb) as Hw.
  set (e := Z.min (end_supply b) target).
  rewrite (curve_cost_split_up b current e target) in * by (done || lia).
  rewrite cost_single_band_ok, <- (curve_cost_within b) by (done || lia).
  pose proof (curve_cost_bounds e target ltac:(lia)).
  rewrite checked_add_ok by lia.
  destruct (decide (end_supply b <= target)).
  - rewrite IH; [f_equal; lia|lia|lia|lia|].
    replace e with (end_supply b) by lia. pose proof (bands_above_lt b current Hb He). lia.
  - pose proof (bands_above_pos b current Hb He).
    destruct fuel as [|fuel]; [lia|]. cbn [cost_to_mint_loop].
    replace e with target in * by lia. rewrite Z.ltb_irrefl, curve_cost_self. f_equal. lia.
Qed.

Lemma cost_to_mint_ok d s :
  0 <= d → 0 <= s → s + d <= MAX_SUPPLY → cost_to_mint d s = Ok (curve_cost s (s + d)).
Proof.
  intros Hd Hs Hm. pose proof (curve_cost_bounds s (s + d) ltac:(lia)).
  unfold cost_to_mint. rewrite checked_add_ok by (unfold umax; curve_consts; lia).
  replace (_ <? _) with false by lia. rewrite cost_to_mint_loop_ok; [done|lia..| |].
  - unfold umax. lia.
  - pose proof (bands_count_range s). lia.
Qed.

Lemma payout_loop_ok fuel current remaining total :
  0 <= remaining <= current → current <= MAX_SUPPLY →
  total + curve_cost (current - remaining) current <= umax 128 →
  bands_below current < Z.of_nat fuel →
  payout_loop fuel remaining current total
    = Ok (total + curve_cost (current - remaining) current).
Proof.
  revert remaining current total; induction fuel as [|fuel IH];
    intros remaining current total Hr Hm Htot Hf.
  { pose proof (bands_count_range current). lia. }
  cbn [payout_loop]. destruct (Z.ltb_spec 0 remaining).
  2:{ replace (current - remaining) with current by lia. rewrite curve_cost_self. f_equal. lia. }
  destruct (band_for_redemption_ok current ltac:(lia)) as (Hb & Hs).
  set (b := band_for_redemption_supply current) in *. pose proof (in_BANDS_wf b Hb) as Hw.
  rewrite (checked_sub_ok current remaining) by lia.
  set (e := Z.max (current - remaining) (start_supply b)).
  rewrite (curve_cost_split_down b (current - remaining) e current) in * by (done || lia).
  rewrite cost_single_band_ok, <- (curve_cost_within b) by (done || lia).
  pose proof (curve_cost_bounds (current - remaining) e ltac:(lia)).
  rewrite checked_add_ok, !checked_sub_ok by lia.
  destruct (decide (current - remaining <= start_supply b)).
  - replace (current - remaining) with (e - (remaining - (current - e))) in * by lia.
    rewrite IH; [f_equal; lia|lia..|].
    replace e with (start_supply b) by lia.
    pose proof (bands_below_lt b current Hb ltac:(lia)). lia.
  - pose proof (bands_below_lt b current Hb ltac:(lia)).
    pose proof (bands_count_range (start_supply b)).
    destruct fuel as [|fuel]; [lia|]. cbn [payout_loop].
    replace (0 <? remaining - (current - e)) with false by lia.
    replace (current - remaining) with e in * by lia. rewrite curve_cost_self in *. f_equal; lia.
Qed.

Lemma payout_for_burn_ok d s :
  0 <= d <= s → s <= MAX_SUPPLY → payout_for_burn d s = Ok (curve_cost (s - d) s).
Proof.
  intros Hd Hs. pose proof (curve_cost_bounds (s - d) s ltac:(lia)).
  unfold payout_for_burn. replace (_ <? _) with false by lia.
  rewrite payout_loop_ok; [done|lia|lia|unfold umax; lia|].
  pose proof (bands_count_range s). lia.
Qed.

(** ** The supply a reserve buys *)

Lemma checked_mul_ok w a b e :
  a * b <= umax w → ok_or (checked_mul w a b) e = Ok (E := MathError) (a * b).
Proof. intros. unfold checked_mul. by replace (_ <=? _) with true by lia. Qed.

(** The closed-form estimate never fails: no 256-bit product overflows, the
    root is at least the current price and the result fits [u128]. *)
Lemma inverse_mint_ok b r s :
  wf_band b → in_u 128 r → start_supply b <= s <= end_supply b →
  ∃ v, inverse_mint r s b = Ok v ∧ 0 <= v.
Proof.
  intros Hb Hr Hs. pose proof (band_price_bounds b s Hb Hs) as [_ Hp].
  unfold inverse_mint. rewrite price_in_band_ok by done. destruct Hb as (_ & _ & Hm & Hd & _).
  replace (s <? start_supply b) with false by lia.
  replace (end_supply b <? s) with false by lia. replace (slope_num b =? 0) with false by lia.
  set (p := band_price b s) in *. unfold in_u, umax in Hr. simpl orb. cbv iota.
  assert (0 <= p * p <= 10 ^ 32) by (curve_consts; nia).
  assert (0 <= 2 * slope_num b * r <= 10 * 2 ^ 128) by nia.
  assert (0 <= 2 * slope_num b * r * SCALE <= 2 ^ 192) by (curve_consts; nia).
  rewrite !checked_mul_ok by (unfold umax; lia). rewrite Hd.
  assert (0 <= 2 * slope_num b * r * SCALE / SLOPE_DEN <= 2 ^ 146).
  { split; [apply Z.div_pos; curve_consts; lia|].
    apply Z.div_le_upper_bound; curve_consts; lia. }
  rewrite checked_add_ok by (unfold umax; lia).
  rewrite integer_sqrt_u256_sqrt by (unfold in_u, umax; lia).
  set (disc := p * p + _) in *.
  assert (p <= Z.sqrt disc <= 2 ^ 74) as Hsq.
  { split.
    - apply Z.sqrt_le_square; curve_consts; lia.
    - apply (Z.le_trans _ (Z.sqrt (2 ^ 148))); [apply Z.sqrt_le_mono; lia|by vm_compute]. }
  rewrite checked_sub_ok by lia.
  rewrite checked_mul_ok by (unfold umax; curve_consts; lia).
  assert (0 <= (Z.sqrt disc - p) * SLOPE_DEN / slope_num b <= 2 ^ 127) as Hv.
  { split; [apply Z.div_pos; curve_consts; nia|].
    apply Z.div_le_upper_bound; curve_consts; nia. }
  unfold u256_to_u128, umax. replace (_ <? _) with false by lia. eexists. split; [done|lia].
Qed.

(** The binary search returns the largest affordable amount up to [high]. *)
Lemma mint_search_ok fuel b s r low high :
  wf_band b → start_supply b <= s → s + high <= end_supply b → 0 <= low <= high →
  band_cost b s (s + low) <= r → high - low < 2 ^ Z.of_nat fuel →
  ∃ d, mint_search (S fuel) s r b low high = Ok d ∧ low <= d <= high ∧
       band_cost b s (s + d) <= r ∧ (d < high → r < band_cost b s (s + d + 1)).
Proof.
  intros Hb Hs. revert low high. induction fuel as [|fuel IH]; intros low high Hh Hl Hc Hf.
  - assert (high = low) as -> by (simpl in Hf; lia).
    exists low. cbn [mint_search]. rewrite Z.ltb_irrefl. split_and!; [done|lia..].
  - cbn [mint_search]. destruct (Z.ltb_spec low high).
    2:{ exists low. split_and!; [done|lia..]. }
    assert (end_supply b <= 10 ^ 29) by (destruct Hb as (_ & He & _); curve_consts; lia).
    assert (0 <= start_supply b) by (destruct Hb as (? & _); lia).
    rewrite !checked_add_ok by (unfold umax; lia).
    set (mid := (low + high + 1) / 2).
    pose proof (Z.div_mod (low + high + 1) 2 ltac:(lia)) as Hd.
    pose proof (Z.mod_pos_bound (low + high + 1) 2 ltac:(lia)). fold mid in Hd.
    rewrite wadd_small by (unfold umax; lia).
    rewrite cost_single_band_ok by (done || lia).
    rewrite Nat2Z.inj_succ, Z.pow_succ_r in Hf by lia.
    destruct (Z.leb_spec (band_cost b s (s + mid)) r).
    + destruct (IH mid high) as (d & Hok & ? & ? & ?); [lia..|].
      exists d. split_and!; [exact Hok|lia..].
    + destruct (IH low (mid - 1)) as (d & Hok & Hrange & ? & Hmax); [lia..|].
      exists d. split_and!; [exact Hok|lia..|]. intros _.
      destruct (decide (d < mid - 1)); [by apply Hmax|].
      replace (s + d + 1) with (s + mid) by lia. done.
Qed.

(** Nothing was bought, or everything up to the end of a band. *)
Definition at_band_end (s d : Z) : Prop := d = 0 ∨ ∃ b, b ∈ BANDS ∧ s + d = end_supply b.

(** [d] is what [r] buys at supply [s]: affordable, and either the curve is
    exhausted, one more is too dear, or the reserve was spent to the last unit
    where a band ends. *)
Definition best_purchase (r s d : Z) : Prop :=
  0 <= d ∧ s + d <= MAX_SUPPLY ∧ curve_cost s (s + d) <= r ∧
  (s + d = MAX_SUPPLY ∨ (curve_cost s (s + d) = r ∧ at_band_end s d) ∨ r < curve_cost s (s + d + 1)).

(** The partial band: estimate, then binary search. *)
Lemma mint_partial_band b r s :
  b ∈ BANDS → in_u 128 r → start_supply b <= s < end_supply b →
  r < band_cost b s (end_supply b) →
  ∃ inv ec d, inverse_mint r s b = Ok inv ∧
    let est := Z.min inv (end_supply b - s) in
    cost_single_band s (wadd 128 s est) b = Ok ec ∧
    mint_search 128 s r b 0 (if ec <=? r then end_supply b - s else est) = Ok d ∧
    best_purchase r s d.
Proof.
  intros Hin Hr Hs Hfull. pose proof (in_BANDS_wf b Hin) as Hb.
  destruct (inverse_mint_ok b r s) as (inv & Hinv & Hpos); [done..|lia|].
  exists inv. set (est := Z.min inv (end_supply b - s)).
  pose proof Hb as (Hse & Hem & _). unfold in_u in Hr.
  exists (band_cost b s (s + est)).
  assert (end_supply b <= 10 ^ 29) by (curve_consts; lia).
  assert (wadd 128 s est = s + est) as Hw by (apply wadd_small; unfold umax; lia).
  set (high := if band_cost b s (s + est) <=? r then end_supply b - s else est).
  assert (0 <= high <= end_supply b - s ∧
          (high < end_supply b - s → r < band_cost b s (s + high))) as [Hh Hhigh].
  { unfold high. destruct (Z.leb_spec (band_cost b s (s + est)) r); lia. }
  destruct (mint_search_ok 127 b s r 0 high) as (d & Hok & Hd & Hc & Hmax);
    [done|lia|lia|lia| |lia|].
  { rewrite Z.add_0_r, band_cost_self. lia. }
  exists d. cbv zeta. fold est high. rewrite Hw, cost_single_band_ok by (done || lia).
  split_and!; [done..|].
  assert (d < end_supply b - s) as Hlt.
  { destruct (decide (d = end_supply b - s)) as [->|]; [|lia].
    replace (s + (end_supply b - s)) with (end_supply b) in Hc by lia. lia. }
  unfold best_purchase. rewrite !(curve_cost_within b) by (done || lia).
  split_and!; [lia|lia|done|]. right; right.
  destruct (decide (d < high)); [by apply Hmax|].
  assert (d = high) as -> by lia. specialize (Hhigh ltac:(lia)).
  lia.
Qed.

Lemma best_purchase_step b r s d :
  b ∈ BANDS → start_supply b <= s <= end_supply b →
  best_purchase (r - band_cost b s (end_supply b)) (end_supply b) d →
  best_purchase r s (end_supply b - s + d).
Proof.
  intros Hin Hs (Hd & Hm & Hc & Hbest). unfold best_purchase.
  replace (s + (end_supply b - s + d)) with (end_supply b + d) by lia.
  assert (∀ t, end_supply b <= t →
    curve_cost s t = band_cost b s (end_supply b) + curve_cost (end_supply b) t) as Hsplit.
  { intros t Ht. rewrite <- (curve_cost_within b) by (done || lia).
    apply (curve_cost_split_up b); (done || lia). }
  rewrite !Hsplit by lia. split_and!; [lia|lia|lia|].
  destruct Hbest as [?|[[? Hend]|?]]; [left; lia|right; left; split; [lia|right]|right; right; lia].
  destruct Hend as [->|(b' & Hb' & He)]; [exists b|exists b']; split; (done || lia).
Qed.

Lemma mint_loop_ok fuel r minted s :
  in_u 128 r → 0 <= s <= MAX_SUPPLY → 0 <= minted → minted + (MAX_SUPPLY - s) <= umax 128 →
  bands_above s < Z.of_nat fuel →
  ∃ d, mint_loop fuel r minted s = Ok (minted + d) ∧ best_purchase r s d.
Proof.
  revert r minted s; induction fuel as [|fuel IH]; intros r minted s Hr Hs Hmin Hfit Hf.
  { pose proof (bands_count_range s). lia. }
  assert (0 <= r) by (unfold in_u in Hr; lia).
  cbn [mint_loop]. destruct (Z.ltb_spec 0 r), (Z.ltb_spec s MAX_SUPPLY); simpl andb; cbv iota.
  2-4: exists 0; unfold best_purchase, at_band_end; rewrite Z.add_0_r, Z.add_0_r, curve_cost_self;
    split_and!; [done|lia..|lia].
  destruct (band_for_supply_ok s Hs) as (b & -> & Hin & Hsb & He).
  specialize (He ltac:(lia)). pose proof (in_BANDS_wf b Hin) as Hb.
  rewrite checked_sub_ok by lia. replace (_ =? 0) with false by lia.
  rewrite cost_single_band_ok by (done || lia).
  pose proof (band_cost_bounds b s (end_supply b) Hb ltac:(lia) ltac:(lia)) as (_ & _ & Hcb).
  pose proof Hb as (_ & Hem & _).
  destruct (Z.leb_spec (band_cost b s (end_supply b)) r).
  - rewrite checked_add_ok, checked_sub_ok by lia.
    destruct (IH (r - band_cost b s (end_supply b)) (minted + (end_supply b - s)) (end_supply b))
      as (d & Hok & Hbest); [unfold in_u in *; lia|lia|lia|lia| |].
    { pose proof (bands_above_lt b s Hin He). lia. }
    exists (end_supply b - s + d). rewrite Hok. split; [f_equal; lia|].
    by apply best_purchase_step.
  - destruct (mint_partial_band b r s) as (inv & ec & d & -> & Hec & Hd & Hbest); [done|done|lia|lia|].
    rewrite Hec, Hd. exists d. split; [|done].
    destruct Hbest as (? & ? & _). by rewrite checked_add_ok by lia.
Qed.

(** ** Theorems *)

(** The cost of minting is defined exactly up to the maximum supply, where
    it is the sum over the bands of the cost of the part in each band; no
    intermediate overflows and the loop over bands ends. *)
Theorem cost_to_mint_spec d s :
  in_u 128 d → in_u 128 s →
  cost_to_mint d s =
  if s + d <=? MAX_SUPPLY then Ok (curve_cost s (s + d)) else Err MathOverflow.
Proof.
  unfold in_u. intros Hd Hs. destruct (Z.leb_spec (s + d) MAX_SUPPLY).
  - apply cost_to_mint_ok; lia.
  - unfold cost_to_mint. destruct (checked_add 128 s d) eqn:E; [|done].
    simpl. int_inv. by replace (_ <? _) with true by lia.
Qed.

(** C37: whatever reserve is offered at whatever supply, the purchase loop
    returns, and the cost of what it mints is within the reserve.  Every larger
    purchase costs more than the reserve, with two exceptions: the curve is
    exhausted, or the loop has stopped because the reserve is spent to the last
    unit exactly at the end of a band (or was nothing to begin with), where units
    whose cost rounds to zero may be left. *)
Theorem mint_with_reserve_optimal r s :
  in_u 128 r → 0 <= s <= MAX_SUPPLY →
  ∃ d c, mint_with_reserve r s = Ok d ∧ cost_to_mint d s = Ok c ∧
    0 <= d ∧ s + d <= MAX_SUPPLY ∧ c <= r ∧
    (s + d = MAX_SUPPLY ∨ (c = r ∧ at_band_end s d) ∨
     ∀ d', d < d' → s + d' <= MAX_SUPPLY → ∃ c', cost_to_mint d' s = Ok c' ∧ r < c').
Proof.
  intros Hr Hs. unfold mint_with_reserve. replace (_ <? _) with false by lia.
  destruct (mint_loop_ok 6 r 0 s) as (d & -> & Hd & Hm & Hc & Hbest);
    [done|done|done|unfold umax; curve_consts; lia| |].
  { pose proof (bands_count_range s). lia. }
  exists d, (curve_cost s (s + d)). rewrite cost_to_mint_ok by lia.
  split_and!; [done..|].
  destruct Hbest as [?|[?|Hdear]]; [by left|by right; left|right; right].
  intros d' Hd' Hm'. exists (curve_cost s (s + d')). rewrite cost_to_mint_ok by lia.
  pose proof (curve_cost_mono s (s + d + 1) (s + d')). split; [done|lia].
Qed.

(** Burning what was just minted pays out exactly what minting cost, to the
    last unit, so buying with a reserve and selling back never returns more than
    was paid. *)
Theorem mint_burn_roundtrip r s :
  in_u 128 r → 0 <= s <= MAX_SUPPLY →
  ∃ d c, mint_with_reserve r s = Ok d ∧ cost_to_mint d s = Ok c ∧
    payout_for_burn d (s + d) = Ok c ∧ c <= r.
Proof.
  intros Hr Hs. unfold mint_with_reserve. replace (_ <? _) with false by lia.
  destruct (mint_loop_ok 6 r 0 s) as (d & -> & Hd & Hm & Hc & _);
    [done|done|done|unfold umax; curve_consts; lia| |].
  { pose proof (bands_count_range s). lia. }
  exists d, (curve_cost s (s + d)).
  rewrite cost_to_mint_ok, payout_for_burn_ok by lia.
  replace (s + d - d) with s by lia. done.
Qed.

Lemma div_add_bounds a b n : 0 < n → a / n + b / n <= (a + b) / n <= a / n + b / n + 1.
Proof.
  intros Hn. pose proof (Z.div_mod a n ltac:(lia)). pose proof (Z.div_mod b n ltac:(lia)).
  pose proof (Z.div_mod (a + b) n ltac:(lia)).
  pose proof (Z.mod_pos_bound a n Hn). pose proof (Z.mod_pos_bound b n Hn).
  pose proof (Z.mod_pos_bound (a + b) n Hn). nia.
Qed.

Lemma band_cost_split b x y z :
  band_cost b x y + band_cost b y z <= band_cost b x z <=
  band_cost b x y + band_cost b y z + 2.
Proof.
  unfold band_cost. set (o := start_supply b).
  pose proof (div_add_bounds (slope_num b * (y - o + (x - o)) * (y - x))
    (slope_num b * (z - o + (y - o)) * (z - y)) (2 * SLOPE_DEN * SCALE) ltac:(done)) as H1.
  pose proof (div_add_bounds (p_start b * (y - x)) (p_start b * (z - y)) SCALE ltac:(done)) as H2.
  replace (slope_num b * (y - o + (x - o)) * (y - x) + slope_num b * (z - o + (y - o)) * (z - y))
    with (slope_num b * (z - o + (x - o)) * (z - x)) in H1 by ring.
  replace (p_start b * (y - x) + p_start b * (z - y)) with (p_start b * (z - x)) in H2 by ring.
  lia.
Qed.

(** The bands other than the one a supply lies in are not split by it. *)
Lemma curve_cost_split_any s e t :
  0 <= s <= e → e <= t → t <= MAX_SUPPLY →
  curve_cost s e + curve_cost e t <= curve_cost s t <= curve_cost s e + curve_cost e t + 2.
Proof.
  intros Hs He Ht. destruct (band_for_supply_ok e) as (b & _ & Hin & Hb & _); [lia|].
  pose proof (in_BANDS_wf b Hin) as (Hw & _).
  set (x := Z.max s (start_supply b)). set (y := Z.min t (end_supply b)).
  rewrite (curve_cost_split_down b s x e) by (done || lia).
  rewrite (curve_cost_split_up b e y t) by (done || lia).
  assert (curve_cost s t = curve_cost s x + (curve_cost x y + curve_cost y t)) as ->.
  { destruct (decide (s <= start_supply b)).
    - rewrite (curve_cost_split s x t);
        [by rewrite (curve_cost_split_up b x y t) by (done || lia)|].
      intros j Hj. pose proof (in_BANDS_wf j Hj) as (? & _). unfold clamp.
      destruct (bands_disjoint b j Hin Hj) as [->|[?|?]]; lia.
    - replace x with s by lia. rewrite curve_cost_self.
      rewrite (curve_cost_split_up b s y t) by (done || lia). lia. }
  rewrite (curve_cost_within b x e), (curve_cost_within b e y), (curve_cost_within b x y)
    by (done || lia).
  pose proof (band_cost_split b x e y). lia.
Qed.

(** Buying in two steps instead of one saves at most two atomic units, and
    never costs more: the rounding of the curve cannot be accumulated by more
    than that per step. *)
Theorem cost_to_mint_split d1 d2 s :
  0 <= d1 → 0 <= d2 → 0 <= s → s + d1 + d2 <= MAX_SUPPLY →
  ∃ c1 c2 c, cost_to_mint d1 s = Ok c1 ∧ cost_to_mint d2 (s + d1) = Ok c2 ∧
    cost_to_mint (d1 + d2) s = Ok c ∧ c1 + c2 <= c <= c1 + c2 + 2.
Proof.
  intros. rewrite !cost_to_mint_ok by lia. do 3 eexists. split_and!; [done..| |].
  all: rewrite Z.add_assoc; apply curve_cost_split_any; lia.
Qed.

Lemma price_at_supply_ok s :
  0 <= s <= MAX_SUPPLY →
  ∃ b, price_at_supply s = Ok (band_price b s) ∧ b ∈ BANDS ∧
       start_supply b <= s <= end_supply b ∧ (s < MAX_SUPPLY → s < end_supply b).
Proof.
  intros Hs. unfold price_at_supply.
  destruct (band_for_supply_ok s Hs) as (b & -> & Hin & Hb & He).
  exists b. rewrite price_in_band_ok; [done|by apply in_BANDS_wf|done].
Qed.

(** The price at the end of a band is the next band's starting price; bands are
    ordered by both. *)
Lemma band_price_ordered b j :
  b ∈ BANDS → j ∈ BANDS → end_supply b <= start_supply j →
  band_price b (end_supply b) <= p_start j.
Proof.
  unfold BANDS. rewrite !elem_of_cons, !elem_of_nil.
  intros [->|[->|[->|[->|[->|[]]]]]] [->|[->|[->|[->|[->|[]]]]]]; vm_compute; intros; done.
Qed.

Lemma band_price_mono b s t : wf_band b → s <= t → band_price b s <= band_price b t.
Proof.
  intros (_ & _ & Hm & _) Hst. unfold band_price.
  apply Z.add_le_mono_l, Z.div_le_mono; [by vm_compute|nia].
Qed.

(** The hard-coded band table is the one derived from the first price, and
    the price meets without a jump at every band boundary. *)
Theorem bands_derived_and_continuous :
  derive_cbe_bands P_START_0 = BANDS ∧
  ∀ i b b', BANDS !! i = Some b → BANDS !! S i = Some b' →
    end_supply b = start_supply b' ∧
    price_at_supply_in_band (end_supply b) b = Ok (p_start b').
Proof.
  split; [by vm_compute|]. intros i b b' Hb Hb'.
  do 5 (destruct i as [|i]; [simplify_eq/=; split; by vm_compute|]).
  done.
Qed.

(** The price is defined on the whole supply range, never falls below the
    first price and never decreases with the supply. *)
Theorem price_at_supply_mono s t :
  0 <= s <= t → t <= MAX_SUPPLY →
  ∃ p q, price_at_supply s = Ok p ∧ price_at_supply t = Ok q ∧ P_START_0 <= p <= q.
Proof.
  intros Hs Ht.
  destruct (price_at_supply_ok s) as (b & -> & Hb & Hsb & Hse); [lia|].
  destruct (price_at_supply_ok t) as (j & -> & Hj & Htj & Hte); [lia|].
  pose proof (in_BANDS_wf b Hb) as Hwb. pose proof (in_BANDS_wf j Hj) as Hwj.
  do 2 eexists. split_and!; [done..| |].
  - by apply band_price_bounds.
  - destruct (bands_disjoint b j Hb Hj) as [->|[Hlt|Hlt]].
    + apply band_price_mono; [done|lia].
    + destruct Hwb as (? & ? & _). destruct (decide (t < MAX_SUPPLY)); [|lia].
      specialize (Hte ltac:(done)). lia.
    + trans (band_price b (end_supply b)); [apply band_price_mono; [done|lia]|].
      trans (p_start j); [by apply band_price_ordered|].
      pose proof (band_price_bounds j t Hwj Htj) as [Hp _]. unfold band_price. lia.
Qed.

(** ** Concrete instances *)

Lemma cost_to_mint_spec_witness :
  cost_to_mint (20000000000 * SCALE) (5000000000 * SCALE) =
  Ok 10391914000000000000000000.
Proof.
  rewrite (cost_to_mint_spec (20000000000 * SCALE) (5000000000 * SCALE)).
  - vm_compute. reflexivity.
  - split; vm_compute; discriminate.
  - split; vm_compute; discriminate.
Defined.

Lemma mint_with_reserve_optimal_witness :
  ∃ d c, mint_with_reserve (30000000 * SCALE) 0 = Ok d ∧ cost_to_mint d 0 = Ok c ∧
    c <= 30000000 * SCALE.
Proof.
  destruct (mint_with_reserve_optimal (30000000 * SCALE) 0) as (d & c & ? & ? & _ & _ & ? & _);
    [split; vm_compute; discriminate..|].
  exists d, c. split_and!; assumption.
Defined.

Lemma mint_burn_roundtrip_witness :
  ∃ d c, mint_with_reserve (12345 * SCALE + 77) (9999999999 * SCALE) = Ok d ∧
    payout_for_burn d (9999999999 * SCALE + d) = Ok c ∧ c <= 12345 * SCALE + 77.
Proof.
  destruct (mint_burn_roundtrip (12345 * SCALE + 77) (9999999999 * SCALE))
    as (d & c & ? & _ & ? & ?);
    [split; vm_compute; discriminate..|].
  exists d, c. split_and!; assumption.
Defined.

Lemma cost_to_mint_split_witness :
  ∃ c1 c2 c, cost_to_mint 1000000007 3 = Ok c1 ∧ cost_to_mint 9 (3 + 1000000007) = Ok c2 ∧
    cost_to_mint (1000000007 + 9) 3 = Ok c ∧ c1 + c2 <= c <= c1 + c2 + 2.
Proof. apply (cost_to_mint_split 1000000007 9 3); vm_compute; discriminate. Defined.

Lemma bands_derived_and_continuous_witness :
  price_at_supply_in_band (10000000000 * SCALE) (mk_band 0 0 (10000000000 * SCALE) 1 P_START_0)
    = Ok P_START_1.
Proof.
  destruct bands_derived_and_continuous as [_ H].
  by apply (H 0%nat (mk_band 0 0 (10000000000 * SCALE) 1 P_START_0)
    (mk_band 1 (10000000000 * SCALE) (30000000000 * SCALE) 2 P_START_1)).
Defined.

Lemma price_at_supply_mono_witness :
  ∃ p q, price_at_supply (9999999999 * SCALE) = Ok p ∧
         price_at_supply (10000000001 * SCALE) = Ok q ∧ P_START_0 <= p <= q.
Proof.
  apply (price_at_supply_mono (9999999999 * SCALE) (10000000001 * SCALE)); [split|];
    vm_compute; discriminate.
Defined.
