(* ===== verification/CurveState.v ===== *)
(** * Bonding-curve state (lib-types)

    [lib-types/src/bonding_curve.rs]: the five capped pools, the 48-bit nonce,
    the economic state of the curve with its queue of pre-backed payroll debts,
    and the per-account state.

    The theorems: pools never exceed their ceilings; the nonce's six big-endian
    bytes round-trip; settling debts keeps [outstanding_pre_backed] equal to the
    sum of the unsettled entries and settles them in order. *)
From stdpp Require Import base tactics numbers list option strings.
From S2P Require Import Prelude Curve.

(** ** Pools *)

Record PoolState : Type := { pool_balance : Z; pool_ceiling : Z }. (* u128 *)

Definition pool_can_mint (p : PoolState) (amount : Z) : bool :=
  match checked_add 128 (pool_balance p) amount with
  | Some new => new <=? pool_ceiling p
  | None => false
  end.

(** [PoolState::mint]: the pool is left as it is on an error. *)
Definition pool_mint (p : PoolState) (amount : Z) : result PoolState string :=
  let? new := ok_or (checked_add 128 (pool_balance p) amount) "pool balance overflow"%string in
  if pool_ceiling p <? new then Err "would exceed pool ceiling"%string
  else Ok {| pool_balance := new; pool_ceiling := pool_ceiling p |}.

(** ** 48-bit nonces *)

Record Nonce48 : Type := { nonce_bytes : list Z }.

Definition Nonce48_MAX : Z := Z.shiftl 1 48 - 1.

Definition Nonce48_zero : Nonce48 := {| nonce_bytes := [0; 0; 0; 0; 0; 0] |}.

Definition Nonce48_from_u64 (value : Z) : option Nonce48 :=
  if Nonce48_MAX <? value then None
  else Some {| nonce_bytes :=
    [ as_u 8 (Z.land (Z.shiftr value 40) 255);
      as_u 8 (Z.land (Z.shiftr value 32) 255);
      as_u 8 (Z.land (Z.shiftr value 24) 255);
      as_u 8 (Z.land (Z.shiftr value 16) 255);
      as_u 8 (Z.land (Z.shiftr value 8) 255);
      as_u 8 (Z.land value 255) ] |}.

Definition Nonce48_to_u64 (n : Nonce48) : Z :=
  match nonce_bytes n with
  | [b0; b1; b2; b3; b4; b5] =>
      Z.lor (Z.lor (Z.lor (Z.lor (Z.lor (Z.shiftl b0 40) (Z.shiftl b1 32))
        (Z.shiftl b2 24)) (Z.shiftl b3 16)) (Z.shiftl b4 8)) b5
  | _ => 0
  end.

(** A nonce as its type allows: six bytes. *)
Definition wf_nonce (n : Nonce48) : Prop :=
  length (nonce_bytes n) = 6%nat ∧ Forall (in_u 8) (nonce_bytes n).

(** ** Economic state *)

Record PreBackedEntry : Type := {
  entry_block_height : Z;
  entry_amount_cbe : Z;
  entry_recipient : Z;
  entry_deliverable_hash : Z;
  satisfied : bool;
}.

Record BondingCurveEconomicState : Type := {
  s_c : Z;                       (* u128, as every amount below *)
  reserve_balance : Z;
  sov_treasury_cbe_balance : Z;
  liquidity_pool_balance : Z;
  total_sov_minted : Z;
  graduated : bool;
  sell_enabled : bool;
  compensation_pool : PoolState;
  treasury_pool : PoolState;
  liquidity_pool : PoolState;
  incentive_pool : PoolState;
  strategic_reserve : PoolState;
  outstanding_pre_backed : Z;
  pre_backed_queue : list PreBackedEntry;
  debt_state : DebtState;
  genesis_treasury_allocation : Z;
  sovrn_total_supply : Z;
}.

Definition BondingCurveEconomicState_default : BondingCurveEconomicState := {|
  s_c := 0; reserve_balance := 0; sov_treasury_cbe_balance := 0;
  liquidity_pool_balance := 0; total_sov_minted := 0; graduated := false;
  sell_enabled := false;
  compensation_pool := {| pool_balance := 0; pool_ceiling := COMPENSATION_POOL_CEILING |};
  treasury_pool := {| pool_balance := 0; pool_ceiling := TREASURY_POOL_CEILING |};
  liquidity_pool := {| pool_balance := 0; pool_ceiling := LIQUIDITY_POOL_CEILING |};
  incentive_pool := {| pool_balance := 0; pool_ceiling := INCENTIVE_POOL_CEILING |};
  strategic_reserve := {| pool_balance := 0; pool_ceiling := STRATEGIC_RESERVE_CEILING |};
  outstanding_pre_backed := 0; pre_backed_queue := []; debt_state := Green;
  genesis_treasury_allocation := 0; sovrn_total_supply := 0 |}.

(** The state with its debts replaced. *)
Definition set_debts (outstanding : Z) (queue : list PreBackedEntry)
    (e : BondingCurveEconomicState) : BondingCurveEconomicState := {|
  s_c := s_c e; reserve_balance := reserve_balance e;
  sov_treasury_cbe_balance := sov_treasury_cbe_balance e;
  liquidity_pool_balance := liquidity_pool_balance e;
  total_sov_minted := total_sov_minted e; graduated := graduated e;
  sell_enabled := sell_enabled e; compensation_pool := compensation_pool e;
  treasury_pool := treasury_pool e; liquidity_pool := liquidity_pool e;
  incentive_pool := incentive_pool e; strategic_reserve := strategic_reserve e;
  outstanding_pre_backed := outstanding; pre_backed_queue := queue;
  debt_state := debt_state e;
  genesis_treasury_allocation := genesis_treasury_allocation e;
  sovrn_total_supply := sovrn_total_supply e |}.

Definition satisfy_entry (e : PreBackedEntry) : PreBackedEntry := {|
  entry_block_height := entry_block_height e; entry_amount_cbe := entry_amount_cbe e;
  entry_recipient := entry_recipient e;
  entry_deliverable_hash := entry_deliverable_hash e; satisfied := true |}.

(** The loop of [satisfy_pre_backed] over the queue; [break] leaves the rest of
    the queue untouched. *)
Fixpoint satisfy_loop (remaining outstanding : Z) (queue : list PreBackedEntry)
    : Z * list PreBackedEntry :=
  match queue with
  | [] => (outstanding, [])
  | e :: rest =>
      if satisfied e || (remaining =? 0) then
        let '(o, q) := satisfy_loop remaining outstanding rest in (o, e :: q)
      else if entry_amount_cbe e <=? remaining then
        let '(o, q) := satisfy_loop (remaining - entry_amount_cbe e)
                         (saturating_sub outstanding (entry_amount_cbe e)) rest in
        (o, satisfy_entry e :: q)
      else (outstanding, e :: rest)
  end.

Definition satisfy_pre_backed (amount : Z) (e : BondingCurveEconomicState)
    : BondingCurveEconomicState :=
  let '(o, q) := satisfy_loop amount (outstanding_pre_backed e) (pre_backed_queue e) in
  set_debts o q e.

Record BondingCurveAccountState : Type := {
  acc_key_id : Z;
  balance_cbe : Z;
  balance_sov : Z;
  next_nonce : Nonce48;
}.

Definition BondingCurveAccountState_default : BondingCurveAccountState :=
  {| acc_key_id := 0; balance_cbe := 0; balance_sov := 0; next_nonce := Nonce48_zero |}.

(** ** Pools *)

Definition wf_pool (p : PoolState) : Prop :=
  0 <= pool_balance p <= pool_ceiling p ∧ pool_ceiling p <= umax 128.

Lemma pool_mint_ok p amount p' :
  pool_mint p amount = Ok p' ↔
  pool_balance p + amount <= umax 128 ∧ pool_balance p + amount <= pool_ceiling p ∧
  p' = {| pool_balance := pool_balance p + amount; pool_ceiling := pool_ceiling p |}.
Proof.
  unfold pool_mint, checked_add.
  destruct (Z.leb_spec (pool_balance p + amount) (umax 128)); simpl; [|naive_solver lia].
  destruct (Z.ltb_spec (pool_ceiling p) (pool_balance p + amount)); naive_solver lia.
Qed.

(** A pool accepts a mint exactly when [can_mint] says so, adds exactly the
    amount, and never leaves its ceiling. *)
Theorem pool_mint_spec p amount :
  wf_pool p → 0 <= amount →
  match pool_mint p amount with
  | Ok p' => pool_can_mint p amount = true ∧ wf_pool p' ∧
             pool_balance p' = pool_balance p + amount ∧ pool_ceiling p' = pool_ceiling p
  | Err _ => pool_can_mint p amount = false
  end.
Proof.
  intros Hp Ha. unfold pool_can_mint. destruct (pool_mint p amount) as [p'|e] eqn:Hm.
  - apply pool_mint_ok in Hm as (? & ? & ->). unfold wf_pool, checked_add in *; simpl.
    replace (_ <=? umax 128) with true by lia. split_and!; [lia..|done|done].
  - unfold pool_mint in Hm. destruct (checked_add _ _ _) eqn:E; [|done]. simpl in Hm.
    case_match; [|done]. int_inv. apply Z.leb_gt. lia.
Qed.

(** ** Nonces *)

Lemma byte_of value k : 0 <= k → as_u 8 (Z.land (Z.shiftr value k) 255) = value / 2 ^ k mod 2 ^ 8.
Proof.
  intros Hk. change 255 with (Z.ones 8). rewrite Z.land_ones, Z.shiftr_div_pow2 by lia.
  unfold as_u. by rewrite Z.mod_mod.
Qed.

(** Bits that do not overlap add up. *)
Lemma lor_add a lo k : 0 <= k → 0 <= lo < 2 ^ k → Z.lor (a * 2 ^ k) lo = a * 2 ^ k + lo.
Proof.
  intros Hk Hlo. symmetry. apply Z.add_nocarry_lor. apply Z.bits_inj'. intros n Hn.
  rewrite Z.land_spec, Z.bits_0. destruct (decide (n < k)).
  - by rewrite Z.mul_pow2_bits_low.
  - rewrite <- (Z.mod_small lo (2 ^ k)) by lia.
    rewrite Z.mod_pow2_bits_high by lia. apply andb_false_r.
Qed.

Lemma Nonce48_to_u64_sum b0 b1 b2 b3 b4 b5 :
  Forall (in_u 8) [b0; b1; b2; b3; b4; b5] →
  Nonce48_to_u64 {| nonce_bytes := [b0; b1; b2; b3; b4; b5] |} =
  ((((b0 * 2 ^ 8 + b1) * 2 ^ 8 + b2) * 2 ^ 8 + b3) * 2 ^ 8 + b4) * 2 ^ 8 + b5.
Proof.
  intros Hb. unfold in_u, umax in Hb. repeat rewrite Forall_cons in Hb.
  unfold Nonce48_to_u64. simpl nonce_bytes. cbv iota. rewrite !Z.shiftl_mul_pow2 by lia.
  rewrite (lor_add b0 (b1 * 2 ^ 32) 40) by lia.
  replace (b0 * 2 ^ 40 + b1 * 2 ^ 32) with ((b0 * 2 ^ 8 + b1) * 2 ^ 32) by lia.
  rewrite (lor_add _ (b2 * 2 ^ 24) 32) by lia.
  replace ((b0 * 2 ^ 8 + b1) * 2 ^ 32 + b2 * 2 ^ 24)
    with (((b0 * 2 ^ 8 + b1) * 2 ^ 8 + b2) * 2 ^ 24) by lia.
  rewrite (lor_add _ (b3 * 2 ^ 16) 24) by lia.
  replace (_ * 2 ^ 24 + b3 * 2 ^ 16)
    with ((((b0 * 2 ^ 8 + b1) * 2 ^ 8 + b2) * 2 ^ 8 + b3) * 2 ^ 16) by lia.
  rewrite (lor_add _ (b4 * 2 ^ 8) 16) by lia.
  replace (_ * 2 ^ 16 + b4 * 2 ^ 8)
    with (((((b0 * 2 ^ 8 + b1) * 2 ^ 8 + b2) * 2 ^ 8 + b3) * 2 ^ 8 + b4) * 2 ^ 8) by lia.
  by rewrite (lor_add _ b5 8) by lia.
Qed.

Lemma Nonce48_to_from v :
  0 <= v <= Nonce48_MAX → ∃ n, Nonce48_from_u64 v = Some n ∧ wf_nonce n ∧ Nonce48_to_u64 n = v.
Proof.
  intros Hv. unfold Nonce48_from_u64. replace (_ <? v) with false by lia.
  eexists. split; [done|]. change Nonce48_MAX with (2 ^ 48 - 1) in Hv.
  assert (Z.land v 255 = Z.land (Z.shiftr v 0) 255) as -> by (by rewrite Z.shiftr_0_r).
  rewrite !byte_of by lia.
  assert (∀ x, in_u 8 (x mod 2 ^ 8)) as Hb.
  { intros x. unfold in_u, umax. pose proof (Z.mod_pos_bound x (2 ^ 8)). lia. }
  split; [split; [done|]; simpl; repeat constructor; apply Hb|].
  rewrite Nonce48_to_u64_sum by (repeat constructor; apply Hb).
  pose proof (Z.div_small v (2 ^ 48)).
  Z.to_euclidean_division_equations. lia.
Qed.

Lemma wf_nonce_shape n :
  wf_nonce n → ∃ b0 b1 b2 b3 b4 b5, n = {| nonce_bytes := [b0; b1; b2; b3; b4; b5] |} ∧
    Forall (in_u 8) [b0; b1; b2; b3; b4; b5].
Proof.
  destruct n as [[|b0 [|b1 [|b2 [|b3 [|b4 [|b5 [|]]]]]]]]; intros [Hl Hb]; try done.
  by exists b0, b1, b2, b3, b4, b5.
Qed.

Lemma wf_nonce_range n : wf_nonce n → 0 <= Nonce48_to_u64 n <= Nonce48_MAX.
Proof.
  intros (b0 & b1 & b2 & b3 & b4 & b5 & -> & Hb)%wf_nonce_shape.
  rewrite Nonce48_to_u64_sum by done. unfold in_u, umax in Hb.
  repeat rewrite Forall_cons in Hb. change Nonce48_MAX with (2 ^ 48 - 1). lia.
Qed.

(** A 48-bit nonce survives the trip through its six big-endian bytes, in
    both directions, and larger values are refused. *)
Theorem Nonce48_roundtrip :
  (∀ v, in_u 64 v → if v <=? Nonce48_MAX
     then ∃ n, Nonce48_from_u64 v = Some n ∧ wf_nonce n ∧ Nonce48_to_u64 n = v
     else Nonce48_from_u64 v = None) ∧
  (∀ n, wf_nonce n → Nonce48_from_u64 (Nonce48_to_u64 n) = Some n).
Proof.
  split.
  - intros v Hv. destruct (Z.leb_spec v Nonce48_MAX).
    + apply Nonce48_to_from. unfold in_u in Hv. lia.
    + unfold Nonce48_from_u64. by replace (_ <? v) with true by lia.
  - intros n Hn. destruct (Nonce48_to_from (Nonce48_to_u64 n)) as (m & Hm & Hwm & Heq).
    { by apply wf_nonce_range. }
    rewrite Hm. f_equal.
    apply wf_nonce_shape in Hn as (b0 & b1 & b2 & b3 & b4 & b5 & -> & Hb).
    apply wf_nonce_shape in Hwm as (c0 & c1 & c2 & c3 & c4 & c5 & -> & Hc).
    rewrite !Nonce48_to_u64_sum in Heq by done. unfold in_u, umax in Hb, Hc.
    repeat rewrite Forall_cons in Hb. repeat rewrite Forall_cons in Hc.
    repeat f_equal; lia.
Qed.

(** ** Settling debts *)

Definition unsettled (q : list PreBackedEntry) : Z :=
  sumZ ((λ e, if satisfied e then 0 else entry_amount_cbe e) <$> q).

(** [settles q q']: [q'] is [q] with some entries marked satisfied, and an entry
    is newly marked only if every earlier one is satisfied in the result. *)
Definition settles (q q' : list PreBackedEntry) : Prop :=
  Forall2 (λ e e', e' = e ∨ e' = satisfy_entry e) q q' ∧
  ∀ i j e e', (i < j)%nat → q !! j = Some e → satisfied e = false →
    q' !! j = Some e' → satisfied e' = true →
    ∀ d, q' !! i = Some d → satisfied d = true.

Lemma settles_refl q : settles q q.
Proof.
  split; [apply Forall_Forall2_diag, Forall_forall; naive_solver|].
  intros; simplify_eq; congruence.
Qed.

(** An unsatisfied head that stays unsatisfied stops everything behind it. *)
Lemma settles_cons e e' q q' :
  settles q q' → e' = e ∨ e' = satisfy_entry e → satisfied e' = true ∨ q' = q →
  settles (e :: q) (e' :: q').
Proof.
  intros [Hall Hfifo] He Hhead. split; [by constructor|].
  intros [|i] [|j] x x' Hij Hx Hsx Hx' Hsx' d Hd; simplify_eq/=; try lia.
  - destruct Hhead as [Hh| ->]; [done|congruence].
  - apply (Hfifo i j x x'); (done || lia).
Qed.

Lemma satisfy_loop_stuck o q : satisfy_loop 0 o q = (o, q).
Proof.
  revert o; induction q as [|e q IH]; intros o; [done|]. simpl.
  by rewrite orb_true_r, IH.
Qed.

Lemma unsettled_cons e q :
  unsettled (e :: q) = (if satisfied e then 0 else entry_amount_cbe e) + unsettled q.
Proof. done. Qed.

Lemma unsettled_nonneg q : Forall (λ e, 0 <= entry_amount_cbe e) q → 0 <= unsettled q.
Proof.
  induction 1 as [|e q He Hq IH]; [done|]. rewrite unsettled_cons. case_match; lia.
Qed.

Lemma satisfy_loop_spec r o q o' q' :
  Forall (λ e, 0 <= entry_amount_cbe e) q → 0 <= r → unsettled q <= o →
  satisfy_loop r o q = (o', q') →
  o' - unsettled q' = o - unsettled q ∧ unsettled q - unsettled q' <= r ∧ settles q q'.
Proof.
  intros Hq. revert r o o' q'. induction Hq as [|e q He Hq IH]; intros r o o' q' Hr Ho Hl.
  { simplify_eq/=. split_and!; [lia|done|apply settles_refl]. }
  simpl in Hl. pose proof (unsettled_nonneg q Hq). rewrite unsettled_cons in *.
  destruct (satisfied e) eqn:Hs; simpl in Hl.
  - destruct (satisfy_loop r o q) as [o1 q1] eqn:Hloop. simplify_eq.
    destruct (IH r o o' q1) as (? & ? & ?); [done|lia|done|].
    rewrite unsettled_cons, Hs. split_and!; [lia|lia|].
    apply settles_cons; [done|by left|by left].
  - destruct (Z.eqb_spec r 0) as [->|Hne].
    { rewrite satisfy_loop_stuck in Hl. simplify_eq. rewrite unsettled_cons, Hs.
      split_and!; [lia|lia|apply settles_refl]. }
    destruct (Z.leb_spec (entry_amount_cbe e) r).
    + unfold saturating_sub in Hl.
      destruct (satisfy_loop _ _ q) as [o1 q1] eqn:Hloop. simplify_eq.
      apply IH in Hloop as (? & ? & ?); [|lia|lia]. rewrite unsettled_cons. simpl.
      split_and!; [lia|lia|]. apply settles_cons; [done|by right|by left].
    + simplify_eq. rewrite unsettled_cons, Hs. split_and!; [lia|lia|apply settles_refl].
Qed.

(** Settling debts with an incoming amount keeps the outstanding total equal
    to the sum of the unsettled entries, settles no more than the amount, changes
    nothing of an entry but its mark, and settles in queue order. *)
Theorem satisfy_pre_backed_spec amount e :
  0 <= amount → Forall (λ x, 0 <= entry_amount_cbe x) (pre_backed_queue e) →
  outstanding_pre_backed e = unsettled (pre_backed_queue e) →
  let e' := satisfy_pre_backed amount e in
  outstanding_pre_backed e' = unsettled (pre_backed_queue e') ∧
  outstanding_pre_backed e - outstanding_pre_backed e' <= amount ∧
  settles (pre_backed_queue e) (pre_backed_queue e').
Proof.
  intros Ha Hq Ho. unfold satisfy_pre_backed.
  destruct (satisfy_loop _ _ _) as [o q] eqn:Hl.
  apply satisfy_loop_spec in Hl as (? & ? & ?); [simpl|done|lia|lia].
  split_and!; [lia|lia|done].
Qed.

(** ** Concrete instances *)

Lemma pool_mint_spec_witness :
  let p := {| pool_balance := 5; pool_ceiling := 10 |} in
  pool_mint p 5 = Ok {| pool_balance := 10; pool_ceiling := 10 |} ∧
  pool_can_mint p 5 = true.
Proof.
  split; [done|].
  pose proof (pool_mint_spec {| pool_balance := 5; pool_ceiling := 10 |} 5) as H.
  simpl in H. apply H; [|lia]. unfold wf_pool, umax; simpl; lia.
Defined.

Lemma Nonce48_roundtrip_witness :
  Nonce48_from_u64 (Nonce48_to_u64 {| nonce_bytes := [1; 2; 3; 4; 5; 255] |}) =
  Some {| nonce_bytes := [1; 2; 3; 4; 5; 255] |}.
Proof.
  destruct Nonce48_roundtrip as [_ H]. apply H. split; [done|].
  unfold in_u, umax; simpl; repeat constructor; lia.
Defined.

Definition demo_entry (amount : Z) : PreBackedEntry :=
  {| entry_block_height := 1; entry_amount_cbe := amount; entry_recipient := 2;
     entry_deliverable_hash := 3; satisfied := false |}.

Lemma satisfy_pre_backed_spec_witness :
  let e := set_debts 60 [demo_entry 10; demo_entry 20; demo_entry 30]
             BondingCurveEconomicState_default in
  let e' := satisfy_pre_backed 35 e in
  outstanding_pre_backed e' = 30 ∧ settles (pre_backed_queue e) (pre_backed_queue e').
Proof.
  split; [done|].
  apply (satisfy_pre_backed_spec 35 (set_debts 60 [demo_entry 10; demo_entry 20; demo_entry 30]
    BondingCurveEconomicState_default)); [lia| |done].
  repeat constructor; simpl; lia.
Defined.
