(* ===== verification/Merkle.v ===== *)
(** * The incremental UTXO Merkle tree (lib-blockchain storage)

    [SledStore::get_merkle_node], [update_merkle_path] and [merkle_zero_hashes]
    of [lib-blockchain/src/storage/sled_store.rs]: a tree of depth 32 of which
    only the touched nodes are stored, updated along one path per changed leaf.

    The pair hash is [lib_proofs::transaction::circuit::real::hash_pair_u8], a
    Poseidon hash of an external proof library: a parameter of everything here,
    about which nothing is assumed.

    The theorem: the path update keeps every node equal to the hash of its two
    children, so that the stored root is the root recomputed from all leaves. *)
From stdpp Require Import base tactics numbers list option gmap fin_maps.
From S2P Require Import Prelude.

(** [lib_proofs::transaction::circuit::MERKLE_DEPTH]. *)
Definition MERKLE_DEPTH : nat := 32.

(** Stored nodes, by level (leaves are level 0) and index. *)
Notation NodeMap := (gmap (nat * Z) Z) (only parsing).

Section Merkle.
Context (hash_pair : Z → Z → Z).

(** [merkle_zero_hashes()[level]]. *)
Fixpoint merkle_zero_hash (level : nat) : Z :=
  match level with
  | O => 0
  | S level => hash_pair (merkle_zero_hash level) (merkle_zero_hash level)
  end.

(** The in-block cache first, then the committed tree, then the zero subtree. *)
Definition get_merkle_node (cache tree : NodeMap) (level : nat) (index : Z) : Z :=
  match cache !! (level, index) with
  | Some h => h
  | None => default (merkle_zero_hash level) (tree !! (level, index))
  end.

(** The loop [for level in 0..MERKLE_DEPTH] of [update_merkle_path]. *)
Fixpoint merkle_path_loop (steps level : nat) (hash index : Z) (cache tree : NodeMap)
    : Z * NodeMap :=
  match steps with
  | O => (hash, cache)
  | S steps =>
      let cache := <[(level, index) := hash]> cache in
      let sibling_index := Z.lxor index 1 in
      let sibling_hash := get_merkle_node cache tree level sibling_index in
      let hash := if index mod 2 =? 0 then hash_pair hash sibling_hash
                  else hash_pair sibling_hash hash in
      merkle_path_loop steps (S level) hash (index / 2) cache tree
  end.

(** The cache after the update, and the root. *)
Definition update_merkle_path (leaf_index leaf_hash : Z) (cache tree : NodeMap)
    : NodeMap * Z :=
  let '(root, cache) := merkle_path_loop MERKLE_DEPTH 0 leaf_hash leaf_index cache tree in
  (<[(MERKLE_DEPTH, 0) := root]> cache, root).

(** ** Reference: the hash of a subtree, recomputed from the leaves *)

Fixpoint node_ref (level : nat) (leaves : Z → Z) (index : Z) : Z :=
  match level with
  | O => leaves index
  | S level => hash_pair (node_ref level leaves (2 * index))
                         (node_ref level leaves (2 * index + 1))
  end.

Definition set_leaf (leaves : Z → Z) (i h : Z) : Z → Z :=
  λ j, if j =? i then h else leaves j.

(** Every node of the tree of depth [MERKLE_DEPTH] is the reference one. *)
Definition merkle_consistent (cache tree : NodeMap) (leaves : Z → Z) : Prop :=
  ∀ level i, (level <= MERKLE_DEPTH)%nat →
    0 <= i < 2 ^ Z.of_nat (MERKLE_DEPTH - level) →
    get_merkle_node cache tree level i = node_ref level leaves i.

Lemma node_ref_zero level i : node_ref level (λ _, 0) i = merkle_zero_hash level.
Proof. revert i; induction level as [|l IH]; intros i; simpl; [done|]. by rewrite !IH. Qed.

Lemma node_ref_unchanged level leaves i h j :
  j ≠ i / 2 ^ Z.of_nat level → node_ref level (set_leaf leaves i h) j = node_ref level leaves j.
Proof.
  revert j; induction level as [|l IH]; intros j Hj.
  - simpl in *. unfold set_leaf. rewrite Z.div_1_r in Hj. by destruct (Z.eqb_spec j i).
  - rewrite Nat2Z.inj_succ, Z.pow_succ_r, Z.mul_comm, <- Z.div_div in Hj by lia. simpl.
    rewrite !IH; [done| |]; intros Heq; apply Hj; rewrite <- Heq;
      Z.to_euclidean_division_equations; lia.
Qed.

Lemma lxor_even_1 a : Z.lxor (2 * a) 1 = 2 * a + 1.
Proof.
  symmetry. apply Z.add_nocarry_lxor. apply Z.bits_inj'. intros n Hn.
  rewrite Z.land_spec, Z.bits_0. destruct (decide (n = 0)) as [->|].
  - by rewrite Z.testbit_even_0.
  - rewrite (Z.bits_above_log2 1 n) by (simpl; lia). apply andb_false_r.
Qed.

(** The sibling of a node is the other child of its parent. *)
Lemma sibling_eq i : Z.lxor i 1 = if i mod 2 =? 0 then 2 * (i / 2) + 1 else 2 * (i / 2).
Proof.
  pose proof (Z.div_mod i 2 ltac:(lia)) as Hi. pose proof (Z.mod_pos_bound i 2 ltac:(lia)).
  destruct (Z.eqb_spec (i mod 2) 0) as [He|Ho].
  - rewrite Hi at 1. rewrite He, Z.add_0_r. apply lxor_even_1.
  - assert (i = 2 * (i / 2) + 1) as Hodd by lia. rewrite Hodd at 1.
    by rewrite <- lxor_even_1, Z.lxor_assoc, Z.lxor_nilpotent, Z.lxor_0_r.
Qed.

(** Before level [l] of the walk for leaf [i]: the levels below are updated, the
    others still describe the old leaves, and [hash] is the updated node. *)
Definition path_inv (D : nat) (cache tree : NodeMap) (leaves : Z → Z) (i h : Z) (l : nat) (hash : Z)
    : Prop :=
  hash = node_ref l (set_leaf leaves i h) (i / 2 ^ Z.of_nat l) ∧
  ∀ level j, (level <= D)%nat → 0 <= j < 2 ^ Z.of_nat (D - level) →
    get_merkle_node cache tree level j =
    node_ref level (if (level <? l)%nat then set_leaf leaves i h else leaves) j.

Lemma get_merkle_node_insert cache tree level i h level' i' :
  get_merkle_node (<[(level, i) := h]> cache) tree level' i' =
  if decide ((level', i') = (level, i)) then h else get_merkle_node cache tree level' i'.
Proof.
  unfold get_merkle_node. case_decide as Heq.
  - rewrite Heq. by rewrite lookup_insert_eq.
  - by rewrite lookup_insert_ne.
Qed.

Lemma path_index_range D i l :
  (l <= D)%nat → 0 <= i < 2 ^ Z.of_nat D →
  0 <= i / 2 ^ Z.of_nat l < 2 ^ Z.of_nat (D - l).
Proof.
  intros Hl Hi. pose proof (Z.pow_pos_nonneg 2 (Z.of_nat l) ltac:(lia) ltac:(lia)).
  split; [apply Z.div_pos; lia|]. apply Z.div_lt_upper_bound; [lia|].
  rewrite <- Z.pow_add_r by lia.
  replace (Z.of_nat l + Z.of_nat (D - l)) with (Z.of_nat D) by lia. lia.
Qed.

(** Writing the updated node makes level [l] describe the new leaves. *)
Lemma path_inv_write D cache tree leaves i h l hash level j :
  path_inv D cache tree leaves i h l hash →
  (level <= D)%nat → 0 <= j < 2 ^ Z.of_nat (D - level) →
  get_merkle_node (<[(l, i / 2 ^ Z.of_nat l) := hash]> cache) tree level j =
  node_ref level (if (level <? S l)%nat then set_leaf leaves i h else leaves) j.
Proof.
  intros [Hhash Hinv] Hlevel Hj. rewrite get_merkle_node_insert. case_decide as Heq.
  - simplify_eq. by replace (l <? S l)%nat with true by (symmetry; apply Nat.ltb_lt; lia).
  - rewrite Hinv by done. destruct (Nat.ltb_spec level l), (Nat.ltb_spec level (S l)); try lia.
    assert (level = l) as -> by lia. rewrite node_ref_unchanged; [done|congruence].
Qed.

Lemma path_inv_step D cache tree leaves i h l hash :
  (l < D)%nat → 0 <= i < 2 ^ Z.of_nat D →
  path_inv D cache tree leaves i h l hash →
  let index := i / 2 ^ Z.of_nat l in
  let cache' := <[(l, index) := hash]> cache in
  let sib := get_merkle_node cache' tree l (Z.lxor index 1) in
  path_inv D cache' tree leaves i h (S l)
    (if index mod 2 =? 0 then hash_pair hash sib else hash_pair sib hash) ∧
  index / 2 = i / 2 ^ Z.of_nat (S l).
Proof.
  intros Hl Hi Hinv index cache' sib.
  assert (index / 2 = i / 2 ^ Z.of_nat (S l)) as Hidx.
  { unfold index. rewrite Z.div_div, Nat2Z.inj_succ, Z.pow_succ_r by lia.
    by rewrite Z.mul_comm. }
  split; [|done]. split; [|by intros; apply (path_inv_write D)].
  pose proof (path_index_range D i l ltac:(lia) Hi) as Hr. fold index in Hr.
  pose proof (path_index_range D i (S l) ltac:(lia) Hi) as Hr'. rewrite <- Hidx in Hr'.
  assert (2 ^ Z.of_nat (D - l) = 2 * 2 ^ Z.of_nat (D - S l)) as Hpow.
  { rewrite <- Z.pow_succ_r by lia. f_equal. lia. }
  assert (0 <= Z.lxor index 1 < 2 ^ Z.of_nat (D - l)) as Hsib.
  { rewrite sibling_eq. case_match; lia. }
  unfold sib, cache'. rewrite (path_inv_write D cache tree leaves i h l hash) by (done || lia).
  replace (l <? S l)%nat with true by (symmetry; apply Nat.ltb_lt; lia).
  destruct Hinv as [-> _]. fold index. rewrite sibling_eq, <- Hidx. simpl.
  pose proof (Z.div_mod index 2 ltac:(lia)). pose proof (Z.mod_pos_bound index 2 ltac:(lia)).
  destruct (Z.eqb_spec (index mod 2) 0).
  - by replace index with (2 * (index / 2)) at 1 by lia.
  - by replace index with (2 * (index / 2) + 1) at 2 by lia.
Qed.

Lemma merkle_path_loop_inv D steps cache tree leaves i h l hash :
  (l + steps = D)%nat → 0 <= i < 2 ^ Z.of_nat D →
  path_inv D cache tree leaves i h l hash →
  let '(root, cache') := merkle_path_loop steps l hash (i / 2 ^ Z.of_nat l) cache tree in
  path_inv D cache' tree leaves i h D root.
Proof.
  revert l hash cache. induction steps as [|steps IH]; intros l hash cache Hl Hi Hinv.
  - simpl. by assert (l = D) as -> by lia.
  - destruct (path_inv_step D cache tree leaves i h l hash) as [Hstep Hidx]; [lia|done..|].
    cbn [merkle_path_loop]. rewrite Hidx. apply IH; [lia|done|]. exact Hstep.
Qed.

(** C40: changing one leaf and updating its path leaves every stored node of the
    tree equal to the hash of the subtree below it, recomputed from all leaves;
    in particular the root returned and stored is the true root. *)
Theorem update_merkle_path_correct cache tree leaves i h :
  merkle_consistent cache tree leaves → 0 <= i < 2 ^ Z.of_nat MERKLE_DEPTH →
  let '(cache', root) := update_merkle_path i h cache tree in
  merkle_consistent cache' tree (set_leaf leaves i h) ∧
  root = node_ref MERKLE_DEPTH (set_leaf leaves i h) 0 ∧
  get_merkle_node cache' tree MERKLE_DEPTH 0 = root.
Proof.
  unfold update_merkle_path, merkle_consistent. generalize MERKLE_DEPTH as D.
  intros D Hc Hi. assert (path_inv D cache tree leaves i h 0 h) as H0.
  { split; [|exact Hc]. simpl. unfold set_leaf. by rewrite Z.div_1_r, Z.eqb_refl. }
  pose proof (merkle_path_loop_inv D D cache tree leaves i h 0 h eq_refl Hi H0) as Hl.
  rewrite Z.div_1_r in Hl. destruct (merkle_path_loop _ _ _ _ _ _) as [root cache'].
  pose proof (path_index_range D i D (le_n _) Hi) as Hz.
  rewrite Nat.sub_diag in Hz. assert (i / 2 ^ Z.of_nat D = 0) as Hi0 by lia.
  split_and!.
  - intros level j Hlevel Hj.
    pose proof (path_inv_write D cache' tree leaves i h D root level j Hl Hlevel Hj) as Hw.
    rewrite Hi0 in Hw. rewrite Hw.
    by replace (level <? S D)%nat with true by (symmetry; apply Nat.ltb_lt; lia).
  - destruct Hl as [-> _]. by rewrite Hi0.
  - rewrite get_merkle_node_insert. by rewrite decide_True.
Qed.

(** The empty tree describes the all-zero leaves. *)
Lemma merkle_consistent_empty : merkle_consistent ∅ ∅ (λ _, 0).
Proof.
  intros level i _ _. unfold get_merkle_node. rewrite !lookup_empty. simpl.
  by rewrite node_ref_zero.
Qed.

End Merkle.

Lemma update_merkle_path_correct_witness :
  let H := λ a b, 3 * a + 5 * b + 7 in
  let '(cache', root) := update_merkle_path H 5 11 ∅ ∅ in
  root = node_ref H MERKLE_DEPTH (set_leaf (λ _, 0) 5 11) 0.
Proof.
  intros H.
  pose proof (update_merkle_path_correct H ∅ ∅ (λ _, 0) 5 11
    (merkle_consistent_empty H)) as Hc.
  destruct (update_merkle_path H 5 11 ∅ ∅) as [cache' root].
  destruct Hc as (_ & Hroot & _); [split; [lia|reflexivity]|]. exact Hroot.
Defined.
