(* ===== verification/TokenCore.v ===== *)
(** * Token contracts of the chain (lib-blockchain contracts/tokens)

    [TokenContract] of [lib-blockchain/src/contracts/tokens/core.rs], the
    contract objects the block store keeps, with the [ExecutionContext] of
    [contracts/executor/mod.rs] their transfers are authorised by.  A method on
    [&mut self] is a program on the contract's state: an error returns the
    state written so far.  Keys are ordered and compared by all their fields, so
    a [BTreeMap] over them is a finite map.  Unchecked additions wrap, as in a
    release build.

    The theorems: on a token that does not burn, every sequence of calls keeps
    the balances summing to the supply and the supply under its maximum; in
    kernel-only mode nobody but the kernel moves anything; on a burning token
    the supply falls while nobody pays, so that holders end up with more than
    the maximum supply; and locked tokens can be transferred. *)
From stdpp Require Import base tactics numbers list option gmap fin_maps strings relations.
From S2P Require Import Prelude.

(** ** Keys and execution contexts *)

(** Byte arrays are numbers. *)
Record PublicKey : Type := { dilithium_pk : Z; kyber_pk : Z; key_id : Z }.

#[export] Instance PublicKey_eq_dec : EqDecision PublicKey.
Proof. solve_decision. Defined.

#[export] Program Instance PublicKey_countable : Countable PublicKey :=
  inj_countable' (λ k, (dilithium_pk k, kyber_pk k, key_id k))
    (λ '(d, y, i), {| dilithium_pk := d; kyber_pk := y; key_id := i |}) _.
Next Obligation. by intros []. Qed.

Definition zero_key : PublicKey := {| dilithium_pk := 0; kyber_pk := 0; key_id := 0 |}.

(** Identifiers that are hashes, and the address fees go to. *)
Class ChainParams : Type := {
  sov_token_id : Z;                               (* generate_lib_token_id *)
  cbe_token_id : Z;                               (* derive_cbe_token_id_pub *)
  fee_sink_address : Z;
  generate_custom_token_id : string → string → Z;
  key_id_of : Z → Z;                              (* blake3 of a Dilithium key *)
}.

Definition PublicKey_new `{ChainParams} (dilithium : Z) : PublicKey :=
  {| dilithium_pk := dilithium; kyber_pk := 0; key_id := key_id_of dilithium |}.

Inductive CallOrigin : Type := User | Contract | System.

Record ExecutionContext : Type := {
  caller : PublicKey; contract : PublicKey; call_origin : CallOrigin;
  block_number : Z; timestamp : Z; gas_limit : Z; gas_used : Z; ctx_tx_hash : Z;
  call_depth : Z; max_call_depth : Z;
}.

Definition DEFAULT_MAX_CALL_DEPTH : Z := 10.

Definition ExecutionContext_new (c : PublicKey) (block time gas hash : Z) : ExecutionContext :=
  {| caller := c; contract := zero_key; call_origin := User; block_number := block;
     timestamp := time; gas_limit := gas; gas_used := 0; ctx_tx_hash := hash;
     call_depth := 0; max_call_depth := DEFAULT_MAX_CALL_DEPTH |}.

Definition with_contract (c k : PublicKey) (block time gas hash : Z) : ExecutionContext :=
  {| caller := c; contract := k; call_origin := Contract; block_number := block;
     timestamp := time; gas_limit := gas; gas_used := 0; ctx_tx_hash := hash;
     call_depth := 0; max_call_depth := DEFAULT_MAX_CALL_DEPTH |}.

(** ** The contract *)

Inductive Error : Type :=
| Unauthorized
| InsufficientBalance
| InsufficientAllowance
| ExceedsMaxSupply
| InsufficientBurn.

Record TokenContract : Type := {
  token_id : Z; name : string; symbol : string;
  decimals : Z;                                   (* u8 *)
  total_supply : Z; max_supply : Z;               (* u128 *)
  is_deflationary : bool; burn_rate : Z;          (* u128 *)
  balances : gmap PublicKey Z;
  allowances : gmap PublicKey (gmap PublicKey Z);
  creator : PublicKey;
  kernel_mint_authority : option PublicKey;
  locked_balances : gmap PublicKey Z;
  kernel_only_mode : bool;
  creator_did : option string;
  fee_schedule_bps : option Z;                    (* u16 *)
}.

Definition TokenContract_new (id : Z) (n s : string) (d max : Z) (defl : bool) (burn : Z)
    (c : PublicKey) : TokenContract :=
  {| token_id := id; name := n; symbol := s; decimals := d; total_supply := 0;
     max_supply := max; is_deflationary := defl; burn_rate := burn; balances := ∅;
     allowances := ∅; creator := c; kernel_mint_authority := None; locked_balances := ∅;
     kernel_only_mode := false; creator_did := None; fee_schedule_bps := None |}.

(** The writes of the methods below. *)
Definition with_balances (f : gmap PublicKey Z → gmap PublicKey Z) (t : TokenContract)
    : TokenContract :=
  {| token_id := token_id t; name := name t; symbol := symbol t; decimals := decimals t;
     total_supply := total_supply t; max_supply := max_supply t;
     is_deflationary := is_deflationary t; burn_rate := burn_rate t;
     balances := f (balances t); allowances := allowances t; creator := creator t;
     kernel_mint_authority := kernel_mint_authority t; locked_balances := locked_balances t;
     kernel_only_mode := kernel_only_mode t; creator_did := creator_did t;
     fee_schedule_bps := fee_schedule_bps t |}.

Definition with_supply (n : Z) (t : TokenContract) : TokenContract :=
  {| token_id := token_id t; name := name t; symbol := symbol t; decimals := decimals t;
     total_supply := n; max_supply := max_supply t;
     is_deflationary := is_deflationary t; burn_rate := burn_rate t;
     balances := balances t; allowances := allowances t; creator := creator t;
     kernel_mint_authority := kernel_mint_authority t; locked_balances := locked_balances t;
     kernel_only_mode := kernel_only_mode t; creator_did := creator_did t;
     fee_schedule_bps := fee_schedule_bps t |}.

Definition with_allowances (a : gmap PublicKey (gmap PublicKey Z)) (t : TokenContract)
    : TokenContract :=
  {| token_id := token_id t; name := name t; symbol := symbol t; decimals := decimals t;
     total_supply := total_supply t; max_supply := max_supply t;
     is_deflationary := is_deflationary t; burn_rate := burn_rate t;
     balances := balances t; allowances := a; creator := creator t;
     kernel_mint_authority := kernel_mint_authority t; locked_balances := locked_balances t;
     kernel_only_mode := kernel_only_mode t; creator_did := creator_did t;
     fee_schedule_bps := fee_schedule_bps t |}.

Definition with_locked (l : gmap PublicKey Z) (t : TokenContract) : TokenContract :=
  {| token_id := token_id t; name := name t; symbol := symbol t; decimals := decimals t;
     total_supply := total_supply t; max_supply := max_supply t;
     is_deflationary := is_deflationary t; burn_rate := burn_rate t;
     balances := balances t; allowances := allowances t; creator := creator t;
     kernel_mint_authority := kernel_mint_authority t; locked_balances := l;
     kernel_only_mode := kernel_only_mode t; creator_did := creator_did t;
     fee_schedule_bps := fee_schedule_bps t |}.

(** Decimals, supply cap, mint authority and mode, set by the constructors. *)
Definition with_issue (d max : Z) (kernel : option PublicKey) (only : bool) (t : TokenContract)
    : TokenContract :=
  {| token_id := token_id t; name := name t; symbol := symbol t; decimals := d;
     total_supply := total_supply t; max_supply := max;
     is_deflationary := is_deflationary t; burn_rate := burn_rate t;
     balances := balances t; allowances := allowances t; creator := creator t;
     kernel_mint_authority := kernel; locked_balances := locked_balances t;
     kernel_only_mode := only; creator_did := creator_did t;
     fee_schedule_bps := fee_schedule_bps t |}.

(** ** Operations *)

Notation CM := (M TokenContract Error) (only parsing).
Notation CS := (M TokenContract string) (only parsing).

Definition balance_of (k : PublicKey) (t : TokenContract) : Z := default 0 (balances t !! k).

Definition allowance (o spender : PublicKey) (t : TokenContract) : Z :=
  default 0 (allowances t !! o ≫= (!!) spender).

Definition locked_of (k : PublicKey) (t : TokenContract) : Z :=
  default 0 (locked_balances t !! k).

Definition set_balance (k : PublicKey) (amount : Z) (t : TokenContract) : TokenContract :=
  with_balances <[k := amount]> t.

Definition remove_balance (k : PublicKey) (t : TokenContract) : TokenContract * option Z :=
  (with_balances (delete k) t, balances t !! k).

(** The account a call acts for. *)
Definition source_of (ctx : ExecutionContext) : result PublicKey Error :=
  match call_origin ctx with
  | User => Ok (caller ctx)
  | Contract => Ok (contract ctx)
  | System => Err Unauthorized
  end.

Definition transfer (ctx : ExecutionContext) (to : PublicKey) (amount : Z) : CM Z :=
  t <- gets (λ t, t) ;;
  (if kernel_only_mode t then
     key <- lift (source_of ctx) ;;
     guard (bool_decide (kernel_mint_authority t = Some key)) Unauthorized
   else ret tt) ;;;
  source <- lift (source_of ctx) ;;
  let source_balance := balance_of source t in
  guard (amount <=? source_balance) InsufficientBalance ;;;
  let burn_amount := if is_deflationary t then Z.min (burn_rate t) amount else 0 in
  modify (set_balance source (wsub 128 source_balance amount)) ;;;
  to_balance <- gets (balance_of to) ;;
  modify (set_balance to (wadd 128 to_balance amount)) ;;;
  (if 0 <? burn_amount
   then modify (λ t, with_supply (saturating_sub (total_supply t) burn_amount) t)
   else ret tt) ;;;
  ret burn_amount.

Definition set_allowance (o spender : PublicKey) (amount : Z) (t : TokenContract)
    : TokenContract :=
  with_allowances (<[o := <[spender := amount]> (default ∅ (allowances t !! o))]> (allowances t)) t.

Definition transfer_from (ctx : ExecutionContext) (o to : PublicKey) (amount : Z) : CM Z :=
  spender <- lift (source_of ctx) ;;
  allowed <- gets (allowance o spender) ;;
  guard (amount <=? allowed) InsufficientAllowance ;;;
  modify (set_allowance o spender (wsub 128 allowed amount)) ;;;
  transfer (with_contract (caller ctx) o (block_number ctx) (timestamp ctx) (gas_limit ctx)
              (ctx_tx_hash ctx)) to amount.

Definition approve (o spender : PublicKey) (amount : Z) : TokenContract → TokenContract :=
  set_allowance o spender amount.

(** The common end of [mint] and [mint_kernel_only]. *)
Definition issue (to : PublicKey) (amount : Z) : CS unit :=
  t <- gets (λ t, t) ;;
  guard (wadd 128 (total_supply t) amount <=? max_supply t) "Would exceed maximum supply" ;;;
  modify (set_balance to (wadd 128 (balance_of to t) amount)) ;;;
  modify (λ t, with_supply (wadd 128 (total_supply t) amount) t).

Definition mint (to : PublicKey) (amount : Z) : CS unit :=
  only <- gets kernel_only_mode ;;
  guard (negb only) "Direct minting disabled: use Treasury Kernel" ;;;
  issue to amount.

Definition mint_kernel_only (k to : PublicKey) (amount : Z) : CS unit :=
  authority <- gets kernel_mint_authority ;;
  match authority with
  | Some a => guard (bool_decide (k = a)) "Only Treasury Kernel can mint"
  | None => throw "Minting disabled"
  end ;;;
  issue to amount.

Definition burn (from : PublicKey) (amount : Z) : CS unit :=
  t <- gets (λ t, t) ;;
  guard (negb (kernel_only_mode t)) "Direct burning disabled: use Treasury Kernel" ;;;
  guard (amount <=? balance_of from t) "Insufficient balance to burn" ;;;
  modify (set_balance from (wsub 128 (balance_of from t) amount)) ;;;
  modify (λ t, with_supply (saturating_sub (total_supply t) amount) t).

Definition check_mint_authorization (signer : PublicKey) (t : TokenContract)
    : result unit string :=
  if key_id (creator t) =? key_id signer then Ok tt
  else match kernel_mint_authority t with
       | Some a => if key_id a =? key_id signer then Ok tt
                   else Err "TokenMint unauthorized: signer is not token creator"
       | None => Err "TokenMint unauthorized: signer is not token creator"
       end.

Definition available_balance (k : PublicKey) (t : TokenContract) : Z :=
  saturating_sub (balance_of k t) (locked_of k t).

Definition credit_balance (to : PublicKey) (amount : Z) : CS unit :=
  balance <- gets (balance_of to) ;;
  new_balance <- lift (ok_or (checked_add 128 balance amount) "Balance overflow") ;;
  modify (set_balance to new_balance).

Definition debit_balance (from : PublicKey) (amount : Z) : CS unit :=
  t <- gets (λ t, t) ;;
  guard (amount <=? available_balance from t) "Insufficient available balance" ;;;
  modify (set_balance from (wsub 128 (balance_of from t) amount)).

Definition lock_balance (k : PublicKey) (amount : Z) : CS unit :=
  t <- gets (λ t, t) ;;
  guard (amount <=? available_balance k t) "Insufficient available balance to lock" ;;;
  new_locked <- lift (ok_or (checked_add 128 (locked_of k t) amount) "Locked balance overflow") ;;
  modify (with_locked (<[k := new_locked]> (locked_balances t))).

Definition release_balance (k : PublicKey) (amount : Z) : CS unit :=
  t <- gets (λ t, t) ;;
  let locked := locked_of k t in
  guard (amount <=? locked) "Insufficient locked balance to release" ;;;
  let new_locked := wsub 128 locked amount in
  modify (with_locked (if new_locked =? 0 then delete k (locked_balances t)
                       else <[k := new_locked]> (locked_balances t))).

Definition enable_kernel_only_mode (t : TokenContract) : TokenContract :=
  with_issue (decimals t) (max_supply t) (kernel_mint_authority t) true t.

Definition can_mint (amount : Z) (t : TokenContract) : bool :=
  match checked_add 128 (total_supply t) amount with
  | Some sum => sum <=? max_supply t
  | None => false
  end.

Definition remaining_supply (t : TokenContract) : Z :=
  saturating_sub (max_supply t) (total_supply t).

(** The tokens the holders have together; [total_balance_sum] adds them in a u128. *)
Definition circulating (t : TokenContract) : Z := msum (λ _ v, v) (balances t).

Definition total_balance_sum (t : TokenContract) : Z := as_u 128 (circulating t).

Definition holder_count (t : TokenContract) : nat :=
  size (filter (λ p : PublicKey * Z, 0 < p.2) (balances t)).

Definition validate (t : TokenContract) : result unit string :=
  if String.eqb (name t) "" then Err "Token name cannot be empty"
  else if String.eqb (symbol t) "" then Err "Token symbol cannot be empty"
  else if (10 <? String.length (symbol t))%nat
  then Err "Token symbol too long (max 10 characters)"
  else if 18 <? decimals t then Err "Too many decimal places (max 18)"
  else if max_supply t =? 0 then Err "Maximum supply must be greater than 0"
  else if max_supply t <? total_supply t
  then Err "Total supply cannot exceed maximum supply"
  else if is_deflationary t && (burn_rate t =? 0)
  then Err "Deflationary token must have burn rate > 0"
  else Ok tt.

(** ** Constructors *)

Definition SOV_TOKEN_DECIMALS : Z := 18.
Definition SOV_TOKEN_MAX_SUPPLY : Z := 1000000000000 * 10 ^ 18.
Definition SOV_FEE_RATE_BPS : Z := 100.

Section Constructors.
Context `{ChainParams}.

Definition new_sov_native : TokenContract :=
  TokenContract_new sov_token_id "Sovereign" "SOV" SOV_TOKEN_DECIMALS SOV_TOKEN_MAX_SUPPLY
    false 0 (PublicKey_new 0).

Definition new_sov_with_kernel_authority (k : PublicKey) : TokenContract :=
  with_issue SOV_TOKEN_DECIMALS SOV_TOKEN_MAX_SUPPLY (Some k) false
    (TokenContract_new sov_token_id "SOV Token" "SOV" SOV_TOKEN_DECIMALS SOV_TOKEN_MAX_SUPPLY
       false 0 (PublicKey_new 0)).

Definition new_welfare_token (n s : string) (k : PublicKey) : TokenContract :=
  with_issue 18 (umax 128) (Some k) true
    (TokenContract_new (generate_custom_token_id n s) n s 18 (umax 128) false 0
       (PublicKey_new 0)).

Definition new_custom (n s : string) (initial_supply : Z) (c : PublicKey) : TokenContract :=
  let t := TokenContract_new (generate_custom_token_id n s) n s 8 (umax 64) false 0 c in
  if 0 <? initial_supply then (mint c initial_supply t).1 else t.

Definition create_deflationary_token (n s : string) (d max rate initial_supply : Z)
    (c : PublicKey) : TokenContract :=
  let t := TokenContract_new (generate_custom_token_id n s) n s d max true rate c in
  if 0 <? initial_supply then (mint c initial_supply t).1 else t.

End Constructors.

(** ** Balances *)

Lemma balance_of_set k k' v t :
  balance_of k' (set_balance k v t) = if decide (k' = k) then v else balance_of k' t.
Proof.
  unfold balance_of, set_balance; simpl. destruct (decide (k' = k)) as [->|Hne].
  - by rewrite lookup_insert_eq.
  - by rewrite lookup_insert_ne.
Qed.

Lemma circulating_set k v t :
  circulating (set_balance k v t) = circulating t + v - balance_of k t.
Proof.
  unfold circulating, set_balance, balance_of; simpl. rewrite msum_insert.
  by destruct (balances t !! k).
Qed.

Definition nonneg_balances (t : TokenContract) : Prop :=
  ∀ k v, balances t !! k = Some v → 0 <= v.

Lemma nonneg_set k v t :
  nonneg_balances t → 0 <= v → nonneg_balances (set_balance k v t).
Proof. intros Ht Hv k' v'. simpl. rewrite lookup_insert_Some. naive_solver. Qed.

Lemma balance_of_range k t :
  nonneg_balances t → 0 <= balance_of k t <= circulating t.
Proof.
  intros Ht. unfold balance_of. destruct (balances t !! k) as [v|] eqn:Hk; simpl.
  - split; [by eapply Ht|]. by apply (msum_lookup_le (λ _ v, v) _ k v).
  - split; [done|]. by apply msum_nonneg.
Qed.

(** The state a transfer of [amount] leaves, before the burn. *)
Definition moved (from to : PublicKey) (amount : Z) (t : TokenContract) : TokenContract :=
  let t1 := set_balance from (balance_of from t - amount) t in
  set_balance to (balance_of to t1 + amount) t1.

Lemma moved_spec from to amount t :
  circulating (moved from to amount t) = circulating t ∧
  (∀ k, balance_of k (moved from to amount t) = balance_of k t -
     (if decide (k = from) then amount else 0) + (if decide (k = to) then amount else 0)) ∧
  (nonneg_balances t → 0 <= amount <= balance_of from t →
   nonneg_balances (moved from to amount t)).
Proof.
  unfold moved. split_and!.
  - rewrite !circulating_set. lia.
  - intros k. rewrite !balance_of_set. repeat case_decide; subst; done || lia.
  - intros Ht Ha. apply nonneg_set; [apply nonneg_set; [done|lia]|].
    rewrite balance_of_set. case_decide; [lia|]. pose proof (balance_of_range to t Ht). lia.
Qed.

(** What a transfer burns. *)
Definition burnt (amount : Z) (t : TokenContract) : Z :=
  if is_deflationary t then Z.min (burn_rate t) amount else 0.

(** A transfer either fails and changes nothing, or moves the amount from the
    account the call acts for and lowers the supply by what it burns. *)
Lemma transfer_cases ctx to amount t t' r :
  transfer ctx to amount t = (t', r) →
  nonneg_balances t → circulating t <= umax 128 → 0 <= amount →
  (t' = t ∧ ∃ e, r = Err e) ∨
  ∃ from, source_of ctx = Ok from ∧ amount <= balance_of from t ∧
    (kernel_only_mode t = true → kernel_mint_authority t = Some from) ∧
    r = Ok (burnt amount t) ∧
    t' = (if 0 <? burnt amount t
          then with_supply (saturating_sub (total_supply t) (burnt amount t))
          else id) (moved from to amount t).
Proof.
  intros Hr Ht Hc Ha. unfold transfer in Hr.
  destruct (source_of ctx) as [from|e] eqn:Hs; cycle 1.
  { left. unfold bind, lift, gets, ret, guard in Hr. destruct (kernel_only_mode t); naive_solver. }
  destruct (kernel_only_mode t && negb (bool_decide (kernel_mint_authority t = Some from)))
    eqn:Hk.
  { left. apply andb_true_iff in Hk as [Hk Hn]. apply negb_true_iff in Hn.
    unfold bind, lift, gets, ret, guard in Hr. rewrite Hk, Hn in Hr. naive_solver. }
  destruct (Z.leb_spec amount (balance_of from t)) as [Hle|Hgt]; cycle 1.
  { left. unfold bind, lift, gets, ret, guard in Hr. rewrite (proj2 (Z.leb_gt _ _) Hgt) in Hr.
    destruct (kernel_only_mode t), (bool_decide (kernel_mint_authority t = Some from));
      naive_solver. }
  right. exists from. pose proof (balance_of_range from t Ht).
  pose proof (balance_of_range to (set_balance from (balance_of from t - amount) t)) as Hto.
  rewrite circulating_set in Hto. specialize (Hto ltac:(apply nonneg_set; [done|lia])).
  assert (kernel_only_mode t = true → kernel_mint_authority t = Some from) as Hkey.
  { intros Hm. rewrite Hm in Hk. simpl in Hk. by apply negb_false_iff, bool_decide_eq_true in Hk. }
  erewrite bind_step in Hr by done.
  rewrite (bind_step _ _ t t tt) in Hr; cycle 1.
  { destruct (kernel_only_mode t); [|done]. erewrite bind_step by done. unfold guard.
    by rewrite bool_decide_eq_true_2 by by apply Hkey. }
  erewrite bind_step in Hr by done.
  rewrite (bind_step _ _ t t tt) in Hr by (unfold guard; by rewrite (proj2 (Z.leb_le _ _) Hle)).
  rewrite wsub_small in Hr by (unfold umax in *; lia).
  do 2 erewrite bind_step in Hr by done.
  rewrite wadd_small in Hr by (unfold umax in *; lia).
  change (if is_deflationary t then _ else _) with (burnt amount t) in Hr.
  revert Hr. unfold bind, ret, modify, moved.
  destruct (0 <? burnt amount t); intros [= <- <-]; done.
Qed.

Lemma issue_cases to amount t t' r :
  issue to amount t = (t', r) →
  nonneg_balances t → circulating t = total_supply t → total_supply t <= max_supply t →
  0 <= amount → total_supply t + amount <= umax 128 →
  (t' = t ∧ ∃ e, r = Err e ∧ max_supply t < total_supply t + amount) ∨
  (r = Ok tt ∧ total_supply t + amount <= max_supply t ∧
   t' = with_supply (total_supply t + amount) (set_balance to (balance_of to t + amount) t)).
Proof.
  intros Hr Ht Hc Hm Ha Hau. pose proof (balance_of_range to t Ht).
  revert Hr. unfold issue, bind, gets, guard, modify, throw, ret.
  rewrite !wadd_small by lia.
  destruct (Z.leb_spec (total_supply t + amount) (max_supply t)); intros [= <- <-].
  - right. cbn [total_supply set_balance with_balances]. by rewrite wadd_small by lia.
  - left. split; [done|]. by eexists.
Qed.

Lemma mint_run to amount t :
  kernel_only_mode t = false → 0 <= amount → total_supply t + amount <= max_supply t →
  max_supply t <= umax 128 → 0 <= total_supply t →
  0 <= balance_of to t → balance_of to t + amount <= umax 128 →
  mint to amount t =
  (with_supply (total_supply t + amount) (set_balance to (balance_of to t + amount) t), Ok tt).
Proof.
  intros Hk Ha Hle Hmax Hs Hb Hu. unfold mint. erewrite bind_step by done. rewrite Hk.
  erewrite bind_step by done. unfold issue. erewrite bind_step by done.
  rewrite !wadd_small by lia. unfold bind, guard, modify, ret.
  rewrite (proj2 (Z.leb_le _ _) Hle). cbn [total_supply set_balance with_balances].
  by rewrite wadd_small by lia.
Qed.

(** ** Well-formed tokens *)

Record wf_token (t : TokenContract) : Prop := {
  wf_nonneg : nonneg_balances t;
  wf_sum : circulating t = total_supply t;
  wf_cap : total_supply t <= max_supply t;
  wf_max : max_supply t <= umax 128;
}.

(** Calls of the public methods, whatever they return.  A call that mints is not
    one whose addition overflows. *)
Inductive token_call : TokenContract → TokenContract → Prop :=
| call_transfer ctx to a t : 0 <= a → token_call t (transfer ctx to a t).1
| call_transfer_from ctx o to a t : 0 <= a → token_call t (transfer_from ctx o to a t).1
| call_approve o spender a t : token_call t (approve o spender a t)
| call_mint to a t :
    0 <= a → total_supply t + a <= umax 128 → token_call t (mint to a t).1
| call_mint_kernel k to a t :
    0 <= a → total_supply t + a <= umax 128 → token_call t (mint_kernel_only k to a t).1
| call_burn from a t : 0 <= a → token_call t (burn from a t).1
| call_lock k a t : token_call t (lock_balance k a t).1
| call_release k a t : token_call t (release_balance k a t).1
| call_kernel_only t : token_call t (enable_kernel_only_mode t).

(** The fields the invariant reads. *)
Definition same_books (t t' : TokenContract) : Prop :=
  balances t' = balances t ∧ total_supply t' = total_supply t ∧
  max_supply t' = max_supply t ∧ is_deflationary t' = is_deflationary t.

Definition plain (t : TokenContract) : Prop := wf_token t ∧ is_deflationary t = false.

Lemma same_books_plain t t' : same_books t t' → plain t → plain t'.
Proof.
  intros (Hb & Hs & Hm & Hd) [[Hn Hc Hcap Hmax] Hf]. split; [|congruence].
  unfold nonneg_balances, circulating in *. split; unfold nonneg_balances, circulating;
    rewrite ?Hb, ?Hs, ?Hm; done.
Qed.

Lemma moved_plain from to a t :
  plain t → 0 <= a <= balance_of from t → plain (moved from to a t).
Proof.
  intros [[Hn Hc Hcap Hmax] Hd] Ha. destruct (moved_spec from to a t) as (Hcirc & _ & Hn').
  split; [|done]. constructor; [by apply Hn'|by rewrite Hcirc|done|done].
Qed.

Lemma transfer_plain ctx to a t : 0 <= a → plain t → plain (transfer ctx to a t).1.
Proof.
  intros Ha Hp. destruct Hp as [Hwf Hd] eqn:Hp'. destruct (transfer ctx to a t) as [t' r] eqn:Hr.
  destruct (transfer_cases ctx to a t t' r Hr) as [[-> _]|(from & _ & Hle & _ & _ & ->)];
    [apply Hwf|rewrite (wf_sum _ Hwf); pose proof (wf_cap _ Hwf); pose proof (wf_max _ Hwf); lia
    |done|done|].
  simpl. unfold burnt. rewrite Hd. simpl. by apply moved_plain; [|lia].
Qed.

Lemma issue_plain to a t :
  0 <= a → total_supply t + a <= umax 128 → plain t → plain (issue to a t).1.
Proof.
  intros Ha Hmx [Hwf Hd]. destruct (issue to a t) as [t' r] eqn:Hr.
  destruct Hwf as [Hn Hc Hcap Hmax].
  destruct (issue_cases to a t t' r Hr) as [[-> _]|(_ & Hle & ->)]; [done..|by split|].
  pose proof (balance_of_range to t Hn). split; [|done]. constructor; cbn; try done.
  - apply nonneg_set; [done|lia].
  - transitivity (circulating (set_balance to (balance_of to t + a) t)); [done|].
    rewrite circulating_set. lia.
Qed.

Lemma burn_plain from a t : 0 <= a → plain t → plain (burn from a t).1.
Proof.
  intros Ha [[Hn Hc Hcap Hmax] Hd]. pose proof (balance_of_range from t Hn).
  unfold burn, bind, gets, guard, modify, throw, ret.
  destruct (negb _); [|by repeat split].
  destruct (Z.leb_spec a (balance_of from t)); [|by repeat split].
  rewrite wsub_small by (unfold umax in *; lia). split; [|done]. constructor; cbn.
  - apply nonneg_set; [done|lia].
  - transitivity (circulating (set_balance from (balance_of from t - a) t)); [done|].
    rewrite circulating_set. unfold saturating_sub. lia.
  - unfold saturating_sub. lia.
  - done.
Qed.

Lemma token_call_plain t t' : token_call t t' → plain t → plain t'.
Proof.
  intros Hcall Hp. destruct Hcall as [ctx to a t Ha|ctx o to a t Ha|o sp a t|to a t Ha Hm
    |k to a t Ha Hm|from a t Ha|k a t|k a t|t].
  - by apply transfer_plain.
  - unfold transfer_from, bind at 1, lift. destruct (source_of ctx); [|done].
    unfold bind at 1, gets. unfold bind at 1, guard. destruct (a <=? _); [|done].
    unfold bind at 1, modify, ret. apply transfer_plain; [done|]. by apply (same_books_plain t).
  - by apply (same_books_plain t).
  - unfold mint, bind at 1, gets. unfold bind at 1, guard.
    destruct (negb _); [by apply issue_plain|done].
  - unfold mint_kernel_only, bind at 1, gets. destruct (kernel_mint_authority t); [|done].
    unfold bind at 1, guard. destruct (bool_decide _); [by apply issue_plain|done].
  - by apply burn_plain.
  - apply (same_books_plain t); [|done]. unfold lock_balance, bind, gets, guard, lift, modify.
    destruct (a <=? _); [|done]. by destruct (checked_add _ _ _).
  - apply (same_books_plain t); [|done]. unfold release_balance, bind, gets, guard, modify.
    by destruct (a <=? _).
  - by apply (same_books_plain t).
Qed.

(** The books of a token that does not burn stay balanced.  Whatever calls
    are made, successful or not, in whatever order, balances stay nonnegative
    and sum to the total supply, and the supply never passes its maximum. *)
Theorem token_books_balanced t t' :
  wf_token t → is_deflationary t = false → rtc token_call t t' →
  wf_token t' ∧ is_deflationary t' = false.
Proof.
  intros Hwf Hd. assert (plain t) as Hp by done. clear Hwf Hd.
  induction 1 as [|t t1 t2 Hcall _ IH]; [done|]. by apply IH, (token_call_plain t).
Qed.

(** The lock-down of kernel-only mode holds.  While it is on, only the kernel
    authority can move or mint tokens: direct mints and burns are refused, and so
    is every transfer, allowance transfer or kernel mint for anyone else, all
    without touching a balance or the supply. *)
Theorem kernel_only_lockdown t kernel :
  kernel_only_mode t = true → kernel_mint_authority t = Some kernel →
  (∀ to a, ∃ e, mint to a t = (t, Err e)) ∧
  (∀ from a, ∃ e, burn from a t = (t, Err e)) ∧
  (∀ k to a, k ≠ kernel → ∃ e, mint_kernel_only k to a t = (t, Err e)) ∧
  (∀ ctx to a, source_of ctx ≠ Ok kernel → transfer ctx to a t = (t, Err Unauthorized)) ∧
  (∀ ctx o to a, o ≠ kernel → ∃ t' e, transfer_from ctx o to a t = (t', Err e) ∧ same_books t t').
Proof.
  intros Hm Hk.
  assert (∀ t, kernel_only_mode t = true → kernel_mint_authority t = Some kernel →
    ∀ ctx to a, source_of ctx ≠ Ok kernel → transfer ctx to a t = (t, Err Unauthorized)) as Htr.
  { clear. intros t Hm Hk ctx to a Hs. unfold transfer. erewrite bind_step by done. rewrite Hm, Hk.
    unfold bind, lift, guard. destruct (source_of ctx) as [k|e] eqn:He.
    - rewrite bool_decide_eq_false_2; [done|congruence].
    - unfold source_of in He. by destruct (call_origin ctx); simplify_eq. }
  split_and!.
  - intros to a. unfold mint, bind, gets, guard. rewrite Hm. by eexists.
  - intros from a. unfold burn, bind, gets, guard. rewrite Hm. by eexists.
  - intros k to a Hne. unfold mint_kernel_only, bind, gets, guard. rewrite Hk.
    rewrite bool_decide_eq_false_2 by done. by eexists.
  - by apply Htr.
  - intros ctx o to a Hne. unfold transfer_from.
    destruct (source_of ctx) as [spender|e]; [|by eexists t, e].
    do 2 erewrite bind_step by done. unfold bind at 1, guard.
    destruct (a <=? _); [|by eexists t, _]. cbv beta iota delta [ret]; erewrite bind_step by done.
    rewrite Htr; [|done..|]; [by eexists _, _|].
    unfold source_of, with_contract; simpl. congruence.
Qed.

(** Burning on transfer is paid by nobody.  On a well-formed deflationary
    token a user's transfer lowers the supply by the burn, while the recipient
    is credited in full.  The freed supply can then be minted again: the holders
    have [burn_rate] tokens more than the maximum supply. *)
Theorem deflationary_exceeds_cap t ctx from to a :
  wf_token t → is_deflationary t = true → kernel_only_mode t = false →
  0 < burn_rate t <= a → a <= balance_of from t → source_of ctx = Ok from →
  max_supply t + burn_rate t <= umax 128 →
  let t1 := (transfer ctx to a t).1 in
  let t2 := (mint to (max_supply t - total_supply t1) t1).1 in
  circulating t1 = circulating t ∧ total_supply t1 = total_supply t - burn_rate t ∧
  total_supply t2 = max_supply t2 ∧ circulating t2 = max_supply t2 + burn_rate t.
Proof.
  intros [Hn Hc Hcap Hmax] Hd Hm Hb Ha Hs Hu. cbv zeta.
  destruct (transfer ctx to a t) as [t1 r] eqn:Hr.
  pose proof (balance_of_range from t Hn).
  assert (burnt a t = burn_rate t) as Hburn by (unfold burnt; rewrite Hd; lia).
  destruct (transfer_cases ctx to a t t1 r Hr) as [[_ [e He]]|(from' & Hs' & _ & _ & _ & ->)];
    [done|lia|lia| |rewrite Hs in Hs'; injection Hs' as <-].
  { exfalso. revert Hr. unfold transfer. erewrite bind_step by done. rewrite Hm, Hs, He.
    unfold bind, ret, lift, gets, guard, modify. rewrite (proj2 (Z.leb_le _ _) Ha).
    by destruct (0 <? _). }
  rewrite Hburn, (proj2 (Z.ltb_lt 0 (burn_rate t))) by lia. cbv iota. cbn [fst].
  destruct (moved_spec from to a t) as (Hcirc & _ & _).
  set (m := moved from to a t) in *. set (t1 := with_supply _ m).
  assert (circulating t1 = circulating t) as Hc1 by done.
  assert (total_supply t1 = total_supply t - burn_rate t) as Hs1
    by (cbn; unfold saturating_sub; lia).
  assert (max_supply t1 = max_supply t) as Hm1 by done.
  assert (0 <= balance_of to t1 <= circulating t1) as Hto.
  { apply (balance_of_range to m). by apply moved_spec; [|lia]. }
  rewrite (mint_run to (max_supply t - total_supply t1) t1) by (done || lia).
  cbn [fst]. split_and!; [done|done|cbn; lia|].
  transitivity (circulating (set_balance to (balance_of to t1 + (max_supply t - total_supply t1)) t1));
    [done|]. rewrite circulating_set. change (max_supply (with_supply _ _)) with (max_supply t). lia.
Qed.

(** A transfer that passes its checks succeeds. *)
Lemma transfer_total ctx from to amount t :
  wf_token t → kernel_only_mode t = false → source_of ctx = Ok from →
  0 <= amount <= balance_of from t →
  transfer ctx to amount t =
  ((if 0 <? burnt amount t
    then with_supply (saturating_sub (total_supply t) (burnt amount t))
    else id) (moved from to amount t), Ok (burnt amount t)).
Proof.
  intros [Hn Hc Hcap Hmax] Hm Hs [Ha Hle].
  destruct (transfer ctx to amount t) as [t' r] eqn:Hr.
  destruct (transfer_cases ctx to amount t t' r Hr) as [[_ [e He]]|(from' & Hs' & _ & _ & -> & ->)];
    [done|lia|lia| |rewrite Hs in Hs'; by injection Hs' as <-].
  exfalso. revert Hr. unfold transfer. erewrite bind_step by done. rewrite Hm, Hs, He.
  unfold bind, ret, lift, gets, guard, modify. rewrite (proj2 (Z.leb_le _ _) Hle).
  by destruct (0 <? _).
Qed.

Lemma lock_balance_ok k a t t1 u :
  lock_balance k a t = (t1, Ok u) →
  a <= available_balance k t ∧ t1 = with_locked (<[k := locked_of k t + a]> (locked_balances t)) t.
Proof. unfold lock_balance. intros H. monad_inv. by int_inv. Qed.

(** Locking does not stop a transfer.  After a lock the kernel refuses to
    debit more than the available balance, yet the holder can transfer the whole
    balance away, locked tokens included, and is left with more locked than
    held. *)
Theorem locked_tokens_transferable t t1 ctx k to a u :
  wf_token t → kernel_only_mode t = false → is_deflationary t = false →
  source_of ctx = Ok k → k ≠ to → 0 < a → 0 <= locked_of k t →
  lock_balance k a t = (t1, Ok u) →
  (∃ e, debit_balance k (balance_of k t) t1 = (t1, Err e)) ∧
  ∃ t2, transfer ctx to (balance_of k t) t1 = (t2, Ok 0) ∧
    balance_of k t2 = 0 ∧ locked_of k t2 = locked_of k t + a.
Proof.
  intros Hwf Hm Hd Hs Hne Ha Hl0 [Hle ->]%lock_balance_ok.
  set (t1 := with_locked _ t).
  assert (locked_of k t1 = locked_of k t + a) as Hl
    by (unfold locked_of, t1; cbn; by rewrite lookup_insert_eq).
  assert (∀ k', balance_of k' t1 = balance_of k' t) as Hb by done.
  pose proof (balance_of_range k t (wf_nonneg _ Hwf)).
  unfold available_balance, saturating_sub in Hle.
  assert (wf_token t1) as Hwf1 by (by destruct Hwf).
  split.
  - unfold debit_balance, available_balance, saturating_sub, bind, gets, guard.
    rewrite Hl, Hb, (proj2 (Z.leb_gt _ _)) by lia. by eexists.
  - rewrite (transfer_total ctx k) by (done || rewrite ?Hb; lia).
    assert (burnt (balance_of k t) t1 = 0) as -> by (unfold burnt, t1; cbn; by rewrite Hd).
    eexists. split; [done|]. split; [|done].
    destruct (moved_spec k to (balance_of k t) t1) as (_ & Hbal & _). cbn.
    rewrite Hbal, Hb. rewrite decide_True, decide_False by done. lia.
Qed.

(** A mint can pass any cap by wrapping around.  The cap is checked on an
    unchecked sum: minting 2^128 less the supply succeeds on every token open to
    direct mints, sets the recorded supply to zero and credits the recipient with
    an amount [can_mint] refuses. *)
Theorem mint_wraps_past_cap t to :
  wf_token t → kernel_only_mode t = false → 0 < total_supply t → balance_of to t = 0 →
  let amount := 2 ^ 128 - total_supply t in
  can_mint amount t = false ∧
  ∃ t', mint to amount t = (t', Ok tt) ∧ total_supply t' = 0 ∧ balance_of to t' = amount.
Proof.
  intros [Hn Hc Hcap Hmax] Hm Hs Hb. cbv zeta.
  assert (0 < 2 ^ 128 - total_supply t <= umax 128) as Hr by (unfold umax in *; lia).
  set (amount := 2 ^ 128 - total_supply t) in *.
  assert (wadd 128 (total_supply t) amount = 0) as Hw.
  { unfold wadd, amount. rewrite Zplus_minus. by apply Z_mod_same_full. }
  split.
  - unfold can_mint. destruct (checked_add _ _ _) eqn:Hca; [|done].
    int_inv. unfold umax in *. lia.
  - unfold mint, issue, bind, gets, guard, modify, ret. rewrite Hm. cbn [negb].
    rewrite Hw, (proj2 (Z.leb_le 0 (max_supply t))), Hb by lia.
    rewrite (wadd_small 128 0) by lia. eexists. split; [done|]. cbn.
    rewrite Hw. split; [done|]. unfold balance_of; cbn. by rewrite lookup_insert_eq.
Qed.

(** ** Examples *)

Definition demo_key (n : Z) : PublicKey := {| dilithium_pk := n; kyber_pk := 0; key_id := n |}.

Definition demo_ctx (n : Z) : ExecutionContext := ExecutionContext_new (demo_key n) 1 0 0 0.

(** Holders 1 and 2 with 600 and 400 of at most 2000 tokens. *)
Definition demo_token (defl only : bool) : TokenContract :=
  with_issue 8 2000 (Some (demo_key 9)) only (with_supply 1000
    (with_balances (λ _, {[ demo_key 1 := 600; demo_key 2 := 400 ]})
      (TokenContract_new 7 "Demo" "DEMO" 8 2000 defl 10 (demo_key 1)))).

Lemma demo_token_wf defl only : wf_token (demo_token defl only).
Proof.
  constructor; [|by vm_compute..].
  intros k v.
  change (balances (demo_token defl only))
    with ({[ demo_key 1 := 600; demo_key 2 := 400 ]} : gmap PublicKey Z).
  rewrite lookup_insert_Some, lookup_singleton_Some. naive_solver lia.
Qed.

Lemma token_books_balanced_witness :
  circulating (mint (demo_key 3) 500 (transfer (demo_ctx 1) (demo_key 3) 100
    (demo_token false false)).1).1 = 1500 ∧
  wf_token (mint (demo_key 3) 500 (transfer (demo_ctx 1) (demo_key 3) 100
    (demo_token false false)).1).1.
Proof.
  split; [by vm_compute|].
  apply (token_books_balanced (demo_token false false)); [apply demo_token_wf|done|].
  apply (rtc_l _ _ (transfer (demo_ctx 1) (demo_key 3) 100 (demo_token false false)).1);
    [by apply call_transfer|].
  apply rtc_once, call_mint; [lia|by vm_compute].
Defined.

Lemma kernel_only_lockdown_witness :
  transfer (demo_ctx 1) (demo_key 2) 100 (demo_token false true) =
  (demo_token false true, Err Unauthorized).
Proof.
  destruct (kernel_only_lockdown (demo_token false true) (demo_key 9)) as (_ & _ & _ & H & _);
    [done|done|]. by apply H.
Defined.

Lemma deflationary_exceeds_cap_witness :
  let t1 := (transfer (demo_ctx 1) (demo_key 3) 100 (demo_token true false)).1 in
  let t2 := (mint (demo_key 3) 1010 t1).1 in
  max_supply t2 = 2000 ∧ circulating t2 = 2010.
Proof.
  pose proof (deflationary_exceeds_cap (demo_token true false) (demo_ctx 1) (demo_key 1)
    (demo_key 3) 100 (demo_token_wf _ _) eq_refl eq_refl) as H.
  cbv zeta. split; [by vm_compute|]. apply H; by vm_compute.
Defined.

Lemma locked_tokens_transferable_witness :
  ∃ t1, lock_balance (demo_key 1) 500 (demo_token false false) = (t1, Ok tt) ∧
  ∃ t2, transfer (demo_ctx 1) (demo_key 2) 600 t1 = (t2, Ok 0) ∧
    balance_of (demo_key 1) t2 = 0 ∧ locked_of (demo_key 1) t2 = 500.
Proof.
  exists (lock_balance (demo_key 1) 500 (demo_token false false)).1. split; [reflexivity|].
  apply (locked_tokens_transferable (demo_token false false) _ (demo_ctx 1) (demo_key 1)
    (demo_key 2) 500 tt (demo_token_wf _ _)); done.
Defined.

Lemma mint_wraps_past_cap_witness :
  ∃ t', mint (demo_key 3) (2 ^ 128 - 1000) (demo_token false false) = (t', Ok tt) ∧
    total_supply t' = 0 ∧ balance_of (demo_key 3) t' = 2 ^ 128 - 1000.
Proof. by apply (mint_wraps_past_cap (demo_token false false) (demo_key 3) (demo_token_wf _ _)). Defined.
