(* ===== verification/Store.v ===== *)
(** * Block storage (lib-blockchain storage)

    [SledStore] of [lib-blockchain/src/storage/sled_store.rs], the only
    implementation of [BlockchainStore]: committed trees, and one pending batch
    per open block.  Writes go to the batch; reads go to the committed trees.
    The trees that block execution writes are modelled, one map each; the
    identity and index trees and the failures of sled are not.  Keys are the tuples the key functions encode.

    The theorems: the store never mixes committed and pending state: a write
    leaves every read unchanged until [commit_block], which applies exactly the
    last write of every key; [rollback_block] forgets them all; and a block is
    opened only at the next height. *)
From stdpp Require Import base tactics numbers list option gmap fin_maps strings.
From S2P Require Import Prelude Curve CurveState Merkle TokenCore.

Notation Address := Z (only parsing).
Notation TokenId := Z (only parsing).
(** Transaction hash and output index. *)
Notation OutPoint := (Z * Z)%type (only parsing).

Record Utxo : Type := {
  utxo_amount : Z;            (* u128 *)
  owner : Address;
  token : TokenId;
  created_at_height : Z;
  script : option (list Z);
  merkle_leaf : option Z;
}.

Record DaoStakeRecord : Type := {
  staker : Z;
  sector_dao_key_id : Z;
  stake_amount : Z;           (* u128 *)
  staked_at_height : Z;       (* u64 *)
  locked_until : Z;           (* u64 *)
}.

Record WalletTransactionData : Type := {
  wallet_id : Z; wallet_type : string; wallet_name : string; alias : option string;
  wallet_public_key : list Z; owner_identity_id : option Z; seed_commitment : Z;
  created_at : Z; registration_fee : Z; capabilities : Z; initial_balance : Z; (* u128 *)
}.

Record WalletProjectionRecord : Type := {
  wallet_data : WalletTransactionData; committed_at_height : Z;
}.

Inductive StorageError : Type :=
| Database (msg : string)
| Serialization (msg : string)
| InvalidBlockHeight (expected actual : Z)
| NoActiveTransaction
| TransactionAlreadyActive
| CorruptedData (msg : string)
| NotInitialized.

(** ** Committed trees and the pending batch *)

Record Tables : Type := {
  blocks_by_height : gmap Z Z;      (* the block hash; the block is stored under it *)
  utxos : gmap OutPoint Utxo;
  utxo_merkle_leaves : gmap Z Z;
  utxo_merkle_index : gmap OutPoint Z;
  utxo_merkle_nodes : gmap (nat * Z) Z;
  utxo_merkle_next : option Z;      (* meta: UTXO_MERKLE_NEXT_INDEX *)
  token_balances : gmap (TokenId * Address) Z;
  token_nonces : gmap (TokenId * Address) Z;
  token_contracts : gmap TokenId TokenContract;
  token_supply : gmap TokenId Z;
  contract_code : gmap Z (list Z);
  contract_storage : gmap (Z * list Z) (list Z);
  wallets : gmap Z WalletProjectionRecord;
  cbe_economic_state : option BondingCurveEconomicState;
  cbe_accounts : gmap Z BondingCurveAccountState;
  dao_stakes : gmap (Z * Z) DaoStakeRecord;
  latest_height : option Z;
}.

(** In a batch an entry [None] is a removal. *)
Record PendingBatch : Type := {
  b_blocks_by_height : gmap Z (option Z);
  b_utxos : gmap OutPoint (option Utxo);
  b_merkle_leaves : gmap Z (option Z);
  b_merkle_index : gmap OutPoint (option Z);
  b_merkle_indexed : gmap OutPoint Z;      (* in-block cache of leaf indices *)
  b_merkle_nodes : gmap (nat * Z) Z;       (* batch and in-block cache alike *)
  b_merkle_next : option Z;
  b_token_balances : gmap (TokenId * Address) (option Z);
  b_token_nonces : gmap (TokenId * Address) (option Z);
  b_token_contracts : gmap TokenId (option TokenContract);
  b_token_supply : gmap TokenId (option Z);
  b_contract_code : gmap Z (option (list Z));
  b_contract_storage : gmap (Z * list Z) (option (list Z));
  b_wallets : gmap Z (option WalletProjectionRecord);
  b_cbe_economic_state : option BondingCurveEconomicState;
  b_cbe_accounts : gmap Z (option BondingCurveAccountState);
  b_dao_stakes : gmap (Z * Z) (option DaoStakeRecord);
}.

Definition PendingBatch_new : PendingBatch :=
  {| b_blocks_by_height := ∅; b_utxos := ∅; b_merkle_leaves := ∅; b_merkle_index := ∅; b_merkle_indexed := ∅;
     b_merkle_nodes := ∅; b_merkle_next := None; b_token_balances := ∅;
     b_token_nonces := ∅; b_token_contracts := ∅; b_token_supply := ∅;
     b_contract_code := ∅; b_contract_storage := ∅; b_wallets := ∅;
     b_cbe_economic_state := None; b_cbe_accounts := ∅; b_dao_stakes := ∅ |}.

Record SledStore : Type := {
  db : Tables;
  tx_active : bool;
  tx_height : Z;
  tx_utxo_merkle_next_index : Z;
  tx_batch : option PendingBatch;
}.

(** [Tree::apply_batch]. *)
Definition apply_batch {K V : Type} `{Countable K}
    (m : gmap K V) (b : gmap K (option V)) : gmap K V :=
  merge (λ old new, match new with Some v => v | None => old end) m b.

Definition commit_tables (t : Tables) (b : PendingBatch) (height : Z) : Tables := {|
  blocks_by_height := apply_batch (blocks_by_height t) (b_blocks_by_height b);
  utxos := apply_batch (utxos t) (b_utxos b);
  utxo_merkle_leaves := apply_batch (utxo_merkle_leaves t) (b_merkle_leaves b);
  utxo_merkle_index := apply_batch (utxo_merkle_index t) (b_merkle_index b);
  utxo_merkle_nodes := b_merkle_nodes b ∪ utxo_merkle_nodes t;
  utxo_merkle_next :=
    match b_merkle_next b with Some n => Some n | None => utxo_merkle_next t end;
  token_balances := apply_batch (token_balances t) (b_token_balances b);
  token_nonces := apply_batch (token_nonces t) (b_token_nonces b);
  token_contracts := apply_batch (token_contracts t) (b_token_contracts b);
  token_supply := apply_batch (token_supply t) (b_token_supply b);
  contract_code := apply_batch (contract_code t) (b_contract_code b);
  contract_storage := apply_batch (contract_storage t) (b_contract_storage b);
  wallets := apply_batch (wallets t) (b_wallets b);
  cbe_economic_state :=
    match b_cbe_economic_state b with Some e => Some e | None => cbe_economic_state t end;
  cbe_accounts := apply_batch (cbe_accounts t) (b_cbe_accounts b);
  dao_stakes := apply_batch (dao_stakes t) (b_dao_stakes b);
  latest_height := Some height |}.

(** ** Transaction control *)

Notation SM := (M SledStore StorageError) (only parsing).

Definition set_tx (active : bool) (batch : option PendingBatch) (s : SledStore) : SledStore :=
  {| db := db s; tx_active := active; tx_height := tx_height s;
     tx_utxo_merkle_next_index := tx_utxo_merkle_next_index s; tx_batch := batch |}.

Definition require_transaction : SM unit :=
  active <- gets tx_active ;; guard active NoActiveTransaction.

Definition begin_block (height : Z) : SM unit :=
  s <- gets (λ s, s) ;;
  guard (negb (tx_active s)) TransactionAlreadyActive ;;;
  let expected := match latest_height (db s) with Some h => wadd 64 h 1 | None => 0 end in
  guard (height =? expected) (InvalidBlockHeight expected height) ;;;
  modify (λ s, {|
    db := db s; tx_active := true; tx_height := height;
    tx_utxo_merkle_next_index := default 0 (utxo_merkle_next (db s));
    tx_batch := Some PendingBatch_new |}).

(** The drop guard clears [tx_active] on every return after the first check. *)
Definition commit_block : SM unit :=
  require_transaction ;;;
  s <- gets (λ s, s) ;;
  match tx_batch s with
  | None => modify (set_tx false None) ;;; throw NoActiveTransaction
  | Some b =>
      modify (λ s, {|
        db := commit_tables (db s) b (tx_height s); tx_active := false;
        tx_height := tx_height s;
        tx_utxo_merkle_next_index := tx_utxo_merkle_next_index s; tx_batch := None |})
  end.

Definition rollback_block : SM unit :=
  require_transaction ;;; modify (set_tx false None).

(** ** Reads: committed state only *)

Definition get_utxo (op : OutPoint) (s : SledStore) : option Utxo := utxos (db s) !! op.

Definition get_token_balance (t : TokenId) (a : Address) (s : SledStore) : Z :=
  default 0 (token_balances (db s) !! (t, a)).

Definition get_token_nonce (t : TokenId) (a : Address) (s : SledStore) : Z :=
  default 0 (token_nonces (db s) !! (t, a)).

Definition get_token_contract (t : TokenId) (s : SledStore) : option TokenContract :=
  token_contracts (db s) !! t.

Definition get_token_supply (t : TokenId) (s : SledStore) : option Z :=
  token_supply (db s) !! t.

Definition get_cbe_economic_state (s : SledStore) : BondingCurveEconomicState :=
  default BondingCurveEconomicState_default (cbe_economic_state (db s)).

Definition get_cbe_account_state (key_id : Z) (s : SledStore)
    : option BondingCurveAccountState := cbe_accounts (db s) !! key_id.

Definition get_dao_stake (dao stk : Z) (s : SledStore) : option DaoStakeRecord :=
  dao_stakes (db s) !! (dao, stk).

(** ** Writes: pending batch only *)

(** [if let Some(ref mut batch) = *batch_guard]. *)
Definition with_batch (f : PendingBatch → PendingBatch) : SM unit :=
  require_transaction ;;;
  modify (λ s, set_tx (tx_active s) (f <$> tx_batch s) s).

(** [batch_guard.as_mut().ok_or(NoActiveTransaction)?]. *)
Definition with_batch_strict (f : PendingBatch → PendingBatch) : SM unit :=
  require_transaction ;;;
  b <- gets tx_batch ;;
  guard (bool_decide (is_Some b)) NoActiveTransaction ;;;
  modify (λ s, set_tx (tx_active s) (f <$> tx_batch s) s).

Definition upd_utxos (f : gmap OutPoint (option Utxo) → gmap OutPoint (option Utxo))
    (b : PendingBatch) : PendingBatch := {|
  b_blocks_by_height := b_blocks_by_height b;
  b_contract_code := b_contract_code b; b_contract_storage := b_contract_storage b;
  b_wallets := b_wallets b;
  b_utxos := f (b_utxos b); b_merkle_leaves := b_merkle_leaves b;
  b_merkle_index := b_merkle_index b; b_merkle_indexed := b_merkle_indexed b;
  b_merkle_nodes := b_merkle_nodes b; b_merkle_next := b_merkle_next b;
  b_token_balances := b_token_balances b; b_token_nonces := b_token_nonces b;
  b_token_contracts := b_token_contracts b; b_token_supply := b_token_supply b;
  b_cbe_economic_state := b_cbe_economic_state b; b_cbe_accounts := b_cbe_accounts b;
  b_dao_stakes := b_dao_stakes b |}.

Definition upd_merkle (leaves : gmap Z (option Z)) (index : gmap OutPoint (option Z))
    (indexed : gmap OutPoint Z) (nodes : gmap (nat * Z) Z) (next : option Z)
    (b : PendingBatch) : PendingBatch := {|
  b_blocks_by_height := b_blocks_by_height b;
  b_contract_code := b_contract_code b; b_contract_storage := b_contract_storage b;
  b_wallets := b_wallets b;
  b_utxos := b_utxos b; b_merkle_leaves := leaves;
  b_merkle_index := index; b_merkle_indexed := indexed;
  b_merkle_nodes := nodes; b_merkle_next := next;
  b_token_balances := b_token_balances b; b_token_nonces := b_token_nonces b;
  b_token_contracts := b_token_contracts b; b_token_supply := b_token_supply b;
  b_cbe_economic_state := b_cbe_economic_state b; b_cbe_accounts := b_cbe_accounts b;
  b_dao_stakes := b_dao_stakes b |}.

Definition upd_tokens (balances nonces : gmap (TokenId * Address) (option Z))
    (supply : gmap TokenId (option Z)) (b : PendingBatch) : PendingBatch := {|
  b_blocks_by_height := b_blocks_by_height b;
  b_contract_code := b_contract_code b; b_contract_storage := b_contract_storage b;
  b_wallets := b_wallets b;
  b_utxos := b_utxos b; b_merkle_leaves := b_merkle_leaves b;
  b_merkle_index := b_merkle_index b; b_merkle_indexed := b_merkle_indexed b;
  b_merkle_nodes := b_merkle_nodes b; b_merkle_next := b_merkle_next b;
  b_token_balances := balances; b_token_nonces := nonces;
  b_token_contracts := b_token_contracts b; b_token_supply := supply;
  b_cbe_economic_state := b_cbe_economic_state b; b_cbe_accounts := b_cbe_accounts b;
  b_dao_stakes := b_dao_stakes b |}.

Definition upd_curve (econ : option BondingCurveEconomicState)
    (accounts : gmap Z (option BondingCurveAccountState))
    (stakes : gmap (Z * Z) (option DaoStakeRecord)) (b : PendingBatch) : PendingBatch := {|
  b_blocks_by_height := b_blocks_by_height b;
  b_contract_code := b_contract_code b; b_contract_storage := b_contract_storage b;
  b_wallets := b_wallets b;
  b_utxos := b_utxos b; b_merkle_leaves := b_merkle_leaves b;
  b_merkle_index := b_merkle_index b; b_merkle_indexed := b_merkle_indexed b;
  b_merkle_nodes := b_merkle_nodes b; b_merkle_next := b_merkle_next b;
  b_token_balances := b_token_balances b; b_token_nonces := b_token_nonces b;
  b_token_contracts := b_token_contracts b; b_token_supply := b_token_supply b;
  b_cbe_economic_state := econ; b_cbe_accounts := accounts; b_dao_stakes := stakes |}.

Definition upd_blocks (f : gmap Z (option Z) → gmap Z (option Z))
    (b : PendingBatch) : PendingBatch := {|
  b_blocks_by_height := f (b_blocks_by_height b);
  b_contract_code := b_contract_code b; b_contract_storage := b_contract_storage b;
  b_wallets := b_wallets b;
  b_utxos := b_utxos b; b_merkle_leaves := b_merkle_leaves b;
  b_merkle_index := b_merkle_index b; b_merkle_indexed := b_merkle_indexed b;
  b_merkle_nodes := b_merkle_nodes b; b_merkle_next := b_merkle_next b;
  b_token_balances := b_token_balances b; b_token_nonces := b_token_nonces b;
  b_token_contracts := b_token_contracts b; b_token_supply := b_token_supply b;
  b_cbe_economic_state := b_cbe_economic_state b; b_cbe_accounts := b_cbe_accounts b;
  b_dao_stakes := b_dao_stakes b |}.

Definition upd_contracts (contracts : gmap TokenId (option TokenContract))
    (code : gmap Z (option (list Z))) (cells : gmap (Z * list Z) (option (list Z)))
    (records : gmap Z (option WalletProjectionRecord)) (b : PendingBatch) : PendingBatch := {|
  b_blocks_by_height := b_blocks_by_height b;
  b_utxos := b_utxos b; b_merkle_leaves := b_merkle_leaves b;
  b_merkle_index := b_merkle_index b; b_merkle_indexed := b_merkle_indexed b;
  b_merkle_nodes := b_merkle_nodes b; b_merkle_next := b_merkle_next b;
  b_token_balances := b_token_balances b; b_token_nonces := b_token_nonces b;
  b_token_contracts := contracts; b_token_supply := b_token_supply b;
  b_contract_code := code; b_contract_storage := cells; b_wallets := records;
  b_cbe_economic_state := b_cbe_economic_state b; b_cbe_accounts := b_cbe_accounts b;
  b_dao_stakes := b_dao_stakes b |}.

(** [append_block]: the block's height and hash. *)
Definition append_block (height block_hash : Z) : SM unit :=
  require_transaction ;;;
  expected <- gets tx_height ;;
  guard (height =? expected) (InvalidBlockHeight expected height) ;;;
  with_batch (upd_blocks <[height := Some block_hash]>).

Definition get_block_hash_by_height (h : Z) (s : SledStore) : option Z :=
  blocks_by_height (db s) !! h.

Definition get_contract_code (id : Z) (s : SledStore) : option (list Z) :=
  contract_code (db s) !! id.

Definition get_contract_storage (id : Z) (key : list Z) (s : SledStore) : option (list Z) :=
  contract_storage (db s) !! (id, key).

Definition iter_token_contracts (s : SledStore) : list (TokenId * TokenContract) :=
  map_to_list (token_contracts (db s)).

Definition put_token_contract (c : TokenContract) : SM unit :=
  with_batch (λ b, upd_contracts (<[token_id c := Some c]> (b_token_contracts b))
    (b_contract_code b) (b_contract_storage b) (b_wallets b) b).

Definition put_contract_code (id : Z) (code : list Z) : SM unit :=
  with_batch (λ b, upd_contracts (b_token_contracts b)
    (<[id := Some code]> (b_contract_code b)) (b_contract_storage b) (b_wallets b) b).

Definition put_contract_storage (id : Z) (key value : list Z) : SM unit :=
  with_batch (λ b, upd_contracts (b_token_contracts b) (b_contract_code b)
    (<[(id, key) := Some value]> (b_contract_storage b)) (b_wallets b) b).

Definition put_wallet_projection (id : Z) (r : WalletProjectionRecord) : SM unit :=
  with_batch (λ b, upd_contracts (b_token_contracts b) (b_contract_code b)
    (b_contract_storage b) (<[id := Some r]> (b_wallets b)) b).

Definition put_utxo (op : OutPoint) (u : Utxo) : SM unit :=
  with_batch (upd_utxos <[op := Some u]>).

Definition delete_utxo (op : OutPoint) : SM unit :=
  with_batch (upd_utxos <[op := None]>).

(** A zero balance is removed. *)
Definition set_token_balance (t : TokenId) (a : Address) (v : Z) : SM unit :=
  with_batch (λ b, upd_tokens
    (<[(t, a) := if v =? 0 then None else Some v]> (b_token_balances b))
    (b_token_nonces b) (b_token_supply b) b).

Definition set_token_nonce (t : TokenId) (a : Address) (nonce : Z) : SM unit :=
  with_batch (λ b, upd_tokens (b_token_balances b)
    (<[(t, a) := if nonce =? 0 then None else Some nonce]> (b_token_nonces b))
    (b_token_supply b) b).

(** The trait's default method [increment_token_nonce]. *)
Definition store_increment_token_nonce (t : TokenId) (a : Address) : SM Z :=
  current <- gets (get_token_nonce t a) ;;
  let new_nonce := wadd 64 current 1 in
  set_token_nonce t a new_nonce ;;;
  ret new_nonce.

Definition put_token_supply (t : TokenId) (supply : Z) : SM unit :=
  with_batch (λ b, upd_tokens (b_token_balances b) (b_token_nonces b)
    (<[t := Some supply]> (b_token_supply b)) b).

Definition put_cbe_economic_state (e : BondingCurveEconomicState) : SM unit :=
  with_batch (λ b, upd_curve (Some e) (b_cbe_accounts b) (b_dao_stakes b) b).

Definition put_cbe_account_state (key_id : Z) (a : BondingCurveAccountState) : SM unit :=
  with_batch (λ b, upd_curve (b_cbe_economic_state b)
    (<[key_id := Some a]> (b_cbe_accounts b)) (b_dao_stakes b) b).

Definition put_dao_stake (r : DaoStakeRecord) : SM unit :=
  with_batch_strict (λ b, upd_curve (b_cbe_economic_state b) (b_cbe_accounts b)
    (<[(sector_dao_key_id r, staker r) := Some r]> (b_dao_stakes b)) b).

Definition delete_dao_stake (dao stk : Z) : SM unit :=
  with_batch_strict (λ b, upd_curve (b_cbe_economic_state b) (b_cbe_accounts b)
    (<[(dao, stk) := None]> (b_dao_stakes b)) b).

(** ** UTXO Merkle leaves

    [update_merkle_path] is that of [Merkle.v]; the copy of the root kept under
    the key [UTXO_MERKLE_ROOT] is not modelled, [get_utxo_merkle_root] reads the
    node. *)
Class PairHash : Type := hash_pair : Z → Z → Z.

Section MerkleLeaves.
Context `{PairHash}.

Definition put_utxo_merkle_leaf (op : OutPoint) (leaf : Z) : SM Z :=
  require_transaction ;;;
  s <- gets (λ s, s) ;;
  match tx_batch s with
  | None => throw NoActiveTransaction
  | Some b =>
      guard (negb (bool_decide (is_Some (b_merkle_indexed b !! op))))
        (CorruptedData "UTXO already has a Merkle leaf in the current block") ;;;
      guard (negb (bool_decide (is_Some (utxo_merkle_index (db s) !! op))))
        (CorruptedData "UTXO already has a committed Merkle leaf") ;;;
      let next_index := tx_utxo_merkle_next_index s in
      let '(nodes, _) := update_merkle_path hash_pair next_index leaf
                           (b_merkle_nodes b) (utxo_merkle_nodes (db s)) in
      let b' := upd_merkle (<[next_index := Some leaf]> (b_merkle_leaves b))
                  (<[op := Some next_index]> (b_merkle_index b))
                  (<[op := next_index]> (b_merkle_indexed b))
                  nodes (Some (wadd 64 next_index 1)) b in
      modify (λ s, {|
        db := db s; tx_active := tx_active s; tx_height := tx_height s;
        tx_utxo_merkle_next_index := wadd 64 next_index 1; tx_batch := Some b' |}) ;;;
      ret next_index
  end.

Definition delete_utxo_merkle_leaf (op : OutPoint) : SM unit :=
  require_transaction ;;;
  s <- gets (λ s, s) ;;
  match tx_batch s with
  | None => throw NoActiveTransaction
  | Some b =>
      let cached := b_merkle_indexed b !! op in
      let indexed := match cached with
                     | Some _ => delete op (b_merkle_indexed b)
                     | None => b_merkle_indexed b
                     end in
      let index := match cached with
                   | Some i => Some i
                   | None => utxo_merkle_index (db s) !! op
                   end in
      match index with
      | Some idx =>
          let '(nodes, _) := update_merkle_path hash_pair idx 0
                               (b_merkle_nodes b) (utxo_merkle_nodes (db s)) in
          modify (λ s, set_tx (tx_active s) (Some (upd_merkle
            (<[idx := Some 0]> (b_merkle_leaves b)) (<[op := None]> (b_merkle_index b))
            indexed nodes (b_merkle_next b) b)) s)
      | None => ret tt
      end
  end.

Definition get_utxo_merkle_root (s : SledStore) : option Z :=
  match tx_batch s with
  | Some b =>
      match b_merkle_nodes b !! (MERKLE_DEPTH, 0) with
      | Some h => Some h
      | None => utxo_merkle_nodes (db s) !! (MERKLE_DEPTH, 0)
      end
  | None => utxo_merkle_nodes (db s) !! (MERKLE_DEPTH, 0)
  end.

End MerkleLeaves.

(** ** Lemmas *)

Lemma apply_batch_lookup `{Countable K} {V : Type} (m : gmap K V) (b : gmap K (option V)) k :
  apply_batch m b !! k = match b !! k with Some v => v | None => m !! k end.
Proof. unfold apply_batch. rewrite lookup_merge. by destruct (m !! k), (b !! k) as [[]|]. Qed.

(** An open block. *)
Definition in_block (s : SledStore) (b : PendingBatch) : Prop :=
  tx_active s = true ∧ tx_batch s = Some b.

Lemma with_batch_run f s b :
  in_block s b → with_batch f s = (set_tx true (Some (f b)) s, Ok tt).
Proof.
  intros [Ha Hb]. unfold with_batch, require_transaction, bind, gets, guard, modify.
  rewrite Ha. simpl. by rewrite ?Ha, Hb.
Qed.

Lemma with_batch_strict_run f s b :
  in_block s b → with_batch_strict f s = (set_tx true (Some (f b)) s, Ok tt).
Proof.
  intros [Ha Hb]. unfold with_batch_strict, require_transaction, bind, gets, guard, modify.
  rewrite Ha. simpl. rewrite Hb. simpl. by rewrite ?Ha, ?Hb.
Qed.

Lemma with_batch_ok f s s' r :
  with_batch f s = (s', Ok r) → tx_active s = true ∧ s' = set_tx true (f <$> tx_batch s) s.
Proof.
  unfold with_batch, require_transaction, bind, gets, guard, modify.
  destruct (tx_active s) eqn:Ha; simpl; intros Heq; simplify_eq. by rewrite Ha.
Qed.

Lemma with_batch_db f s s' r : with_batch f s = (s', r) → db s' = db s.
Proof.
  unfold with_batch, require_transaction, bind, gets, guard, modify.
  by destruct (tx_active s); intros [= <- _].
Qed.

Lemma with_batch_strict_db f s s' r : with_batch_strict f s = (s', r) → db s' = db s.
Proof.
  unfold with_batch_strict, require_transaction, bind, gets, guard, modify.
  destruct (tx_active s); [|by intros [= <- _]]. simpl.
  by destruct (tx_batch s); intros [= <- _].
Qed.

(** Every write of the store, as a step. *)
Inductive store_write `{PairHash} : SledStore → SledStore → Prop :=
| write_append h bh s s' r : append_block h bh s = (s', r) → store_write s s'
| write_put_utxo op u s s' r : put_utxo op u s = (s', r) → store_write s s'
| write_delete_utxo op s s' r : delete_utxo op s = (s', r) → store_write s s'
| write_put_leaf op leaf s s' r : put_utxo_merkle_leaf op leaf s = (s', r) → store_write s s'
| write_delete_leaf op s s' r : delete_utxo_merkle_leaf op s = (s', r) → store_write s s'
| write_balance t a v s s' r : set_token_balance t a v s = (s', r) → store_write s s'
| write_nonce t a n s s' r : set_token_nonce t a n s = (s', r) → store_write s s'
| write_supply t v s s' r : put_token_supply t v s = (s', r) → store_write s s'
| write_econ e s s' r : put_cbe_economic_state e s = (s', r) → store_write s s'
| write_account k a s s' r : put_cbe_account_state k a s = (s', r) → store_write s s'
| write_stake d s s' r : put_dao_stake d s = (s', r) → store_write s s'
| write_delete_stake d k s s' r : delete_dao_stake d k s = (s', r) → store_write s s'
| write_contract c s s' r : put_token_contract c s = (s', r) → store_write s s'
| write_code id c s s' r : put_contract_code id c s = (s', r) → store_write s s'
| write_cell id k v s s' r : put_contract_storage id k v s = (s', r) → store_write s s'
| write_wallet id w s s' r : put_wallet_projection id w s = (s', r) → store_write s s'.

(** The part of the store a write may not touch. *)
Definition same_frame (s s' : SledStore) : Prop :=
  db s' = db s ∧ tx_active s' = tx_active s ∧ tx_height s' = tx_height s ∧
  (is_Some (tx_batch s) → is_Some (tx_batch s')).

Lemma with_batch_frame f s s' r : with_batch f s = (s', r) → same_frame s s'.
Proof.
  unfold with_batch, require_transaction, bind, gets, guard, modify, same_frame.
  destruct (tx_active s) eqn:Ha; intros [= <- _]; simpl; rewrite ?Ha; [|done].
  split_and!; [done..|]. intros [b Hb]. rewrite Hb. by eexists.
Qed.

Lemma with_batch_strict_frame f s s' r : with_batch_strict f s = (s', r) → same_frame s s'.
Proof.
  unfold with_batch_strict, require_transaction, bind, gets, guard, modify, same_frame.
  destruct (tx_active s) eqn:Ha; [|by intros [= <- _]]. simpl.
  destruct (tx_batch s) eqn:Hb; intros [= <- _]; simpl; rewrite ?Ha, ?Hb; split_and!; done.
Qed.

Lemma merkle_leaf_frame `{PairHash} op leaf s s' r :
  put_utxo_merkle_leaf op leaf s = (s', r) → same_frame s s'.
Proof.
  unfold put_utxo_merkle_leaf, require_transaction, bind, gets, guard, modify, throw, ret,
    same_frame.
  destruct (tx_active s) eqn:Ha; [|by intros [= <- _]].
  destruct (tx_batch s) as [b|] eqn:Hb; [|by intros [= <- _]].
  destruct (negb _); [|by intros [= <- _]]. destruct (negb _); [|by intros [= <- _]].
  destruct (update_merkle_path _ _ _ _ _) as [nodes root]. intros [= <- _]; simpl.
  rewrite ?Ha. split_and!; done.
Qed.

Lemma merkle_delete_frame `{PairHash} op s s' r :
  delete_utxo_merkle_leaf op s = (s', r) → same_frame s s'.
Proof.
  unfold delete_utxo_merkle_leaf, require_transaction, bind, gets, guard, modify, throw, ret,
    same_frame.
  destruct (tx_active s) eqn:Ha; [|by intros [= <- _]].
  destruct (tx_batch s) as [b|] eqn:Hb; [|by intros [= <- _]].
  destruct (match b_merkle_indexed b !! op with Some i => Some i | None => _ end);
    [|by intros [= <- _]].
  destruct (update_merkle_path _ _ _ _ _) as [nodes root]. intros [= <- _]; simpl.
  rewrite ?Ha. split_and!; done.
Qed.

Lemma append_block_frame h bh s s' r : append_block h bh s = (s', r) → same_frame s s'.
Proof.
  unfold append_block, bind at 1 2 3. unfold require_transaction, bind at 1, gets, guard, ret, throw.
  destruct (tx_active s); [|by intros [= <- _]]. destruct (h =? tx_height s); [|by intros [= <- _]].
  apply with_batch_frame.
Qed.

Create HintDb store.
#[export] Hint Resolve append_block_frame with_batch_frame with_batch_strict_frame merkle_leaf_frame
  merkle_delete_frame : store.

Lemma store_write_frame `{PairHash} s s' : store_write s s' → same_frame s s'.
Proof. destruct 1; eauto with store. Qed.

Lemma same_frame_trans s1 s2 s3 : same_frame s1 s2 → same_frame s2 s3 → same_frame s1 s3.
Proof. unfold same_frame. intros (-> & -> & -> & ?) (-> & -> & -> & ?). naive_solver. Qed.

Lemma store_writes_frame `{PairHash} s s' : rtc store_write s s' → same_frame s s'.
Proof.
  induction 1; [done|]. eauto using same_frame_trans, store_write_frame.
Qed.

Lemma begin_block_ok h s s' u :
  begin_block h s = (s', Ok u) →
  db s' = db s ∧ in_block s' PendingBatch_new ∧ tx_height s' = h ∧
  h = match latest_height (db s) with Some h0 => wadd 64 h0 1 | None => 0 end.
Proof.
  unfold begin_block, bind, gets, guard, modify, ret, throw.
  destruct (tx_active s); [done|]. simpl.
  set (e := match latest_height (db s) with Some _ => _ | None => _ end).
  destruct (Z.eqb_spec h e); [|done]. intros [= <- _]. by unfold in_block.
Qed.

Lemma commit_block_run s b :
  in_block s b → commit_block s =
    ({| db := commit_tables (db s) b (tx_height s); tx_active := false;
        tx_height := tx_height s;
        tx_utxo_merkle_next_index := tx_utxo_merkle_next_index s; tx_batch := None |}, Ok tt).
Proof.
  intros [Ha Hb]. unfold commit_block, require_transaction, bind, gets, guard, modify.
  rewrite Ha. simpl. by rewrite ?Ha, Hb.
Qed.

Lemma rollback_block_run s b : in_block s b → rollback_block s = (set_tx false None s, Ok tt).
Proof.
  intros [Ha Hb]. unfold rollback_block, require_transaction, bind, gets, guard, modify.
  by rewrite Ha.
Qed.

(** A block is atomic.  From [begin_block] to its end, whatever the block
    writes, no read sees anything but the state before the block; rolling back
    restores that state and closes the block; committing applies the pending
    batch, and nothing else, and advances the height to the block's. *)
Theorem block_atomic `{PairHash} h s s1 s2 u :
  begin_block h s = (s1, Ok u) → rtc store_write s1 s2 →
  db s2 = db s ∧
  (∃ s3, rollback_block s2 = (s3, Ok tt) ∧ db s3 = db s ∧ tx_active s3 = false ∧
         tx_batch s3 = None) ∧
  (∃ s4 b, commit_block s2 = (s4, Ok tt) ∧ tx_batch s2 = Some b ∧
           db s4 = commit_tables (db s) b h ∧ latest_height (db s4) = Some h ∧
           tx_active s4 = false ∧ tx_batch s4 = None).
Proof.
  intros (Hdb & [Ha Hb] & Hh & _)%begin_block_ok Hw.
  apply store_writes_frame in Hw as (Hdb2 & Ha2 & Hh2 & Hb2).
  destruct Hb2 as [b Hb2]; [by rewrite Hb|].
  assert (in_block s2 b) as Hin by (split; congruence).
  rewrite <- Hdb, <- Hdb2. split_and!; [done| |].
  - rewrite (rollback_block_run _ _ Hin). by eexists.
  - rewrite (commit_block_run _ _ Hin). eexists _, b.
    split; [done|]. split_and!; simpl; congruence.
Qed.

(** A sequence of balance writes, and the value the last of them to [(t, a)]
    leaves there. *)
Fixpoint set_balances (ws : list (TokenId * Address * Z)) : SM unit :=
  match ws with
  | [] => ret tt
  | (t, a, v) :: ws' => set_token_balance t a v ;;; set_balances ws'
  end.

Fixpoint last_written (k : TokenId * Address) (ws : list (TokenId * Address * Z)) (old : Z) : Z :=
  match ws with
  | [] => old
  | (k', v) :: ws' => last_written k ws' (if bool_decide (k' = k) then v else old)
  end.

Definition balance_after (s : SledStore) (b : PendingBatch) (k : TokenId * Address) : Z :=
  default 0 (apply_batch (token_balances (db s)) (b_token_balances b) !! k).

Lemma set_balances_run ws s b :
  in_block s b →
  ∃ b', set_balances ws s = (set_tx true (Some b') s, Ok tt) ∧
    ∀ k, balance_after s b' k = last_written k ws (balance_after s b k).
Proof.
  revert s b. induction ws as [|[[t a] v] ws IH]; intros s b Hin; simpl.
  - exists b. split; [|done]. destruct s, Hin; simpl in *; by subst.
  - unfold set_token_balance. erewrite bind_step by apply (with_batch_run _ _ _ Hin).
    cbv beta. set (bv := upd_tokens _ _ _ _). destruct (IH (set_tx true (Some bv) s) bv) as (b' & Hrun & Hk);
      [done|]. exists b'. rewrite Hrun. split; [done|].
    intros k. rewrite (Hk k : balance_after s b' k = _). f_equal.
    unfold balance_after; simpl. rewrite !apply_batch_lookup. case_bool_decide; subst.
    + rewrite lookup_insert_eq. by destruct (Z.eqb_spec v 0) as [->|].
    + by rewrite lookup_insert_ne.
Qed.

(** Last write wins.  However many times a block writes a balance, reads in
    the block return the value before the block, and the commit leaves the last
    value written, or the old one where there was no write. *)
Theorem commit_reads_last_write h s s1 ws :
  begin_block h s = (s1, Ok tt) →
  ∃ s2 s3, set_balances ws s1 = (s2, Ok tt) ∧ commit_block s2 = (s3, Ok tt) ∧
  ∀ t a, get_token_balance t a s2 = get_token_balance t a s ∧
         get_token_balance t a s3 = last_written (t, a) ws (get_token_balance t a s).
Proof.
  intros (Hdb & Hin & Hh & _)%begin_block_ok.
  destruct (set_balances_run ws s1 _ Hin) as (b & Hrun & Hk). rewrite Hrun.
  eexists _, _. split; [done|]. rewrite (commit_block_run _ b) by done. split; [done|].
  intros t a. specialize (Hk (t, a)). unfold balance_after, get_token_balance in *. simpl.
  rewrite Hdb in *. split; [done|]. rewrite Hk. f_equal.
  by rewrite apply_batch_lookup.
Qed.

(** ** Concrete instances *)

Definition empty_tables : Tables := {|
  blocks_by_height := ∅; utxos := ∅; utxo_merkle_leaves := ∅; utxo_merkle_index := ∅; utxo_merkle_nodes := ∅;
  utxo_merkle_next := None; token_balances := ∅; token_nonces := ∅; token_contracts := ∅;
  token_supply := ∅; contract_code := ∅; contract_storage := ∅;
  wallets := ∅; cbe_economic_state := None; cbe_accounts := ∅; dao_stakes := ∅;
  latest_height := None |}.

Definition empty_store : SledStore :=
  {| db := empty_tables; tx_active := false; tx_height := 0;
     tx_utxo_merkle_next_index := 0; tx_batch := None |}.

Lemma block_atomic_witness :
  let H : PairHash := λ a b, a + b in
  ∃ s1 s2, begin_block 0 empty_store = (s1, Ok tt) ∧ rtc store_write s1 s2 ∧
    db s2 = empty_tables ∧ tx_batch s2 ≠ tx_batch s1.
Proof.
  intros H. set (s1 := (begin_block 0 empty_store).1).
  set (s2 := (set_token_balance 1 2 3 s1).1). exists s1, s2.
  assert (rtc store_write s1 s2) as Hw
    by (apply rtc_once, (write_balance 1 2 3 s1 s2 (Ok tt)); done).
  destruct (block_atomic 0 empty_store s1 s2 tt) as [Hdb _]; [done|exact Hw|].
  split_and!; [done|exact Hw|exact Hdb|done].
Defined.

Lemma commit_reads_last_write_witness :
  ∃ s2 s3, set_balances [(1, 2, 3); (1, 5, 4); (1, 2, 9)] (begin_block 0 empty_store).1 = (s2, Ok tt) ∧
    commit_block s2 = (s3, Ok tt) ∧ get_token_balance 1 2 s2 = 0 ∧ get_token_balance 1 2 s3 = 9.
Proof.
  destruct (commit_reads_last_write 0 empty_store (begin_block 0 empty_store).1
    [(1, 2, 3); (1, 5, 4); (1, 2, 9)]) as (s2 & s3 & H2 & H3 & Hr); [done|].
  exists s2, s3. destruct (Hr 1 2) as [Hr2 Hr3]. split_and!; [exact H2|exact H3|exact Hr2|exact Hr3].
Defined.
