(* ===== verification/Codec.v ===== *)
(** * Bonding-curve wire format (lib-blockchain transaction/bonding_curve_codec)

    The fixed-width payload of BUY_CBE and SELL_CBE transactions, 88 bytes:
    action, chain id, nonce, sender, and three 16-byte big-endian amounts.  A
    byte is a [Z] below 256; a 32-byte array is the number it writes big-endian,
    as in the rest of the development.

    The theorem: encoding and decoding are inverse bijections between the
    well-formed transactions and the 88-byte payloads that start with a known
    action byte, and every other payload is refused with the documented error. *)
From stdpp Require Import base tactics numbers list option.
From S2P Require Import Prelude CurveState.

Notation byte := Z (only parsing).

Notation is_byte := (in_u 8).

(** [to_be_bytes] and [from_be_bytes] of an integer of [n] bytes. *)
Fixpoint be_bytes (n : nat) (z : Z) : list byte :=
  match n with
  | O => []
  | S n' => be_bytes n' (z / 256) ++ [z mod 256]
  end.

Definition from_be_bytes (l : list byte) : Z := foldl (λ acc b, acc * 256 + b) 0 l.

(** [&payload[from..to]]. *)
Definition slice (from to : nat) (l : list byte) : list byte := take (to - from) (drop from l).

Definition BONDING_CURVE_TX_PAYLOAD_LEN : nat := 88.
Definition BONDING_CURVE_BUY_ACTION : Z := 1.
Definition BONDING_CURVE_SELL_ACTION : Z := 2.

Record BondingCurveBuyTx : Type := {
  buy_action : Z; buy_chain_id : Z; buy_nonce : Nonce48; buy_sender : Z;
  amount_in : Z; max_price : Z; buy_expected_s_c : Z;
}.

Record BondingCurveSellTx : Type := {
  sell_action : Z; sell_chain_id : Z; sell_nonce : Nonce48; sell_sender : Z;
  amount_cbe : Z; min_payout : Z; sell_expected_s_c : Z;
}.

Inductive CanonicalBondingCurveTx : Type :=
| Buy (tx : BondingCurveBuyTx)
| Sell (tx : BondingCurveSellTx).

Inductive BondingCurveCodecError : Type :=
| InvalidLength (len : nat)
| InvalidBuyAction (action : Z)
| InvalidSellAction (action : Z)
| UnknownAction (action : Z).

Definition bonding_curve_signed_region (payload : list byte)
    : result (list byte) BondingCurveCodecError :=
  if negb (length payload =? BONDING_CURVE_TX_PAYLOAD_LEN)%nat
  then Err (InvalidLength (length payload))
  else Ok (slice 0 88 payload).

Definition encode_bonding_curve_buy (tx : BondingCurveBuyTx) : list byte :=
  [buy_action tx; buy_chain_id tx] ++ nonce_bytes (buy_nonce tx) ++
  be_bytes 32 (buy_sender tx) ++ be_bytes 16 (amount_in tx) ++
  be_bytes 16 (max_price tx) ++ be_bytes 16 (buy_expected_s_c tx).

Definition decode_bonding_curve_buy (payload : list byte)
    : result BondingCurveBuyTx BondingCurveCodecError :=
  if negb (length payload =? BONDING_CURVE_TX_PAYLOAD_LEN)%nat
  then Err (InvalidLength (length payload)) else
  let action := nth 0 payload 0 in
  if negb (action =? BONDING_CURVE_BUY_ACTION) then Err (InvalidBuyAction action) else
  Ok {| buy_action := action; buy_chain_id := nth 1 payload 0;
        buy_nonce := {| nonce_bytes := slice 2 8 payload |};
        buy_sender := from_be_bytes (slice 8 40 payload);
        amount_in := from_be_bytes (slice 40 56 payload);
        max_price := from_be_bytes (slice 56 72 payload);
        buy_expected_s_c := from_be_bytes (slice 72 88 payload) |}.

Definition encode_bonding_curve_sell (tx : BondingCurveSellTx) : list byte :=
  [sell_action tx; sell_chain_id tx] ++ nonce_bytes (sell_nonce tx) ++
  be_bytes 32 (sell_sender tx) ++ be_bytes 16 (amount_cbe tx) ++
  be_bytes 16 (min_payout tx) ++ be_bytes 16 (sell_expected_s_c tx).

Definition decode_bonding_curve_sell (payload : list byte)
    : result BondingCurveSellTx BondingCurveCodecError :=
  if negb (length payload =? BONDING_CURVE_TX_PAYLOAD_LEN)%nat
  then Err (InvalidLength (length payload)) else
  let action := nth 0 payload 0 in
  if negb (action =? BONDING_CURVE_SELL_ACTION) then Err (InvalidSellAction action) else
  Ok {| sell_action := action; sell_chain_id := nth 1 payload 0;
        sell_nonce := {| nonce_bytes := slice 2 8 payload |};
        sell_sender := from_be_bytes (slice 8 40 payload);
        amount_cbe := from_be_bytes (slice 40 56 payload);
        min_payout := from_be_bytes (slice 56 72 payload);
        sell_expected_s_c := from_be_bytes (slice 72 88 payload) |}.

Definition encode_canonical_bonding_curve_tx (tx : CanonicalBondingCurveTx) : list byte :=
  match tx with
  | Buy tx => encode_bonding_curve_buy tx
  | Sell tx => encode_bonding_curve_sell tx
  end.

Definition canonical_curve_sender (tx : CanonicalBondingCurveTx) : Z :=
  match tx with Buy tx => buy_sender tx | Sell tx => sell_sender tx end.

Definition decode_canonical_bonding_curve_tx (payload : list byte)
    : result CanonicalBondingCurveTx BondingCurveCodecError :=
  if negb (length payload =? BONDING_CURVE_TX_PAYLOAD_LEN)%nat
  then Err (InvalidLength (length payload)) else
  let action := nth 0 payload 0 in
  if action =? BONDING_CURVE_BUY_ACTION then
    let? tx := decode_bonding_curve_buy payload in Ok (Buy tx)
  else if action =? BONDING_CURVE_SELL_ACTION then
    let? tx := decode_bonding_curve_sell payload in Ok (Sell tx)
  else Err (UnknownAction action).

(** The sender's key id signed the payload. *)
Definition envelope_signer_matches_sender (payload : list byte) (signer_key_id : Z)
    : result bool BondingCurveCodecError :=
  let? tx := decode_canonical_bonding_curve_tx payload in
  Ok (signer_key_id =? canonical_curve_sender tx).

(** ** Big-endian integers *)

Lemma be_bytes_length n z : length (be_bytes n z) = n.
Proof. revert z; induction n; intros z; simpl; [done|]. rewrite length_app, IHn; simpl; lia. Qed.

Lemma be_bytes_is_byte n z : Forall is_byte (be_bytes n z).
Proof.
  revert z; induction n; intros z; simpl; [done|].
  apply Forall_app; split; [done|]. apply list.Forall_singleton. unfold in_u, umax.
  pose proof (Z.mod_pos_bound z 256). lia.
Qed.

Lemma from_be_bytes_snoc l b : from_be_bytes (l ++ [b]) = from_be_bytes l * 256 + b.
Proof. unfold from_be_bytes. by rewrite foldl_app. Qed.

Lemma pow_256_S n : 2 ^ (8 * Z.of_nat (S n)) = 256 * 2 ^ (8 * Z.of_nat n).
Proof. rewrite Nat2Z.inj_succ, Z.mul_succ_r, Z.pow_add_r by lia. change (2 ^ 8) with 256. lia. Qed.

Lemma from_be_bytes_be n z :
  in_u (8 * Z.of_nat n) z → from_be_bytes (be_bytes n z) = z.
Proof.
  unfold in_u, umax. revert z; induction n; intros z Hz.
  - unfold from_be_bytes; simpl in *. lia.
  - cbn [be_bytes]. rewrite from_be_bytes_snoc, IHn.
    + pose proof (Z.div_mod z 256); lia.
    + rewrite pow_256_S in Hz. pose proof (Z.div_lt_upper_bound z 256 (2 ^ (8 * Z.of_nat n))).
      pose proof (Z.div_pos z 256). lia.
Qed.

Lemma be_bytes_from_be l :
  Forall is_byte l →
  be_bytes (length l) (from_be_bytes l) = l ∧
  in_u (8 * Z.of_nat (length l)) (from_be_bytes l).
Proof.
  unfold in_u, umax. induction l as [|b l IH] using rev_ind; [done|].
  intros [Hl Hb]%Forall_app. destruct (IH Hl) as [IHl IHr].
  inversion_clear Hb as [|? ? Hb' _]. unfold in_u, umax in Hb'. rewrite length_app, from_be_bytes_snoc. simpl length.
  rewrite Nat.add_1_r, pow_256_S. set (P := 2 ^ _) in *. split; [|lia]. cbn [be_bytes].
  rewrite Z.div_add_l, Z.div_small, Z.add_0_r, IHl by lia.
  f_equal. f_equal. rewrite Z.add_comm, Z.mod_add, Z.mod_small; lia.
Qed.

#[global] Arguments be_bytes : simpl never.
#[global] Arguments from_be_bytes : simpl never.

(** ** The fixed offsets *)

Lemma slice_length i j p : (j <= length p)%nat → length (slice i j p) = (j - i)%nat.
Proof. unfold slice. rewrite length_take, length_drop. lia. Qed.

Lemma slice_is_byte i j p : Forall is_byte p → Forall is_byte (slice i j p).
Proof. unfold slice. intros. by apply Forall_take, Forall_drop. Qed.

Lemma slice_mid a b c i j :
  length a = i → (i <= j)%nat → length b = (j - i)%nat → slice i j (a ++ b ++ c) = b.
Proof.
  intros <- Hij Hb. unfold slice. rewrite drop_app_length, take_app_le by lia.
  apply take_ge. lia.
Qed.

Lemma slice_join i j k p :
  (i <= j)%nat → (j <= k)%nat → slice i j p ++ slice j k p = slice i k p.
Proof.
  intros. unfold slice. replace (k - i)%nat with (j - i + (k - j))%nat by lia.
  rewrite <- take_take_drop, drop_drop. do 3 f_equal. lia.
Qed.

Lemma payload_split p :
  length p = 88%nat →
  p = [nth 0 p 0; nth 1 p 0] ++ slice 2 8 p ++ slice 8 40 p ++ slice 40 56 p ++
      slice 56 72 p ++ slice 72 88 p.
Proof.
  intros Hp. rewrite !slice_join by lia. destruct p as [|a [|c p]]; [done..|]. simpl in Hp.
  unfold slice. simpl. rewrite drop_0. by rewrite take_ge by lia.
Qed.

Lemma payload_fields a c n s x y z :
  length n = 6%nat → length s = 32%nat → length x = 16%nat → length y = 16%nat →
  length z = 16%nat →
  let p := [a; c] ++ n ++ s ++ x ++ y ++ z in
  length p = 88%nat ∧ slice 2 8 p = n ∧ slice 8 40 p = s ∧ slice 40 56 p = x ∧
  slice 56 72 p = y ∧ slice 72 88 p = z.
Proof.
  intros Hn Hs Hx Hy Hz p. unfold p. split_and!.
  - rewrite !length_app. simpl. lia.
  - apply slice_mid; simpl; lia.
  - rewrite (app_assoc [a; c]). apply slice_mid; rewrite ?length_app; simpl; lia.
  - rewrite (app_assoc [a; c]), (app_assoc _ s). apply slice_mid; rewrite ?length_app; simpl; lia.
  - rewrite (app_assoc [a; c]), (app_assoc _ s), (app_assoc _ x).
    apply slice_mid; rewrite ?length_app; simpl; lia.
  - rewrite (app_assoc [a; c]), (app_assoc _ s), (app_assoc _ x), (app_assoc _ y).
    rewrite <- (app_nil_r z) at 1. apply slice_mid; rewrite ?length_app; simpl; lia.
Qed.

(** ** The codec *)

Definition wf_buy_tx (tx : BondingCurveBuyTx) : Prop :=
  buy_action tx = BONDING_CURVE_BUY_ACTION ∧ is_byte (buy_chain_id tx) ∧
  wf_nonce (buy_nonce tx) ∧ in_u 256 (buy_sender tx) ∧ in_u 128 (amount_in tx) ∧
  in_u 128 (max_price tx) ∧ in_u 128 (buy_expected_s_c tx).

Definition wf_sell_tx (tx : BondingCurveSellTx) : Prop :=
  sell_action tx = BONDING_CURVE_SELL_ACTION ∧ is_byte (sell_chain_id tx) ∧
  wf_nonce (sell_nonce tx) ∧ in_u 256 (sell_sender tx) ∧ in_u 128 (amount_cbe tx) ∧
  in_u 128 (min_payout tx) ∧ in_u 128 (sell_expected_s_c tx).

Definition wf_curve_tx (tx : CanonicalBondingCurveTx) : Prop :=
  match tx with Buy tx => wf_buy_tx tx | Sell tx => wf_sell_tx tx end.

Lemma decode_encode_buy tx :
  wf_buy_tx tx → decode_bonding_curve_buy (encode_bonding_curve_buy tx) = Ok tx ∧
    length (encode_bonding_curve_buy tx) = 88%nat.
Proof.
  intros (Ha & Hc & [Hn _] & Hs & Hx & Hy & Hz).
  destruct (payload_fields (buy_action tx) (buy_chain_id tx) (nonce_bytes (buy_nonce tx))
    (be_bytes 32 (buy_sender tx)) (be_bytes 16 (amount_in tx)) (be_bytes 16 (max_price tx))
    (be_bytes 16 (buy_expected_s_c tx))) as (H0 & H1 & H2 & H3 & H4 & H5);
    try done; try apply be_bytes_length.
  fold (encode_bonding_curve_buy tx) in *. split; [|done].
  unfold decode_bonding_curve_buy. rewrite H0, H1, H2, H3, H4, H5. simpl.
  rewrite Ha; simpl. rewrite !from_be_bytes_be by done. destruct tx as [? ? [] ? ? ? ?].
  simpl in *. by rewrite Ha.
Qed.

Lemma decode_encode_sell tx :
  wf_sell_tx tx → decode_bonding_curve_sell (encode_bonding_curve_sell tx) = Ok tx ∧
    length (encode_bonding_curve_sell tx) = 88%nat.
Proof.
  intros (Ha & Hc & [Hn _] & Hs & Hx & Hy & Hz).
  destruct (payload_fields (sell_action tx) (sell_chain_id tx) (nonce_bytes (sell_nonce tx))
    (be_bytes 32 (sell_sender tx)) (be_bytes 16 (amount_cbe tx)) (be_bytes 16 (min_payout tx))
    (be_bytes 16 (sell_expected_s_c tx))) as (H0 & H1 & H2 & H3 & H4 & H5);
    try done; try apply be_bytes_length.
  fold (encode_bonding_curve_sell tx) in *. split; [|done].
  unfold decode_bonding_curve_sell. rewrite H0, H1, H2, H3, H4, H5. simpl.
  rewrite Ha; simpl. rewrite !from_be_bytes_be by done. destruct tx as [? ? [] ? ? ? ?].
  simpl in *. by rewrite Ha.
Qed.

Lemma slice_be i j p (n : nat) :
  Forall is_byte p → (j <= length p)%nat → n = (j - i)%nat →
  be_bytes n (from_be_bytes (slice i j p)) = slice i j p ∧
  in_u (8 * Z.of_nat n) (from_be_bytes (slice i j p)).
Proof.
  intros Hp Hj ->. rewrite <- (slice_length i j p Hj).
  by apply be_bytes_from_be, slice_is_byte.
Qed.

(** What a payload of 88 bytes holds at the fixed offsets. *)
Lemma payload_parts p :
  length p = 88%nat → Forall is_byte p →
  is_byte (nth 1 p 0) ∧ wf_nonce {| nonce_bytes := slice 2 8 p |} ∧
  in_u 256 (from_be_bytes (slice 8 40 p)) ∧ in_u 128 (from_be_bytes (slice 40 56 p)) ∧
  in_u 128 (from_be_bytes (slice 56 72 p)) ∧ in_u 128 (from_be_bytes (slice 72 88 p)) ∧
  p = [nth 0 p 0; nth 1 p 0] ++ slice 2 8 p ++ be_bytes 32 (from_be_bytes (slice 8 40 p)) ++
      be_bytes 16 (from_be_bytes (slice 40 56 p)) ++
      be_bytes 16 (from_be_bytes (slice 56 72 p)) ++
      be_bytes 16 (from_be_bytes (slice 72 88 p)).
Proof.
  intros Hl Hp.
  destruct (slice_be 8 40 p 32) as [E1 R1], (slice_be 40 56 p 16) as [E2 R2],
    (slice_be 56 72 p 16) as [E3 R3], (slice_be 72 88 p 16) as [E4 R4]; try done; try lia.
  rewrite E1, E2, E3, E4. split_and!; try done.
  - destruct p as [|a [|c p]]; [done..|]. apply list.Forall_cons in Hp as [_ [Hc _]%list.Forall_cons].
    exact Hc.
  - split; simpl; [rewrite slice_length; lia|by apply slice_is_byte].
  - by apply payload_split.
Qed.

(** C38: encoding and decoding of the curve payload are inverse.  A well-formed
    transaction is decoded from its encoding; a payload of 88 bytes whose first
    is a known action decodes to a well-formed transaction that encodes back to
    it; any other payload is refused, for its length first. *)
Theorem curve_codec_bijective :
  (∀ tx, wf_curve_tx tx →
     decode_canonical_bonding_curve_tx (encode_canonical_bonding_curve_tx tx) = Ok tx) ∧
  (∀ p, Forall is_byte p →
     match decode_canonical_bonding_curve_tx p with
     | Ok tx => wf_curve_tx tx ∧ encode_canonical_bonding_curve_tx tx = p
     | Err (InvalidLength n) => n = length p ∧ n ≠ 88%nat
     | Err (UnknownAction a) =>
         length p = 88%nat ∧ a = nth 0 p 0 ∧ a ≠ BONDING_CURVE_BUY_ACTION ∧
         a ≠ BONDING_CURVE_SELL_ACTION
     | Err _ => False
     end).
Proof.
  split.
  - intros [tx|tx] Hwf; unfold decode_canonical_bonding_curve_tx, encode_canonical_bonding_curve_tx.
    + destruct (decode_encode_buy tx Hwf) as [-> ->].
      change (nth 0 (encode_bonding_curve_buy tx) 0) with (buy_action tx). by rewrite (proj1 Hwf).
    + destruct (decode_encode_sell tx Hwf) as [-> ->].
      change (nth 0 (encode_bonding_curve_sell tx) 0) with (sell_action tx). by rewrite (proj1 Hwf).
  - intros p Hp. unfold decode_canonical_bonding_curve_tx, decode_bonding_curve_buy,
      decode_bonding_curve_sell, BONDING_CURVE_TX_PAYLOAD_LEN.
    destruct (Nat.eqb_spec (length p) 88) as [Hl|]; [|done]. cbv beta iota zeta delta [negb].
    destruct (payload_parts p Hl Hp) as (Hc & Hn & H1 & H2 & H3 & H4 & Heq).
    destruct (Z.eqb_spec (nth 0 p 0) BONDING_CURVE_BUY_ACTION) as [Hb|Hb];
      [|destruct (Z.eqb_spec (nth 0 p 0) BONDING_CURVE_SELL_ACTION) as [Hs|Hs]; [|done]].
    + by split; [|symmetry].
    + by split; [|symmetry].
Qed.

Lemma curve_codec_bijective_witness :
  let tx := Buy {| buy_action := 1; buy_chain_id := 3;
    buy_nonce := {| nonce_bytes := [1; 2; 3; 4; 5; 6] |}; buy_sender := 17;
    amount_in := 7; max_price := 8; buy_expected_s_c := 9 |} in
  decode_canonical_bonding_curve_tx (encode_canonical_bonding_curve_tx tx) = Ok tx.
Proof.
  intros tx. destruct curve_codec_bijective as [Hrt _]. apply Hrt.
  unfold tx, wf_curve_tx, wf_buy_tx, wf_nonce, in_u, umax; simpl.
  split_and!; try done. repeat constructor; lia.
Defined.
