(* ===== verification/Ledger.v ===== *)
(** * Ledger primitives (lib-blockchain execution/tx_apply)

    [StateMutator] and the transaction applicators of
    [lib-blockchain/src/execution/tx_apply.rs] over the block store of
    [Store.v]: spending and creating UTXOs, debiting and crediting token
    balances, native transfers, token transfers with the protocol fee, mints
    and coinbase.  A mutator wraps the store; its methods are programs on the
    store's state.  32-byte hashes, addresses and token ids are numbers, the
    all-zero array is 0.  The text interpolated into error messages is left
    out.

    The theorems: a native transfer removes its inputs, creates its outputs and
    destroys exactly the fee; a coinbase creates exactly the reward and the
    fees; a token transfer moves the amount less the fee, and conserves the
    supply when the three parties differ.  The hypothesis is needed: the
    balances and UTXOs read are those before the block, so a transfer to
    oneself creates tokens and one UTXO can be spent twice in a block. *)
From stdpp Require Import base tactics numbers list option gmap fin_maps strings.
From S2P Require Import Prelude Curve CurveState Merkle TokenCore Store.

Inductive TxApplyError : Type :=
| InvalidVersion (version : Z)
| InvalidType (msg : string)
| UnsupportedType (msg : string)
| EmptyInputs
| EmptyOutputs
| InvalidSignature
| DuplicateInput (op : OutPoint)
| InsufficientFee (required paid : Z)
| UtxoNotFound (op : OutPoint)
| UtxoAlreadySpent (op : OutPoint)
| ValueMismatch (inputs outputs fee : Z)
| InsufficientInputs (have need : Z)
| Overflow
| ZeroAmountOutput (index : nat)
| InsufficientBalance (have need : Z) (token : TokenId)
| TokenNotFound (token : TokenId)
| InvalidTokenAmount (msg : string)
| InvalidNonce (expected actual : Z)
| AccountNotFound (addr : Address)
| Unauthorized (msg : string)
| MissingField (msg : string)
| StorageErr (e : StorageError)       (* Storage *)
| Internal (msg : string).

Notation TM := (M SledStore TxApplyError) (only parsing).

(** [?] on a storage result: [From<StorageError> for TxApplyError]. *)
Definition storage {A : Type} (m : M SledStore StorageError A) : TM A :=
  λ s, match m s with
       | (s', Ok a) => (s', Ok a)
       | (s', Err e) => (s', Err (StorageErr e))
       end.

(** A proof as far as the node inspects it; its verification is a parameter of the
    block executor. *)
Record ZkProof : Type := {
  proof_data : list Z; public_inputs : list Z; verification_key : list Z;
  backend_proof : option Z;
}.

Record ZkTransactionProof : Type := {
  amount_proof : ZkProof; balance_proof : ZkProof; nullifier_proof : ZkProof;
}.

(** The parts of a transaction's inputs and outputs the node reads. *)
Record TransactionInput : Type := {
  previous_output : Z; output_index : Z; zk_proof : ZkTransactionProof;
}.
Record TransactionOutput : Type := { recipient_key_id : Z; output_merkle_leaf : Z }.

Definition outpoint_of (i : TransactionInput) : OutPoint := (previous_output i, output_index i).

Record TransferOutcome : Type := {
  inputs_spent : nat; outputs_created : nat; total_value : Z; outcome_fee : Z;
}.

Record CoinbaseOutcome : Type := {
  cb_outputs_created : nat; total_reward : Z; cb_fees_collected : Z; fee_sink_credited : bool;
}.

Definition NATIVE : TokenId := 0.
Definition ADDRESS_ZERO : Address := 0.

Section Mutator.
Context `{PairHash}.

(** ** UTXO primitives *)

Definition spend_utxo (op : OutPoint) : TM Utxo :=
  found <- gets (get_utxo op) ;;
  match found with
  | None => throw (UtxoNotFound op)
  | Some utxo =>
      storage (delete_utxo op) ;;;
      (if bool_decide (is_Some (merkle_leaf utxo)) then storage (delete_utxo_merkle_leaf op)
       else ret tt) ;;;
      ret utxo
  end.

Definition create_utxo (op : OutPoint) (u : Utxo) : TM unit :=
  storage (put_utxo op u) ;;;
  match merkle_leaf u with
  | Some leaf => storage (put_utxo_merkle_leaf op leaf) ;;; ret tt
  | None => ret tt
  end.

(** The UTXO an output becomes. *)
Definition output_utxo (o : TransactionOutput) (amount block_height : Z) : Utxo := {|
  utxo_amount := amount; owner := recipient_key_id o; token := NATIVE;
  created_at_height := block_height; script := None;
  merkle_leaf := if output_merkle_leaf o =? 0 then None else Some (output_merkle_leaf o) |}.

Fixpoint create_utxos_loop (tx_hash : Z) (index : nat)
    (outs : list (TransactionOutput * Z)) (block_height : Z) : TM unit :=
  match outs with
  | [] => ret tt
  | (o, amount) :: outs' =>
      create_utxo (tx_hash, as_u 32 (Z.of_nat index)) (output_utxo o amount block_height) ;;;
      create_utxos_loop tx_hash (S index) outs' block_height
  end.

Definition create_utxos_with_amounts (tx_hash : Z) (outs : list TransactionOutput)
    (amounts : list Z) (block_height : Z) : TM unit :=
  guard (length outs =? length amounts)%nat
    (Internal "Output count doesn't match amount count") ;;;
  create_utxos_loop tx_hash 0 (zip outs amounts) block_height.

(** ** Token balance primitives *)

Definition debit_token (t : TokenId) (addr : Address) (amount : Z) : TM unit :=
  if amount =? 0 then ret tt else
  current <- gets (get_token_balance t addr) ;;
  guard (amount <=? current) (InsufficientBalance current amount t) ;;;
  storage (set_token_balance t addr (wsub 128 current amount)).

Definition credit_token (t : TokenId) (addr : Address) (amount : Z) : TM unit :=
  if amount =? 0 then ret tt else
  current <- gets (get_token_balance t addr) ;;
  new_balance <- lift (ok_or (checked_add 128 current amount)
                        (InvalidTokenAmount "Token balance overflow")) ;;
  storage (set_token_balance t addr new_balance).

Definition deflationary_burn (t : TokenId) (amount : Z) (s : SledStore) : Z :=
  match get_token_contract t s with
  | Some c =>
      if is_deflationary c && (0 <? burn_rate c) then wmul 128 amount (burn_rate c) / 10000
      else 0
  | None => 0
  end.

Definition transfer_token (t : TokenId) (from to : Address) (amount : Z) : TM unit :=
  burn <- gets (deflationary_burn t amount) ;;
  if 0 <? burn then
    debit_token t from amount ;;;
    credit_token t to (saturating_sub amount burn) ;;;
    supply <- gets (get_token_supply t) ;;
    match supply with
    | Some supply => storage (put_token_supply t (saturating_sub supply burn))
    | None => ret tt
    end
  else
    debit_token t from amount ;;;
    credit_token t to amount.

Definition increment_token_nonce (t : TokenId) (sender : Address) : TM Z :=
  storage (store_increment_token_nonce t sender).

(** ** Transaction applicators *)

(** The first input that repeats an earlier one, the [HashSet] loop. *)
Fixpoint first_duplicate (seen ops : list OutPoint) : option OutPoint :=
  match ops with
  | [] => None
  | op :: ops' =>
      if bool_decide (op ∈ seen) then Some op else first_duplicate (op :: seen) ops'
  end.

Fixpoint spend_inputs (ops : list OutPoint) (total_input : Z) : TM Z :=
  match ops with
  | [] => ret total_input
  | op :: ops' =>
      utxo <- spend_utxo op ;;
      total <- lift (ok_or (checked_add 128 total_input (utxo_amount utxo)) Overflow) ;;
      spend_inputs ops' total
  end.

Fixpoint create_outputs (tx_hash block_height per_output remainder : Z) (index : nat)
    (outs : list TransactionOutput) (total_output : Z) : TM Z :=
  match outs with
  | [] => ret total_output
  | o :: outs' =>
      amount <- (if (index =? 0)%nat
                 then lift (ok_or (checked_add 128 per_output remainder) Overflow)
                 else ret per_output) ;;
      guard (negb (amount =? 0)) (ZeroAmountOutput index) ;;;
      create_utxo (tx_hash, as_u 32 (Z.of_nat index)) (output_utxo o amount block_height) ;;;
      total <- lift (ok_or (checked_add 128 total_output amount) Overflow) ;;
      create_outputs tx_hash block_height per_output remainder (S index) outs' total
  end.

Definition apply_native_transfer (ins : list TransactionInput) (outs : list TransactionOutput)
    (tx_fee tx_hash block_height : Z) : TM TransferOutcome :=
  guard (negb (bool_decide (outs = []))) EmptyOutputs ;;;
  let ops := outpoint_of <$> ins in
  match first_duplicate [] ops with
  | Some op => throw (DuplicateInput op)
  | None =>
      total_input <- spend_inputs ops 0 ;;
      guard (tx_fee <=? total_input) (InsufficientInputs total_input tx_fee) ;;;
      let available := wsub 128 total_input tx_fee in
      let output_count := Z.of_nat (length outs) in
      let amount_per_output := available / output_count in
      let remainder := available mod output_count in
      guard (negb ((amount_per_output =? 0) && (1 <? output_count)))
        (InsufficientInputs available output_count) ;;;
      total_output <- create_outputs tx_hash block_height amount_per_output remainder 0 outs 0 ;;
      reconstructed <- lift (ok_or (checked_add 128 total_output tx_fee) Overflow) ;;
      guard (reconstructed =? total_input) (ValueMismatch total_input total_output tx_fee) ;;;
      ret {| inputs_spent := length ins; outputs_created := length outs;
             total_value := total_output; outcome_fee := tx_fee |}
  end.

Definition apply_token_transfer (t : TokenId) (from to : Address) (amount fee_bps : Z)
    (fee_destination : Address) : TM Z :=
  let fee_amount :=
    if (0 <? fee_bps) && negb (fee_destination =? ADDRESS_ZERO)
    then wmul 128 amount fee_bps / 10000 else 0 in
  let net_amount := saturating_sub amount fee_amount in
  debit_token t from amount ;;;
  credit_token t to net_amount ;;;
  (if 0 <? fee_amount then credit_token t fee_destination fee_amount else ret tt) ;;;
  ret fee_amount.

Definition apply_token_mint (t : TokenId) (to : Address) (amount : Z) : TM unit :=
  credit_token t to amount.

(** One pass over the outputs; [reward_index] counts the reward outputs so far. *)
Fixpoint coinbase_loop (tx_hash block_height fees_collected : Z) (fee_sink : Address)
    (per_output remainder : Z) (index : nat) (reward_index : Z)
    (outs : list TransactionOutput) (total_output : Z) : TM Z :=
  match outs with
  | [] => ret total_output
  | o :: outs' =>
      let is_sink := (recipient_key_id o =? fee_sink) && (0 <? fees_collected) in
      let amount := if is_sink then fees_collected
                    else if reward_index =? 0 then wadd 128 per_output remainder
                    else per_output in
      let reward_index' := if is_sink then reward_index else reward_index + 1 in
      create_utxo (tx_hash, as_u 32 (Z.of_nat index)) (output_utxo o amount block_height) ;;;
      total <- lift (ok_or (checked_add 128 total_output amount) Overflow) ;;
      coinbase_loop tx_hash block_height fees_collected fee_sink per_output remainder
        (S index) reward_index' outs' total
  end.

Definition apply_coinbase (ins : list TransactionInput) (outs : list TransactionOutput)
    (tx_hash block_height block_reward fees_collected : Z) (fee_sink : Address)
    : TM CoinbaseOutcome :=
  guard (bool_decide (ins = [])) (InvalidType "Coinbase transaction must have no inputs") ;;;
  guard (negb (bool_decide (outs = []))) (Internal "Coinbase must have outputs") ;;;
  expected_total <- lift (ok_or (checked_add 128 block_reward fees_collected) Overflow) ;;
  let fee_sink_output_found := existsb (λ o, recipient_key_id o =? fee_sink) outs in
  guard (negb ((0 <? fees_collected) && negb fee_sink_output_found))
    (MissingField "Coinbase must include fee sink output for collected fees") ;;;
  let reward_output_count :=
    if 0 <? fees_collected then saturating_sub (Z.of_nat (length outs)) 1
    else Z.of_nat (length outs) in
  guard (negb ((0 <? reward_output_count) && (block_reward <? reward_output_count)))
    (MissingField "block reward is insufficient to fund each reward output") ;;;
  let per_output := if 0 <? reward_output_count then block_reward / reward_output_count else 0 in
  let remainder := if 0 <? reward_output_count then block_reward mod reward_output_count else 0 in
  total_output <- coinbase_loop tx_hash block_height fees_collected fee_sink per_output
                    remainder 0 0 outs 0 ;;
  guard (total_output =? expected_total) (ValueMismatch expected_total total_output 0) ;;;
  ret {| cb_outputs_created := length outs; total_reward := block_reward;
         cb_fees_collected := fees_collected;
         fee_sink_credited := fee_sink_output_found && (0 <? fees_collected) |}.

End Mutator.

(** ** The state a block is about to commit *)

Definition open (s : SledStore) : Prop := tx_active s = true ∧ is_Some (tx_batch s).

Definition batch_of (s : SledStore) : PendingBatch := default PendingBatch_new (tx_batch s).

Definition pending_utxos (s : SledStore) : gmap OutPoint (option Utxo) := b_utxos (batch_of s).

(** The UTXO set and the balances as they would be if the block were committed
    now. *)
Definition view_utxos (s : SledStore) : gmap OutPoint Utxo :=
  apply_batch (utxos (db s)) (pending_utxos s).

Definition view_balances (s : SledStore) : gmap (TokenId * Address) Z :=
  apply_batch (token_balances (db s)) (b_token_balances (batch_of s)).

(** The value of a set of UTXOs. *)
Definition utxo_value (m : gmap OutPoint Utxo) : Z := msum (λ _ u, utxo_amount u) m.

(** A step of the open block that leaves the committed state alone and turns the
    batch [b] into one satisfying [Q b]. *)
Definition batch_step (Q : PendingBatch → PendingBatch → Prop) (s s' : SledStore) : Prop :=
  open s' ∧ db s' = db s ∧ tx_height s' = tx_height s ∧ Q (batch_of s) (batch_of s').

Lemma storage_ok {A : Type} (m : M SledStore StorageError A) s s' a :
  storage m s = (s', Ok a) ↔ m s = (s', Ok a).
Proof. unfold storage. destruct (m s) as [? [?|?]]; naive_solver. Qed.

Lemma with_batch_open f s s' r :
  open s → with_batch f s = (s', r) → r = Ok tt ∧ batch_step (λ b b', b' = f b) s s'.
Proof.
  intros [Ha [b Hb]] Hw. rewrite (with_batch_run f s b) in Hw by done. simplify_eq.
  unfold batch_step, open, batch_of; simpl. rewrite Hb. split_and!; try done; by eexists.
Qed.

Lemma with_batch_strict_open f s s' r :
  open s → with_batch_strict f s = (s', r) → r = Ok tt ∧ batch_step (λ b b', b' = f b) s s'.
Proof.
  intros [Ha [b Hb]] Hw. rewrite (with_batch_strict_run f s b) in Hw by done. simplify_eq.
  unfold batch_step, open, batch_of; simpl. rewrite Hb. split_and!; try done; by eexists.
Qed.

(** A commit makes the pending batch the committed state. *)
Lemma commit_db s s' u :
  open s → commit_block s = (s', Ok u) → db s' = commit_tables (db s) (batch_of s) (tx_height s).
Proof.
  intros [Ha [b Hb]] Hc. rewrite (commit_block_run s b) in Hc by done. simplify_eq. cbn.
  unfold batch_of. by rewrite Hb.
Qed.

Definition merkle_change (b b' : PendingBatch) : Prop :=
  ∃ l i x n k, b' = upd_merkle l i x n k b.

Lemma put_leaf_open `{PairHash} op leaf s s' r :
  open s → put_utxo_merkle_leaf op leaf s = (s', Ok r) → batch_step merkle_change s s'.
Proof.
  intros [Ha [b Hb]]. unfold put_utxo_merkle_leaf, require_transaction, bind, gets, guard,
    modify, throw, ret. rewrite Ha, Hb.
  destruct (negb _); [|done]. destruct (negb _); [|done].
  destruct (update_merkle_path _ _ _ _ _) as [nodes root]. intros [= <- _].
  unfold batch_step, open, batch_of, merkle_change; simpl. rewrite Ha, Hb.
  split_and!; try done. simpl. eauto 10.
Qed.

Lemma delete_leaf_open `{PairHash} op s s' r :
  open s → delete_utxo_merkle_leaf op s = (s', Ok r) → batch_step merkle_change s s'.
Proof.
  intros [Ha [b Hb]]. unfold delete_utxo_merkle_leaf, require_transaction, bind, gets, guard,
    modify, throw, ret. rewrite Ha, Hb.
  destruct (match b_merkle_indexed b !! op with Some i => Some i | None => _ end).
  - destruct (update_merkle_path _ _ _ _ _) as [nodes root]. intros [= <- _].
    unfold batch_step, open, batch_of, merkle_change; simpl. rewrite Ha, Hb.
    split_and!; try done. simpl. eauto 10.
  - intros [= <- _]. split_and!; try done. unfold batch_of, merkle_change. rewrite Hb. simpl.
    destruct b. by eexists _, _, _, _, _.
Qed.

(** Only the UTXO side of the batch changed, its UTXO map to [g]. *)
Definition utxo_change (f : gmap OutPoint (option Utxo) → gmap OutPoint (option Utxo))
    (b b' : PendingBatch) : Prop :=
  b_utxos b' = f (b_utxos b) ∧ b_token_balances b' = b_token_balances b ∧
  b_token_nonces b' = b_token_nonces b ∧ b_token_supply b' = b_token_supply b.

Lemma spend_utxo_ok `{PairHash} op s s' u :
  open s → spend_utxo op s = (s', Ok u) →
  utxos (db s) !! op = Some u ∧ batch_step (utxo_change <[op := None]>) s s'.
Proof.
  intros Ho Hs. unfold spend_utxo, get_utxo in Hs.
  apply bind_ok in Hs as (s0 & found & [-> ->]%gets_ok & Hs).
  destruct (utxos (db _) !! op) as [v|] eqn:Hv; [|done].
  apply bind_ok in Hs as (s1 & [] & Hdel & (s2 & [] & Hleaf & [-> ->]%ret_ok)%bind_ok).
  apply storage_ok, with_batch_open in Hdel as [_ (Ho1 & Hd1 & Hh1 & Hb1)]; [|done].
  assert (batch_step merkle_change s1 s2) as (Ho2 & Hd2 & Hh2 & (l & i & x' & n & k & Hb2)).
  { case_bool_decide; monad_inv; [by eapply delete_leaf_open, storage_ok|].
    split_and!; try done. unfold merkle_change. destruct (batch_of _). by eexists _, _, _, _, _. }
  split; [done|]. split_and!; try done; try congruence. by rewrite Hb2, Hb1.
Qed.

Lemma create_utxo_ok `{PairHash} op u s s' r :
  open s → create_utxo op u s = (s', Ok r) →
  batch_step (utxo_change <[op := Some u]>) s s'.
Proof.
  intros Ho Hs. unfold create_utxo in Hs. apply bind_ok in Hs as (s1 & [] & Hput & Hleaf).
  apply storage_ok, with_batch_open in Hput as [_ (Ho1 & Hd1 & Hh1 & Hb1)]; [|done].
  assert (batch_step merkle_change s1 s') as (Ho2 & Hd2 & Hh2 & (l & i & x' & n & k & Hb2)).
  { destruct (merkle_leaf u) as [leaf|].
    - apply bind_ok in Hleaf as (s2 & idx & Hleaf & [-> _]%ret_ok).
      by eapply put_leaf_open, storage_ok.
    - apply ret_ok in Hleaf as [-> _]. split_and!; try done. unfold merkle_change.
      destruct (batch_of _). by eexists _, _, _, _, _. }
  split_and!; try done; try congruence. by rewrite Hb2, Hb1.
Qed.

Lemma utxo_step_trans f g s1 s2 s3 :
  batch_step (utxo_change f) s1 s2 → batch_step (utxo_change g) s2 s3 →
  batch_step (utxo_change (λ m, g (f m))) s1 s3.
Proof.
  intros (? & ? & ? & Hf & ? & ? & ?) (? & ? & ? & Hg & ? & ? & ?).
  unfold batch_step, utxo_change. split_and!; try done; congruence.
Qed.

Lemma utxo_step_refl s : open s → batch_step (utxo_change (λ m, m)) s s.
Proof. by intros. Qed.

(** ** Values of the pending UTXO set *)

Definition spends (ops : list OutPoint) (b : gmap OutPoint (option Utxo))
    : gmap OutPoint (option Utxo) := foldl (λ b op, <[op := None]> b) b ops.

Fixpoint creates (tx_hash : Z) (index : nat) (us : list Utxo)
    (b : gmap OutPoint (option Utxo)) : gmap OutPoint (option Utxo) :=
  match us with
  | [] => b
  | u :: us' =>
      creates tx_hash (S index) us' (<[(tx_hash, as_u 32 (Z.of_nat index)) := Some u]> b)
  end.

Section Values.
Implicit Types (m : gmap OutPoint Utxo) (b : gmap OutPoint (option Utxo)).

Lemma apply_batch_insert m b op u :
  apply_batch m (<[op := Some u]> b) = <[op := u]> (apply_batch m b).
Proof.
  apply map_eq. intros op'. rewrite apply_batch_lookup. destruct (decide (op = op')) as [->|].
  - by rewrite !lookup_insert_eq.
  - by rewrite !lookup_insert_ne, apply_batch_lookup.
Qed.

Lemma apply_batch_delete m b op :
  apply_batch m (<[op := None]> b) = delete op (apply_batch m b).
Proof.
  apply map_eq. intros op'. rewrite apply_batch_lookup. destruct (decide (op = op')) as [->|].
  - by rewrite lookup_insert_eq, lookup_delete_eq.
  - by rewrite lookup_insert_ne, lookup_delete_ne, apply_batch_lookup.
Qed.

Lemma spends_value m b ops us :
  NoDup ops → Forall2 (λ op u, apply_batch m b !! op = Some u) ops us →
  utxo_value (apply_batch m (spends ops b)) =
    utxo_value (apply_batch m b) - sumZ (utxo_amount <$> us) ∧
  ∀ op, apply_batch m (spends ops b) !! op =
    if bool_decide (op ∈ ops) then None else apply_batch m b !! op.
Proof.
  intros Hnd Hus. revert b Hnd Hus. unfold spends.
  induction ops as [|op ops IH] in us |- *; intros b Hnd Hus.
  - inversion_clear Hus. cbn. split; [lia|done].
  - apply Forall2_cons_inv_l in Hus as (u & us' & Hu & Hus & ->).
    apply NoDup_cons in Hnd as [Hni Hnd]. cbn [foldl].
    destruct (IH us' (<[op := None]> b)) as [Hv Hl]; [done| |].
    { apply Forall2_lookup. intros i. apply Forall2_lookup with (i := i) in Hus.
      destruct (ops !! i) as [op'|] eqn:Hop; inversion Hus as [? ? Hl|]; constructor.
      rewrite apply_batch_delete, lookup_delete_ne; [done|]. intros ->.
      by eapply Hni, list_elem_of_lookup_2. }
    rewrite fmap_cons, sumZ_cons, Hv. rewrite apply_batch_delete in *. split.
    + unfold utxo_value. rewrite (msum_delete _ _ _ u) by done. lia.
    + intros op'. rewrite Hl. destruct (decide (op' = op)) as [->|Hne].
      * rewrite lookup_delete_eq, (bool_decide_true (op ∈ op :: ops)) by set_solver.
        by case_bool_decide.
      * rewrite lookup_delete_ne by done.
        by rewrite (bool_decide_ext (op' ∈ op :: ops) (op' ∈ ops)) by set_solver.
Qed.

Lemma creates_value m b tx_hash index us :
  Z.of_nat index + Z.of_nat (length us) <= 2 ^ 32 →
  (∀ i, Z.of_nat index <= i < Z.of_nat index + Z.of_nat (length us) →
        apply_batch m b !! (tx_hash, i) = None) →
  utxo_value (apply_batch m (creates tx_hash index us b)) =
    utxo_value (apply_batch m b) + sumZ (utxo_amount <$> us) ∧
  (∀ i u, us !! i = Some u →
     apply_batch m (creates tx_hash index us b) !! (tx_hash, Z.of_nat (index + i)) = Some u) ∧
  ∀ op, (op.1 ≠ tx_hash ∨ op.2 < Z.of_nat index ∨
         Z.of_nat index + Z.of_nat (length us) <= op.2) →
    apply_batch m (creates tx_hash index us b) !! op = apply_batch m b !! op.
Proof.
  induction us as [|u us IH] in index, b |- *; intros Hlen Hfresh;
    [cbn; split_and!; [lia|done|done]|].
  cbn [creates]. cbn [length] in Hlen, Hfresh |- *.
  assert (as_u 32 (Z.of_nat index) = Z.of_nat index) as Hidx
    by (apply as_u_small; unfold in_u, umax; lia).
  rewrite Hidx.
  destruct (IH (<[(tx_hash, Z.of_nat index) := Some u]> b) (S index)) as (Hv & Hnew & Hl).
  { lia. }
  { intros i Hi. rewrite apply_batch_insert, lookup_insert_ne by (intros [=]; lia).
    apply Hfresh. lia. }
  rewrite Hv, fmap_cons, sumZ_cons, apply_batch_insert. split_and!.
  - unfold utxo_value. rewrite msum_insert_fresh by (apply Hfresh; lia). lia.
  - intros [|i] u' Hi; simpl in Hi; simplify_eq.
    + rewrite Hl, apply_batch_insert, Nat.add_0_r by (simpl; lia). apply lookup_insert_eq.
    + rewrite <- (Hnew i u' Hi). do 2 f_equal. lia.
  - intros op Hop. rewrite Hl, apply_batch_insert, lookup_insert_ne; [done| |lia].
    destruct op as [h i]. simpl in *. intros [=]; lia.
Qed.

End Values.

(** ** Loops *)

Section Loops.
Context `{PairHash}.

Lemma first_duplicate_None seen ops :
  first_duplicate seen ops = None → NoDup ops ∧ ∀ op, op ∈ ops → op ∉ seen.
Proof.
  induction ops as [|op ops IH] in seen |- *; simpl; [intros _; split; [constructor|set_solver]|].
  case_bool_decide as Hs; [done|]. intros [Hnd Hni]%IH. split; [|set_solver].
  constructor; [|done]. intros Hin. apply (Hni op Hin). set_solver.
Qed.

Lemma spend_inputs_ok ops total s s' t :
  open s → spend_inputs ops total s = (s', Ok t) →
  ∃ us, Forall2 (λ op u, utxos (db s) !! op = Some u) ops us ∧
    t = total + sumZ (utxo_amount <$> us) ∧ (total <= umax 128 → t <= umax 128) ∧
    batch_step (utxo_change (spends ops)) s s'.
Proof.
  induction ops as [|op ops IH] in total, s |- *; intros Ho Hs; cbn [spend_inputs] in Hs.
  - apply ret_ok in Hs as [-> ->]. exists []. split_and!; try done; cbn; lia.
  - apply bind_ok in Hs as (s1 & u & [Hu Hstep]%spend_utxo_ok & Hs); [|done].
    apply bind_ok in Hs as (s2 & total' & [-> Hadd%ok_or_ok]%lift_ok & Hs). int_inv.
    assert (open s1) as Ho1 by apply Hstep.
    destruct (IH _ s1 Ho1 Hs) as (us & Hus & -> & Hmax & Hstep').
    exists (u :: us). rewrite fmap_cons, sumZ_cons. split_and!; [|lia|lia|].
    + constructor; [done|]. destruct Hstep as (_ & Hd & _). by rewrite Hd in Hus.
    + exact (utxo_step_trans _ _ _ _ _ Hstep Hstep').
Qed.

(** What output [index] of a transfer receives. *)
Definition share (per_output remainder : Z) (index : nat) : Z :=
  if (index =? 0)%nat then per_output + remainder else per_output.

Fixpoint output_utxos (block_height per_output remainder : Z) (index : nat)
    (outs : list TransactionOutput) : list Utxo :=
  match outs with
  | [] => []
  | o :: outs' =>
      output_utxo o (share per_output remainder index) block_height ::
      output_utxos block_height per_output remainder (S index) outs'
  end.

Lemma output_utxos_length h p r i outs : length (output_utxos h p r i outs) = length outs.
Proof. induction outs in i |- *; simpl; congruence. Qed.

Lemma output_utxos_lookup h p r outs i index o :
  outs !! i = Some o →
  output_utxos h p r index outs !! i = Some (output_utxo o (share p r (index + i)) h).
Proof.
  induction outs as [|o' outs IH] in i, index |- *; [done|]. destruct i as [|i]; simpl.
  - intros [= ->]. by rewrite Nat.add_0_r.
  - intros Hi. rewrite (IH i (S index) Hi). do 3 f_equal. lia.
Qed.

Lemma create_outputs_ok tx_hash h p r index outs total s s' t :
  open s → create_outputs tx_hash h p r index outs total s = (s', Ok t) →
  t = total + sumZ (utxo_amount <$> output_utxos h p r index outs) ∧
  Forall (λ u, utxo_amount u ≠ 0) (output_utxos h p r index outs) ∧
  batch_step (utxo_change (creates tx_hash index (output_utxos h p r index outs))) s s'.
Proof.
  induction outs as [|o outs IH] in index, total, s |- *; intros Ho Hs; cbn [create_outputs] in Hs.
  - apply ret_ok in Hs as [-> ->]. cbn. split_and!; [lia|done|by apply utxo_step_refl].
  - apply bind_ok in Hs as (s1 & amount & Ha & Hs).
    assert (s1 = s ∧ amount = share p r index) as [-> ->].
    { unfold share. destruct (index =? 0)%nat; monad_inv; int_inv; auto. }
    apply bind_ok in Hs as (s1 & [] & [-> Hnz]%guard_ok & Hs).
    apply bind_ok in Hs as (s1 & [] & Hstep%create_utxo_ok & Hs); [|done].
    apply bind_ok in Hs as (s2 & total' & [-> Hadd%ok_or_ok]%lift_ok & Hs). int_inv.
    assert (open s1) as Ho1 by apply Hstep.
    destruct (IH (S index) _ s1 Ho1 Hs) as (-> & Hpos & Hstep'). cbn [output_utxos].
    rewrite fmap_cons, sumZ_cons. split_and!; [simpl; lia|constructor; [simpl; lia|done]|].
    exact (utxo_step_trans _ _ _ _ _ Hstep Hstep').
Qed.

End Loops.

(** ** Native transfers *)

Section Native.
Context `{PairHash}.

(** The outpoints of transaction [tx_hash] with [n] outputs are unused. *)
Definition fresh_outputs (tx_hash : Z) (n : nat) (s : SledStore) : Prop :=
  Z.of_nat n <= 2 ^ 32 ∧ ∀ i, 0 <= i < Z.of_nat n → view_utxos s !! (tx_hash, i) = None.

(** No input was spent or created earlier in the block. *)
Definition untouched (ops : list OutPoint) (s : SledStore) : Prop :=
  ∀ op, op ∈ ops → pending_utxos s !! op = None.

Lemma view_step f s s' :
  batch_step (utxo_change f) s s' →
  view_utxos s' = apply_batch (utxos (db s)) (f (pending_utxos s)).
Proof.
  intros (_ & Hd & _ & Hu & _). unfold view_utxos, pending_utxos. by rewrite Hd, Hu.
Qed.

Lemma native_transfer_ok ins outs tx_fee tx_hash h s s' r :
  open s → in_u 64 tx_fee → apply_native_transfer ins outs tx_fee tx_hash h s = (s', Ok r) →
  let ops := outpoint_of <$> ins in
  ∃ us per rem,
    NoDup ops ∧ Forall2 (λ op u, utxos (db s) !! op = Some u) ops us ∧
    per = (sumZ (utxo_amount <$> us) - tx_fee) / Z.of_nat (length outs) ∧
    rem = (sumZ (utxo_amount <$> us) - tx_fee) mod Z.of_nat (length outs) ∧
    tx_fee <= sumZ (utxo_amount <$> us) ∧
    r = {| inputs_spent := length ins; outputs_created := length outs;
           total_value := sumZ (utxo_amount <$> us) - tx_fee; outcome_fee := tx_fee |} ∧
    sumZ (utxo_amount <$> output_utxos h per rem 0 outs) = sumZ (utxo_amount <$> us) - tx_fee ∧
    Forall (λ u, utxo_amount u ≠ 0) (output_utxos h per rem 0 outs) ∧
    batch_step (utxo_change (λ m,
      creates tx_hash 0 (output_utxos h per rem 0 outs) (spends ops m))) s s'.
Proof.
  intros Ho [Hf0 _] Hs ops. unfold apply_native_transfer in Hs. fold ops in Hs.
  apply bind_ok in Hs as (s0 & [] & [-> Hne]%guard_ok & Hs).
  destruct (first_duplicate [] ops) eqn:Hdup; [done|].
  apply first_duplicate_None in Hdup as [Hnd _].
  apply bind_ok in Hs as (s1 & total & Hsp & Hs).
  destruct (spend_inputs_ok _ _ _ _ _ Ho Hsp) as (us & Hus & -> & Hmax & Hstep).
  rewrite Z.add_0_l in *. set (tot := sumZ (utxo_amount <$> us)) in *.
  apply bind_ok in Hs as (s2 & [] & [-> Hfee]%guard_ok & Hs). int_inv.
  rewrite wsub_small in Hs by (unfold umax in *; lia).
  apply bind_ok in Hs as (s2 & [] & [-> Hz]%guard_ok & Hs).
  apply bind_ok in Hs as (s2 & out & Hcr & Hs).
  apply bind_ok in Hs as (s3 & rec & [-> Hrec%ok_or_ok]%lift_ok & Hs).
  apply bind_ok in Hs as (s3 & [] & [-> Heq]%guard_ok & Hs). apply ret_ok in Hs as [-> ->].
  int_inv. assert (open s1) as Ho1 by apply Hstep.
  destruct (create_outputs_ok _ _ _ _ _ _ _ _ _ _ Ho1 Hcr) as (Hout & Hpos & Hstep').
  exists us, ((tot - tx_fee) / Z.of_nat (length outs)), ((tot - tx_fee) mod Z.of_nat (length outs)).
  split_and!; [done|done|done|done|done| |lia|done|exact (utxo_step_trans _ _ _ _ _ Hstep Hstep')].
  f_equal. lia.
Qed.

Lemma untouched_view ops us s :
  untouched ops s → Forall2 (λ op u, utxos (db s) !! op = Some u) ops us →
  Forall2 (λ op u, view_utxos s !! op = Some u) ops us.
Proof.
  intros Hun Hus.
  apply Forall2_lookup. intros i. apply Forall2_lookup with (i := i) in Hus.
  destruct (ops !! i) as [op|] eqn:Hop; inversion Hus as [? ? Hl|]; constructor.
  unfold view_utxos. rewrite apply_batch_lookup, Hun; [done|].
  by eapply list_elem_of_lookup_2.
Qed.

(** What the step above does to the pending UTXO set. *)
Lemma native_transfer_view ops us outs_u tx_hash s s' :
  NoDup ops → Forall2 (λ op u, view_utxos s !! op = Some u) ops us →
  fresh_outputs tx_hash (length outs_u) s →
  batch_step (utxo_change (λ m, creates tx_hash 0 outs_u (spends ops m))) s s' →
  utxo_value (view_utxos s') =
    utxo_value (view_utxos s) - sumZ (utxo_amount <$> us) + sumZ (utxo_amount <$> outs_u) ∧
  (∀ op, op ∈ ops → view_utxos s' !! op = None) ∧
  (∀ i u, outs_u !! i = Some u → view_utxos s' !! (tx_hash, Z.of_nat i) = Some u) ∧
  (∀ op, op ∉ ops → op.1 ≠ tx_hash → view_utxos s' !! op = view_utxos s !! op).
Proof.
  intros Hnd Hus [Hlen Hfr] Hstep. rewrite (view_step _ _ _ Hstep).
  destruct (spends_value (utxos (db s)) (pending_utxos s) ops us Hnd Hus) as [Hv1 Hl1].
  destruct (creates_value (utxos (db s)) (spends ops (pending_utxos s)) tx_hash 0 outs_u)
    as (Hv2 & Hnew & Hl2); [lia| |].
  { intros i Hi. rewrite Hl1. case_bool_decide; [done|]. apply Hfr. lia. }
  fold (view_utxos s) in *. split_and!; [lia| |exact Hnew|].
  - intros [h i] Hop. rewrite Hl2; [by rewrite Hl1, bool_decide_true|]. simpl.
    apply list_elem_of_lookup_1 in Hop as [j Hj]. eapply Forall2_lookup_l in Hus as (u & _ & Hu); [|done].
    destruct (decide (h = tx_hash)) as [->|]; [|by left]. right.
    destruct (decide (0 <= i < Z.of_nat (length outs_u))) as [Hi|]; [|lia].
    by rewrite (Hfr i Hi) in Hu.
  - intros op Hop Hne. rewrite Hl2, Hl1, bool_decide_false by auto. done.
Qed.

(** ** Completeness *)

Lemma spend_utxo_total op s u :
  open s → utxos (db s) !! op = Some u → ∃ s', spend_utxo op s = (s', Ok u).
Proof.
  intros Ho Hu. unfold spend_utxo. erewrite bind_step by done. unfold get_utxo. rewrite Hu.
  destruct (delete_utxo op s) as [s1 r1] eqn:Hd.
  apply with_batch_open in Hd as Hd'; [|done]. destruct Hd' as [-> ([Ha1 [b1 Hb1]] & _)].
  erewrite bind_step by (by apply storage_ok). case_bool_decide; [|by eexists].
  unfold bind, storage, delete_utxo_merkle_leaf, require_transaction, bind, gets, guard, modify,
    ret. rewrite Ha1, Hb1.
  destruct (match b_merkle_indexed b1 !! op with Some i => Some i | None => _ end);
    [|by eexists].
  destruct (update_merkle_path _ _ _ _ _). by eexists.
Qed.

Lemma create_utxo_total op u s :
  open s → merkle_leaf u = None → ∃ s', create_utxo op u s = (s', Ok tt).
Proof.
  intros Ho Hl. unfold create_utxo. rewrite Hl. destruct (put_utxo op u s) as [s1 r1] eqn:Hp.
  apply with_batch_open in Hp as Hp'; [|done]. destruct Hp' as [-> _].
  erewrite bind_step by (by apply storage_ok). by eexists.
Qed.

Lemma spend_inputs_total ops us total s :
  open s → Forall2 (λ op u, utxos (db s) !! op = Some u) ops us →
  Forall (λ u, 0 <= utxo_amount u) us → 0 <= total →
  total + sumZ (utxo_amount <$> us) <= umax 128 →
  ∃ s', spend_inputs ops total s = (s', Ok (total + sumZ (utxo_amount <$> us))).
Proof.
  induction ops as [|op ops IH] in us, total, s |- *; intros Ho Hus Hpos Ht Hmax.
  - inversion_clear Hus. exists s. cbn. unfold ret. do 2 f_equal. lia.
  - apply Forall2_cons_inv_l in Hus as (u & us' & Hu & Hus & ->).
    apply list.Forall_cons in Hpos as [Hp Hpos]. rewrite fmap_cons, sumZ_cons in *.
    assert (0 <= sumZ (utxo_amount <$> us')) by (by apply sumZ_nonneg, list.Forall_fmap).
    destruct (spend_utxo_total op s u Ho Hu) as [s1 Hs1]. cbn [spend_inputs].
    erewrite bind_step by done. apply spend_utxo_ok in Hs1 as [_ (Ho1 & Hd1 & _)]; [|done].
    rewrite (proj2 (checked_add_Some _ _ _ _)) by (split; [done|lia]).
    erewrite bind_step by done. rewrite <- Hd1 in Hus.
    destruct (IH us' (total + utxo_amount u) s1) as [s' ->]; try done; try lia.
    exists s'. do 2 f_equal. lia.
Qed.

Lemma create_outputs_total tx_hash h p r index outs total s :
  open s → Forall (λ o, output_merkle_leaf o = 0) outs → 0 < p → 0 <= r → 0 <= total →
  total + sumZ (utxo_amount <$> output_utxos h p r index outs) <= umax 128 →
  ∃ s', create_outputs tx_hash h p r index outs total s =
    (s', Ok (total + sumZ (utxo_amount <$> output_utxos h p r index outs))).
Proof.
  induction outs as [|o outs IH] in index, total, s |- *; intros Ho Hl Hp Hr Ht Hmax.
  - exists s. cbn. unfold ret. do 2 f_equal. lia.
  - apply list.Forall_cons in Hl as [Hlo Hl]. cbn [output_utxos] in *.
    rewrite fmap_cons, sumZ_cons in *. cbn [utxo_amount output_utxo] in *.
    set (us := output_utxos h p r (S index) outs) in *. set (a := share p r index) in *.
    assert (0 < a) as Ha by (unfold a, share; destruct (index =? 0)%nat; lia).
    assert (0 <= sumZ (utxo_amount <$> us)).
    { apply sumZ_nonneg, list.Forall_fmap, list.Forall_lookup. intros i u Hu. unfold us in Hu.
      assert (i < length outs)%nat as Hi by (apply lookup_lt_Some in Hu; by rewrite output_utxos_length in Hu).
      apply lookup_lt_is_Some_2 in Hi as [o' Ho'].
      rewrite (output_utxos_lookup _ _ _ _ _ _ _ Ho') in Hu. simplify_eq. simpl.
      unfold share. case_match; lia. }
    cbn [create_outputs].
    assert ((if (index =? 0)%nat then lift (ok_or (checked_add 128 p r) Overflow) else ret p) s =
            (s, Ok a)) as Hsh.
    { unfold a, share in *. destruct (index =? 0)%nat; [|done].
      by rewrite (proj2 (checked_add_Some _ _ _ _)) by (split; [done|lia]). }
    erewrite bind_step by exact Hsh. rewrite (proj2 (Z.eqb_neq a 0)) by lia.
    erewrite bind_step by done.
    destruct (create_utxo_total (tx_hash, as_u 32 (Z.of_nat index)) (output_utxo o a h) s Ho)
      as [s1 Hs1]; [simpl; by rewrite Hlo|].
    erewrite bind_step by exact Hs1. apply create_utxo_ok in Hs1 as (Ho1 & _); [|done].
    rewrite (proj2 (checked_add_Some _ _ _ _)) by (split; [done|lia]). erewrite bind_step by done.
    destruct (IH (S index) (total + a) s1) as [s' ->]; try done; fold us; try lia.
    exists s'. do 2 f_equal. lia.
Qed.

Lemma first_duplicate_NoDup seen ops :
  NoDup ops → (∀ op, op ∈ ops → op ∉ seen) → first_duplicate seen ops = None.
Proof.
  induction ops as [|op ops IH] in seen |- *; intros Hnd Hni; [done|]. simpl.
  apply NoDup_cons in Hnd as [Hop Hnd]. rewrite bool_decide_false by (apply Hni; set_solver).
  apply IH; [done|]. intros op' Hin [->|Hs]%elem_of_cons; [done|]. eapply Hni; [|done].
  set_solver.
Qed.

Lemma output_utxos_sum h p r index outs :
  sumZ (utxo_amount <$> output_utxos h p r index outs) =
    p * Z.of_nat (length outs) + if ((index =? 0) && negb (length outs =? 0))%nat then r else 0.
Proof.
  induction outs as [|o outs IH] in index |- *; cbn [output_utxos].
  - cbn. rewrite andb_false_r. lia.
  - rewrite fmap_cons, sumZ_cons, IH. cbn [length utxo_amount output_utxo]. unfold share.
    destruct index; simpl; lia.
Qed.

(** A native transfer succeeds whenever it can: at least one output, distinct
    inputs that exist before the block, whose total fits and covers the fee and
    one unit per output; outputs without a Merkle leaf always find room. *)
Lemma native_transfer_total ins outs us tx_fee tx_hash h s :
  open s → outs ≠ [] → NoDup (outpoint_of <$> ins) →
  Forall2 (λ i u, utxos (db s) !! outpoint_of i = Some u) ins us →
  Forall (λ u, 0 <= utxo_amount u) us → Forall (λ o, output_merkle_leaf o = 0) outs →
  0 <= tx_fee → tx_fee + Z.of_nat (length outs) <= sumZ (utxo_amount <$> us) <= umax 128 →
  ∃ s', apply_native_transfer ins outs tx_fee tx_hash h s =
    (s', Ok {| inputs_spent := length ins; outputs_created := length outs;
               total_value := sumZ (utxo_amount <$> us) - tx_fee; outcome_fee := tx_fee |}).
Proof.
  intros Ho Hne Hnd Hus Hpos Hleaf Hfee [Hlo Hhi]. unfold apply_native_transfer.
  rewrite bool_decide_false by done. erewrite bind_step by done. cbv zeta.
  rewrite first_duplicate_NoDup by (done || set_solver).
  set (tot := sumZ _) in *. set (n := Z.of_nat (length outs)) in *.
  assert (0 < n) as Hn by (unfold n; destruct outs; [done|simpl; lia]).
  destruct (spend_inputs_total (outpoint_of <$> ins) us 0 s) as [s1 Hs1];
    [done|by apply Forall2_fmap_l|done|lia|fold tot; lia|].
  rewrite Z.add_0_l in Hs1. fold tot in Hs1. erewrite bind_step by exact Hs1.
  destruct (spend_inputs_ok _ _ _ _ _ Ho Hs1) as (_ & _ & _ & _ & (Ho1 & _)).
  rewrite (proj2 (Z.leb_le tx_fee tot)) by lia. erewrite bind_step by done.
  rewrite wsub_small by (unfold umax in *; lia).
  assert (0 < (tot - tx_fee) / n) as Hper by (apply Z.div_str_pos; lia).
  rewrite (proj2 (Z.eqb_neq _ 0)) by lia. erewrite bind_step by done.
  pose proof (Z.mod_pos_bound (tot - tx_fee) n Hn) as Hmod.
  pose proof (Z.div_mod (tot - tx_fee) n) as Hdm.
  pose proof (output_utxos_sum h ((tot - tx_fee) / n) ((tot - tx_fee) mod n) 0 outs) as Hsum.
  rewrite (proj2 (Nat.eqb_neq (length outs) 0)) in Hsum by lia. simpl in Hsum. fold n in Hsum.
  destruct (create_outputs_total tx_hash h ((tot - tx_fee) / n) ((tot - tx_fee) mod n) 0 outs 0 s1)
    as [s2 Hs2]; [done|done|lia|lia|lia|lia|].
  rewrite Z.add_0_l, Hsum in Hs2. erewrite bind_step by exact Hs2.
  rewrite (proj2 (checked_add_Some _ _ _ tot)) by lia.
  erewrite bind_step by done. rewrite Z.eqb_refl. exists s2. cbn. unfold ret.
  do 3 f_equal. lia.
Qed.


End Native.

(** ** Coinbase *)

Section Coinbase.
Context `{PairHash}.

Lemma coinbase_loop_ok tx_hash h fees sink per rem index k outs total s s' t :
  open s → coinbase_loop tx_hash h fees sink per rem index k outs total s = (s', Ok t) →
  ∃ us, t = total + sumZ (utxo_amount <$> us) ∧
    batch_step (utxo_change (creates tx_hash index us)) s s' ∧
    Forall2 (λ o u, ∃ a, u = output_utxo o a h ∧
      (recipient_key_id o = sink → 0 < fees → a = fees)) outs us.
Proof.
  induction outs as [|o outs IH] in index, k, total, s |- *; intros Ho Hs;
    cbn [coinbase_loop] in Hs.
  - apply ret_ok in Hs as [-> ->]. exists []. cbn. split_and!; [lia|by apply utxo_step_refl|done].
  - set (is_sink := _ && _) in Hs. set (a := if is_sink then _ else _) in Hs.
    apply bind_ok in Hs as (s1 & [] & Hstep%create_utxo_ok & Hs); [|done].
    apply bind_ok in Hs as (s2 & total' & [-> Hadd%ok_or_ok]%lift_ok & Hs). int_inv.
    assert (open s1) as Ho1 by apply Hstep.
    destruct (IH (S index) _ _ s1 Ho1 Hs) as (us & -> & Hstep' & Hus).
    exists (output_utxo o a h :: us). rewrite fmap_cons, sumZ_cons.
    split_and!; [simpl; lia|exact (utxo_step_trans _ _ _ _ _ Hstep Hstep')|].
    constructor; [|done]. exists a. split; [done|]. intros Hr Hf. unfold a, is_sink.
    by rewrite Hr, Z.eqb_refl, (proj2 (Z.ltb_lt 0 fees)).
Qed.

(** A coinbase creates exactly the block reward and the collected fees.
    When it succeeds with fresh outpoints the UTXO set gains one UTXO per output
    and their total is the reward plus the fees; collected fees are paid to the
    fee sink, by an output of exactly that amount. *)
Theorem coinbase_creates_reward ins outs tx_hash h reward fees sink s s' r :
  open s → fresh_outputs tx_hash (length outs) s →
  apply_coinbase ins outs tx_hash h reward fees sink s = (s', Ok r) →
  ins = [] ∧ outs ≠ [] ∧
  utxo_value (view_utxos s') = utxo_value (view_utxos s) + reward + fees ∧
  (0 < fees → ∃ i o, outs !! i = Some o ∧ recipient_key_id o = sink ∧
     view_utxos s' !! (tx_hash, Z.of_nat i) = Some (output_utxo o fees h)) ∧
  (∀ op, op.1 ≠ tx_hash → view_utxos s' !! op = view_utxos s !! op).
Proof.
  intros Ho [Hlen Hfr] Hs. unfold apply_coinbase in Hs.
  apply bind_ok in Hs as (s0 & [] & [-> Hins%bool_decide_eq_true]%guard_ok & Hs).
  apply bind_ok in Hs as (s0 & [] & [-> Houts]%guard_ok & Hs).
  apply bind_ok in Hs as (s0 & expected & [-> Hexp%ok_or_ok]%lift_ok & Hs).
  apply bind_ok in Hs as (s0 & [] & [-> Hsink]%guard_ok & Hs).
  apply bind_ok in Hs as (s0 & [] & [-> _]%guard_ok & Hs).
  apply bind_ok in Hs as (s1 & total & Hloop & Hs).
  apply bind_ok in Hs as (s2 & [] & [-> Heq]%guard_ok & [-> _]%ret_ok). int_inv.
  destruct (coinbase_loop_ok _ _ _ _ _ _ _ _ _ _ _ _ _ Ho Hloop) as (us & Hsum & Hstep & Hus).
  destruct (creates_value (utxos (db s)) (pending_utxos s) tx_hash 0 us) as (Hv & Hnew & Hrest).
  { rewrite <- (Forall2_length _ _ _ Hus). simpl. lia. }
  { intros i Hi. rewrite <- (Forall2_length _ _ _ Hus) in Hi. apply Hfr. lia. }
  rewrite (view_step _ _ _ Hstep). fold (view_utxos s) in *.
  split_and!; [done|by apply bool_decide_eq_false in Houts|lia| |auto].
  intros Hf. rewrite (proj2 (Z.ltb_lt 0 fees)) in Hsink by done. simpl in Hsink.
  apply negb_false_iff, existsb_exists in Hsink as (o & Hin & Hr%Z.eqb_eq).
  apply list_elem_of_In, list_elem_of_lookup_1 in Hin as [i Hi].
  destruct (Forall2_lookup_l _ _ _ _ _ Hus Hi) as (u & Hu & a & -> & Ha).
  rewrite Ha in Hu by done. exists i, o. split_and!; [done|done|exact (Hnew i _ Hu)].
Qed.

End Coinbase.

(** ** Token balances *)

Definition view_balance (k : TokenId * Address) (s : SledStore) : Z :=
  default 0 (view_balances s !! k).

(** The writes of a batch to anything but balances and the Merkle tree. *)
Definition other_writes (b : PendingBatch) :=
  (b_utxos b, b_token_nonces b, b_token_supply b, b_cbe_economic_state b, b_cbe_accounts b,
   b_dao_stakes b).

(** Only balances changed: the writes [ws], in order. *)
Definition balance_step (ws : list (TokenId * Address * Z)) (s s' : SledStore) : Prop :=
  open s' ∧ db s' = db s ∧ tx_height s' = tx_height s ∧
  other_writes (batch_of s') = other_writes (batch_of s) ∧
  ∀ k, view_balance k s' = last_written k ws (view_balance k s).

Lemma last_written_app k ws1 ws2 old :
  last_written k (ws1 ++ ws2) old = last_written k ws2 (last_written k ws1 old).
Proof. induction ws1 as [|[k' v] ws1 IH] in old |- *; simpl; [done|]. by rewrite IH. Qed.

Lemma balance_step_trans ws1 ws2 s1 s2 s3 :
  balance_step ws1 s1 s2 → balance_step ws2 s2 s3 → balance_step (ws1 ++ ws2) s1 s3.
Proof.
  intros (? & ? & ? & ? & Hv1) (? & ? & ? & ? & Hv2).
  unfold balance_step. split_and!; try done; try congruence.
  intros k. by rewrite Hv2, Hv1, last_written_app.
Qed.

Lemma balance_step_refl s : open s → balance_step [] s s.
Proof. by intros. Qed.

Lemma set_token_balance_ok t a v s s' r :
  open s → storage (set_token_balance t a v) s = (s', r) →
  r = Ok tt ∧ balance_step [((t, a), v)] s s'.
Proof.
  intros Ho. unfold storage, set_token_balance. destruct (with_batch _ s) as [s1 r1] eqn:Hw.
  apply with_batch_open in Hw as [-> (Ho1 & Hd & Hh & Hb)]; [|done]. intros [= <- <-].
  split; [done|]. unfold balance_step. rewrite Hb. split_and!; try done.
  intros k. unfold view_balance, view_balances. rewrite Hd, Hb. cbn [last_written]. simpl.
  rewrite !apply_batch_lookup. case_bool_decide as Hk.
  - subst k. rewrite lookup_insert_eq. by destruct (Z.eqb_spec v 0) as [->|].
  - by rewrite lookup_insert_ne.
Qed.

Definition debit_writes (t : TokenId) (a : Address) (amount : Z) (s : SledStore)
    : list (TokenId * Address * Z) :=
  if amount =? 0 then [] else [((t, a), get_token_balance t a s - amount)].

Definition credit_writes (t : TokenId) (a : Address) (amount : Z) (s : SledStore)
    : list (TokenId * Address * Z) :=
  if amount =? 0 then [] else [((t, a), get_token_balance t a s + amount)].

(** Balances are [u128] values. *)
Definition wf_balances (s : SledStore) : Prop := ∀ t a, in_u 128 (get_token_balance t a s).

Lemma debit_token_ok t a amount s s' r :
  open s → wf_balances s → 0 <= amount → debit_token t a amount s = (s', Ok r) →
  amount <= get_token_balance t a s ∧ balance_step (debit_writes t a amount s) s s'.
Proof.
  intros Ho Hwf Ha. unfold debit_token, debit_writes. pose proof (Hwf t a) as [Hb0 Hb1].
  destruct (Z.eqb_spec amount 0) as [->|]; intros Hs.
  - apply ret_ok in Hs as [-> _]. split; [done|by apply balance_step_refl].
  - apply bind_ok in Hs as (s0 & cur & [-> ->]%gets_ok & Hs).
    apply bind_ok in Hs as (s0 & [] & [-> Hle]%guard_ok & Hs). int_inv.
    rewrite wsub_small in Hs by lia. apply set_token_balance_ok in Hs as [_ Hstep]; done.
Qed.

Lemma credit_token_ok t a amount s s' r :
  open s → 0 <= amount → credit_token t a amount s = (s', Ok r) →
  (amount ≠ 0 → get_token_balance t a s + amount <= umax 128) ∧
  balance_step (credit_writes t a amount s) s s'.
Proof.
  intros Ho Ha. unfold credit_token, credit_writes.
  destruct (Z.eqb_spec amount 0) as [->|]; intros Hs.
  - apply ret_ok in Hs as [-> _]. split; [done|by apply balance_step_refl].
  - apply bind_ok in Hs as (s0 & cur & [-> ->]%gets_ok & Hs).
    apply bind_ok in Hs as (s0 & nb & [-> Hadd%ok_or_ok]%lift_ok & Hs). int_inv.
    apply set_token_balance_ok in Hs as [_ Hstep]; done.
Qed.

(** The fee of a transfer, as the code computes it, never exceeds the amount. *)
Lemma transfer_fee_le amount bps :
  in_u 128 amount → 0 <= bps <= 10000 → 0 <= wmul 128 amount bps / 10000 <= amount.
Proof.
  unfold in_u, umax, wmul. intros [Ha1 Ha2] Hb.
  pose proof (Z.mod_pos_bound (amount * bps) (2 ^ 128)) as Hm. split; [apply Z.div_pos; lia|].
  destruct (Z.lt_ge_cases (amount * bps) (2 ^ 128)) as [Hlt|Hge].
  - rewrite Z.mod_small by nia. apply Z.div_le_upper_bound; nia.
  - apply Z.div_le_upper_bound; nia.
Qed.

Definition token_transfer_fee (amount fee_bps : Z) (fee_destination : Address) : Z :=
  if (0 <? fee_bps) && negb (fee_destination =? ADDRESS_ZERO)
  then wmul 128 amount fee_bps / 10000 else 0.

Lemma token_transfer_fee_range amount bps dest :
  in_u 128 amount → 0 <= bps <= 10000 → 0 <= token_transfer_fee amount bps dest <= amount.
Proof.
  intros Ha Hb. unfold token_transfer_fee. pose proof (transfer_fee_le _ _ Ha Hb).
  destruct Ha. case_match; lia.
Qed.

Lemma get_token_balance_db t a s s' :
  db s' = db s → get_token_balance t a s' = get_token_balance t a s.
Proof. unfold get_token_balance. by intros ->. Qed.

Lemma debit_token_total t a amount s :
  open s → amount <= get_token_balance t a s →
  ∃ s', debit_token t a amount s = (s', Ok tt).
Proof.
  intros Ho Hle. unfold debit_token. destruct (amount =? 0); [by eexists|].
  erewrite bind_step by done. rewrite (proj2 (Z.leb_le _ _) Hle). erewrite bind_step by done.
  destruct (storage _ s) as [s' r] eqn:Hs. apply set_token_balance_ok in Hs as [-> _]; [|done].
  by eexists.
Qed.

Lemma credit_token_total t a amount s :
  open s → get_token_balance t a s + amount <= umax 128 →
  ∃ s', credit_token t a amount s = (s', Ok tt).
Proof.
  intros Ho Hle. unfold credit_token. destruct (amount =? 0); [by eexists|].
  erewrite bind_step by done. rewrite (proj2 (checked_add_Some _ _ _ _)) by (split; [done|lia]).
  erewrite bind_step by done.
  destruct (storage _ s) as [s' r] eqn:Hs. apply set_token_balance_ok in Hs as [-> _]; [|done].
  by eexists.
Qed.

(** The writes a token transfer makes: each computed from the committed
    balances. *)
Definition transfer_writes (t : TokenId) (from to : Address) (amount fee : Z) (dest : Address)
    (s : SledStore) : list (TokenId * Address * Z) :=
  debit_writes t from amount s ++ credit_writes t to (amount - fee) s ++
  credit_writes t dest fee s.

Lemma token_transfer_ok t from to amount bps dest s s' f :
  open s → wf_balances s → in_u 128 amount → 0 <= bps <= 10000 →
  apply_token_transfer t from to amount bps dest s = (s', Ok f) →
  f = token_transfer_fee amount bps dest ∧ amount <= get_token_balance t from s ∧
  balance_step (transfer_writes t from to amount f dest s) s s'.
Proof.
  intros Ho Hwf Ha Hb Hs. unfold apply_token_transfer in Hs.
  fold (token_transfer_fee amount bps dest) in Hs.
  pose proof (token_transfer_fee_range amount bps dest Ha Hb) as Hf.
  set (fee := token_transfer_fee amount bps dest) in *. cbv zeta in Hs.
  replace (saturating_sub amount fee) with (amount - fee) in Hs by (unfold saturating_sub; lia).
  apply bind_ok in Hs as (s1 & [] & Hd & Hs). destruct Ha as [Ha _].
  apply debit_token_ok in Hd as [Hle Hstep1]; try done.
  assert (open s1 ∧ db s1 = db s) as [Ho1 Hdb1] by (by destruct Hstep1 as (? & ? & _)).
  apply bind_ok in Hs as (s2 & [] & Hc & Hs).
  apply credit_token_ok in Hc as [_ Hstep2]; [|done|lia].
  assert (open s2 ∧ db s2 = db s1) as [Ho2 Hdb2] by (by destruct Hstep2 as (? & ? & _)).
  apply bind_ok in Hs as (s3 & [] & Hfee & [-> ->]%ret_ok).
  assert (balance_step (credit_writes t dest fee s2) s2 s3) as Hstep3.
  { destruct (Z.ltb_spec 0 fee).
    - by apply credit_token_ok in Hfee as [_ Hstep3]; [|done|lia].
    - apply ret_ok in Hfee as [-> _]. unfold credit_writes.
      rewrite (proj2 (Z.eqb_eq fee 0)) by lia. by apply balance_step_refl. }
  split_and!; [done|done|]. unfold transfer_writes.
  unfold credit_writes in Hstep2, Hstep3. rewrite (get_token_balance_db t to s s1) in Hstep2 by done.
  rewrite (get_token_balance_db t dest s s2) in Hstep3 by congruence.
  eapply balance_step_trans; [done|]. by eapply balance_step_trans.
Qed.

Lemma token_transfer_total t from to amount bps dest s :
  open s → wf_balances s → in_u 128 amount → 0 <= bps <= 10000 →
  amount <= get_token_balance t from s →
  let fee := token_transfer_fee amount bps dest in
  get_token_balance t to s + (amount - fee) <= umax 128 →
  get_token_balance t dest s + fee <= umax 128 →
  ∃ s', apply_token_transfer t from to amount bps dest s = (s', Ok fee).
Proof.
  intros Ho Hwf Ha Hb Hle fee Hto Hdest. unfold apply_token_transfer.
  fold (token_transfer_fee amount bps dest). fold fee. cbv zeta.
  pose proof (token_transfer_fee_range amount bps dest Ha Hb) as Hf. fold fee in Hf.
  replace (saturating_sub amount fee) with (amount - fee) by (unfold saturating_sub; lia).
  destruct (debit_token_total t from amount s Ho Hle) as [s1 H1]. erewrite bind_step by done.
  destruct Ha as [Ha _]. apply debit_token_ok in H1 as [_ (Ho1 & Hd1 & _)]; try done.
  destruct (credit_token_total t to (amount - fee) s1) as [s2 H2];
    [done|by rewrite (get_token_balance_db t to s)|]. erewrite bind_step by done.
  apply credit_token_ok in H2 as [_ (Ho2 & Hd2 & _)]; [|done|lia].
  destruct (0 <? fee); [|by eexists].
  destruct (credit_token_total t dest fee s2) as [s3 H3];
    [done|by rewrite (get_token_balance_db t dest s) by congruence|].
  erewrite bind_step by done. by eexists.
Qed.

(** A token transfer between distinct parties moves exactly its amount.  If
    the block has not yet written the balances of the sender, the recipient and
    the fee destination, the transfer succeeds exactly when the sender can pay
    and no credit overflows; then the sender loses the amount, the recipient
    gains it less the fee, the destination gains the fee, and every other
    balance, of this and of any other token, stays. *)
Theorem token_transfer_conserves t from to amount bps dest s :
  open s → wf_balances s → in_u 128 amount → 0 <= bps <= 10000 →
  from ≠ to → from ≠ dest → to ≠ dest →
  (∀ a, a ∈ [from; to; dest] → view_balance (t, a) s = get_token_balance t a s) →
  let fee := token_transfer_fee amount bps dest in
  (0 <= fee <= amount) ∧
  (amount <= get_token_balance t from s →
   get_token_balance t to s + (amount - fee) <= umax 128 →
   get_token_balance t dest s + fee <= umax 128 →
   is_ok (apply_token_transfer t from to amount bps dest s).2 = true) ∧
  ∀ s' f, apply_token_transfer t from to amount bps dest s = (s', Ok f) →
    f = fee ∧
    view_balance (t, from) s' = view_balance (t, from) s - amount ∧
    view_balance (t, to) s' = view_balance (t, to) s + (amount - fee) ∧
    view_balance (t, dest) s' = view_balance (t, dest) s + fee ∧
    ∀ k, k ∉ [(t, from); (t, to); (t, dest)] → view_balance k s' = view_balance k s.
Proof.
  intros Ho Hwf Ha Hb Hft Hfd Htd Hview fee. split_and!.
  1-2: apply (token_transfer_fee_range amount bps dest Ha Hb).
  - intros H1 H2 H3. by destruct (token_transfer_total t from to amount bps dest s) as [s' ->].
  - intros s' f Hs. destruct (token_transfer_ok _ _ _ _ _ _ _ _ _ Ho Hwf Ha Hb Hs)
      as (-> & Hle & (_ & _ & _ & _ & Hv)). fold fee in Hv |- *.
    rewrite !Hv, !Hview by set_solver. unfold transfer_writes, debit_writes, credit_writes.
    split; [done|].
    assert (∀ k, k ∉ [(t, from); (t, to); (t, dest)] →
      k ≠ (t, from) ∧ k ≠ (t, to) ∧ k ≠ (t, dest)) as Hk by set_solver.
    destruct (Z.eqb_spec amount 0), (Z.eqb_spec (amount - fee) 0), (Z.eqb_spec fee 0); simpl;
      split_and!; repeat case_bool_decide; simplify_eq; try lia;
      intros k Hin; rewrite Hv; unfold transfer_writes, debit_writes, credit_writes;
      apply Hk in Hin as (? & ? & ?);
      repeat (rewrite ?(proj2 (Z.eqb_eq _ _)), ?(proj2 (Z.eqb_neq _ _)) by lia); simpl;
      by rewrite ?bool_decide_false.
Qed.

(** A token transfer to oneself creates tokens.  The credit is computed from
    the balance before the block and overwrites the debit, so for any holder and
    any affordable amount the transfer succeeds and leaves the holder richer by
    the amount less the fee. *)
Theorem self_transfer_creates_tokens t a amount bps dest s :
  open s → wf_balances s → in_u 128 amount → 0 <= bps < 10000 → a ≠ dest →
  0 < amount <= get_token_balance t a s →
  get_token_balance t a s + amount <= umax 128 → get_token_balance t dest s + amount <= umax 128 →
  let fee := token_transfer_fee amount bps dest in
  ∃ s', apply_token_transfer t a a amount bps dest s = (s', Ok fee) ∧
    (fee < amount → view_balance (t, a) s' = get_token_balance t a s + (amount - fee)).
Proof.
  intros Ho Hwf Ha Hb Hne [Hpos Hle] Hmax Hmaxd fee.
  assert (0 <= bps <= 10000) as Hb' by lia.
  assert (0 <= fee <= amount) as Hf by (by apply token_transfer_fee_range).
  destruct (token_transfer_total t a a amount bps dest s) as [s' Hs]; try done;
    try (fold fee; lia). fold fee in Hs. exists s'. split; [done|]. intros Hlt.
  destruct (token_transfer_ok _ _ _ _ _ _ _ _ _ Ho Hwf Ha Hb' Hs)
    as (_ & _ & (_ & _ & _ & _ & Hv)). rewrite Hv.
  unfold transfer_writes, debit_writes, credit_writes.
  rewrite (proj2 (Z.eqb_neq amount 0)), (proj2 (Z.eqb_neq (amount - fee) 0)) by lia.
  destruct (fee =? 0); simpl; rewrite !(bool_decide_true ((t, a) = (t, a))) by done;
    [done|]. rewrite bool_decide_false by congruence. done.
Qed.

Section DoubleSpend.
Context `{PairHash}.

Lemma spends_absent (m : gmap OutPoint Utxo) b ops :
  (∀ op, op ∈ ops → apply_batch m b !! op = None) →
  apply_batch m (spends ops b) = apply_batch m b.
Proof.
  unfold spends. induction ops as [|op ops IH] in b |- *; intros Habs; [done|]. cbn [foldl].
  assert (apply_batch m (<[op := None]> b) = apply_batch m b) as Heq.
  { rewrite apply_batch_delete. apply delete_id, Habs. set_solver. }
  rewrite IH; [done|]. intros op' Hop. rewrite Heq. apply Habs. set_solver.
Qed.

(** One UTXO can be spent twice in a block.  Two native transfers with the
    same inputs, affordable and with fresh outpoints, both succeed one after the
    other in an open block: spent inputs are looked up in the state before the
    block.  The pending UTXO set then holds the outputs of both, and its value
    grows by that of the inputs, less the fees. *)
Theorem same_block_double_spend ins outs1 outs2 us fee1 fee2 hash1 hash2 h s :
  open s → untouched (outpoint_of <$> ins) s → hash1 ≠ hash2 →
  fresh_outputs hash1 (length outs1) s → fresh_outputs hash2 (length outs2) s →
  outs1 ≠ [] → outs2 ≠ [] → NoDup (outpoint_of <$> ins) →
  Forall2 (λ i u, utxos (db s) !! outpoint_of i = Some u) ins us →
  Forall (λ u, 0 <= utxo_amount u) us →
  Forall (λ o, output_merkle_leaf o = 0) (outs1 ++ outs2) →
  in_u 64 fee1 → in_u 64 fee2 →
  let tot := sumZ (utxo_amount <$> us) in
  fee1 + Z.of_nat (length outs1) <= tot <= umax 128 →
  fee2 + Z.of_nat (length outs2) <= tot →
  ∃ s1 s2 r1 r2,
    apply_native_transfer ins outs1 fee1 hash1 h s = (s1, Ok r1) ∧
    apply_native_transfer ins outs2 fee2 hash2 h s1 = (s2, Ok r2) ∧
    utxo_value (view_utxos s2) = utxo_value (view_utxos s) + tot - fee1 - fee2.
Proof.
  intros Ho Hun Hh Hfr1 Hfr2 Hne1 Hne2 Hnd Hus Hpos [Hl1 Hl2]%Forall_app Hf1 Hf2 tot Ht1 Ht2.
  destruct (native_transfer_total ins outs1 us fee1 hash1 h s) as [s1 Hs1]; try done;
    [apply Hf1|].
  destruct (native_transfer_ok _ _ _ _ _ _ _ _ Ho Hf1 Hs1)
    as (us1 & p1 & r1 & _ & Hus1%(untouched_view _ _ _ Hun) & _ & _ & _ & [= Htot1] & Hsum1 & _ & Hst1).
  assert (fresh_outputs hash1 (length (output_utxos h p1 r1 0 outs1)) s) as Hfr1'
    by (by rewrite output_utxos_length).
  destruct (native_transfer_view _ _ _ _ _ _ Hnd Hus1 Hfr1' Hst1)
    as (Hv1 & Hgone & _ & Hrest).
  assert (open s1 ∧ db s1 = db s) as [Ho1 Hd1] by (by destruct Hst1 as (? & ? & _)).
  destruct (native_transfer_total ins outs2 us fee2 hash2 h s1) as [s2 Hs2]; try done;
    [by rewrite Hd1|apply Hf2|fold tot; lia|].
  destruct (native_transfer_ok _ _ _ _ _ _ _ _ Ho1 Hf2 Hs2)
    as (us2 & p2 & r2 & _ & Hus2 & _ & _ & _ & [= Htot2] & Hsum2 & _ & Hst2).
  eexists s1, s2, _, _. split_and!; [done|done|]. rewrite (view_step _ _ _ Hst2).
  destruct (creates_value (utxos (db s1)) (spends (outpoint_of <$> ins) (pending_utxos s1)) hash2 0
    (output_utxos h p2 r2 0 outs2)) as [Hv2 _]; rewrite ?output_utxos_length.
  { destruct Hfr2. simpl. lia. }
  { intros i Hi. rewrite spends_absent by exact Hgone. fold (view_utxos s1).
    rewrite Hrest; [apply Hfr2; lia| |simpl; congruence].
    intros (j & Hj)%list_elem_of_lookup_1. eapply Forall2_lookup_l in Hus1 as (u & _ & Hu); [|done].
    rewrite (proj2 Hfr2) in Hu by lia. done. }
  rewrite spends_absent in Hv2 by exact Hgone. fold (view_utxos s1) in Hv2.
  unfold tot in *. lia.
Qed.

End DoubleSpend.

(** ** Concrete instances *)

Definition demo_utxo : Utxo := {|
  utxo_amount := 1000; owner := 1; token := NATIVE; created_at_height := 0; script := None;
  merkle_leaf := None |}.

Definition demo_ledger : SledStore := {|
  db := {| blocks_by_height := ∅; utxos := {[ (100, 0) := demo_utxo ]}; utxo_merkle_leaves := ∅; utxo_merkle_index := ∅;
           utxo_merkle_nodes := ∅; utxo_merkle_next := None;
           token_balances := {[ (7, 1) := 500 ]}; token_nonces := ∅; token_contracts := ∅;
           token_supply := ∅; contract_code := ∅; contract_storage := ∅;
  wallets := ∅; cbe_economic_state := None; cbe_accounts := ∅; dao_stakes := ∅;
           latest_height := Some 0 |};
  tx_active := false; tx_height := 0; tx_utxo_merkle_next_index := 0; tx_batch := None |}.

(** The ledger with block 1 open. *)
Definition demo_open : SledStore := (begin_block 1 demo_ledger).1.

Definition empty_proof : ZkProof :=
  {| proof_data := []; public_inputs := []; verification_key := []; backend_proof := None |}.

Definition demo_proof : ZkTransactionProof :=
  {| amount_proof := empty_proof; balance_proof := empty_proof; nullifier_proof := empty_proof |}.

Definition demo_input : TransactionInput :=
  {| previous_output := 100; output_index := 0; zk_proof := demo_proof |}.

Definition demo_output (key_id : Z) : TransactionOutput :=
  {| recipient_key_id := key_id; output_merkle_leaf := 0 |}.

Lemma demo_is_open : open demo_open.
Proof. by split. Qed.

Lemma demo_untouched ops : untouched ops demo_open.
Proof. intros op _. apply lookup_empty. Qed.

Lemma demo_fresh tx_hash n :
  tx_hash ≠ 100 → Z.of_nat n <= 2 ^ 32 → fresh_outputs tx_hash n demo_open.
Proof.
  intros Hne Hn. split; [done|]. intros i _. unfold view_utxos. rewrite apply_batch_lookup.
  change (pending_utxos demo_open) with (∅ : gmap OutPoint (option Utxo)). rewrite lookup_empty.
  apply lookup_singleton_ne. congruence.
Qed.

Lemma demo_balances : wf_balances demo_open.
Proof.
  intros t a. unfold get_token_balance. change (token_balances (db demo_open)) with
    ({[ (7, 1) := 500 ]} : gmap (Z * Z) Z).
  destruct (decide ((7, 1) = (t, a))) as [<-|Hne].
  - by rewrite lookup_singleton_eq.
  - by rewrite lookup_singleton_ne.
Qed.


Lemma coinbase_creates_reward_witness :
  let H : PairHash := λ a b, a + b in
  let run := apply_coinbase [] [demo_output 2; demo_output 9] 300 1 50 4 9 demo_open in
  utxo_value (view_utxos run.1) = utxo_value (view_utxos demo_open) + 50 + 4.
Proof.
  intros H run.
  destruct (coinbase_creates_reward [] [demo_output 2; demo_output 9] 300 1 50 4 9 demo_open run.1
    {| cb_outputs_created := 2; total_reward := 50; cb_fees_collected := 4; fee_sink_credited := true |})
    as (_ & _ & Hv & _); [apply demo_is_open|by apply demo_fresh|vm_compute; reflexivity|exact Hv].
Defined.

Lemma token_transfer_conserves_witness :
  let run := apply_token_transfer 7 1 2 200 100 9 demo_open in
  is_ok run.2 = true ∧ view_balance (7, 1) run.1 = 300 ∧ view_balance (7, 2) run.1 = 198 ∧
  view_balance (7, 9) run.1 = 2.
Proof.
  intros run.
  destruct (token_transfer_conserves 7 1 2 200 100 9 demo_open) as (_ & _ & Hok);
    [apply demo_is_open|apply demo_balances|by vm_compute|done|done|done|done| |].
  { intros a Ha. repeat (apply elem_of_cons in Ha as [->|Ha]; [by vm_compute|]). by apply elem_of_nil in Ha. }
  assert (run = (run.1, Ok 2)) as Hrun by (vm_compute; reflexivity).
  destruct (Hok _ _ Hrun) as (_ & H1 & H2 & H3 & _). rewrite Hrun at 1.
  split_and!; [done|exact H1|exact H2|exact H3].
Defined.

Lemma self_transfer_creates_tokens_witness :
  ∃ s', apply_token_transfer 7 1 1 500 0 9 demo_open = (s', Ok 0) ∧
    view_balance (7, 1) s' = 1000.
Proof.
  destruct (self_transfer_creates_tokens 7 1 500 0 9 demo_open) as (s' & Hs & Hv);
    [apply demo_is_open|apply demo_balances|by vm_compute|done|done|by vm_compute|by vm_compute|by vm_compute|].
  exists s'. split; [exact Hs|]. apply Hv. by vm_compute.
Defined.

Lemma same_block_double_spend_witness :
  let H : PairHash := λ a b, a + b in
  ∃ s1 s2 r1 r2,
    apply_native_transfer [demo_input] [demo_output 2] 10 200 1 demo_open = (s1, Ok r1) ∧
    apply_native_transfer [demo_input] [demo_output 3] 10 201 1 s1 = (s2, Ok r2) ∧
    utxo_value (view_utxos s2) = 1980.
Proof.
  intros H.
  destruct (same_block_double_spend [demo_input] [demo_output 2] [demo_output 3] [demo_utxo]
    10 10 200 201 1 demo_open) as (s1 & s2 & r1 & r2 & H1 & H2 & Hv);
    [apply demo_is_open|apply demo_untouched|done|by apply demo_fresh|by apply demo_fresh|done|done
    |apply NoDup_singleton|by repeat constructor|by repeat constructor|by repeat constructor
    |by vm_compute|by vm_compute|by vm_compute|by vm_compute|].
  exists s1, s2, r1, r2. split_and!; [exact H1|exact H2|]. rewrite Hv. vm_compute. reflexivity.
Defined.
