(* ===== verification/CurveExec.v ===== *)
(** * Bonding-curve and staking execution (lib-blockchain execution/executor)

    The handlers of [BlockExecutor] that run the CBE curve and the sector
    stakes: [apply_canonical_bonding_curve_tx] with [apply_buy_cbe] and
    [apply_sell_cbe], [apply_payroll_mint], [apply_treasury_allocation],
    [apply_dao_stake] and [apply_dao_unstake], over the ledger of [Ledger.v] and
    the curve of [Curve.v].  Token ids are hashes; they and the fee sink are
    parameters.  Logging is left out, and so is the text interpolated into
    error messages.

    The theorems: the on-ramp split and the payroll split lose nothing; a buy
    mints the most the reserve share affords and moves exactly the amounts it
    announces; a sell pays the curve's price and keeps the reserve solvent;
    nonces refuse replays; the economic state stays well formed, with the debt
    equal to the unsettled entries and under its ceiling; a stake comes back
    whole after the lock, and not before. *)
From stdpp Require Import base tactics numbers list option gmap fin_maps strings.
From S2P Require Import Prelude Curve CurveState Merkle TokenCore Store Codec Ledger.

Definition map_err {A E F : Type} (e : F) (r : result A E) : result A F :=
  match r with Ok a => Ok a | Err _ => Err e end.

(** ** Data *)

Inductive CanonicalBondingCurveOutcome : Type :=
| BuyOutcome (token_id : TokenId) (buyer : Z) (stable_spent tokens_received : Z)
| SellOutcome (token_id : TokenId) (seller : Z) (tokens_sold stable_received : Z).

Record ProcessPayrollData : Type := {
  payroll_contract_id : Z; payroll_amount_cbe : Z; collaborator_address : Z;
  deliverable_hash : Z;
}.

Record TreasuryAllocationData : Type := {
  source_treasury_key_id : Z; destination_key_id : Z; allocation_amount : Z; (* u64 *)
}.

Record DaoStakeData : Type := {
  stake_dao_key_id : Z; stake_staker : Z; stake_data_amount : Z; stake_nonce : Z;
  lock_blocks : Z;
}.

Record DaoUnstakeData : Type := {
  unstake_dao_key_id : Z; unstake_staker : Z; unstake_nonce : Z;
}.

(** ** Buying and selling *)

(** Treasury, reserve and liquidity shares. *)
Definition compute_onramp_split (amount_in : Z) : Z * Z * Z :=
  let sov_treasury_credit := wmul 128 amount_in SOV_TREASURY_SHARE_PCT / 100 in
  let reserve_credit := wmul 128 amount_in RESERVE_SHARE_PCT / 100 in
  (sov_treasury_credit, reserve_credit,
   wsub 128 (wsub 128 amount_in sov_treasury_credit) reserve_credit).

Definition validate_buy_limits (amount_in delta_s max_price : Z) : result unit TxApplyError :=
  if delta_s =? 0 then Err (InvalidType "BUY_CBE: zero tokens minted for given reserve credit")
  else if MAX_DELTA_S_PER_TX <? delta_s then
    Err (InvalidType "BUY_CBE: delta_s exceeds MAX_DELTA_S_PER_TX")
  else
    let? p := ok_or (checked_mul 256 amount_in SCALE)
                (InvalidType "BUY_CBE: slippage overflow in amount_in * SCALE") in
    let effective := p / delta_s in
    if max_price <? effective then Err (InvalidType "BUY_CBE: slippage") else Ok tt.

(** The state after a buy, before debts are satisfied. *)
Definition buy_state (e : BondingCurveEconomicState) (s_c' reserve treasury : Z)
    (pool : PoolState) (sovrn : Z) : BondingCurveEconomicState := {|
  s_c := s_c'; reserve_balance := reserve; sov_treasury_cbe_balance := treasury;
  liquidity_pool_balance := pool_balance pool; total_sov_minted := total_sov_minted e;
  graduated := graduated e; sell_enabled := sell_enabled e;
  compensation_pool := compensation_pool e; treasury_pool := treasury_pool e;
  liquidity_pool := pool; incentive_pool := incentive_pool e;
  strategic_reserve := strategic_reserve e;
  outstanding_pre_backed := outstanding_pre_backed e;
  pre_backed_queue := pre_backed_queue e; debt_state := debt_state e;
  genesis_treasury_allocation := genesis_treasury_allocation e;
  sovrn_total_supply := sovrn |}.

Definition set_graduated (g : bool) (e : BondingCurveEconomicState) : BondingCurveEconomicState := {|
  s_c := s_c e; reserve_balance := reserve_balance e;
  sov_treasury_cbe_balance := sov_treasury_cbe_balance e;
  liquidity_pool_balance := liquidity_pool_balance e; total_sov_minted := total_sov_minted e;
  graduated := g; sell_enabled := sell_enabled e;
  compensation_pool := compensation_pool e; treasury_pool := treasury_pool e;
  liquidity_pool := liquidity_pool e; incentive_pool := incentive_pool e;
  strategic_reserve := strategic_reserve e;
  outstanding_pre_backed := outstanding_pre_backed e;
  pre_backed_queue := pre_backed_queue e; debt_state := debt_state e;
  genesis_treasury_allocation := genesis_treasury_allocation e;
  sovrn_total_supply := sovrn_total_supply e |}.

Definition set_total_sov_minted (n : Z) (e : BondingCurveEconomicState)
    : BondingCurveEconomicState := {|
  s_c := s_c e; reserve_balance := reserve_balance e;
  sov_treasury_cbe_balance := sov_treasury_cbe_balance e;
  liquidity_pool_balance := liquidity_pool_balance e; total_sov_minted := n;
  graduated := graduated e; sell_enabled := sell_enabled e;
  compensation_pool := compensation_pool e; treasury_pool := treasury_pool e;
  liquidity_pool := liquidity_pool e; incentive_pool := incentive_pool e;
  strategic_reserve := strategic_reserve e;
  outstanding_pre_backed := outstanding_pre_backed e;
  pre_backed_queue := pre_backed_queue e; debt_state := debt_state e;
  genesis_treasury_allocation := genesis_treasury_allocation e;
  sovrn_total_supply := sovrn_total_supply e |}.

Definition set_sold (s_c' reserve : Z) (e : BondingCurveEconomicState)
    : BondingCurveEconomicState := {|
  s_c := s_c'; reserve_balance := reserve;
  sov_treasury_cbe_balance := sov_treasury_cbe_balance e;
  liquidity_pool_balance := liquidity_pool_balance e; total_sov_minted := total_sov_minted e;
  graduated := graduated e; sell_enabled := sell_enabled e;
  compensation_pool := compensation_pool e; treasury_pool := treasury_pool e;
  liquidity_pool := liquidity_pool e; incentive_pool := incentive_pool e;
  strategic_reserve := strategic_reserve e;
  outstanding_pre_backed := outstanding_pre_backed e;
  pre_backed_queue := pre_backed_queue e; debt_state := debt_state e;
  genesis_treasury_allocation := genesis_treasury_allocation e;
  sovrn_total_supply := sovrn_total_supply e |}.

Definition set_nonce (n : Nonce48) (a : BondingCurveAccountState) : BondingCurveAccountState :=
  {| acc_key_id := acc_key_id a; balance_cbe := balance_cbe a; balance_sov := balance_sov a;
     next_nonce := n |}.

(** The economic part of [apply_buy_cbe]: the new state and the tokens minted. *)
Definition buy_economics (max_price amount_in : Z) (e : BondingCurveEconomicState)
    : result (BondingCurveEconomicState * Z) TxApplyError :=
  if MAX_GROSS_SOV_PER_TX <? amount_in
  then Err (InvalidType "BUY_CBE: amount_in exceeds MAX_GROSS_SOV_PER_TX") else
  let '(treasury_credit, reserve_credit, liquidity_credit) := compute_onramp_split amount_in in
  let? delta_s := map_err (InvalidType "BUY_CBE: mint overflow")
                    (mint_with_reserve reserve_credit (s_c e)) in
  let? _u := validate_buy_limits amount_in delta_s max_price in
  let? s_c' := ok_or (checked_add 128 (s_c e) delta_s) (InvalidType "BUY_CBE: s_c overflow") in
  let? reserve := ok_or (checked_add 128 (reserve_balance e) reserve_credit)
                    (InvalidType "BUY_CBE: reserve overflow") in
  let? treasury := ok_or (checked_add 128 (sov_treasury_cbe_balance e) treasury_credit)
                     (InvalidType "BUY_CBE: sov_treasury overflow") in
  let? pool := map_err (InvalidType "BUY_CBE: liquidity pool")
                 (pool_mint (liquidity_pool e) liquidity_credit) in
  let e1 := buy_state e s_c' reserve treasury pool
              (saturating_add 128 (sovrn_total_supply e) liquidity_credit) in
  let e2 := satisfy_pre_backed liquidity_credit e1 in
  Ok (set_graduated ((GRAD_THRESHOLD <=? reserve_balance e2) || graduated e2) e2, delta_s).

(** The economic part of [apply_sell_cbe]: the new state and the payout. *)
Definition sell_economics (min_payout amount_cbe : Z) (e : BondingCurveEconomicState)
    : result (BondingCurveEconomicState * Z) TxApplyError :=
  let? sov_out := map_err (InvalidType "SELL_CBE: payout_for_burn failed")
                    (payout_for_burn amount_cbe (s_c e)) in
  if sov_out =? 0 then Err (InvalidType "SELL_CBE: zero payout for given burn amount")
  else if sov_out <? min_payout then Err (InvalidType "SELL_CBE: payout below min_payout")
  else if reserve_balance e <? sov_out then Err (InvalidType "SELL_CBE: insolvent")
  else
    let? s_c' := ok_or (checked_sub (s_c e) amount_cbe) (InvalidType "SELL_CBE: s_c underflow") in
    let? reserve := ok_or (checked_sub (reserve_balance e) sov_out)
                      (InvalidType "SELL_CBE: reserve underflow") in
    Ok (set_sold s_c' reserve e, sov_out).

Section Exec.
Context `{ChainParams}.

Definition apply_buy_cbe (max_price amount_in sender : Z) (econ : BondingCurveEconomicState)
    (account : BondingCurveAccountState) (nonce' : Nonce48) : TM CanonicalBondingCurveOutcome :=
  r <- lift (buy_economics max_price amount_in econ) ;;
  let '(econ', delta_s) := r in
  storage (put_cbe_economic_state econ') ;;;
  storage (put_cbe_account_state sender (set_nonce nonce' account)) ;;;
  debit_token sov_token_id sender amount_in ;;;
  credit_token cbe_token_id sender delta_s ;;;
  let sov_to_mint := (compute_onramp_split amount_in).1.1 in
  (if 0 <? sov_to_mint then
     credit_token sov_token_id fee_sink_address sov_to_mint ;;;
     storage (put_cbe_economic_state (set_total_sov_minted
       (default (total_sov_minted econ') (checked_add 128 (total_sov_minted econ') sov_to_mint))
       econ'))
   else ret tt) ;;;
  ret (BuyOutcome cbe_token_id sender amount_in delta_s).

Definition apply_sell_cbe (min_payout amount_cbe sender : Z) (econ : BondingCurveEconomicState)
    (account : BondingCurveAccountState) (nonce' : Nonce48) : TM CanonicalBondingCurveOutcome :=
  r <- lift (sell_economics min_payout amount_cbe econ) ;;
  let '(econ', sov_out) := r in
  storage (put_cbe_economic_state econ') ;;;
  storage (put_cbe_account_state sender (set_nonce nonce' account)) ;;;
  debit_token cbe_token_id sender amount_cbe ;;;
  credit_token sov_token_id sender sov_out ;;;
  ret (SellOutcome cbe_token_id sender amount_cbe sov_out).

(** [StateMutator::get_cbe_account_state]: the zero account for a new key. *)
Definition account_state (key_id : Z) (s : SledStore) : BondingCurveAccountState :=
  default {| acc_key_id := key_id; balance_cbe := 0; balance_sov := 0; next_nonce := Nonce48_zero |}
    (get_cbe_account_state key_id s).

Definition apply_canonical_bonding_curve_tx (payload : list Z) : TM CanonicalBondingCurveOutcome :=
  curve_tx <- lift (map_err (InvalidType "Invalid canonical curve payload")
                     (decode_canonical_bonding_curve_tx payload)) ;;
  let '(sender, tx_nonce, amount, is_buy, expected_s_c) :=
    match curve_tx with
    | Buy tx => (buy_sender tx, buy_nonce tx, amount_in tx, true, buy_expected_s_c tx)
    | Sell tx => (sell_sender tx, sell_nonce tx, amount_cbe tx, false, sell_expected_s_c tx)
    end in
  guard (negb (amount =? 0)) (InvalidType "Canonical curve tx: amount must be non-zero") ;;;
  econ <- gets get_cbe_economic_state ;;
  guard (negb (graduated econ)) (InvalidType "CBE curve has graduated") ;;;
  guard (is_buy || sell_enabled econ) (InvalidType "SELL_CBE is disabled") ;;;
  account <- gets (account_state sender) ;;
  let expected_nonce := Nonce48_to_u64 (next_nonce account) in
  let provided_nonce := Nonce48_to_u64 tx_nonce in
  guard (provided_nonce =? expected_nonce) (InvalidNonce expected_nonce provided_nonce) ;;;
  bal <- gets (get_token_balance (if is_buy then sov_token_id else cbe_token_id) sender) ;;
  guard (amount <=? bal) (InvalidType "insufficient balance") ;;;
  guard (expected_s_c =? s_c econ) (InvalidType "Canonical curve stale state") ;;;
  nonce' <- lift (ok_or (Nonce48_from_u64 (wadd 64 provided_nonce 1))
                   (InvalidType "nonce overflow")) ;;
  match curve_tx with
  | Buy tx => apply_buy_cbe (max_price tx) amount sender econ account nonce'
  | Sell tx => apply_sell_cbe (min_payout tx) amount sender econ account nonce'
  end.

Definition apply_canonical_bonding_curve_envelope (payload : list Z) (signer_key_id : Z)
    : TM CanonicalBondingCurveOutcome :=
  signer_matches <- lift (map_err (InvalidType "Invalid canonical curve envelope")
                           (envelope_signer_matches_sender payload signer_key_id)) ;;
  guard signer_matches (InvalidType "Canonical curve signer does not match payload sender") ;;;
  apply_canonical_bonding_curve_tx payload.

(** The memo of a curve transaction, as the 88-byte payload. *)
Definition extract_bonding_curve_envelope (memo : list Z) (expected_buy : bool)
    : result (list Z) TxApplyError :=
  let first_byte := head memo in
  if expected_buy && bool_decide (first_byte = Some BONDING_CURVE_SELL_ACTION) then
    Err (InvalidType "Canonical SELL_CBE payload cannot execute as BondingCurveBuy")
  else if negb expected_buy && bool_decide (first_byte = Some BONDING_CURVE_BUY_ACTION) then
    Err (InvalidType "Canonical BUY_CBE payload cannot execute as BondingCurveSell")
  else if (length memo =? BONDING_CURVE_TX_PAYLOAD_LEN)%nat then Ok memo
  else Err (InvalidType "Canonical curve payload must be exactly 88 bytes").

(** ** Payroll *)

Definition payroll_state (e : BondingCurveEconomicState) (pool : PoolState)
    (treasury reserve outstanding : Z) (entry : PreBackedEntry) (sovrn : Z)
    : BondingCurveEconomicState := {|
  s_c := s_c e; reserve_balance := reserve; sov_treasury_cbe_balance := treasury;
  liquidity_pool_balance := liquidity_pool_balance e; total_sov_minted := total_sov_minted e;
  graduated := graduated e; sell_enabled := sell_enabled e;
  compensation_pool := pool; treasury_pool := treasury_pool e;
  liquidity_pool := liquidity_pool e; incentive_pool := incentive_pool e;
  strategic_reserve := strategic_reserve e;
  outstanding_pre_backed := outstanding;
  pre_backed_queue := pre_backed_queue e ++ [entry];
  debt_state := compute_debt_state outstanding;
  genesis_treasury_allocation := genesis_treasury_allocation e;
  sovrn_total_supply := sovrn |}.

(** Treasury and reserve credits for a salary: the gross is 25/12 of it. *)
Definition payroll_split (amount gross : Z) : Z * Z :=
  let treasury_credit := wmul 128 gross PAYROLL_TREASURY_PCT / 100 in
  let base_reserve := wmul 128 gross PAYROLL_RESERVE_PCT / 100 in
  let rounding_dust := wsub 128 (wsub 128 (wsub 128 gross treasury_credit) base_reserve) amount in
  (treasury_credit, wadd 128 base_reserve rounding_dust).

(** The economic part of [apply_payroll_mint]: the new state and the treasury's
    credit.  [price_at_supply] panics above the maximum supply. *)
Definition payroll_economics (data : ProcessPayrollData) (block_height : Z)
    (e : BondingCurveEconomicState) : result (BondingCurveEconomicState * Z) TxApplyError :=
  let amount := payroll_amount_cbe data in
  if amount =? 0 then Err (InvalidType "PAYROLL_MINT: amount_cbe must be > 0") else
  let? g25 := ok_or (checked_mul 128 amount PAYROLL_GROSS_NUM)
                (InvalidType "PAYROLL_MINT: gross overflow") in
  let? gross := ok_or (checked_div g25 PAYROLL_GROSS_DEN)
                  (InvalidType "PAYROLL_MINT: gross overflow") in
  let '(treasury_credit, reserve_credit) := payroll_split amount gross in
  let? new_outstanding := ok_or (checked_add 128 (outstanding_pre_backed e) gross)
                            (InvalidType "PAYROLL_MINT: outstanding overflow") in
  if DEBT_CEILING <? new_outstanding
  then Err (InvalidType "PAYROLL_MINT: debt ceiling breached") else
  let? pool := map_err (InvalidType "PAYROLL_MINT: compensation pool")
                 (pool_mint (compensation_pool e) amount) in
  let? treasury := ok_or (checked_add 128 (sov_treasury_cbe_balance e) treasury_credit)
                     (InvalidType "PAYROLL_MINT: sov_treasury overflow") in
  let? reserve := ok_or (checked_add 128 (reserve_balance e) reserve_credit)
                    (InvalidType "PAYROLL_MINT: reserve overflow") in
  let entry := {| entry_block_height := block_height; entry_amount_cbe := gross;
                  entry_recipient := collaborator_address data;
                  entry_deliverable_hash := deliverable_hash data; satisfied := false |} in
  let? price := map_err (Internal "panic: canonical price supply out of range")
                  (price_at_supply (s_c e)) in
  let sovrn_mint := default 0 (checked_mul 256 reserve_credit price) / SCALE in
  let sovrn := saturating_add 128 (sovrn_total_supply e)
                 (match u256_to_u128 sovrn_mint with Ok v => v | Err _ => 0 end) in
  Ok (payroll_state e pool treasury reserve new_outstanding entry sovrn, treasury_credit).

Definition apply_payroll_mint (payload : option ProcessPayrollData) (block_height : Z) : TM unit :=
  data <- lift (ok_or payload (InvalidType "ProcessPayroll missing payload")) ;;
  econ <- gets get_cbe_economic_state ;;
  r <- lift (payroll_economics data block_height econ) ;;
  let '(econ', treasury_credit) := r in
  storage (put_cbe_economic_state econ') ;;;
  credit_token cbe_token_id (collaborator_address data) (payroll_amount_cbe data) ;;;
  credit_token cbe_token_id fee_sink_address treasury_credit.

Definition apply_treasury_allocation (payload : option TreasuryAllocationData) : TM unit :=
  data <- lift (ok_or payload (InvalidType "TreasuryAllocation missing payload")) ;;
  transfer_token sov_token_id (source_treasury_key_id data) (destination_key_id data)
    (allocation_amount data).

(** ** Sector stakes *)

Definition DAO_HEALTHCARE_KEY_ID : Z :=
  0x9f8d4ccf10869f9a95b4d3e76834da4140aed7fe6af7e8aa3af0d7074c4ac86c.
Definition DAO_EDUCATION_KEY_ID : Z :=
  0xe4611cc1a4ebf28ad119e0c415b4300f53dd97703ee6aa793847c40fceea1d5d.
Definition DAO_ENERGY_KEY_ID : Z :=
  0xcb4fc86f2f0177f24be863874845ef3e4560dd89e981d1ff4fe07372ea693768.
Definition DAO_HOUSING_KEY_ID : Z :=
  0xccf0caad2c80e51c2e43ceab4a8b5d1d34d4914da57534697ba8003cea3a4ca2.
Definition DAO_FOOD_KEY_ID : Z :=
  0x5ad4d36b1d3a1aa783c05f316d67309b2b60de4fb76324428237dd25c2f9ffb4.

Definition known_daos : list Z :=
  [DAO_HEALTHCARE_KEY_ID; DAO_EDUCATION_KEY_ID; DAO_ENERGY_KEY_ID; DAO_HOUSING_KEY_ID;
   DAO_FOOD_KEY_ID].

Definition welfare_token_for_dao (dao_key_id : Z) : option TokenId :=
  let named name symbol := Some (generate_custom_token_id name symbol) in
  if dao_key_id =? DAO_HEALTHCARE_KEY_ID then named "HealthToken"%string "HEAL"%string
  else if dao_key_id =? DAO_EDUCATION_KEY_ID then named "EduToken"%string "EDU"%string
  else if dao_key_id =? DAO_ENERGY_KEY_ID then named "EnergyToken"%string "ENRG"%string
  else if dao_key_id =? DAO_HOUSING_KEY_ID then named "HousingToken"%string "HOME"%string
  else if dao_key_id =? DAO_FOOD_KEY_ID then named "FoodToken"%string "FOOD"%string
  else None.

Definition apply_dao_stake (payload : option DaoStakeData) (signer_key_id block_height : Z)
    : TM unit :=
  data <- lift (ok_or payload (InvalidType "DaoStake missing payload")) ;;
  let stk := stake_staker data in
  let dao := stake_dao_key_id data in
  guard (stk =? signer_key_id) (InvalidType "DaoStake staker must match transaction signer") ;;;
  guard (bool_decide (dao ∈ known_daos)) (InvalidType "DaoStake target is not a known sector DAO") ;;;
  transfer_token sov_token_id stk dao (stake_data_amount data) ;;;
  increment_token_nonce sov_token_id stk ;;;
  storage (put_dao_stake {|
    staker := stk; sector_dao_key_id := dao; stake_amount := stake_data_amount data;
    staked_at_height := block_height;
    locked_until := saturating_add 64 block_height (lock_blocks data) |}) ;;;
  match welfare_token_for_dao dao with
  | Some welfare => credit_token welfare stk (stake_data_amount data)
  | None => ret tt
  end.

Definition apply_dao_unstake (payload : option DaoUnstakeData) (signer_key_id block_height : Z)
    : TM unit :=
  data <- lift (ok_or payload (InvalidType "DaoUnstake missing payload")) ;;
  let stk := unstake_staker data in
  let dao := unstake_dao_key_id data in
  guard (stk =? signer_key_id) (InvalidType "DaoUnstake staker must match transaction signer") ;;;
  found <- gets (get_dao_stake dao stk) ;;
  record <- lift (ok_or found (InvalidType "DaoUnstake: no stake record found")) ;;
  guard (locked_until record <=? block_height) (InvalidType "DaoUnstake: stake still locked") ;;;
  expected_nonce <- gets (get_token_nonce sov_token_id stk) ;;
  guard (unstake_nonce data =? expected_nonce) (InvalidType "DaoUnstake: invalid nonce") ;;;
  transfer_token sov_token_id dao stk (stake_amount record) ;;;
  match welfare_token_for_dao dao with
  | Some welfare => debit_token welfare stk (stake_amount record)
  | None => ret tt
  end ;;;
  storage (delete_dao_stake dao stk) ;;;
  increment_token_nonce sov_token_id stk ;;;
  ret tt.

End Exec.

(** ** The splits *)

Lemma onramp_split_ok a :
  0 <= a <= MAX_GROSS_SOV_PER_TX →
  compute_onramp_split a = (20 * a / 100, 32 * a / 100, a - 20 * a / 100 - 32 * a / 100).
Proof.
  unfold MAX_GROSS_SOV_PER_TX. intros Ha. unfold compute_onramp_split, SOV_TREASURY_SHARE_PCT, RESERVE_SHARE_PCT.
  rewrite !wmul_small, (Z.mul_comm a 20), (Z.mul_comm a 32) by (unfold umax; lia).
  assert (0 <= 20 * a / 100 ∧ 0 <= 32 * a / 100 ∧ 20 * a / 100 + 32 * a / 100 <= a)
    by (split_and!; Z.to_euclidean_division_equations; lia).
  rewrite (wsub_small _ a), wsub_small by (unfold umax; lia). done.
Qed.

Lemma onramp_split_range a :
  0 <= a → 0 <= 20 * a / 100 ∧ 0 <= 32 * a / 100 ∧ 0 <= a - 20 * a / 100 - 32 * a / 100 <= a.
Proof. intros. split_and!; Z.to_euclidean_division_equations; lia. Qed.

(** The payroll split: nothing underflows, the dust is at most one unit, and the
    three parts make the gross. *)
Lemma payroll_split_ok x :
  0 < x → 25 * x / 12 <= DEBT_CEILING →
  ∃ dust, 0 <= dust <= 1 ∧
    payroll_split x (25 * x / 12) =
      (20 * (25 * x / 12) / 100, 32 * (25 * x / 12) / 100 + dust) ∧
    20 * (25 * x / 12) / 100 + (32 * (25 * x / 12) / 100 + dust) + x = 25 * x / 12.
Proof.
  change DEBT_CEILING with 147900000000000000000000000.
  intros Hx Hc. set (g := 25 * x / 12) in *.
  assert (25 * x - 12 < 12 * g <= 25 * x) as Hg
    by (unfold g; Z.to_euclidean_division_equations; lia).
  set (t := 20 * g / 100). set (b := 32 * g / 100).
  assert (20 * g - 100 < 100 * t <= 20 * g) as Ht
    by (unfold t; Z.to_euclidean_division_equations; lia).
  assert (32 * g - 100 < 100 * b <= 32 * g) as Hb
    by (unfold b; Z.to_euclidean_division_equations; lia).
  unfold payroll_split, PAYROLL_TREASURY_PCT, PAYROLL_RESERVE_PCT.
  rewrite !wmul_small, (Z.mul_comm g 20), (Z.mul_comm g 32) by (unfold umax; lia). fold t b.
  exists (g - t - b - x). split; [lia|]. split; [|lia].
  rewrite (wsub_small _ g t), (wsub_small _ (g - t) b), (wsub_small _ (g - t - b) x),
    wadd_small by (unfold umax; lia). done.
Qed.

(** ** Well-formed economic states *)

Record wf_econ (e : BondingCurveEconomicState) : Prop := {
  wf_s_c : 0 <= s_c e <= MAX_SUPPLY;
  wf_reserve : in_u 128 (reserve_balance e);
  wf_treasury : in_u 128 (sov_treasury_cbe_balance e);
  wf_sovrn : in_u 128 (sovrn_total_supply e);
  wf_minted : in_u 128 (total_sov_minted e);
  wf_liquidity : wf_pool (liquidity_pool e);
  wf_mirror : liquidity_pool_balance e = pool_balance (liquidity_pool e);
  wf_compensation : wf_pool (compensation_pool e);
  wf_debt : outstanding_pre_backed e = unsettled (pre_backed_queue e);
  wf_entries : Forall (λ p, 0 <= entry_amount_cbe p) (pre_backed_queue e);
  wf_ceiling : outstanding_pre_backed e <= DEBT_CEILING;
}.

Lemma mint_with_reserve_ok r s :
  in_u 128 r → 0 <= s <= MAX_SUPPLY → ∃ d, mint_with_reserve r s = Ok d ∧ best_purchase r s d.
Proof.
  intros Hr Hs. unfold mint_with_reserve. replace (_ <? _) with false by lia.
  destruct (mint_loop_ok 6 r 0 s) as (d & Hd & Hbest);
    [done|done|done|unfold umax; curve_consts; lia|pose proof (bands_count_range s); lia|].
  exists d. rewrite Hd. by split; [f_equal; lia|].
Qed.

Lemma satisfy_pre_backed_keeps amount e :
  let e' := satisfy_pre_backed amount e in
  s_c e' = s_c e ∧ reserve_balance e' = reserve_balance e ∧
  sov_treasury_cbe_balance e' = sov_treasury_cbe_balance e ∧
  liquidity_pool_balance e' = liquidity_pool_balance e ∧
  liquidity_pool e' = liquidity_pool e ∧ compensation_pool e' = compensation_pool e ∧
  total_sov_minted e' = total_sov_minted e ∧ sovrn_total_supply e' = sovrn_total_supply e ∧
  graduated e' = graduated e ∧ sell_enabled e' = sell_enabled e ∧ debt_state e' = debt_state e.
Proof. unfold satisfy_pre_backed. by destruct (satisfy_loop _ _ _). Qed.

(** What a buy does to the economic state. *)
Definition bought (e e' : BondingCurveEconomicState) (a d : Z) : Prop :=
  s_c e' = s_c e + d ∧
  reserve_balance e' = reserve_balance e + 32 * a / 100 ∧
  sov_treasury_cbe_balance e' = sov_treasury_cbe_balance e + 20 * a / 100 ∧
  pool_balance (liquidity_pool e') =
    pool_balance (liquidity_pool e) + (a - 20 * a / 100 - 32 * a / 100) ∧
  pool_ceiling (liquidity_pool e') = pool_ceiling (liquidity_pool e) ∧
  liquidity_pool_balance e' = pool_balance (liquidity_pool e') ∧
  compensation_pool e' = compensation_pool e ∧ total_sov_minted e' = total_sov_minted e ∧
  sell_enabled e' = sell_enabled e ∧
  graduated e' = (GRAD_THRESHOLD <=? reserve_balance e') || graduated e.

Lemma validate_buy_limits_ok a d mp :
  0 <= d → validate_buy_limits a d mp = Ok tt → 0 < d <= MAX_DELTA_S_PER_TX ∧ a * SCALE / d <= mp.
Proof.
  intros Hd. unfold validate_buy_limits. destruct (Z.eqb_spec d 0); [done|].
  destruct (Z.ltb_spec MAX_DELTA_S_PER_TX d); [done|].
  destruct (checked_mul 256 a SCALE) eqn:Hm; [|done]. cbn [ok_or]. int_inv.
  destruct (Z.ltb_spec mp (a * SCALE / d)); [done|]. lia.
Qed.

Lemma settled_entries q q' :
  Forall2 (λ p p', p' = p ∨ p' = satisfy_entry p) q q' →
  Forall (λ p, 0 <= entry_amount_cbe p) q →
  Forall (λ p, 0 <= entry_amount_cbe p) q' ∧ unsettled q' <= unsettled q.
Proof.
  induction 1 as [|p p' q q' Hp Hq IH]; [done|]. intros [Hp0 Hq0]%list.Forall_cons.
  destruct (IH Hq0) as [IH1 IH2]. rewrite !unsettled_cons. split.
  - constructor; [|done]. by destruct Hp as [-> | ->].
  - destruct Hp as [-> | ->]; simpl; case_match; lia.
Qed.

Lemma satisfy_pre_backed_wf amount e :
  wf_econ e → 0 <= amount → wf_econ (satisfy_pre_backed amount e) ∧
  outstanding_pre_backed (satisfy_pre_backed amount e) <= outstanding_pre_backed e.
Proof.
  intros Hwf Ha. unfold satisfy_pre_backed.
  destruct (satisfy_loop _ _ _) as [o q] eqn:Hl. destruct Hwf.
  apply satisfy_loop_spec in Hl as (Ho & _ & [Hset _]); [|done|done|lia].
  destruct (settled_entries _ _ Hset) as [Hq Hle]; [done|].
  split; [constructor; simpl; try done; lia|simpl; lia].
Qed.

Lemma set_graduated_wf g e : wf_econ e → wf_econ (set_graduated g e).
Proof. intros []. by constructor. Qed.

Lemma buy_economics_ok mp a e e' d :
  wf_econ e → 0 <= a → buy_economics mp a e = Ok (e', d) →
  0 < d <= MAX_DELTA_S_PER_TX ∧ best_purchase (32 * a / 100) (s_c e) d ∧
  a * SCALE / d <= mp ∧ a <= MAX_GROSS_SOV_PER_TX ∧ bought e e' a d ∧ wf_econ e' ∧
  outstanding_pre_backed e' <= outstanding_pre_backed e.
Proof.
  intros Hwf Ha Hb. unfold buy_economics in Hb.
  destruct (Z.ltb_spec MAX_GROSS_SOV_PER_TX a) as [|Hmax]; [done|].
  rewrite onramp_split_ok in Hb by lia.
  pose proof (onramp_split_range a Ha) as (Ht & Hr & Hl).
  unfold bought. set (t := 20 * a / 100) in *. set (r := 32 * a / 100) in *. set (l := a - t - r) in *.
  destruct (mint_with_reserve_ok r (s_c e)) as (d' & Hm & Hbest);
    [unfold in_u, umax, MAX_GROSS_SOV_PER_TX in *; lia|apply Hwf|].
  rewrite Hm in Hb. cbn [map_err] in Hb.
  destruct (validate_buy_limits a d' mp) as [[]|] eqn:Hv; [|done].
  apply validate_buy_limits_ok in Hv as [Hd Hslip]; [|apply Hbest].
  destruct (checked_add 128 (s_c e) d') as [sc'|] eqn:Hsc; [|done]. cbn [ok_or] in Hb.
  destruct (checked_add 128 (reserve_balance e) r) as [r'|] eqn:Hres; [|done]. cbn [ok_or] in Hb.
  destruct (checked_add 128 (sov_treasury_cbe_balance e) t) as [t'|] eqn:Htr; [|done].
  cbn [ok_or] in Hb.
  destruct (pool_mint (liquidity_pool e) l) as [p|] eqn:Hp; [|done]. cbn [map_err] in Hb. int_inv.
  apply pool_mint_ok in Hp as (Hp1 & Hp2 & ->).
  set (e1 := buy_state _ _ _ _ _ _) in Hb. injection Hb as <- <-.
  assert (wf_econ e1) as Hwf1.
  { destruct Hwf. destruct Hbest as (? & ? & _). unfold e1. constructor; simpl; try done;
      unfold in_u, wf_pool, saturating_add in *; simpl; lia. }
  destruct (satisfy_pre_backed_wf l e1) as [Hwf2 Hle]; [done|lia|].
  destruct (satisfy_pre_backed_keeps l e1) as (K1 & K2 & K3 & K4 & K5 & K6 & K7 & K8 & K9 & K10 & _).
  split_and!; try done; try lia; try (by apply set_graduated_wf); cbn;
    by rewrite ?K1, ?K2, ?K3, ?K4, ?K5, ?K6, ?K7, ?K9, ?K10.
Qed.

Lemma sell_economics_ok mp a e e' out :
  wf_econ e → 0 <= a → sell_economics mp a e = Ok (e', out) →
  a <= s_c e ∧ out = curve_cost (s_c e - a) (s_c e) ∧ 0 < out ∧ mp <= out ∧
  out <= reserve_balance e ∧ e' = set_sold (s_c e - a) (reserve_balance e - out) e ∧ wf_econ e'.
Proof.
  intros Hwf Ha Hs. unfold sell_economics in Hs. pose proof (wf_s_c _ Hwf) as Hsc.
  destruct (Z.lt_ge_cases (s_c e) a) as [Hlt|Hle].
  { unfold payout_for_burn in Hs. by rewrite (proj2 (Z.ltb_lt _ _)) in Hs by lia. }
  rewrite payout_for_burn_ok in Hs by lia. cbn [map_err] in Hs.
  pose proof (curve_cost_bounds (s_c e - a) (s_c e)) as Hc.
  set (c := curve_cost (s_c e - a) (s_c e)) in *.
  destruct (Z.eqb_spec c 0); [done|]. destruct (Z.ltb_spec c mp); [done|].
  destruct (Z.ltb_spec (reserve_balance e) c); [done|].
  rewrite (proj2 (checked_sub_Some (s_c e) a _)), (proj2 (checked_sub_Some (reserve_balance e) c _)) in Hs by done.
  injection Hs as <- <-. split_and!; try done; try lia.
  destruct Hwf. constructor; simpl; try done; unfold in_u in *; lia.
Qed.

(** What a payroll does to the economic state. *)
Lemma payroll_economics_ok data h e e' tc :
  wf_econ e → in_u 128 (payroll_amount_cbe data) → payroll_economics data h e = Ok (e', tc) →
  let x := payroll_amount_cbe data in
  let g := 25 * x / 12 in
  ∃ dust, 0 <= dust <= 1 ∧ 0 < x ∧ tc = 20 * g / 100 ∧ tc + (32 * g / 100 + dust) + x = g ∧
    s_c e' = s_c e ∧
    reserve_balance e' = reserve_balance e + (32 * g / 100 + dust) ∧
    sov_treasury_cbe_balance e' = sov_treasury_cbe_balance e + tc ∧
    pool_balance (compensation_pool e') = pool_balance (compensation_pool e) + x ∧
    outstanding_pre_backed e' = outstanding_pre_backed e + g ∧
    outstanding_pre_backed e' <= DEBT_CEILING ∧
    debt_state e' = compute_debt_state (outstanding_pre_backed e') ∧
    graduated e' = graduated e ∧ wf_econ e'.
Proof.
  intros Hwf [Hx0 _] Hp x g. unfold payroll_economics in Hp. fold x in Hp, Hx0.
  destruct (Z.eqb_spec x 0); [done|].
  destruct (checked_mul 128 x PAYROLL_GROSS_NUM) eqn:Hg; [|done]. cbn [ok_or] in Hp. int_inv.
  change (checked_div (x * PAYROLL_GROSS_NUM) PAYROLL_GROSS_DEN) with (Some (x * 25 / 12)) in Hp.
  cbn [ok_or] in Hp. rewrite (Z.mul_comm x 25) in Hp. fold g in Hp.
  assert (0 <= g) as Hg0 by (unfold g; Z.to_euclidean_division_equations; lia).
  destruct (payroll_split x g) as [t r] eqn:Hsp.
  destruct (checked_add 128 (outstanding_pre_backed e) g) eqn:Ho; [|done]. cbn [ok_or] in Hp. int_inv.
  destruct (Z.ltb_spec DEBT_CEILING (outstanding_pre_backed e + g)); [done|].
  assert (0 <= outstanding_pre_backed e) as Ho0
    by (rewrite (wf_debt _ Hwf); apply unsettled_nonneg, Hwf).
  destruct (payroll_split_ok x) as (dust & Hdust & Heq & Hsum); [lia|fold g; lia|]. fold g in Heq, Hsum.
  rewrite Hsp in Heq. injection Heq as -> ->.
  set (t := 20 * g / 100) in *. set (b := 32 * g / 100) in *.
  assert (0 <= t ∧ 0 <= b) as [Ht0 Hb0] by (split; apply Z.div_pos; lia).
  destruct (pool_mint (compensation_pool e) x) as [p|] eqn:Hpool; [|done]. cbn [map_err] in Hp.
  apply pool_mint_ok in Hpool as (Hp1 & Hp2 & ->).
  destruct (checked_add 128 (sov_treasury_cbe_balance e) t) eqn:Ht; [|done]. cbn [ok_or] in Hp.
  destruct (checked_add 128 (reserve_balance e) (b + dust)) eqn:Hr; [|done]. cbn [ok_or] in Hp. int_inv.
  destruct (price_at_supply_ok (s_c e)) as (bd & Hpr & Hbd & Hbs & _); [apply Hwf|].
  rewrite Hpr in Hp. cbn [map_err] in Hp.
  pose proof (band_price_bounds bd (s_c e) (in_BANDS_wf bd Hbd) Hbs) as Hprice.
  injection Hp as <- <-. exists dust. cbn. split_and!; try done; try lia.
  destruct Hwf. constructor; cbn; try done; try (unfold in_u, wf_pool in *; cbn; lia).
  - unfold in_u, saturating_add, checked_mul, u256_to_u128 in *.
    assert (0 <= P_START_0) by done. pose proof (umax_nonneg 128 ltac:(lia)).
    set (v := default 0 _ / SCALE).
    assert (0 <= v) by (unfold v; apply Z.div_pos; [|done]; case_match; simpl; nia).
    destruct (Z.ltb_spec (umax 128) v); lia.
  - unfold unsettled in *. rewrite fmap_app, sumZ_app. cbn. lia.
  - apply Forall_app. split; [done|]. by apply list.Forall_singleton.
Qed.

(** ** The curve as a state machine *)

(** The state a buy finally persists. *)
Definition persist_buy (a : Z) (e : BondingCurveEconomicState) : BondingCurveEconomicState :=
  let t := (compute_onramp_split a).1.1 in
  if 0 <? t then
    set_total_sov_minted (default (total_sov_minted e) (checked_add 128 (total_sov_minted e) t)) e
  else e.

(** States reached from an empty curve, such as the one of genesis, by successful
    operations in successive blocks, [n] of them buys. *)
Inductive curve_run : nat → BondingCurveEconomicState → Prop :=
| run_start e : wf_econ e → s_c e = 0 → curve_run 0 e
| run_buy n mp a e e' d :
    curve_run n e → 0 <= a → buy_economics mp a e = Ok (e', d) → curve_run (S n) (persist_buy a e')
| run_sell n mp a e e' out :
    curve_run n e → 0 <= a → sell_economics mp a e = Ok (e', out) → curve_run n e'
| run_payroll n data h e e' tc :
    curve_run n e → in_u 128 (payroll_amount_cbe data) →
    payroll_economics data h e = Ok (e', tc) → curve_run n e'.

Lemma persist_buy_wf a e :
  0 <= a <= MAX_GROSS_SOV_PER_TX → wf_econ e →
  wf_econ (persist_buy a e) ∧ s_c (persist_buy a e) = s_c e ∧
  reserve_balance (persist_buy a e) = reserve_balance e.
Proof.
  intros Ha Hwf. unfold persist_buy. rewrite onramp_split_ok by done. cbn [fst].
  destruct (Z.ltb_spec 0 (20 * a / 100)); [|done]. split_and!; try done.
  destruct Hwf. constructor; cbn; try done.
  destruct (checked_add 128 (total_sov_minted e) (20 * a / 100)) eqn:Hc; cbn; [|done].
  int_inv. unfold in_u in *. lia.
Qed.

Lemma default_econ_wf : wf_econ BondingCurveEconomicState_default.
Proof. constructor; by vm_compute. Qed.

(** A well-formed state whose reserve covers the redemption of the supply, up to
    two atomic units for each of [n] buys. *)
Definition solvent (n : nat) (e : BondingCurveEconomicState) : Prop :=
  wf_econ e ∧ curve_cost 0 (s_c e) <= reserve_balance e + 2 * Z.of_nat n.

Lemma solvent_mono n m e : (n <= m)%nat → solvent n e → solvent m e.
Proof. unfold solvent. intros ? [? ?]. split; [done|lia]. Qed.

Lemma empty_solvent n e : wf_econ e → s_c e = 0 → solvent n e.
Proof.
  intros Hwf H0. split; [done|]. rewrite H0, curve_cost_self. destruct (wf_reserve _ Hwf). lia.
Qed.

Lemma buy_solvent n mp a e e' d :
  solvent n e → 0 <= a → buy_economics mp a e = Ok (e', d) →
  solvent (S n) e' ∧ solvent (S n) (persist_buy a e').
Proof.
  intros [Hwf IH] Ha Hb.
  destruct (buy_economics_ok _ _ _ _ _ Hwf Ha Hb)
    as (_ & (Hd & Hm & Hc & _) & _ & Hmax & (Hsc & Hr & _) & Hwf' & _).
  destruct (persist_buy_wf a e') as (Hwf2 & Hsc2 & Hr2); [lia|done|]. unfold solvent.
  rewrite Hsc2, Hr2, Hsc, Hr. pose proof (wf_s_c _ Hwf).
  pose proof (curve_cost_split_any 0 (s_c e) (s_c e + d) ltac:(lia) ltac:(lia) ltac:(lia)).
  split; (split; [done|lia]).
Qed.

Lemma sell_solvent n mp a e e' out :
  solvent n e → 0 <= a → sell_economics mp a e = Ok (e', out) → solvent n e'.
Proof.
  intros [Hwf IH] Ha Hs.
  destruct (sell_economics_ok _ _ _ _ _ Hwf Ha Hs) as (Hle & Hout & _ & _ & _ & -> & Hwf').
  split; [done|]. cbn [s_c reserve_balance set_sold]. pose proof (wf_s_c _ Hwf).
  pose proof (curve_cost_split_any 0 (s_c e - a) (s_c e) ltac:(lia) ltac:(lia) ltac:(lia)). lia.
Qed.

Lemma payroll_solvent n data h e e' tc :
  solvent n e → in_u 128 (payroll_amount_cbe data) →
  payroll_economics data h e = Ok (e', tc) → solvent n e'.
Proof.
  intros [Hwf IH] Hx Hp.
  destruct (payroll_economics_ok _ _ _ _ _ Hwf Hx Hp)
    as (dust & Hdust & Hx0 & _ & _ & Hsc & Hr & _ & _ & _ & _ & _ & _ & Hwf').
  split; [done|]. rewrite Hsc, Hr.
  assert (0 <= 32 * (25 * payroll_amount_cbe data / 12) / 100)
    by (apply Z.div_pos; [|lia]; pose proof (Z.div_pos (25 * payroll_amount_cbe data) 12); lia).
  lia.
Qed.

Lemma solvent_payout n e a :
  solvent n e → 0 <= a <= s_c e →
  ∃ c, payout_for_burn a (s_c e) = Ok c ∧ c <= reserve_balance e + 2 * Z.of_nat n.
Proof.
  intros [Hwf Hsol] Ha. pose proof (wf_s_c _ Hwf).
  rewrite payout_for_burn_ok by lia. eexists. split; [done|].
  pose proof (curve_cost_split_any 0 (s_c e - a) (s_c e) ltac:(lia) ltac:(lia) ltac:(lia)) as Hs.
  pose proof (curve_cost_bounds 0 (s_c e - a) ltac:(lia)). lia.
Qed.

Lemma curve_run_solvent n e : curve_run n e → solvent n e.
Proof.
  induction 1; eauto using sell_solvent, payroll_solvent, empty_solvent.
  by eapply buy_solvent.
Qed.

(** The curve stays well formed and solvent.  In every state reached by buys,
    sells and payrolls in successive blocks the supply is within its maximum,
    the liquidity pool mirrors its balance within its ceiling, the outstanding
    debt is the sum of the unsettled entries and below the debt ceiling; and the
    reserve covers the redemption of any part of the supply, up to two atomic
    units for each buy made. *)
Theorem curve_wf_solvent n e :
  curve_run n e →
  wf_econ e ∧
  ∀ a, 0 <= a <= s_c e → ∃ c, payout_for_burn a (s_c e) = Ok c ∧
    c <= reserve_balance e + 2 * Z.of_nat n.
Proof.
  intros Hs%curve_run_solvent. split; [apply Hs|]. intros a Ha. by apply solvent_payout.
Qed.

(** C30: buying and selling back never drains the reserve.  Whoever buys on the
    curve and sells the tokens received in the next operation is paid no more
    than the reserve share of what was paid in, 32 per cent, the supply returns
    to what it was and the reserve is at least as large. *)
Theorem buy_then_sell_no_profit mp mp' a e e1 e2 d out :
  wf_econ e → 0 <= a → buy_economics mp a e = Ok (e1, d) →
  sell_economics mp' d (persist_buy a e1) = Ok (e2, out) →
  100 * out <= 32 * a ∧ s_c e2 = s_c e ∧ reserve_balance e <= reserve_balance e2.
Proof.
  intros Hwf Ha Hb Hs.
  destruct (buy_economics_ok _ _ _ _ _ Hwf Ha Hb)
    as (Hd & (_ & _ & Hc & _) & _ & Hmax & (Hsc & Hr & _) & Hwf1 & _).
  destruct (persist_buy_wf a e1) as (Hwf2 & Hsc2 & Hr2); [lia|done|].
  assert (0 <= d) as Hd0 by lia.
  destruct (sell_economics_ok mp' d _ e2 out Hwf2 Hd0 Hs) as (_ & -> & _ & _ & _ & -> & _).
  cbn [s_c reserve_balance set_sold]. rewrite Hsc2, Hr2, Hsc, Hr. replace (s_c e + d - d) with (s_c e) by lia.
  pose proof (Z.mul_div_le (32 * a) 100). lia.
Qed.

(** ** The handlers on the store *)

(** The economic state, account and stake as the open block would commit them. *)
Definition view_econ (s : SledStore) : BondingCurveEconomicState :=
  default (get_cbe_economic_state s) (b_cbe_economic_state (batch_of s)).

Lemma view_econ_some s e : b_cbe_economic_state (batch_of s) = Some e → view_econ s = e.
Proof. unfold view_econ. by intros ->. Qed.

Definition view_account (k : Z) (s : SledStore) : option BondingCurveAccountState :=
  apply_batch (cbe_accounts (db s)) (b_cbe_accounts (batch_of s)) !! k.

Definition view_stake (k : Z * Z) (s : SledStore) : option DaoStakeRecord :=
  apply_batch (dao_stakes (db s)) (b_dao_stakes (batch_of s)) !! k.

(** [s'] is [s] with other curve records pending; balances stay. *)
Definition curve_step (econ : option BondingCurveEconomicState)
    (accounts : gmap Z (option BondingCurveAccountState)) (s s' : SledStore) : Prop :=
  batch_step (λ b b', b' = upd_curve econ accounts (b_dao_stakes b) b) s s'.

Lemma put_econ_ok e s s' r :
  open s → storage (put_cbe_economic_state e) s = (s', Ok r) →
  curve_step (Some e) (b_cbe_accounts (batch_of s)) s s'.
Proof.
  intros Ho Hs%storage_ok. apply with_batch_open in Hs as [_ (? & ? & ? & Hb)]; [|done].
  by split_and!.
Qed.

Lemma put_account_ok k a s s' r :
  open s → storage (put_cbe_account_state k a) s = (s', Ok r) →
  curve_step (b_cbe_economic_state (batch_of s)) (<[k := Some a]> (b_cbe_accounts (batch_of s))) s s'.
Proof.
  intros Ho Hs%storage_ok. apply with_batch_open in Hs as [_ (? & ? & ? & Hb)]; [|done].
  by split_and!.
Qed.

Lemma curve_step_balance econ accounts s s' k :
  curve_step econ accounts s s' → view_balance k s' = view_balance k s.
Proof.
  intros (_ & Hd & _ & Hb). unfold view_balance, view_balances. by rewrite Hd, Hb.
Qed.

Lemma wf_balances_db s s' : db s' = db s → wf_balances s → wf_balances s'.
Proof. intros Hd Hwf t a. rewrite (get_token_balance_db t a s s' Hd). apply Hwf. Qed.

Lemma writes_db t a amount s s' :
  db s' = db s → debit_writes t a amount s' = debit_writes t a amount s ∧
                 credit_writes t a amount s' = credit_writes t a amount s.
Proof.
  intros Hd. unfold debit_writes, credit_writes. by rewrite (get_token_balance_db t a s s' Hd).
Qed.

Lemma balance_step_others ws s s' :
  balance_step ws s s' → b_cbe_economic_state (batch_of s') = b_cbe_economic_state (batch_of s) ∧
  b_cbe_accounts (batch_of s') = b_cbe_accounts (batch_of s) ∧
  b_dao_stakes (batch_of s') = b_dao_stakes (batch_of s) ∧
  b_token_nonces (batch_of s') = b_token_nonces (batch_of s) ∧ open s' ∧ db s' = db s.
Proof. unfold balance_step, other_writes. intros (? & ? & ? & Heq & _). by simplify_eq. Qed.

Section Handlers.
Context `{ChainParams}.

(** The records and balances after the two records and a debit and a credit. *)
Lemma curve_records_run econ' snd acc dt da ct ca s s1 s2 s3 s4 :
  open s → wf_balances s → 0 <= da → 0 <= ca →
  storage (put_cbe_economic_state econ') s = (s1, Ok tt) →
  storage (put_cbe_account_state snd acc) s1 = (s2, Ok tt) →
  debit_token dt snd da s2 = (s3, Ok tt) → credit_token ct snd ca s3 = (s4, Ok tt) →
  open s4 ∧ db s4 = db s ∧ b_cbe_economic_state (batch_of s4) = Some econ' ∧
  view_account snd s4 = Some acc ∧ da <= get_token_balance dt snd s ∧
  ∀ k, view_balance k s4 =
    last_written k (debit_writes dt snd da s ++ credit_writes ct snd ca s) (view_balance k s).
Proof.
  intros Ho Hwf Hda Hca H1 H2 H3 H4.
  pose proof (put_econ_ok _ _ _ _ Ho H1) as C1. pose proof C1 as (Ho1 & Hd1 & _ & Hb1).
  pose proof (put_account_ok _ _ _ _ _ Ho1 H2) as C2. pose proof C2 as (Ho2 & Hd2 & _ & Hb2).
  assert (db s2 = db s) as Hd2' by congruence.
  destruct (debit_token_ok _ _ _ _ _ _ Ho2 (wf_balances_db _ _ Hd2' Hwf) Hda H3) as [Hle S3].
  destruct (balance_step_others _ _ _ S3) as (E3 & A3 & _ & _ & Ho3 & Hd3).
  destruct (credit_token_ok _ _ _ _ _ _ Ho3 Hca H4) as [_ S4].
  destruct (balance_step_others _ _ _ S4) as (E4 & A4 & _ & _ & Ho4 & Hd4).
  assert (db s3 = db s) as Hd3' by congruence.
  rewrite (get_token_balance_db _ _ s) in Hle by done.
  split_and!; [done|congruence| | |done|].
  - by rewrite E4, E3, Hb2, Hb1.
  - unfold view_account. rewrite A4, A3, Hb2. cbn. rewrite apply_batch_lookup.
    by rewrite lookup_insert_eq.
  - intros k. destruct S3 as (_ & _ & _ & _ & V3), S4 as (_ & _ & _ & _ & V4).
    rewrite V4, V3, (curve_step_balance _ _ _ _ _ C2), (curve_step_balance _ _ _ _ _ C1),
      last_written_app, (proj1 (writes_db dt snd da s s2 Hd2')), (proj2 (writes_db ct snd ca s s3 Hd3')).
    done.
Qed.

Lemma apply_buy_ok mp a snd econ acc n s s' out :
  open s → wf_balances s → wf_econ econ → 0 <= a →
  apply_buy_cbe mp a snd econ acc n s = (s', Ok out) →
  ∃ e' d, buy_economics mp a econ = Ok (e', d) ∧ out = BuyOutcome cbe_token_id snd a d ∧
    open s' ∧ db s' = db s ∧ b_cbe_economic_state (batch_of s') = Some (persist_buy a e') ∧
    view_account snd s' = Some (set_nonce n acc) ∧ a <= get_token_balance sov_token_id snd s ∧
    ∀ k, view_balance k s' = last_written k
      (debit_writes sov_token_id snd a s ++ credit_writes cbe_token_id snd d s ++
       credit_writes sov_token_id fee_sink_address (20 * a / 100) s) (view_balance k s).
Proof.
  intros Ho Hwf Hwe Ha Hs. unfold apply_buy_cbe in Hs.
  apply bind_ok in Hs as (s0 & [e' d] & [-> Hb]%lift_ok & Hs).
  destruct (buy_economics_ok _ _ _ _ _ Hwe Ha Hb) as (Hd & _ & _ & Hmax & _).
  apply bind_ok in Hs as (s1 & [] & H1 & Hs). apply bind_ok in Hs as (s2 & [] & H2 & Hs).
  apply bind_ok in Hs as (s3 & [] & H3 & Hs). apply bind_ok in Hs as (s4 & [] & H4 & Hs).
  assert (0 <= d) as Hd0 by lia.
  destruct (curve_records_run _ _ _ _ _ _ _ _ _ _ _ _ Ho Hwf Ha Hd0 H1 H2 H3 H4)
    as (Ho4 & Hd4 & He4 & Ha4 & Hle & Hv4).
  apply bind_ok in Hs as (s5 & [] & Hmint & [-> ->]%ret_ok).
  exists e', d. split; [done|]. split; [done|]. unfold persist_buy.
  rewrite onramp_split_ok in Hmint |- * by lia. cbn [fst] in *.
  pose proof (onramp_split_range a Ha) as (Ht & _).
  destruct (Z.ltb_spec 0 (20 * a / 100)) as [Hpos|Hz].
  - apply bind_ok in Hmint as (s6 & [] & Hc & Hput).
    destruct (credit_token_ok _ _ _ _ _ _ Ho4 Ht Hc) as [_ S6].
    destruct (balance_step_others _ _ _ S6) as (_ & A6 & _ & _ & Ho6 & Hd6).
    pose proof (put_econ_ok _ _ _ _ Ho6 Hput) as C7. pose proof C7 as (Ho7 & Hd7 & _ & Hb7).
    split_and!; [done|congruence|by rewrite Hb7| |done|].
    + unfold view_account in *. rewrite Hb7. cbn. by rewrite Hd7, Hd6, A6.
    + intros k. destruct S6 as (_ & _ & _ & _ & V6).
      rewrite (curve_step_balance _ _ _ _ _ C7), V6, Hv4, <- last_written_app, <- app_assoc.
      by rewrite (proj2 (writes_db _ _ _ s s4 Hd4)).
  - apply ret_ok in Hmint as [-> _]. replace (20 * a / 100) with 0 by lia.
    split_and!; try done. intros k. rewrite Hv4. unfold credit_writes at 3. cbn. by rewrite app_nil_r.
Qed.

Lemma apply_sell_ok mp a snd econ acc n s s' out :
  open s → wf_balances s → wf_econ econ → 0 <= a →
  apply_sell_cbe mp a snd econ acc n s = (s', Ok out) →
  ∃ e' c, sell_economics mp a econ = Ok (e', c) ∧ out = SellOutcome cbe_token_id snd a c ∧
    open s' ∧ db s' = db s ∧ b_cbe_economic_state (batch_of s') = Some e' ∧
    view_account snd s' = Some (set_nonce n acc) ∧ a <= get_token_balance cbe_token_id snd s ∧
    ∀ k, view_balance k s' = last_written k
      (debit_writes cbe_token_id snd a s ++ credit_writes sov_token_id snd c s) (view_balance k s).
Proof.
  intros Ho Hwf Hwe Ha Hs. unfold apply_sell_cbe in Hs.
  apply bind_ok in Hs as (s0 & [e' c] & [-> Hb]%lift_ok & Hs).
  destruct (sell_economics_ok _ _ _ _ _ Hwe Ha Hb) as (_ & _ & Hc & _).
  apply bind_ok in Hs as (s1 & [] & H1 & Hs). apply bind_ok in Hs as (s2 & [] & H2 & Hs).
  apply bind_ok in Hs as (s3 & [] & H3 & Hs). apply bind_ok in Hs as (s4 & [] & H4 & [-> ->]%ret_ok).
  assert (0 <= c) as Hc0 by lia.
  destruct (curve_records_run _ _ _ _ _ _ _ _ _ _ _ _ Ho Hwf Ha Hc0 H1 H2 H3 H4)
    as (Ho4 & Hd4 & He4 & Ha4 & Hle & Hv4).
  exists e', c. by split_and!.
Qed.

(** The fields both kinds of curve transactions have. *)
Definition curve_nonce (tx : CanonicalBondingCurveTx) : Nonce48 :=
  match tx with Buy tx => buy_nonce tx | Sell tx => sell_nonce tx end.
Definition curve_amount (tx : CanonicalBondingCurveTx) : Z :=
  match tx with Buy tx => amount_in tx | Sell tx => amount_cbe tx end.
Definition curve_expected_s_c (tx : CanonicalBondingCurveTx) : Z :=
  match tx with Buy tx => buy_expected_s_c tx | Sell tx => sell_expected_s_c tx end.

(** The checks a curve transaction passes before it is dispatched. *)
Lemma canonical_tx_ok p tx s s' out :
  decode_canonical_bonding_curve_tx p = Ok tx →
  apply_canonical_bonding_curve_tx p s = (s', Ok out) →
  let econ := get_cbe_economic_state s in
  let account := account_state (canonical_curve_sender tx) s in
  let n := Nonce48_to_u64 (curve_nonce tx) in
  curve_amount tx ≠ 0 ∧ graduated econ = false ∧ n = Nonce48_to_u64 (next_nonce account) ∧
  curve_expected_s_c tx = s_c econ ∧
  ∃ nonce', Nonce48_from_u64 (wadd 64 n 1) = Some nonce' ∧
    match tx with
    | Buy t => apply_buy_cbe (max_price t) (amount_in t) (buy_sender t) econ account nonce' s
    | Sell t => apply_sell_cbe (min_payout t) (amount_cbe t) (sell_sender t) econ account nonce' s
    end = (s', Ok out).
Proof.
  intros Hdec Hs. unfold apply_canonical_bonding_curve_tx in Hs. rewrite Hdec in Hs.
  apply bind_ok in Hs as (s0 & tx' & [-> [= <-]]%lift_ok & Hs). destruct tx as [tx|tx].
  all: apply bind_ok in Hs as (s0 & [] & [-> Hnz]%guard_ok & Hs).
  all: apply bind_ok in Hs as (s0 & econ & [-> ->]%gets_ok & Hs).
  all: apply bind_ok in Hs as (s0 & [] & [-> Hg]%guard_ok & Hs).
  all: apply bind_ok in Hs as (s0 & [] & [-> _]%guard_ok & Hs).
  all: apply bind_ok in Hs as (s0 & account & [-> ->]%gets_ok & Hs).
  all: apply bind_ok in Hs as (s0 & [] & [-> Hn]%guard_ok & Hs).
  all: apply bind_ok in Hs as (s0 & bal & [-> ->]%gets_ok & Hs).
  all: apply bind_ok in Hs as (s0 & [] & [-> _]%guard_ok & Hs).
  all: apply bind_ok in Hs as (s0 & [] & [-> Hst]%guard_ok & Hs).
  all: apply bind_ok in Hs as (s0 & nonce' & [-> Hfrom%ok_or_ok]%lift_ok & Hs).
  all: int_inv; split_and!; try done; exists nonce'; done.
Qed.

(** A buy does what it announces.  When a BUY_CBE payload is applied in an
    open block, the curve had not graduated, the nonce and the expected supply
    match, and the tokens minted are the most the reserve share of the payment
    affords (or end a band whose end the share pays for exactly), at an effective
    price within the buyer's limit.  The state gains
    them in the supply and the three shares of the payment in treasury, reserve
    and liquidity, which add up to it.  If the buyer is not the fee sink and the
    block has not touched the balances, the buyer pays exactly the amount and
    receives exactly the tokens, and the sink receives the treasury share. *)
Theorem curve_buy_spec p tx s s' out :
  open s → wf_balances s → wf_econ (get_cbe_economic_state s) → 0 <= amount_in tx →
  decode_canonical_bonding_curve_tx p = Ok (Buy tx) →
  apply_canonical_bonding_curve_tx p s = (s', Ok out) →
  let e := get_cbe_economic_state s in
  let a := amount_in tx in
  let buyer := buy_sender tx in
  ∃ d c e', out = BuyOutcome cbe_token_id buyer a d ∧ graduated e = false ∧
    buy_expected_s_c tx = s_c e ∧ 0 < d ∧ cost_to_mint d (s_c e) = Ok c ∧ c <= 32 * a / 100 ∧
    (s_c e + d = MAX_SUPPLY ∨ (c = 32 * a / 100 ∧ at_band_end (s_c e) d) ∨
     ∃ c', cost_to_mint (d + 1) (s_c e) = Ok c' ∧ 32 * a / 100 < c') ∧
    a * SCALE / d <= max_price tx ∧
    bought e e' a d ∧ view_econ s' = persist_buy a e' ∧ wf_econ (view_econ s') ∧
    (sov_token_id ≠ cbe_token_id → buyer ≠ fee_sink_address →
     (∀ k, view_balance k s = get_token_balance k.1 k.2 s) →
     view_balance (sov_token_id, buyer) s' = view_balance (sov_token_id, buyer) s - a ∧
     view_balance (cbe_token_id, buyer) s' = view_balance (cbe_token_id, buyer) s + d ∧
     view_balance (sov_token_id, fee_sink_address) s' =
       view_balance (sov_token_id, fee_sink_address) s + 20 * a / 100).
Proof.
  intros Ho Hwf Hwe Ha Hdec Hs. cbv zeta.
  destruct (canonical_tx_ok _ _ _ _ _ Hdec Hs) as (Hnz & Hg & _ & Hst & n' & _ & Hbuy).
  destruct (apply_buy_ok _ _ _ _ _ _ _ _ _ Ho Hwf Hwe Ha Hbuy)
    as (e' & d & Hecon & -> & Ho' & Hd' & Hb' & _ & Hle & Hv).
  destruct (buy_economics_ok _ _ _ _ _ Hwe Ha Hecon)
    as (Hd & (_ & Hm & Hc & Hbest) & Hslip & Hmax & Hbought & Hwe' & _).
  pose proof (wf_s_c _ Hwe) as Hsc.
  set (e := get_cbe_economic_state s) in *. set (a := amount_in tx) in *.
  exists d, (curve_cost (s_c e) (s_c e + d)), e'.
  assert (view_econ s' = persist_buy a e') as Hve by (by apply view_econ_some).
  split_and!; try done; try lia; [by apply cost_to_mint_ok; lia| | |].
  - destruct (decide (s_c e + d = MAX_SUPPLY)) as [?|Hlt]; [by left|]. right.
    destruct Hbest as [?|[?|Hbest]]; [done|by left|right].
    rewrite cost_to_mint_ok by lia. eexists. split; [done|]. by rewrite Z.add_assoc.
  - rewrite Hve. apply persist_buy_wf; [lia|done].
  - intros Hne Hsink Hview. rewrite !Hv, !Hview. cbn [fst snd].
    unfold debit_writes, credit_writes. pose proof (onramp_split_range a Ha) as (Ht & _).
    rewrite (proj2 (Z.eqb_neq a 0)), (proj2 (Z.eqb_neq d 0)) by (done || lia).
    destruct (Z.eqb_spec (20 * a / 100) 0) as [Hz|Hz]; cbn;
      repeat case_bool_decide; simplify_eq; split_and!; lia.
Qed.

Lemma Nonce48_succ n n' :
  wf_nonce n → Nonce48_from_u64 (wadd 64 (Nonce48_to_u64 n) 1) = Some n' →
  Nonce48_to_u64 n' = Nonce48_to_u64 n + 1.
Proof.
  intros Hn%wf_nonce_range Hs. change Nonce48_MAX with (2 ^ 48 - 1) in Hn.
  rewrite wadd_small in Hs by (unfold umax; lia).
  destruct (Z.le_gt_cases (Nonce48_to_u64 n + 1) Nonce48_MAX).
  - destruct (Nonce48_to_from (Nonce48_to_u64 n + 1)) as (m & Hm & _ & Hto); [lia|]. congruence.
  - unfold Nonce48_from_u64 in Hs. by rewrite (proj2 (Z.ltb_lt _ _)) in Hs.
Qed.

(** A curve transaction cannot be replayed.  Once it has been applied in a
    block and the block is committed, applying the same payload in the next
    block is refused and changes nothing. *)
Theorem curve_replay_refused p tx h s s' out s1 s2 u1 u2 :
  open s → wf_balances s → wf_econ (get_cbe_economic_state s) →
  decode_canonical_bonding_curve_tx p = Ok tx → wf_curve_tx tx →
  apply_canonical_bonding_curve_tx p s = (s', Ok out) →
  commit_block s' = (s1, Ok u1) → begin_block h s1 = (s2, Ok u2) →
  ∃ err, apply_canonical_bonding_curve_tx p s2 = (s2, Err err).
Proof.
  intros Ho Hwf Hwe Hdec Hwtx Hs Hcommit Hbegin.
  destruct (canonical_tx_ok _ _ _ _ _ Hdec Hs) as (Hnz & _ & Hn & _ & n' & Hn' & Hrun).
  assert (in_u 128 (curve_amount tx) ∧ wf_nonce (curve_nonce tx)) as [[Ha _] Hwn]
    by (destruct tx; split; apply Hwtx).
  assert (open s' ∧ ∃ acc, view_account (canonical_curve_sender tx) s' = Some (set_nonce n' acc))
    as [Ho' [acc Hacc]].
  { destruct tx as [tx|tx].
    - destruct (apply_buy_ok _ _ _ _ _ _ _ _ _ Ho Hwf Hwe Ha Hrun) as (? & ? & _ & _ & ? & _ & _ & ? & _).
      by split; [|eexists].
    - destruct (apply_sell_ok _ _ _ _ _ _ _ _ _ Ho Hwf Hwe Ha Hrun) as (? & ? & _ & _ & ? & _ & _ & ? & _).
      by split; [|eexists]. }
  apply begin_block_ok in Hbegin as (Hdb2 & _ & _ & _). rewrite (commit_db _ _ _ Ho' Hcommit) in Hdb2.
  assert (account_state (canonical_curve_sender tx) s2 = set_nonce n' acc) as Hacc2.
  { unfold account_state, get_cbe_account_state. rewrite Hdb2. cbn.
    unfold view_account in Hacc. by rewrite Hacc. }
  assert (Nonce48_to_u64 n' = Nonce48_to_u64 (curve_nonce tx) + 1) as Hsucc
    by (by apply Nonce48_succ).
  unfold apply_canonical_bonding_curve_tx. rewrite Hdec. erewrite bind_step by done.
  destruct tx as [tx|tx]; cbn [curve_amount canonical_curve_sender curve_nonce] in *.
  all: rewrite (proj2 (Z.eqb_neq _ 0) Hnz); do 2 erewrite bind_step by done.
  all: destruct (graduated _); [by eexists|]; erewrite bind_step by done.
  2: destruct (sell_enabled _); [|by eexists].
  all: do 2 erewrite bind_step by done.
  all: rewrite Hacc2; cbn [next_nonce set_nonce]; rewrite Hsucc, (proj2 (Z.eqb_neq _ _)) by lia.
  all: by eexists.
Qed.

(** Two buys in one block corrupt the curve.  Both read the state before the
    block, so both can succeed, at the same price; the second overwrites the
    economic state of the first.  The two buyers hold the tokens of both buys,
    while supply and reserve count only the second. *)
Theorem same_block_buys_diverge p1 p2 tx1 tx2 s s1 s2 d1 d2 :
  open s → wf_balances s → wf_econ (get_cbe_economic_state s) →
  0 <= amount_in tx1 → 0 <= amount_in tx2 →
  decode_canonical_bonding_curve_tx p1 = Ok (Buy tx1) →
  decode_canonical_bonding_curve_tx p2 = Ok (Buy tx2) →
  sov_token_id ≠ cbe_token_id → buy_sender tx1 ≠ buy_sender tx2 →
  apply_canonical_bonding_curve_tx p1 s =
    (s1, Ok (BuyOutcome cbe_token_id (buy_sender tx1) (amount_in tx1) d1)) →
  apply_canonical_bonding_curve_tx p2 s1 =
    (s2, Ok (BuyOutcome cbe_token_id (buy_sender tx2) (amount_in tx2) d2)) →
  let e := get_cbe_economic_state s in
  0 < d1 ∧ 0 < d2 ∧
  view_balance (cbe_token_id, buy_sender tx1) s2 = get_token_balance cbe_token_id (buy_sender tx1) s + d1 ∧
  view_balance (cbe_token_id, buy_sender tx2) s2 = get_token_balance cbe_token_id (buy_sender tx2) s + d2 ∧
  s_c (view_econ s2) = s_c e + d2 ∧
  reserve_balance (view_econ s2) = reserve_balance e + 32 * amount_in tx2 / 100.
Proof.
  intros Ho Hwf Hwe Ha1 Ha2 Hdec1 Hdec2 Htok Hne Hs1 Hs2. cbv zeta.
  destruct (canonical_tx_ok _ _ _ _ _ Hdec1 Hs1) as (_ & _ & _ & _ & n1 & _ & Hb1).
  destruct (apply_buy_ok _ _ _ _ _ _ _ _ _ Ho Hwf Hwe Ha1 Hb1)
    as (e1 & d1' & Hecon1 & [= <-] & Ho1 & Hd1 & _ & _ & _ & Hv1).
  assert (get_cbe_economic_state s1 = get_cbe_economic_state s) as Hecon
    by (unfold get_cbe_economic_state; by rewrite Hd1).
  destruct (canonical_tx_ok _ _ _ _ _ Hdec2 Hs2) as (_ & _ & _ & _ & n2 & _ & Hb2).
  rewrite Hecon in Hb2.
  destruct (apply_buy_ok _ _ _ _ _ _ _ _ _ Ho1 (wf_balances_db _ _ Hd1 Hwf) Hwe Ha2 Hb2)
    as (e2 & d2' & Hecon2 & [= <-] & Ho2 & Hd2 & Hbe2 & _ & _ & Hv2).
  destruct (buy_economics_ok _ _ _ _ _ Hwe Ha1 Hecon1) as (Hp1 & _).
  destruct (buy_economics_ok _ _ _ _ _ Hwe Ha2 Hecon2)
    as (Hp2 & _ & _ & Hmax2 & (Hsc2 & Hr2 & _) & Hwe2 & _).
  destruct (persist_buy_wf (amount_in tx2) e2) as (_ & Hsc3 & Hr3); [lia|done|].
  rewrite (view_econ_some _ _ Hbe2), Hsc3, Hr3, Hsc2, Hr2.
  rewrite !Hv2, !Hv1. unfold debit_writes, credit_writes.
  rewrite !(get_token_balance_db _ _ _ _ Hd1), (proj2 (Z.eqb_neq d1 0)), (proj2 (Z.eqb_neq d2 0)) by lia.
  split_and!; try lia; repeat case_match; cbn; repeat case_bool_decide; simplify_eq; done.
Qed.

(** A payroll of [x] mints a gross of 25x/12, rounded down, and splits it
    without loss: the collaborator receives exactly [x], the fee sink 20 per cent
    of the gross, the reserve the rest, which is 32 per cent and at most one
    unit of dust; nothing underflows.  The gross is added to the debt, which
    stays under its ceiling, and the debt state follows it.  The reserve, from
    which sellers are paid in SOV, grows although no SOV balance changes. *)
Theorem payroll_spec data h s s' u :
  open s → wf_balances s → wf_econ (get_cbe_economic_state s) →
  in_u 128 (payroll_amount_cbe data) → sov_token_id ≠ cbe_token_id →
  apply_payroll_mint (Some data) h s = (s', Ok u) →
  let e := get_cbe_economic_state s in
  let x := payroll_amount_cbe data in
  let g := 25 * x / 12 in
  ∃ dust, 0 <= dust <= 1 ∧ 20 * g / 100 + (32 * g / 100 + dust) + x = g ∧
    let e' := view_econ s' in
    wf_econ e' ∧ s_c e' = s_c e ∧ reserve_balance e' = reserve_balance e + (32 * g / 100 + dust) ∧
    outstanding_pre_backed e' = outstanding_pre_backed e + g ∧
    outstanding_pre_backed e' <= DEBT_CEILING ∧
    debt_state e' = compute_debt_state (outstanding_pre_backed e') ∧
    (∀ a, view_balance (sov_token_id, a) s' = view_balance (sov_token_id, a) s) ∧
    (collaborator_address data ≠ fee_sink_address →
     view_balance (cbe_token_id, collaborator_address data) s' =
       get_token_balance cbe_token_id (collaborator_address data) s + x ∧
     (20 * g / 100 ≠ 0 → view_balance (cbe_token_id, fee_sink_address) s' =
       get_token_balance cbe_token_id fee_sink_address s + 20 * g / 100)).
Proof.
  intros Ho Hwf Hwe Hx Htok Hs. cbv zeta. unfold apply_payroll_mint in Hs.
  apply bind_ok in Hs as (s0 & data' & [-> [= <-]]%lift_ok & Hs).
  apply bind_ok in Hs as (s0 & e & [-> ->]%gets_ok & Hs).
  apply bind_ok in Hs as (s0 & [e' tc] & [-> Hp]%lift_ok & Hs).
  destruct (payroll_economics_ok _ _ _ _ _ Hwe Hx Hp)
    as (dust & Hdust & Hx0 & Htc & Hsum & Hsc & Hr & _ & _ & Hout & Hceil & Hds & _ & Hwe').
  set (x := payroll_amount_cbe data) in *. set (g := 25 * x / 12) in *.
  apply bind_ok in Hs as (s1 & [] & H1 & Hs). apply bind_ok in Hs as (s2 & [] & H2 & H3).
  pose proof (put_econ_ok _ _ _ _ Ho H1) as C1. pose proof C1 as (Ho1 & Hd1 & _ & Hb1).
  assert (0 <= x ∧ 0 <= tc) as [Hx1 Htc0].
  { split; [lia|]. subst tc. apply Z.div_pos; [|lia]. pose proof (Z.div_pos (25 * x) 12). lia. }
  destruct (credit_token_ok _ _ _ _ _ _ Ho1 Hx1 H2) as [_ S2].
  destruct (balance_step_others _ _ _ S2) as (E2 & _ & _ & _ & Ho2 & Hd2).
  destruct (credit_token_ok _ _ _ _ _ _ Ho2 Htc0 H3) as [_ S3].
  destruct (balance_step_others _ _ _ S3) as (E3 & _).
  assert (view_econ s' = e') as -> by (apply view_econ_some; rewrite E3, E2, Hb1; done).
  exists dust. rewrite <- Htc. split_and!; try done; try lia.
  all: destruct S2 as (_ & _ & _ & _ & V2), S3 as (_ & _ & _ & _ & V3).
  - intros a. rewrite V3, V2, (curve_step_balance _ _ _ _ _ C1). unfold credit_writes.
    repeat case_match; cbn; repeat case_bool_decide; simplify_eq; done.
  - intros Hne. rewrite !V3, !V2, !(curve_step_balance _ _ _ _ _ C1). unfold credit_writes.
    assert (db s2 = db s) as Hd2' by congruence.
    rewrite !(get_token_balance_db _ _ _ _ Hd1), !(get_token_balance_db _ _ _ _ Hd2'),
      (proj2 (Z.eqb_neq x 0)) by lia.
    destruct (Z.eqb_spec tc 0); cbn; repeat case_bool_decide; simplify_eq; done.
Qed.

(** ** Stakes *)

Lemma transfer_token_run t from to a s :
  deflationary_burn t a s = 0 →
  transfer_token t from to a s = (debit_token t from a ;;; credit_token t to a) s.
Proof. intros Hb. unfold transfer_token. erewrite bind_step by done. by rewrite Hb. Qed.

Lemma transfer_token_ok t from to a s s' u :
  open s → wf_balances s → 0 <= a → deflationary_burn t a s = 0 →
  transfer_token t from to a s = (s', Ok u) →
  a <= get_token_balance t from s ∧ (a ≠ 0 → get_token_balance t to s + a <= umax 128) ∧
  balance_step (debit_writes t from a s ++ credit_writes t to a s) s s'.
Proof.
  intros Ho Hwf Ha Hb Hs. rewrite transfer_token_run in Hs by done.
  apply bind_ok in Hs as (s1 & [] & H1 & H2).
  destruct (debit_token_ok _ _ _ _ _ _ Ho Hwf Ha H1) as [Hle S1].
  destruct (balance_step_others _ _ _ S1) as (_ & _ & _ & _ & Ho1 & Hd1).
  destruct (credit_token_ok _ _ _ _ _ _ Ho1 Ha H2) as [Hmax S2].
  rewrite (get_token_balance_db _ _ _ _ Hd1) in Hmax. split_and!; [done|done|].
  rewrite <- (proj2 (writes_db t to a s s1 Hd1)). by eapply balance_step_trans.
Qed.

Lemma transfer_token_total t from to a s :
  open s → wf_balances s → 0 <= a → deflationary_burn t a s = 0 →
  a <= get_token_balance t from s → get_token_balance t to s + a <= umax 128 →
  ∃ s', transfer_token t from to a s = (s', Ok tt).
Proof.
  intros Ho Hwf Ha Hb Hle Hmax. rewrite transfer_token_run by done.
  destruct (debit_token_total t from a s Ho Hle) as [s1 H1]. erewrite bind_step by done.
  destruct (debit_token_ok _ _ _ _ _ _ Ho Hwf Ha H1) as [_ S1].
  destruct (balance_step_others _ _ _ S1) as (_ & _ & _ & _ & Ho1 & Hd1).
  apply credit_token_total; [done|]. by rewrite (get_token_balance_db _ _ _ _ Hd1).
Qed.

(** A step that writes no balance. *)
Definition keeps_balances (b b' : PendingBatch) : Prop :=
  b_token_balances b' = b_token_balances b.

Lemma view_balance_keeps s s' k :
  db s' = db s → keeps_balances (batch_of s) (batch_of s') → view_balance k s' = view_balance k s.
Proof. unfold view_balance, view_balances, keeps_balances. by intros -> ->. Qed.

Lemma increment_nonce_run t a s :
  open s → ∃ s' n, increment_token_nonce t a s = (s', Ok n) ∧ open s' ∧ db s' = db s ∧
    keeps_balances (batch_of s) (batch_of s') ∧
    b_dao_stakes (batch_of s') = b_dao_stakes (batch_of s).
Proof.
  intros Ho. unfold increment_token_nonce, storage, store_increment_token_nonce.
  erewrite bind_step by done. unfold set_token_nonce, bind.
  destruct (with_batch _ s) as [s' r] eqn:Hw.
  apply with_batch_open in Hw as [-> (? & ? & ? & Hb)]; [|done].
  eexists s', _. split; [done|]. unfold keeps_balances. by rewrite Hb.
Qed.

Lemma put_dao_stake_run r s :
  open s → ∃ s', storage (put_dao_stake r) s = (s', Ok tt) ∧ open s' ∧ db s' = db s ∧
    keeps_balances (batch_of s) (batch_of s') ∧
    b_dao_stakes (batch_of s') =
      <[(sector_dao_key_id r, staker r) := Some r]> (b_dao_stakes (batch_of s)).
Proof.
  intros Ho. unfold storage, put_dao_stake. destruct (with_batch_strict _ s) as [s' x] eqn:Hw.
  apply with_batch_strict_open in Hw as [-> (? & ? & ? & Hb)]; [|done].
  eexists s'. split; [done|]. unfold keeps_balances. by rewrite Hb.
Qed.

Lemma delete_dao_stake_run dao stk s :
  open s → ∃ s', storage (delete_dao_stake dao stk) s = (s', Ok tt) ∧ open s' ∧ db s' = db s ∧
    keeps_balances (batch_of s) (batch_of s') ∧
    b_dao_stakes (batch_of s') = <[(dao, stk) := None]> (b_dao_stakes (batch_of s)).
Proof.
  intros Ho. unfold storage, delete_dao_stake. destruct (with_batch_strict _ s) as [s' x] eqn:Hw.
  apply with_batch_strict_open in Hw as [-> (? & ? & ? & Hb)]; [|done].
  eexists s'. split; [done|]. unfold keeps_balances. by rewrite Hb.
Qed.

Lemma welfare_of_known dao : dao ∈ known_daos → ∃ w, welfare_token_for_dao dao = Some w.
Proof.
  unfold known_daos. intros Hd. unfold welfare_token_for_dao.
  repeat (apply elem_of_cons in Hd as [->|Hd]; [cbn; by eexists|]). by apply elem_of_nil in Hd.
Qed.

Definition stake_record (d : DaoStakeData) (h : Z) : DaoStakeRecord := {|
  staker := stake_staker d; sector_dao_key_id := stake_dao_key_id d;
  stake_amount := stake_data_amount d; staked_at_height := h;
  locked_until := saturating_add 64 h (lock_blocks d) |}.

Lemma dao_stake_ok d signer h s s' u :
  open s → wf_balances s → 0 <= stake_data_amount d →
  deflationary_burn sov_token_id (stake_data_amount d) s = 0 →
  apply_dao_stake (Some d) signer h s = (s', Ok u) →
  let stk := stake_staker d in
  let dao := stake_dao_key_id d in
  let a := stake_data_amount d in
  stk = signer ∧ a <= get_token_balance sov_token_id stk s ∧ open s' ∧ db s' = db s ∧
  b_dao_stakes (batch_of s') = <[(dao, stk) := Some (stake_record d h)]> (b_dao_stakes (batch_of s)) ∧
  ∃ w, welfare_token_for_dao dao = Some w ∧
    (a ≠ 0 → get_token_balance sov_token_id dao s + a <= umax 128 ∧
             get_token_balance w stk s + a <= umax 128) ∧
    ∀ k, view_balance k s' = last_written k
      (debit_writes sov_token_id stk a s ++ credit_writes sov_token_id dao a s ++
       credit_writes w stk a s) (view_balance k s).
Proof.
  intros Ho Hwf Ha Hburn Hs. cbv zeta. unfold apply_dao_stake in Hs.
  apply bind_ok in Hs as (s0 & d' & [-> [= <-]]%lift_ok & Hs).
  apply bind_ok in Hs as (s0 & [] & [-> Hsig%Z.eqb_eq]%guard_ok & Hs).
  apply bind_ok in Hs as (s0 & [] & [-> Hdao%bool_decide_eq_true]%guard_ok & Hs).
  apply bind_ok in Hs as (s1 & [] & H1 & Hs).
  destruct (transfer_token_ok _ _ _ _ _ _ _ Ho Hwf Ha Hburn H1) as (Hle & Hmax1 & S1).
  destruct (balance_step_others _ _ _ S1) as (_ & _ & D1 & _ & Ho1 & Hd1).
  destruct (increment_nonce_run sov_token_id (stake_staker d) s1 Ho1) as (s2 & n & H2 & Ho2 & Hd2 & K2 & D2).
  erewrite bind_step in Hs by done. fold (stake_record d h) in Hs.
  destruct (put_dao_stake_run (stake_record d h) s2 Ho2) as (s3 & H3 & Ho3 & Hd3 & K3 & D3).
  erewrite bind_step in Hs by done.
  destruct (welfare_of_known _ Hdao) as [w Hw]. rewrite Hw in Hs.
  destruct (credit_token_ok _ _ _ _ _ _ Ho3 Ha Hs) as [Hmax4 S4].
  destruct (balance_step_others _ _ _ S4) as (_ & _ & D4 & _ & Ho4 & Hd4).
  assert (db s3 = db s) as Hd3' by congruence.
  split_and!; [done|done|done|congruence|by rewrite D4, D3, D2, D1|]. exists w.
  rewrite (get_token_balance_db _ _ _ _ Hd3') in Hmax4. split_and!; [done|auto|].
  intros k. destruct S1 as (_ & _ & _ & _ & V1), S4 as (_ & _ & _ & _ & V4).
  rewrite V4, (view_balance_keeps s2 s3 k), (view_balance_keeps s1 s2 k), V1, <- last_written_app,
    <- app_assoc, (proj2 (writes_db w _ _ s s3 Hd3')) by done. done.
Qed.

Lemma dao_unstake_run d r signer h w s :
  open s → wf_balances s → 0 <= stake_amount r →
  deflationary_burn sov_token_id (stake_amount r) s = 0 →
  let stk := unstake_staker d in
  let dao := unstake_dao_key_id d in
  let a := stake_amount r in
  stk = signer → get_dao_stake dao stk s = Some r → locked_until r <= h →
  unstake_nonce d = get_token_nonce sov_token_id stk s →
  welfare_token_for_dao dao = Some w → a <= get_token_balance sov_token_id dao s →
  get_token_balance sov_token_id stk s + a <= umax 128 → a <= get_token_balance w stk s →
  ∃ s', apply_dao_unstake (Some d) signer h s = (s', Ok tt) ∧ open s' ∧ db s' = db s ∧
    b_dao_stakes (batch_of s') = <[(dao, stk) := None]> (b_dao_stakes (batch_of s)) ∧
    ∀ k, view_balance k s' = last_written k
      (debit_writes sov_token_id dao a s ++ credit_writes sov_token_id stk a s ++
       debit_writes w stk a s) (view_balance k s).
Proof.
  intros Ho Hwf Ha Hburn. cbv zeta. intros Hsig Hrec Hlock Hn Hw Hdao Hstk Hwel.
  unfold apply_dao_unstake. erewrite bind_step by done. rewrite Hsig, Z.eqb_refl, <- Hsig.
  do 2 erewrite bind_step by done. rewrite Hrec. erewrite bind_step by done.
  rewrite (proj2 (Z.leb_le _ _) Hlock). do 2 erewrite bind_step by done.
  rewrite Hn, Z.eqb_refl. erewrite bind_step by done.
  destruct (transfer_token_total sov_token_id (unstake_dao_key_id d) (unstake_staker d) (stake_amount r) s)
    as [s1 H1]; try done. erewrite bind_step by done.
  destruct (transfer_token_ok _ _ _ _ _ _ _ Ho Hwf Ha Hburn H1) as (_ & _ & S1).
  destruct (balance_step_others _ _ _ S1) as (_ & _ & D1 & _ & Ho1 & Hd1). rewrite Hw.
  destruct (debit_token_total w (unstake_staker d) (stake_amount r) s1 Ho1) as [s2 H2];
    [by rewrite (get_token_balance_db _ _ _ _ Hd1)|]. erewrite bind_step by done.
  destruct (debit_token_ok _ _ _ _ _ _ Ho1 (wf_balances_db _ _ Hd1 Hwf) Ha H2) as [_ S2].
  destruct (balance_step_others _ _ _ S2) as (_ & _ & D2 & _ & Ho2 & Hd2).
  destruct (delete_dao_stake_run (unstake_dao_key_id d) (unstake_staker d) s2 Ho2)
    as (s3 & H3 & Ho3 & Hd3 & K3 & D3). erewrite bind_step by done.
  destruct (increment_nonce_run sov_token_id (unstake_staker d) s3 Ho3)
    as (s4 & n & H4 & Ho4 & Hd4 & K4 & D4). erewrite bind_step by done.
  exists s4. split_and!; [done|done|congruence|by rewrite D4, D3, D2, D1|]. intros k.
  destruct S1 as (_ & _ & _ & _ & V1), S2 as (_ & _ & _ & _ & V2).
  rewrite (view_balance_keeps s3 s4 k), (view_balance_keeps s2 s3 k), V2, V1, <- last_written_app,
    <- app_assoc, (proj1 (writes_db w _ _ s s1 Hd1)) by done. done.
Qed.

Lemma last_written_range k ws old :
  Forall (λ w, in_u 128 w.2) ws → in_u 128 old → in_u 128 (last_written k ws old).
Proof.
  induction ws as [|[k' v] ws IH] in old |- *; intros Hws Hold; [done|].
  apply list.Forall_cons in Hws as [Hv Hws]. cbn [last_written]. apply IH; [done|].
  by case_bool_decide.
Qed.

(** After a commit, reads return what was pending. *)
Lemma committed_reads s s1 s2 h u v :
  open s → commit_block s = (s1, Ok u) → begin_block h s1 = (s2, Ok v) →
  (∀ t a, get_token_balance t a s2 = view_balance (t, a) s) ∧
  (∀ dao stk, get_dao_stake dao stk s2 = view_stake (dao, stk) s) ∧
  (∀ k, view_balance k s2 = view_balance k s) ∧ open s2 ∧ b_dao_stakes (batch_of s2) = ∅.
Proof.
  intros Ho Hc (Hd & [Ha Hb] & _)%begin_block_ok.
  unfold get_token_balance, get_dao_stake, view_balance, view_balances, batch_of.
  rewrite Hd, Hb, (commit_db _ _ _ Ho Hc). split_and!; try done.
  - intros k. rewrite apply_batch_lookup. cbn. by rewrite lookup_empty.
Qed.

(** The balances after a stake. *)
Lemma stake_balances stk dao a w s s' :
  wf_balances s → 0 <= a → stk ≠ dao → w ≠ sov_token_id →
  (∀ k, view_balance k s = get_token_balance k.1 k.2 s) →
  a <= get_token_balance sov_token_id stk s →
  (a ≠ 0 → get_token_balance sov_token_id dao s + a <= umax 128 ∧
           get_token_balance w stk s + a <= umax 128) →
  (∀ k, view_balance k s' = last_written k
     (debit_writes sov_token_id stk a s ++ credit_writes sov_token_id dao a s ++
      credit_writes w stk a s) (view_balance k s)) →
  view_balance (sov_token_id, stk) s' = get_token_balance sov_token_id stk s - a ∧
  view_balance (sov_token_id, dao) s' = get_token_balance sov_token_id dao s + a ∧
  view_balance (w, stk) s' = get_token_balance w stk s + a ∧
  (∀ k, k ∉ [(sov_token_id, stk); (sov_token_id, dao); (w, stk)] →
        view_balance k s' = get_token_balance k.1 k.2 s) ∧
  ∀ k, in_u 128 (view_balance k s').
Proof.
  intros Hwf Ha Hne Hw Hview Hle Hmax Hv.
  assert (∀ k, in_u 128 (view_balance k s')) as Hin.
  { intros k. rewrite Hv. apply last_written_range; [|rewrite Hview; apply Hwf].
    unfold debit_writes, credit_writes. destruct (Z.eqb_spec a 0); [done|].
    destruct (Hmax ltac:(done)). pose proof (Hwf sov_token_id stk). pose proof (Hwf sov_token_id dao).
    pose proof (Hwf w stk). repeat constructor; cbn; unfold in_u in *; lia. }
  split_and!; [| | | |exact Hin]; intros; rewrite Hv, Hview; unfold debit_writes, credit_writes;
    destruct (Z.eqb_spec a 0); cbn; try lia; repeat case_bool_decide; simplify_eq; try lia; try done;
    set_solver.
Qed.

(** A stake comes back whole, and not before its lock ends.  After a stake is
    committed, an unstake signed by the staker with the current nonce is refused,
    without effect, at any height below the lock; from the lock on it succeeds,
    and the SOV balances of staker and sector wallet and the staker's welfare
    tokens are again what they were before the stake, and the record is gone. *)
Theorem stake_returns d h h2 s s' s1 s2 u v1 v2 :
  let stk := stake_staker d in
  let dao := stake_dao_key_id d in
  let a := stake_data_amount d in
  open s → wf_balances s → 0 <= a → stk ≠ dao →
  (∀ w, welfare_token_for_dao dao = Some w → w ≠ sov_token_id) →
  (∀ k, view_balance k s = get_token_balance k.1 k.2 s) →
  deflationary_burn sov_token_id a s = 0 → deflationary_burn sov_token_id a s2 = 0 →
  apply_dao_stake (Some d) stk h s = (s', Ok u) →
  commit_block s' = (s1, Ok v1) → begin_block h2 s1 = (s2, Ok v2) →
  let d' := {| unstake_dao_key_id := dao; unstake_staker := stk;
               unstake_nonce := get_token_nonce sov_token_id stk s2 |} in
  let unlock := saturating_add 64 h (lock_blocks d) in
  (h2 < unlock → ∃ err, apply_dao_unstake (Some d') stk h2 s2 = (s2, Err err)) ∧
  (unlock <= h2 → ∃ s3 w, apply_dao_unstake (Some d') stk h2 s2 = (s3, Ok tt) ∧
     welfare_token_for_dao dao = Some w ∧ view_stake (dao, stk) s3 = None ∧
     ∀ k, view_balance k s3 = get_token_balance k.1 k.2 s).
Proof.
  cbv zeta. intros Ho Hwf Ha Hne Hwel Hview Hburn Hburn2 Hs Hc Hb.
  destruct (dao_stake_ok _ _ _ _ _ _ Ho Hwf Ha Hburn Hs)
    as (_ & Hle & Ho' & Hd' & Hst & w & Hw & Hmax & Hv).
  specialize (Hwel w Hw).
  set (stk := stake_staker d) in *. set (dao := stake_dao_key_id d) in *.
  set (a := stake_data_amount d) in *.
  destruct (committed_reads _ _ _ _ _ _ Ho' Hc Hb) as (Hbal2 & Hst2 & Hview2 & Ho2 & Hpend2).
  assert (get_dao_stake dao stk s2 = Some (stake_record d h)) as Hrec
    by (by rewrite Hst2; unfold view_stake; rewrite Hst, apply_batch_lookup, lookup_insert_eq).
  split; intros Hh.
  { unfold apply_dao_unstake. erewrite bind_step by done. cbn [unstake_staker unstake_dao_key_id].
    rewrite Z.eqb_refl. do 2 erewrite bind_step by done. rewrite Hrec. erewrite bind_step by done.
    cbn [locked_until stake_record]. rewrite (proj2 (Z.leb_gt _ _) Hh). by eexists. }
  destruct (stake_balances stk dao a w s s' Hwf Ha Hne Hwel Hview Hle Hmax Hv)
    as (V1 & V2 & V3 & Vrest & Vwf).
  pose proof (Hwf sov_token_id stk) as [_ Hw1]. pose proof (Hwf sov_token_id dao) as [Hw2 _].
  pose proof (Hwf w stk) as [Hw3 _].
  destruct (dao_unstake_run {| unstake_dao_key_id := dao; unstake_staker := stk;
    unstake_nonce := get_token_nonce sov_token_id stk s2 |} (stake_record d h) stk h2 w s2)
    as (s3 & Hs3 & Ho3 & Hd3 & Hst3 & Hv3);
    cbn [unstake_staker unstake_dao_key_id unstake_nonce stake_amount stake_record];
    fold stk dao a; try done; try (rewrite !Hbal2, ?V1, ?V2, ?V3; lia).
  { intros t x. rewrite Hbal2. apply Vwf. }
  exists s3, w. split_and!; [done|done| |].
  { unfold view_stake. by rewrite Hst3, apply_batch_lookup, lookup_insert_eq. }
  cbn [unstake_staker unstake_dao_key_id stake_amount stake_record] in Hv3. fold a in Hv3.
  intros k. rewrite Hv3, Hview2. unfold debit_writes, credit_writes. rewrite !Hbal2, V1, V2, V3.
  destruct (decide (k = (sov_token_id, stk))) as [->|]; [|destruct (decide (k = (sov_token_id, dao))) as [->|];
    [|destruct (decide (k = (w, stk))) as [->|]]].
  1: rewrite V1. 2: rewrite V2. 3: rewrite V3. 4: rewrite Vrest by set_solver.
  all: destruct (Z.eqb_spec a 0); cbn; repeat case_bool_decide; simplify_eq; try done; lia.
Qed.

End Handlers.

(** ** Concrete instances *)

#[local] Instance demo_params : ChainParams := {|
  sov_token_id := 1; cbe_token_id := 2; fee_sink_address := 99;
  generate_custom_token_id := λ _ _, 3; key_id_of := id |}.

Definition demo_tables (balances : gmap (Z * Z) Z) : Tables := {|
  blocks_by_height := ∅; utxos := ∅; utxo_merkle_leaves := ∅; utxo_merkle_index := ∅; utxo_merkle_nodes := ∅;
  utxo_merkle_next := None; token_balances := balances; token_nonces := ∅; token_contracts := ∅;
  token_supply := ∅; contract_code := ∅; contract_storage := ∅;
  wallets := ∅; cbe_economic_state := None; cbe_accounts := ∅; dao_stakes := ∅;
  latest_height := Some 0 |}.

Definition demo_block : SledStore := (begin_block 1
  {| db := demo_tables {[ (1, 10) := 1000 * SCALE; (1, 11) := 1000 * SCALE ]};
     tx_active := false; tx_height := 0; tx_utxo_merkle_next_index := 0; tx_batch := None |}).1.

Definition demo_buy (sender amount : Z) : BondingCurveBuyTx := {|
  buy_action := 1; buy_chain_id := 3; buy_nonce := Nonce48_zero; buy_sender := sender;
  amount_in := amount; max_price := umax 128; buy_expected_s_c := 0 |}.

Definition demo_payload (sender amount : Z) : list Z :=
  encode_bonding_curve_buy (demo_buy sender amount).

Lemma wf_balances_map s :
  map_Forall (λ _ v, 0 <= v <= umax 128) (token_balances (db s)) → wf_balances s.
Proof.
  intros Hm t a. unfold get_token_balance. destruct (_ !! _) as [v|] eqn:Hv; [|done].
  exact (Hm _ _ Hv).
Qed.

Lemma new_block_view s k :
  tx_batch s = Some PendingBatch_new → view_balance k s = get_token_balance k.1 k.2 s.
Proof.
  intros Hb. unfold view_balance, view_balances, get_token_balance, batch_of. rewrite Hb.
  rewrite apply_batch_lookup. cbn. rewrite lookup_empty. by destruct k.
Qed.

Lemma demo_block_open : open demo_block.
Proof. by split. Qed.

Lemma demo_block_balances : wf_balances demo_block.
Proof. apply wf_balances_map, (bool_decide_unpack _). by vm_compute. Qed.

Lemma curve_wf_solvent_witness :
  ∃ e, curve_run 1 e ∧ 0 < s_c e ∧
  (∃ c, payout_for_burn (s_c e) (s_c e) = Ok c ∧ c <= reserve_balance e + 2 * Z.of_nat 1).
Proof.
  pose (r := buy_economics (umax 128) (100 * SCALE) BondingCurveEconomicState_default).
  pose (e' := match r with Ok (e', _) => e' | Err _ => BondingCurveEconomicState_default end).
  pose (d := match r with Ok (_, d) => d | Err _ => 0 end).
  assert (curve_run 1 (persist_buy (100 * SCALE) e')) as Hrun.
  { apply (run_buy 0 (umax 128) (100 * SCALE) BondingCurveEconomicState_default e' d).
    - apply run_start; [apply default_econ_wf|done].
    - by vm_compute.
    - by vm_compute. }
  exists (persist_buy (100 * SCALE) e'). destruct (curve_wf_solvent 1 _ Hrun) as [Hwf Hsol].
  split; [exact Hrun|]. split; [by vm_compute|]. apply Hsol. split; by vm_compute.
Defined.

Lemma buy_then_sell_no_profit_witness :
  ∃ e1 d e2 out,
    buy_economics (umax 128) (100 * SCALE) BondingCurveEconomicState_default = Ok (e1, d) ∧
    sell_economics 0 d (persist_buy (100 * SCALE) e1) = Ok (e2, out) ∧
    100 * out <= 32 * (100 * SCALE).
Proof.
  pose (r := buy_economics (umax 128) (100 * SCALE) BondingCurveEconomicState_default).
  pose (e1 := match r with Ok (e', _) => e' | Err _ => BondingCurveEconomicState_default end).
  pose (d := match r with Ok (_, d) => d | Err _ => 0 end).
  pose (q := sell_economics 0 d (persist_buy (100 * SCALE) e1)).
  pose (e2 := match q with Ok (e', _) => e' | Err _ => BondingCurveEconomicState_default end).
  pose (out := match q with Ok (_, o) => o | Err _ => 0 end).
  assert (buy_economics (umax 128) (100 * SCALE) BondingCurveEconomicState_default = Ok (e1, d))
    as Hb by (vm_compute; reflexivity).
  assert (sell_economics 0 d (persist_buy (100 * SCALE) e1) = Ok (e2, out)) as Hs
    by (vm_compute; reflexivity).
  destruct (buy_then_sell_no_profit (umax 128) 0 (100 * SCALE) _ e1 e2 d out
    default_econ_wf ltac:(by vm_compute) Hb Hs) as [Hout _].
  exists e1, d, e2, out. split_and!; [exact Hb|exact Hs|exact Hout].
Defined.

(** The block after buyer 10 spent 100 SOV, and after buyer 11 did too. *)
Definition demo_bought : SledStore :=
  (apply_canonical_bonding_curve_tx (demo_payload 10 (100 * SCALE)) demo_block).1.

Definition demo_bought2 : SledStore :=
  (apply_canonical_bonding_curve_tx (demo_payload 11 (100 * SCALE)) demo_bought).1.

Definition demo_tokens : Z :=
  match mint_with_reserve (32 * SCALE) 0 with Ok d => d | Err _ => 0 end.

Lemma demo_run :
  apply_canonical_bonding_curve_tx (demo_payload 10 (100 * SCALE)) demo_block =
    (demo_bought, Ok (BuyOutcome 2 10 (100 * SCALE) demo_tokens)) ∧
  apply_canonical_bonding_curve_tx (demo_payload 11 (100 * SCALE)) demo_bought =
    (demo_bought2, Ok (BuyOutcome 2 11 (100 * SCALE) demo_tokens)) ∧
  decode_canonical_bonding_curve_tx (demo_payload 10 (100 * SCALE)) = Ok (Buy (demo_buy 10 (100 * SCALE))) ∧
  decode_canonical_bonding_curve_tx (demo_payload 11 (100 * SCALE)) = Ok (Buy (demo_buy 11 (100 * SCALE))) ∧
  get_cbe_economic_state demo_block = BondingCurveEconomicState_default ∧
  wf_curve_tx (Buy (demo_buy 10 (100 * SCALE))).
Proof.
  split_and!; try (vm_compute; reflexivity); try by vm_compute.
  all: unfold wf_curve_tx, wf_buy_tx, wf_nonce, in_u; cbn; split_and!; try done; try by vm_compute.
  by repeat constructor.
Qed.

Lemma demo_amount : 0 <= 100 * SCALE.
Proof. by vm_compute. Qed.

Lemma demo_econ_wf : wf_econ (get_cbe_economic_state demo_block).
Proof. destruct demo_run as (_ & _ & _ & _ & -> & _). exact default_econ_wf. Qed.

#[local] Opaque demo_block demo_bought demo_bought2 demo_tokens SCALE.

Definition tokens_received (o : CanonicalBondingCurveOutcome) : Z :=
  match o with BuyOutcome _ _ _ d => d | SellOutcome _ _ d _ => d end.

Lemma curve_buy_spec_witness :
  view_balance (1, 10) demo_bought = 900 * SCALE ∧
  view_balance (2, 10) demo_bought = demo_tokens ∧
  view_balance (1, 99) demo_bought = 20 * SCALE.
Proof.
  destruct demo_run as (Hrun & _ & Hdec & _).
  destruct (curve_buy_spec (demo_payload 10 (100 * SCALE)) (demo_buy 10 (100 * SCALE)) demo_block
    demo_bought _ demo_block_open demo_block_balances demo_econ_wf demo_amount Hdec Hrun)
    as (d & c & e' & Hout & _ & _ & _ & _ & _ & _ & _ & _ & _ & _ & Hbal).
  assert (demo_tokens = d) as <- by exact (f_equal tokens_received Hout).
  destruct Hbal as (H1 & H2 & H3); [done|done| |].
  - intros k. by apply new_block_view.
  - split_and!.
    + refine (eq_trans H1 _). vm_compute. reflexivity.
    + refine (eq_trans H2 _). vm_compute. reflexivity.
    + refine (eq_trans H3 _). vm_compute. reflexivity.
Defined.

Lemma curve_replay_refused_witness :
  let s1 := (commit_block demo_bought).1 in
  let s2 := (begin_block 2 s1).1 in
  ∃ err, apply_canonical_bonding_curve_tx (demo_payload 10 (100 * SCALE)) s2 = (s2, Err err).
Proof.
  intros s1 s2. destruct demo_run as (Hrun & _ & Hdec & _ & _ & Hwf).
  assert (commit_block demo_bought = (s1, Ok tt)) as Hc by (vm_compute; reflexivity).
  assert (begin_block 2 s1 = (s2, Ok tt)) as Hb by (vm_compute; reflexivity).
  exact (curve_replay_refused (demo_payload 10 (100 * SCALE)) (Buy (demo_buy 10 (100 * SCALE))) 2
    demo_block demo_bought _ s1 s2 tt tt demo_block_open demo_block_balances demo_econ_wf
    Hdec Hwf Hrun Hc Hb).
Defined.

Lemma same_block_buys_diverge_witness :
  view_balance (2, 10) demo_bought2 = demo_tokens ∧ view_balance (2, 11) demo_bought2 = demo_tokens ∧
  s_c (view_econ demo_bought2) = demo_tokens.
Proof.
  assert (sov_token_id ≠ cbe_token_id ∧ 10 ≠ 11) as [Htok Hne] by done.
  destruct demo_run as (Hrun1 & Hrun2 & Hdec1 & Hdec2 & _).
  destruct (same_block_buys_diverge (demo_payload 10 (100 * SCALE)) (demo_payload 11 (100 * SCALE))
    (demo_buy 10 (100 * SCALE)) (demo_buy 11 (100 * SCALE)) demo_block demo_bought demo_bought2
    demo_tokens demo_tokens demo_block_open demo_block_balances demo_econ_wf demo_amount demo_amount
    Hdec1 Hdec2 Htok Hne Hrun1 Hrun2) as (_ & _ & H1 & H2 & H3 & _).
  split_and!.
  - refine (eq_trans H1 _). vm_compute. reflexivity.
  - refine (eq_trans H2 _). vm_compute. reflexivity.
  - refine (eq_trans H3 _). vm_compute. reflexivity.
Defined.

Definition demo_payroll : ProcessPayrollData := {|
  payroll_contract_id := 5; payroll_amount_cbe := 12000; collaborator_address := 10;
  deliverable_hash := 6 |}.

Lemma payroll_spec_witness :
  let s' := (apply_payroll_mint (Some demo_payroll) 1 demo_block).1 in
  view_balance (2, 10) s' = 12000 ∧ reserve_balance (view_econ s') = 8000 ∧
  view_balance (1, 10) s' = 1000 * SCALE.
Proof.
  intros s'.
  destruct (payroll_spec demo_payroll 1 demo_block s' tt demo_block_open demo_block_balances demo_econ_wf)
    as (dust & Hdust & Hsum & _ & _ & Hr & _ & _ & _ & Hsov & Hbal);
    [by vm_compute|done|vm_compute; reflexivity|].
  destruct Hbal as [Hbal _]; [done|]. split_and!.
  - refine (eq_trans Hbal _). vm_compute. reflexivity.
  - rewrite Hr. destruct demo_run as (_ & _ & _ & _ & -> & _).
    change (25 * payroll_amount_cbe demo_payroll / 12) with 25000 in *.
    change (payroll_amount_cbe demo_payroll) with 12000 in *. change (20 * 25000 / 100) with 5000 in *.
    change (32 * 25000 / 100) with 8000 in *.
    change (reserve_balance BondingCurveEconomicState_default) with 0. lia.
  - refine (eq_trans (Hsov 10) _). vm_compute. reflexivity.
Defined.

Definition demo_stake : DaoStakeData := {|
  stake_dao_key_id := DAO_FOOD_KEY_ID; stake_staker := 10; stake_data_amount := 5 * SCALE;
  stake_nonce := 0; lock_blocks := 1 |}.

Lemma stake_returns_witness :
  let s' := (apply_dao_stake (Some demo_stake) 10 1 demo_block).1 in
  let s1 := (commit_block s').1 in
  let s2 := (begin_block 2 s1).1 in
  ∃ s3, apply_dao_unstake (Some {| unstake_dao_key_id := DAO_FOOD_KEY_ID; unstake_staker := 10;
    unstake_nonce := get_token_nonce 1 10 s2 |}) 10 2 s2 = (s3, Ok tt) ∧
    view_balance (1, 10) s2 = 995 * SCALE ∧ view_balance (1, 10) s3 = 1000 * SCALE.
Proof.
  intros s' s1 s2.
  destruct (stake_returns demo_stake 1 2 demo_block s' s1 s2 tt tt tt demo_block_open demo_block_balances)
    as [_ Hback];
    [by vm_compute|by vm_compute|by vm_compute; congruence| |by vm_compute|by vm_compute
    |vm_compute; reflexivity|vm_compute; reflexivity|vm_compute; reflexivity|].
  - intros k. by apply new_block_view.
  - destruct Hback as (s3 & w & Hs3 & _ & _ & Hv); [by vm_compute|].
    exists s3. split; [exact Hs3|]. split; [vm_compute; reflexivity|].
    refine (eq_trans (Hv (1, 10)) _). vm_compute. reflexivity.
Defined.
