(* ===== verification/Memo.v ===== *)
(** * Memo payloads (lib-blockchain transaction)

    The payloads of token creations, contract deployments and contract
    executions, carried in a transaction's memo as a textual prefix followed by
    a bincode encoding: [token_creation.rs], [contract_deployment.rs] and
    [contract_execution.rs] of [lib-blockchain/src/transaction/], with
    [ContractCall] of [lib-blockchain/src/types/contract_call.rs].  A [String] is
    the sequence of its UTF-8 bytes.  Bincode is a parameter, an encoder and a
    decoder for each type; the law used is that decoding inverts encoding.  The
    text of error messages leaves out interpolated values.

    The theorems: what [encode_memo] accepts, [decode_memo] returns unchanged,
    and only memos with the right prefix, within the size limit and with a
    payload inside its bounds are decoded; the supply of a new token is split
    without loss. *)
From stdpp Require Import base tactics numbers list option strings countable.
From S2P Require Import Prelude TokenCore.

(** ** Strings *)

Definition str_bytes (s : string) : list Z :=
  (λ a, Z.of_nat (Ascii.nat_of_ascii a)) <$> String.list_ascii_of_string s.

(** All characters of a UTF-8 sequence have the property [White_Space]: then, and
    only then, [trim] leaves the empty string. *)
Fixpoint blank (l : list Z) : bool :=
  match l with
  | [] => true
  | 0xE1 :: 0x9A :: 0x80 :: l' => blank l'
  | 0xE2 :: 0x80 :: c :: l' =>
      ((0x80 <=? c) && (c <=? 0x8A) || (c =? 0xA8) || (c =? 0xA9) || (c =? 0xAF)) && blank l'
  | 0xE2 :: 0x81 :: 0x9F :: l' => blank l'
  | 0xE3 :: 0x80 :: 0x80 :: l' => blank l'
  | 0xC2 :: c :: l' => ((c =? 0x85) || (c =? 0xA0)) && blank l'
  | c :: l' => ((9 <=? c) && (c <=? 13) || (c =? 32)) && blank l'
  end.

(** [s.trim().is_empty()]. *)
Definition trim_is_empty (s : string) : bool := blank (str_bytes s).

Definition len (s : string) : nat := String.length s.

Definition starts_with (prefix memo : list Z) : bool := bool_decide (prefix `prefix_of` memo).

(** ** Bincode *)

Class Bincode (A : Type) : Type := {
  serialize : A → option (list Z);
  deserialize : list Z → option A;
}.

(** Decoding an encoded value gives it back. *)
Class BincodeRoundtrip (A : Type) `{Bincode A} : Prop :=
  deserialize_serialize : ∀ (a : A) bytes, serialize a = Some bytes → deserialize bytes = Some a.

(** ** Token creation *)

Definition TOKEN_CREATION_MEMO_PREFIX : list Z := str_bytes "ZHTP_TOKEN_CREATE_V1:".
Definition MAX_TOKEN_NAME_BYTES : nat := 64.
Definition MAX_TOKEN_SYMBOL_BYTES : nat := 10.
Definition MAX_TOKEN_CREATION_MEMO_BYTES : nat := 4096.
Definition TOKEN_CREATION_TREASURY_ALLOCATION_BPS : Z := 2000.

Record TokenCreationPayloadV1 : Type := {
  tcp_name : string; tcp_symbol : string;
  initial_supply : Z;              (* u64 *)
  tcp_decimals : Z;                (* u8 *)
  treasury_allocation_bps : Z;     (* u16 *)
  treasury_recipient : Z;
}.

Definition token_creation_validate (p : TokenCreationPayloadV1) : result unit string :=
  if trim_is_empty (tcp_name p) then Err "name is required"
  else if (MAX_TOKEN_NAME_BYTES <? len (tcp_name p))%nat then Err "name length exceeds max"
  else if trim_is_empty (tcp_symbol p) then Err "symbol is required"
  else if (MAX_TOKEN_SYMBOL_BYTES <? len (tcp_symbol p))%nat then Err "symbol length exceeds max"
  else if initial_supply p =? 0 then Err "initial_supply must be greater than 0"
  else if negb (treasury_allocation_bps p =? TOKEN_CREATION_TREASURY_ALLOCATION_BPS)
  then Err "treasury_allocation_bps must be 2000"
  else if treasury_recipient p =? 0 then Err "treasury_recipient must be non-zero"
  else Ok tt.

(** The shares of the creator and the treasury. *)
Definition split_initial_supply (p : TokenCreationPayloadV1) : Z * Z :=
  let treasury := wmul 128 (initial_supply p) (treasury_allocation_bps p) / 10000 in
  (saturating_sub (initial_supply p) treasury, treasury).

Definition token_creation_encode_memo `{Bincode TokenCreationPayloadV1}
    (p : TokenCreationPayloadV1) : result (list Z) string :=
  let? _u := token_creation_validate p in
  let? encoded := ok_or (serialize p) "failed to serialize token creation payload" in
  let memo := TOKEN_CREATION_MEMO_PREFIX ++ encoded in
  if (MAX_TOKEN_CREATION_MEMO_BYTES <? length memo)%nat
  then Err "token creation memo length exceeds max" else Ok memo.

Definition token_creation_decode_memo `{Bincode TokenCreationPayloadV1}
    (memo : list Z) : result TokenCreationPayloadV1 string :=
  if negb (starts_with TOKEN_CREATION_MEMO_PREFIX memo)
  then Err "missing token creation memo prefix"
  else if (MAX_TOKEN_CREATION_MEMO_BYTES <? length memo)%nat
  then Err "token creation memo length exceeds max"
  else
    let? p := ok_or (deserialize (drop (length TOKEN_CREATION_MEMO_PREFIX) memo))
                "invalid token creation payload encoding" in
    let? _u := token_creation_validate p in
    Ok p.

(** ** Contract deployment *)

Definition CONTRACT_DEPLOYMENT_MEMO_PREFIX : list Z := str_bytes "ZHTP_DEPLOY_V1:".
Definition MAX_DEPLOYMENT_CODE_BYTES : Z := 8 * 1024.
Definition MAX_DEPLOYMENT_ABI_BYTES : Z := 4 * 1024.
Definition MAX_DEPLOYMENT_INIT_ARGS_BYTES : Z := 2 * 1024.
Definition MAX_DEPLOYMENT_MEMORY_BYTES : Z := 16 * 1024 * 1024.
Definition MAX_DEPLOYMENT_CONTRACT_TYPE_BYTES : nat := 64.
Definition MAX_DEPLOYMENT_MEMO_BYTES : Z := 16 * 1024.
Definition MAX_TX_GAS : Z := 10000000.

Record ContractDeploymentPayloadV1 : Type := {
  cdp_contract_type : string; code : list Z; abi : list Z; init_args : list Z;
  cdp_gas_limit : Z;               (* u64 *)
  memory_limit_bytes : Z;          (* u32 *)
}.

Definition lenZ {A : Type} (l : list A) : Z := Z.of_nat (length l).

Definition deployment_validate (p : ContractDeploymentPayloadV1) : result unit string :=
  if trim_is_empty (cdp_contract_type p) then Err "contract_type is required"
  else if (MAX_DEPLOYMENT_CONTRACT_TYPE_BYTES <? len (cdp_contract_type p))%nat
  then Err "contract_type length exceeds max"
  else if bool_decide (code p = []) then Err "code is required"
  else if MAX_DEPLOYMENT_CODE_BYTES <? lenZ (code p) then Err "code length exceeds max"
  else if bool_decide (abi p = []) then Err "abi is required"
  else if MAX_DEPLOYMENT_ABI_BYTES <? lenZ (abi p) then Err "abi length exceeds max"
  else if MAX_DEPLOYMENT_INIT_ARGS_BYTES <? lenZ (init_args p)
  then Err "init_args length exceeds max"
  else if (cdp_gas_limit p =? 0) || (MAX_TX_GAS <? cdp_gas_limit p)
  then Err "gas_limit out of bounds"
  else if (memory_limit_bytes p =? 0) || (MAX_DEPLOYMENT_MEMORY_BYTES <? memory_limit_bytes p)
  then Err "memory_limit_bytes out of bounds"
  else Ok tt.

Definition deployment_encode_memo `{Bincode ContractDeploymentPayloadV1}
    (p : ContractDeploymentPayloadV1) : result (list Z) string :=
  let? _u := deployment_validate p in
  let? encoded := ok_or (serialize p) "failed to serialize deployment payload" in
  let memo := CONTRACT_DEPLOYMENT_MEMO_PREFIX ++ encoded in
  if MAX_DEPLOYMENT_MEMO_BYTES <? lenZ memo
  then Err "deployment memo length exceeds max" else Ok memo.

Definition deployment_decode_memo `{Bincode ContractDeploymentPayloadV1}
    (memo : list Z) : result ContractDeploymentPayloadV1 string :=
  if negb (starts_with CONTRACT_DEPLOYMENT_MEMO_PREFIX memo)
  then Err "missing deployment memo prefix"
  else if MAX_DEPLOYMENT_MEMO_BYTES <? lenZ memo then Err "deployment memo length exceeds max"
  else
    let? p := ok_or (deserialize (drop (length CONTRACT_DEPLOYMENT_MEMO_PREFIX) memo))
                "invalid deployment payload encoding" in
    let? _u := deployment_validate p in
    Ok p.

(** ** Contract execution *)

Inductive ContractType : Type :=
| Token | WhisperMessaging | ContactRegistry | GroupChat | FileSharing | Governance
| Web4Website | UbiDistributionContract | DevGrants.

Inductive CallPermissions : Type :=
| Public
| Restricted (allowed : PublicKey) (permissions : list string)
| AdminOnly (admin : PublicKey).

Record ContractCall : Type := {
  call_contract_type : ContractType; method : string; params : list Z;
  permissions : CallPermissions;
}.

Record Signature : Type := {
  signature : list Z; public_key : PublicKey; algorithm : Z; sig_timestamp : Z;
}.

(** [char::is_alphanumeric] or an underscore, for every character: Unicode tables
    of the standard library. *)
Class CharTables : Type := method_chars_ok : string → bool.

Definition call_validate `{CharTables} (c : ContractCall) : result unit string :=
  if String.eqb (method c) "" then Err "Method name cannot be empty"
  else if (64 <? len (method c))%nat then Err "Method name too long (max 64 characters)"
  else if negb (method_chars_ok (method c)) then Err "Method name contains invalid characters"
  else if 1024 * 1024 <? lenZ (params c) then Err "Parameters too large (max 1MB)"
  else Ok tt.

Definition gas_cost (t : ContractType) : Z :=
  match t with
  | Token => 2000 | WhisperMessaging => 3000 | ContactRegistry => 1500 | GroupChat => 2500
  | FileSharing => 3000 | Governance => 2500 | Web4Website => 2500
  | UbiDistributionContract => 2000 | DevGrants => 2000
  end.

Definition get_caller (c : ContractCall) : result PublicKey string :=
  match permissions c with
  | Public => Err "Public call does not specify caller"
  | Restricted k _ => Ok k
  | AdminOnly k => Ok k
  end.

Definition allows_operation (operation : string) (k : PublicKey) (p : CallPermissions) : bool :=
  match p with
  | Public => true
  | Restricted allowed ops =>
      bool_decide (allowed = k) && (bool_decide (ops = []) || bool_decide (operation ∈ ops))
  | AdminOnly admin => bool_decide (admin = k)
  end.

Definition CONTRACT_EXECUTION_MEMO_PREFIX_V1 : list Z := str_bytes "ZHTP".
Definition CONTRACT_EXECUTION_MEMO_PREFIX_V2 : list Z := str_bytes "ZHTP2".
Definition MAX_CONTRACT_EXECUTION_MEMO_BYTES : Z := 1024 * 1024.

Inductive ContractExecutionMemoVersion : Type := V1Legacy | V2ContractId.

Record DecodedContractExecutionMemo : Type := {
  memo_version : ContractExecutionMemoVersion; memo_contract_id : option Z;
  memo_call : ContractCall; memo_signature : Signature;
}.

Section Execution.
Context `{CharTables, Bincode (Z * ContractCall * Signature), Bincode (ContractCall * Signature)}.

Definition decode_compat (memo : list Z) : result DecodedContractExecutionMemo string :=
  if MAX_CONTRACT_EXECUTION_MEMO_BYTES <? lenZ memo
  then Err "contract execution memo length exceeds max"
  else if starts_with CONTRACT_EXECUTION_MEMO_PREFIX_V2 memo then
    let? p := ok_or (deserialize (drop (length CONTRACT_EXECUTION_MEMO_PREFIX_V2) memo))
                "invalid V2 contract execution memo payload" in
    let '(contract_id, call, sig) := p in
    let? _u := call_validate call in
    Ok {| memo_version := V2ContractId; memo_contract_id := Some contract_id;
          memo_call := call; memo_signature := sig |}
  else if starts_with CONTRACT_EXECUTION_MEMO_PREFIX_V1 memo then
    let? p := ok_or (deserialize (drop (length CONTRACT_EXECUTION_MEMO_PREFIX_V1) memo))
                "invalid V1 contract execution memo payload" in
    let '(call, sig) := p in
    let? _u := call_validate call in
    Ok {| memo_version := V1Legacy; memo_contract_id := None;
          memo_call := call; memo_signature := sig |}
  else Err "contract execution memo must start with ZHTP2 or ZHTP prefix".

Definition encode_contract_execution_memo_v2 (contract_id : Z) (call : ContractCall)
    (sig : Signature) : result (list Z) string :=
  let? _u := call_validate call in
  let? encoded := ok_or (serialize (contract_id, call, sig))
                    "failed to serialize V2 contract execution memo payload" in
  let memo := CONTRACT_EXECUTION_MEMO_PREFIX_V2 ++ encoded in
  if MAX_CONTRACT_EXECUTION_MEMO_BYTES <? lenZ memo
  then Err "contract execution memo length exceeds max" else Ok memo.

End Execution.

(** ** Lemmas *)

Lemma starts_with_app prefix l : starts_with prefix (prefix ++ l) = true.
Proof. apply bool_decide_eq_true_2. by exists l. Qed.

Lemma starts_with_true prefix memo :
  starts_with prefix memo = true → ∃ l, memo = prefix ++ l.
Proof. unfold starts_with. by intros ?%bool_decide_eq_true. Qed.

Lemma Ok_inj {A E : Type} (a b : A) : (Ok a : result A E) = Ok b → a = b.
Proof. by intros [=]. Qed.

(** [result_inv] splits a hypothesis that a chain of checks returned [Ok]. *)
Ltac result_inv :=
  repeat match goal with
  | H : (if ?b then _ else _) = Ok _ |- _ => destruct b eqn:?
  | H : match ?r with Ok _ => _ | Err _ => _ end = Ok _ |- _ => destruct r eqn:?
  | H : ok_or _ _ = Ok _ |- _ => apply ok_or_ok in H
  | H : Err _ = Ok _ |- _ => discriminate H
  | H : Ok _ = Ok _ |- _ => apply Ok_inj in H; subst
  | u : unit |- _ => destruct u
  end.

Lemma token_creation_validate_ok p :
  token_creation_validate p = Ok tt →
  trim_is_empty (tcp_name p) = false ∧ (len (tcp_name p) <= 64)%nat ∧
  trim_is_empty (tcp_symbol p) = false ∧ (len (tcp_symbol p) <= 10)%nat ∧
  initial_supply p ≠ 0 ∧ treasury_allocation_bps p = 2000 ∧ treasury_recipient p ≠ 0.
Proof.
  unfold token_creation_validate. intros H. result_inv. int_inv.
  rewrite Nat.ltb_ge in *. by split_and!.
Qed.

Lemma token_creation_decode_ok `{Bincode TokenCreationPayloadV1} memo p :
  token_creation_decode_memo memo = Ok p →
  token_creation_validate p = Ok tt ∧ (length memo <= 4096)%nat ∧
  ∃ bytes, memo = TOKEN_CREATION_MEMO_PREFIX ++ bytes ∧ deserialize bytes = Some p.
Proof.
  unfold token_creation_decode_memo. intros Hd.
  destruct (starts_with _ _) eqn:Hs; [|done]. apply starts_with_true in Hs as [bytes ->].
  rewrite drop_app_length in Hd. cbn [negb] in Hd. result_inv.
  split; [done|]. split; [by apply Nat.ltb_ge|]. eauto.
Qed.

Section Roundtrip.
Context `{!Bincode TokenCreationPayloadV1, !BincodeRoundtrip TokenCreationPayloadV1}.
Context `{!Bincode ContractDeploymentPayloadV1, !BincodeRoundtrip ContractDeploymentPayloadV1}.
Context `{!Bincode (Z * ContractCall * Signature), !BincodeRoundtrip (Z * ContractCall * Signature)}.
Context `{!CharTables, !Bincode (ContractCall * Signature)}.

(** Memo payloads survive encoding.  A memo produced for a token creation, a
    contract deployment or a contract execution is decoded to exactly the payload
    it was produced from, and a decoded token creation or deployment satisfies
    the bounds of its validator. *)
Theorem memo_roundtrip :
  (∀ p memo, token_creation_encode_memo p = Ok memo → token_creation_decode_memo memo = Ok p) ∧
  (∀ p memo, deployment_encode_memo p = Ok memo → deployment_decode_memo memo = Ok p) ∧
  (∀ id call sig memo, encode_contract_execution_memo_v2 id call sig = Ok memo →
     decode_compat memo = Ok {| memo_version := V2ContractId; memo_contract_id := Some id;
                                memo_call := call; memo_signature := sig |}) ∧
  (∀ memo p, token_creation_decode_memo memo = Ok p → token_creation_validate p = Ok tt) ∧
  (∀ memo p, deployment_decode_memo memo = Ok p → deployment_validate p = Ok tt).
Proof.
  split_and!.
  - intros p memo He. unfold token_creation_encode_memo in He; cbv zeta in He. result_inv.
    unfold token_creation_decode_memo. rewrite starts_with_app. cbn [negb].
    rewrite drop_app_length, (deserialize_serialize p) by done. cbn [ok_or].
    destruct (_ <? _)%nat; [done|]. by destruct (token_creation_validate p).
  - intros p memo He. unfold deployment_encode_memo in He; cbv zeta in He. result_inv.
    unfold deployment_decode_memo. rewrite starts_with_app. cbn [negb].
    rewrite drop_app_length, (deserialize_serialize p) by done. cbn [ok_or].
    destruct (_ <? _); [done|]. by destruct (deployment_validate p).
  - intros id call sig memo He. unfold encode_contract_execution_memo_v2 in He; cbv zeta in He. result_inv.
    unfold decode_compat. rewrite starts_with_app, drop_app_length.
    rewrite (deserialize_serialize (id, call, sig)) by done. cbn [ok_or].
    destruct (_ <? _); [done|]. by destruct (call_validate call).
  - intros memo p Hd. by apply token_creation_decode_ok in Hd as [? _].
  - intros memo p Hd. unfold deployment_decode_memo in Hd. by result_inv.
Qed.

End Roundtrip.

(** The supply of a new token is split without loss: a fifth, rounded down, for
    the treasury and the rest for the creator. *)
Lemma split_initial_supply_ok p :
  token_creation_validate p = Ok tt → in_u 64 (initial_supply p) →
  split_initial_supply p = (initial_supply p - initial_supply p / 5, initial_supply p / 5) ∧
  0 <= initial_supply p / 5 <= initial_supply p.
Proof.
  intros (_ & _ & _ & _ & _ & Hb & _)%token_creation_validate_ok [H0 Hu].
  assert (0 <= initial_supply p / 5 <= initial_supply p) as Hr.
  { split; [apply Z.div_pos; lia|]. apply Z.div_le_upper_bound; lia. }
  split; [|done]. unfold split_initial_supply. rewrite Hb.
  rewrite wmul_small by (unfold umax in *; lia).
  replace (initial_supply p * 2000 / 10000) with (initial_supply p / 5)
    by (change 10000 with (5 * 2000); by rewrite Z.div_mul_cancel_r).
  unfold saturating_sub. f_equal. lia.
Qed.

(** ** Examples *)

(** An encoder for any countable type: one number stands for the bytes. *)
Definition number_bincode (A : Type) `{Countable A} : Bincode A := {|
  serialize a := Some [Z.pos (encode a)];
  deserialize l := match l with [Z.pos p] => decode p | _ => None end |}.

Lemma number_bincode_roundtrip (A : Type) `{Countable A} :
  @BincodeRoundtrip A (number_bincode A).
Proof. intros a bytes [= <-]. simpl. apply decode_encode. Qed.

#[local] Instance TokenCreationPayloadV1_eq_dec : EqDecision TokenCreationPayloadV1.
Proof. solve_decision. Defined.
#[local] Program Instance TokenCreationPayloadV1_countable : Countable TokenCreationPayloadV1 :=
  inj_countable' (λ p, (tcp_name p, tcp_symbol p, initial_supply p, tcp_decimals p,
                        treasury_allocation_bps p, treasury_recipient p))
    (λ '(n, s, i, d, b, r), Build_TokenCreationPayloadV1 n s i d b r) _.
Next Obligation. by intros []. Qed.

#[local] Instance ContractDeploymentPayloadV1_eq_dec : EqDecision ContractDeploymentPayloadV1.
Proof. solve_decision. Defined.
#[local] Program Instance ContractDeploymentPayloadV1_countable
    : Countable ContractDeploymentPayloadV1 :=
  inj_countable' (λ p, (cdp_contract_type p, code p, abi p, init_args p, cdp_gas_limit p,
                        memory_limit_bytes p))
    (λ '(t, c, a, i, g, m), Build_ContractDeploymentPayloadV1 t c a i g m) _.
Next Obligation. by intros []. Qed.

#[local] Instance ContractType_eq_dec : EqDecision ContractType.
Proof. solve_decision. Defined.
#[local] Instance ContractType_countable : Countable ContractType.
Proof.
  refine (inj_countable' (λ t, match t with
                       | Token => 0 | WhisperMessaging => 1 | ContactRegistry => 2
                       | GroupChat => 3 | FileSharing => 4 | Governance => 5
                       | Web4Website => 6 | UbiDistributionContract => 7 | DevGrants => 8
                       end)%nat
    (λ n, match n with
          | 0 => Token | 1 => WhisperMessaging | 2 => ContactRegistry | 3 => GroupChat
          | 4 => FileSharing | 5 => Governance | 6 => Web4Website
          | 7 => UbiDistributionContract | _ => DevGrants
          end)%nat _).
  by intros [].
Defined.

#[local] Instance CallPermissions_eq_dec : EqDecision CallPermissions.
Proof. solve_decision. Defined.
#[local] Instance CallPermissions_countable : Countable CallPermissions.
Proof.
  refine (inj_countable' (λ p, match p with
                       | Public => inl tt
                       | Restricted k l => inr (inl (k, l))
                       | AdminOnly k => inr (inr k)
                       end)
    (λ s, match s with
          | inl _ => Public | inr (inl (k, l)) => Restricted k l | inr (inr k) => AdminOnly k
          end) _).
  by intros [].
Defined.

#[local] Instance ContractCall_eq_dec : EqDecision ContractCall.
Proof. solve_decision. Defined.
#[local] Program Instance ContractCall_countable : Countable ContractCall :=
  inj_countable' (λ c, (call_contract_type c, method c, params c, permissions c))
    (λ '(t, m, p, r), Build_ContractCall t m p r) _.
Next Obligation. by intros []. Qed.

#[local] Instance Signature_eq_dec : EqDecision Signature.
Proof. solve_decision. Defined.
#[local] Program Instance Signature_countable : Countable Signature :=
  inj_countable' (λ s, (signature s, public_key s, algorithm s, sig_timestamp s))
    (λ '(s, k, a, t), Build_Signature s k a t) _.
Next Obligation. by intros []. Qed.

Definition demo_creation : TokenCreationPayloadV1 :=
  {| tcp_name := "CarbonBlue"; tcp_symbol := "CBL"; initial_supply := 100; tcp_decimals := 8;
     treasury_allocation_bps := 2000; treasury_recipient := 1 |}.

Lemma memo_roundtrip_witness :
  let bincode := number_bincode TokenCreationPayloadV1 in
  ∃ memo, token_creation_encode_memo demo_creation = Ok memo ∧
    token_creation_decode_memo memo = Ok demo_creation.
Proof.
  cbv zeta. eexists. split; [reflexivity|].
  unshelve eapply (@memo_roundtrip (number_bincode TokenCreationPayloadV1)
    (number_bincode_roundtrip _) (number_bincode ContractDeploymentPayloadV1)
    (number_bincode_roundtrip _) (number_bincode (Z * ContractCall * Signature))
    (number_bincode_roundtrip _) (λ _, true) (number_bincode (ContractCall * Signature))).
  reflexivity.
Defined.
