(* ===== verification/Transaction.v ===== *)
(** * Transactions, blocks and block resources (lib-blockchain)

    The data the block executor works on: [TransactionType] of
    [lib-blockchain/src/types/transaction_type.rs] with its wire discriminants,
    [Transaction] and its payloads of [transaction/core.rs], [Block] of
    [block/core.rs], the zero-knowledge proof helpers of
    [lib-proofs/src/transaction/transaction_proof.rs], and the block-level
    resource accounting of [lib-blockchain/src/resources.rs].  Payload variants
    the executor never looks into are kept as constructors without their data.

    The theorems: discriminants and types correspond one to one; the accumulator
    accepts a sequence of transactions exactly when every total is within its
    limit, so a block can never exceed them. *)
From stdpp Require Import base tactics numbers list option strings.
From S2P Require Import Prelude TokenCore Store Codec Ledger CurveExec Memo.

Module TransactionType.

Inductive t : Type :=
| Transfer | Coinbase | TokenTransfer | IdentityRegistration | IdentityUpdate
| IdentityRevocation | ContractDeployment | ContractExecution | SessionCreation
| SessionTermination | ContentUpload | UbiDistribution | WalletRegistration
| ValidatorRegistration | ValidatorUpdate | ValidatorUnregister | DaoProposal | DaoVote
| DaoExecution | DifficultyUpdate | UBIClaim | ProfitDeclaration
| GovernanceConfigUpdate | WalletUpdate | TokenMint | TokenCreation | TokenSwap
| CreatePool | AddLiquidity | RemoveLiquidity | BondingCurveDeploy | BondingCurveBuy
| BondingCurveSell | BondingCurveGraduate | UpdateOracleCommittee | UpdateOracleConfig
| OracleAttestation | CancelOracleUpdate | InitEntityRegistry | RecordOnRampTrade
| TreasuryAllocation | InitCbeToken | CreateEmploymentContract | ProcessPayroll
| DaoStake | DaoUnstake | DomainRegistration | DomainUpdate | GatewayRegistration
| GatewayUpdate | GatewayUnregister | NftCreateCollection | NftMint | NftTransfer
| NftBurn.

(** The [repr(u8)] value. *)
Definition discriminant (x : t) : Z :=
  match x with
  | Transfer => 0 | Coinbase => 1 | TokenTransfer => 2 | IdentityRegistration => 3
  | IdentityUpdate => 4 | IdentityRevocation => 5 | ContractDeployment => 6
  | ContractExecution => 7 | SessionCreation => 8 | SessionTermination => 9
  | ContentUpload => 10 | UbiDistribution => 11 | WalletRegistration => 12
  | ValidatorRegistration => 13 | ValidatorUpdate => 14 | ValidatorUnregister => 15
  | DaoProposal => 16 | DaoVote => 17 | DaoExecution => 18 | DifficultyUpdate => 19
  | UBIClaim => 20 | ProfitDeclaration => 21 | GovernanceConfigUpdate => 22
  | WalletUpdate => 23 | TokenMint => 24 | TokenCreation => 25 | TokenSwap => 26
  | CreatePool => 27 | AddLiquidity => 28 | RemoveLiquidity => 29
  | BondingCurveDeploy => 30 | BondingCurveBuy => 31 | BondingCurveSell => 32
  | BondingCurveGraduate => 33 | UpdateOracleCommittee => 34 | UpdateOracleConfig => 35
  | OracleAttestation => 36 | CancelOracleUpdate => 37 | InitEntityRegistry => 38
  | RecordOnRampTrade => 39 | TreasuryAllocation => 40 | InitCbeToken => 41
  | CreateEmploymentContract => 42 | ProcessPayroll => 43 | DaoStake => 44
  | DaoUnstake => 45 | DomainRegistration => 46 | DomainUpdate => 47
  | GatewayRegistration => 48 | GatewayUpdate => 49 | GatewayUnregister => 50
  | NftCreateCollection => 51 | NftMint => 52 | NftTransfer => 53 | NftBurn => 54
  end.

Definition of_discriminant (z : Z) : option t :=
  match z with
  | 0 => Some Transfer | 1 => Some Coinbase | 2 => Some TokenTransfer
  | 3 => Some IdentityRegistration | 4 => Some IdentityUpdate
  | 5 => Some IdentityRevocation | 6 => Some ContractDeployment
  | 7 => Some ContractExecution | 8 => Some SessionCreation
  | 9 => Some SessionTermination | 10 => Some ContentUpload
  | 11 => Some UbiDistribution | 12 => Some WalletRegistration
  | 13 => Some ValidatorRegistration | 14 => Some ValidatorUpdate
  | 15 => Some ValidatorUnregister | 16 => Some DaoProposal | 17 => Some DaoVote
  | 18 => Some DaoExecution | 19 => Some DifficultyUpdate | 20 => Some UBIClaim
  | 21 => Some ProfitDeclaration | 22 => Some GovernanceConfigUpdate
  | 23 => Some WalletUpdate | 24 => Some TokenMint | 25 => Some TokenCreation
  | 26 => Some TokenSwap | 27 => Some CreatePool | 28 => Some AddLiquidity
  | 29 => Some RemoveLiquidity | 30 => Some BondingCurveDeploy
  | 31 => Some BondingCurveBuy | 32 => Some BondingCurveSell
  | 33 => Some BondingCurveGraduate | 34 => Some UpdateOracleCommittee
  | 35 => Some UpdateOracleConfig | 36 => Some OracleAttestation
  | 37 => Some CancelOracleUpdate | 38 => Some InitEntityRegistry
  | 39 => Some RecordOnRampTrade | 40 => Some TreasuryAllocation
  | 41 => Some InitCbeToken | 42 => Some CreateEmploymentContract
  | 43 => Some ProcessPayroll | 44 => Some DaoStake | 45 => Some DaoUnstake
  | 46 => Some DomainRegistration | 47 => Some DomainUpdate
  | 48 => Some GatewayRegistration | 49 => Some GatewayUpdate
  | 50 => Some GatewayUnregister | 51 => Some NftCreateCollection | 52 => Some NftMint
  | 53 => Some NftTransfer | 54 => Some NftBurn
  | _ => None
  end.

Lemma of_discriminant_of x : of_discriminant (discriminant x) = Some x.
Proof. by destruct x. Qed.

#[export] Instance t_eq_dec : EqDecision t.
Proof.
  refine (λ x y, cast_if (decide (discriminant x = discriminant y))).
  - apply (inj Some). rewrite <- !of_discriminant_of. congruence.
  - congruence.
Defined.

End TransactionType.

Export (hints) TransactionType.

(** ** Payloads *)

Record TokenTransferData : Type := {
  tt_token_id : Z; tt_from : Z; tt_to : Z;
  tt_amount : Z;                    (* u128 *)
  tt_nonce : Z;                     (* u64 *)
}.

Record TokenMintData : Type := { tm_token_id : Z; tm_to : Z; tm_amount : Z (* u128 *) }.

Record DaoProposalData : Type := {
  proposal_id : Z; proposer : string; title : string; description : string;
  proposal_type : string;
  voting_period_blocks : Z;         (* u64 *)
  quorum_required : Z;              (* u8 *)
  execution_params : option (list Z); proposal_created_at : Z;
  created_height : Z;               (* u64, created_at_height *)
}.

Record DaoVoteData : Type := {
  vote_id : Z; vote_proposal_id : Z; voter : string; vote_choice : string; voting_power : Z;
  justification : option string; vote_timestamp : Z;
}.

Record DaoExecutionData : Type := {
  exec_proposal_id : Z; executor : string; execution_type : string; recipient : option string;
  exec_amount : option Z; executed_at : Z; executed_at_height : Z;
  multisig_signatures : list (list Z);
}.

Inductive TransactionPayload : Type :=
| NonePayload
| Identity
| Wallet (d : WalletTransactionData)
| Validator
| Gateway
| DaoProposal (d : DaoProposalData)
| DaoVote (d : DaoVoteData)
| DaoExecution (d : DaoExecutionData)
| UbiClaim
| ProfitDeclaration
| TokenTransfer (d : TokenTransferData)
| TokenMint (d : TokenMintData)
| GovernanceConfigUpdate
| BondingCurveDeploy
| BondingCurveBuy
| BondingCurveSell
| BondingCurveGraduate
| OracleCommitteeUpdate
| OracleConfigUpdate
| OracleAttestation
| CancelOracleUpdate
| InitEntityRegistry
| RecordOnRampTrade
| TreasuryAllocation (d : TreasuryAllocationData)
| InitCbeToken
| CreateEmploymentContract
| ProcessPayroll (d : ProcessPayrollData)
| DaoStake (d : DaoStakeData)
| DaoUnstake (d : DaoUnstakeData)
| NftCreateCollection
| NftMint
| NftTransfer
| NftBurn.

Record Transaction : Type := {
  version : Z;                      (* u32 *)
  chain_id : Z;                     (* u8 *)
  transaction_type : TransactionType.t;
  inputs : list TransactionInput;
  outputs : list TransactionOutput;
  fee : Z;                          (* u64 *)
  tx_signature : Signature;
  memo : list Z;
  payload : TransactionPayload;
}.

Definition token_transfer_data (tx : Transaction) : option TokenTransferData :=
  match payload tx with TokenTransfer d => Some d | _ => None end.
Definition token_mint_data (tx : Transaction) : option TokenMintData :=
  match payload tx with TokenMint d => Some d | _ => None end.
Definition tx_wallet_data (tx : Transaction) : option WalletTransactionData :=
  match payload tx with Wallet d => Some d | _ => None end.
Definition dao_proposal_data (tx : Transaction) : option DaoProposalData :=
  match payload tx with DaoProposal d => Some d | _ => None end.
Definition dao_vote_data (tx : Transaction) : option DaoVoteData :=
  match payload tx with DaoVote d => Some d | _ => None end.
Definition dao_execution_data (tx : Transaction) : option DaoExecutionData :=
  match payload tx with DaoExecution d => Some d | _ => None end.
Definition treasury_allocation_data (tx : Transaction) : option TreasuryAllocationData :=
  match payload tx with TreasuryAllocation d => Some d | _ => None end.
Definition process_payroll_data (tx : Transaction) : option ProcessPayrollData :=
  match payload tx with ProcessPayroll d => Some d | _ => None end.
Definition dao_stake_data (tx : Transaction) : option DaoStakeData :=
  match payload tx with DaoStake d => Some d | _ => None end.
Definition dao_unstake_data (tx : Transaction) : option DaoUnstakeData :=
  match payload tx with DaoUnstake d => Some d | _ => None end.

(** ** Blocks *)

Record BlockHeader : Type := {
  previous_hash : Z; header_timestamp : Z; height : Z; block_hash : Z;
}.

Record Block : Type := { header : BlockHeader; transactions : list Transaction }.

(** ** Proofs *)

Definition proof_is_empty (p : ZkProof) : bool :=
  bool_decide (backend_proof p = None) && bool_decide (proof_data p = []) &&
  bool_decide (public_inputs p = []) && bool_decide (verification_key p = []).

Definition has_empty_proofs (p : ZkTransactionProof) : bool :=
  proof_is_empty (amount_proof p) || proof_is_empty (balance_proof p) ||
  proof_is_empty (nullifier_proof p).

(** The root is bytes 32 to 63 of the public inputs. *)
Definition extract_merkle_root (p : ZkTransactionProof) : option Z :=
  let pi := public_inputs (amount_proof p) in
  if (length pi <? 64)%nat then None else Some (from_be_bytes (slice 32 64 pi)).

(** ** Resources *)

Inductive BlockApplyError : Type :=
| HeightMismatch (expected actual : Z)
| HashMismatch (expected actual : Z)
| InvalidPreviousHash (expected actual : Z)
| ValidationFailed (msg : string)
| InvalidFeeModelVersion (height actual expected : Z)
| TxFailed (index : nat) (reason : TxApplyError)
| PersistFailed (e : StorageError)
| StorageFailed (e : StorageError)            (* Storage *)
| EmptyBlock
| BlockTooLarge (size max : Z)
| InvalidMerkleRoot
| InvalidTimestamp (msg : string).

Record BlockLimits : Type := {
  max_payload_bytes : Z; max_witness_bytes : Z; max_verify_units : Z;   (* u64 *)
  max_state_write_bytes : Z; max_tx_count : Z;                          (* u64, u32 *)
}.

Definition BlockLimits_default : BlockLimits := {|
  max_payload_bytes := 1048576; max_witness_bytes := 524288; max_verify_units := 1000000;
  max_state_write_bytes := 2097152; max_tx_count := 10000 |}.

Definition BlockLimits_for_testing : BlockLimits := {|
  max_payload_bytes := umax 64; max_witness_bytes := umax 64; max_verify_units := umax 64;
  max_state_write_bytes := umax 64; max_tx_count := umax 32 |}.

Record BlockAccumulator : Type := {
  acc_payload : Z; acc_witness : Z; acc_verify : Z; acc_state_write : Z; acc_tx_count : Z;
}.

Definition BlockAccumulator_new : BlockAccumulator :=
  {| acc_payload := 0; acc_witness := 0; acc_verify := 0; acc_state_write := 0;
     acc_tx_count := 0 |}.

(** Payload bytes, witness bytes, verification units, state write bytes. *)
Record TxResources : Type := {
  res_payload : Z; res_witness : Z; res_verify : Z; res_state_write : Z;
}.

Definition add_tx (limits : BlockLimits) (r : TxResources) (a : BlockAccumulator)
    : result BlockAccumulator BlockApplyError :=
  let new_payload := saturating_add 64 (acc_payload a) (res_payload r) in
  if max_payload_bytes limits <? new_payload
  then Err (BlockTooLarge new_payload (max_payload_bytes limits)) else
  let new_witness := saturating_add 64 (acc_witness a) (res_witness r) in
  if max_witness_bytes limits <? new_witness
  then Err (ValidationFailed "witness bytes exceeded") else
  let new_verify := saturating_add 64 (acc_verify a) (res_verify r) in
  if max_verify_units limits <? new_verify
  then Err (ValidationFailed "verify units exceeded") else
  let new_state_write := saturating_add 64 (acc_state_write a) (res_state_write r) in
  if max_state_write_bytes limits <? new_state_write
  then Err (ValidationFailed "state write bytes exceeded") else
  let new_tx_count := saturating_add 32 (acc_tx_count a) 1 in
  if max_tx_count limits <? new_tx_count
  then Err (ValidationFailed "transaction count exceeded") else
  Ok {| acc_payload := new_payload; acc_witness := new_witness; acc_verify := new_verify;
        acc_state_write := new_state_write; acc_tx_count := new_tx_count |}.

(** A sequence of [add_tx], stopping at the first refusal. *)
Fixpoint add_txs (limits : BlockLimits) (rs : list TxResources) (a : BlockAccumulator)
    : result BlockAccumulator BlockApplyError :=
  match rs with
  | [] => Ok a
  | r :: rs' => let? a' := add_tx limits r a in add_txs limits rs' a'
  end.

(** ** Lemmas *)

Definition wf_resources (r : TxResources) : Prop :=
  0 <= res_payload r ∧ 0 <= res_witness r ∧ 0 <= res_verify r ∧ 0 <= res_state_write r.

Definition wf_limits (l : BlockLimits) : Prop :=
  max_payload_bytes l < umax 64 ∧ max_witness_bytes l < umax 64 ∧ max_verify_units l < umax 64 ∧
  max_state_write_bytes l < umax 64 ∧ max_tx_count l < umax 32.

(** The totals of an accumulator are within the limits. *)
Definition within (l : BlockLimits) (a : BlockAccumulator) : Prop :=
  acc_payload a <= max_payload_bytes l ∧ acc_witness a <= max_witness_bytes l ∧
  acc_verify a <= max_verify_units l ∧ acc_state_write a <= max_state_write_bytes l ∧
  acc_tx_count a <= max_tx_count l.

(** The accumulator with exact totals. *)
Definition plus (a : BlockAccumulator) (r : TxResources) : BlockAccumulator :=
  {| acc_payload := acc_payload a + res_payload r; acc_witness := acc_witness a + res_witness r;
     acc_verify := acc_verify a + res_verify r;
     acc_state_write := acc_state_write a + res_state_write r;
     acc_tx_count := acc_tx_count a + 1 |}.

Lemma add_tx_exact l r a :
  wf_limits l →
  (within l (plus a r) → add_tx l r a = Ok (plus a r)) ∧
  (¬ within l (plus a r) → ∃ e, add_tx l r a = Err e).
Proof.
  intros (Hp & Hw & Hv & Hs & Hc). unfold add_tx, saturating_add, within, plus; cbn.
  repeat match goal with |- context [?x <? ?y] => destruct (Z.ltb_spec x y) end;
    (split; intros Hin; [try lia|first [by eexists|exfalso; lia]]).
  rewrite !Z.min_l by lia. done.
Qed.

(** The resources of a whole sequence. *)
Definition totals (rs : list TxResources) (a : BlockAccumulator) : BlockAccumulator :=
  foldl plus a rs.

Lemma totals_mono l rs a : Forall wf_resources rs → within l (totals rs a) → within l a.
Proof.
  revert a. induction rs as [|r rs IH]; intros a Hrs Hin; [done|].
  apply list.Forall_cons in Hrs as [(? & ? & ? & ?) Hrs]. apply IH in Hin; [|done].
  unfold within, plus in *; cbn in *. lia.
Qed.

(** Resources are metered exactly: a sequence of transactions is accepted if and
    only if its totals are within every limit, and the accumulator then holds
    these totals. *)
Lemma add_txs_exact l rs a :
  wf_limits l → Forall wf_resources rs → within l a →
  match add_txs l rs a with
  | Ok a' => a' = totals rs a ∧ within l (totals rs a)
  | Err _ => ¬ within l (totals rs a)
  end.
Proof.
  intros Hl. revert a. induction rs as [|r rs IH]; intros a Hrs Ha; [done|]. cbn [add_txs].
  pose proof Hrs as [_ Hrs']%list.Forall_cons.
  destruct (add_tx_exact l r a Hl) as [Hok Herr].
  destruct (decide (within l (plus a r))) as [Hin|Hout].
  - rewrite Hok by done. by apply IH.
  - destruct (Herr Hout) as [e ->]. contradict Hout. by apply (totals_mono l rs).
Qed.
