(* ===== verification/Executor.v ===== *)
(** * Block execution (lib-blockchain execution/executor)

    [BlockExecutor] of [lib-blockchain/src/execution/executor.rs]: validation of
    the header, the resources and each transaction, the dispatch on the
    transaction type, the governance and contract handlers, the two-pass
    application of a block (transactions, then the coinbase with the collected
    fees), and the roll-back guard around it.  Hashes of transactions, the size
    of a block, the verification of proofs and bincode are parameters
    ([ExecutorEnv]).  Logging is left out.

    Theorems about whole blocks are in [Blocks] and [BlockValue]; here, that the
    eight-bit signature count of the fee check wraps, and a small chain that the
    witnesses run. *)
From stdpp Require Import base tactics numbers list option gmap fin_maps strings.
From S2P Require Import Prelude Fees Curve CurveState Merkle TokenCore Store Codec Ledger.
From S2P Require Import CurveExec Memo Transaction.

(** Code outside the executor. *)
Class ExecutorEnv : Type := {
  hash_transaction : Transaction → Z;
  block_size : Block → Z;
  (* [None] is an error of the verifier *)
  verify_transaction : ZkTransactionProof → option bool;
  dao_state_contract_id : Z;
  env_chars :: CharTables;
  env_creation :: Bincode TokenCreationPayloadV1;
  env_deployment :: Bincode ContractDeploymentPayloadV1;
  env_call_v2 :: Bincode (Z * ContractCall * Signature);
  env_call_v1 :: Bincode (ContractCall * Signature);
  env_proposal :: Bincode DaoProposalData;
  env_vote :: Bincode DaoVoteData;
  env_execution :: Bincode DaoExecutionData;
  env_limits :: Bincode (Z * Z);
  env_call_record :: Bincode (Z * string * Z * list Z);
}.

(** ** Fee model and configuration *)

Record BlockExecutor : Type := {
  fee_params : FeeParams; block_reward : Z; limits : BlockLimits; token_creation_fee : Z;
  skip_fee_validation : bool; skip_prev_hash_validation : bool;
}.

Definition VERSION_1 : Z := 1.
Definition VERSION_2 : Z := 2.

Definition active_fee_model_version (active_from height : Z) : Z :=
  if height <? active_from then VERSION_1 else VERSION_2.

Definition validate_version (active_from height version : Z) : result unit BlockApplyError :=
  let expected := active_fee_model_version active_from height in
  if negb (version =? expected) then Err (InvalidFeeModelVersion height version expected)
  else Ok tt.

Definition fee_kind (t : TransactionType.t) : TxKind :=
  match t with
  | TransactionType.Transfer => NativeTransfer
  | TransactionType.TokenTransfer => Fees.TokenTransfer
  | TransactionType.Coinbase => NativeTransfer
  | TransactionType.IdentityRegistration | TransactionType.IdentityUpdate
  | TransactionType.IdentityRevocation => Fees.Governance
  | TransactionType.ValidatorRegistration | TransactionType.ValidatorUpdate
  | TransactionType.GatewayRegistration | TransactionType.GatewayUpdate
  | TransactionType.GatewayUnregister | TransactionType.DaoProposal
  | TransactionType.DaoVote | TransactionType.DaoExecution
  | TransactionType.GovernanceConfigUpdate => Fees.Governance
  | TransactionType.UbiDistribution => NativeTransfer
  | TransactionType.ContractDeployment | TransactionType.ContractExecution => Fees.ContractCall
  | TransactionType.ContentUpload => DataUpload
  | _ => NativeTransfer
  end.

Definition tx_to_fee_input (tx : Transaction) : FeeInput :=
  let n_in := lenZ (inputs tx) in
  let n_out := lenZ (outputs tx) in {|
  kind := fee_kind (transaction_type tx); sig_scheme := Dilithium5;
  sig_count := as_u 8 (Z.max n_in 1); envelope_bytes := 100;
  payload_bytes := as_u 32 (lenZ (memo tx));
  witness_bytes := wmul 32 (as_u 32 n_in) (signature_size Dilithium5);
  exec_units := 0; state_reads := as_u 32 (n_in + n_out); state_writes := as_u 32 n_out;
  state_write_bytes := as_u 32 (n_out * 64);
  zk_verify_units := saturating_mul 32 (as_u 32 n_in) 50 |}.

Definition calculate_min_fee (ex : BlockExecutor) (i : FeeInput) : Z :=
  compute_fee_v2 i (fee_params ex).

(** ** Resource estimates *)

Definition estimate_tx_payload_size (tx : Transaction) : Z :=
  let base := 14 + lenZ (memo tx) in
  let inputs_payload := lenZ (inputs tx) * 68 in
  let outputs_payload := lenZ (outputs tx) * 96 in
  let optional_data :=
    match payload tx with
    | Identity => 256 | Wallet _ => 128 | Validator => 256
    | TokenTransfer _ => 104 | TokenMint _ => 72 | _ => 0
    end in
  base + inputs_payload + outputs_payload + optional_data.

Definition estimate_tx_witness_size (tx : Transaction) : Z :=
  lenZ (signature (tx_signature tx)) +
  sumZ ((λ i, lenZ (proof_data (amount_proof (zk_proof i))) +
              lenZ (proof_data (balance_proof (zk_proof i))) +
              lenZ (proof_data (nullifier_proof (zk_proof i)))) <$> inputs tx).

Definition estimate_tx_verify_units (tx : Transaction) : Z := 1 + lenZ (inputs tx) * 30.

Definition estimate_tx_state_writes (tx : Transaction) : Z :=
  match transaction_type tx with
  | TransactionType.Transfer => (lenZ (inputs tx) + lenZ (outputs tx)) * 150
  | TransactionType.Coinbase => lenZ (outputs tx) * 150
  | TransactionType.TokenTransfer => 200
  | TransactionType.TokenMint => 100
  | _ => 500
  end.

Definition calculate_tx_resources (tx : Transaction) : TxResources := {|
  res_payload := estimate_tx_payload_size tx; res_witness := estimate_tx_witness_size tx;
  res_verify := estimate_tx_verify_units tx; res_state_write := estimate_tx_state_writes tx |}.

(** ** Outcomes *)

Module TxOutcome.

Inductive t : Type :=
| Transfer (o : TransferOutcome)
| TokenTransfer (tok from to amount : Z)
| TokenMint (tok to amount : Z)
| TokenCreation (tok creator treasury creator_allocation treasury_allocation initial_supply : Z)
| ContractDeployment (contract_id : Z) (contract_type : string)
| ContractExecution (contract_id : Z) (method : string)
| DaoProposal (proposal_id : Z)
| DaoVote (proposal_id vote_id : Z)
| DaoExecution (proposal_id : Z)
| BondingCurveDeploy
| BondingCurveBuy (o : CanonicalBondingCurveOutcome)
| BondingCurveSell (o : CanonicalBondingCurveOutcome)
| BondingCurveGraduate
| OracleAttestation
| Coinbase (o : CoinbaseOutcome)
| TreasuryAllocation
| PayrollMint
| LegacySystem.

End TxOutcome.

Record StateChangesSummary : Type := {
  utxos_created : nat; utxos_spent : nat; balance_changes : nat; account_updates : nat;
}.

Definition StateChangesSummary_default : StateChangesSummary :=
  {| utxos_created := 0; utxos_spent := 0; balance_changes := 0; account_updates := 0 |}.

Record ApplyOutcome : Type := {
  out_height : Z; out_block_hash : Z; tx_count : nat; state_changes : StateChangesSummary;
  fees_collected : Z;
}.

Section Executor.
Context `{PairHash, ChainParams, ExecutorEnv}.
Variable ex : BlockExecutor.

(** ** Validation of transactions *)

Definition validate_tx_fee (tx : Transaction) : result unit TxApplyError :=
  if skip_fee_validation ex then Ok tt else
  match transaction_type tx with
  | TransactionType.Coinbase | TransactionType.TokenTransfer | TransactionType.TokenMint => Ok tt
  | TransactionType.TokenCreation =>
      if negb (fee tx =? 0) && negb (fee tx =? token_creation_fee ex)
      then Err (InvalidType "TokenCreation transaction fee must equal 0 or the canonical fee")
      else Ok tt
  | _ =>
      if bool_decide (inputs tx = []) then Ok tt else
      let required_fee := calculate_min_fee ex (tx_to_fee_input tx) in
      if fee tx <? required_fee then Err (InsufficientFee required_fee (fee tx)) else Ok tt
  end.

Definition decode_contract_call_memo (m : list Z)
    : result DecodedContractExecutionMemo TxApplyError :=
  map_err (InvalidType "Invalid ContractExecution memo") (decode_compat m).

(** The structural checks of [validate_tx_stateless]. *)
Definition validate_structure (tx : Transaction) : result unit TxApplyError :=
  match transaction_type tx with
  | TransactionType.Transfer =>
      if bool_decide (inputs tx = []) then Err EmptyInputs
      else if bool_decide (outputs tx = []) then Err EmptyOutputs
      else match first_duplicate [] (outpoint_of <$> inputs tx) with
           | Some op => Err (DuplicateInput op)
           | None => Ok tt
           end
  | TransactionType.Coinbase =>
      if negb (bool_decide (inputs tx = [])) then Err (InvalidType "Coinbase must have no inputs")
      else if bool_decide (outputs tx = []) then Err EmptyOutputs
      else if negb (fee tx =? 0) then Err (InvalidType "Coinbase transaction fee must be 0")
      else match payload tx with
           | Identity | Wallet _ | Validator | DaoProposal _ | DaoVote _ | DaoExecution _
           | UbiClaim | ProfitDeclaration =>
               Err (InvalidType "Coinbase must not have non-Phase-2 data fields")
           | _ => Ok tt
           end
  | TransactionType.TokenTransfer =>
      match token_transfer_data tx with
      | None => Err (InvalidType "TokenTransfer requires token_transfer_data field")
      | Some d =>
          if tt_amount d =? 0
          then Err (InvalidType "Token transfer amount must be greater than 0") else Ok tt
      end
  | TransactionType.TokenMint =>
      if version tx <? 2
      then Err (InvalidType "TokenMint not supported in this serialization version") else
      match token_mint_data tx with
      | None => Err (InvalidType "TokenMint requires token_mint_data field")
      | Some d =>
          if tm_amount d =? 0
          then Err (InvalidType "TokenMint amount must be greater than 0")
          else if negb (bool_decide (inputs tx = [])) || negb (bool_decide (outputs tx = []))
          then Err (InvalidType "TokenMint must not have UTXO inputs or outputs")
          else if negb (fee tx =? 0)
          then Err (InvalidType "TokenMint transaction fee must be 0 in Phase 2") else Ok tt
      end
  | TransactionType.TokenCreation =>
      if negb (bool_decide (inputs tx = []))
      then Err (InvalidType "TokenCreation must not have UTXO inputs")
      else if negb (bool_decide (outputs tx = []))
      then Err (InvalidType "TokenCreation must not have UTXO outputs")
      else
        let? _p := map_err (InvalidType "TokenCreation requires canonical memo payload")
                     (token_creation_decode_memo (memo tx)) in Ok tt
  | TransactionType.ContractDeployment =>
      if negb (bool_decide (inputs tx = [])) || negb (bool_decide (outputs tx = []))
      then Err (InvalidType "ContractDeployment must not have inputs or outputs")
      else
        let? _p := map_err (InvalidType "ContractDeployment requires canonical deployment memo")
                     (deployment_decode_memo (memo tx)) in Ok tt
  | TransactionType.ContractExecution =>
      if negb (bool_decide (inputs tx = [])) || negb (bool_decide (outputs tx = []))
      then Err (InvalidType "ContractExecution must not have inputs or outputs")
      else let? _p := decode_contract_call_memo (memo tx) in Ok tt
  | TransactionType.DaoProposal =>
      match dao_proposal_data tx with
      | None => Err (InvalidType "DaoProposal requires dao_proposal_data field")
      | Some d =>
          if trim_is_empty (proposer d) || trim_is_empty (title d)
          then Err (InvalidType "DaoProposal proposer/title must be non-empty") else Ok tt
      end
  | TransactionType.DaoVote =>
      match dao_vote_data tx with
      | None => Err (InvalidType "DaoVote requires dao_vote_data field")
      | Some d =>
          if trim_is_empty (voter d) || trim_is_empty (vote_choice d)
          then Err (InvalidType "DaoVote voter/vote_choice must be non-empty") else Ok tt
      end
  | TransactionType.DaoExecution =>
      match dao_execution_data tx with
      | None => Err (InvalidType "DaoExecution requires dao_execution_data field")
      | Some d =>
          if exec_proposal_id d =? 0
          then Err (InvalidType "DaoExecution proposal_id must be non-zero")
          else if trim_is_empty (executor d)
          then Err (InvalidType "DaoExecution executor must be non-empty") else Ok tt
      end
  | _ => Ok tt
  end.

(** The proofs of the inputs, against the root of the open block. *)
Fixpoint validate_proofs (ins : list TransactionInput) (s : SledStore)
    : result unit TxApplyError :=
  match ins with
  | [] => Ok tt
  | i :: ins' =>
      let? _u :=
        if has_empty_proofs (zk_proof i) then Ok tt
        else match verify_transaction (zk_proof i) with
             | Some true =>
                 match extract_merkle_root (zk_proof i), get_utxo_merkle_root s with
                 | Some proof_root, Some expected_root =>
                     if negb (proof_root =? expected_root)
                     then Err (InvalidType "ZK proof Merkle root mismatch") else Ok tt
                 | _, _ => Ok tt
                 end
             | Some false => Err (InvalidType "Invalid ZK proof")
             | None => Err (InvalidType "ZK verification failed")
             end in
      validate_proofs ins' s
  end.

Definition validate_tx_stateless (tx : Transaction) : TM unit :=
  lift (validate_structure tx) ;;;
  s <- gets (λ s, s) ;;
  lift (validate_proofs (inputs tx) s) ;;;
  lift (validate_tx_fee tx).

Definition is_canonical_sov_token (id : Z) : bool := (id =? 0) || (id =? sov_token_id).

(** The storage id of a token named in a transaction. *)
Definition canonical_token (id : Z) : TokenId :=
  if is_canonical_sov_token id then sov_token_id else id.

(** The first input that is not in the committed UTXO set. *)
Fixpoint missing_input (ops : list OutPoint) (s : SledStore) : option OutPoint :=
  match ops with
  | [] => None
  | op :: ops' => match get_utxo op s with Some _ => missing_input ops' s | None => Some op end
  end.

Definition validate_tx_stateful (tx : Transaction) : TM unit :=
  match transaction_type tx with
  | TransactionType.Transfer =>
      missing <- gets (missing_input (outpoint_of <$> inputs tx)) ;;
      match missing with Some op => throw (UtxoNotFound op) | None => ret tt end
  | TransactionType.TokenTransfer =>
      d <- lift (ok_or (token_transfer_data tx)
                  (InvalidType "TokenTransfer requires token_transfer_data")) ;;
      expected_nonce <- gets (get_token_nonce (canonical_token (tt_token_id d)) (tt_from d)) ;;
      guard (tt_nonce d =? expected_nonce) (InvalidNonce expected_nonce (tt_nonce d))
  | _ => ret tt
  end.

(** ** Governance and contract handlers

    The keys of the contract storage are byte strings. *)

Definition id_bytes (id : Z) : list Z := be_bytes 32 id.
Definition proposal_key (id : Z) : list Z := str_bytes "proposal:" ++ id_bytes id.
Definition proposal_index_key (id : Z) : list Z := str_bytes "proposal_index:" ++ id_bytes id.
Definition execution_key (id : Z) : list Z := str_bytes "execution:" ++ id_bytes id.
Definition vote_key (id : Z) (voter : string) : list Z :=
  str_bytes "vote:" ++ id_bytes id ++ str_bytes ":" ++ str_bytes voter.
Definition call_key (tx_hash : Z) : list Z := str_bytes "__call:" ++ id_bytes tx_hash.

Definition encode {A : Type} `{Bincode A} (a : A) : TM (list Z) :=
  lift (ok_or (serialize a) (Internal "Failed to serialize")).

Definition put_cell (id : Z) (key value : list Z) : TM unit :=
  storage (put_contract_storage id key value).

Definition apply_dao_proposal (tx : Transaction) : TM TxOutcome.t :=
  data <- lift (ok_or (dao_proposal_data tx)
                 (InvalidType "DaoProposal requires dao_proposal_data field")) ;;
  let id := dao_state_contract_id in
  found <- gets (get_contract_storage id (proposal_key (proposal_id data))) ;;
  guard (negb (bool_decide (is_Some found)))
    (InvalidType "DaoProposal with this ID already exists") ;;;
  encoded <- encode data ;;
  put_cell id (proposal_key (proposal_id data)) encoded ;;;
  put_cell id (proposal_index_key (proposal_id data)) (id_bytes (proposal_id data)) ;;;
  ret (TxOutcome.DaoProposal (proposal_id data)).

Definition apply_dao_vote (tx : Transaction) (block_height : Z) : TM TxOutcome.t :=
  data <- lift (ok_or (dao_vote_data tx)
                 (InvalidType "DaoVote requires dao_vote_data field")) ;;
  let id := dao_state_contract_id in
  found <- gets (get_contract_storage id (proposal_key (vote_proposal_id data))) ;;
  raw <- lift (ok_or found (InvalidType "DaoVote references unknown proposal")) ;;
  proposal <- lift (ok_or (deserialize raw : option DaoProposalData)
                     (Internal "Failed to deserialize proposal for vote check")) ;;
  let voting_deadline :=
    saturating_add 64 (created_height proposal) (voting_period_blocks proposal) in
  guard (block_height <=? voting_deadline)
    (InvalidType "DaoVote rejected: voting period expired") ;;;
  encoded <- encode data ;;
  put_cell id (vote_key (vote_proposal_id data) (voter data)) encoded ;;;
  ret (TxOutcome.DaoVote (vote_proposal_id data) (vote_id data)).

Definition apply_dao_execution (tx : Transaction) : TM TxOutcome.t :=
  data <- lift (ok_or (dao_execution_data tx)
                 (InvalidType "DaoExecution requires dao_execution_data field")) ;;
  let id := dao_state_contract_id in
  proposal <- gets (get_contract_storage id (proposal_key (exec_proposal_id data))) ;;
  guard (bool_decide (is_Some proposal))
    (InvalidType "DaoExecution references unknown proposal") ;;;
  done <- gets (get_contract_storage id (execution_key (exec_proposal_id data))) ;;
  guard (negb (bool_decide (is_Some done)))
    (InvalidType "DaoExecution: proposal has already been executed") ;;;
  encoded <- encode data ;;
  put_cell id (execution_key (exec_proposal_id data)) encoded ;;;
  put_cell id (str_bytes "last_execution_proposal") (id_bytes (exec_proposal_id data)) ;;;
  ret (TxOutcome.DaoExecution (exec_proposal_id data)).

Definition apply_contract_deployment (tx : Transaction) (tx_hash : Z) : TM TxOutcome.t :=
  p <- lift (map_err (InvalidType "ContractDeployment requires canonical deployment memo")
              (deployment_decode_memo (memo tx))) ;;
  storage (put_contract_code tx_hash (code p)) ;;;
  put_cell tx_hash (str_bytes "__contract_type") (str_bytes (cdp_contract_type p)) ;;;
  put_cell tx_hash (str_bytes "__abi") (abi p) ;;;
  put_cell tx_hash (str_bytes "__init_args") (init_args p) ;;;
  encoded <- encode (cdp_gas_limit p, memory_limit_bytes p) ;;
  put_cell tx_hash (str_bytes "__limits") encoded ;;;
  ret (TxOutcome.ContractDeployment tx_hash (cdp_contract_type p)).

Definition apply_contract_execution (tx : Transaction) (tx_hash block_height : Z)
    : TM TxOutcome.t :=
  decoded <- lift (decode_contract_call_memo (memo tx)) ;;
  id <- lift (ok_or (memo_contract_id decoded)
               (InvalidType "ContractExecution memo must include deployed contract_id")) ;;
  let call := memo_call decoded in
  code <- gets (get_contract_code id) ;;
  guard (bool_decide (is_Some code))
    (InvalidType "ContractExecution references unknown deployed contract_id") ;;;
  abi <- gets (get_contract_storage id (str_bytes "__abi")) ;;
  guard (bool_decide (is_Some abi))
    (InvalidType "ContractExecution target missing deployed ABI metadata") ;;;
  stored <- gets (get_contract_storage id (str_bytes "__limits")) ;;
  raw <- lift (ok_or stored
                (InvalidType "ContractExecution target missing deployed execution limits")) ;;
  lift (ok_or (deserialize raw : option (Z * Z))
         (InvalidType "ContractExecution target has invalid stored limits")) ;;;
  encoded <- encode (block_height, method call, key_id (public_key (tx_signature tx)), params call) ;;
  put_cell id (call_key tx_hash) encoded ;;;
  put_cell id (str_bytes "__last_call_key") (call_key tx_hash) ;;;
  ret (TxOutcome.ContractExecution id (method call)).

(** ** Token handlers *)

Definition sync_canonical_sov_contract_after_mint (recipient : Address) (amount : Z) : TM unit :=
  found <- gets (get_token_contract sov_token_id) ;;
  let contract := default new_sov_native found in
  supply <- gets (get_token_supply sov_token_id) ;;
  let current_supply := default (total_supply contract) supply in
  new_supply <- lift (ok_or (checked_add 128 current_supply amount)
                       (InvalidType "SOV total supply overflow")) ;;
  balance <- gets (get_token_balance sov_token_id recipient) ;;
  let recipient_pk := {| dilithium_pk := 0; kyber_pk := 0; key_id := recipient |} in
  storage (put_token_supply sov_token_id new_supply) ;;;
  storage (put_token_contract
    (set_balance recipient_pk (wadd 128 balance amount) (with_supply new_supply contract))).

Definition apply_token_transfer_tx (tx : Transaction) : TM TxOutcome.t :=
  data <- lift (ok_or (token_transfer_data tx)
                 (InvalidType "TokenTransfer requires token_transfer_data field")) ;;
  let tok := canonical_token (tt_token_id data) in
  guard (negb (tt_amount data =? 0))
    (InvalidType "Token transfer amount must be greater than 0") ;;;
  let fee_bps := if tt_token_id data =? cbe_token_id then 0 else SOV_FEE_RATE_BPS in
  apply_token_transfer tok (tt_from data) (tt_to data) (tt_amount data) fee_bps
    fee_sink_address ;;;
  increment_token_nonce tok (tt_from data) ;;;
  ret (TxOutcome.TokenTransfer tok (tt_from data) (tt_to data) (tt_amount data)).

Definition apply_token_mint_tx (tx : Transaction) : TM TxOutcome.t :=
  data <- lift (ok_or (token_mint_data tx)
                 (InvalidType "TokenMint requires token_mint_data field")) ;;
  guard (negb (tm_amount data =? 0)) (InvalidType "TokenMint amount must be greater than 0") ;;;
  let tok := canonical_token (tm_token_id data) in
  apply_token_mint tok (tm_to data) (tm_amount data) ;;;
  (if tok =? sov_token_id
   then sync_canonical_sov_contract_after_mint (tm_to data) (tm_amount data) else ret tt) ;;;
  ret (TxOutcome.TokenMint tok (tm_to data) (tm_amount data)).

Definition apply_wallet_registration (tx : Transaction) (block_height : Z) : TM TxOutcome.t :=
  d <- lift (ok_or (tx_wallet_data tx)
              (InvalidType "WalletRegistration requires wallet_data field")) ;;
  storage (put_wallet_projection (wallet_id d)
    {| wallet_data := d; committed_at_height := block_height |}) ;;;
  (if 0 <? initial_balance d then
     apply_token_mint sov_token_id (wallet_id d) (initial_balance d) ;;;
     sync_canonical_sov_contract_after_mint (wallet_id d) (initial_balance d)
   else ret tt) ;;;
  ret TxOutcome.LegacySystem.

Definition apply_wallet_update (tx : Transaction) (block_height : Z) : TM TxOutcome.t :=
  d <- lift (ok_or (tx_wallet_data tx) (InvalidType "WalletUpdate requires wallet_data field")) ;;
  storage (put_wallet_projection (wallet_id d)
    {| wallet_data := d; committed_at_height := block_height |}) ;;;
  ret TxOutcome.LegacySystem.

Fixpoint to_ascii_uppercase (s : string) : string :=
  match s with
  | EmptyString => EmptyString
  | String a s' =>
      let n := Ascii.nat_of_ascii a in
      String (if (97 <=? n)%nat && (n <=? 122)%nat then Ascii.ascii_of_nat (n - 32) else a)
        (to_ascii_uppercase s')
  end.

Definition token_symbol_exists_case_insensitive (sym : string) (s : SledStore) : bool :=
  existsb (λ c, String.eqb (to_ascii_uppercase (symbol c.2)) (to_ascii_uppercase sym))
    (iter_token_contracts s).

(** The contract of a new token: its shares minted to creator and treasury. *)
Definition new_created_token (p : TokenCreationPayloadV1) (creator : PublicKey)
    : result TokenContract TxApplyError :=
  let '(creator_allocation, treasury_allocation) := split_initial_supply p in
  let t0 := new_custom (tcp_name p) (tcp_symbol p) 0 creator in
  let t1 := with_issue (if tcp_decimals p =? 0 then 8 else tcp_decimals p) (initial_supply p)
              (kernel_mint_authority t0) (kernel_only_mode t0) t0 in
  match mint creator creator_allocation t1 with
  | (_, Err _) => Err (Internal "TokenCreation mint failed")
  | (t2, Ok _) =>
      match mint {| dilithium_pk := 0; kyber_pk := 0; key_id := treasury_recipient p |}
              treasury_allocation t2 with
      | (_, Err _) => Err (Internal "TokenCreation treasury mint failed")
      | (t3, Ok _) => Ok t3
      end
  end.

Definition apply_token_creation (tx : Transaction) : TM TxOutcome.t :=
  p <- lift (map_err (InvalidType "TokenCreation requires canonical memo payload")
              (token_creation_decode_memo (memo tx))) ;;
  let '(creator_allocation, treasury_allocation) := split_initial_supply p in
  let creator := public_key (tx_signature tx) in
  guard (negb (treasury_recipient p =? key_id creator))
    (InvalidType "TokenCreation treasury_recipient must differ from creator") ;;;
  contract <- lift (new_created_token p creator) ;;
  let id := token_id contract in
  existing <- gets (get_token_contract id) ;;
  guard (negb (bool_decide (is_Some existing)))
    (InvalidType "TokenCreation for existing token_id is not allowed") ;;;
  conflict <- gets (token_symbol_exists_case_insensitive (tcp_symbol p)) ;;
  guard (negb conflict) (InvalidType "TokenCreation: symbol conflicts with an existing token") ;;;
  storage (put_token_contract contract) ;;;
  apply_token_mint id (key_id creator) creator_allocation ;;;
  apply_token_mint id (treasury_recipient p) treasury_allocation ;;;
  ret (TxOutcome.TokenCreation id (key_id creator) (treasury_recipient p) creator_allocation
         treasury_allocation (initial_supply p)).

(** ** Dispatch *)

Definition apply_bonding_curve (tx : Transaction) (is_buy : bool) : TM TxOutcome.t :=
  envelope <- lift (extract_bonding_curve_envelope (memo tx) is_buy) ;;
  outcome <- apply_canonical_bonding_curve_envelope envelope
               (key_id (public_key (tx_signature tx))) ;;
  match outcome, is_buy with
  | BuyOutcome _ _ _ _, true => ret (TxOutcome.BondingCurveBuy outcome)
  | SellOutcome _ _ _ _, false => ret (TxOutcome.BondingCurveSell outcome)
  | SellOutcome _ _ _ _, true =>
      throw (InvalidType "Canonical SELL_CBE payload cannot execute as BondingCurveBuy")
  | BuyOutcome _ _ _ _, false =>
      throw (InvalidType "Canonical BUY_CBE payload cannot execute as BondingCurveSell")
  end.

Definition apply_transaction (tx : Transaction) (block_height : Z) : TM TxOutcome.t :=
  let tx_hash := hash_transaction tx in
  let signer := key_id (public_key (tx_signature tx)) in
  match transaction_type tx with
  | TransactionType.Transfer =>
      o <- apply_native_transfer (inputs tx) (outputs tx) (fee tx) tx_hash block_height ;;
      ret (TxOutcome.Transfer o)
  | TransactionType.Coinbase =>
      o <- apply_coinbase (inputs tx) (outputs tx) tx_hash block_height (block_reward ex) 0
             fee_sink_address ;;
      ret (TxOutcome.Coinbase o)
  | TransactionType.TokenTransfer => apply_token_transfer_tx tx
  | TransactionType.TokenMint => apply_token_mint_tx tx
  | TransactionType.WalletRegistration => apply_wallet_registration tx block_height
  | TransactionType.WalletUpdate => apply_wallet_update tx block_height
  | TransactionType.TokenCreation => apply_token_creation tx
  | TransactionType.ContractDeployment => apply_contract_deployment tx tx_hash
  | TransactionType.ContractExecution => apply_contract_execution tx tx_hash block_height
  | TransactionType.IdentityRegistration | TransactionType.IdentityUpdate
  | TransactionType.IdentityRevocation | TransactionType.ValidatorRegistration
  | TransactionType.ValidatorUpdate | TransactionType.ValidatorUnregister
  | TransactionType.SessionCreation | TransactionType.SessionTermination
  | TransactionType.ContentUpload | TransactionType.UbiDistribution
  | TransactionType.DifficultyUpdate | TransactionType.UBIClaim
  | TransactionType.ProfitDeclaration | TransactionType.GovernanceConfigUpdate
  | TransactionType.UpdateOracleCommittee | TransactionType.UpdateOracleConfig
  | TransactionType.InitCbeToken | TransactionType.CreateEmploymentContract =>
      ret TxOutcome.LegacySystem
  | TransactionType.ProcessPayroll =>
      apply_payroll_mint (process_payroll_data tx) block_height ;;; ret TxOutcome.PayrollMint
  | TransactionType.DaoStake =>
      apply_dao_stake (dao_stake_data tx) signer block_height ;;; ret TxOutcome.LegacySystem
  | TransactionType.DaoUnstake =>
      apply_dao_unstake (dao_unstake_data tx) signer block_height ;;; ret TxOutcome.LegacySystem
  | TransactionType.NftCreateCollection | TransactionType.NftMint
  | TransactionType.NftTransfer | TransactionType.NftBurn => ret TxOutcome.LegacySystem
  | TransactionType.BondingCurveDeploy => ret TxOutcome.BondingCurveDeploy
  | TransactionType.BondingCurveGraduate => ret TxOutcome.BondingCurveGraduate
  | TransactionType.BondingCurveBuy => apply_bonding_curve tx true
  | TransactionType.BondingCurveSell => apply_bonding_curve tx false
  | TransactionType.DaoProposal => apply_dao_proposal tx
  | TransactionType.DaoVote => apply_dao_vote tx block_height
  | TransactionType.DaoExecution => apply_dao_execution tx
  | TransactionType.OracleAttestation | TransactionType.RecordOnRampTrade
  | TransactionType.GatewayRegistration | TransactionType.GatewayUpdate
  | TransactionType.GatewayUnregister => ret TxOutcome.LegacySystem
  | TransactionType.TreasuryAllocation =>
      apply_treasury_allocation (treasury_allocation_data tx) ;;; ret TxOutcome.TreasuryAllocation
  | _ => throw (UnsupportedType "unsupported transaction type")
  end.

Definition is_coinbase (tx : Transaction) : bool :=
  bool_decide (transaction_type tx = TransactionType.Coinbase).

Definition apply_tx (tx : Transaction) (block_height : Z) : TM TxOutcome.t :=
  guard (negb (is_coinbase tx))
    (InvalidType "Coinbase should not be processed in apply_tx pass") ;;;
  apply_transaction tx block_height.

Definition apply_coinbase_with_fees (tx : Transaction) (block_height fees_collected : Z)
    : TM CoinbaseOutcome :=
  guard (is_coinbase tx) (InvalidType "Expected coinbase transaction") ;;;
  apply_coinbase (inputs tx) (outputs tx) (hash_transaction tx) block_height (block_reward ex)
    fees_collected fee_sink_address.

(** ** Blocks *)

Notation BM := (M SledStore BlockApplyError) (only parsing).

(** [map_err] on an effectful call. *)
Definition with_err {E A : Type} (f : E → BlockApplyError) (m : M SledStore E A) : BM A :=
  λ s, match m s with
       | (s', Ok a) => (s', Ok a)
       | (s', Err e) => (s', Err (f e))
       end.

Definition get_expected_height (s : SledStore) : Z :=
  match latest_height (db s) with Some h => wadd 64 h 1 | None => 0 end.

Definition validate_previous_hash (block : Block) (h : Z) : BM unit :=
  expected <- gets (get_block_hash_by_height (h - 1)) ;;
  match expected with
  | None => throw (ValidationFailed "Previous block not found")
  | Some expected_hash =>
      guard (expected_hash =? previous_hash (header block))
        (InvalidPreviousHash expected_hash (previous_hash (header block)))
  end.

Definition validate_header (block : Block) : BM unit :=
  expected_height <- gets get_expected_height ;;
  let h := height (header block) in
  guard (h =? expected_height) (HeightMismatch expected_height h) ;;;
  if (0 <? h) && negb (skip_prev_hash_validation ex) then validate_previous_hash block h
  else ret tt.

Definition validate_block_resources (block : Block) : BM unit :=
  let size := block_size block in
  guard (size <=? max_payload_bytes (limits ex))
    (BlockTooLarge size (max_payload_bytes (limits ex))) ;;;
  guard (as_u 32 (lenZ (transactions block)) <=? max_tx_count (limits ex))
    (ValidationFailed "Block has too many transactions").

Definition spent (o : TransferOutcome) (c : StateChangesSummary) : StateChangesSummary := {|
  utxos_created := utxos_created c + outputs_created o;
  utxos_spent := utxos_spent c + inputs_spent o;
  balance_changes := balance_changes c; account_updates := account_updates c |}.

Definition created (n : nat) (c : StateChangesSummary) : StateChangesSummary := {|
  utxos_created := utxos_created c + n; utxos_spent := utxos_spent c;
  balance_changes := balance_changes c; account_updates := account_updates c |}.

Definition changed (n : nat) (c : StateChangesSummary) : StateChangesSummary := {|
  utxos_created := utxos_created c; utxos_spent := utxos_spent c;
  balance_changes := balance_changes c + n; account_updates := account_updates c |}.

Definition updated (c : StateChangesSummary) : StateChangesSummary := {|
  utxos_created := utxos_created c; utxos_spent := utxos_spent c;
  balance_changes := balance_changes c; account_updates := account_updates c + 1 |}.

(** The block's running totals: resources, summary, fees. *)
Record Totals : Type := {
  accumulator : BlockAccumulator; summary : StateChangesSummary; total_fees : Z; (* u128 *)
}.

(** A coinbase outcome is unreachable here, see [apply_tx_not_coinbase]. *)
Definition accumulate (o : TxOutcome.t) (c : StateChangesSummary) : StateChangesSummary :=
  match o with
  | TxOutcome.Transfer o => spent o c
  | TxOutcome.TokenTransfer _ _ _ _ => changed 2 c
  | TxOutcome.TokenMint _ _ _ => changed 1 c
  | TxOutcome.TokenCreation _ _ _ _ _ _ => changed 2 c
  | TxOutcome.ContractDeployment _ _ => changed 1 c
  | TxOutcome.ContractExecution _ _ => changed 1 c
  | TxOutcome.DaoProposal _ | TxOutcome.DaoVote _ _ | TxOutcome.DaoExecution _ => updated c
  | TxOutcome.BondingCurveDeploy => c
  | TxOutcome.BondingCurveBuy _ | TxOutcome.BondingCurveSell _ => changed 2 c
  | TxOutcome.BondingCurveGraduate => c
  | TxOutcome.OracleAttestation => updated c
  | TxOutcome.Coinbase _ => c
  | TxOutcome.TreasuryAllocation | TxOutcome.PayrollMint => changed 2 c
  | TxOutcome.LegacySystem => c
  end.

Definition outcome_fees (o : TxOutcome.t) (fees : Z) : Z :=
  match o with TxOutcome.Transfer o => wadd 128 fees (outcome_fee o) | _ => fees end.

Definition apply_one (tx : Transaction) (index : nat) (block_height : Z) (t : Totals)
    : BM Totals :=
  acc <- lift (add_tx (limits ex) (calculate_tx_resources tx) (accumulator t)) ;;
  with_err (TxFailed index) (validate_tx_stateless tx) ;;;
  with_err (TxFailed index) (validate_tx_stateful tx) ;;;
  o <- with_err (TxFailed index) (apply_tx tx block_height) ;;
  ret {| accumulator := acc; summary := accumulate o (summary t);
         total_fees := outcome_fees o (total_fees t) |}.

Fixpoint apply_txs (txs : list Transaction) (index : nat) (block_height : Z) (t : Totals)
    : BM Totals :=
  match txs with
  | [] => ret t
  | tx :: txs' =>
      t' <- apply_one tx index block_height t ;;
      apply_txs txs' (S index) block_height t'
  end.

Definition apply_block_coinbase (coinbase : option Transaction) (block_height : Z) (t : Totals)
    : BM Totals :=
  match coinbase with
  | None => ret t
  | Some tx =>
      acc <- lift (add_tx (limits ex) (calculate_tx_resources tx) (accumulator t)) ;;
      with_err (TxFailed 0) (validate_tx_stateless tx) ;;;
      o <- with_err (TxFailed 0) (apply_coinbase_with_fees tx block_height (total_fees t)) ;;
      ret {| accumulator := acc; summary := created (cb_outputs_created o) (summary t);
             total_fees := total_fees t |}
  end.

(** The economic state of block 0: the default with the treasury allocation. *)
Definition genesis_econ : BondingCurveEconomicState :=
  let e := BondingCurveEconomicState_default in {|
  s_c := s_c e; reserve_balance := reserve_balance e;
  sov_treasury_cbe_balance := sov_treasury_cbe_balance e;
  liquidity_pool_balance := liquidity_pool_balance e; total_sov_minted := total_sov_minted e;
  graduated := graduated e; sell_enabled := sell_enabled e;
  compensation_pool := compensation_pool e; treasury_pool := treasury_pool e;
  liquidity_pool := liquidity_pool e; incentive_pool := incentive_pool e;
  strategic_reserve := strategic_reserve e;
  outstanding_pre_backed := outstanding_pre_backed e;
  pre_backed_queue := pre_backed_queue e; debt_state := debt_state e;
  genesis_treasury_allocation := GENESIS_TREASURY_ALLOCATION;
  sovrn_total_supply := sovrn_total_supply e |}.

Definition apply_genesis : BM unit :=
  with_err PersistFailed (put_cbe_economic_state genesis_econ) ;;;
  current <- gets (get_token_balance cbe_token_id fee_sink_address) ;;
  with_err PersistFailed (set_token_balance cbe_token_id fee_sink_address
    (saturating_add 128 current GENESIS_TREASURY_ALLOCATION)).

Definition Totals_new : Totals :=
  {| accumulator := BlockAccumulator_new; summary := StateChangesSummary_default;
     total_fees := 0 |}.

(** The coinbase and the other transactions of a block. *)
Definition split_coinbase (txs : list Transaction)
    : result (option Transaction * list Transaction) BlockApplyError :=
  let coinbase_count := length (filter (λ tx, is_coinbase tx = true) txs) in
  if (1 <? coinbase_count)%nat
  then Err (ValidationFailed "Block must have at most one coinbase transaction") else
  if (coinbase_count =? 1)%nat then
    match txs with
    | tx :: rest =>
        if is_coinbase tx then Ok (Some tx, rest)
        else Err (ValidationFailed "Coinbase transaction must be first in block")
    | [] => Err (ValidationFailed "Coinbase transaction must be first in block")
    end
  else Ok (None, txs).

(** The writes of a block, before its append and commit. *)
Definition apply_transactions (coinbase : option Transaction) (rest : list Transaction)
    (h : Z) : BM Totals :=
  if h =? 0 then apply_genesis ;;; ret Totals_new else
  let start := if bool_decide (is_Some coinbase) then 1%nat else 0%nat in
  t <- apply_txs rest start h Totals_new ;;
  apply_block_coinbase coinbase h t.

Definition apply_block_inner (block : Block) : BM ApplyOutcome :=
  let h := height (header block) in
  parts <- lift (split_coinbase (transactions block)) ;;
  t <- apply_transactions parts.1 parts.2 h ;;
  with_err PersistFailed (append_block h (block_hash (header block))) ;;;
  with_err StorageFailed commit_block ;;;
  ret {| out_height := h; out_block_hash := block_hash (header block);
         tx_count := length (transactions block); state_changes := summary t;
         fees_collected := total_fees t |}.

(** [RollbackGuard]: an error drops the armed guard, which rolls the block back. *)
Definition with_rollback {A : Type} (m : BM A) : BM A :=
  λ s, match m s with
       | (s', Ok a) => (s', Ok a)
       | (s', Err e) => ((rollback_block s').1, Err e)
       end.

Definition apply_block (block : Block) : BM ApplyOutcome :=
  validate_header block ;;;
  validate_block_resources block ;;;
  with_err StorageFailed (begin_block (height (header block))) ;;;
  with_rollback (apply_block_inner block).

End Executor.

(** ** Signature fees *)

(** A transfer with one output and no memo. *)
Definition plain_transfer (n : Z) (tx : Transaction) : Prop :=
  transaction_type tx = TransactionType.Transfer ∧ lenZ (inputs tx) = n ∧
  lenZ (outputs tx) = 1 ∧ memo tx = [].

Lemma plain_transfer_fee ex n tx :
  plain_transfer n tx → 0 < n → skip_fee_validation ex = false →
  validate_tx_fee ex tx =
    let required := calculate_min_fee ex {|
      kind := NativeTransfer; sig_scheme := Dilithium5; sig_count := as_u 8 n;
      envelope_bytes := 100; payload_bytes := 0;
      witness_bytes := wmul 32 (as_u 32 n) (signature_size Dilithium5); exec_units := 0;
      state_reads := as_u 32 (n + 1); state_writes := 1; state_write_bytes := 64;
      zk_verify_units := saturating_mul 32 (as_u 32 n) 50 |} in
    if fee tx <? required then Err (InsufficientFee required (fee tx)) else Ok tt.
Proof.
  intros (Ht & Hi & Ho & Hm) Hn Hs. unfold validate_tx_fee, tx_to_fee_input, fee_kind.
  rewrite Hs, Ht, Hi, Ho, Hm. rewrite bool_decide_false by (intros Heq; rewrite Heq in Hi; by subst).
  by rewrite Z.max_l by lia.
Qed.

(** The signature fee wraps at 256 inputs.  The number of signatures is stored
    in eight bits, so under the default parameters a transfer of 256 inputs is
    charged for none of them and passes the fee check with 27,964, while one of
    255 inputs must pay 1,302,864. *)
Theorem signature_fee_wraps ex tx255 tx256 :
  fee_params ex = FeeParams_default → skip_fee_validation ex = false →
  plain_transfer 255 tx255 → plain_transfer 256 tx256 →
  (validate_tx_fee ex tx255 = Ok tt ↔ 1302864 <= fee tx255) ∧
  (validate_tx_fee ex tx256 = Ok tt ↔ 27964 <= fee tx256).
Proof.
  intros Hp Hs H1 H2.
  rewrite (plain_transfer_fee ex 255 tx255), (plain_transfer_fee ex 256 tx256) by done.
  unfold calculate_min_fee. rewrite Hp. set (r1 := compute_fee_v2 _ _). set (r2 := compute_fee_v2 _ _).
  assert (r1 = 1302864) as -> by (by vm_compute). assert (r2 = 27964) as -> by (by vm_compute).
  cbv zeta. split; match goal with |- context [?x <? ?y] => destruct (Z.ltb_spec x y) end;
    split; try done; lia.
Qed.

(** ** Concrete instances *)

#[local] Instance demo_hash : PairHash := λ a b, a + b.
#[local] Instance demo_chain_params : ChainParams := {|
  sov_token_id := 1; cbe_token_id := 2; fee_sink_address := 99;
  generate_custom_token_id := λ _ _, 3; key_id_of := id |}.

(** Transactions of the examples are identified by their version. *)
Definition demo_bincode (A : Type) : Bincode A :=
  {| serialize := λ _, Some [7]; deserialize := λ _, None |}.
#[local] Instance demo_env : ExecutorEnv := {|
  hash_transaction := λ tx, 1000 + version tx; block_size := λ _, 0;
  verify_transaction := λ _, Some true; dao_state_contract_id := 77; env_chars := λ _, true;
  env_creation := demo_bincode _; env_deployment := demo_bincode _; env_call_v2 := demo_bincode _;
  env_call_v1 := demo_bincode _; env_proposal := demo_bincode _; env_vote := demo_bincode _;
  env_execution := demo_bincode _; env_limits := demo_bincode _; env_call_record := demo_bincode _ |}.

Definition demo_executor : BlockExecutor := {|
  fee_params := FeeParams_default; block_reward := 50000000; limits := BlockLimits_default;
  token_creation_fee := 1000; skip_fee_validation := true; skip_prev_hash_validation := false |}.

Definition demo_tx (v : Z) (t : TransactionType.t) (ins : list TransactionInput)
    (outs : list TransactionOutput) (tx_fee : Z) (p : TransactionPayload) : Transaction := {|
  version := v; chain_id := 1; transaction_type := t; inputs := ins; outputs := outs; fee := tx_fee;
  tx_signature := {| signature := []; public_key := zero_key; algorithm := 0; sig_timestamp := 0 |};
  memo := []; payload := p |}.

Definition demo_spend (v prev : Z) (receivers : list Z) (tx_fee : Z) : Transaction :=
  demo_tx v TransactionType.Transfer
    [{| previous_output := prev; output_index := 0; zk_proof := demo_proof |}]
    (demo_output <$> receivers) tx_fee NonePayload.

Definition demo_coinbase (v : Z) (receivers : list Z) : Transaction :=
  demo_tx v TransactionType.Coinbase [] (demo_output <$> receivers) 0 NonePayload.

Definition demo_mint (v to amount : Z) : Transaction :=
  demo_tx v TransactionType.TokenMint [] [] 0
    (TokenMint {| tm_token_id := 5; tm_to := to; tm_amount := amount |}).

Definition demo_transfer (v from to amount nonce : Z) : Transaction :=
  demo_tx v TransactionType.TokenTransfer [] [] 0
    (TokenTransfer {| tt_token_id := 5; tt_from := from; tt_to := to; tt_amount := amount;
                      tt_nonce := nonce |}).

Definition demo_proposal (v id : Z) : Transaction :=
  demo_tx v TransactionType.DaoProposal [] [] 0
    (DaoProposal {| proposal_id := id; proposer := "p"; title := "t"; description := ""; proposal_type := "";
       voting_period_blocks := 10; quorum_required := 1; execution_params := None;
       proposal_created_at := 0; created_height := 1 |}).

Definition demo_execution (v id : Z) : Transaction :=
  demo_tx v TransactionType.DaoExecution [] [] 0
    (DaoExecution {| exec_proposal_id := id; executor := "e"; execution_type := ""; recipient := None;
       exec_amount := None; executed_at := 0; executed_at_height := 0; multisig_signatures := [] |}).

Definition demo_block_at (h : Z) (txs : list Transaction) : Block := {|
  header := {| previous_hash := 499 + h; header_timestamp := 0; height := h; block_hash := 500 + h |};
  transactions := txs |}.

(** A chain of four blocks. *)
Definition demo_blocks : list Block :=
  [demo_block_at 0 [];
   demo_block_at 1 [demo_coinbase 1 [10]; demo_mint 2 20 1000000; demo_mint 3 30 1000000; demo_proposal 4 8];
   demo_block_at 2 [demo_coinbase 5 [10; 99]; demo_spend 6 1001 [11; 12] 500;
                    demo_transfer 7 20 21 10000 0; demo_execution 8 8];
   demo_block_at 3 [demo_transfer 9 20 21 20000 1; demo_transfer 10 30 31 30000 0]].

Definition demo_state (n : nat) : SledStore :=
  foldl (λ s b, (apply_block demo_executor b s).1) empty_store (take n demo_blocks).

(** Every block of the example is accepted. *)
Lemma demo_blocks_accepted :
  Forall (λ i, is_ok (apply_block demo_executor (nth i demo_blocks (demo_block_at 0 []))
                        (demo_state i)).2 = true) [0; 1; 2; 3]%nat.
Proof. repeat constructor; by vm_compute. Qed.

Definition demo_wide (n : nat) (tx_fee : Z) : Transaction :=
  demo_tx 1 TransactionType.Transfer (replicate n demo_input) [demo_output 1] tx_fee NonePayload.

Lemma signature_fee_wraps_witness :
  let ex := {| fee_params := FeeParams_default; block_reward := 0; limits := BlockLimits_default;
               token_creation_fee := 0; skip_fee_validation := false;
               skip_prev_hash_validation := false |} in
  validate_tx_fee ex (demo_wide 256 30000) = Ok tt ∧
  validate_tx_fee ex (demo_wide 255 30000) ≠ Ok tt.
Proof.
  intros ex. destruct (signature_fee_wraps ex (demo_wide 255 30000) (demo_wide 256 30000)) as [H1 H2];
    [done|done|by vm_compute|by vm_compute|].
  split; [by apply H2|]. intros Hv%H1. by vm_compute in Hv.
Defined.
