(* ===== verification/Frame.v ===== *)
(** * A frame logic for the block executor

    [respects d Q m] says that a program [m] over the store whose committed state
    is [d] leaves that state, the height and the open block alone, and only moves
    the pending batch along the preorder [Q].  The class [Writes] lists what a
    preorder must allow for the dispatcher [apply_transaction] of [Executor.v] to
    respect it, whatever the type of the transaction; the instances at the end are
    the invariants of the theorems of [Blocks.v], [BlockValue.v] and
    [Recovery.v]. *)
From stdpp Require Import base tactics numbers list option gmap fin_maps strings.
From S2P Require Import Prelude Fees Curve CurveState Merkle TokenCore Store Codec Ledger.
From S2P Require Import CurveExec Memo Transaction Executor.

(** ** Frame logic *)

Section Respects.
Variables (d : Tables) (Q : PendingBatch → PendingBatch → Prop).
Context `{!PreOrder Q}.

Definition moves (s s' : SledStore) : Prop :=
  db s' = d ∧ tx_active s' = tx_active s ∧ tx_height s' = tx_height s ∧
  match tx_batch s, tx_batch s' with
  | Some b, Some b' => Q b b'
  | None, None => True
  | _, _ => False
  end.

Definition respects {E A : Type} (m : M SledStore E A) : Prop :=
  ∀ s s' r, db s = d → m s = (s', r) → moves s s'.

Lemma moves_refl s : db s = d → moves s s.
Proof. intros. split_and!; try done. by destruct (tx_batch s). Qed.

Lemma moves_trans s1 s2 s3 : moves s1 s2 → moves s2 s3 → moves s1 s3.
Proof.
  intros (Hd1 & Ha1 & Hh1 & Hb1) (Hd2 & Ha2 & Hh2 & Hb2). split_and!; try congruence.
  destruct (tx_batch s1), (tx_batch s2), (tx_batch s3); try done. by etrans.
Qed.

(** A program that leaves the store alone. *)
Lemma respects_pure {E A : Type} (m : M SledStore E A) : (∀ s, (m s).1 = s) → respects m.
Proof.
  intros Hm s s' r Hd Hs. specialize (Hm s). rewrite Hs in Hm. simpl in Hm. subst.
  by apply moves_refl.
Qed.

Lemma respects_bind {E A B : Type} (m : M SledStore E A) (k : A → M SledStore E B) :
  respects m → (∀ a, respects (k a)) → respects (bind m k).
Proof.
  intros Hm Hk s s' r Hd. unfold bind. destruct (m s) as [s1 [a|e]] eqn:H1; intros Hs.
  - assert (moves s s1) as Hm1 by (by eapply Hm). eapply moves_trans; [done|].
    eapply Hk; [apply Hm1|done].
  - simplify_eq. by eapply Hm.
Qed.

(** The continuation of a read of the committed state, of a check or of a pure
    computation may use its result. *)
Lemma respects_gets {E A B : Type} (f : SledStore → A) (k : A → M SledStore E B) :
  (∀ s, db s = d → respects (k (f s))) → respects (bind (gets f) k).
Proof. intros Hk s s' r Hd Hs. eapply (Hk s Hd); [done|exact Hs]. Qed.

Lemma respects_guard {E B : Type} (c : bool) (e : E) (k : unit → M SledStore E B) :
  (c = true → respects (k tt)) → respects (bind (guard c e) k).
Proof.
  intros Hk s s' r Hd. destruct c; [by apply Hk|]. intros [= <- <-]. by apply moves_refl.
Qed.

Lemma respects_lift {E A B : Type} (x : result A E) (k : A → M SledStore E B) :
  (∀ a, x = Ok a → respects (k a)) → respects (bind (lift x) k).
Proof.
  intros Hk s s' r Hd. destruct x as [a|e]; [by apply (Hk a)|]. intros [= <- <-].
  by apply moves_refl.
Qed.

Lemma respects_storage {A : Type} (m : M SledStore StorageError A) :
  respects m → respects (storage m).
Proof.
  intros Hm s s' r Hd. unfold storage. destruct (m s) as [s1 [a|e]] eqn:H1; intros Hs; simplify_eq;
    by eapply Hm.
Qed.

Lemma respects_with_err {E A : Type} (f : E → BlockApplyError) (m : M SledStore E A) :
  respects m → respects (with_err f m).
Proof.
  intros Hm s s' r Hd. unfold with_err. destruct (m s) as [s1 [a|e]] eqn:H1; intros Hs; simplify_eq;
    by eapply Hm.
Qed.

Lemma set_tx_moves f s :
  db s = d → tx_active s = true → (∀ b, Q b (f b)) →
  moves s (set_tx (tx_active s) (f <$> tx_batch s) s).
Proof. intros Hd Ha Hf. split_and!; try done. simpl. by destruct (tx_batch s); simpl. Qed.

Lemma respects_with_batch f : (∀ b, Q b (f b)) → respects (with_batch f).
Proof.
  intros Hf s s' r Hd. unfold with_batch, require_transaction, bind, gets, guard, modify, ret, throw.
  destruct (tx_active s) eqn:Ha; intros [= <- <-]; [|by apply moves_refl].
  by apply set_tx_moves.
Qed.

Lemma respects_with_batch_strict f : (∀ b, Q b (f b)) → respects (with_batch_strict f).
Proof.
  intros Hf s s' r Hd.
  unfold with_batch_strict, require_transaction, bind, gets, guard, modify, ret, throw.
  destruct (tx_active s) eqn:Ha; [|intros [= <- <-]; by apply moves_refl].
  case_bool_decide; intros [= <- <-]; [|by apply moves_refl].
  by apply set_tx_moves.
Qed.

Lemma respects_put_leaf `{PairHash} op leaf :
  (∀ l i x n k b, Q b (upd_merkle l i x n k b)) → respects (put_utxo_merkle_leaf op leaf).
Proof.
  intros Hq s s' r Hd.
  unfold put_utxo_merkle_leaf, require_transaction, bind, gets, guard, modify, throw, ret.
  destruct (tx_active s) eqn:Ha; [|intros [= <- _]; by apply moves_refl].
  destruct (tx_batch s) as [b|] eqn:Hb; [|intros [= <- _]; by apply moves_refl].
  destruct (negb _); [|intros [= <- _]; by apply moves_refl].
  destruct (negb _); [|intros [= <- _]; by apply moves_refl].
  destruct (update_merkle_path _ _ _ _ _) as [nodes root]. intros [= <- _].
  split_and!; try done. rewrite Hb. apply Hq.
Qed.

Lemma respects_delete_leaf `{PairHash} op :
  (∀ l i x n k b, Q b (upd_merkle l i x n k b)) → respects (delete_utxo_merkle_leaf op).
Proof.
  intros Hq s s' r Hd.
  unfold delete_utxo_merkle_leaf, require_transaction, bind, gets, guard, modify, throw, ret.
  destruct (tx_active s) eqn:Ha; [|intros [= <- _]; by apply moves_refl].
  destruct (tx_batch s) as [b|] eqn:Hb; [|intros [= <- _]; by apply moves_refl].
  destruct (match b_merkle_indexed b !! op with Some i => Some i | None => _ end);
    [|intros [= <- _]; by apply moves_refl].
  destruct (update_merkle_path _ _ _ _ _) as [nodes root]. intros [= <- _].
  split_and!; try done. rewrite Hb. apply Hq.
Qed.

End Respects.

(** A cell of the contract storage that holds a proposal or an execution record,
    and one that a transaction may write: another kind of cell, or an empty one. *)
Definition record_key (key : list Z) : Prop :=
  ∃ id, key = proposal_key id ∨ key = execution_key id.

Definition free_cell (d : Tables) (id : Z) (key : list Z) : Prop :=
  ¬ record_key key ∨ contract_storage d !! (id, key) = None.

(** ** Well-typed states and the writes of transactions *)

Definition econ_of (d : Tables) : BondingCurveEconomicState :=
  default BondingCurveEconomicState_default (cbe_economic_state d).

(** Every number of the committed state is in the range of its type, and the
    economic state of the curve is well formed. *)
Record typed (d : Tables) : Prop := {
  typed_balances : map_Forall (λ _ v, in_u 128 v) (token_balances d);
  typed_nonces : map_Forall (λ _ n, in_u 64 n) (token_nonces d);
  typed_supply : map_Forall (λ _ v, in_u 128 v) (token_supply d);
  typed_contracts : map_Forall (λ _ c, in_u 128 (total_supply c)) (token_contracts d);
  typed_utxos : map_Forall (λ _ u, in_u 128 (utxo_amount u)) (utxos d);
  typed_stakes : map_Forall (λ _ r, in_u 128 (stake_amount r)) (dao_stakes d);
  typed_econ : wf_econ (econ_of d);
}.

Lemma typed_balance d t a s : typed d → db s = d → in_u 128 (get_token_balance t a s).
Proof.
  intros Ht <-. unfold get_token_balance. destruct (token_balances (db s) !! (t, a)) as [v|] eqn:Hv;
    simpl; [by eapply (typed_balances _ Ht)|]. pose proof (umax_nonneg 128). unfold in_u. lia.
Qed.

Definition put_balance (t : TokenId) (a : Address) (v : Z) (b : PendingBatch) : PendingBatch :=
  upd_tokens (<[(t, a) := if v =? 0 then None else Some v]> (b_token_balances b))
    (b_token_nonces b) (b_token_supply b) b.

(** The nonce after the committed one, and its entry in a batch. *)
Definition succ_nonce (d : Tables) (t : TokenId) (a : Address) : Z :=
  wadd 64 (default 0 (token_nonces d !! (t, a))) 1.
Definition nonce_entry (d : Tables) (t : TokenId) (a : Address) : option Z :=
  if succ_nonce d t a =? 0 then None else Some (succ_nonce d t a).

(** What [Q] allows.  The values written are in range when [T] holds. *)
Class Writes (d : Tables) (T : Prop) (Q : PendingBatch → PendingBatch → Prop) : Prop := {
  writes_pre :: PreOrder Q;
  writes_typed : T → typed d;
  w_balance t a v b : (T → in_u 128 v) → Q b (put_balance t a v b);
  w_nonce t a b : Q b (upd_tokens (b_token_balances b)
    (<[(t, a) := nonce_entry d t a]> (b_token_nonces b)) (b_token_supply b) b);
  w_supply t v b : (T → in_u 128 v) → Q b (upd_tokens (b_token_balances b) (b_token_nonces b)
    (<[t := Some v]> (b_token_supply b)) b);
  w_econ e b : (T → ∀ n, solvent n (econ_of d) → solvent (S n) e) →
    Q b (upd_curve (Some e) (b_cbe_accounts b) (b_dao_stakes b) b);
  w_account k a b : Q b (upd_curve (b_cbe_economic_state b)
    (<[k := Some a]> (b_cbe_accounts b)) (b_dao_stakes b) b);
  w_stake k r b : (T → from_option (λ r, in_u 128 (stake_amount r)) True r) →
    Q b (upd_curve (b_cbe_economic_state b) (b_cbe_accounts b) (<[k := r]> (b_dao_stakes b)) b);
  w_contract c b : (T → in_u 128 (total_supply c)) → Q b (upd_contracts
    (<[token_id c := Some c]> (b_token_contracts b)) (b_contract_code b) (b_contract_storage b)
    (b_wallets b) b);
  w_code id c b : Q b (upd_contracts (b_token_contracts b) (<[id := Some c]> (b_contract_code b))
    (b_contract_storage b) (b_wallets b) b);
  w_cell id key v b : free_cell d id key → Q b (upd_contracts (b_token_contracts b)
    (b_contract_code b) (<[(id, key) := Some v]> (b_contract_storage b)) (b_wallets b) b);
  w_wallet id w b : Q b (upd_contracts (b_token_contracts b) (b_contract_code b)
    (b_contract_storage b) (<[id := Some w]> (b_wallets b)) b);
}.

Class UtxoWrites (T : Prop) (Q : PendingBatch → PendingBatch → Prop) : Prop := {
  w_utxo op u b : (T → from_option (λ u, in_u 128 (utxo_amount u)) True u) →
    Q b (upd_utxos <[op := u]> b);
  w_merkle l i x n k b : Q b (upd_merkle l i x n k b);
}.

(** [frame] breaks a program down with the rules above. *)
Create HintDb frame.
#[export] Hint Extern 1 (respects _ _ (ret _)) => by apply respects_pure; [apply _|] : frame.
#[export] Hint Extern 1 (respects _ _ (throw _)) => by apply respects_pure; [apply _|] : frame.
#[export] Hint Extern 1 (respects _ _ (gets _)) => by apply respects_pure; [apply _|] : frame.
#[export] Hint Extern 1 (respects _ _ (lift _)) => by apply respects_pure; [apply _|] : frame.
#[export] Hint Extern 1 (respects _ _ (guard ?b _)) => by apply respects_pure; [apply _|destruct b] : frame.
Ltac frame_step :=
  lazymatch goal with
  | |- respects _ _ (bind (gets _) _) => apply respects_gets; intros ? ?
  | |- respects _ _ (bind (guard _ _) _) => apply respects_guard; [apply _|]; intros ?
  | |- respects _ _ (bind (lift _) _) => apply respects_lift; [apply _|]; intros ? ?
  | |- respects _ _ (bind _ _) => apply respects_bind; [apply _| |intros ?]
  | |- respects _ _ (storage _) => apply respects_storage
  | |- respects _ _ (if ?b then _ else _) => destruct b eqn:?
  | |- respects _ _ (match ?x with _ => _ end) => destruct x eqn:?
  | |- respects _ _ (let '(_, _) := ?x in _) => destruct x eqn:?
  | |- respects _ _ _ => progress (eauto with frame)
  end; cbv beta zeta.
Ltac frame := repeat frame_step.

Section Primitives.
Context {d : Tables} {T : Prop} {Q : PendingBatch → PendingBatch → Prop} `{HW : !Writes d T Q}.

Lemma balance_typed t a s : db s = d → T → in_u 128 (get_token_balance t a s).
Proof. intros Hd HT. eapply typed_balance; [by apply HW|done]. Qed.

Lemma set_token_balance_respects t a v :
  (T → in_u 128 v) → respects d Q (set_token_balance t a v).
Proof. intros Hv. apply respects_with_batch; [apply HW|]. intros b. by apply (w_balance (d:=d) t a v). Qed.

Lemma increment_nonce_respects t a : respects d Q (increment_token_nonce t a).
Proof.
  unfold increment_token_nonce, store_increment_token_nonce. apply respects_storage.
  apply respects_gets. intros s Hd. cbv zeta. apply respects_bind; [apply HW| |].
  - apply respects_with_batch; [apply HW|]. intros b. unfold get_token_nonce. rewrite Hd.
    apply (w_nonce t a b).
  - intros. apply respects_pure; [apply HW|done].
Qed.

Lemma debit_token_respects t a amount : respects d Q (debit_token t a amount).
Proof.
  unfold debit_token. frame. apply set_token_balance_respects. intros _.
  apply as_u_range. lia.
Qed.

Lemma credit_token_respects t a amount :
  (T → 0 <= amount) → respects d Q (credit_token t a amount).
Proof.
  intros Ha. unfold credit_token. frame. apply set_token_balance_respects. intros HT.
  match goal with H : ok_or _ _ = Ok _ |- _ => apply ok_or_ok in H; int_inv end.
  match goal with H : db ?s = d |- _ => pose proof (balance_typed t a s H HT) end.
  unfold in_u in *. specialize (Ha HT). lia.
Qed.

Lemma put_supply_respects t v : (T → in_u 128 v) → respects d Q (put_token_supply t v).
Proof. intros. apply respects_with_batch; [apply HW|]. intros b. by apply (w_supply (d:=d) t v b). Qed.

Lemma put_econ_respects e :
  (T → ∀ n, solvent n (econ_of d) → solvent (S n) e) → respects d Q (put_cbe_economic_state e).
Proof. intros. apply respects_with_batch; [apply HW|]. intros b. by apply (w_econ (d:=d) e b). Qed.

Lemma put_account_respects k a : respects d Q (put_cbe_account_state k a).
Proof. apply respects_with_batch; [apply HW|]. intros b. apply (w_account (d:=d) k a b). Qed.

Lemma put_stake_respects r : (T → in_u 128 (stake_amount r)) → respects d Q (put_dao_stake r).
Proof.
  intros. apply respects_with_batch_strict; [apply HW|]. intros b.
  by apply (w_stake (d:=d) _ (Some r) b).
Qed.

Lemma delete_stake_respects dao stk : respects d Q (delete_dao_stake dao stk).
Proof.
  apply respects_with_batch_strict; [apply HW|]. intros b. by apply (w_stake (d:=d) _ None b).
Qed.

Lemma put_contract_respects c : (T → in_u 128 (total_supply c)) → respects d Q (put_token_contract c).
Proof. intros. apply respects_with_batch; [apply HW|]. intros b. by apply (w_contract (d:=d) c b). Qed.

Lemma put_code_respects id c : respects d Q (put_contract_code id c).
Proof. apply respects_with_batch; [apply HW|]. intros b. apply (w_code (d:=d) id c b). Qed.

Lemma put_wallet_respects id w : respects d Q (put_wallet_projection id w).
Proof. apply respects_with_batch; [apply HW|]. intros b. apply (w_wallet (d:=d) id w b). Qed.

Lemma put_cell_respects id key v : free_cell d id key → respects d Q (put_cell id key v).
Proof.
  intros. apply respects_storage, respects_with_batch; [apply HW|]. intros b.
  by apply (w_cell (d:=d) id key v b).
Qed.

Lemma encode_respects {A : Type} `{Bincode A} (a : A) : respects d Q (encode a).
Proof. by apply respects_pure; [apply HW|]. Qed.

End Primitives.

#[export] Hint Resolve debit_token_respects credit_token_respects put_account_respects
  delete_stake_respects put_code_respects put_wallet_respects increment_nonce_respects
  encode_respects put_cell_respects put_supply_respects : frame.

Lemma wsub_range w a b : 0 <= w → in_u w (wsub w a b).
Proof. apply as_u_range. Qed.
Lemma wadd_range w a b : 0 <= w → in_u w (wadd w a b).
Proof. apply as_u_range. Qed.
Lemma wmul_range w a b : 0 <= w → in_u w (wmul w a b).
Proof. apply as_u_range. Qed.
Lemma saturating_sub_nonneg a b : 0 <= saturating_sub a b.
Proof. unfold saturating_sub. lia. Qed.
#[export] Hint Resolve saturating_sub_nonneg : frame.

Section Handlers.
Context {d : Tables} {T : Prop} {Q : PendingBatch → PendingBatch → Prop} `{HW : !Writes d T Q}.
Context `{HC : ChainParams}.

Lemma supply_typed t s v : db s = d → T → get_token_supply t s = Some v → in_u 128 v.
Proof. intros Hd HT Hs. unfold get_token_supply in Hs. rewrite Hd in Hs. by eapply (typed_supply _ (writes_typed HT)). Qed.

Lemma transfer_token_respects t from to amount :
  (T → 0 <= amount) → respects d Q (transfer_token t from to amount).
Proof.
  intros Ha. unfold transfer_token. frame. apply put_supply_respects. intros HT.
  int_inv. eapply supply_typed in Heqo as [? ?]; [|done|done].
  unfold in_u, saturating_sub. lia.
Qed.

Lemma apply_token_transfer_respects t from to amount bps dest :
  (T → 0 <= amount) → respects d Q (apply_token_transfer t from to amount bps dest).
Proof.
  intros Ha. unfold apply_token_transfer. frame; apply credit_token_respects; intros _;
    int_inv; try lia.
Qed.

Lemma sync_respects recipient amount :
  (T → 0 <= amount) → respects d Q (sync_canonical_sov_contract_after_mint recipient amount).
Proof.
  intros Ha. unfold sync_canonical_sov_contract_after_mint. frame;
    [apply put_supply_respects|apply put_contract_respects]; intros HT; cbn;
    match goal with H : ok_or _ _ = Ok _ |- _ => apply ok_or_ok in H; int_inv end;
    pose proof (Ha HT); (split; [|done]).
  all: apply Z.add_nonneg_nonneg; [|done].
  all: destruct (get_token_supply sov_token_id _) eqn:Hs; cbn;
    [by eapply supply_typed in Hs as [? ?]|].
  all: destruct (get_token_contract sov_token_id _) eqn:Hc; cbn; [|done].
  all: match goal with H : db ?s = d, Hc : get_token_contract _ ?s = _ |- _ =>
         unfold get_token_contract in Hc; rewrite H in Hc end.
  all: by eapply (typed_contracts _ (writes_typed HT)).
Qed.

Lemma created_token_supply p c t : new_created_token p c = Ok t → in_u 128 (total_supply t).
Proof.
  unfold new_created_token. destruct (split_initial_supply p) as [ca ta].
  set (t1 := with_issue _ _ _ _ _). destruct (mint c ca t1) as [t2 [u|]]; [|done].
  destruct (mint _ ta t2) as [t3 [[]|]] eqn:Hm; [|done]. intros [= <-].
  unfold mint, issue in Hm. monad_inv. by apply wadd_range.
Qed.

Lemma split_nonneg p : 0 <= (split_initial_supply p).1 ∧ 0 <= (split_initial_supply p).2.
Proof.
  unfold split_initial_supply. cbn. split; [apply saturating_sub_nonneg|].
  apply Z.div_pos; [|lia]. by apply wmul_range.
Qed.

Lemma apply_buy_respects mp a sender acc n :
  (T → 0 <= a) → respects d Q (apply_buy_cbe mp a sender (econ_of d) acc n).
Proof.
  intros Ha. unfold apply_buy_cbe. frame_step. destruct a0 as [e' ds].
  assert (T → 0 <= ds) as Hds.
  { intros HT. edestruct buy_economics_ok as [? _];
      [apply (typed_econ _ (writes_typed HT))|by apply Ha|done|lia]. }
  frame; try apply put_econ_respects; try (intros HT k Hk; eapply buy_solvent; by auto).
  - apply credit_token_respects. intros _. int_inv. lia.
  - intros HT k Hk. destruct (buy_solvent k mp a (econ_of d) e' ds) as [_ Hp]; try by auto.
    unfold persist_buy in Hp. by rewrite Heqb in Hp.
Qed.

Lemma apply_sell_respects mp a sender acc n :
  (T → 0 <= a) → respects d Q (apply_sell_cbe mp a sender (econ_of d) acc n).
Proof.
  intros Ha. unfold apply_sell_cbe. frame_step. destruct a0 as [e' out].
  assert (T → 0 <= out) as Hout.
  { intros HT. edestruct sell_economics_ok as (_ & _ & ? & _);
      [apply (typed_econ _ (writes_typed HT))|by apply Ha|done|lia]. }
  frame. apply put_econ_respects. intros HT k Hk. apply (solvent_mono k); [lia|].
  eapply sell_solvent; by auto.
Qed.

Lemma decode_amount_nonneg p tx :
  Forall is_byte p → decode_canonical_bonding_curve_tx p = Ok tx → 0 <= curve_amount tx.
Proof.
  intros Hp Hd.
  assert (0 <= from_be_bytes (slice 40 56 p)).
  { eapply (be_bytes_from_be), slice_is_byte, Hp. }
  unfold decode_canonical_bonding_curve_tx, decode_bonding_curve_buy, decode_bonding_curve_sell in Hd.
  repeat case_match; try done; simplify_eq; done.
Qed.

Lemma curve_tx_respects p :
  (T → Forall is_byte p) → respects d Q (apply_canonical_bonding_curve_tx p).
Proof.
  intros Hp. unfold apply_canonical_bonding_curve_tx. frame_step.
  assert (T → 0 <= curve_amount a) as Ha.
  { intros HT. apply (decode_amount_nonneg p); [by apply Hp|].
    destruct (decode_canonical_bonding_curve_tx p); by simplify_eq/=. }
  destruct a as [tx|tx]; frame; unfold get_cbe_economic_state in *;
    match goal with H : db ?s = d |- context [cbe_economic_state (db ?s)] => rewrite H end;
    [by apply apply_buy_respects|by apply apply_sell_respects].
Qed.

Lemma payroll_respects data h :
  (T → from_option (λ x, in_u 128 (payroll_amount_cbe x)) True data) →
  respects d Q (apply_payroll_mint data h).
Proof.
  intros Hx. destruct data as [x|]; [|by apply respects_pure; [apply _|]].
  unfold apply_payroll_mint. frame_step. match goal with H : ok_or (Some _) _ = Ok _ |- _ => injection H as <- end.
  do 2 frame_step. destruct a as [e' tc]. unfold get_cbe_economic_state in *.
  match goal with H : db _ = d |- _ => rewrite H in * end. fold (econ_of d) in *.
  assert (T → 0 <= tc) as Htc.
  { intros HT. destruct (payroll_economics_ok x h (econ_of d) e' tc) as (dust & _ & ? & -> & _);
      [apply (typed_econ _ (writes_typed HT))|by apply Hx|done|].
    apply Z.div_pos; [|lia]. apply Z.mul_nonneg_nonneg; [lia|]. apply Z.div_pos; lia. }
  frame.
  - apply put_econ_respects. intros HT k Hk. apply (solvent_mono k); [lia|].
    eapply payroll_solvent; [done|by apply Hx|done].
  - apply credit_token_respects. intros HT. by destruct (Hx HT).
Qed.

Lemma stake_respects data signer h :
  (T → from_option (λ x, in_u 128 (stake_data_amount x)) True data) →
  respects d Q (apply_dao_stake data signer h).
Proof.
  intros Hx. destruct data as [x|]; [|by apply respects_pure; [apply _|]].
  unfold apply_dao_stake. frame_step. match goal with H : ok_or (Some _) _ = Ok _ |- _ => injection H as <- end.
  assert (T → 0 <= stake_data_amount x) as Ha by (intros HT; by destruct (Hx HT)).
  frame; [by apply transfer_token_respects|by apply put_stake_respects].
Qed.

Lemma unstake_respects data signer h : respects d Q (apply_dao_unstake data signer h).
Proof.
  unfold apply_dao_unstake. frame. apply transfer_token_respects. intros HT.
  match goal with H : ok_or (get_dao_stake _ _ ?s) _ = Ok ?r, Hd : db ?s = d |- _ =>
    apply ok_or_ok in H; unfold get_dao_stake in H; rewrite Hd in H;
    by apply (typed_stakes _ (writes_typed HT)) in H as [? ?] end.
Qed.

Lemma allocation_respects data :
  (T → from_option (λ x, 0 <= allocation_amount x) True data) →
  respects d Q (apply_treasury_allocation data).
Proof.
  intros Hx. unfold apply_treasury_allocation. frame. apply transfer_token_respects. intros HT.
  specialize (Hx HT). by destruct data; simplify_eq/=.
Qed.

End Handlers.

#[export] Hint Resolve transfer_token_respects apply_token_transfer_respects sync_respects
  curve_tx_respects payroll_respects stake_respects unstake_respects allocation_respects : frame.

Section UtxoHandlers.
Context {d : Tables} {T : Prop} {Q : PendingBatch → PendingBatch → Prop}.
Context `{HW : !Writes d T Q, HU : !UtxoWrites T Q, HP : PairHash}.

Lemma spend_utxo_respects op : respects d Q (spend_utxo op).
Proof.
  unfold spend_utxo. frame.
  - apply respects_with_batch; [apply _|]. intros b. by apply (w_utxo (T:=T) op None).
  - apply respects_delete_leaf; [apply _|]. apply w_merkle.
Qed.

Lemma create_utxo_respects op u : (T → in_u 128 (utxo_amount u)) → respects d Q (create_utxo op u).
Proof.
  intros Hu. unfold create_utxo. frame.
  - apply respects_with_batch; [apply _|]. intros b. by apply (w_utxo (T:=T) op (Some u)).
  - apply respects_put_leaf; [apply _|]. apply w_merkle.
Qed.

Lemma spend_inputs_respects ops total : respects d Q (spend_inputs ops total).
Proof.
  revert total. induction ops; intros total; cbn [spend_inputs]; frame; eauto using spend_utxo_respects.
Qed.

Lemma create_outputs_respects hash h per rem index outs total :
  (T → in_u 128 per ∧ 0 <= rem) → respects d Q (create_outputs hash h per rem index outs total).
Proof.
  intros Hp. revert index total. induction outs as [|o outs IH]; intros index total;
    cbn [create_outputs]; [frame|].
  destruct (index =? 0)%nat.
  - frame. apply create_utxo_respects. intros HT. cbn.
    match goal with H : ok_or (checked_add _ per rem) _ = Ok _ |- _ => apply ok_or_ok in H; int_inv end.
    destruct (Hp HT) as [[? ?] ?]. unfold in_u. lia.
  - change (bind (ret per)) with (λ k : Z → M SledStore TxApplyError Z, k per). cbv beta.
    frame. apply create_utxo_respects. intros HT. by destruct (Hp HT).
Qed.

Lemma share_range a n : in_u 128 a → 0 < n → in_u 128 (a / n) ∧ 0 <= a mod n.
Proof.
  intros [? ?] Hn. pose proof (Z.div_pos a n). pose proof (Z.mod_pos_bound a n).
  pose proof (Z.div_le_upper_bound a n a). unfold in_u. split; [split|]; nia.
Qed.

Lemma native_transfer_respects ins outs tx_fee hash h :
  respects d Q (apply_native_transfer ins outs tx_fee hash h).
Proof.
  unfold apply_native_transfer. frame; [apply spend_inputs_respects|].
  apply create_outputs_respects. intros _. apply share_range; [by apply wsub_range|].
  destruct outs; [done|]. cbn. lia.
Qed.

Lemma coinbase_loop_respects hash h fees sink per rem index k outs total :
  (T → in_u 128 per ∧ in_u 128 fees) →
  respects d Q (coinbase_loop hash h fees sink per rem index k outs total).
Proof.
  intros Hp. revert index k total. induction outs as [|o outs IH]; intros index k total;
    cbn [coinbase_loop]; [frame|]. frame.
  apply create_utxo_respects. intros HT. destruct (Hp HT). cbn.
  repeat case_match; [done|by apply wadd_range|done].
Qed.

Lemma coinbase_respects ins outs hash h reward fees sink :
  (T → in_u 128 reward ∧ in_u 128 fees) →
  respects d Q (apply_coinbase ins outs hash h reward fees sink).
Proof.
  intros Hp. unfold apply_coinbase. do 5 frame_step. frame_step; [|frame].
  apply coinbase_loop_respects. intros HT. destruct (Hp HT) as [Hr ?]. split; [|done].
  set (n := if 0 <? fees then _ else _). destruct (Z.ltb_spec 0 n).
  - by apply share_range.
  - unfold in_u. pose proof (umax_nonneg 128). lia.
Qed.

End UtxoHandlers.

(** ** Every transaction *)

Lemma record_key_shape key :
  record_key key → head key = Some 101 ∨ (head key = Some 112 ∧ key !! 8%nat = Some 58).
Proof. intros [id [-> | ->]]; [right|left]; done. Qed.

Ltac other_key :=
  left; intros [?|[? ?]]%record_key_shape; done.

(** The values a transaction carries are in the ranges of their types. *)
Definition wf_tx (tx : Transaction) : Prop :=
  in_u 64 (fee tx) ∧ Forall is_byte (memo tx) ∧
  match payload tx with
  | TokenTransfer x => in_u 128 (tt_amount x)
  | TokenMint x => in_u 128 (tm_amount x)
  | Wallet x => in_u 128 (initial_balance x)
  | TreasuryAllocation x => 0 <= allocation_amount x
  | ProcessPayroll x => in_u 128 (payroll_amount_cbe x)
  | DaoStake x => in_u 128 (stake_data_amount x)
  | _ => True
  end.

Definition touches_utxos (tx : Transaction) : bool :=
  match transaction_type tx with
  | TransactionType.Transfer | TransactionType.Coinbase => true
  | _ => false
  end.

Section Dispatch.
Context {d : Tables} {T : Prop} {Q : PendingBatch → PendingBatch → Prop} `{HW : !Writes d T Q}.
Context `{HP : PairHash, HC : ChainParams, HE : ExecutorEnv} (ex : BlockExecutor).

Lemma dao_proposal_respects tx : respects d Q (apply_dao_proposal tx).
Proof.
  unfold apply_dao_proposal. frame; apply put_cell_respects; [|other_key].
  right. match goal with H : db ?s = d, Hn : negb _ = true |- _ =>
    apply negb_true_iff, bool_decide_eq_false, eq_None_not_Some in Hn;
    unfold get_contract_storage in Hn; by rewrite H in Hn end.
Qed.

Lemma dao_vote_respects tx h : respects d Q (apply_dao_vote tx h).
Proof. unfold apply_dao_vote. frame. apply put_cell_respects. other_key. Qed.

Lemma dao_execution_respects tx : respects d Q (apply_dao_execution tx).
Proof.
  unfold apply_dao_execution. frame; apply put_cell_respects; [|other_key].
  right. match goal with H : db ?s = d, Hn : negb (bool_decide (is_Some (get_contract_storage _ _ ?s))) = true |- _ =>
    apply negb_true_iff, bool_decide_eq_false, eq_None_not_Some in Hn;
    unfold get_contract_storage in Hn; by rewrite H in Hn end.
Qed.

Lemma deployment_respects tx hash : respects d Q (apply_contract_deployment tx hash).
Proof. unfold apply_contract_deployment. frame; apply put_cell_respects; other_key. Qed.

Lemma execution_respects tx hash h : respects d Q (apply_contract_execution tx hash h).
Proof. unfold apply_contract_execution. frame; apply put_cell_respects; other_key. Qed.

Lemma token_transfer_respects tx : (T → wf_tx tx) → respects d Q (apply_token_transfer_tx tx).
Proof.
  intros Hwf. unfold apply_token_transfer_tx, token_transfer_data. unfold wf_tx in Hwf.
  destruct (payload tx); try (by apply respects_pure; [apply _|]).
  frame; apply apply_token_transfer_respects; intros HT; simplify_eq/=;
    by destruct (Hwf HT) as (_ & _ & ? & ?).
Qed.

Lemma token_mint_respects tx : (T → wf_tx tx) → respects d Q (apply_token_mint_tx tx).
Proof.
  intros Hwf. unfold apply_token_mint_tx, token_mint_data, apply_token_mint. unfold wf_tx in Hwf.
  destruct (payload tx); try (by apply respects_pure; [apply _|]).
  frame; [apply credit_token_respects|apply sync_respects]; intros HT; simplify_eq/=;
    by destruct (Hwf HT) as (_ & _ & ? & ?).
Qed.

Lemma wallet_registration_respects tx h : respects d Q (apply_wallet_registration tx h).
Proof.
  unfold apply_wallet_registration, apply_token_mint.
  frame; [apply credit_token_respects|apply sync_respects]; intros _; int_inv; lia.
Qed.

Lemma wallet_update_respects tx h : respects d Q (apply_wallet_update tx h).
Proof. unfold apply_wallet_update. frame. Qed.

Lemma token_creation_respects tx : respects d Q (apply_token_creation tx).
Proof.
  unfold apply_token_creation, apply_token_mint. frame.
  - apply put_contract_respects. intros _. by eapply created_token_supply.
  - apply credit_token_respects. intros _. pose proof (split_nonneg a) as Hs.
    rewrite Heqp in Hs. apply Hs.
  - apply credit_token_respects. intros _. pose proof (split_nonneg a) as Hs.
    rewrite Heqp in Hs. apply Hs.
Qed.

Lemma bonding_curve_respects tx is_buy :
  (T → wf_tx tx) → respects d Q (apply_bonding_curve tx is_buy).
Proof.
  intros Hwf. unfold apply_bonding_curve, apply_canonical_bonding_curve_envelope.
  frame. apply curve_tx_respects. intros HT. destruct (Hwf HT) as (_ & Hm & _).
  unfold extract_bonding_curve_envelope in *. repeat case_match; by simplify_eq.
Qed.

Lemma apply_transaction_respects tx h :
  (T → wf_tx tx) → (T → in_u 128 (block_reward ex)) →
  (touches_utxos tx = true → UtxoWrites T Q) → respects d Q (apply_transaction ex tx h).
Proof.
  intros Hwf Hr HU. unfold apply_transaction, touches_utxos in *.
  destruct (transaction_type tx); try specialize (HU eq_refl);
    try (frame; eauto using dao_proposal_respects, dao_vote_respects, dao_execution_respects,
      deployment_respects, execution_respects, token_transfer_respects, token_mint_respects,
      wallet_registration_respects, wallet_update_respects, token_creation_respects,
      bonding_curve_respects, native_transfer_respects; fail); frame.
  - apply coinbase_respects. intros HT. split; [by apply Hr|]. done.
  - apply allocation_respects. intros HT. apply Hwf in HT as (_ & _ & ?).
    unfold treasury_allocation_data. by destruct (payload tx).
  - apply payroll_respects. intros HT. apply Hwf in HT as (_ & _ & ?).
    unfold process_payroll_data. by destruct (payload tx).
  - apply stake_respects. intros HT. apply Hwf in HT as (_ & _ & ?).
    unfold dao_stake_data. by destruct (payload tx).
Qed.

Lemma validate_tx_respects tx :
  respects d Q (validate_tx_stateless ex tx) ∧ respects d Q (validate_tx_stateful tx).
Proof. split; [unfold validate_tx_stateless|unfold validate_tx_stateful]; frame. Qed.

Definition admits (tx : Transaction) : Prop :=
  (T → wf_tx tx) ∧ (touches_utxos tx = true → UtxoWrites T Q).

Hypothesis Hreward : T → in_u 128 (block_reward ex).

Lemma apply_one_respects tx i h t : admits tx → respects d Q (apply_one ex tx i h t).
Proof.
  intros [Hwf HU]. destruct (validate_tx_respects tx) as [V1 V2]. unfold apply_one, apply_tx.
  frame; apply respects_with_err; [done|done|].
  frame. by apply apply_transaction_respects.
Qed.

Lemma apply_txs_respects txs i h t : Forall admits txs → respects d Q (apply_txs ex txs i h t).
Proof.
  intros Hall. revert i t. induction Hall as [|tx txs Htx _ IH]; intros i t; cbn [apply_txs]; frame.
  by apply apply_one_respects.
Qed.

Lemma block_coinbase_respects cb h t :
  (T → in_u 128 (total_fees t)) → from_option admits True cb →
  respects d Q (apply_block_coinbase ex cb h t).
Proof.
  intros Hf Hcb. destruct cb as [tx|]; [|by apply respects_pure; [apply _|]].
  destruct Hcb as [Hwf HU]. destruct (validate_tx_respects tx) as [V1 _].
  unfold apply_block_coinbase, apply_coinbase_with_fees.
  frame; apply respects_with_err; [done|]. frame.
  assert (UtxoWrites T Q).
  { apply HU. unfold touches_utxos.
    match goal with H : is_coinbase tx = true |- _ => apply bool_decide_eq_true in H; by rewrite H end. }
  apply coinbase_respects. by auto.
Qed.

Lemma genesis_respects : respects d Q apply_genesis.
Proof.
  unfold apply_genesis. frame; apply respects_with_err.
  - apply put_econ_respects. intros _ n _. apply empty_solvent; [|done]. constructor; by vm_compute.
  - apply set_token_balance_respects. intros HT.
    match goal with H : db ?s = d |- _ => pose proof (balance_typed cbe_token_id fee_sink_address s H HT) end.
    unfold in_u, saturating_add in *.
    assert (0 <= GENESIS_TREASURY_ALLOCATION) by done. lia.
Qed.

End Dispatch.

(** ** The invariants, as preorders *)

(** Projections of the batch that transactions leave alone. *)
Definition same {A : Type} (f : PendingBatch → A) (b b' : PendingBatch) : Prop := f b' = f b.

#[export] Instance same_pre {A : Type} (f : PendingBatch → A) : PreOrder (same f).
Proof. split; [done|]. unfold same. intros ????? . congruence. Qed.

#[export] Instance blocks_writes d : Writes d False (same b_blocks_by_height).
Proof. by constructor; try done; apply _. Qed.
#[export] Instance blocks_utxo_writes : UtxoWrites False (same b_blocks_by_height).
Proof. by constructor. Qed.

#[export] Instance utxos_writes d : Writes d False (same b_utxos).
Proof. by constructor; try done; apply _. Qed.

(** A pending nonce is the successor of the committed one, and stays pending. *)
Definition nonces_ok (d : Tables) (b : PendingBatch) : Prop :=
  ∀ t a n, b_token_nonces b !! (t, a) = Some n → n = nonce_entry d t a.
Definition nonce_rel (d : Tables) (b b' : PendingBatch) : Prop :=
  (nonces_ok d b → nonces_ok d b') ∧
  ∀ k, is_Some (b_token_nonces b !! k) → is_Some (b_token_nonces b' !! k).

#[export] Instance nonce_rel_pre d : PreOrder (nonce_rel d).
Proof. split; [done|]. intros b1 b2 b3 [? ?] [? ?]. split; naive_solver. Qed.

#[export] Instance nonce_writes d : Writes d False (nonce_rel d).
Proof.
  constructor; try done; try apply _. intros t a b. split.
  - intros Hok t' a' n. cbn. destruct (decide ((t', a') = (t, a))) as [[= -> ->]|].
    + by rewrite lookup_insert_eq; intros [= <-].
    + rewrite lookup_insert_ne by done. apply Hok.
  - intros k. cbn. destruct (decide (k = (t, a))) as [->|]; [by rewrite lookup_insert_eq|].
    by rewrite lookup_insert_ne.
Qed.
#[export] Instance nonce_utxo_writes d : UtxoWrites False (nonce_rel d).
Proof. by constructor. Qed.

(** A committed proposal or execution record is not written again, and a pending
    one stays pending. *)
Definition records_ok (d : Tables) (b : PendingBatch) : Prop :=
  ∀ id key, record_key key → is_Some (contract_storage d !! (id, key)) →
    b_contract_storage b !! (id, key) = None.
Definition record_rel (d : Tables) (b b' : PendingBatch) : Prop :=
  (records_ok d b → records_ok d b') ∧
  ∀ k, (∃ v, b_contract_storage b !! k = Some (Some v)) →
       ∃ v, b_contract_storage b' !! k = Some (Some v).

#[export] Instance record_rel_pre d : PreOrder (record_rel d).
Proof. split; [done|]. intros b1 b2 b3 [? ?] [? ?]. split; naive_solver. Qed.

#[export] Instance record_writes d : Writes d False (record_rel d).
Proof.
  constructor; try done; try apply _. intros id key v b Hfree. split.
  - intros Hok id' key' Hrec Hsome. cbn. rewrite lookup_insert_ne; [by apply Hok|].
    intros [= -> ->]. destruct Hfree as [Hf|Hn]; [done|]. rewrite Hn in Hsome. by destruct Hsome.
  - intros k. cbn. destruct (decide (k = (id, key))) as [->|].
    + rewrite lookup_insert_eq. by eexists.
    + by rewrite lookup_insert_ne.
Qed.
#[export] Instance record_utxo_writes d : UtxoWrites False (record_rel d).
Proof. by constructor. Qed.

(** Pending values are in range, and a pending economic state is solvent after one
    more buy. *)
Definition pending_ok {K V : Type} `{Countable K} (P : V → Prop) (m : gmap K (option V)) : Prop :=
  map_Forall (λ _ v, from_option P True v) m.

Record typed_batch (n : nat) (b : PendingBatch) : Prop := {
  tb_balances : pending_ok (in_u 128) (b_token_balances b);
  tb_nonces : pending_ok (in_u 64) (b_token_nonces b);
  tb_supply : pending_ok (in_u 128) (b_token_supply b);
  tb_contracts : pending_ok (λ c, in_u 128 (total_supply c)) (b_token_contracts b);
  tb_utxos : pending_ok (λ u, in_u 128 (utxo_amount u)) (b_utxos b);
  tb_stakes : pending_ok (λ r, in_u 128 (stake_amount r)) (b_dao_stakes b);
  tb_econ : from_option (solvent n) True (b_cbe_economic_state b);
}.

Lemma pending_insert {K V : Type} `{Countable K} (P : V → Prop) (m : gmap K (option V)) k v :
  from_option P True v → pending_ok P m → pending_ok P (<[k := v]> m).
Proof. intros. by apply map_Forall_insert_2. Qed.

Lemma pending_commit {K V : Type} `{Countable K} (P : V → Prop) (m : gmap K V)
    (b : gmap K (option V)) :
  map_Forall (λ _ v, P v) m → pending_ok P b → map_Forall (λ _ v, P v) (apply_batch m b).
Proof.
  intros Hm Hb k v. rewrite apply_batch_lookup. destruct (b !! k) as [o|] eqn:Hk; [|by apply Hm].
  intros ->. by apply (Hb k _ Hk).
Qed.

Definition typed_rel (n : nat) (b b' : PendingBatch) : Prop := typed_batch n b → typed_batch n b'.

#[export] Instance typed_rel_pre n : PreOrder (typed_rel n).
Proof. split; [by intros ??|]. unfold typed_rel. intros ?????. auto. Qed.

Definition typed_at (n : nat) (d : Tables) : Prop := typed d ∧ solvent n (econ_of d).

#[export] Instance typed_writes n d : typed_at n d → Writes d (typed_at n d) (typed_rel (S n)).
Proof.
  intros HT. constructor; try apply _; try done.
  - by intros [? ?].
  - intros t a v b Hv []. constructor; try done. apply pending_insert; [|done].
    destruct (v =? 0); [done|]. by apply Hv.
  - intros t a b []. constructor; try done. apply pending_insert; [|done].
    unfold nonce_entry. case_match; [done|]. by apply wadd_range.
  - intros t v b Hv []. constructor; try done. apply pending_insert; [|done]. by apply Hv.
  - intros e b He []. constructor; try done. cbn. apply He; [done|apply HT].
  - intros k a b []. by constructor.
  - intros k r b Hr []. constructor; try done. apply pending_insert; [|done]. by apply Hr.
  - intros c b Hc []. constructor; try done. apply pending_insert; [|done]. by apply Hc.
  - intros id c b []. by constructor.
  - intros id key v b _ []. by constructor.
  - intros id w b []. by constructor.
Qed.

#[export] Instance typed_utxo_writes n d : typed_at n d → UtxoWrites (typed_at n d) (typed_rel (S n)).
Proof.
  intros HT. constructor.
  - intros op u b Hu []. constructor; try done. apply pending_insert; [|done]. by apply Hu.
  - intros l i x k m b []. by constructor.
Qed.
