(* ===== verification/Blocks.v ===== *)
(** * Blocks and chains of blocks

    Theorems about [BlockExecutor::apply_block] (model in [Executor.v]) as a
    whole, for every transaction type the executor dispatches on: a block is
    applied as a whole or not at all; accepted blocks form a chain; committed
    states are well typed and the curve solvent; no token transfer is executed in
    two blocks; proposals are final; some transaction types are always
    refused. *)
From stdpp Require Import base tactics numbers list option gmap fin_maps strings.
From S2P Require Import Prelude Fees Curve CurveState Merkle TokenCore Store Codec Ledger.
From S2P Require Import CurveExec Memo Transaction Executor Frame.

(** ** An accepted block *)

Definition closed (s : SledStore) : Prop := tx_active s = false ∧ tx_batch s = None.

Section Accepted.
Context `{HP : PairHash, HC : ChainParams, HE : ExecutorEnv} (ex : BlockExecutor).

Lemma with_err_ok {E A : Type} (f : E → BlockApplyError) (m : M SledStore E A) s s' a :
  with_err f m s = (s', Ok a) ↔ m s = (s', Ok a).
Proof. unfold with_err. destruct (m s) as [? [?|?]]; naive_solver. Qed.

Lemma stateless_pure tx s : (validate_tx_stateless ex tx s).1 = s.
Proof.
  unfold validate_tx_stateless, bind, lift, gets. destruct (validate_structure tx); [|done].
  by destruct (validate_proofs (inputs tx) s).
Qed.

Lemma stateful_pure tx s : (validate_tx_stateful tx s).1 = s.
Proof.
  unfold validate_tx_stateful, bind, lift, gets, guard, ret, throw. by repeat case_match; simplify_eq/=.
Qed.

Lemma apply_tx_not_coinbase tx h s s' o :
  apply_tx ex tx h s = (s', Ok o) → is_coinbase tx = false ∧ apply_transaction ex tx h s = (s', Ok o).
Proof.
  unfold apply_tx. intros (s1 & [] & [-> Hg]%guard_ok & Ha)%bind_ok. by int_inv.
Qed.

Lemma apply_one_ok tx i h t s s' t' :
  apply_one ex tx i h t s = (s', Ok t') →
  ∃ acc o, add_tx (limits ex) (calculate_tx_resources tx) (accumulator t) = Ok acc ∧
    validate_tx_stateless ex tx s = (s, Ok tt) ∧ validate_tx_stateful tx s = (s, Ok tt) ∧
    is_coinbase tx = false ∧ apply_transaction ex tx h s = (s', Ok o) ∧
    t' = {| accumulator := acc; summary := accumulate o (summary t);
            total_fees := outcome_fees o (total_fees t) |}.
Proof.
  unfold apply_one. intros Ht. apply bind_ok in Ht as (s1 & acc & [-> Hacc]%lift_ok & Ht).
  apply bind_ok in Ht as (s1 & [] & H1%with_err_ok & Ht).
  pose proof (stateless_pure tx s) as Hp. rewrite H1 in Hp. simpl in Hp. subst s1.
  apply bind_ok in Ht as (s1 & [] & H2%with_err_ok & Ht).
  pose proof (stateful_pure tx s) as Hp. rewrite H2 in Hp. simpl in Hp. subst s1.
  apply bind_ok in Ht as (s1 & o & [H3 H4]%with_err_ok%apply_tx_not_coinbase & [-> ->]%ret_ok).
  by exists acc, o.
Qed.

Lemma apply_txs_acc txs i h t s s' t' :
  apply_txs ex txs i h t s = (s', Ok t') → in_u 128 (total_fees t) →
  add_txs (limits ex) (calculate_tx_resources <$> txs) (accumulator t) = Ok (accumulator t') ∧
  in_u 128 (total_fees t').
Proof.
  revert i t s. induction txs as [|tx txs IH]; intros i t s; cbn [apply_txs].
  - by intros [-> ->]%ret_ok ?.
  - intros (s1 & t1 & (acc & o & Ha & _ & _ & _ & _ & ->)%apply_one_ok & Hs)%bind_ok Hf.
    apply IH in Hs; [|cbn; unfold outcome_fees; destruct o; try done; by apply wadd_range].
    rewrite fmap_cons. cbn [add_txs]. by rewrite Ha.
Qed.

Lemma split_coinbase_ok txs cb rest :
  split_coinbase txs = Ok (cb, rest) → txs = option_list cb ++ rest.
Proof.
  unfold split_coinbase. destruct (_ <? _)%nat; [done|]. destruct (_ =? _)%nat.
  - destruct txs as [|tx txs]; [done|]. destruct (is_coinbase tx); [|done]. by intros [= <- <-].
  - by intros [= <- <-].
Qed.

Section Txs.
Context {d : Tables} {T : Prop} {Q : PendingBatch → PendingBatch → Prop} `{HW : !Writes d T Q}.
Hypothesis Hreward : T → in_u 128 (block_reward ex).

Lemma apply_transactions_respects cb rest h :
  Forall (admits (T:=T) (Q:=Q)) (option_list cb ++ rest) →
  respects d Q (apply_transactions ex cb rest h).
Proof.
  intros [Hcb Hrest]%Forall_app. unfold apply_transactions. destruct (h =? 0).
  { frame. apply genesis_respects. }
  cbv zeta. set (start := if bool_decide _ then _ else _).
  intros s s' r Hd. unfold bind.
  pose proof (apply_txs_respects (d:=d) ex Hreward rest start h Totals_new Hrest) as Htxs.
  destruct (apply_txs ex rest start h Totals_new s) as [s1 [t|e]] eqn:Ht; intros Hs;
    specialize (Htxs _ _ _ Hd Ht); [|by simplify_eq].
  eapply moves_trans; [apply _|done|].
  eapply (block_coinbase_respects ex Hreward cb h t); [|by destruct cb; [inversion Hcb|]|apply Htxs|done].
  intros _. by apply apply_txs_acc in Ht as [_ ?].
Qed.

End Txs.

(** What an accepted block did: the state it started from, its transactions, and
    the batch [b] they left, committed with the block's hash. *)
Record accepted (block : Block) (s s' : SledStore) (o : ApplyOutcome) (b : PendingBatch) : Prop := {
  acc_height : height (header block) = get_expected_height s;
  acc_previous : 0 < height (header block) → skip_prev_hash_validation ex = false →
    get_block_hash_by_height (height (header block) - 1) s = Some (previous_hash (header block));
  acc_run : ∃ s1 s2 t cb rest, db s1 = db s ∧ in_block s1 PendingBatch_new ∧
    transactions block = option_list cb ++ rest ∧
    apply_transactions ex cb rest (height (header block)) s1 = (s2, Ok t) ∧
    tx_batch s2 = Some b ∧ db s2 = db s ∧
    o = {| out_height := height (header block); out_block_hash := block_hash (header block);
           tx_count := length (transactions block); state_changes := summary t;
           fees_collected := total_fees t |};
  acc_db : db s' = commit_tables (db s)
    (upd_blocks <[height (header block) := Some (block_hash (header block))]> b)
    (height (header block));
  acc_closed : closed s';
  acc_blocks : b_blocks_by_height b = ∅;
  acc_batch : ∃ s1 s2 t cb rest, begin_block (height (header block)) s = (s1, Ok tt) ∧
    split_coinbase (transactions block) = Ok (cb, rest) ∧
    apply_transactions ex cb rest (height (header block)) s1 = (s2, Ok t) ∧ tx_batch s2 = Some b;
}.

Lemma validate_header_pure block s : (validate_header ex block s).1 = s.
Proof.
  unfold validate_header, validate_previous_hash, bind, gets, guard, ret, throw.
  by repeat case_match; simplify_eq/=.
Qed.

Lemma validate_resources_pure block s : (validate_block_resources ex block s).1 = s.
Proof.
  unfold validate_block_resources, bind, guard, ret, throw. by repeat case_match; simplify_eq/=.
Qed.

Lemma validate_header_ok block s s' u :
  validate_header ex block s = (s', Ok u) →
  s' = s ∧ height (header block) = get_expected_height s ∧
  (0 < height (header block) → skip_prev_hash_validation ex = false →
   get_block_hash_by_height (height (header block) - 1) s = Some (previous_hash (header block))).
Proof.
  intros Hs. pose proof (validate_header_pure block s) as Hp. rewrite Hs in Hp. simpl in Hp.
  split; [done|]. unfold validate_header in Hs.
  apply bind_ok in Hs as (s1 & e & [-> ->]%gets_ok & Hs). cbv zeta in Hs.
  apply bind_ok in Hs as (s1 & [] & [-> Hh]%guard_ok & Hs). int_inv. split; [done|].
  intros Hpos Hskip. rewrite (proj2 (Z.ltb_lt _ _) Hpos), Hskip in Hs. cbn [andb negb] in Hs.
  unfold validate_previous_hash in Hs. apply bind_ok in Hs as (s1 & e & [-> ->]%gets_ok & Hs).
  destruct (get_block_hash_by_height _ s); [|done]. apply guard_ok in Hs as [_ Hs]. int_inv.
  by subst.
Qed.

Lemma untyped_admits {Q : PendingBatch → PendingBatch → Prop} `{!UtxoWrites False Q} txs :
  Forall (admits (T:=False) (Q:=Q)) txs.
Proof. by apply Forall_true. Qed.

Lemma append_block_run h hash s b :
  in_block s b → tx_height s = h →
  append_block h hash s = (set_tx true (Some (upd_blocks <[h := Some hash]> b)) s, Ok tt).
Proof.
  intros Hin Hh. unfold append_block, require_transaction, bind, gets, guard, ret.
  pose proof Hin as [Ha Hb]. rewrite Ha, Hh, Z.eqb_refl. by apply with_batch_run.
Qed.

(** The block is rolled back unless all its transactions were applied. *)
Lemma apply_block_inner_cases block s1 s' r :
  in_block s1 PendingBatch_new → tx_height s1 = height (header block) →
  with_rollback (apply_block_inner ex block) s1 = (s', r) →
  closed s' ∧
  match r with
  | Err _ => db s' = db s1
  | Ok o => ∃ s2 t cb rest b,
      split_coinbase (transactions block) = Ok (cb, rest) ∧
      transactions block = option_list cb ++ rest ∧
      apply_transactions ex cb rest (height (header block)) s1 = (s2, Ok t) ∧
      tx_batch s2 = Some b ∧ db s2 = db s1 ∧ b_blocks_by_height b = ∅ ∧
      o = {| out_height := height (header block); out_block_hash := block_hash (header block);
             tx_count := length (transactions block); state_changes := summary t;
             fees_collected := total_fees t |} ∧
      db s' = commit_tables (db s1)
        (upd_blocks <[height (header block) := Some (block_hash (header block))]> b)
        (height (header block))
  end.
Proof.
  intros Hin Hh. unfold with_rollback, apply_block_inner. cbv zeta.
  set (h := height (header block)) in *. unfold bind at 1. unfold lift at 1.
  destruct (split_coinbase (transactions block)) as [[cb rest]|e] eqn:Hsp.
  2:{ rewrite (rollback_block_run _ _ Hin). by intros [= <- <-]. }
  pose proof (split_coinbase_ok _ _ _ Hsp) as Htx. unfold bind at 1. cbn [fst snd].
  pose proof (apply_transactions_respects (d:=db s1) (T:=False) (Q:=same b_blocks_by_height)
    ltac:(done) cb rest h (untyped_admits _) s1) as Hmv.
  destruct (apply_transactions ex cb rest h s1) as [s2 [t|e]] eqn:Ht;
    specialize (Hmv _ _ eq_refl eq_refl) as (Hd2 & Ha2 & Hh2 & Hb2);
    pose proof Hin as [Ha1 Hb1]; rewrite Hb1 in Hb2; rewrite Ha1 in Ha2;
    destruct (tx_batch s2) as [b|] eqn:Hb; try done.
  2:{ rewrite (rollback_block_run _ b) by done. by intros [= <- <-]. }
  unfold bind at 1. unfold with_err at 1. rewrite (append_block_run h _ s2 b); [|done|congruence].
  unfold bind at 1. unfold with_err at 1. erewrite commit_block_run by done.
  intros [= <- <-]. split; [done|].
  exists s2, t, cb, rest, b. split_and!; try done. cbn. by rewrite Hd2, Hh2, Hh.
Qed.

Lemma apply_block_cases block s s' r :
  closed s → apply_block ex block s = (s', r) →
  closed s' ∧ match r with Ok o => ∃ b, accepted block s s' o b | Err _ => db s' = db s end.
Proof.
  intros Hcl. unfold apply_block. unfold bind at 1.
  pose proof (validate_header_pure block s) as Hp.
  destruct (validate_header ex block s) as [s1 [[]|e]] eqn:Hh; simpl in Hp; subst s1;
    [|by intros [= <- <-]].
  apply validate_header_ok in Hh as (_ & Hh & Hprev). unfold bind at 1.
  pose proof (validate_resources_pure block s) as Hp.
  destruct (validate_block_resources ex block s) as [s1 [[]|e]]; simpl in Hp; subst s1;
    [|by intros [= <- <-]].
  unfold bind at 1. unfold with_err at 1.
  destruct (begin_block (height (header block)) s) as [s1 [[]|e]] eqn:Hb.
  2:{ revert Hb. unfold begin_block, bind, gets, guard, modify, ret, throw.
      destruct Hcl as [Ha Hn]. rewrite Ha. cbn. destruct (_ =? _); [done|]. intros [= <- <-] [= <- <-].
      done. }
  pose proof Hb as (Hd1 & Hin1 & Ht1 & _)%begin_block_ok. rewrite <- Hd1.
  intros [Hcl' Hr]%apply_block_inner_cases; [|done..]. split; [done|].
  destruct r as [o|]; [|done].
  destruct Hr as (s2 & t & cb & rest & b & Hsp & Htx & Hrun & Hb2 & Hd2 & Hbl & -> & Hdb).
  exists b. constructor; try done; [|by rewrite <- Hd1|by exists s1, s2, t, cb, rest].
  exists s1, s2, t, cb, rest. split_and!; try done. congruence.
Qed.

(** The batch of an accepted block respects every invariant. *)
Lemma accepted_respects block s s' o b (T : Prop) (Q : PendingBatch → PendingBatch → Prop)
    `{!Writes (db s) T Q} :
  accepted block s s' o b → (T → in_u 128 (block_reward ex)) →
  Forall (admits (T:=T) (Q:=Q)) (transactions block) → Q PendingBatch_new b.
Proof.
  intros Hacc Hr Hall. destruct (acc_run _ _ _ _ _ Hacc)
    as (s1 & s2 & t & cb & rest & Hd1 & [Ha Hb1] & Htx & Hrun & Hb & Hd2 & _).
  rewrite Htx in Hall.
  destruct (apply_transactions_respects (d:=db s) Hr cb rest (height (header block)) Hall
    s1 s2 (Ok t) Hd1 Hrun) as (_ & _ & _ & Hq). by rewrite Hb1, Hb in Hq.
Qed.

Lemma accepted_hashes block s s' o b h :
  accepted block s s' o b →
  get_block_hash_by_height h s' =
    if decide (h = height (header block)) then Some (block_hash (header block))
    else get_block_hash_by_height h s.
Proof.
  intros Hacc. unfold get_block_hash_by_height. rewrite (acc_db _ _ _ _ _ Hacc). cbn.
  rewrite apply_batch_lookup, (acc_blocks _ _ _ _ _ Hacc).
  destruct (decide (h = height (header block))) as [->|].
  - by rewrite lookup_insert_eq.
  - by rewrite lookup_insert_ne.
Qed.


(** ** Chains of blocks *)

(** The store after a sequence of calls of [apply_block], and the blocks accepted. *)
Inductive chain (s0 : SledStore) : list Block → SledStore → Prop :=
| chain_start : chain s0 [] s0
| chain_accept bs s b s' o :
    chain s0 bs s → apply_block ex b s = (s', Ok o) → chain s0 (bs ++ [b]) s'
| chain_refuse bs s b s' e :
    chain s0 bs s → apply_block ex b s = (s', Err e) → chain s0 bs s'.

Lemma chain_closed s0 bs s : closed s0 → chain s0 bs s → closed s.
Proof.
  intros H0. induction 1 as [|bs s b s' o _ IH Hb|bs s b s' e _ IH Hb]; [done|..];
    by apply apply_block_cases in Hb as [? _].
Qed.

(** The expected height counts the accepted blocks. *)
Lemma chain_height bs s :
  chain empty_store bs s → lenZ bs < 2 ^ 64 → get_expected_height s = lenZ bs.
Proof.
  intros Hc. assert (closed empty_store) as H0 by done.
  induction Hc as [|bs s b s' o Hc IH Hb|bs s b s' e Hc IH Hb]; intros Hlen; [done| |].
  - pose proof (chain_closed _ _ _ H0 Hc) as Hcl.
    apply apply_block_cases in Hb as [_ (bt & Hacc)]; [|done].
    unfold get_expected_height at 1. rewrite (acc_db _ _ _ _ _ Hacc). cbn.
    unfold lenZ in *. rewrite length_app in *. cbn in *.
    rewrite (acc_height _ _ _ _ _ Hacc), IH by lia. rewrite wadd_small; [lia|].
    unfold umax. lia.
  - pose proof (chain_closed _ _ _ H0 Hc) as Hcl.
    apply apply_block_cases in Hb as [_ Hdb]; [|done]. rewrite <- IH by done.
    unfold get_expected_height. by rewrite Hdb.
Qed.

(** C8: accepted blocks form a chain.  From an empty store, whatever blocks are
    tried, the [i]-th accepted block has height [i], its hash is what the store
    returns for that height, and the next accepted block names it as its
    predecessor. *)
Theorem chain_linked bs s :
  chain empty_store bs s → lenZ bs <= 2 ^ 64 →
  ∀ i b, bs !! i = Some b →
    height (header b) = Z.of_nat i ∧
    get_block_hash_by_height (Z.of_nat i) s = Some (block_hash (header b)) ∧
    ∀ b', bs !! S i = Some b' → skip_prev_hash_validation ex = false →
      previous_hash (header b') = block_hash (header b).
Proof.
  intros Hc. assert (closed empty_store) as H0 by done.
  induction Hc as [|bs s b s' o Hc IH Hb|bs s b s' e Hc IH Hb]; intros Hlen i bi Hi; [done| |];
    pose proof (chain_closed _ _ _ H0 Hc) as Hcl.
  2:{ apply apply_block_cases in Hb as [_ Hdb]; [|done]. unfold get_block_hash_by_height.
      rewrite Hdb. by apply IH. }
  apply apply_block_cases in Hb as [_ (bt & Hacc)]; [|done].
  unfold lenZ in Hlen. rewrite length_app in Hlen. cbn in Hlen.
  pose proof (acc_height _ _ _ _ _ Hacc) as Hh.
  rewrite (chain_height _ _ Hc) in Hh by (unfold lenZ; lia).
  rewrite (accepted_hashes _ _ _ _ _ _ Hacc), Hh. unfold lenZ in *.
  apply lookup_app_Some in Hi as [Hi|[Hge Hi]].
  - pose proof (lookup_lt_Some _ _ _ Hi) as Hlt. destruct (IH ltac:(lia) i bi Hi) as (H1 & H2 & H3).
    rewrite decide_False by lia. split_and!; [done|done|]. intros b' Hb' Hskip.
    apply lookup_app_Some in Hb' as [Hb'|[Hge Hb']]; [by apply H3|].
    apply list_lookup_singleton_Some in Hb' as [Hl <-].
    pose proof (acc_previous _ _ _ _ _ Hacc ltac:(lia) Hskip) as Hp.
    rewrite Hh in Hp. replace (Z.of_nat (length bs) - 1) with (Z.of_nat i) in Hp by lia. congruence.
  - apply list_lookup_singleton_Some in Hi as [Hl <-].
    rewrite decide_True by lia. split_and!; [lia|done|]. intros b' Hb'.
    apply lookup_lt_Some in Hb'. rewrite length_app in Hb'. cbn in Hb'. lia.
Qed.

Lemma accepted_typed n block s s' o b :
  accepted block s s' o b → typed_at n (db s) → in_u 128 (block_reward ex) →
  Forall wf_tx (transactions block) → typed_at (S n) (db s').
Proof.
  intros Hacc Ht Hr Hwf.
  assert (typed_rel (S n) PendingBatch_new b) as Hb.
  { pose proof (typed_writes n (db s) Ht). pose proof (typed_utxo_writes n (db s) Ht).
    apply (accepted_respects block s s' o b (typed_at n (db s)) (typed_rel (S n))); [done|done|].
    eapply Forall_impl; [done|]. by intros tx Htx. }
  destruct Hb; [by constructor; try apply map_Forall_empty|]. destruct Ht as [[] Hs].
  rewrite (acc_db _ _ _ _ _ Hacc).
  set (d' := commit_tables _ _ _). assert (solvent (S n) (econ_of d')) as Hecon.
  { unfold d', econ_of. cbn. destruct (b_cbe_economic_state b); [done|].
    by apply (solvent_mono n); [lia|]. }
  split; [|done]. constructor; cbn; try (by apply pending_commit). apply Hecon.
Qed.

Lemma chain_typed_at bs s :
  in_u 128 (block_reward ex) → chain empty_store bs s →
  Forall (λ b, Forall wf_tx (transactions b)) bs → typed_at (length bs) (db s).
Proof.
  intros Hr Hc Hwf. assert (closed empty_store) as H0 by done.
  induction Hc as [|bs s b s' o Hc IH Hb|bs s b s' e Hc IH Hb].
  - assert (wf_econ BondingCurveEconomicState_default) as He by apply default_econ_wf.
    split; [|by apply empty_solvent]. constructor; try apply map_Forall_empty. done.
  - pose proof (chain_closed _ _ _ H0 Hc) as Hcl.
    apply apply_block_cases in Hb as [_ (bt & Hacc)]; [|done].
    apply Forall_app in Hwf as [Hwf [Hb _]%list.Forall_cons].
    rewrite length_app, Nat.add_comm. eapply accepted_typed; eauto.
  - pose proof (chain_closed _ _ _ H0 Hc) as Hcl.
    apply apply_block_cases in Hb as [_ Hdb]; [|done]. rewrite Hdb. by apply IH.
Qed.


(** ** One transaction of an accepted block *)

Lemma apply_txs_split pre tx post i h t s s' t' :
  apply_txs ex (pre ++ tx :: post) i h t s = (s', Ok t') →
  ∃ sa ta sb tb, apply_txs ex pre i h t s = (sa, Ok ta) ∧
    apply_one ex tx (i + length pre) h ta sa = (sb, Ok tb) ∧
    apply_txs ex post (S (i + length pre)) h tb sb = (s', Ok t').
Proof.
  revert i t s. induction pre as [|tx' pre IH]; intros i t s; cbn [apply_txs app length].
  - intros (sb & tb & Hone & Hpost)%bind_ok. exists s, t, sb, tb. by rewrite Nat.add_0_r.
  - intros (s1 & t1 & Hone & (sa & ta & sb & tb & H1 & H2 & H3)%IH)%bind_ok.
    exists sa, ta, sb, tb. split; [by erewrite bind_step|]. by rewrite Nat.add_succ_r.
Qed.

(** Its checks passed and it was applied on a state [sa] of the block; every
    invariant links the batches before and after it to the block's. *)
Definition ran (tx : Transaction) (h : Z) (s : SledStore) (b : PendingBatch)
    (sa sb : SledStore) (o : TxOutcome.t) : Prop :=
  db sa = db s ∧ open sa ∧ validate_tx_stateless ex tx sa = (sa, Ok tt) ∧
  validate_tx_stateful tx sa = (sa, Ok tt) ∧ apply_transaction ex tx h sa = (sb, Ok o) ∧
  open sb ∧
  ∀ Q : PendingBatch → PendingBatch → Prop, Writes (db s) False Q → UtxoWrites False Q →
    Q PendingBatch_new (batch_of sa) ∧ Q (batch_of sa) (batch_of sb) ∧ Q (batch_of sb) b.

Lemma moves_open d Q s s' : moves d Q s s' → open s → open s' ∧ Q (batch_of s) (batch_of s').
Proof.
  intros (_ & Ha & _ & Hb) [Ho [b0 Hb0]]. unfold open, batch_of. rewrite Ha, Hb0 in *.
  destruct (tx_batch s') as [b1|]; [|done]. split; [|done]. by split; [|eexists].
Qed.

Lemma rest_ran pre tx post i h t s1 s2 t' b :
  in_block s1 PendingBatch_new → apply_txs ex (pre ++ tx :: post) i h t s1 = (s2, Ok t') →
  (∀ Q : PendingBatch → PendingBatch → Prop, Writes (db s1) False Q → UtxoWrites False Q →
    Q (batch_of s2) b) →
  ∃ sa sb o, ran tx h s1 b sa sb o.
Proof.
  intros [Ha1 Hb1] (sa & ta & sb & tb & Hpre & Hone & Hpost)%apply_txs_split Hend.
  assert (open s1) as Ho1 by (split; [done|by eexists]).
  assert (∀ Q : PendingBatch → PendingBatch → Prop, Writes (db s1) False Q → UtxoWrites False Q →
    moves (db s1) Q s1 sa ∧ moves (db s1) Q sa sb ∧ moves (db s1) Q sb s2) as Hm.
  { intros Q HW HU. assert (moves (db s1) Q s1 sa) as M1.
    { eapply (apply_txs_respects (d:=db s1) (T:=False) ex); [done|apply untyped_admits|done|done]. }
    assert (moves (db s1) Q sa sb) as M2.
    { eapply (apply_one_respects (d:=db s1) (T:=False) ex); [done|done|apply M1|done]. }
    split_and!; [done|done|].
    eapply (apply_txs_respects (d:=db s1) (T:=False) ex); [done|apply untyped_admits|apply M2|done]. }
  pose proof (Hm (same b_blocks_by_height) _ _) as (M1 & M2 & M3).
  destruct (moves_open _ _ _ _ M1 Ho1) as [Hoa _]. destruct (moves_open _ _ _ _ M2 Hoa) as [Hob _].
  apply apply_one_ok in Hone as (acc & o & _ & V1 & V2 & _ & Happ & _).
  exists sa, sb, o. split_and!; try done; [apply M1|]. intros Q HW HU.
  destruct (Hm Q HW HU) as (N1 & N2 & N3).
  destruct (moves_open _ _ _ _ N1 Ho1) as [_ Q1]. destruct (moves_open _ _ _ _ N2 Hoa) as [_ Q2].
  destruct (moves_open _ _ _ _ N3 Hob) as [_ Q3].
  unfold batch_of at 1 in Q1. rewrite Hb1 in Q1. split_and!; [done|done|].
  etrans; [done|]. by apply Hend.
Qed.

Lemma accepted_ran block s s' o b tx :
  accepted block s s' o b → height (header block) ≠ 0 → tx ∈ transactions block →
  is_coinbase tx = false → ∃ sa sb o', ran tx (height (header block)) s b sa sb o'.
Proof.
  intros Hacc Hh Hin Hncb. destruct (acc_run _ _ _ _ _ Hacc)
    as (s1 & s2 & t & cb & rest & Hd1 & Hin1 & Htx & Hrun & Hb & Hd2 & _).
  rewrite Htx in Hin. unfold apply_transactions in Hrun.
  rewrite (proj2 (Z.eqb_neq _ _) Hh) in Hrun. cbv zeta in Hrun.
  apply bind_ok in Hrun as (s3 & t3 & Htxs & Hcb).
  assert (tx ∈ rest) as Hrest.
  { apply elem_of_app in Hin as [Hin|]; [|done]. destruct cb as [tx'|]; [|by apply not_elem_of_nil in Hin].
    apply list_elem_of_singleton in Hin as ->. unfold apply_block_coinbase, apply_coinbase_with_fees in Hcb.
    apply bind_ok in Hcb as (s4 & acc & _ & Hcb). apply bind_ok in Hcb as (s5 & [] & _ & Hcb).
    apply bind_ok in Hcb as (s6 & co & Hcb%with_err_ok & _).
    apply bind_ok in Hcb as (s7 & [] & [_ Hg]%guard_ok & _). congruence. }
  apply list_elem_of_split in Hrest as (pre & post & ->).
  assert (moves (db s1) (same b_blocks_by_height) s1 s3) as [Hd3 _].
  { eapply (apply_txs_respects (d:=db s1) (T:=False) ex); [done|apply untyped_admits|done|done]. }
  eapply rest_ran in Htxs as (sa & sb & o' & Hran); [|done|].
  - exists sa, sb, o'. unfold ran in *. by rewrite Hd1 in Hran.
  - intros Q HW HU.
    pose proof (block_coinbase_respects (d:=db s1) (T:=False) (Q:=Q) ex ltac:(done) cb
      (height (header block)) t3 ltac:(done) ltac:(by destruct cb) s3 s2 _ Hd3 Hcb) as Hm.
    destruct Hm as (_ & _ & _ & Hm). rewrite Hb in Hm. unfold batch_of.
    by destruct (tx_batch s3).
Qed.

(** ** Token nonces *)

Definition is_transfer (tx : Transaction) (x : TokenTransferData) : Prop :=
  transaction_type tx = TransactionType.TokenTransfer ∧ token_transfer_data tx = Some x.

Lemma accepted_nonce block s s' o b t a :
  accepted block s s' o b →
  get_token_nonce t a s' =
    if bool_decide (is_Some (b_token_nonces b !! (t, a))) then wadd 64 (get_token_nonce t a s) 1
    else get_token_nonce t a s.
Proof.
  intros Hacc.
  assert (nonce_rel (db s) PendingBatch_new b) as [Hok _]
    by (apply (accepted_respects _ _ _ _ _ False _ Hacc); [done|apply untyped_admits]).
  unfold get_token_nonce. rewrite (acc_db _ _ _ _ _ Hacc). cbn. rewrite apply_batch_lookup.
  case_bool_decide as Hs; [|by rewrite <- eq_None_not_Some in Hs; rewrite Hs].
  destruct Hs as [n Hn]. rewrite Hn. rewrite (Hok ltac:(by intros ???; cbn; rewrite lookup_empty) t a n Hn).
  unfold nonce_entry, succ_nonce. by destruct (Z.eqb_spec (wadd 64 (default 0 (token_nonces (db s) !! (t, a))) 1) 0) as [->|].
Qed.

Lemma ran_transfer tx x h s b sa sb o :
  is_transfer tx x → ran tx h s b sa sb o →
  let t := canonical_token (tt_token_id x) in
  tt_nonce x = get_token_nonce t (tt_from x) s ∧ is_Some (b_token_nonces b !! (t, tt_from x)).
Proof.
  intros [Hty Hx] (Hda & Hoa & _ & Hsf & Happ & Hob & HQ) t.
  unfold validate_tx_stateful in Hsf. rewrite Hty, Hx in Hsf. cbn [ok_or] in Hsf. split.
  - apply bind_ok in Hsf as (s1 & y & [-> Hy]%lift_ok & Hsf). injection Hy as <-.
    apply bind_ok in Hsf as (s1 & n & [-> ->]%gets_ok & [_ Hg]%guard_ok). int_inv.
    rewrite Hg. unfold get_token_nonce. by rewrite Hda.
  - destruct (HQ (nonce_rel (db s)) _ _) as (_ & _ & [_ Hkeep]). apply Hkeep.
    unfold apply_transaction in Happ. rewrite Hty in Happ. unfold apply_token_transfer_tx in Happ.
    rewrite Hx in Happ. cbn [ok_or] in Happ.
    apply bind_ok in Happ as (s1 & y & [-> Hy]%lift_ok & Happ). injection Hy as <-.
    apply bind_ok in Happ as (s1 & [] & [-> _]%guard_ok & Happ).
    apply bind_ok in Happ as (s1 & f & Htr & Happ).
    apply bind_ok in Happ as (s2 & n & Hinc & [-> _]%ret_ok). fold t in Hinc.
    assert (open s1) as Ho1.
    { apply (moves_open (db s) (same b_blocks_by_height) sa s1); [|done].
      eapply (apply_token_transfer_respects (T:=False)); [by intros []|exact Hda|exact Htr]. }
    unfold increment_token_nonce, store_increment_token_nonce in Hinc. apply storage_ok in Hinc.
    apply bind_ok in Hinc as (s3 & c & [-> ->]%gets_ok & Hinc). cbv zeta in Hinc.
    apply bind_ok in Hinc as (s4 & [] & Hset & [-> _]%ret_ok).
    apply with_batch_open in Hset as [_ (_ & _ & _ & ->)]; [|done]. cbn.
    by rewrite lookup_insert_eq.
Qed.

(** The nonces of a chain: bounded by its length, and past every transfer in it. *)
Lemma chain_nonces bs s :
  chain empty_store bs s → lenZ bs < 2 ^ 64 →
  (∀ t a, 0 <= get_token_nonce t a s <= lenZ bs) ∧
  ∀ i b tx x, bs !! S i = Some b → tx ∈ transactions b → is_transfer tx x →
    tt_nonce x < get_token_nonce (canonical_token (tt_token_id x)) (tt_from x) s.
Proof.
  intros Hc. assert (closed empty_store) as H0 by done.
  induction Hc as [|bs s b s' o Hc IH Hb|bs s b s' e Hc IH Hb]; intros Hlen; [done| |];
    pose proof (chain_closed _ _ _ H0 Hc) as Hcl.
  2:{ apply apply_block_cases in Hb as [_ Hdb]; [|done]. unfold get_token_nonce.
      rewrite Hdb. by apply IH. }
  apply apply_block_cases in Hb as [_ (bt & Hacc)]; [|done].
  unfold lenZ in *. rewrite length_app in *. cbn in Hlen. destruct IH as [IH1 IH2]; [lia|].
  assert (∀ t a, wadd 64 (get_token_nonce t a s) 1 = get_token_nonce t a s + 1) as Hw.
  { intros t a. specialize (IH1 t a). apply wadd_small. unfold umax. lia. }
  split.
  - intros t a. rewrite (accepted_nonce _ _ _ _ _ t a Hacc), Hw. specialize (IH1 t a). cbn.
    case_bool_decide; lia.
  - intros i bi tx x Hi Hin Htx. rewrite (accepted_nonce _ _ _ _ _ _ _ Hacc), Hw.
    apply lookup_app_Some in Hi as [Hi|[Hge Hi]].
    { specialize (IH2 i bi tx x Hi Hin Htx). case_bool_decide; lia. }
    apply list_lookup_singleton_Some in Hi as [Hl <-].
    destruct (accepted_ran _ _ _ _ _ tx Hacc) as (sa & sb & o' & Hran); [|done| |].
    { rewrite (acc_height _ _ _ _ _ Hacc), (chain_height _ _ Hc); unfold lenZ; lia. }
    { unfold is_coinbase. destruct Htx as [-> _]. done. }
    destruct (ran_transfer _ _ _ _ _ _ _ _ Htx Hran) as [-> Hsome].
    rewrite bool_decide_true by done. lia.
Qed.

Lemma accepted_transfer bs s block s' o b tx x :
  chain empty_store bs s → lenZ bs < 2 ^ 64 → bs ≠ [] → accepted block s s' o b →
  tx ∈ transactions block → is_transfer tx x →
  tt_nonce x = get_token_nonce (canonical_token (tt_token_id x)) (tt_from x) s.
Proof.
  intros Hc Hlen Hne Hacc Hin Htx.
  destruct (accepted_ran _ _ _ _ _ tx Hacc) as (sa & sb & o' & Hran); [|done| |].
  { rewrite (acc_height _ _ _ _ _ Hacc), (chain_height _ _ Hc) by done. destruct bs; [done|].
    unfold lenZ. cbn. lia. }
  { unfold is_coinbase. destruct Htx as [-> _]. done. }
  by destruct (ran_transfer _ _ _ _ _ _ _ _ Htx Hran) as [-> _].
Qed.

(** C5: no token transfer is executed in two blocks.  In every chain from an empty
    store (the genesis block apart, whose transactions are not executed), the
    transfers of one token by one sender in different accepted blocks have
    strictly increasing nonces, so the same signed transfer is never accepted
    again. *)
Theorem transfer_nonces_increase bs s i j bi bj txi txj xi xj :
  chain empty_store bs s → lenZ bs < 2 ^ 64 → (0 < i < j)%nat →
  bs !! i = Some bi → bs !! j = Some bj →
  txi ∈ transactions bi → is_transfer txi xi → txj ∈ transactions bj → is_transfer txj xj →
  canonical_token (tt_token_id xi) = canonical_token (tt_token_id xj) → tt_from xi = tt_from xj →
  tt_nonce xi < tt_nonce xj.
Proof.
  intros Hc Hlen Hij Hi Hj Hini Hti Hinj Htj Htok Hfrom. assert (closed empty_store) as H0 by done.
  induction Hc as [|bs s b s' o Hc IH Hb|bs s b s' e Hc IH Hb]; [done| |by auto].
  pose proof (chain_closed _ _ _ H0 Hc) as Hcl.
  apply apply_block_cases in Hb as [_ (bt & Hacc)]; [|done].
  unfold lenZ in Hlen. rewrite length_app in Hlen. cbn in Hlen.
  apply lookup_app_Some in Hj as [Hj|[Hge Hj]].
  - apply IH; [unfold lenZ; lia| |done]. rewrite lookup_app_l in Hi; [done|].
    apply lookup_lt_Some in Hj. lia.
  - apply list_lookup_singleton_Some in Hj as [Hl ->].
    rewrite lookup_app_l in Hi by lia. destruct i as [|i]; [lia|].
    destruct (chain_nonces _ _ Hc) as [_ Hpast]; [unfold lenZ; lia|].
    specialize (Hpast i bi txi xi Hi Hini Hti). rewrite Htok, Hfrom in Hpast.
    assert (bs ≠ []) as Hne by (by intros ->).
    assert (lenZ bs < 2 ^ 64) as Hlen' by (unfold lenZ; lia).
    by rewrite (accepted_transfer _ _ _ _ _ _ _ _ Hc Hlen' Hne Hacc Hinj Htj).
Qed.

(** ** Proposals *)

Definition dao_cell (key : list Z) (s : SledStore) : option (list Z) :=
  get_contract_storage dao_state_contract_id key s.

Lemma accepted_record block s s' o b key v :
  accepted block s s' o b → record_key key → dao_cell key s = Some v → dao_cell key s' = Some v.
Proof.
  intros Hacc Hrec Hv.
  assert (record_rel (db s) PendingBatch_new b) as [Hok _]
    by (apply (accepted_respects _ _ _ _ _ False _ Hacc); [done|apply untyped_admits]).
  unfold dao_cell, get_contract_storage in *. rewrite (acc_db _ _ _ _ _ Hacc). cbn.
  rewrite apply_batch_lookup, Hok; [done|by intros ????; cbn|done|by rewrite Hv].
Qed.

Lemma chain_record s0 bs s key v :
  closed s0 → chain s0 bs s → record_key key → dao_cell key s0 = Some v → dao_cell key s = Some v.
Proof.
  intros H0 Hc Hrec Hv. induction Hc as [|bs s b s' o Hc IH Hb|bs s b s' e Hc IH Hb]; [done| |];
    pose proof (chain_closed _ _ _ H0 Hc) as Hcl.
  - apply apply_block_cases in Hb as [_ (bt & Hacc)]; [|done]. by eapply accepted_record.
  - apply apply_block_cases in Hb as [_ Hdb]; [|done].
    unfold dao_cell, get_contract_storage in *. by rewrite Hdb.
Qed.

Definition is_execution (tx : Transaction) (id : Z) : Prop :=
  transaction_type tx = TransactionType.DaoExecution ∧
  ∃ x, dao_execution_data tx = Some x ∧ exec_proposal_id x = id.
Definition is_proposal (tx : Transaction) (id : Z) : Prop :=
  transaction_type tx = TransactionType.DaoProposal ∧
  ∃ x, dao_proposal_data tx = Some x ∧ proposal_id x = id.

Lemma put_cell_ok id key v s s' u :
  open s → put_cell id key v s = (s', Ok u) →
  open s' ∧ b_contract_storage (batch_of s') = <[(id, key) := Some v]> (b_contract_storage (batch_of s)).
Proof.
  intros Ho Hp. apply storage_ok, with_batch_open in Hp as [_ (Ho' & _ & _ & ->)]; [|done]. done.
Qed.

(** An executed proposal had been committed before and not been executed; its
    record is pending after it. *)
Lemma ran_execution tx id h s b sa sb o :
  is_execution tx id → ran tx h s b sa sb o →
  is_Some (dao_cell (proposal_key id) s) ∧ dao_cell (execution_key id) s = None ∧
  ∃ v, b_contract_storage b !! (dao_state_contract_id, execution_key id) = Some (Some v).
Proof.
  intros [Hty (x & Hx & <-)] (Hda & Hoa & _ & _ & Happ & _ & HQ).
  unfold apply_transaction in Happ. rewrite Hty in Happ. unfold apply_dao_execution in Happ.
  rewrite Hx in Happ. apply bind_ok in Happ as (s1 & y & [-> Hy]%lift_ok & Happ). injection Hy as <-.
  cbv zeta in Happ. apply bind_ok in Happ as (s1 & p & [-> ->]%gets_ok & Happ).
  apply bind_ok in Happ as (s1 & [] & [-> Hp%bool_decide_eq_true]%guard_ok & Happ).
  apply bind_ok in Happ as (s1 & e & [-> ->]%gets_ok & Happ).
  apply bind_ok in Happ as (s1 & [] & [-> He]%guard_ok & Happ).
  apply negb_true_iff, bool_decide_eq_false in He. rewrite <- eq_None_not_Some in He.
  apply bind_ok in Happ as (s1 & enc & [-> _]%lift_ok & Happ).
  apply bind_ok in Happ as (s1 & [] & [Ho1 H1]%put_cell_ok & Happ); [|done].
  apply bind_ok in Happ as (s2 & [] & [Ho2 H2]%put_cell_ok & [-> _]%ret_ok); [|done].
  unfold dao_cell, get_contract_storage in *. rewrite Hda in *. split_and!; [done|done|].
  destruct (HQ (record_rel (db s)) _ _) as (_ & _ & [_ Hkeep]). apply Hkeep. exists enc.
  rewrite H2, H1, lookup_insert_ne, lookup_insert_eq; [done|]. intros [= Hk].
Qed.

Lemma ran_proposal tx id h s b sa sb o :
  is_proposal tx id → ran tx h s b sa sb o →
  dao_cell (proposal_key id) s = None ∧
  ∃ v, b_contract_storage b !! (dao_state_contract_id, proposal_key id) = Some (Some v).
Proof.
  intros [Hty (x & Hx & <-)] (Hda & Hoa & _ & _ & Happ & _ & HQ).
  unfold apply_transaction in Happ. rewrite Hty in Happ. unfold apply_dao_proposal in Happ.
  rewrite Hx in Happ. apply bind_ok in Happ as (s1 & y & [-> Hy]%lift_ok & Happ). injection Hy as <-.
  cbv zeta in Happ. apply bind_ok in Happ as (s1 & e & [-> ->]%gets_ok & Happ).
  apply bind_ok in Happ as (s1 & [] & [-> He]%guard_ok & Happ).
  apply negb_true_iff, bool_decide_eq_false in He. rewrite <- eq_None_not_Some in He.
  apply bind_ok in Happ as (s1 & enc & [-> _]%lift_ok & Happ).
  apply bind_ok in Happ as (s1 & [] & [Ho1 H1]%put_cell_ok & Happ); [|done].
  apply bind_ok in Happ as (s2 & [] & [Ho2 H2]%put_cell_ok & [-> _]%ret_ok); [|done].
  unfold dao_cell, get_contract_storage in *. rewrite Hda in *. split; [done|].
  destruct (HQ (record_rel (db s)) _ _) as (_ & _ & [_ Hkeep]). apply Hkeep. exists enc.
  rewrite H2, H1, lookup_insert_ne, lookup_insert_eq; [done|]. intros [= Hk].
Qed.

Lemma accepted_cell block s s' o b key v :
  accepted block s s' o b → b_contract_storage b !! (dao_state_contract_id, key) = Some (Some v) →
  dao_cell key s' = Some v.
Proof.
  intros Hacc Hv. unfold dao_cell, get_contract_storage. rewrite (acc_db _ _ _ _ _ Hacc). cbn.
  by rewrite apply_batch_lookup, Hv.
Qed.

(** Whatever is tried afterwards, a block that repeats the record is refused. *)
Lemma record_final (is_tx : Transaction → Z → Prop) (key : Z → list Z) id b1 s0 s1 o1 bs s2 b2 tx1 tx2 :
  (∀ tx id, is_tx tx id → is_coinbase tx = false) → (∀ id, record_key (key id)) →
  (∀ tx id h s b sa sb o, is_tx tx id → ran tx h s b sa sb o →
     dao_cell (key id) s = None ∧
     ∃ v, b_contract_storage b !! (dao_state_contract_id, key id) = Some (Some v)) →
  closed s0 → apply_block ex b1 s0 = (s1, Ok o1) → chain s1 bs s2 →
  height (header b1) ≠ 0 → height (header b2) ≠ 0 →
  tx1 ∈ transactions b1 → tx2 ∈ transactions b2 → is_tx tx1 id → is_tx tx2 id →
  ∃ v s3 e, dao_cell (key id) s1 = Some v ∧ dao_cell (key id) s2 = Some v ∧
    apply_block ex b2 s2 = (s3, Err e).
Proof.
  intros Hncb Hrec Hran H0 H1 Hc Hh1 Hh2 Hin1 Hin2 Hx1 Hx2.
  apply apply_block_cases in H1 as [Hcl1 (bt & Hacc)]; [|done].
  destruct (accepted_ran _ _ _ _ _ tx1 Hacc) as (sa & sb & o' & Hr1); [done|done|by eapply Hncb|].
  destruct (Hran _ _ _ _ _ _ _ _ Hx1 Hr1) as (_ & v & Hv).
  apply (accepted_cell _ _ _ _ _ _ _ Hacc) in Hv.
  pose proof (chain_record s1 bs s2 (key id) v Hcl1 Hc (Hrec id) Hv) as Hv2.
  destruct (apply_block ex b2 s2) as [s3 [o2|e]] eqn:H2; [|by exists v, s3, e]. exfalso.
  apply apply_block_cases in H2 as [_ (bt2 & Hacc2)]; [|by eapply chain_closed].
  destruct (accepted_ran _ _ _ _ _ tx2 Hacc2) as (sa2 & sb2 & o2' & Hr2); [done|done|by eapply Hncb|].
  destruct (Hran _ _ _ _ _ _ _ _ Hx2 Hr2) as [Hn _]. congruence.
Qed.

(** Proposals are immutable and executed at most once.  After a block with a
    proposal, whatever blocks are tried, the stored proposal never changes and a
    block proposing the same id again is refused.  After a block that executes
    a proposal, which had been committed by an earlier block and not executed, a
    block that executes it again is refused, and the proposal is still stored
    unchanged. *)
Theorem dao_records_final id b1 s0 s1 o1 bs s2 b2 tx1 tx2 :
  closed s0 → apply_block ex b1 s0 = (s1, Ok o1) → chain s1 bs s2 →
  height (header b1) ≠ 0 → height (header b2) ≠ 0 →
  tx1 ∈ transactions b1 → tx2 ∈ transactions b2 →
  (is_proposal tx1 id → is_proposal tx2 id →
   ∃ v s3 e, dao_cell (proposal_key id) s1 = Some v ∧ dao_cell (proposal_key id) s2 = Some v ∧
     apply_block ex b2 s2 = (s3, Err e)) ∧
  (is_execution tx1 id → is_execution tx2 id →
   dao_cell (execution_key id) s0 = None ∧
   ∃ p s3 e, dao_cell (proposal_key id) s0 = Some p ∧ dao_cell (proposal_key id) s2 = Some p ∧
     apply_block ex b2 s2 = (s3, Err e)).
Proof.
  intros H0 H1 Hc Hh1 Hh2 Hin1 Hin2. split; intros Hx1 Hx2.
  - eapply (record_final is_proposal proposal_key); eauto using ran_proposal.
    + by intros tx ? [Ht _]; unfold is_coinbase; rewrite Ht.
    + intros i. exists i. by left.
  - assert (∀ tx i, is_execution tx i → is_coinbase tx = false) as Hncb
      by (by intros tx ? [Ht _]; unfold is_coinbase; rewrite Ht).
    edestruct (record_final is_execution execution_key) as (v & s3 & e & _ & _ & H2);
      [exact Hncb| | |exact H0|exact H1|exact Hc|done|done|exact Hin1|exact Hin2|exact Hx1|exact Hx2|].
    { intros i. exists i. by right. }
    { intros tx i h s b sa sb o Hx Hr. by destruct (ran_execution _ _ _ _ _ _ _ _ Hx Hr) as (_ & ? & ?). }
    apply apply_block_cases in H1 as [Hcl1 (bt & Hacc)]; [|done].
    destruct (accepted_ran _ _ _ _ _ tx1 Hacc) as (sa & sb & o' & Hr1); [done|done|by eapply Hncb|].
    destruct (ran_execution _ _ _ _ _ _ _ _ Hx1 Hr1) as ([p Hp] & Hn & _).
    split; [done|]. exists p, s3, e. split_and!; [done| |done].
    assert (record_key (proposal_key id)) as Hrec by (exists id; by left).
    eapply chain_record; [exact Hcl1|exact Hc|done|]. by eapply accepted_record.
Qed.

(** ** Transaction types without a handler *)

Definition unsupported (t : TransactionType.t) : bool :=
  match t with
  | TransactionType.TokenSwap | TransactionType.CreatePool | TransactionType.AddLiquidity
  | TransactionType.RemoveLiquidity | TransactionType.CancelOracleUpdate
  | TransactionType.InitEntityRegistry | TransactionType.DomainRegistration
  | TransactionType.DomainUpdate => true
  | _ => false
  end.

(** Eight transaction types can never be included.  The stateless check accepts
    pool, oracle-cancellation, entity-registry and domain transactions, but no
    handler does: every block above genesis with one of them is refused, and the
    state is left as it was. *)
Theorem unsupported_types_refused block s tx :
  closed s → height (header block) ≠ 0 → tx ∈ transactions block →
  unsupported (transaction_type tx) = true →
  validate_structure tx = Ok tt ∧
  ∃ s' e, apply_block ex block s = (s', Err e) ∧ db s' = db s.
Proof.
  intros Hcl Hh Hin Hu. split.
  { unfold validate_structure. by destruct (transaction_type tx). }
  destruct (apply_block ex block s) as [s' r] eqn:Hb.
  apply apply_block_cases in Hb as [_ Hb]; [|done]. destruct r as [o|e]; [|by exists s', e].
  destruct Hb as [bt Hacc]. exfalso.
  destruct (accepted_ran _ _ _ _ _ tx Hacc) as (sa & sb & o' & (_ & _ & _ & _ & Happ & _)); [done|done| |].
  - unfold is_coinbase. by destruct (transaction_type tx).
  - unfold apply_transaction in Happ. by destruct (transaction_type tx).
Qed.

End Accepted.

(** ** Examples *)

#[local] Existing Instances demo_hash demo_chain_params demo_env.

Lemma accept_run `{PairHash, ChainParams, ExecutorEnv} (ex : BlockExecutor) s0 bs s b :
  chain ex s0 bs s → is_ok (apply_block ex b s).2 = true →
  chain ex s0 (bs ++ [b]) (apply_block ex b s).1.
Proof.
  intros Hc Hok. destruct (apply_block ex b s) as [s' [o|e]] eqn:Hb; [|done].
  by eapply chain_accept.
Qed.

Lemma demo_chain n : (n <= 4)%nat → chain demo_executor empty_store (take n demo_blocks) (demo_state n).
Proof.
  intros Hn. pose proof demo_blocks_accepted as Hok. rewrite Forall_forall in Hok.
  induction n as [|n IH]; [constructor|].
  assert (n < length demo_blocks)%nat as Hlt by (cbn; lia).
  apply lookup_lt_is_Some in Hlt as [b Hb]. unfold demo_state.
  rewrite (take_S_r _ _ _ Hb), foldl_snoc. apply accept_run; [by apply IH; lia|].
  specialize (Hok n ltac:(rewrite !elem_of_cons; lia)).
  by rewrite (nth_lookup_Some _ _ _ _ Hb) in Hok.
Qed.

Lemma demo_state_S n b :
  demo_blocks !! n = Some b → demo_state (S n) = (apply_block demo_executor b (demo_state n)).1.
Proof. intros Hb. unfold demo_state. by rewrite (take_S_r _ _ _ Hb), foldl_snoc. Qed.

Lemma demo_closed n : (n <= 4)%nat → closed (demo_state n).
Proof. intros Hn. by eapply chain_closed, demo_chain. Qed.

Definition demo_block3 : Block := demo_block_at 3 [demo_transfer 9 20 21 20000 1; demo_transfer 10 30 31 30000 0].


Lemma chain_linked_witness :
  ∃ s, chain demo_executor empty_store demo_blocks s ∧
    previous_hash (header demo_block3) = 502 ∧ get_block_hash_by_height 2 s = Some 502.
Proof.
  exists (demo_state 4). assert (chain demo_executor empty_store demo_blocks (demo_state 4)) as Hc
    by (apply (demo_chain 4); lia). split; [exact Hc|].
  destruct (chain_linked demo_executor demo_blocks (demo_state 4) Hc ltac:(by vm_compute) 2%nat
    (nth 2 demo_blocks demo_block3) ltac:(done)) as (_ & H2 & H3).
  split; [exact (H3 demo_block3 ltac:(done) ltac:(done))|exact H2].
Defined.

Lemma demo_blocks_wf : Forall (λ b, Forall wf_tx (transactions b)) demo_blocks.
Proof. repeat constructor; by vm_compute. Qed.


Lemma transfer_nonces_increase_witness :
  ∃ x y, is_transfer (demo_transfer 7 20 21 10000 0) x ∧ is_transfer (demo_transfer 9 20 21 20000 1) y ∧
    tt_nonce x < tt_nonce y.
Proof.
  eexists _, _. split; [done|]. split; [done|].
  exact (transfer_nonces_increase demo_executor demo_blocks (demo_state 4) 2 3
    (nth 2 demo_blocks demo_block3) demo_block3 (demo_transfer 7 20 21 10000 0)
    (demo_transfer 9 20 21 20000 1) _ _ (demo_chain 4 ltac:(lia)) ltac:(by vm_compute) ltac:(lia)
    ltac:(done) ltac:(done) ltac:(cbn; rewrite !elem_of_cons; auto) (conj eq_refl eq_refl)
    ltac:(cbn; rewrite !elem_of_cons; auto) (conj eq_refl eq_refl) eq_refl eq_refl).
Defined.

Definition demo_block2 : Block := nth 2 demo_blocks demo_block3.

Lemma block_run (ex : BlockExecutor) `{PairHash, ChainParams, ExecutorEnv} b s :
  is_ok (apply_block ex b s).2 = true → ∃ o, apply_block ex b s = ((apply_block ex b s).1, Ok o).
Proof. destruct (apply_block ex b s) as [s' [o|]]; [by exists o|done]. Qed.

Lemma demo_block2_run : ∃ o, apply_block demo_executor demo_block2 (demo_state 2) = (demo_state 3, Ok o).
Proof.
  rewrite (demo_state_S 2 demo_block2 eq_refl). apply block_run. by vm_compute.
Qed.

Lemma demo_block3_run : ∃ o, apply_block demo_executor demo_block3 (demo_state 3) = (demo_state 4, Ok o).
Proof.
  rewrite (demo_state_S 3 demo_block3 eq_refl). apply block_run. by vm_compute.
Qed.

Lemma demo_is_execution v id : is_execution (demo_execution v id) id.
Proof. split; [done|]. by eexists. Qed.

Lemma dao_records_final_witness :
  ∃ s e, apply_block demo_executor (demo_block_at 3 [demo_execution 20 8]) (demo_state 3) = (s, Err e).
Proof.
  destruct demo_block2_run as [o H2].
  destruct (dao_records_final demo_executor 8 demo_block2 (demo_state 2) (demo_state 3) o [] (demo_state 3)
    (demo_block_at 3 [demo_execution 20 8]) (demo_execution 8 8) (demo_execution 20 8)
    (demo_closed 2 ltac:(lia)) H2 (chain_start _ _)) as [_ Hex]; [done|done| | |].
  - cbn; rewrite !elem_of_cons; auto.
  - cbn; rewrite !elem_of_cons; auto.
  - destruct (Hex (demo_is_execution 8 8) (demo_is_execution 20 8)) as (_ & p & s3 & e & _ & _ & Hr).
    exists s3, e. exact Hr.
Defined.

Lemma unsupported_types_refused_witness :
  ∃ s e, apply_block demo_executor
    (demo_block_at 4 [demo_tx 30 TransactionType.DomainRegistration [] [] 0 NonePayload]) (demo_state 4)
    = (s, Err e) ∧ db s = db (demo_state 4).
Proof.
  destruct (unsupported_types_refused demo_executor
    (demo_block_at 4 [demo_tx 30 TransactionType.DomainRegistration [] [] 0 NonePayload]) (demo_state 4)
    (demo_tx 30 TransactionType.DomainRegistration [] [] 0 NonePayload)) as [_ Hr];
    [apply demo_closed; lia|done|by apply list_elem_of_singleton|done|exact Hr].
Defined.
