(* ===== verification/BlockValue.v ===== *)
(** * Resources, value and fees of a block

    The sums over a whole block: the resources of an accepted block are within
    the limits, the UTXO set gains exactly the block reward, and of the fees of
    its token transfers only the last reaches the fee sink. *)
From stdpp Require Import base tactics numbers list option gmap fin_maps strings.
From S2P Require Import Prelude Fees Curve CurveState Merkle TokenCore Store Codec Ledger.
From S2P Require Import CurveExec Memo Transaction Executor Frame Blocks.

Section Value.
Context `{HP : PairHash, HC : ChainParams, HE : ExecutorEnv} (ex : BlockExecutor).

(** ** Resources *)

Lemma lenZ_nonneg {A : Type} (l : list A) : 0 <= lenZ l.
Proof. unfold lenZ. lia. Qed.

Lemma tx_resources_wf tx : wf_resources (calculate_tx_resources tx).
Proof.
  pose proof (lenZ_nonneg (memo tx)). pose proof (lenZ_nonneg (inputs tx)).
  pose proof (lenZ_nonneg (outputs tx)). unfold wf_resources, calculate_tx_resources; cbn.
  unfold estimate_tx_payload_size, estimate_tx_witness_size, estimate_tx_verify_units,
    estimate_tx_state_writes. split_and!; [destruct (payload tx); lia| |lia|case_match; lia].
  apply Z.add_nonneg_nonneg; [apply lenZ_nonneg|]. apply sumZ_nonneg, Forall_fmap, Forall_true.
  intros i. cbn. unfold lenZ. lia.
Qed.

Lemma totals_sums rs a :
  acc_payload (totals rs a) = acc_payload a + sumZ (res_payload <$> rs) ∧
  acc_witness (totals rs a) = acc_witness a + sumZ (res_witness <$> rs) ∧
  acc_verify (totals rs a) = acc_verify a + sumZ (res_verify <$> rs) ∧
  acc_state_write (totals rs a) = acc_state_write a + sumZ (res_state_write <$> rs) ∧
  acc_tx_count (totals rs a) = acc_tx_count a + lenZ rs.
Proof.
  revert a. induction rs as [|r rs IH]; intros a; [unfold lenZ; cbn; lia|].
  change (totals (r :: rs) a) with (totals rs (plus a r)).
  destruct (IH (plus a r)) as (-> & -> & -> & -> & ->).
  rewrite !fmap_cons, !sumZ_cons. unfold lenZ, plus. cbn [length acc_payload acc_witness acc_verify
    acc_state_write acc_tx_count]. lia.
Qed.

Lemma add_txs_app l rs1 rs2 a :
  add_txs l (rs1 ++ rs2) a = let? a' := add_txs l rs1 a in add_txs l rs2 a'.
Proof.
  revert a. induction rs1 as [|r rs1 IH]; intros a; [done|]. cbn [app add_txs].
  by destruct (add_tx l r a).
Qed.

Lemma block_coinbase_acc cb h t s s' t' :
  apply_block_coinbase ex cb h t s = (s', Ok t') →
  add_txs (limits ex) (calculate_tx_resources <$> option_list cb) (accumulator t) =
    Ok (accumulator t').
Proof.
  destruct cb as [tx|]; [|by intros [-> ->]%ret_ok]. unfold apply_block_coinbase.
  intros (s1 & acc & [_ Ha]%lift_ok & Hs)%bind_ok.
  apply bind_ok in Hs as (s2 & [] & _ & Hs).
  apply bind_ok in Hs as (s3 & co & _ & [-> ->]%ret_ok). cbn. by rewrite Ha.
Qed.

(** What the transactions of a block use of a resource. *)
Definition block_use (f : Transaction → Z) (block : Block) : Z := sumZ (f <$> transactions block).

(** C27: an accepted block is within its resource limits.  With limits below the
    saturation points, the payload bytes, the witness bytes, the verification
    units, the state writes and the number of the transactions of an accepted
    block other than genesis, coinbase included, add up to no more than the block limits. *)
Theorem accepted_block_within_limits block s s' o :
  wf_limits (limits ex) → within (limits ex) BlockAccumulator_new →
  closed s → height (header block) ≠ 0 → apply_block ex block s = (s', Ok o) →
  block_use estimate_tx_payload_size block <= max_payload_bytes (limits ex) ∧
  block_use estimate_tx_witness_size block <= max_witness_bytes (limits ex) ∧
  block_use estimate_tx_verify_units block <= max_verify_units (limits ex) ∧
  block_use estimate_tx_state_writes block <= max_state_write_bytes (limits ex) ∧
  lenZ (transactions block) <= max_tx_count (limits ex).
Proof.
  intros Hl H0 Hcl Hh Hb. apply apply_block_cases in Hb as [_ (bt & Hacc)]; [|done].
  destruct (acc_run _ _ _ _ _ _ Hacc)
    as (s1 & s2 & t & cb & rest & _ & _ & Htx & Hrun & _). unfold apply_transactions in Hrun.
  rewrite (proj2 (Z.eqb_neq _ _) Hh) in Hrun. cbv zeta in Hrun.
  apply bind_ok in Hrun as (s3 & t3 & Htxs & Hcb).
  apply apply_txs_acc in Htxs as [Hacc3 _]; [|by vm_compute].
  assert (add_txs (limits ex) (calculate_tx_resources <$> rest ++ option_list cb)
            BlockAccumulator_new = Ok (accumulator t)) as Hadd.
  { cbn [accumulator Totals_new] in Hacc3. rewrite fmap_app, add_txs_app, Hacc3. by eapply block_coinbase_acc. }
  pose proof (add_txs_exact (limits ex) (calculate_tx_resources <$> rest ++ option_list cb)
    BlockAccumulator_new Hl) as Hex. rewrite Hadd in Hex.
  destruct Hex as [_ Hin]; [by apply Forall_fmap, Forall_true; intros; apply tx_resources_wf|done|].
  destruct (totals_sums (calculate_tx_resources <$> rest ++ option_list cb) BlockAccumulator_new)
    as (T1 & T2 & T3 & T4 & T5).
  unfold within in Hin. rewrite T1, T2, T3, T4, T5 in Hin. clear T1 T2 T3 T4 T5.
  assert (transactions block ≡ₚ rest ++ option_list cb) as Hperm
    by (rewrite Htx; apply Permutation_app_comm).
  assert (∀ f, block_use f block = sumZ (f <$> rest ++ option_list cb)) as Hf
    by (intros f; by apply sumZ_Permutation, fmap_Permutation).
  rewrite !Hf. unfold lenZ in *. rewrite (Permutation_length Hperm).
  rewrite length_fmap, <- !list_fmap_compose in Hin. exact Hin.
Qed.

(** ** The value of the UTXO set *)

Definition yields {A : Type} (P : A → Prop) (m : M SledStore TxApplyError A) : Prop :=
  ∀ s s' a, m s = (s', Ok a) → P a.

Lemma yields_bind {A B : Type} (P : B → Prop) (m : M SledStore TxApplyError A) k :
  (∀ a, yields P (k a)) → yields P (bind m k).
Proof. intros Hk s s' b (s1 & a & _ & Hs)%bind_ok. by eapply Hk. Qed.

Lemma yields_ret {A : Type} (P : A → Prop) a : P a → yields P (ret a).
Proof. by intros Ha s s' b [_ ->]%ret_ok. Qed.

Lemma yields_throw {A : Type} (P : A → Prop) e : yields P (throw e).
Proof. by intros s s' b []%throw_ok. Qed.

Lemma outcome_fees_other tx h fees :
  transaction_type tx ≠ TransactionType.Transfer →
  yields (λ o, outcome_fees o fees = fees) (apply_transaction ex tx h).
Proof.
  intros Hne. unfold apply_transaction, apply_token_transfer_tx, apply_token_mint_tx,
    apply_wallet_registration, apply_wallet_update, apply_token_creation, apply_contract_deployment,
    apply_contract_execution, apply_dao_proposal, apply_dao_vote, apply_dao_execution,
    apply_bonding_curve.
  destruct (transaction_type tx); try done; cbv zeta;
    repeat first [by apply yields_ret|by apply yields_throw|apply yields_bind; intros ?|case_match].
Qed.

Definition is_native (tx : Transaction) : bool :=
  bool_decide (transaction_type tx = TransactionType.Transfer).

Definition native_inputs (txs : list Transaction) : list OutPoint :=
  txs ≫= λ tx, if is_native tx then outpoint_of <$> inputs tx else [].
Definition output_hashes (txs : list Transaction) : list Z :=
  txs ≫= λ tx, if touches_utxos tx then [hash_transaction tx] else [].
Definition native_fees (txs : list Transaction) : Z :=
  sumZ ((λ tx, if is_native tx then fee tx else 0) <$> txs).

(** No two transfers of the block spend the same UTXO, and its outputs are new. *)
Record disjoint_txs (txs : list Transaction) (d : Tables) : Prop := {
  dj_inputs : NoDup (native_inputs txs);
  dj_hashes : NoDup (output_hashes txs);
  dj_fresh : ∀ hash, hash ∈ output_hashes txs → ∀ i, utxos d !! (hash, i) = None;
  dj_outputs : Forall (λ tx, lenZ (outputs tx) <= 2 ^ 32) txs;
  dj_fees : Forall (λ tx, in_u 64 (fee tx)) txs;
  dj_count : lenZ txs <= 2 ^ 64;
}.

Lemma creates_dom hash i us m op :
  is_Some (creates hash i us m !! op) → op.1 = hash ∨ is_Some (m !! op).
Proof.
  revert i m. induction us as [|u us IH]; intros i m; cbn [creates]; [by right|].
  intros [?|Hs]%IH; [by left|]. destruct op as [a b].
  destruct (decide ((hash, as_u 32 (Z.of_nat i)) = (a, b))) as [[= <- _]|]; [by left|].
  rewrite lookup_insert_ne in Hs by done. by right.
Qed.

Lemma spends_dom ops m op : is_Some (spends ops m !! op) → op ∈ ops ∨ is_Some (m !! op).
Proof.
  unfold spends. revert m. induction ops as [|op' ops IH]; intros m; cbn [foldl]; [by right|].
  intros [?|Hs]%IH; [left; by right|]. destruct (decide (op' = op)) as [->|]; [left; by left|].
  rewrite lookup_insert_ne in Hs by done. by right.
Qed.

(** The block after the transactions [txs]: what it has touched, its value, its fees. *)
Record after (s : SledStore) (txs : list Transaction) (sa : SledStore) (fees : Z) : Prop := {
  af_open : open sa;
  af_db : db sa = db s;
  af_dom : ∀ op, is_Some (pending_utxos sa !! op) →
    op ∈ native_inputs txs ∨ op.1 ∈ output_hashes txs;
  af_spent : ∀ op, op ∈ native_inputs txs → is_Some (utxos (db s) !! op);
  af_gone : ∀ op, op ∈ native_inputs txs → view_utxos sa !! op = None;
  af_value : utxo_value (view_utxos sa) = utxo_value (utxos (db s)) - native_fees txs;
  af_fees : fees = native_fees txs;
}.

Lemma native_inputs_snoc txs tx :
  native_inputs (txs ++ [tx]) =
    native_inputs txs ++ (if is_native tx then outpoint_of <$> inputs tx else []).
Proof. unfold native_inputs. rewrite bind_app. cbn. by rewrite app_nil_r. Qed.

Lemma output_hashes_snoc txs tx :
  output_hashes (txs ++ [tx]) =
    output_hashes txs ++ (if touches_utxos tx then [hash_transaction tx] else []).
Proof. unfold output_hashes. rewrite bind_app. cbn. by rewrite app_nil_r. Qed.

Lemma native_fees_snoc txs tx :
  native_fees (txs ++ [tx]) = native_fees txs + (if is_native tx then fee tx else 0).
Proof. unfold native_fees. rewrite fmap_app, sumZ_app. cbn. lia. Qed.

Lemma native_fees_range txs :
  Forall (λ tx, in_u 64 (fee tx)) txs → 0 <= native_fees txs <= lenZ txs * umax 64.
Proof.
  unfold native_fees, lenZ. induction 1 as [|tx txs [? ?] _ IH]; [cbn; lia|].
  rewrite fmap_cons, sumZ_cons. cbn [length]. case_match; lia.
Qed.

Lemma after_fresh s txs tx sa f :
  after s txs sa f → disjoint_txs (txs ++ [tx]) (db s) → touches_utxos tx = true →
  fresh_outputs (hash_transaction tx) (length (outputs tx)) sa.
Proof.
  intros Haf Hdj Ht. destruct Hdj. rewrite output_hashes_snoc, Ht in dj_hashes0, dj_fresh0.
  apply Forall_app in dj_outputs0 as [_ [Hlen _]%list.Forall_cons]. split; [done|].
  intros i _. unfold view_utxos. rewrite apply_batch_lookup, (af_db _ _ _ _ Haf).
  assert (utxos (db s) !! (hash_transaction tx, i) = None) as Hn
    by (apply dj_fresh0, elem_of_app; right; by apply list_elem_of_singleton).
  destruct (pending_utxos sa !! (hash_transaction tx, i)) as [v|] eqn:Hp; [|done]. exfalso.
  destruct (af_dom _ _ _ _ Haf (hash_transaction tx, i)) as [Hin|Hin]; [by eexists| |].
  - apply (af_spent _ _ _ _ Haf) in Hin as [u Hu]. congruence.
  - apply NoDup_app in dj_hashes0 as (_ & Hd & _). apply (Hd _ Hin). by apply list_elem_of_singleton.
Qed.

Lemma after_untouched s txs tx sa f us :
  after s txs sa f → disjoint_txs (txs ++ [tx]) (db s) → is_native tx = true →
  Forall2 (λ op u, utxos (db sa) !! op = Some u) (outpoint_of <$> inputs tx) us →
  untouched (outpoint_of <$> inputs tx) sa.
Proof.
  intros Haf Hdj Hn Hus op Hop. apply eq_None_not_Some. intros Hs.
  apply list_elem_of_lookup_1 in Hop as [k Hk].
  destruct (Forall2_lookup_l _ _ _ _ _ Hus Hk) as (u & _ & Hu).
  destruct Hdj. rewrite native_inputs_snoc, Hn in dj_inputs0. rewrite output_hashes_snoc in dj_fresh0.
  apply NoDup_app in dj_inputs0 as (_ & Hd & _).
  destruct (af_dom _ _ _ _ Haf op Hs) as [Hin|Hin].
  - apply (Hd _ Hin). by eapply list_elem_of_lookup_2.
  - rewrite (af_db _ _ _ _ Haf) in Hu. destruct op as [hash i]. cbn in Hin.
    rewrite dj_fresh0 in Hu; [done|]. apply elem_of_app. by left.
Qed.

Lemma native_touches tx : is_native tx = true → touches_utxos tx = true.
Proof. unfold is_native, touches_utxos. by intros ->%bool_decide_eq_true. Qed.

Lemma after_native s txs tx h sa f sb o :
  after s txs sa f → disjoint_txs (txs ++ [tx]) (db s) → is_native tx = true →
  apply_transaction ex tx h sa = (sb, Ok o) → after s (txs ++ [tx]) sb (outcome_fees o f).
Proof.
  intros Haf Hdj Hn Happ. pose proof (native_touches tx Hn) as Ht.
  pose proof (after_fresh _ _ _ _ _ Haf Hdj Ht) as Hfr.
  unfold apply_transaction in Happ. pose proof Hn as Hty%bool_decide_eq_true. rewrite Hty in Happ.
  apply bind_ok in Happ as (s1 & r & Hrun & [-> ->]%ret_ok).
  assert (in_u 64 (fee tx)) as Hfee.
  { destruct Hdj. by apply Forall_app in dj_fees0 as [_ [? _]%list.Forall_cons]. }
  pose proof (af_db _ _ _ _ Haf) as Hdb.
  destruct (native_transfer_ok _ _ _ _ _ _ _ _ (af_open _ _ _ _ Haf) Hfee Hrun)
    as (us & per & rem & Hnd & Hus & _ & _ & _ & -> & Hsum & _ & Hstep).
  pose proof (after_untouched _ _ _ _ _ _ Haf Hdj Hn Hus) as Hun.
  destruct (native_transfer_view _ _ _ _ _ _ Hnd (untouched_view _ _ _ Hun Hus)
    ltac:(by rewrite output_utxos_length) Hstep) as (Hv & Hgone & _ & Hrest).
  destruct Hstep as (Hob & Hdb' & _ & Hu & _). constructor; [done|congruence| | | | |].
  - intros op Hs. rewrite native_inputs_snoc, output_hashes_snoc, Hn, Ht, !elem_of_app.
    unfold pending_utxos in Hs. rewrite Hu in Hs. apply creates_dom in Hs as [->|Hs].
    { right; right. by apply list_elem_of_singleton. }
    apply spends_dom in Hs as [|Hs]; [by left; right|].
    destruct (af_dom _ _ _ _ Haf op Hs); [by left; left|by right; left].
  - intros op. rewrite native_inputs_snoc, Hn, elem_of_app. intros [Hin|Hin].
    { by apply (af_spent _ _ _ _ Haf). }
    apply list_elem_of_lookup_1 in Hin as [k Hk].
    destruct (Forall2_lookup_l _ _ _ _ _ Hus Hk) as (u & _ & Hu'). rewrite Hdb in Hu'. by eexists.
  - intros op. rewrite native_inputs_snoc, Hn, elem_of_app. intros [Hin|Hin]; [|by apply Hgone].
    destruct (af_spent _ _ _ _ Haf op Hin) as [u Hus'].
    rewrite Hrest; [by apply (af_gone _ _ _ _ Haf)| |].
    + destruct Hdj. rewrite native_inputs_snoc, Hn in dj_inputs0.
      apply NoDup_app in dj_inputs0 as (_ & Hd & _). by apply Hd.
    + intros Heq. destruct Hdj. destruct op as [hash i]. cbn in Heq. subst hash.
      rewrite dj_fresh0 in Hus'; [done|]. rewrite output_hashes_snoc, Ht.
      apply elem_of_app. right. by apply list_elem_of_singleton.
  - rewrite native_fees_snoc, Hn. rewrite (af_value _ _ _ _ Haf) in Hv. lia.
  - cbn. rewrite native_fees_snoc, Hn, (af_fees _ _ _ _ Haf). apply wadd_small.
    destruct Hdj. pose proof (native_fees_range _ dj_fees0) as Hr. rewrite native_fees_snoc, Hn in Hr.
    unfold umax in *. nia.
Qed.

Lemma after_other s txs tx h sa f sb o :
  after s txs sa f → is_native tx = false → is_coinbase tx = false →
  apply_transaction ex tx h sa = (sb, Ok o) → after s (txs ++ [tx]) sb (outcome_fees o f).
Proof.
  intros Haf Hn Hcb Happ. apply bool_decide_eq_false in Hn as Hty. apply bool_decide_eq_false in Hcb.
  assert (touches_utxos tx = false) as Ht
    by (unfold touches_utxos; by destruct (transaction_type tx)).
  assert (moves (db s) (same b_utxos) sa sb) as Hm.
  { eapply (apply_transaction_respects (T:=False)); [done|done|by rewrite Ht| |exact Happ].
    apply Haf. }
  destruct (moves_open _ _ _ _ Hm (af_open _ _ _ _ Haf)) as [Hob Hsame].
  assert (pending_utxos sb = pending_utxos sa) as Hp by done.
  assert (db sb = db s) as Hdb by apply Hm. destruct Haf. constructor; [done|done| | | | |].
  - intros op. rewrite Hp, native_inputs_snoc, output_hashes_snoc, Hn, Ht, !app_nil_r. apply af_dom0.
  - intros op. rewrite native_inputs_snoc, Hn, app_nil_r. apply af_spent0.
  - intros op. rewrite native_inputs_snoc, Hn, app_nil_r. unfold view_utxos. rewrite Hp, Hdb, <- af_db0.
    apply af_gone0.
  - rewrite native_fees_snoc, Hn. unfold view_utxos in *. rewrite Hp, Hdb. rewrite af_db0 in af_value0. lia.
  - rewrite native_fees_snoc, Hn. rewrite (outcome_fees_other tx h f Hty _ _ _ Happ). lia.
Qed.

Lemma native_inputs_app l1 l2 : native_inputs (l1 ++ l2) = native_inputs l1 ++ native_inputs l2.
Proof. apply bind_app. Qed.
Lemma output_hashes_app l1 l2 : output_hashes (l1 ++ l2) = output_hashes l1 ++ output_hashes l2.
Proof. apply bind_app. Qed.

Lemma disjoint_prefix l1 l2 d : disjoint_txs (l1 ++ l2) d → disjoint_txs l1 d.
Proof.
  intros []. rewrite native_inputs_app, output_hashes_app in *. unfold lenZ in *.
  rewrite length_app in *. constructor.
  - by apply NoDup_app in dj_inputs0 as [? _].
  - by apply NoDup_app in dj_hashes0 as [? _].
  - intros hash Hin. apply dj_fresh0, elem_of_app. by left.
  - by apply Forall_app in dj_outputs0 as [? _].
  - by apply Forall_app in dj_fees0 as [? _].
  - unfold lenZ. lia.
Qed.

Lemma disjoint_comm l1 l2 d : disjoint_txs (l1 ++ l2) d → disjoint_txs (l2 ++ l1) d.
Proof.
  intros []. rewrite native_inputs_app, output_hashes_app in *. unfold lenZ in *.
  rewrite length_app in *. constructor; rewrite ?native_inputs_app, ?output_hashes_app.
  - by rewrite Permutation_app_comm.
  - by rewrite Permutation_app_comm.
  - intros hash Hin. apply dj_fresh0. rewrite elem_of_app in *. tauto.
  - apply Forall_app. apply Forall_app in dj_outputs0. tauto.
  - apply Forall_app. apply Forall_app in dj_fees0. tauto.
  - unfold lenZ. rewrite length_app. lia.
Qed.

Lemma after_txs s txs rest i h t sa sb t' :
  after s txs sa (total_fees t) → disjoint_txs (txs ++ rest) (db s) →
  apply_txs ex rest i h t sa = (sb, Ok t') →
  after s (txs ++ rest) sb (total_fees t') ∧ Forall (λ tx, is_coinbase tx = false) rest.
Proof.
  revert txs i t sa. induction rest as [|tx rest IH]; intros txs i t sa Haf Hdj; cbn [apply_txs].
  - intros [-> ->]%ret_ok. by rewrite app_nil_r.
  - intros (s1 & t1 & Hone & Hrest)%bind_ok.
    apply apply_one_ok in Hone as (acc & o & _ & _ & _ & Hcb & Happ & ->).
    replace (txs ++ tx :: rest) with ((txs ++ [tx]) ++ rest) in * by (by rewrite <- app_assoc).
    apply (IH (txs ++ [tx])) in Hrest as [Hres Hall]; [by split; [|constructor]| |done].
    cbn [total_fees]. destruct (is_native tx) eqn:Hn; [|by eapply after_other].
    eapply after_native; eauto using disjoint_prefix.
Qed.

Lemma block_coinbase_is tx h t s s' t' :
  apply_block_coinbase ex (Some tx) h t s = (s', Ok t') →
  is_coinbase tx = true ∧ total_fees t' = total_fees t ∧
  ∃ r, apply_coinbase (inputs tx) (outputs tx) (hash_transaction tx) h (block_reward ex)
    (total_fees t) fee_sink_address s = (s', Ok r).
Proof.
  unfold apply_block_coinbase. intros (s1 & acc & [-> _]%lift_ok & Hs)%bind_ok.
  apply bind_ok in Hs as (s2 & [] & H2%with_err_ok & Hs).
  pose proof (stateless_pure ex tx s) as Hp. rewrite H2 in Hp. cbn in Hp. subst s2.
  apply bind_ok in Hs as (s3 & co & H3%with_err_ok & [-> ->]%ret_ok).
  unfold apply_coinbase_with_fees in H3.
  apply bind_ok in H3 as (s4 & [] & [-> Hc]%guard_ok & H3). split_and!; [done|done|by eexists].
Qed.

Lemma accepted_after block s s' o b :
  accepted ex block s s' o b → height (header block) ≠ 0 →
  disjoint_txs (transactions block) (db s) →
  ∃ s2 s3 t3 t cb rest, transactions block = option_list cb ++ rest ∧
    disjoint_txs (rest ++ option_list cb) (db s) ∧
    after s rest s3 (total_fees t3) ∧ Forall (λ tx, is_coinbase tx = false) rest ∧
    apply_block_coinbase ex cb (height (header block)) t3 s3 = (s2, Ok t) ∧
    utxos (db s') = view_utxos s2 ∧ fees_collected o = total_fees t.
Proof.
  intros Hacc Hh Hdj. destruct (acc_run _ _ _ _ _ _ Hacc)
    as (s1 & s2 & t & cb & rest & Hd1 & [Ha1 Hb1] & Htx & Hrun & Hbt & Hd2 & ->).
  rewrite Htx in Hdj. unfold apply_transactions in Hrun.
  rewrite (proj2 (Z.eqb_neq _ _) Hh) in Hrun. cbv zeta in Hrun.
  apply bind_ok in Hrun as (s3 & t3 & Htxs & Hcb).
  assert (after s [] s1 0) as Haf0.
  { constructor; [by split; [|eexists]|done| | | | |done].
    - unfold pending_utxos, batch_of. rewrite Hb1. cbn. intros op [v Hv]. by rewrite lookup_empty in Hv.
    - by intros op ?%not_elem_of_nil.
    - by intros op ?%not_elem_of_nil.
    - unfold view_utxos, pending_utxos, batch_of. rewrite Hb1, Hd1. cbn. rewrite Z.sub_0_r.
      f_equal. apply map_eq. intros op. by rewrite apply_batch_lookup, lookup_empty. }
  pose proof (disjoint_comm _ _ _ Hdj) as Hdj'. pose proof (disjoint_prefix _ _ _ Hdj') as Hdjr.
  destruct (after_txs s [] rest _ _ Totals_new _ _ _ Haf0 Hdjr Htxs) as [Haf Hncb].
  exists s2, s3, t3, t, cb, rest. split_and!; try done.
  rewrite (acc_db _ _ _ _ _ _ Hacc). unfold view_utxos, pending_utxos, batch_of. by rewrite Hbt, Hd2.
Qed.

Lemma coinbase_utxos tx : is_coinbase tx = true → touches_utxos tx = true ∧ is_native tx = false.
Proof. unfold is_coinbase, touches_utxos, is_native. intros Ht%bool_decide_eq_true. by rewrite Ht. Qed.

(** C6: a block issues exactly the block reward.  When no UTXO is spent twice in
    the block and its outputs are new, an accepted block other than genesis that
    has a coinbase raises the total value of the UTXO set by exactly the block
    reward, whatever other transactions it has, since the coinbase pays out the fees
    the transfers destroyed; without a coinbase the total falls by these fees.  The
    fees reported are those of the native transfers. *)
Theorem block_issues_reward block s s' o :
  closed s → height (header block) ≠ 0 → disjoint_txs (transactions block) (db s) →
  apply_block ex block s = (s', Ok o) →
  fees_collected o = native_fees (transactions block) ∧
  utxo_value (utxos (db s')) = utxo_value (utxos (db s)) +
    (if existsb is_coinbase (transactions block) then block_reward ex
     else - native_fees (transactions block)).
Proof.
  intros Hcl Hh Hdj Hb. apply apply_block_cases in Hb as [_ (bt & Hacc)]; [|done].
  destruct (accepted_after _ _ _ _ _ Hacc Hh Hdj)
    as (s2 & s3 & t3 & t & cb & rest & -> & Hdj' & Haf & Hncb & Hcb & -> & ->).
  assert (existsb is_coinbase rest = false) as Hnone.
  { clear -Hncb. induction Hncb as [|tx txs Htx _ IH]; cbn; [done|]. by rewrite Htx. }
  pose proof Haf as [Ho3 _ _ _ _ Hv3 Hf3]. destruct cb as [tx|].
  - destruct (block_coinbase_is _ _ _ _ _ _ Hcb) as (Hc & -> & r & Hco).
    destruct (coinbase_utxos tx Hc) as [Ht Hn].
    pose proof (after_fresh s rest tx s3 (total_fees t3) Haf Hdj' Ht) as Hfr.
    destruct (coinbase_creates_reward _ _ _ _ _ _ _ _ _ _ Ho3 Hfr Hco) as (_ & _ & -> & _).
    change (option_list (Some tx) ++ rest) with (tx :: rest). cbn [existsb].
    unfold native_fees. rewrite Hc, fmap_cons, sumZ_cons, Hn. fold (native_fees rest). cbn [orb]. lia.
  - apply ret_ok in Hcb as [-> ->]. change (option_list None ++ rest) with rest. rewrite Hnone. lia.
Qed.

(** The inputs of an accepted block are gone. *)
Lemma accepted_spent block s s' o b op :
  accepted ex block s s' o b → height (header block) ≠ 0 →
  disjoint_txs (transactions block) (db s) → op ∈ native_inputs (transactions block) →
  utxos (db s') !! op = None.
Proof.
  intros Hacc Hh Hdj Hin. destruct (accepted_after _ _ _ _ _ Hacc Hh Hdj)
    as (s2 & s3 & t3 & t & cb & rest & Htx & Hdj' & Haf & Hncb & Hcb & -> & _).
  rewrite Htx, native_inputs_app in Hin. destruct cb as [tx|].
  - destruct (block_coinbase_is _ _ _ _ _ _ Hcb) as (Hc & _ & r & Hco).
    destruct (coinbase_utxos tx Hc) as [Ht Hn].
    assert (op ∈ native_inputs rest) as Hin'.
    { cbn in Hin. by rewrite Hn in Hin. }
    pose proof (after_fresh s rest tx s3 (total_fees t3) Haf Hdj' Ht) as Hfr.
    destruct (coinbase_creates_reward _ _ _ _ _ _ _ _ _ _ (af_open _ _ _ _ Haf) Hfr Hco)
      as (_ & _ & _ & _ & Hrest).
    rewrite Hrest; [by apply (af_gone _ _ _ _ Haf)|]. intros Heq.
    destruct (af_spent _ _ _ _ Haf op Hin') as [u Hu]. destruct op as [hash i]. cbn in Heq. subst.
    rewrite (dj_fresh _ _ Hdj') in Hu; [done|]. rewrite output_hashes_app. apply elem_of_app. right.
    cbn. rewrite Ht. cbn. by apply list_elem_of_singleton.
  - apply ret_ok in Hcb as [-> _]. by apply (af_gone _ _ _ _ Haf).
Qed.

(** ** Fees of token transfers *)

Definition transfer_fee_of (x : TokenTransferData) : Z :=
  token_transfer_fee (tt_amount x) (if tt_token_id x =? cbe_token_id then 0 else SOV_FEE_RATE_BPS)
    fee_sink_address.

(** The last fee that is not zero. *)
Definition last_fee (xs : list TokenTransferData) (old : Z) : Z :=
  foldl (λ acc x, if transfer_fee_of x =? 0 then acc else transfer_fee_of x) old xs.

(** A transfer of token [t] in which the fee sink takes no other part. *)
Definition pays_fee (t : TokenId) (tx : Transaction) (x : TokenTransferData) : Prop :=
  is_transfer tx x ∧ canonical_token (tt_token_id x) = t ∧ in_u 128 (tt_amount x) ∧
  tt_from x ≠ fee_sink_address ∧ tt_to x ≠ fee_sink_address.

Lemma transfer_sink t tx x h sa sb o :
  pays_fee t tx x → open sa → wf_balances sa → apply_transaction ex tx h sa = (sb, Ok o) →
  open sb ∧ db sb = db sa ∧
  view_balance (t, fee_sink_address) sb =
    if transfer_fee_of x =? 0 then view_balance (t, fee_sink_address) sa
    else get_token_balance t fee_sink_address sa + transfer_fee_of x.
Proof.
  intros ([Hty Hx] & Ht & Ha & Hf & Hto) Ho Hwf Happ. unfold apply_transaction in Happ.
  rewrite Hty in Happ. unfold apply_token_transfer_tx in Happ. rewrite Hx in Happ. cbn [ok_or] in Happ.
  apply bind_ok in Happ as (s1 & y & [-> Hy]%lift_ok & Happ). injection Hy as <-. cbv zeta in Happ.
  rewrite Ht in Happ. apply bind_ok in Happ as (s1 & [] & [-> _]%guard_ok & Happ).
  apply bind_ok in Happ as (s1 & f & Htr & Happ).
  apply bind_ok in Happ as (s2 & n & Hinc & [-> _]%ret_ok).
  apply token_transfer_ok in Htr as (-> & _ & (Ho1 & Hd1 & _ & _ & Hv)); try done;
    [|by case_match; vm_compute].
  fold (transfer_fee_of x) in Hv.
  destruct (increment_nonce_run t (tt_from x) s1 Ho1) as (s3 & n' & Hinc' & Ho3 & Hd3 & Hk & _).
  rewrite Hinc in Hinc'. injection Hinc' as <- _. split_and!; [done|congruence|].
  rewrite (view_balance_keeps s1 s2) by done. rewrite Hv. unfold transfer_writes, debit_writes, credit_writes.
  rewrite !last_written_app.
  assert (∀ (c : bool) a v old, a ≠ fee_sink_address →
    last_written (t, fee_sink_address) (if c then [] else [((t, a), v)]) old = old) as Hskip.
  { intros [] a v old Hne; cbn; [done|]. rewrite bool_decide_false; [done|]. congruence. }
  rewrite (Hskip _ (tt_to x)), (Hskip _ (tt_from x)) by done. case_match; cbn; [done|]. by rewrite bool_decide_true.
Qed.

Lemma transfers_sink t txs xs i h tt sa sb tt' B :
  Forall2 (pays_fee t) txs xs → open sa → wf_balances sa →
  get_token_balance t fee_sink_address sa = B →
  apply_txs ex txs i h tt sa = (sb, Ok tt') →
  view_balance (t, fee_sink_address) sb =
    B + last_fee xs (view_balance (t, fee_sink_address) sa - B).
Proof.
  intros Hall. revert i tt sa. induction Hall as [|tx x txs xs Hx _ IH]; intros i tt sa Ho Hwf HB;
    cbn [apply_txs].
  - intros [-> _]%ret_ok. cbn. lia.
  - intros (s1 & t1 & (acc & o & _ & _ & _ & _ & Happ & _)%apply_one_ok & Hs)%bind_ok.
    destruct (transfer_sink _ _ _ _ _ _ _ Hx Ho Hwf Happ) as (Ho1 & Hd1 & Hv1).
    apply IH in Hs; [|done|by eapply wf_balances_db|by rewrite <- HB; apply get_token_balance_db].
    rewrite Hs, Hv1. unfold last_fee. cbn [foldl]. f_equal. f_equal. case_match; lia.
Qed.

(** Of the fees of the token transfers in a block only the last is kept.  Each
    transfer credits the fee sink on top of its balance before the block, and the
    last write wins: after an accepted block of transfers of one token the sink
    has gained the last non-zero fee, not their sum. *)
Theorem last_transfer_fee_wins t block xs s s' o :
  closed s → typed (db s) → height (header block) ≠ 0 →
  Forall2 (pays_fee t) (transactions block) xs → apply_block ex block s = (s', Ok o) →
  get_token_balance t fee_sink_address s' =
    get_token_balance t fee_sink_address s + last_fee xs 0.
Proof.
  intros Hcl Hty Hh Hall Hb. apply apply_block_cases in Hb as [_ (bt & Hacc)]; [|done].
  destruct (acc_run _ _ _ _ _ _ Hacc)
    as (s1 & s2 & tt & cb & rest & Hd1 & [Ha1 Hb1] & Htx & Hrun & Hbt & Hd2 & _).
  unfold apply_transactions in Hrun. rewrite (proj2 (Z.eqb_neq _ _) Hh) in Hrun. cbv zeta in Hrun.
  apply bind_ok in Hrun as (s3 & t3 & Htxs & Hcb). rewrite Htx in Hall.
  destruct cb as [tx|].
  { apply Forall2_cons_inv_l in Hall as (x & xs' & ([Htt _] & _) & _).
    apply block_coinbase_is in Hcb as (Hc%bool_decide_eq_true & _). congruence. }
  apply ret_ok in Hcb as [-> _]. change (option_list None ++ rest) with rest in Hall.
  assert (∀ s0, db s0 = db s → wf_balances s0) as Hwf
    by (intros s0 Hd0 t' a; by apply (typed_balance (db s))).
  assert (view_balance (t, fee_sink_address) s1 = get_token_balance t fee_sink_address s) as Hv1.
  { unfold view_balance, view_balances, batch_of, get_token_balance. rewrite Hb1, Hd1. cbn.
    by rewrite apply_batch_lookup, lookup_empty. }
  eapply (transfers_sink t rest xs _ _ _ s1 s3 _ (get_token_balance t fee_sink_address s)) in Htxs;
    [|done|by split; [|eexists]|by apply Hwf|by apply get_token_balance_db].
  rewrite Hv1, Z.sub_diag in Htxs. rewrite <- Htxs.
  unfold get_token_balance, view_balance, view_balances, batch_of.
  by rewrite (acc_db _ _ _ _ _ _ Hacc), Hbt, Hd2.
Qed.

End Value.

(** ** Examples *)

#[local] Existing Instances demo_hash demo_chain_params demo_env.

Lemma demo_limits :
  wf_limits (limits demo_executor) ∧ within (limits demo_executor) BlockAccumulator_new.
Proof. by vm_compute. Qed.

Lemma demo_height2 : height (header demo_block2) ≠ 0.
Proof. done. Qed.

Lemma accepted_block_within_limits_witness :
  lenZ (transactions demo_block2) <= 10000 ∧
  is_ok (apply_block demo_executor demo_block2 (demo_state 2)).2 = true.
Proof.
  destruct demo_block2_run as [o Ho]. split; [|by rewrite Ho].
  pose proof (accepted_block_within_limits demo_executor demo_block2 (demo_state 2) (demo_state 3) o
    (proj1 demo_limits) (proj2 demo_limits) (demo_closed 2 ltac:(lia)) demo_height2 Ho) as Hl.
  destruct Hl as (_ & _ & _ & _ & Hl). exact Hl.
Defined.

Lemma demo_disjoint : disjoint_txs (transactions demo_block2) (db (demo_state 2)).
Proof.
  assert (output_hashes (transactions demo_block2) = [1005; 1006]) as Hh by (by vm_compute).
  assert (map_Forall (λ op _, op.1 = 1001) (utxos (db (demo_state 2)))) as Hall
    by (apply (bool_decide_unpack _); by vm_compute).
  constructor.
  - apply (bool_decide_unpack _). by vm_compute.
  - apply (bool_decide_unpack _). by vm_compute.
  - rewrite Hh. intros hash Hin i. apply eq_None_not_Some. intros [u Hu]. apply Hall in Hu.
    cbn in Hu. subst. rewrite !elem_of_cons, elem_of_nil in Hin. lia.
  - repeat constructor; by vm_compute.
  - repeat constructor; by vm_compute.
  - by vm_compute.
Qed.

Lemma block_issues_reward_witness :
  utxo_value (utxos (db (demo_state 3))) = utxo_value (utxos (db (demo_state 2))) + 50000000.
Proof.
  destruct demo_block2_run as [o Ho].
  pose proof (block_issues_reward demo_executor demo_block2 (demo_state 2) (demo_state 3) o
    (demo_closed 2 ltac:(lia)) demo_height2 demo_disjoint Ho) as [_ Hv].
  exact Hv.
Defined.

Lemma demo_typed n : (n <= 4)%nat → typed (db (demo_state n)).
Proof.
  intros Hn. eapply (chain_typed_at demo_executor (take n demo_blocks));
    [by vm_compute|by apply demo_chain|apply Forall_take, demo_blocks_wf].
Qed.

Lemma last_transfer_fee_wins_witness :
  get_token_balance 5 99 (demo_state 4) =
    get_token_balance 5 99 (demo_state 3) + 30000 * SOV_FEE_RATE_BPS / 10000.
Proof.
  destruct demo_block3_run as [o Ho].
  pose proof (last_transfer_fee_wins demo_executor 5 demo_block3
    [{| tt_token_id := 5; tt_from := 20; tt_to := 21; tt_amount := 20000; tt_nonce := 1 |};
     {| tt_token_id := 5; tt_from := 30; tt_to := 31; tt_amount := 30000; tt_nonce := 0 |}]
    (demo_state 3) (demo_state 4) o (demo_closed 3 ltac:(lia)) (demo_typed 3 ltac:(lia)) ltac:(done)) as Hf.
  apply Hf; [|exact Ho]. repeat constructor; by vm_compute.
Defined.
