(* ===== verification/Recovery.v ===== *)
(** * Crashes during a commit (lib-blockchain storage)

    [SledStore::commit_block] of [lib-blockchain/src/storage/sled_store.rs]
    applies the batches of its 23 trees one after the other, each atomically, and
    writes the height last.  [partial_commit n] is the committed state when the
    node stops after [n] of these steps, and [restarted] the store it then opens.

    The theorems: with all its steps the sequence is [commit_tables] of
    [Store.v]; and the recovery the code relies on, applying the block again,
    does not work: a block with a native transfer is refused for ever once the
    UTXO tree was written, and one with a token transfer is charged twice when
    the balances were written and the nonces were not. *)
From stdpp Require Import base tactics numbers list option gmap fin_maps strings.
From S2P Require Import Prelude Fees Curve CurveState Merkle TokenCore Store Codec Ledger.
From S2P Require Import CurveExec Memo Transaction Executor Frame Blocks BlockValue.

(** The new tree when its step [k] is among the first [n]. *)
Definition pick {A : Type} (n k : nat) (new old : A) : A := if (k <? n)%nat then new else old.

(** The state after the first [n] steps; the positions are those of the
    [apply_batch] calls, [latest_height] is step 23. *)
Definition partial_commit (n : nat) (d : Tables) (b : PendingBatch) (h : Z) : Tables :=
  let d' := commit_tables d b h in {|
  blocks_by_height := pick n 0 (blocks_by_height d') (blocks_by_height d);
  utxos := pick n 2 (utxos d') (utxos d);
  utxo_merkle_leaves := pick n 3 (utxo_merkle_leaves d') (utxo_merkle_leaves d);
  utxo_merkle_index := pick n 4 (utxo_merkle_index d') (utxo_merkle_index d);
  utxo_merkle_next := pick n 5 (utxo_merkle_next d') (utxo_merkle_next d);
  utxo_merkle_nodes := pick n 6 (utxo_merkle_nodes d') (utxo_merkle_nodes d);
  wallets := pick n 8 (wallets d') (wallets d);
  token_balances := pick n 9 (token_balances d') (token_balances d);
  token_nonces := pick n 10 (token_nonces d') (token_nonces d);
  token_contracts := pick n 11 (token_contracts d') (token_contracts d);
  token_supply := pick n 12 (token_supply d') (token_supply d);
  cbe_economic_state := pick n 16 (cbe_economic_state d') (cbe_economic_state d);
  contract_code := pick n 17 (contract_code d') (contract_code d);
  contract_storage := pick n 18 (contract_storage d') (contract_storage d);
  cbe_accounts := pick n 21 (cbe_accounts d') (cbe_accounts d);
  dao_stakes := pick n 22 (dao_stakes d') (dao_stakes d);
  latest_height := pick n 23 (latest_height d') (latest_height d) |}.

(** The store opened on a database. *)
Definition restarted (d : Tables) : SledStore := {|
  db := d; tx_active := false; tx_height := 0; tx_utxo_merkle_next_index := 0; tx_batch := None |}.

(** What is written so far is a prefix of the commit: no step at first, all of it
    after the last, and the height unchanged in between, so that the node expects
    the same block again. *)
Lemma partial_commit_spec n d b h :
  partial_commit 0 d b h = d ∧ partial_commit 24 d b h = commit_tables d b h ∧
  ((n <= 23)%nat → get_expected_height (restarted (partial_commit n d b h)) =
                   get_expected_height (restarted d)).
Proof.
  split_and!; [by destruct d|done|]. intros Hn. unfold get_expected_height, restarted, partial_commit. cbn.
  unfold pick. by rewrite (proj2 (Nat.ltb_ge 23 n)) by lia.
Qed.

Section Recovery.
Context `{HP : PairHash, HC : ChainParams, HE : ExecutorEnv} (ex : BlockExecutor).

(** The state a node restarts with, when it stops after [n] steps of the commit of
    an accepted block. *)
Definition crashed (n : nat) (block : Block) (s sc : SledStore) : Prop :=
  ∃ s' o b, accepted ex block s s' o b ∧
    sc = restarted (partial_commit n (db s)
           (upd_blocks <[height (header block) := Some (block_hash (header block))]> b)
           (height (header block))).

Lemma missing_input_spec ops s op :
  missing_input ops s = None → op ∈ ops → is_Some (get_utxo op s).
Proof.
  induction ops as [|op' ops IH]; cbn; [by intros _ ?%not_elem_of_nil|].
  destruct (get_utxo op' s) eqn:Hu; [|done]. intros Hn [->|Hin]%elem_of_cons; [by eexists|by apply IH].
Qed.

Lemma ran_native tx h s b sa sb o op :
  is_native tx = true → ran ex tx h s b sa sb o → op ∈ outpoint_of <$> inputs tx →
  is_Some (utxos (db s) !! op).
Proof.
  intros Hn%bool_decide_eq_true (Hd & _ & _ & Hsf & _) Hin.
  unfold validate_tx_stateful in Hsf. rewrite Hn in Hsf.
  apply bind_ok in Hsf as (s1 & m & [-> ->]%gets_ok & Hsf).
  destruct (missing_input _ sa) eqn:Hm; [done|]. rewrite <- Hd.
  by apply (missing_input_spec _ _ _ Hm).
Qed.

(** A block interrupted during its commit cannot be applied again.  When the
    node stops after the UTXO tree was written and before the height was, it
    expects the same block again, but if the block spends anything, re-applying
    it is refused whenever it is tried, since its inputs are gone. *)
Theorem interrupted_block_refused n block s sc tx :
  closed s → crashed n block s sc → (3 <= n <= 23)%nat →
  height (header block) ≠ 0 → disjoint_txs (transactions block) (db s) →
  tx ∈ transactions block → is_native tx = true → inputs tx ≠ [] →
  get_expected_height sc = height (header block) ∧
  ∃ sc' e, apply_block ex block sc = (sc', Err e) ∧ db sc' = db sc.
Proof.
  intros Hcl (s' & o & b & Hacc & ->) Hn Hh Hdj Hin Hnat Hins.
  set (bt := upd_blocks _ b). set (h := height (header block)). split.
  { rewrite (proj2 (proj2 (partial_commit_spec n (db s) bt h))) by lia.
    symmetry. apply (acc_height _ _ _ _ _ _ Hacc). }
  destruct (apply_block ex block (restarted (partial_commit n (db s) bt h))) as [sc' r] eqn:Hb.
  apply apply_block_cases in Hb as [_ Hb]; [|done]. destruct r as [o'|e]; [|by exists sc', e].
  destruct Hb as [b' Hacc']. exfalso.
  assert (is_coinbase tx = false) as Hncb.
  { destruct (is_coinbase tx) eqn:Hc; [|done]. apply coinbase_utxos in Hc as [_ Hc]. congruence. }
  destruct (accepted_ran _ _ _ _ _ _ tx Hacc') as (sa & sb & o2 & Hran); [done|done|done|].
  destruct (inputs tx) as [|i ins] eqn:Hi; [done|].
  assert (outpoint_of i ∈ outpoint_of <$> inputs tx) as Hop by (rewrite Hi; by left).
  destruct (ran_native _ _ _ _ _ _ _ _ Hnat Hran Hop) as [u Hu]. cbn in Hu.
  unfold pick in Hu. rewrite (proj2 (Nat.ltb_lt 2 n)) in Hu by lia.
  assert (utxos (db s') !! outpoint_of i = None) as Hnone.
  { eapply accepted_spent; [exact Hacc|done|done|]. unfold native_inputs.
    apply list_elem_of_bind. exists tx. by rewrite Hnat. }
  rewrite (acc_db _ _ _ _ _ _ Hacc) in Hnone. cbn in Hnone. unfold bt in Hu. congruence.
Qed.

(** An accepted block with one token transfer takes the amount from the sender. *)
Lemma single_transfer_debits block tx x s s' o b :
  accepted ex block s s' o b → wf_balances s → height (header block) ≠ 0 →
  transactions block = [tx] → is_transfer tx x → in_u 128 (tt_amount x) →
  tt_from x ≠ tt_to x → tt_from x ≠ fee_sink_address →
  let t := canonical_token (tt_token_id x) in
  get_token_balance t (tt_from x) s' = get_token_balance t (tt_from x) s - tt_amount x.
Proof.
  intros Hacc Hwf Hh Htx Hx Ha Hto Hsink t.
  destruct (acc_run _ _ _ _ _ _ Hacc)
    as (s1 & s2 & tt & cb & rest & Hd1 & [Ha1 Hb1] & Htxs & Hrun & Hbt & Hd2 & _).
  unfold apply_transactions in Hrun. rewrite (proj2 (Z.eqb_neq _ _) Hh) in Hrun. cbv zeta in Hrun.
  apply bind_ok in Hrun as (s3 & t3 & Hrun & Hcb). rewrite Htx in Htxs. pose proof Hx as [Hty Hdata].
  destruct cb as [tx'|]; cbn in Htxs.
  { injection Htxs as <- <-. apply block_coinbase_is in Hcb as (Hc%bool_decide_eq_true & _). congruence. }
  subst rest. apply ret_ok in Hcb as [-> _]. cbn [apply_txs] in Hrun.
  apply bind_ok in Hrun as (s4 & t4 & (acc & o' & _ & _ & _ & _ & Happ & _)%apply_one_ok & [-> _]%ret_ok).
  unfold apply_transaction in Happ. rewrite Hty in Happ. unfold apply_token_transfer_tx in Happ.
  rewrite Hdata in Happ. cbn [ok_or] in Happ.
  apply bind_ok in Happ as (s5 & y & [-> Hy]%lift_ok & Happ). injection Hy as <-. cbv zeta in Happ.
  apply bind_ok in Happ as (s5 & [] & [-> Hnz]%guard_ok & Happ).
  apply bind_ok in Happ as (s5 & f & Htr & Happ).
  apply bind_ok in Happ as (s6 & n & Hinc & [-> _]%ret_ok). int_inv.
  assert (open s1) as Ho1 by (by split; [|eexists]).
  apply token_transfer_ok in Htr as (-> & _ & (Ho5 & Hd5 & _ & _ & Hv)); try done;
    [|by apply (wf_balances_db s)|by case_match; vm_compute].
  destruct (increment_nonce_run t (tt_from x) s5 Ho5) as (s7 & n' & Hinc' & Ho3 & Hd3 & Hk & _).
  fold t in Hinc. rewrite Hinc in Hinc'. injection Hinc' as <- _.
  assert (get_token_balance t (tt_from x) s' = view_balance (t, tt_from x) s6) as ->.
  { unfold get_token_balance, view_balance, view_balances, batch_of.
    by rewrite (acc_db _ _ _ _ _ _ Hacc), Hbt, Hd2. }
  rewrite (view_balance_keeps s5 s6), Hv by done. fold t. unfold transfer_writes, credit_writes.
  rewrite !last_written_app.
  assert (∀ (c : bool) a v old, a ≠ tt_from x →
    last_written (t, tt_from x) (if c then [] else [((t, a), v)]) old = old) as Hskip.
  { intros [] a v old Hne; cbn; [done|]. rewrite bool_decide_false; [done|]. congruence. }
  rewrite (Hskip _ fee_sink_address), (Hskip _ (tt_to x)) by done. unfold debit_writes.
  rewrite (proj2 (Z.eqb_neq _ _) Hnz). cbn. rewrite bool_decide_true by done.
  by rewrite (get_token_balance_db _ _ s).
Qed.

(** A token transfer interrupted during its commit is charged twice.  When the
    node stops after the balances were written and before the nonces were, the
    same block is expected again, its transfer still has the expected nonce, and
    once it is applied again the sender has paid the amount twice. *)
Theorem interrupted_transfer_charged_twice n block tx x s sc sc' o :
  closed s → typed_at n (db s) → in_u 128 (block_reward ex) → crashed 10 block s sc →
  height (header block) ≠ 0 → transactions block = [tx] → wf_tx tx → is_transfer tx x →
  tt_from x ≠ tt_to x → tt_from x ≠ fee_sink_address →
  let t := canonical_token (tt_token_id x) in
  get_token_nonce t (tt_from x) sc = tt_nonce x ∧
  (apply_block ex block sc = (sc', Ok o) →
   get_token_balance t (tt_from x) sc' = get_token_balance t (tt_from x) s - 2 * tt_amount x).
Proof.
  intros Hcl Hty Hr (s' & o1 & b & Hacc & ->) Hh Htx Hwftx Hx Hto Hsink t.
  assert (in_u 128 (tt_amount x)) as Ha.
  { destruct Hwftx as (_ & _ & Hp). destruct Hx as [_ Hx]. unfold token_transfer_data in Hx.
    by destruct (payload tx); simplify_eq. }
  assert (wf_balances s) as Hwf by (intros t' a; apply (typed_balance (db s)); [apply Hty|done]).
  pose proof (single_transfer_debits _ _ _ _ _ _ _ Hacc Hwf Hh Htx Hx Ha Hto Hsink) as H1.
  fold t in H1. split.
  { destruct (accepted_ran _ _ _ _ _ _ tx Hacc) as (sa & sb & o2 & Hran); [done|by rewrite Htx; left| |].
    { unfold is_coinbase. by rewrite (proj1 Hx). }
    by destruct (ran_transfer _ _ _ _ _ _ _ _ _ Hx Hran) as [-> _]. }
  set (sc := restarted _). intros Hb.
  apply apply_block_cases in Hb as [_ (b' & Hacc')]; [|done].
  assert (∀ t a, get_token_balance t a sc = get_token_balance t a s') as Hsc
    by (intros t' a; unfold get_token_balance; by rewrite (acc_db _ _ _ _ _ _ Hacc)).
  assert (wf_balances sc) as Hwf'.
  { intros t' a. rewrite Hsc. apply (typed_balance (db s')); [|done].
    eapply (accepted_typed ex n); [exact Hacc|done|done|]. rewrite Htx. by constructor. }
  pose proof (single_transfer_debits _ _ _ _ _ _ _ Hacc' Hwf' Hh Htx Hx Ha Hto Hsink) as H2.
  fold t in H2. rewrite H2, Hsc, H1. lia.
Qed.

End Recovery.

(** ** Examples *)

#[local] Existing Instances demo_hash demo_chain_params demo_env.

(** A node that stops during the commit of a block. *)
Definition demo_batch (block : Block) (s : SledStore) : PendingBatch :=
  let s1 := (begin_block (height (header block)) s).1 in
  match split_coinbase (transactions block) with
  | Ok (cb, rest) =>
      batch_of (apply_transactions demo_executor cb rest (height (header block)) s1).1
  | Err _ => PendingBatch_new
  end.

Definition demo_crash (n : nat) (block : Block) (s : SledStore) : SledStore :=
  restarted (partial_commit n (db s)
    (upd_blocks <[height (header block) := Some (block_hash (header block))]> (demo_batch block s))
    (height (header block))).

Lemma demo_crashed n block s :
  closed s → is_ok (apply_block demo_executor block s).2 = true →
  crashed demo_executor n block s (demo_crash n block s).
Proof.
  intros Hcl Hok. destruct (block_run _ _ _ Hok) as [o Ho].
  pose proof Ho as Hb. apply apply_block_cases in Hb as [_ (b & Hacc)]; [|done].
  exists (apply_block demo_executor block s).1, o, b. split; [exact Hacc|].
  destruct (acc_batch _ _ _ _ _ _ Hacc) as (s1 & s2 & t & cb & rest & H1 & H2 & H3 & H4).
  unfold demo_crash, demo_batch, batch_of. rewrite H1, H2. cbn [fst]. rewrite H3. cbn [fst]. by rewrite H4.
Qed.

Lemma demo_crashed2 :
  crashed demo_executor 3 demo_block2 (demo_state 2) (demo_crash 3 demo_block2 (demo_state 2)).
Proof. apply demo_crashed; [apply demo_closed; lia|]. by vm_compute. Qed.

Lemma demo_spends2 :
  demo_spend 6 1001 [11; 12] 500 ∈ transactions demo_block2 ∧
  is_native (demo_spend 6 1001 [11; 12] 500) = true ∧ inputs (demo_spend 6 1001 [11; 12] 500) ≠ [].
Proof. split; [cbn; rewrite !elem_of_cons; auto|]. by vm_compute. Qed.

Lemma interrupted_block_refused_witness :
  ∃ sc' e, apply_block demo_executor demo_block2 (demo_crash 3 demo_block2 (demo_state 2)) = (sc', Err e).
Proof.
  pose proof (interrupted_block_refused demo_executor 3 demo_block2 (demo_state 2)
    (demo_crash 3 demo_block2 (demo_state 2)) (demo_spend 6 1001 [11; 12] 500)
    (demo_closed 2 ltac:(lia)) demo_crashed2 ltac:(lia) demo_height2 demo_disjoint
    (proj1 demo_spends2) (proj1 (proj2 demo_spends2)) (proj2 (proj2 demo_spends2)))
    as [_ (sc' & e & He & _)].
  exists sc', e. exact He.
Defined.

Definition demo_single : Block := demo_block_at 3 [demo_transfer 9 20 21 20000 1].

Definition demo_sc : SledStore := demo_crash 10 demo_single (demo_state 3).

Lemma demo_single_crashed : crashed demo_executor 10 demo_single (demo_state 3) demo_sc.
Proof. apply demo_crashed; [apply demo_closed; lia|]. by vm_compute. Qed.

Lemma demo_single_replayed :
  ∃ o, apply_block demo_executor demo_single demo_sc = ((apply_block demo_executor demo_single demo_sc).1, Ok o).
Proof. apply block_run. by vm_compute. Qed.

Lemma demo_single_wf :
  height (header demo_single) ≠ 0 ∧ wf_tx (demo_transfer 9 20 21 20000 1) ∧
  in_u 128 (block_reward demo_executor).
Proof. by vm_compute. Qed.

Lemma interrupted_transfer_charged_twice_witness :
  get_token_balance 5 20 (apply_block demo_executor demo_single demo_sc).1 =
    get_token_balance 5 20 (demo_state 3) - 2 * 20000.
Proof.
  destruct demo_single_replayed as [o Ho].
  pose proof (chain_typed_at demo_executor (take 3 demo_blocks) (demo_state 3)
    (proj2 (proj2 demo_single_wf)) (demo_chain 3 ltac:(lia)) (Forall_take _ _ _ demo_blocks_wf)) as Ht.
  pose proof (interrupted_transfer_charged_twice demo_executor _ demo_single
    (demo_transfer 9 20 21 20000 1)
    {| tt_token_id := 5; tt_from := 20; tt_to := 21; tt_amount := 20000; tt_nonce := 1 |}
    (demo_state 3) demo_sc (apply_block demo_executor demo_single demo_sc).1 o
    (demo_closed 3 ltac:(lia)) Ht (proj2 (proj2 demo_single_wf)) demo_single_crashed
    (proj1 demo_single_wf) eq_refl (proj1 (proj2 demo_single_wf)) (conj eq_refl eq_refl)
    ltac:(discriminate) ltac:(discriminate)) as [_ Htwice].
  exact (Htwice Ho).
Defined.
