(* ===== verification/Ubi.v ===== *)
(** * The state of the treasury kernel (lib-blockchain contracts/treasury_kernel)

    [KernelState] of [types.rs] and [state.rs]: the distribution of the basic
    income, with the five checks of [validation.rs], the loop of [ubi_engine.rs],
    the events of [events.rs] and the registry of citizens
    ([contracts/governance/citizen_role.rs]); and the reference value of SOV
    ([srv_types.rs]).  Identifiers are numbers.

    The theorems: a citizen is paid at most once in an epoch and an epoch never
    pays more than its pool, over any sequence of batches, and the supply of the
    token grows by exactly what the kernel records; the limit on changes of the
    reference value is checked modulo 2^16. *)
From stdpp Require Import base tactics numbers list option gmap fin_maps strings.
From S2P Require Import Prelude Codec Memo TokenCore.

(** Blake3. *)
Class KernelHash : Type := { kernel_blake3 : list Z → Z }.

(** ** Citizens *)

Record CitizenRole : Type := {
  citizen_id : Z; role_type : Z; citizenship_epoch : Z; verified_at : Z;
  revoked : bool; revoked_epoch : option Z;
}.

Definition CitizenRole_new (id epoch at_height : Z) : CitizenRole := {|
  citizen_id := id; role_type := 0; citizenship_epoch := epoch; verified_at := at_height;
  revoked := false; revoked_epoch := None |}.

Inductive CitizenRoleError : Type := CitizenAlreadyRevoked | CitizenAlreadyExists | CitizenNotFound.

Record CitizenRegistry : Type := {
  citizens : gmap Z CitizenRole; citizen_list : list Z; total_registered : Z;
  citizens_active : Z;
}.

Definition register_citizen (role : CitizenRole) (r : CitizenRegistry)
    : result CitizenRegistry CitizenRoleError :=
  if bool_decide (is_Some (citizens r !! citizen_id role)) then Err CitizenAlreadyExists
  else Ok {| citizens := <[citizen_id role := role]> (citizens r);
             citizen_list := citizen_list r ++ [citizen_id role];
             total_registered := wadd 64 (total_registered r) 1;
             citizens_active := wadd 64 (citizens_active r) 1 |}.

Definition revoke_citizen (id epoch : Z) (r : CitizenRegistry)
    : result CitizenRegistry CitizenRoleError :=
  let? c := ok_or (citizens r !! id) CitizenNotFound in
  if revoked c then Err CitizenAlreadyRevoked
  else Ok {| citizens := <[id := {| citizen_id := citizen_id c; role_type := role_type c;
               citizenship_epoch := citizenship_epoch c; verified_at := verified_at c;
               revoked := true; revoked_epoch := Some epoch |}]> (citizens r);
             citizen_list := citizen_list r; total_registered := total_registered r;
             citizens_active := wsub 64 (citizens_active r) 1 |}.

(** ** The reference value *)

Record SRVUpdateRecord : Type := {
  rec_height : Z; rec_epoch : Z; rec_new_srv : Z; rec_previous_srv : Z;
  rec_committed_value_usd : Z; rec_circulating_supply_sov : Z; rec_proposal_id : Z;
}.

Record SRVState : Type := {
  current_srv : Z; committed_value_usd : Z; circulating_supply_sov : Z;
  stability_multiplier_bps : Z; max_change_bps : Z; last_update_height : Z;
  last_update_epoch : Z; update_history : list SRVUpdateRecord; emergency_paused : bool;
}.

Inductive SRVError : Type :=
| ChangeExceedsLimit | InvalidCirculatingSupply | InvalidStabilityMultiplier | SRVPaused
| InvalidProposal | SRVOverflow | SRVUnauthorized.

Definition SRVState_new (srv committed supply multiplier : Z) : SRVState := {|
  current_srv := srv; committed_value_usd := committed; circulating_supply_sov := supply;
  stability_multiplier_bps := multiplier; max_change_bps := 100; last_update_height := 0;
  last_update_epoch := 0; update_history := []; emergency_paused := false |}.

Definition SRVState_new_genesis : SRVState :=
  SRVState_new 2180000 109000000 50000000000000000 10000.

(** The factor of the source is [10_000_000_000_000_00], which is 10^15. *)
Definition calculate_srv (committed supply multiplier : Z) : result Z SRVError :=
  if supply =? 0 then Err InvalidCirculatingSupply
  else if multiplier =? 0 then Err InvalidStabilityMultiplier else
  let? scaled := ok_or (checked_mul 128 committed 1000000000000000) SRVOverflow in
  let? base_srv := ok_or (checked_div scaled supply) SRVOverflow in
  let? product := ok_or (checked_mul 128 base_srv multiplier) SRVOverflow in
  let? srv := ok_or (checked_div product 10000) SRVOverflow in
  Ok (as_u 64 srv).

Definition validate_proposed_change (proposed_srv : Z) (s : SRVState) : result unit SRVError :=
  if emergency_paused s then Err SRVPaused
  else if current_srv s =? 0 then Ok tt else
  let change := if current_srv s <? proposed_srv then proposed_srv - current_srv s
                else current_srv s - proposed_srv in
  let? scaled := ok_or (checked_mul 128 change 10000) SRVOverflow in
  let? bps := ok_or (checked_div scaled (current_srv s)) SRVOverflow in
  if max_change_bps s <? as_u 16 bps then Err ChangeExceedsLimit else Ok tt.

Definition apply_update (committed supply proposal_id height epoch : Z) (s : SRVState)
    : result (SRVState * Z) SRVError :=
  let? new_srv := calculate_srv committed supply (stability_multiplier_bps s) in
  let? _v := validate_proposed_change new_srv s in
  let history := update_history s ++ [{| rec_height := height; rec_epoch := epoch;
    rec_new_srv := new_srv; rec_previous_srv := current_srv s; rec_committed_value_usd := committed;
    rec_circulating_supply_sov := supply; rec_proposal_id := proposal_id |}] in
  Ok ({| current_srv := new_srv; committed_value_usd := committed;
         circulating_supply_sov := supply;
         stability_multiplier_bps := stability_multiplier_bps s;
         max_change_bps := max_change_bps s; last_update_height := height;
         last_update_epoch := epoch;
         update_history := if (100 <? length history)%nat then tail history else history;
         emergency_paused := emergency_paused s |}, new_srv).

Definition with_srv_controls (multiplier max_change : Z) (paused : bool) (s : SRVState) : SRVState := {|
  current_srv := current_srv s; committed_value_usd := committed_value_usd s;
  circulating_supply_sov := circulating_supply_sov s; stability_multiplier_bps := multiplier;
  max_change_bps := max_change; last_update_height := last_update_height s;
  last_update_epoch := last_update_epoch s; update_history := update_history s;
  emergency_paused := paused |}.

Definition update_stability_multiplier (multiplier : Z) (s : SRVState) : result SRVState SRVError :=
  if multiplier =? 0 then Err InvalidStabilityMultiplier
  else Ok (with_srv_controls multiplier (max_change_bps s) (emergency_paused s) s).

(** Cents for an amount of SOV, and back; [None] is an error. *)
Definition sov_to_usd (sov_amount : Z) (s : SRVState) : option Z :=
  if current_srv s =? 0 then None else
  match checked_mul 128 sov_amount (current_srv s) with
  | Some p => Some (as_u 64 (p / 10 ^ 14))
  | None => None
  end.

Definition usd_to_sov (usd_cents : Z) (s : SRVState) : option Z :=
  if current_srv s =? 0 then None else
  match checked_mul 128 usd_cents (10 ^ 14) with
  | Some p => Some (as_u 64 (p / current_srv s))
  | None => None
  end.

(** ** The state of the kernel *)

Inductive RejectionReason : Type :=
| NotACitizen | AlreadyRevoked | AlreadyClaimedEpoch | PoolExhausted | EligibilityNotMet | MintFailed.

Definition reason_code (r : RejectionReason) : nat :=
  match r with
  | NotACitizen => 1 | AlreadyRevoked => 2 | AlreadyClaimedEpoch => 3 | PoolExhausted => 4
  | EligibilityNotMet => 5 | MintFailed => 6
  end.

Inductive KernelUbiEvent : Type :=
| Distributed (citizen amount epoch kernel_txid : Z)
| ClaimRejected (citizen epoch : Z) (reason : RejectionReason) (timestamp : Z)
| PoolStatus (epoch eligible_count total_distributed remaining_capacity : Z).

Record KernelStats : Type := {
  total_claims_processed : Z; total_rejections : Z; total_sov_distributed : Z;
  rejections_by_reason : list Z;
}.

Record KernelState : Type := {
  already_claimed : gmap Z (gmap Z bool); total_distributed : gmap Z Z;
  last_processed_epoch : option Z; stats : KernelStats; ubi_events : list KernelUbiEvent;
  srv_state : SRVState;
}.

Definition KernelState_new : KernelState := {|
  already_claimed := ∅; total_distributed := ∅; last_processed_epoch := None;
  stats := {| total_claims_processed := 0; total_rejections := 0; total_sov_distributed := 0;
              rejections_by_reason := replicate 5 0 |};
  ubi_events := []; srv_state := SRVState_new_genesis |}.

Definition set_claimed (c : gmap Z (gmap Z bool)) (k : KernelState) : KernelState := {|
  already_claimed := c; total_distributed := total_distributed k;
  last_processed_epoch := last_processed_epoch k; stats := stats k; ubi_events := ubi_events k;
  srv_state := srv_state k |}.

Definition set_distributed (d : gmap Z Z) (s : KernelStats) (k : KernelState) : KernelState := {|
  already_claimed := already_claimed k; total_distributed := d;
  last_processed_epoch := last_processed_epoch k; stats := s; ubi_events := ubi_events k;
  srv_state := srv_state k |}.

Definition push_ubi_event (e : KernelUbiEvent) (k : KernelState) : KernelState := {|
  already_claimed := already_claimed k; total_distributed := total_distributed k;
  last_processed_epoch := last_processed_epoch k; stats := stats k;
  ubi_events := ubi_events k ++ [e]; srv_state := srv_state k |}.

Definition set_srv (s : SRVState) (k : KernelState) : KernelState := {|
  already_claimed := already_claimed k; total_distributed := total_distributed k;
  last_processed_epoch := last_processed_epoch k; stats := stats k; ubi_events := ubi_events k;
  srv_state := s |}.

Definition has_claimed (citizen epoch : Z) (k : KernelState) : bool :=
  default false (already_claimed k !! citizen ≫= (!!) epoch).

Definition mark_claimed (citizen epoch : Z) : M KernelState string unit :=
  k <- gets (λ k, k) ;;
  let epochs := default ∅ (already_claimed k !! citizen) in
  if bool_decide (is_Some (epochs !! epoch)) then
    modify (set_claimed (<[citizen := epochs]> (already_claimed k))) ;;;
    throw "already marked claimed"
  else modify (set_claimed (<[citizen := <[epoch := true]> epochs]> (already_claimed k))).

Definition get_distributed (epoch : Z) (k : KernelState) : Z :=
  default 0 (total_distributed k !! epoch).

Definition POOL_CAP_PER_EPOCH : Z := 1000000.

Definition check_pool_capacity (epoch amount : Z) (k : KernelState) : bool :=
  match checked_add 64 (get_distributed epoch k) amount with
  | Some total => total <=? POOL_CAP_PER_EPOCH
  | None => false
  end.

Definition add_distributed (epoch amount : Z) : M KernelState string unit :=
  k <- gets (λ k, k) ;;
  new_total <- lift (ok_or (checked_add 64 (get_distributed epoch k) amount) "Distribution overflow") ;;
  guard (new_total <=? POOL_CAP_PER_EPOCH) "Pool exhausted" ;;;
  modify (set_distributed (<[epoch := new_total]> (total_distributed k)) (stats k)) ;;;
  sum <- lift (ok_or (checked_add 64 (total_sov_distributed (stats k)) amount) "Stats overflow") ;;
  modify (λ k, set_distributed (total_distributed k) {|
    total_claims_processed := total_claims_processed (stats k);
    total_rejections := total_rejections (stats k); total_sov_distributed := sum;
    rejections_by_reason := rejections_by_reason (stats k) |} k).

(** Reasons past the end of the array are counted in the total only. *)
Definition record_rejection (r : RejectionReason) (k : KernelState) : KernelState :=
  set_distributed (total_distributed k) {|
    total_claims_processed := total_claims_processed (stats k);
    total_rejections := wadd 64 (total_rejections (stats k)) 1;
    total_sov_distributed := total_sov_distributed (stats k);
    rejections_by_reason :=
      alter (λ n, wadd 64 n 1) (reason_code r - 1)%nat (rejections_by_reason (stats k)) |} k.

Definition record_success (k : KernelState) : KernelState :=
  set_distributed (total_distributed k) {|
    total_claims_processed := wadd 64 (total_claims_processed (stats k)) 1;
    total_rejections := total_rejections (stats k);
    total_sov_distributed := total_sov_distributed (stats k);
    rejections_by_reason := rejections_by_reason (stats k) |} k.

(** The consistency check made after loading. *)
Definition KernelState_is_valid (k : KernelState) : bool :=
  (total_rejections (stats k) =? as_u 64 (sumZ (rejections_by_reason (stats k)))) &&
  (total_rejections (stats k) <=? total_claims_processed (stats k)).

Definition prune_old_epochs (cutoff : Z) (k : KernelState) : KernelState :=
  let kept := (filter (λ p : Z * bool, cutoff <= p.1)) <$> already_claimed k in
  set_claimed (filter (λ p : Z * gmap Z bool, p.2 ≠ ∅) kept)
    (set_distributed (filter (λ p : Z * Z, cutoff <= p.1) (total_distributed k)) (stats k) k).

Definition needs_recovery (current_epoch : Z) (k : KernelState) : bool :=
  match last_processed_epoch k with Some last => last <? current_epoch | None => false end.

Definition next_epoch_to_process (k : KernelState) : Z :=
  match last_processed_epoch k with Some last => wadd 64 last 1 | None => 0 end.

(** ** Claims *)

Record UbiClaimRecorded : Type := {
  claim_citizen : Z; claim_amount : Z; claim_epoch : Z; claim_timestamp : Z;
}.

Definition validate_claim (c : UbiClaimRecorded) (reg : CitizenRegistry) (epoch : Z) (k : KernelState)
    : result unit RejectionReason :=
  let? citizen := ok_or (citizens reg !! claim_citizen c) NotACitizen in
  if revoked citizen then Err AlreadyRevoked
  else if epoch <? citizenship_epoch citizen then Err EligibilityNotMet
  else if has_claimed (claim_citizen c) epoch k then Err AlreadyClaimedEpoch
  else if negb (check_pool_capacity epoch (claim_amount c) k) then Err PoolExhausted
  else Ok tt.

Section Ubi.
Context `{KernelHash}.

Definition compute_ubi_kernel_txid (citizen epoch amount : Z) : Z :=
  kernel_blake3 (str_bytes "ubi:distributed:v1" ++ be_bytes 32 citizen ++
                 rev (be_bytes 8 epoch) ++ rev (be_bytes 8 amount)).

Definition emit_distributed (citizen amount epoch txid : Z) (k : KernelState) : KernelState :=
  if amount =? 0 then k else push_ubi_event (Distributed citizen amount epoch txid) k.

Definition emit_claim_rejected (citizen epoch : Z) (r : RejectionReason) (at_time : Z)
    (k : KernelState) : KernelState :=
  push_ubi_event (ClaimRejected citizen epoch r at_time) k.

Definition emit_pool_status (epoch count total remaining : Z) (k : KernelState) : KernelState :=
  if remaining =? saturating_sub POOL_CAP_PER_EPOCH total
  then push_ubi_event (PoolStatus epoch count total remaining) k else k.

(** The account the kernel makes up for an identifier. *)
Definition synthetic_key (id : Z) : PublicKey :=
  {| dilithium_pk := 0; kyber_pk := 0; key_id := id |}.

Definition reject (c : UbiClaimRecorded) (epoch : Z) (r : RejectionReason) (k : KernelState)
    : KernelState :=
  record_rejection r (emit_claim_rejected (claim_citizen c) epoch r epoch k).

(** One claim; returns whether it was paid. *)
Definition process_ubi_claim (reg : CitizenRegistry) (epoch : Z) (kernel_address : option PublicKey)
    (c : UbiClaimRecorded) (w : KernelState * option TokenContract)
    : (KernelState * option TokenContract) * bool :=
  let '(k, token) := w in
  match validate_claim c reg epoch k with
  | Err r => ((reject c epoch r k, token), false)
  | Ok _ =>
      match mark_claimed (claim_citizen c) epoch k with
      | (k, Err _) => ((reject c epoch AlreadyClaimedEpoch k, token), false)
      | (k, Ok _) =>
          let '(token, minted) :=
            match token, kernel_address with
            | Some t, Some a =>
                let '(t, r) := mint_kernel_only a (synthetic_key (claim_citizen c)) (claim_amount c) t in
                (Some t, is_ok r)
            | _, _ => (token, true)
            end in
          if minted then
            match add_distributed epoch (claim_amount c) k with
            | (k, Ok _) =>
                ((record_success (emit_distributed (claim_citizen c) (claim_amount c) epoch
                    (compute_ubi_kernel_txid (claim_citizen c) epoch (claim_amount c)) k), token), true)
            | (k, Err _) => ((reject c epoch MintFailed k, token), false)
            end
          else ((reject c epoch MintFailed k, token), false)
      end
  end.

(** A batch; returns the numbers of payments and rejections. *)
Definition process_ubi_claims_with_minting (claims : list UbiClaimRecorded) (reg : CitizenRegistry)
    (epoch : Z) (kernel_address : option PublicKey) (w : KernelState * option TokenContract)
    : (KernelState * option TokenContract) * (Z * Z) :=
  let '(k, token, counts) :=
    foldl (λ '(k, token, (n, m)) c,
      let '(w, paid) := process_ubi_claim reg epoch kernel_address c (k, token) in
      (w, if paid : bool then (wadd 64 n 1, m) else (n, wadd 64 m 1))) (w, (0, 0)) claims in
  let total := get_distributed epoch k in
  ((emit_pool_status epoch (as_u 64 (lenZ claims)) total
      (saturating_sub POOL_CAP_PER_EPOCH total) k, token), counts).
End Ubi.

(** ** Payments recorded by the events *)

Definition is_payment (citizen epoch : Z) (e : KernelUbiEvent) : bool :=
  match e with
  | Distributed c _ ep _ => (c =? citizen) && (ep =? epoch)
  | _ => false
  end.

(** How often a citizen was paid in an epoch. *)
Definition payments (citizen epoch : Z) (l : list KernelUbiEvent) : Z :=
  sumZ ((λ e, if is_payment citizen epoch e then 1 else 0) <$> l).

(** What was paid in an epoch. *)
Definition paid_in (epoch : Z) (l : list KernelUbiEvent) : Z :=
  sumZ ((λ e, match e with Distributed _ a ep _ => if ep =? epoch then a else 0 | _ => 0 end) <$> l).

Arguments payments : simpl never.
Arguments paid_in : simpl never.

Lemma payments_snoc c e l x :
  payments c e (l ++ [x]) = payments c e l + (if is_payment c e x then 1 else 0).
Proof. unfold payments. rewrite fmap_app, sumZ_app. simpl. lia. Qed.

Lemma paid_in_snoc e l x :
  paid_in e (l ++ [x]) = paid_in e l +
    match x with Distributed _ a ep _ => if ep =? e then a else 0 | _ => 0 end.
Proof. unfold paid_in. rewrite fmap_app, sumZ_app. simpl. lia. Qed.

Lemma has_claimed_mark c e k k' u c' e' :
  mark_claimed c e k = (k', Ok u) →
  has_claimed c' e' k' = ((c' =? c) && (e' =? e)) || has_claimed c' e' k.
Proof.
  unfold mark_claimed. intros Hm. monad_inv.
  destruct (bool_decide (is_Some _)); [by monad_inv|]. monad_inv. unfold has_claimed; simpl.
  destruct (Z.eqb_spec c' c) as [->|Hc]; [|by rewrite lookup_insert_ne].
  rewrite lookup_insert_eq. simpl. destruct (Z.eqb_spec e' e) as [->|He].
  - by rewrite lookup_insert_eq.
  - rewrite lookup_insert_ne by done. by destruct (already_claimed k !! c); simpl; rewrite ?lookup_empty.
Qed.

Lemma has_claimed_mark_err c e k k' er c' e' :
  mark_claimed c e k = (k', Err er) → has_claimed c' e' k' = has_claimed c' e' k.
Proof.
  unfold mark_claimed, bind, gets, modify, throw. simpl.
  destruct (bool_decide (is_Some _)); [|done]. intros [= <- _]. unfold has_claimed; simpl.
  destruct (decide (c' = c)) as [->|Hc]; [|by rewrite lookup_insert_ne].
  rewrite lookup_insert_eq. simpl. by destruct (already_claimed k !! c); simpl; rewrite ?lookup_empty.
Qed.

Lemma mark_claimed_frame c e k :
  total_distributed (mark_claimed c e k).1 = total_distributed k ∧
  ubi_events (mark_claimed c e k).1 = ubi_events k.
Proof. unfold mark_claimed, bind, gets. by destruct (bool_decide (is_Some _)). Qed.

Lemma check_pool_capacity_true epoch a k :
  check_pool_capacity epoch a k = true ↔
  get_distributed epoch k + a <= POOL_CAP_PER_EPOCH.
Proof.
  unfold check_pool_capacity. destruct (checked_add _ _ _) eqn:E; int_inv.
  - by rewrite Z.leb_le.
  - unfold umax, POOL_CAP_PER_EPOCH in *. split; [done|lia].
Qed.

(** After the capacity check the pool is always charged. *)
Lemma add_distributed_charges epoch a k :
  get_distributed epoch k + a <= POOL_CAP_PER_EPOCH →
  total_distributed (add_distributed epoch a k).1 =
    <[epoch := get_distributed epoch k + a]> (total_distributed k) ∧
  already_claimed (add_distributed epoch a k).1 = already_claimed k ∧
  ubi_events (add_distributed epoch a k).1 = ubi_events k.
Proof.
  intros Hle. unfold add_distributed, bind, gets, lift, guard, modify, ret.
  assert (checked_add 64 (get_distributed epoch k) a = Some (get_distributed epoch k + a)) as ->
    by (apply checked_add_Some; unfold umax, POOL_CAP_PER_EPOCH in *; lia).
  cbn [ok_or]. rewrite (proj2 (Z.leb_le _ _) Hle). by destruct (checked_add _ _ _).
Qed.

(** What one claim does to the books, whatever its outcome: it may mark the citizen,
    then charge the pool, then record a payment. *)
Definition claim_effect (citizen epoch amount : Z) (k k' : KernelState) : Prop :=
  ∃ marked charged paid : bool,
    (paid = true → charged = true) ∧ (charged = true → marked = true) ∧
    (marked = true → has_claimed citizen epoch k = false) ∧
    (charged = true → get_distributed epoch k + amount <= POOL_CAP_PER_EPOCH) ∧
    (∀ c e, has_claimed c e k' = (marked && (c =? citizen) && (e =? epoch)) || has_claimed c e k) ∧
    (∀ e, get_distributed e k' = get_distributed e k + if charged && (e =? epoch) then amount else 0) ∧
    (∀ e, paid_in e (ubi_events k') = paid_in e (ubi_events k) +
       if paid && (e =? epoch) then amount else 0) ∧
    (∀ c e, payments c e (ubi_events k') = payments c e (ubi_events k) +
       if paid && (c =? citizen) && (e =? epoch) then 1 else 0).

(** A rejection adds nothing to what was paid. *)
Lemma rejected_events c epoch r k :
  (∀ e, paid_in e (ubi_events (reject c epoch r k)) = paid_in e (ubi_events k) + 0) ∧
  (∀ ci e, payments ci e (ubi_events (reject c epoch r k)) = payments ci e (ubi_events k) + 0).
Proof. split; intros; cbn; by rewrite ?paid_in_snoc, ?payments_snoc. Qed.

Lemma distributed_events citizen amount epoch txid k :
  (∀ e, paid_in e (ubi_events (emit_distributed citizen amount epoch txid k)) =
     paid_in e (ubi_events k) + if e =? epoch then amount else 0) ∧
  (∀ c e, payments c e (ubi_events (emit_distributed citizen amount epoch txid k)) =
     payments c e (ubi_events k) +
     if negb (amount =? 0) && (c =? citizen) && (e =? epoch) then 1 else 0).
Proof.
  unfold emit_distributed. split.
  - intros e. destruct (Z.eqb_spec amount 0); [subst; destruct (e =? epoch); lia|].
    cbn. rewrite paid_in_snoc. by rewrite (Z.eqb_sym epoch).
  - intros c e. destruct (amount =? 0); [cbn; lia|]. cbn. rewrite payments_snoc. cbn.
    by rewrite (Z.eqb_sym citizen), (Z.eqb_sym epoch).
Qed.

Lemma charged_distributed epoch v k k' :
  total_distributed k' = <[epoch := get_distributed epoch k + v]> (total_distributed k) →
  ∀ e, get_distributed e k' = get_distributed e k + if e =? epoch then v else 0.
Proof.
  intros Hd e. unfold get_distributed at 1. rewrite Hd. destruct (Z.eqb_spec e epoch) as [->|].
  - by rewrite lookup_insert_eq.
  - rewrite lookup_insert_ne by done. unfold get_distributed. lia.
Qed.

Lemma validate_claim_ok c reg epoch k :
  validate_claim c reg epoch k = Ok tt →
  (∃ citizen, citizens reg !! claim_citizen c = Some citizen ∧ revoked citizen = false ∧
     citizenship_epoch citizen <= epoch) ∧
  has_claimed (claim_citizen c) epoch k = false ∧
  get_distributed epoch k + claim_amount c <= POOL_CAP_PER_EPOCH.
Proof.
  unfold validate_claim. destruct (citizens reg !! _) as [ci|] eqn:Hc; cbn; [|done].
  destruct (revoked ci) eqn:Hr; [done|]. destruct (Z.ltb_spec epoch (citizenship_epoch ci)); [done|].
  destruct (has_claimed _ _ _) eqn:Hh; [done|].
  destruct (check_pool_capacity _ _ _) eqn:Hp; [|done]. intros _.
  apply check_pool_capacity_true in Hp. eauto 10.
Qed.

Lemma process_claim_effect `{KernelHash} reg epoch ka c k t :
  claim_effect (claim_citizen c) epoch (claim_amount c) k
    (process_ubi_claim reg epoch ka c (k, t)).1.1.
Proof.
  unfold process_ubi_claim. destruct (validate_claim c reg epoch k) as [[]|r] eqn:Hv; cycle 1.
  { exists false, false, false. split_and!; try done; [|apply rejected_events..].
    intros e. cbn. unfold get_distributed. cbn. lia. }
  apply validate_claim_ok in Hv as (_ & Hh & Hp).
  destruct (mark_claimed_frame (claim_citizen c) epoch k) as [Hd He].
  destruct (mark_claimed (claim_citizen c) epoch k) as [k1 [u|er]] eqn:Hm; cbn [fst] in *;
    (assert (∀ e, get_distributed e k1 = get_distributed e k) as Hg
       by (intros e; unfold get_distributed; by rewrite Hd)); cycle 1.
  { exists false, false, false.
    destruct (rejected_events c epoch AlreadyClaimedEpoch k1) as [Hr1 Hr2]. rewrite He in *.
    split_and!; try done; [|intros e; cbn; rewrite Z.add_0_r; exact (Hg e)].
    intros c' e'. exact (has_claimed_mark_err _ _ _ _ _ c' e' Hm). }
  pose proof (λ c' e', has_claimed_mark _ _ _ _ _ c' e' Hm) as Hc.
  destruct (match t with Some _ => _ | None => _ end) as [t' [|]]; cycle 1.
  { exists true, false, false. destruct (rejected_events c epoch MintFailed k1) as [Hr1 Hr2].
    rewrite He in *. split_and!; try done. intros e. cbn. rewrite Z.add_0_r. exact (Hg e). }
  destruct (add_distributed_charges epoch (claim_amount c) k1) as (Hd1 & Hc1 & He1); [by rewrite Hg|].
  pose proof (charged_distributed _ _ _ _ Hd1) as Hg1. setoid_rewrite Hg in Hg1.
  assert (∀ c' e', has_claimed c' e' (add_distributed epoch (claim_amount c) k1).1 =
    has_claimed c' e' k1) as Hc2 by (intros; unfold has_claimed; by rewrite Hc1).
  rewrite He in He1. destruct (add_distributed epoch (claim_amount c) k1) as [k2 [?|?]]; cbn [fst] in *.
  - exists true, true, (negb (claim_amount c =? 0)).
    destruct (distributed_events (claim_citizen c) (claim_amount c) epoch
      (compute_ubi_kernel_txid (claim_citizen c) epoch (claim_amount c)) k2) as [Hr1 Hr2].
    rewrite He1 in *. split_and!; try done.
    + intros c' e'. cbn [andb]. rewrite <- Hc, <- Hc2. unfold emit_distributed. by destruct (_ =? 0).
    + intros e. cbn [andb]. rewrite <- Hg1. unfold emit_distributed. by destruct (_ =? 0).
    + intros e. cbn [andb]. etransitivity; [apply Hr1|].
      destruct (Z.eqb_spec (claim_amount c) 0) as [->|]; cbn; [by destruct (e =? epoch)|done].
  - exists true, true, false. destruct (rejected_events c epoch MintFailed k2) as [Hr1 Hr2].
    rewrite He1 in *. split_and!; try done. intros c' e'. cbn [andb]. rewrite <- Hc. apply Hc2.
Qed.

Lemma mint_kernel_only_cases a to amount t t' r :
  mint_kernel_only a to amount t = (t', r) → plain t → 0 <= amount → total_supply t + amount <= umax 128 →
  plain t' ∧ max_supply t' = max_supply t ∧
  total_supply t' - total_supply t = if is_ok r then amount else 0.
Proof.
  intros Hm Hp Ha Hu. pose proof (issue_plain to amount t Ha Hu Hp) as Hi.
  revert Hm. unfold mint_kernel_only, bind at 1, gets. destruct (kernel_mint_authority t); cycle 1.
  { intros [= <- <-]. split_and!; done || (cbn; lia). }
  unfold bind at 1, guard. destruct (bool_decide _); cycle 1.
  { intros [= <- <-]. split_and!; done || (cbn; lia). }
  cbv beta iota delta [ret]. intros Hr. rewrite Hr in Hi. destruct Hp as [[Hn Hc Hcap Hmax] _].
  destruct (issue_cases to amount t t' r Hr) as [[-> (e & -> & _)]|(-> & _ & ->)]; try done; cbn;
    split_and!; done || lia.
Qed.

(** ** Runs *)

Section Runs.
Context `{KernelHash}.

(** Batches in any order of epochs, and pruning of old ones; [floor] is the last
    cutoff, and no batch comes for an epoch that was pruned. *)
Inductive ubi_reach : Z → KernelState * option TokenContract → Prop :=
| ubi_start t : ubi_reach 0 (KernelState_new, t)
| ubi_batch floor w claims reg epoch ka :
    ubi_reach floor w → floor <= epoch → Forall (λ c, 0 <= claim_amount c) claims →
    ubi_reach floor (process_ubi_claims_with_minting claims reg epoch ka w).1
| ubi_prune floor w cutoff :
    ubi_reach floor w → ubi_reach (Z.max floor cutoff) (prune_old_epochs cutoff w.1, w.2).

Definition epoch_books (floor e : Z) (k : KernelState) : Prop :=
  paid_in e (ubi_events k) <= POOL_CAP_PER_EPOCH ∧
  (∀ c, 0 <= payments c e (ubi_events k) <= 1) ∧
  (floor <= e → paid_in e (ubi_events k) <= get_distributed e k <= POOL_CAP_PER_EPOCH ∧
     ∀ c, has_claimed c e k = false → payments c e (ubi_events k) = 0).

Definition ubi_books (floor : Z) (k : KernelState) : Prop := ∀ e, epoch_books floor e k.

Lemma claim_effect_books floor citizen epoch amount k k' :
  0 <= amount → floor <= epoch → claim_effect citizen epoch amount k k' →
  ubi_books floor k → ubi_books floor k'.
Proof.
  intros Ha Hf (marked & charged & paid & Hpc & Hcm & Hfresh & Hcap & Hc & Hg & Hp & Hn) Hb e.
  destruct (Hb e) as (H1 & H2 & H3). unfold epoch_books. rewrite Hg, Hp. setoid_rewrite Hn.
  setoid_rewrite Hc. destruct (Z.eqb_spec e epoch) as [->|Hne]; cycle 1.
  { setoid_rewrite andb_false_r. cbn [orb]. rewrite !Z.add_0_r. setoid_rewrite Z.add_0_r. by split. }
  setoid_rewrite andb_true_r. destruct (H3 Hf) as [H4 H5]. destruct paid; cycle 1.
  { cbn [andb]. rewrite Z.add_0_r. setoid_rewrite Z.add_0_r. split; [done|]. split; [done|]. intros _. split.
    - destruct charged; [specialize (Hcap eq_refl)|]; lia.
    - intros c [_ Hcl]%orb_false_iff. by apply H5. }
  rewrite (Hpc eq_refl) in *. specialize (Hcap eq_refl). rewrite (Hcm eq_refl) in *.
  cbn [andb]. split; [lia|]. split; [|intros _; split; [lia|]]; intros c; specialize (H2 c).
  - destruct (Z.eqb_spec c citizen) as [->|]; [rewrite (H5 _ (Hfresh eq_refl))|]; lia.
  - intros [Hcc Hcl]%orb_false_iff. rewrite Hcc, (H5 c Hcl). done.
Qed.

(** A property of the state that every claim keeps is kept by a batch. *)
Lemma batch_ind (P : KernelState * option TokenContract → Prop) claims reg epoch ka w :
  (∀ c w, c ∈ claims → P w → P (process_ubi_claim reg epoch ka c w).1) →
  (∀ k t e n x r, P (k, t) → P (emit_pool_status e n x r k, t)) →
  P w → P (process_ubi_claims_with_minting claims reg epoch ka w).1.
Proof.
  intros Hc He Hw. unfold process_ubi_claims_with_minting.
  set (f := λ '(k, token, (n, m)) c, _).
  assert (∀ l x, (∀ c, c ∈ l → c ∈ claims) → P x.1 → P (foldl f x l).1) as Hfold.
  { induction l as [|c l IH]; intros [[k t] [n m]] Hl Hx; [done|]. cbn [foldl].
    apply IH; [set_solver|]. unfold f. specialize (Hc c (k, t) ltac:(set_solver) Hx).
    destruct (process_ubi_claim reg epoch ka c (k, t)) as [w' []]; exact Hc. }
  specialize (Hfold claims (w, (0, 0)) ltac:(done) Hw).
  destruct (foldl f (w, (0, 0)) claims) as [[k t] cnt]. by apply He.
Qed.

Lemma prune_spec cutoff k e :
  cutoff <= e →
  get_distributed e (prune_old_epochs cutoff k) = get_distributed e k ∧
  ∀ c, has_claimed c e (prune_old_epochs cutoff k) = has_claimed c e k.
Proof.
  intros He. unfold get_distributed, has_claimed, prune_old_epochs; cbn. split.
  - f_equal. rewrite map_lookup_filter. destruct (total_distributed k !! e); [|done].
    cbn. by rewrite option_guard_True.
  - intros c. rewrite map_lookup_filter, lookup_fmap. destruct (already_claimed k !! c) as [m|]; [|done].
    cbn. assert (filter (λ p : Z * bool, cutoff <= p.1) m !! e = m !! e) as Hm.
    { rewrite map_lookup_filter. destruct (m !! e); [|done]. cbn. by rewrite option_guard_True. }
    destruct (decide (filter (λ p : Z * bool, cutoff <= p.1) m = ∅)) as [Hempty|Hne].
    + rewrite option_guard_False by naive_solver. cbn. by rewrite <- Hm, Hempty, lookup_empty.
    + rewrite option_guard_True by done. cbn. by rewrite Hm.
Qed.

Lemma ubi_reach_books floor w : ubi_reach floor w → ubi_books floor w.1.
Proof.
  induction 1 as [t|floor w claims reg epoch ka _ IH Hf Ha|floor w cutoff _ IH].
  - intros e. unfold epoch_books, get_distributed; cbn. rewrite lookup_empty. cbn.
    unfold POOL_CAP_PER_EPOCH, paid_in, payments. cbn. split_and!; [done|done|]. intros _. split; done.
  - apply (batch_ind (λ w, ubi_books floor w.1)); [| |exact IH].
    + intros c [k t] Hc Hk. apply (claim_effect_books floor (claim_citizen c) epoch (claim_amount c) k);
        [by eapply (proj1 (Forall_forall _ _) Ha)|done|apply process_claim_effect|exact Hk].
    + intros k t e n x r Hk e'. specialize (Hk e'). unfold emit_pool_status.
      destruct (r =? _); [|exact Hk]. unfold epoch_books in *. cbn. setoid_rewrite payments_snoc.
      rewrite paid_in_snoc. cbn. rewrite Z.add_0_r. setoid_rewrite Z.add_0_r. exact Hk.
  - intros e. destruct (IH e) as (H1 & H2 & H3). split; [exact H1|]. split; [exact H2|].
    cbn [fst]. intros He. destruct (prune_spec cutoff w.1 e ltac:(lia)) as [-> Hc]. setoid_rewrite Hc.
    apply H3. lia.
Qed.

(** C13: the basic income is paid once and within its pool.  After any batches of
    claims, in any order of epochs and with any citizens, and with old epochs pruned
    in between (and no batch for an epoch that was pruned), no citizen has two
    payments for one epoch and no epoch has paid more than its pool. *)
Theorem ubi_once_and_capped floor k t :
  ubi_reach floor (k, t) →
  ∀ citizen epoch, payments citizen epoch (ubi_events k) <= 1 ∧
                   paid_in epoch (ubi_events k) <= POOL_CAP_PER_EPOCH.
Proof.
  intros Hr citizen epoch. destruct (ubi_reach_books _ _ Hr epoch) as (H1 & H2 & _).
  split; [apply H2|exact H1].
Qed.

Lemma reject_distributed c epoch r k e : get_distributed e (reject c epoch r k) = get_distributed e k.
Proof. done. Qed.

Lemma success_distributed c a epoch x k e :
  get_distributed e (record_success (emit_distributed c a epoch x k)) = get_distributed e k.
Proof. unfold emit_distributed. by destruct (a =? 0). Qed.

(** The kernel mints what it charges to the pool. *)
Lemma claim_mints reg epoch a c k t :
  0 <= claim_amount c → 0 <= get_distributed epoch k → plain t →
  max_supply t + POOL_CAP_PER_EPOCH <= umax 128 →
  ∃ t', (process_ubi_claim reg epoch (Some a) c (k, Some t)).1.2 = Some t' ∧ plain t' ∧
    max_supply t' = max_supply t ∧
    total_supply t' - total_supply t =
    get_distributed epoch (process_ubi_claim reg epoch (Some a) c (k, Some t)).1.1 - get_distributed epoch k.
Proof.
  intros Ha Hg Hp Hmax. unfold process_ubi_claim.
  destruct (validate_claim c reg epoch k) as [[]|r] eqn:Hv; cbn [fst snd];
    [|exists t; rewrite reject_distributed; split_and!; done || lia].
  apply validate_claim_ok in Hv as (_ & _ & Hcap).
  destruct (mark_claimed_frame (claim_citizen c) epoch k) as [Hd _].
  destruct (mark_claimed (claim_citizen c) epoch k) as [k1 [u|er]]; cbn [fst snd] in *;
    (assert (get_distributed epoch k1 = get_distributed epoch k) as Hg1
       by (unfold get_distributed; by rewrite Hd));
    [|exists t; rewrite reject_distributed; split_and!; done || lia].
  destruct (mint_kernel_only a (synthetic_key (claim_citizen c)) (claim_amount c) t) as [t' r] eqn:Hm.
  destruct (mint_kernel_only_cases _ _ _ _ _ _ Hm Hp) as (Hp' & Hmx & Hsup);
    [done|destruct Hp as [[? ? ? ?] _]; lia|].
  destruct r as [[]|e]; cbn [is_ok fst snd] in *;
    [|exists t'; rewrite reject_distributed; split_and!; done || lia].
  destruct (add_distributed_charges epoch (claim_amount c) k1) as (Hd1 & _); [by rewrite Hg1|].
  pose proof (charged_distributed _ _ _ _ Hd1 epoch) as Hg2. rewrite Z.eqb_refl in Hg2.
  exists t'. destruct (add_distributed epoch (claim_amount c) k1) as [k2 [?|?]]; cbn [fst snd] in *;
    rewrite ?success_distributed, ?reject_distributed; split_and!; done || lia.
Qed.

(** The token contract and the books of the kernel agree.  A batch with minting
    leaves a token that does not burn well-formed, and raises its supply by exactly
    what the batch charges to the pool of the epoch, whatever claims are refused and
    whatever mints fail. *)
Theorem ubi_mints_recorded k t claims reg epoch a :
  Forall (λ c, 0 <= claim_amount c) claims →
  wf_token t → is_deflationary t = false → max_supply t + POOL_CAP_PER_EPOCH <= umax 128 →
  0 <= get_distributed epoch k →
  ∃ k' t', (process_ubi_claims_with_minting claims reg epoch (Some a) (k, Some t)).1 = (k', Some t') ∧
    wf_token t' ∧
    total_supply t' - total_supply t = get_distributed epoch k' - get_distributed epoch k.
Proof.
  intros Ha Hwf Hd Hmax Hg.
  pose (P := λ w : KernelState * option TokenContract, ∃ t', w.2 = Some t' ∧ plain t' ∧
    max_supply t' = max_supply t ∧ 0 <= get_distributed epoch w.1 ∧
    total_supply t' - total_supply t = get_distributed epoch w.1 - get_distributed epoch k).
  assert (P (process_ubi_claims_with_minting claims reg epoch (Some a) (k, Some t)).1) as HP.
  { apply batch_ind.
    - intros c [k1 t0] Hc (t1 & [= ->] & Hp1 & Hm1 & Hg1 & Hs1). cbn [fst snd] in *.
      assert (0 <= claim_amount c) as Hca by by eapply (proj1 (Forall_forall _ _) Ha).
      destruct (claim_mints reg epoch a c k1 t1 Hca Hg1 Hp1 ltac:(congruence)) as (t2 & Ht2 & Hp2 & Hm2 & Hs2).
      destruct (process_claim_effect reg epoch (Some a) c k1 (Some t1))
        as (? & ch & ? & _ & _ & _ & _ & _ & Hg2 & _). specialize (Hg2 epoch).
      exists t2. split_and!; [done|done|congruence| |lia].
      destruct (ch && (epoch =? epoch)); lia.
    - intros k1 t1 e n x r (t2 & ?). exists t2. unfold emit_pool_status. by destruct (r =? _).
    - exists t. split_and!; done || (cbn; lia). }
  destruct (process_ubi_claims_with_minting _ _ _ _ _) as [[k' t0] cnt].
  destruct HP as (t' & Ht & [Hwf' _] & _ & _ & Hs). cbn [fst snd] in *. subst t0. eauto.
Qed.
End Runs.

(** A claim that is refused makes the state fail its own consistency check: only
    payments count as processed. *)
Lemma rejection_invalidates `{KernelHash} c reg epoch t ka :
  citizens reg !! claim_citizen c = None →
  KernelState_is_valid (process_ubi_claims_with_minting [c] reg epoch ka (KernelState_new, t)).1.1 = false.
Proof.
  intros Hc. unfold process_ubi_claims_with_minting, process_ubi_claim, validate_claim. cbn.
  by rewrite Hc.
Qed.

(** ** The limit on changes of the reference value *)

(** The change in basis points, before it is cut to 16 bits. *)
Definition change_bps (proposed current : Z) : Z := Z.abs (proposed - current) * 10000 / current.

(** What the check really decides. *)
Lemma validate_proposed_change_spec p s :
  emergency_paused s = false → 0 < current_srv s → 0 <= p → in_u 64 p → in_u 64 (current_srv s) →
  validate_proposed_change p s = Ok tt ↔ change_bps p (current_srv s) mod 2 ^ 16 <= max_change_bps s.
Proof.
  intros Hp Hc Hp0 Hpu Hcu. unfold validate_proposed_change. rewrite Hp.
  rewrite (proj2 (Z.eqb_neq _ _)) by lia.
  assert ((if current_srv s <? p then p - current_srv s else current_srv s - p) =
    Z.abs (p - current_srv s)) as -> by (destruct (Z.ltb_spec (current_srv s) p); lia).
  unfold checked_mul. rewrite (proj2 (Z.leb_le _ _)) by (unfold in_u, umax in *; lia).
  cbn [ok_or]. unfold checked_div. rewrite (proj2 (Z.eqb_neq _ _)) by lia. cbn [ok_or].
  fold (change_bps p (current_srv s)). unfold as_u.
  destruct (Z.ltb_spec (max_change_bps s) (change_bps p (current_srv s) mod 2 ^ 16)); naive_solver lia.
Qed.

(** The limit on changes of the reference value does not bound them.  The
    change in basis points is cut to 16 bits before it is compared, so that from every
    value of at least 10000 more than seven times that value is accepted in one
    update, under any limit. *)
Theorem srv_limit_wraps s :
  emergency_paused s = false → 10000 <= current_srv s → 8 * current_srv s <= umax 64 →
  0 <= max_change_bps s →
  ∃ p, 7 * current_srv s <= p <= umax 64 ∧ validate_proposed_change p s = Ok tt.
Proof.
  intros Hp Hc Hu Hm. set (v := current_srv s) in *. set (d := (65536 * v + 9999) / 10000).
  pose proof (Z.div_mod (65536 * v + 9999) 10000) as Hdm.
  pose proof (Z.mod_pos_bound (65536 * v + 9999) 10000) as Hmb. fold d in Hdm.
  exists (v + d). split; [lia|].
  apply validate_proposed_change_spec; try (fold v; unfold in_u; lia); [done|].
  unfold change_bps. fold v. replace (Z.abs (v + d - v)) with d by lia.
  assert (d * 10000 / v = 65536) as -> by (symmetry; apply (Z.div_unique _ _ _ (d * 10000 - 65536 * v)); lia).
  done.
Qed.

(** Converting cents to SOV and back loses at most one cent and never gains. *)
Lemma usd_roundtrip s usd sov usd' :
  0 < current_srv s <= 10 ^ 14 → 0 <= usd → usd * 10 ^ 14 / current_srv s <= umax 64 → usd <= umax 64 →
  usd_to_sov usd s = Some sov → sov_to_usd sov s = Some usd' → usd - 1 <= usd' <= usd.
Proof.
  intros Hc Hu Hfit Hu64. unfold usd_to_sov, sov_to_usd. rewrite (proj2 (Z.eqb_neq _ _)) by lia.
  destruct (checked_mul 128 usd (10 ^ 14)) as [p|] eqn:Hp; [|done]. int_inv.
  set (v := current_srv s) in *. pose proof (Z.div_mod (usd * 10 ^ 14) v) as Hdm.
  pose proof (Z.mod_pos_bound (usd * 10 ^ 14) v) as Hmb.
  pose proof (Z.div_pos (usd * 10 ^ 14) v).
  rewrite as_u_small by (unfold in_u; lia). intros [= <-].
  set (q := usd * 10 ^ 14 / v) in *. destruct (checked_mul 128 q v) as [p|] eqn:Hp; [|done]. int_inv.
  intros [= <-]. assert (usd - 1 <= q * v / 10 ^ 14 <= usd) as Hb.
  { split; [apply Z.div_le_lower_bound; lia|]. apply Z.div_le_upper_bound; lia. }
  rewrite as_u_small; [exact Hb|]. pose proof (Z.div_pos (q * v) (10 ^ 14)). unfold in_u. lia.
Qed.

(** ** A small state *)
Module UbiDemo.

Definition hash : KernelHash := {| kernel_blake3 := sumZ |}.
#[local] Existing Instance hash.

Definition registry : CitizenRegistry := {|
  citizens := {[ 1 := CitizenRole_new 1 0 0; 2 := CitizenRole_new 2 3 0 ]}; citizen_list := [1; 2];
  total_registered := 2; citizens_active := 2 |}.

Definition claim (citizen amount : Z) : UbiClaimRecorded := {|
  claim_citizen := citizen; claim_amount := amount; claim_epoch := 3; claim_timestamp := 0 |}.

(** Citizen 1 claims twice, citizen 2 more than is left, and 5 is unknown. *)
Definition claims : list UbiClaimRecorded := [claim 1 700000; claim 1 1; claim 2 300001; claim 5 1].

Definition token : TokenContract := demo_token false true.

Definition after : KernelState * option TokenContract :=
  (process_ubi_claims_with_minting claims registry 3 (Some (demo_key 9)) (KernelState_new, None)).1.

Lemma ubi_once_and_capped_witness :
  payments 1 3 (ubi_events after.1) = 1 ∧ paid_in 3 (ubi_events after.1) <= POOL_CAP_PER_EPOCH.
Proof.
  split; [vm_compute; reflexivity|].
  refine (proj2 (ubi_once_and_capped 0 after.1 after.2 _ 1 3)).
  rewrite <- surjective_pairing. apply ubi_batch; [apply ubi_start|lia|].
  repeat constructor; cbn; lia.
Defined.

(** Of three claims two fit: 400 and 500 of at most 1000 that the token can still
    issue. *)
Definition small_claims : list UbiClaimRecorded := [claim 1 400; claim 2 500; claim 1 50].

Lemma ubi_mints_recorded_witness :
  ∃ k' t', (process_ubi_claims_with_minting small_claims registry 3 (Some (demo_key 9))
              (KernelState_new, Some token)).1 = (k', Some t') ∧
    total_supply t' = 1900 ∧ wf_token t'.
Proof.
  destruct (ubi_mints_recorded KernelState_new token small_claims registry 3 (demo_key 9))
    as (k' & t' & Hr & Hwf & _); [repeat constructor; cbn; lia|apply demo_token_wf|done
    |vm_compute; discriminate|vm_compute; discriminate|].
  exists k', t'. split; [exact Hr|]. split; [|exact Hwf].
  apply (f_equal (λ w, default 0 (total_supply <$> w.2))) in Hr. vm_compute in Hr. exact (eq_sym Hr).
Defined.

Lemma srv_limit_wraps_witness :
  ∃ p, 7 * 2180000 <= p ∧ validate_proposed_change p SRVState_new_genesis = Ok tt.
Proof.
  destruct (srv_limit_wraps SRVState_new_genesis eq_refl) as (p & Hp & Hv);
    [vm_compute; discriminate..|]. exists p. split; [exact (proj1 Hp)|exact Hv].
Defined.

End UbiDemo.
