(* ===== verification/Treasury.v ===== *)
(** * The treasury kernel (lib-blockchain contracts/treasury_kernel)

    [TreasuryKernel] of [mod.rs]: the operations on token balances of
    [kernel_ops.rs], the delayed mint and burn authorizations, vesting
    ([vesting_types.rs], [vesting.rs]) and the reference value ([srv_ops.rs]).  An
    operation is a program on the kernel, the token contract and the vesting state
    it is given; an error leaves the writes made before it.  The hash in the
    identifier of a vesting is a parameter.

    The theorems: an authorization is executed at most once, and not before its
    epoch; what a beneficiary has been paid never exceeds the schedule, and what has
    vested can always be claimed, as long as only vesting operations touch the token
    and identifiers determine accounts.  Each of these conditions is needed, as the
    examples at the end show. *)
From stdpp Require Import base tactics numbers list option gmap fin_maps strings.
From S2P Require Import Prelude Codec Memo TokenCore Ubi.

(** ** Types *)

Inductive KernelOpError : Type :=
| Unauthorized | Paused | InsufficientBalance | InsufficientLockedBalance | Overflow
| ExceedsMaxSupply | MintingDisabled | MissingAuthorization | DelayNotElapsed
| AuthorizationConsumed | VestingNotFound | VestingCliffNotReached | VestingAlreadyFullyReleased
| InvalidVestingSchedule | VestingNotStarted | InvalidState.

Inductive CreditReason : Type := CUbiDistribution | CFeeDistribution | CReward | CMint | CTransfer.
Inductive DebitReason : Type := DFeeCollection | DBurn | DSlash | DTransfer.

Inductive MintReason : Type :=
| MUbiDistribution | MWelfareFunding | MInfrastructureReward | MTreasuryAllocation | MEmergency.

Record MintAuthorization : Type := {
  ma_proposal_id : Z; ma_reason : MintReason; ma_authorized_amount : Z; ma_recipient_key_id : Z;
  ma_authorized_at_epoch : Z; ma_executable_after_epoch : Z; ma_consumed : bool;
}.

Record BurnAuthorization : Type := {
  ba_proposal_id : Z; ba_authorized_amount : Z; ba_from_key_id : Z;
  ba_authorized_at_epoch : Z; ba_executable_after_epoch : Z; ba_consumed : bool;
}.

Record TreasuryKernel : Type := {
  kstate : KernelState; governance_authority : PublicKey; kernel_address : PublicKey;
  blocks_per_epoch : Z; paused : bool;
  pending_mint_authorizations : gmap Z MintAuthorization;
  pending_burn_authorizations : gmap Z BurnAuthorization;
  consumed_authorizations : gset Z; mint_delay_epochs : Z;
}.

Definition TreasuryKernel_new (governance address : PublicKey) (blocks : Z) : TreasuryKernel := {|
  kstate := KernelState_new; governance_authority := governance; kernel_address := address;
  blocks_per_epoch := blocks; paused := false; pending_mint_authorizations := ∅;
  pending_burn_authorizations := ∅; consumed_authorizations := ∅; mint_delay_epochs := 1 |}.

(** ** Vesting schedules and locks *)

Record VestingSchedule : Type := {
  start_epoch : Z; cliff_epoch : Z; end_epoch : Z; total_amount : Z;
}.

Definition VestingSchedule_is_valid (s : VestingSchedule) : bool :=
  (start_epoch s <=? cliff_epoch s) && (cliff_epoch s <=? end_epoch s) && (0 <? total_amount s).

Definition VestingSchedule_new (start cliff end_ amount : Z) : option VestingSchedule :=
  if (cliff <? start) || (end_ <? cliff) then None
  else if amount =? 0 then None
  else Some {| start_epoch := start; cliff_epoch := cliff; end_epoch := end_; total_amount := amount |}.

Definition vested_amount (current_epoch : Z) (s : VestingSchedule) : Z :=
  if current_epoch <? start_epoch s then 0
  else if end_epoch s <=? current_epoch then total_amount s else
  let elapsed := current_epoch - start_epoch s in
  let duration := end_epoch s - start_epoch s in
  if duration =? 0 then total_amount s
  else as_u 64 (saturating_mul 128 (total_amount s) elapsed / duration).

Definition releasable_amount (current_epoch : Z) (s : VestingSchedule) : Z :=
  if current_epoch <? cliff_epoch s then 0 else vested_amount current_epoch s.

Inductive VestingStatus : Type := VPending | VBeforeCliff | VActive | VCompleted | VRevoked.

Record VestingLock : Type := {
  lock_id : Z; beneficiary : Z; schedule : VestingSchedule; amount_released : Z;
  created_epoch : Z; revocable : bool; lock_revoked_epoch : option Z;
}.

Definition VestingLock_new (id b : Z) (s : VestingSchedule) (created : Z) (r : bool) : VestingLock := {|
  lock_id := id; beneficiary := b; schedule := s; amount_released := 0; created_epoch := created;
  revocable := r; lock_revoked_epoch := None |}.

Definition VestingLock_status (current_epoch : Z) (l : VestingLock) : VestingStatus :=
  match lock_revoked_epoch l with
  | Some _ => VRevoked
  | None =>
      if total_amount (schedule l) <=? amount_released l then VCompleted
      else if current_epoch <? start_epoch (schedule l) then VPending
      else if current_epoch <? cliff_epoch (schedule l) then VBeforeCliff
      else VActive
  end.

(** Vesting stops at the revocation. *)
Definition effective_epoch (current_epoch : Z) (l : VestingLock) : Z :=
  match lock_revoked_epoch l with Some r => Z.min r current_epoch | None => current_epoch end.

Definition available_to_release (current_epoch : Z) (l : VestingLock) : Z :=
  saturating_sub (releasable_amount (effective_epoch current_epoch l) (schedule l)) (amount_released l).

Definition remaining_locked (l : VestingLock) : Z :=
  saturating_sub (total_amount (schedule l)) (amount_released l).

Definition with_released (n : Z) (l : VestingLock) : VestingLock := {|
  lock_id := lock_id l; beneficiary := beneficiary l; schedule := schedule l;
  amount_released := n; created_epoch := created_epoch l; revocable := revocable l;
  lock_revoked_epoch := lock_revoked_epoch l |}.

Definition with_revoked (e : Z) (l : VestingLock) : VestingLock := {|
  lock_id := lock_id l; beneficiary := beneficiary l; schedule := schedule l;
  amount_released := amount_released l; created_epoch := created_epoch l; revocable := revocable l;
  lock_revoked_epoch := Some e |}.

Definition VestingLock_record_release (amount : Z) (l : VestingLock) : result VestingLock string :=
  let? new_total := ok_or (checked_add 64 (amount_released l) amount) "Release amount overflow" in
  if total_amount (schedule l) <? new_total then Err "Would exceed total vesting amount"
  else Ok (with_released new_total l).

(** Returns the lock and what goes back to the treasury. *)
Definition VestingLock_revoke (current_epoch : Z) (l : VestingLock) : result (VestingLock * Z) string :=
  if negb (revocable l) then Err "Vesting lock is not revocable"
  else if bool_decide (is_Some (lock_revoked_epoch l)) then Err "Vesting lock already revoked" else
  let vested := vested_amount current_epoch (schedule l) in
  let unvested := saturating_sub (total_amount (schedule l)) vested in
  let vested_unreleased := saturating_sub vested (amount_released l) in
  let returnable := saturating_sub (remaining_locked l) vested_unreleased in
  Ok (with_revoked current_epoch l, Z.min returnable unvested).

Record VestingState : Type := {
  locks : gmap Z VestingLock; by_beneficiary : gmap Z (list Z); next_id : Z; total_locked : Z;
}.

Definition VestingState_new : VestingState :=
  {| locks := ∅; by_beneficiary := ∅; next_id := 0; total_locked := 0 |}.

(** The two rounds of the hasher over the kernel's identifier and the counter. *)
Class VestingHash : Type := { vesting_hash1 : Z → Z → Z; vesting_hash2 : Z → Z → Z }.

(** The hashes, the counter and the first bytes of the kernel's identifier. *)
Definition vesting_id `{VestingHash} (kernel_id n : Z) : Z :=
  as_u 64 (vesting_hash1 kernel_id n) * 2 ^ 192 + as_u 64 (vesting_hash2 kernel_id n) * 2 ^ 128 +
  n * 2 ^ 64 + kernel_id / 2 ^ 192.

Definition with_next_id (n : Z) (v : VestingState) : VestingState :=
  {| locks := locks v; by_beneficiary := by_beneficiary v; next_id := n; total_locked := total_locked v |}.

Definition with_locks (ls : gmap Z VestingLock) (v : VestingState) : VestingState :=
  {| locks := ls; by_beneficiary := by_beneficiary v; next_id := next_id v; total_locked := total_locked v |}.

Definition generate_id `{VestingHash} (kernel_id : Z) (v : VestingState) : VestingState * Z :=
  (with_next_id (wadd 64 (next_id v) 1) v, vesting_id kernel_id (next_id v)).

Definition add_lock (l : VestingLock) (v : VestingState) : VestingState := {|
  locks := <[lock_id l := l]> (locks v);
  by_beneficiary := <[beneficiary l := default [] (by_beneficiary v !! beneficiary l) ++ [lock_id l]]>
                      (by_beneficiary v);
  next_id := next_id v;
  total_locked := saturating_add 64 (total_locked v) (total_amount (schedule l)) |}.

Definition VestingState_record_release (amount : Z) (v : VestingState) : VestingState := {|
  locks := locks v; by_beneficiary := by_beneficiary v; next_id := next_id v;
  total_locked := saturating_sub (total_locked v) amount |}.

(** ** Programs *)

Record Treasury : Type := { kernel : TreasuryKernel; token : TokenContract; vesting : VestingState }.

Definition set_kernel (k : TreasuryKernel) (w : Treasury) : Treasury :=
  {| kernel := k; token := token w; vesting := vesting w |}.
Definition set_token (t : TokenContract) (w : Treasury) : Treasury :=
  {| kernel := kernel w; token := t; vesting := vesting w |}.
Definition set_vesting (v : VestingState) (w : Treasury) : Treasury :=
  {| kernel := kernel w; token := token w; vesting := v |}.

Definition set_paused (b : bool) (k : TreasuryKernel) : TreasuryKernel := {|
  kstate := kstate k; governance_authority := governance_authority k;
  kernel_address := kernel_address k; blocks_per_epoch := blocks_per_epoch k; paused := b;
  pending_mint_authorizations := pending_mint_authorizations k;
  pending_burn_authorizations := pending_burn_authorizations k;
  consumed_authorizations := consumed_authorizations k; mint_delay_epochs := mint_delay_epochs k |}.

Definition set_authorizations (m : gmap Z MintAuthorization) (b : gmap Z BurnAuthorization)
    (c : gset Z) (k : TreasuryKernel) : TreasuryKernel := {|
  kstate := kstate k; governance_authority := governance_authority k;
  kernel_address := kernel_address k; blocks_per_epoch := blocks_per_epoch k; paused := paused k;
  pending_mint_authorizations := m; pending_burn_authorizations := b;
  consumed_authorizations := c; mint_delay_epochs := mint_delay_epochs k |}.

Definition set_mint_delay (d : Z) (k : TreasuryKernel) : TreasuryKernel := {|
  kstate := kstate k; governance_authority := governance_authority k;
  kernel_address := kernel_address k; blocks_per_epoch := blocks_per_epoch k; paused := paused k;
  pending_mint_authorizations := pending_mint_authorizations k;
  pending_burn_authorizations := pending_burn_authorizations k;
  consumed_authorizations := consumed_authorizations k; mint_delay_epochs := d |}.

Definition set_kstate (s : KernelState) (k : TreasuryKernel) : TreasuryKernel := {|
  kstate := s; governance_authority := governance_authority k;
  kernel_address := kernel_address k; blocks_per_epoch := blocks_per_epoch k; paused := paused k;
  pending_mint_authorizations := pending_mint_authorizations k;
  pending_burn_authorizations := pending_burn_authorizations k;
  consumed_authorizations := consumed_authorizations k; mint_delay_epochs := mint_delay_epochs k |}.

Notation KM := (M Treasury KernelOpError) (only parsing).

(** A method of the token contract, with its error translated. *)
Definition on_token {A : Type} (m : M TokenContract string A) (f : string → KernelOpError) : KM A :=
  λ w, let '(t, r) := m (token w) in
       (set_token t w, match r with Ok a => Ok a | Err e => Err (f e) end).

Definition str_contains (sub s : string) : bool :=
  match String.index 0 sub s with Some _ => true | None => false end.

Definition mint_error (e : string) : KernelOpError :=
  if str_contains "exceed maximum supply" e then ExceedsMaxSupply
  else if str_contains "disabled" e then MintingDisabled else Unauthorized.

Definition verify_caller (c : PublicKey) : KM unit :=
  k <- gets kernel ;;
  guard (negb (paused k)) Paused ;;;
  guard (bool_decide (c = kernel_address k) || bool_decide (c = governance_authority k)) Unauthorized.

Definition verify_governance (c : PublicKey) : KM unit :=
  k <- gets kernel ;;
  guard (bool_decide (c = governance_authority k)) Unauthorized.

Definition credit (c to : PublicKey) (amount : Z) (reason : CreditReason) : KM unit :=
  verify_caller c ;;;
  k <- gets kernel ;;
  match reason with
  | CMint | CUbiDistribution => on_token (mint_kernel_only (kernel_address k) to amount) mint_error
  | CFeeDistribution | CReward | CTransfer => on_token (credit_balance to amount) (λ _, Overflow)
  end.

Definition debit (c from : PublicKey) (amount : Z) (reason : DebitReason) : KM unit :=
  verify_caller c ;;;
  match reason with
  | DBurn =>
      t <- gets token ;;
      guard (amount <=? balance_of from t) InsufficientBalance ;;;
      modify (set_token (with_supply (saturating_sub (total_supply t) amount)
                (set_balance from (wsub 128 (balance_of from t) amount) t)))
  | DFeeCollection | DSlash | DTransfer => on_token (debit_balance from amount) (λ _, InsufficientBalance)
  end.

Definition lock (c account : PublicKey) (amount : Z) : KM unit :=
  verify_caller c ;;;
  on_token (lock_balance account amount) (λ _, InsufficientBalance).

Definition release (c account : PublicKey) (amount : Z) : KM unit :=
  verify_caller c ;;;
  on_token (release_balance account amount) (λ _, InsufficientLockedBalance).

Definition pause (c : PublicKey) : KM unit :=
  verify_governance c ;;;
  modify (λ w, set_kernel (set_paused true (kernel w)) w).

Definition unpause (c : PublicKey) : KM unit :=
  verify_governance c ;;;
  modify (λ w, set_kernel (set_paused false (kernel w)) w).

Definition kernel_transfer (c from to : PublicKey) (amount : Z) : KM unit :=
  verify_caller c ;;;
  on_token (debit_balance from amount) (λ _, InsufficientBalance) ;;;
  on_token (credit_balance to amount) (λ _, Overflow).

(** ** Delayed authorizations *)

Definition register_mint_authorization (a : MintAuthorization) : KM unit :=
  k <- gets kernel ;;
  guard (negb (bool_decide (ma_proposal_id a ∈ consumed_authorizations k))) AuthorizationConsumed ;;;
  guard (saturating_add 64 (ma_authorized_at_epoch a) (mint_delay_epochs k)
           <=? ma_executable_after_epoch a) DelayNotElapsed ;;;
  modify (set_kernel (set_authorizations (<[ma_proposal_id a := a]> (pending_mint_authorizations k))
    (pending_burn_authorizations k) (consumed_authorizations k) k)).

Definition register_burn_authorization (a : BurnAuthorization) : KM unit :=
  k <- gets kernel ;;
  guard (negb (bool_decide (ba_proposal_id a ∈ consumed_authorizations k))) AuthorizationConsumed ;;;
  guard (saturating_add 64 (ba_authorized_at_epoch a) (mint_delay_epochs k)
           <=? ba_executable_after_epoch a) DelayNotElapsed ;;;
  modify (set_kernel (set_authorizations (pending_mint_authorizations k)
    (<[ba_proposal_id a := a]> (pending_burn_authorizations k)) (consumed_authorizations k) k)).

Definition ma_consume (a : MintAuthorization) : MintAuthorization := {|
  ma_proposal_id := ma_proposal_id a; ma_reason := ma_reason a;
  ma_authorized_amount := ma_authorized_amount a; ma_recipient_key_id := ma_recipient_key_id a;
  ma_authorized_at_epoch := ma_authorized_at_epoch a;
  ma_executable_after_epoch := ma_executable_after_epoch a; ma_consumed := true |}.

Definition ba_consume (a : BurnAuthorization) : BurnAuthorization := {|
  ba_proposal_id := ba_proposal_id a; ba_authorized_amount := ba_authorized_amount a;
  ba_from_key_id := ba_from_key_id a; ba_authorized_at_epoch := ba_authorized_at_epoch a;
  ba_executable_after_epoch := ba_executable_after_epoch a; ba_consumed := true |}.

Definition execute_authorized_mint (proposal_id current_epoch : Z) : KM unit :=
  k <- gets kernel ;;
  guard (negb (paused k)) Paused ;;;
  guard (negb (bool_decide (proposal_id ∈ consumed_authorizations k))) AuthorizationConsumed ;;;
  auth <- lift (ok_or (pending_mint_authorizations k !! proposal_id) MissingAuthorization) ;;
  guard (negb (ma_consumed auth)) AuthorizationConsumed ;;;
  guard (ma_executable_after_epoch auth <=? current_epoch) DelayNotElapsed ;;;
  credit (kernel_address k) (synthetic_key (ma_recipient_key_id auth)) (ma_authorized_amount auth) CMint ;;;
  modify (λ w, set_kernel (set_authorizations
    (alter ma_consume proposal_id (pending_mint_authorizations (kernel w)))
    (pending_burn_authorizations (kernel w))
    ({[proposal_id]} ∪ consumed_authorizations (kernel w)) (kernel w)) w).

Definition execute_authorized_burn (proposal_id current_epoch : Z) : KM unit :=
  k <- gets kernel ;;
  guard (negb (paused k)) Paused ;;;
  guard (negb (bool_decide (proposal_id ∈ consumed_authorizations k))) AuthorizationConsumed ;;;
  auth <- lift (ok_or (pending_burn_authorizations k !! proposal_id) MissingAuthorization) ;;
  guard (negb (ba_consumed auth)) AuthorizationConsumed ;;;
  guard (ba_executable_after_epoch auth <=? current_epoch) DelayNotElapsed ;;;
  debit (kernel_address k) (synthetic_key (ba_from_key_id auth)) (ba_authorized_amount auth) DBurn ;;;
  modify (λ w, set_kernel (set_authorizations (pending_mint_authorizations (kernel w))
    (alter ba_consume proposal_id (pending_burn_authorizations (kernel w)))
    ({[proposal_id]} ∪ consumed_authorizations (kernel w)) (kernel w)) w).

Definition set_mint_delay_epochs (c : PublicKey) (delay : Z) : KM unit :=
  verify_governance c ;;;
  modify (λ w, set_kernel (set_mint_delay delay (kernel w)) w).

(** ** Vesting *)

(** The order of keys with one identifier. *)
Definition key_before (a b : PublicKey) : bool :=
  (dilithium_pk a <? dilithium_pk b) ||
  ((dilithium_pk a =? dilithium_pk b) && (kyber_pk a <? kyber_pk b)).

(** The first key of the map with this identifier. *)
Definition find_by_key_id (id : Z) (m : gmap PublicKey Z) : option PublicKey :=
  map_fold (λ k _ acc, if key_id k =? id then
    match acc with Some b => if key_before k b then Some k else acc | None => Some k end
    else acc) None m.

Definition find_beneficiary_key (id : Z) (t : TokenContract) : PublicKey :=
  match find_by_key_id id (balances t), find_by_key_id id (locked_balances t) with
  | Some k, _ => k
  | None, Some k => k
  | None, None => synthetic_key id
  end.

Section Vesting.
Context `{VestingHash}.

Definition create_vesting (c b : PublicKey) (s : VestingSchedule) (current_epoch : Z) (r : bool) : KM Z :=
  verify_caller c ;;;
  guard (VestingSchedule_is_valid s) InvalidVestingSchedule ;;;
  w <- gets (λ w, w) ;;
  let '(v, id) := generate_id (key_id (kernel_address (kernel w))) (vesting w) in
  modify (set_vesting v) ;;;
  lock c b (total_amount s) ;;;
  modify (λ w, set_vesting (add_lock (VestingLock_new id (key_id b) s current_epoch r) (vesting w)) w) ;;;
  ret id.

Definition release_vested (c : PublicKey) (id current_epoch : Z) : KM Z :=
  v <- gets vesting ;;
  l <- lift (ok_or (locks v !! id) VestingNotFound) ;;
  (if key_id c =? beneficiary l then ret tt else verify_caller c) ;;;
  match VestingLock_status current_epoch l with
  | VPending => throw VestingNotStarted
  | VBeforeCliff => throw VestingCliffNotReached
  | VCompleted => throw VestingAlreadyFullyReleased
  | VRevoked | VActive => ret tt
  end ;;;
  let available := available_to_release current_epoch l in
  guard (negb (available =? 0)) VestingAlreadyFullyReleased ;;;
  w <- gets (λ w, w) ;;
  release (kernel_address (kernel w)) (find_beneficiary_key (beneficiary l) (token w)) available ;;;
  l' <- lift (match VestingLock_record_release available l with Ok l' => Ok l' | Err _ => Err Overflow end) ;;
  modify (λ w, set_vesting (VestingState_record_release available
    (with_locks (<[id := l']> (locks (vesting w))) (vesting w))) w) ;;;
  ret available.

(** The part that has not vested is unlocked and moved away. *)
Definition return_unvested (b : Z) (return_to : PublicKey) (unvested : Z) : KM unit :=
  if 0 <? unvested then
    w <- gets (λ w, w) ;;
    let k := find_beneficiary_key b (token w) in
    release (kernel_address (kernel w)) k unvested ;;;
    kernel_transfer (kernel_address (kernel w)) k return_to unvested ;;;
    modify (λ w, set_vesting (VestingState_record_release unvested (vesting w)) w)
  else ret tt.

Definition revoke_vesting (c : PublicKey) (id : Z) (return_to : PublicKey) (current_epoch : Z) : KM Z :=
  verify_governance c ;;;
  v <- gets vesting ;;
  l <- lift (ok_or (locks v !! id) VestingNotFound) ;;
  x <- lift (match VestingLock_revoke current_epoch l with Ok x => Ok x | Err _ => Err Unauthorized end) ;;
  let '(l', unvested) := x in
  modify (λ w, set_vesting (with_locks (<[id := l']> (locks (vesting w))) (vesting w)) w) ;;;
  return_unvested (beneficiary l) return_to unvested ;;;
  ret unvested.

Definition total_releasable_for_beneficiary (b current_epoch : Z) (v : VestingState) : Z :=
  as_u 64 (sumZ ((λ id, match locks v !! id with Some l => available_to_release current_epoch l | None => 0 end)
                   <$> default [] (by_beneficiary v !! b))).

(** ** The reference value *)

Definition apply_srv_update (c : PublicKey) (committed : Z) (multiplier : option Z)
    (proposal_id height epoch : Z) : KM Z :=
  verify_governance c ;;;
  (match multiplier with
   | Some m =>
       s <- gets (λ w, srv_state (kstate (kernel w))) ;;
       s' <- lift (match update_stability_multiplier m s with Ok s' => Ok s' | Err _ => Err InvalidState end) ;;
       modify (λ w, set_kernel (set_kstate (set_srv s' (kstate (kernel w))) (kernel w)) w)
   | None => ret tt
   end) ;;;
  w <- gets (λ w, w) ;;
  x <- lift (match apply_update committed (total_supply (token w)) proposal_id height epoch
                     (srv_state (kstate (kernel w))) with
             | Ok x => Ok x
             | Err ChangeExceedsLimit => Err DelayNotElapsed
             | Err SRVPaused => Err Paused
             | Err _ => Err InvalidState
             end) ;;
  modify (λ w, set_kernel (set_kstate (set_srv x.1 (kstate (kernel w))) (kernel w)) w) ;;;
  ret x.2.

Definition set_srv_controls (c : PublicKey) (f : SRVState → SRVState) : KM unit :=
  verify_governance c ;;;
  modify (λ w, set_kernel (set_kstate (set_srv (f (srv_state (kstate (kernel w)))) (kstate (kernel w))) (kernel w)) w).

Definition set_srv_emergency_pause (c : PublicKey) (b : bool) : KM unit :=
  set_srv_controls c (λ s, with_srv_controls (stability_multiplier_bps s) (max_change_bps s) b s).

Definition set_srv_max_change (c : PublicKey) (bps : Z) : KM unit :=
  set_srv_controls c (λ s, with_srv_controls (stability_multiplier_bps s) bps (emergency_paused s) s).

(** ** Runs *)

Inductive KernelOp : Type :=
| KCredit (c to : PublicKey) (amount : Z) (r : CreditReason)
| KDebit (c from : PublicKey) (amount : Z) (r : DebitReason)
| KLock (c account : PublicKey) (amount : Z) | KRelease (c account : PublicKey) (amount : Z)
| KTransfer (c from to : PublicKey) (amount : Z) | KPause (c : PublicKey) | KUnpause (c : PublicKey)
| KRegisterMint (a : MintAuthorization) | KRegisterBurn (a : BurnAuthorization)
| KExecuteMint (id epoch : Z) | KExecuteBurn (id epoch : Z) | KDelay (c : PublicKey) (d : Z)
| KCreateVesting (c b : PublicKey) (s : VestingSchedule) (epoch : Z) (r : bool)
| KReleaseVested (c : PublicKey) (id epoch : Z)
| KRevokeVesting (c : PublicKey) (id : Z) (return_to : PublicKey) (epoch : Z)
| KSrvUpdate (c : PublicKey) (committed : Z) (m : option Z) (id height epoch : Z)
| KSrvPause (c : PublicKey) (b : bool) | KSrvLimit (c : PublicKey) (bps : Z).

(** The state an operation leaves, and whether it succeeded. *)
Definition kernel_step (op : KernelOp) (w : Treasury) : Treasury * bool :=
  let run {A : Type} (m : KM A) := let '(w', r) := m w in (w', is_ok r) in
  match op with
  | KCredit c to a r => run (credit c to a r)
  | KDebit c from a r => run (debit c from a r)
  | KLock c k a => run (lock c k a)
  | KRelease c k a => run (release c k a)
  | KTransfer c from to a => run (kernel_transfer c from to a)
  | KPause c => run (pause c)
  | KUnpause c => run (unpause c)
  | KRegisterMint a => run (register_mint_authorization a)
  | KRegisterBurn a => run (register_burn_authorization a)
  | KExecuteMint id e => run (execute_authorized_mint id e)
  | KExecuteBurn id e => run (execute_authorized_burn id e)
  | KDelay c d => run (set_mint_delay_epochs c d)
  | KCreateVesting c b s e r => run (create_vesting c b s e r)
  | KReleaseVested c id e => run (release_vested c id e)
  | KRevokeVesting c id b e => run (revoke_vesting c id b e)
  | KSrvUpdate c v m id h e => run (apply_srv_update c v m id h e)
  | KSrvPause c b => run (set_srv_emergency_pause c b)
  | KSrvLimit c b => run (set_srv_max_change c b)
  end.

(** How many executions of this authorization succeed in a run. *)
Definition executes (id : Z) (op : KernelOp) : bool :=
  match op with KExecuteMint i _ | KExecuteBurn i _ => i =? id | _ => false end.

Fixpoint executions (id : Z) (ops : list KernelOp) (w : Treasury) : Z :=
  match ops with
  | [] => 0
  | op :: ops =>
      let '(w', ok) := kernel_step op w in
      (if executes id op && ok then 1 else 0) + executions id ops w'
  end.

(** ** What programs keep *)

(** Every run of the program takes a state to a related one, failed runs included. *)
Definition keeps (R : Treasury → Treasury → Prop) {A : Type} (m : KM A) : Prop := ∀ w, R w (m w).1.

Definition same_consumed (w w' : Treasury) : Prop :=
  consumed_authorizations (kernel w) ⊆ consumed_authorizations (kernel w').
Definition same_vesting (w w' : Treasury) : Prop := vesting w' = vesting w.
Definition same_kernel (w w' : Treasury) : Prop := kernel w' = kernel w.
Definition same_locks (w w' : Treasury) : Prop :=
  locks (vesting w') = locks (vesting w) ∧ next_id (vesting w') = next_id (vesting w).

#[local] Instance same_consumed_preorder : PreOrder same_consumed.
Proof. split; unfold same_consumed; [intros ?; done|intros ? ? ? ? ?; set_solver]. Qed.
#[local] Instance same_vesting_preorder : PreOrder same_vesting.
Proof. split; unfold same_vesting; [intros ?; done|intros ? ? ? ? ?; congruence]. Qed.
#[local] Instance same_kernel_preorder : PreOrder same_kernel.
Proof. split; unfold same_kernel; [intros ?; done|intros ? ? ? ? ?; congruence]. Qed.
#[local] Instance same_locks_preorder : PreOrder same_locks.
Proof. split; unfold same_locks; [intros ?; done|intros ? ? ? [] []; split; congruence]. Qed.

Section Keeps.
Context (R : Treasury → Treasury → Prop) `{!PreOrder R}.

Lemma keeps_bind {A B : Type} (m : KM A) (f : A → KM B) :
  keeps R m → (∀ a, keeps R (f a)) → keeps R (bind m f).
Proof.
  intros Hm Hf w. unfold bind. specialize (Hm w). destruct (m w) as [w' [a|e]]; [|done].
  etransitivity; [exact Hm|apply Hf].
Qed.

Lemma keeps_gets {A B : Type} (g : Treasury → A) (f : A → KM B) :
  (∀ w, R w (f (g w) w).1) → keeps R (bind (gets g) f).
Proof. intros Hf w. apply Hf. Qed.

Lemma keeps_pure {A : Type} (m : KM A) : (∀ w, (m w).1 = w) → keeps R m.
Proof. intros Hm w. by rewrite Hm. Qed.

Lemma keeps_modify (f : Treasury → Treasury) : (∀ w, R w (f w)) → keeps R (modify f).
Proof. intros Hf w. apply Hf. Qed.

Lemma keeps_on_token {A : Type} (m : M TokenContract string A) f :
  (∀ t w, R w (set_token t w)) → keeps R (on_token m f).
Proof. intros Hs w. unfold on_token. destruct (m (token w)). apply Hs. Qed.

Lemma keeps_guard b e : keeps R (guard b e).
Proof. by apply keeps_pure; destruct b. Qed.

End Keeps.

Ltac kept := intros; unfold same_consumed, same_vesting, same_kernel, same_locks; cbn; try done; set_solver.
Ltac keeps :=
  repeat first
    [ apply keeps_bind; [apply _| |intros ?] | apply keeps_on_token; kept | apply keeps_guard; apply _
    | apply keeps_modify; kept | by apply keeps_pure; [apply _|]
    | match goal with |- keeps _ (match ?x with _ => _ end) => destruct x end ].

(** The operations on the token change neither the kernel nor the vesting state. *)
Lemma keeps_lock c k a R `{!PreOrder R} : (∀ t w, R w (set_token t w)) → keeps R (lock c k a).
Proof. intros Hs. unfold lock, verify_caller. keeps. Qed.

Lemma keeps_release c k a R `{!PreOrder R} : (∀ t w, R w (set_token t w)) → keeps R (release c k a).
Proof. intros Hs. unfold release, verify_caller. keeps. Qed.

Lemma keeps_transfer c f k a R `{!PreOrder R} :
  (∀ t w, R w (set_token t w)) → keeps R (kernel_transfer c f k a).
Proof. intros Hs. unfold kernel_transfer, verify_caller. keeps. Qed.

Lemma keeps_credit c k a r R `{!PreOrder R} : (∀ t w, R w (set_token t w)) → keeps R (credit c k a r).
Proof. intros Hs. unfold credit, verify_caller. keeps. Qed.

Lemma keeps_debit c k a r R `{!PreOrder R} : (∀ t w, R w (set_token t w)) → keeps R (debit c k a r).
Proof.
  intros Hs. unfold debit, verify_caller. keeps.
Qed.

(** The registrations write back the consumed set they read. *)
Lemma keeps_register_mint a R `{!PreOrder R} :
  (∀ x y w, R w (set_kernel (set_authorizations x y (consumed_authorizations (kernel w)) (kernel w)) w)) →
  keeps R (register_mint_authorization a).
Proof.
  intros Hs w. unfold register_mint_authorization, bind, gets, guard, modify, throw, ret.
  repeat case_match; simplify_eq/=; first [done|reflexivity|apply Hs].
Qed.

Lemma keeps_register_burn a R `{!PreOrder R} :
  (∀ x y w, R w (set_kernel (set_authorizations x y (consumed_authorizations (kernel w)) (kernel w)) w)) →
  keeps R (register_burn_authorization a).
Proof.
  intros Hs w. unfold register_burn_authorization, bind, gets, guard, modify, throw, ret.
  repeat case_match; simplify_eq/=; first [done|reflexivity|apply Hs].
Qed.

Ltac keeps_op :=
  repeat first
    [ apply keeps_lock; [apply _|kept] | apply keeps_release; [apply _|kept]
    | apply keeps_transfer; [apply _|kept] | apply keeps_credit; [apply _|kept]
    | apply keeps_debit; [apply _|kept] | apply keeps_register_mint; [apply _|kept]
    | apply keeps_register_burn; [apply _|kept]
    | progress unfold pause, unpause, set_mint_delay_epochs, create_vesting, release_vested,
        revoke_vesting, return_unvested, apply_srv_update, set_srv_emergency_pause, set_srv_max_change,
        set_srv_controls, verify_governance, verify_caller, execute_authorized_mint,
        execute_authorized_burn
    | apply keeps_bind; [apply _| |intros ?] | apply keeps_guard; apply _
    | apply keeps_modify; kept | by apply keeps_pure; [apply _|]
    | match goal with |- keeps _ (match ?x with _ => _ end) => destruct x end ].

Lemma step_run {A : Type} (m : KM A) R w : keeps R m → R w (let '(w', r) := m w in (w', is_ok r)).1.
Proof. intros Hm. specialize (Hm w). by destruct (m w). Qed.

Lemma step_keeps_consumed op w : same_consumed w (kernel_step op w).1.
Proof. destruct op; cbn [kernel_step]; apply step_run; keeps_op. Qed.

(** The operations that touch the vesting state. *)
Definition vesting_op (op : KernelOp) : bool :=
  match op with KCreateVesting _ _ _ _ _ | KReleaseVested _ _ _ | KRevokeVesting _ _ _ _ => true | _ => false end.

Lemma step_keeps_vesting op w : vesting_op op = false → same_vesting w (kernel_step op w).1.
Proof. intros Hv. destruct op; try done; cbn [kernel_step]; apply step_run; keeps_op. Qed.

(** ** Authorizations are executed once *)

(** What a successful execution has found: an authorization that was pending, whose
    epoch has come. *)
Definition due (id : Z) (op : KernelOp) (k : TreasuryKernel) : Prop :=
  match op with
  | KExecuteMint _ e => ∃ a, pending_mint_authorizations k !! id = Some a ∧ ma_executable_after_epoch a <= e
  | KExecuteBurn _ e => ∃ a, pending_burn_authorizations k !! id = Some a ∧ ba_executable_after_epoch a <= e
  | _ => False
  end.

Lemma execution_consumes id op w w' :
  executes id op = true → kernel_step op w = (w', true) →
  id ∉ consumed_authorizations (kernel w) ∧ id ∈ consumed_authorizations (kernel w') ∧
  paused (kernel w) = false ∧ due id op (kernel w).
Proof.
  intros Hx Hs. destruct op as [| | | | | | | | |i e|i e| | | | | | |]; try done; cbn in Hx; cbv beta iota zeta delta [kernel_step] in Hs;
    apply Z.eqb_eq in Hx as ->.
  - destruct (execute_authorized_mint id e w) as [w1 [u|]] eqn:Hm; simplify_eq/=.
    unfold execute_authorized_mint in Hm. monad_inv. int_inv.
    rewrite bool_decide_eq_false in *. split_and!; [done|by apply elem_of_union_l, elem_of_singleton|done|eauto].
  - destruct (execute_authorized_burn id e w) as [w1 [u|]] eqn:Hm; simplify_eq/=.
    unfold execute_authorized_burn in Hm. monad_inv. int_inv.
    rewrite bool_decide_eq_false in *. split_and!; [done|by apply elem_of_union_l, elem_of_singleton|done|eauto].
Qed.

Lemma consumed_no_execution id ops w :
  id ∈ consumed_authorizations (kernel w) → executions id ops w = 0.
Proof.
  revert w. induction ops as [|op ops IH]; intros w Hin; [done|]. cbn [executions].
  pose proof (step_keeps_consumed op w) as Hk. destruct (kernel_step op w) as [w' ok] eqn:Hs.
  rewrite IH by (cbn in Hk; set_solver). destruct (executes id op) eqn:Hx; [|done].
  destruct ok; [|done]. destruct (execution_consumes id op w w' Hx Hs) as [Hn _]. done.
Qed.

(** C22: an authorization is worth one mint or burn.  In any run of kernel
    operations at most one execution under a proposal succeeds, whether it mints or
    burns and however often the proposal is registered; and one that succeeds finds
    the kernel running and a pending authorization whose epoch has come. *)
Theorem authorization_once id ops w :
  executions id ops w <= 1 ∧
  ∀ op w', executes id op = true → kernel_step op w = (w', true) →
    paused (kernel w) = false ∧ due id op (kernel w) ∧ executions id ops w' = 0.
Proof.
  split; cycle 1.
  { intros op w' Hx Hs. destruct (execution_consumes id op w w' Hx Hs) as (_ & Hin & Hp & Hd).
    split_and!; [done|done|]. by apply consumed_no_execution. }
  revert w. induction ops as [|op ops IH]; intros w; [done|]. cbn [executions].
  destruct (kernel_step op w) as [w' ok] eqn:Hs. destruct (executes id op) eqn:Hx; [|apply IH].
  destruct ok; [|apply IH]. destruct (execution_consumes id op w w' Hx Hs) as (_ & Hin & _).
  cbn. by rewrite consumed_no_execution.
Qed.

(** ** Schedules *)

Record schedule_ok (s : VestingSchedule) : Prop := {
  ok_valid : VestingSchedule_is_valid s = true;
  ok_start : 0 <= start_epoch s; ok_end : end_epoch s <= umax 64; ok_amount : total_amount s <= umax 64;
}.

Lemma schedule_order s :
  schedule_ok s → 0 <= start_epoch s <= cliff_epoch s ∧ cliff_epoch s <= end_epoch s ∧ 0 < total_amount s.
Proof.
  intros [Hv ? ? ?]. unfold VestingSchedule_is_valid in Hv. int_inv. lia.
Qed.

(** The vested amount is the linear formula, computed without overflow. *)
Lemma vested_amount_spec e s :
  schedule_ok s →
  vested_amount e s =
    if e <? start_epoch s then 0
    else if end_epoch s <=? e then total_amount s
    else total_amount s * (e - start_epoch s) / (end_epoch s - start_epoch s).
Proof.
  intros Hs. pose proof (schedule_order s Hs). destruct Hs as [_ ? ? ?]. unfold vested_amount.
  destruct (Z.ltb_spec e (start_epoch s)); [done|]. destruct (Z.leb_spec (end_epoch s) e); [done|].
  rewrite (proj2 (Z.eqb_neq _ _)) by lia.
  rewrite saturating_mul_small by (change (umax 64) with (2 ^ 64 - 1) in *; change (umax 128) with (2 ^ 128 - 1); nia).
  apply as_u_small. split; [apply Z.div_pos; nia|].
  etransitivity; [apply Z.div_le_upper_bound with (q := total_amount s)|]; nia.
Qed.

Lemma vested_amount_mono e e' s :
  schedule_ok s → e <= e' → 0 <= vested_amount e s <= vested_amount e' s ∧ vested_amount e' s <= total_amount s.
Proof.
  intros Hs He. pose proof (schedule_order s Hs). rewrite !vested_amount_spec by done.
  assert (∀ x, start_epoch s <= x < end_epoch s →
    0 <= total_amount s * (x - start_epoch s) / (end_epoch s - start_epoch s) <= total_amount s) as Hb.
  { intros x Hx. split; [apply Z.div_pos; nia|]. apply Z.div_le_upper_bound; nia. }
  destruct (Z.ltb_spec e (start_epoch s)), (Z.ltb_spec e' (start_epoch s)),
    (Z.leb_spec (end_epoch s) e), (Z.leb_spec (end_epoch s) e'); try lia;
    try pose proof (Hb e ltac:(lia)); try pose proof (Hb e' ltac:(lia)); try lia.
  split; [split; [lia|]|lia]. apply Z.div_le_mono; nia.
Qed.

Lemma releasable_mono e e' s :
  schedule_ok s → e <= e' →
  0 <= releasable_amount e s <= releasable_amount e' s ∧
  releasable_amount e' s <= vested_amount e' s <= total_amount s.
Proof.
  intros Hs He. pose proof (vested_amount_mono e e' s Hs He). pose proof (vested_amount_mono e' e' s Hs).
  unfold releasable_amount. destruct (Z.ltb_spec e (cliff_epoch s)), (Z.ltb_spec e' (cliff_epoch s)); lia.
Qed.

(** ** What the vesting operations do to the locks *)

Lemma lock_balance_err k a t t1 e : lock_balance k a t = (t1, Err e) → t1 = t.
Proof. unfold lock_balance, bind, gets, guard, throw, ret, modify, lift, ok_or. intros H1. by repeat case_match; simplify_eq. Qed.

#[local] Arguments lock_balance : simpl never.
#[local] Arguments release_balance : simpl never.

Lemma create_vesting_cases c b s e r w :
  let w' := (create_vesting c b s e r w).1 in
  let v1 := with_next_id (wadd 64 (next_id (vesting w)) 1) (vesting w) in
  (token w' = token w ∧ (vesting w' = vesting w ∨ vesting w' = v1)) ∨
  VestingSchedule_is_valid s = true ∧
  lock_balance b (total_amount s) (token w) = (token w', Ok tt) ∧
  vesting w' = add_lock (VestingLock_new
    (vesting_id (key_id (kernel_address (kernel w))) (next_id (vesting w))) (key_id b) s e r) v1.
Proof.
  cbn zeta. destruct (lock_balance b (total_amount s) (token w)) as [t' [[]|x]] eqn:Hl;
    unfold create_vesting, lock, on_token, verify_caller, bind, gets, guard, throw, ret, modify; cbn.
  all: destruct (paused (kernel w)) eqn:Hp; [by left; auto|]; cbn.
  all: destruct (_ || _) eqn:Hc; [|by left; auto]; cbn.
  all: destruct (VestingSchedule_is_valid s); [|by left; auto]; cbn.
  all: rewrite Hp, Hc; cbn; rewrite Hl; cbn.
  - by right.
  - left. split; [by eapply lock_balance_err|by right].
Qed.

Lemma release_balance_err k a t t1 e : release_balance k a t = (t1, Err e) → t1 = t.
Proof. unfold release_balance, bind, gets, guard, throw, ret, modify. intros H1. by repeat case_match; simplify_eq. Qed.

(** The kernel releasing on its own account fails only when it is paused or the
    balance is not locked. *)
Lemma release_by_kernel k a w :
  release (kernel_address (kernel w)) k a w =
  if paused (kernel w) then (w, Err Paused)
  else on_token (release_balance k a) (λ _, InsufficientLockedBalance) w.
Proof.
  unfold release, verify_caller, bind, gets, guard, throw, ret.
  destruct (paused (kernel w)); cbn; [done|]. by rewrite bool_decide_eq_true_2.
Qed.

Lemma release_vested_cases c id e w :
  let '(w', r) := release_vested c id e w in
  (w' = w ∧ is_ok r = false) ∨
  ∃ l, let a := available_to_release e l in
    let k := find_beneficiary_key (beneficiary l) (token w) in
    locks (vesting w) !! id = Some l ∧ a ≠ 0 ∧
    release_balance k a (token w) = (token w', Ok tt) ∧
    (is_ok r = false ∧ vesting w' = vesting w ∧
     (umax 64 < amount_released l + a ∨ total_amount (schedule l) < amount_released l + a) ∨
     r = Ok a ∧ amount_released l + a <= umax 64 ∧ amount_released l + a <= total_amount (schedule l) ∧
     vesting w' = VestingState_record_release a
       (with_locks (<[id := with_released (amount_released l + a) l]> (locks (vesting w))) (vesting w))).
Proof.
  unfold release_vested, bind, gets, guard, throw, ret, lift, ok_or at 1; cbn.
  destruct (locks (vesting w) !! id) as [l|] eqn:Hl; [cbn|by left].
  assert (((if key_id c =? beneficiary l then λ s, (s, Ok tt) else verify_caller c) : KM unit) w = (w, Ok tt) ∨
    ∃ x, ((if key_id c =? beneficiary l then λ s, (s, Ok tt) else verify_caller c) : KM unit) w = (w, Err x))
    as [->|[x ->]]; [|cbn|by left].
  { unfold verify_caller, bind, gets, guard, throw, ret. repeat case_match; simplify_eq; eauto. }
  destruct (VestingLock_status e l); cbn; try by left.
  all: destruct (Z.eqb_spec (available_to_release e l) 0) as [|Hne]; cbn; [by left|].
  all: rewrite release_by_kernel; destruct (paused (kernel w)); [by left|].
  all: unfold on_token; destruct (release_balance _ _ (token w)) as [t' [[]|x]] eqn:Hb; cbn;
    [|left; split; [apply release_balance_err in Hb as ->; by destruct w|done]].
  all: unfold VestingLock_record_release, ok_or.
  all: destruct (checked_add _ _ _) as [n|] eqn:Hn; int_inv; cbn;
    [|right; exists l; split_and!; [done..|left; auto]].
  all: destruct (Z.ltb_spec (total_amount (schedule l)) (amount_released l + available_to_release e l)); cbn;
    right; exists l; split_and!; try done; auto.
Qed.

Lemma keeps_return b k u : keeps same_locks (return_unvested b k u).
Proof. keeps_op. Qed.

#[local] Arguments return_unvested : simpl never.

Lemma revoke_vesting_cases c id k e w :
  let w' := (revoke_vesting c id k e w).1 in
  vesting w' = vesting w ∨
  ∃ l, locks (vesting w) !! id = Some l ∧ lock_revoked_epoch l = None ∧
    locks (vesting w') = <[id := with_revoked e l]> (locks (vesting w)) ∧
    next_id (vesting w') = next_id (vesting w).
Proof.
  cbn zeta. unfold revoke_vesting, verify_governance, bind, gets, guard, throw, ret, modify, lift, ok_or.
  cbn. repeat (case_match; simplify_eq; try (by left)).
  all: match goal with H : return_unvested ?b ?k ?u ?x = (?y, _) |- _ =>
         pose proof (keeps_return b k u x) as Hl; rewrite H in Hl; destruct Hl as [Hl Hn]; cbn in Hl, Hn end.
  all: unfold VestingLock_revoke in *; repeat case_match; simplify_eq; right; eexists.
  all: rewrite ?Hl, ?Hn; split_and!; try done.
  all: destruct (lock_revoked_epoch _); [|done]; case_bool_decide; naive_solver.
Qed.

(** ** Payments follow the schedule *)

Definition op_epoch (op : KernelOp) : option Z :=
  match op with
  | KCreateVesting _ _ _ e _ | KReleaseVested _ _ e | KRevokeVesting _ _ _ e => Some e
  | _ => None
  end.

(** The schedule of a creation is of u64 fields. *)
Definition op_typed (op : KernelOp) : Prop :=
  match op with
  | KCreateVesting _ _ s _ _ => 0 <= start_epoch s ∧ end_epoch s <= umax 64 ∧ total_amount s <= umax 64
  | _ => True
  end.

(** The payment an operation makes out of a vesting. *)
Definition paid_by (op : KernelOp) (w : Treasury) : list (Z * Z) :=
  match op with
  | KReleaseVested c id e => match release_vested c id e w with (_, Ok a) => [(id, a)] | _ => [] end
  | _ => []
  end.

Definition paid (id : Z) (log : list (Z * Z)) : Z := sumZ ((λ p, if p.1 =? id then p.2 else 0) <$> log).

(** Runs from an empty vesting state: kernel operations in the order of their
    epochs, between them any other change of the token; with the payments made.  The
    counter of vestings does not wrap. *)
Inductive vesting_reach : Z → Treasury → list (Z * Z) → Prop :=
| vr_start now k t : vesting_reach now {| kernel := k; token := t; vesting := VestingState_new |} []
| vr_step now now' w log op :
    vesting_reach now w log → now <= now' → op_typed op →
    match op_epoch op with Some e => e = now' | None => True end →
    0 <= key_id (kernel_address (kernel w)) < 2 ^ 256 → next_id (vesting w) + 1 < 2 ^ 64 →
    vesting_reach now' (kernel_step op w).1 (log ++ paid_by op w)
| vr_token now w log t : vesting_reach now w log → vesting_reach now (set_token t w) log.

(** The counter inside an identifier. *)
Definition id_counter (id : Z) : Z := id / 2 ^ 64 mod 2 ^ 64.

Lemma vesting_id_counter kid n :
  0 <= kid < 2 ^ 256 → 0 <= n < 2 ^ 64 → id_counter (vesting_id kid n) = n.
Proof.
  intros Hk Hn. unfold id_counter, vesting_id.
  replace (_ + _ + _ + _) with (kid / 2 ^ 192 +
    ((as_u 64 (vesting_hash1 kid n) * 2 ^ 64 + as_u 64 (vesting_hash2 kid n)) * 2 ^ 64 + n) * 2 ^ 64) by lia.
  assert (0 <= kid / 2 ^ 192 < 2 ^ 64).
  { split; [apply Z.div_pos; lia|]. apply Z.div_lt_upper_bound; lia. }
  rewrite Z.div_add, Z.div_small, Z.add_0_l by lia.
  rewrite Z.add_comm, Z.mod_add by lia. by apply Z.mod_small.
Qed.

Record lock_on_schedule (now : Z) (log : list (Z * Z)) (id : Z) (l : VestingLock) : Prop := {
  los_schedule : schedule_ok (schedule l);
  los_revoked : match lock_revoked_epoch l with Some r => r <= now | None => True end;
  los_paid : paid id log = amount_released l;
  los_bound : 0 <= amount_released l <= releasable_amount (effective_epoch now l) (schedule l);
}.

Record on_schedule (now : Z) (w : Treasury) (log : list (Z * Z)) : Prop := {
  os_locks : ∀ id l, locks (vesting w) !! id = Some l → lock_on_schedule now log id l;
  os_next : 0 <= next_id (vesting w) < 2 ^ 64;
  os_ids : ∀ id, is_Some (locks (vesting w) !! id) → id_counter id < next_id (vesting w);
  os_log : ∀ id a, (id, a) ∈ log → is_Some (locks (vesting w) !! id);
}.

Lemma paid_app id log p : paid id (log ++ p) = paid id log + paid id p.
Proof. unfold paid. by rewrite fmap_app, sumZ_app. Qed.

Lemma paid_none id log : (∀ a, (id, a) ∉ log) → paid id log = 0.
Proof.
  unfold paid. induction log as [|[i a] log IH]; intros Hn; [done|].
  rewrite fmap_cons, sumZ_cons, IH by set_solver. cbn.
  destruct (Z.eqb_spec i id) as [->|]; [|done]. destruct (Hn a). left.
Qed.

Lemma lock_on_schedule_later now now' log id l :
  now <= now' → lock_on_schedule now log id l → lock_on_schedule now' log id l.
Proof.
  intros Hle [Hs Hr Hp Hb]. unfold effective_epoch in *.
  destruct (lock_revoked_epoch l) as [r|] eqn:Hl; split; unfold effective_epoch; rewrite ?Hl; try done; try lia.
  - by rewrite (Z.min_l r now') by lia; rewrite (Z.min_l r now) in Hb by lia.
  - pose proof (releasable_mono now now' (schedule l) Hs Hle). lia.
Qed.

Lemma on_schedule_later now now' w log : now <= now' → on_schedule now w log → on_schedule now' w log.
Proof. intros Hle [Hl ? ? ?]. split; eauto using lock_on_schedule_later. Qed.

(** The invariant depends on the locks and the counter only. *)
Lemma on_schedule_same now w w' log :
  locks (vesting w') = locks (vesting w) → next_id (vesting w') = next_id (vesting w) →
  on_schedule now w log → on_schedule now w' log.
Proof. intros Hl Hn [? ? ? ?]. split; rewrite ?Hl, ?Hn; done. Qed.

Lemma create_on_schedule now w log c b s r :
  on_schedule now w log → op_typed (KCreateVesting c b s now r) →
  0 <= key_id (kernel_address (kernel w)) < 2 ^ 256 → next_id (vesting w) + 1 < 2 ^ 64 →
  on_schedule now (create_vesting c b s now r w).1 log.
Proof.
  intros Hos (Hs0 & Hs1 & Hs2) Hk Hw.
  pose proof Hos as [Hl Hn Hi Hg].
  destruct (create_vesting_cases c b s now r w) as [(_ & [E|E])|(Hv & _ & E)];
    [by apply (on_schedule_same _ w); rewrite ?E|..]; rewrite wadd_small in E by (unfold umax; lia).
  { split; rewrite E; cbn; [done|lia| |done]. intros i Hx%Hi. lia. }
  set (id := vesting_id (key_id (kernel_address (kernel w))) (next_id (vesting w))) in *.
  assert (id_counter id = next_id (vesting w)) as Hid by (apply vesting_id_counter; lia).
  assert (locks (vesting w) !! id = None) as Hf.
  { apply eq_None_not_Some. intros Hx%Hi. lia. }
  split; rewrite E; cbn.
  - intros i l. rewrite lookup_insert_Some. intros [[<- <-]|[Hne Hx]]; [|by apply Hl].
    assert (schedule_ok s) as Hok by (by split).
    split; [done|done| |]; cbn.
    + apply paid_none. intros a Ha%Hg. rewrite Hf in Ha. by destruct Ha.
    + pose proof (releasable_mono now now s Hok). lia.
  - lia.
  - intros i. rewrite lookup_insert_is_Some. intros [<-|[_ Hx%Hi]]; lia.
  - intros i a Ha%Hg. rewrite lookup_insert_is_Some. destruct (decide (id = i)); auto.
Qed.

Lemma release_on_schedule now w log c id :
  on_schedule now w log →
  on_schedule now (release_vested c id now w).1 (log ++ paid_by (KReleaseVested c id now) w).
Proof.
  intros Hos. pose proof Hos as [Hl Hn Hi Hg]. cbn [paid_by]. pose proof (release_vested_cases c id now w) as Hc.
  destruct (release_vested c id now w) as [w' r].
  destruct Hc as [[-> Hr]|(l & Hl0 & Ha & _ & [(Hr & E & _)|(-> & Hm & Ht & E)])].
  { destruct r; [done|]. by rewrite app_nil_r. }
  { destruct r; [done|]. rewrite app_nil_r. apply (on_schedule_same _ w); cbn [fst]; by rewrite ?E. }
  destruct (Hl id l Hl0) as [Hs Hrv Hp Hb].
  assert (available_to_release now l = releasable_amount (effective_epoch now l) (schedule l) - amount_released l) as Hav.
  { unfold available_to_release, saturating_sub. lia. }
  split; cbn [fst]; rewrite E; cbn; [|done|..].
  - intros i l0. rewrite lookup_insert_Some. intros [[<- <-]|[Hne Hx]].
    + split; cbn; [done|done| |].
      * rewrite paid_app. unfold paid at 2. cbn. rewrite Z.eqb_refl. lia.
      * change (effective_epoch now (with_released _ l)) with (effective_epoch now l). lia.
    + destruct (Hl i l0 Hx) as [? ? Hp0 ?]. split; try done. rewrite paid_app.
      unfold paid at 2. cbn. rewrite (proj2 (Z.eqb_neq _ _)) by done. lia.
  - intros i. rewrite lookup_insert_is_Some. intros [<-|[_ Hx]]; apply Hi; [by rewrite Hl0|done].
  - intros i a. rewrite elem_of_app, list_elem_of_singleton, lookup_insert_is_Some.
    destruct (decide (id = i)); [by left|]. intros [Hx|[= ? ?]]; [|congruence]. right; split; eauto.
Qed.

Lemma revoke_on_schedule now w log c id k :
  on_schedule now w log → on_schedule now (revoke_vesting c id k now w).1 log.
Proof.
  intros Hos. pose proof Hos as [Hl Hn Hi Hg]. destruct (revoke_vesting_cases c id k now w) as [E|(l & Hl0 & Hr & E & En)].
  { by apply (on_schedule_same _ w); rewrite ?E. }
  split; rewrite ?E, ?En; [|done|..].
  - intros i l0. rewrite lookup_insert_Some. intros [[<- <-]|[Hne Hx]]; [|by apply Hl].
    destruct (Hl id l Hl0) as [Hs Hrv Hp Hb]. split; cbn; [done|lia|done|].
    unfold effective_epoch in *. rewrite Hr in Hb. cbn. by rewrite Z.min_id.
  - intros i. rewrite lookup_insert_is_Some. intros [<-|[_ Hx]]; apply Hi; [by rewrite Hl0|done].
  - intros i a Ha%Hg. rewrite lookup_insert_is_Some. destruct (decide (id = i)); auto.
Qed.

Lemma vesting_reach_on_schedule now w log : vesting_reach now w log → on_schedule now w log.
Proof.
  induction 1 as [now k t|now now' w log op _ IH Hle Ht He Hk Hn|now w log t _ IH].
  - split; cbn; [done|lia|by intros ? []|set_solver].
  - apply (on_schedule_later _ now') in IH; [|done]. destruct (vesting_op op) eqn:Hv.
    + destruct op; try done; cbn in He; subst.
      * rewrite app_nil_r. pose proof (create_on_schedule _ _ _ c b s r IH Ht Hk Hn) as Hx.
        cbn [kernel_step]. by destruct (create_vesting _ _ _ _ _ _).
      * pose proof (release_on_schedule _ _ _ c id IH) as Hx. cbn [kernel_step paid_by] in *.
        by destruct (release_vested _ _ _ _).
      * rewrite app_nil_r. pose proof (revoke_on_schedule _ _ _ c id return_to IH) as Hx.
        cbn [kernel_step]. by destruct (revoke_vesting _ _ _ _ _).
    + assert (paid_by op w = []) as -> by (by destruct op). rewrite app_nil_r.
      apply (on_schedule_same _ w); [..|done]; by rewrite (step_keeps_vesting op w Hv).
  - by apply (on_schedule_same _ w).
Qed.

(** C9: a vesting pays by its schedule.  Whatever kernel operations have run, at
    epochs that do not go back and with fewer than 2^64 vestings, and whatever else has happened to the token, the payments made out of a vesting add
    up to what its lock records, which is at most what the schedule has released by
    now, or by its revocation; so at most the total, and nothing before the cliff. *)
Theorem vesting_on_schedule now w log id l :
  vesting_reach now w log → locks (vesting w) !! id = Some l →
  let e := effective_epoch now l in
  paid id log = amount_released l ∧
  0 <= amount_released l <= releasable_amount e (schedule l) ∧
  releasable_amount e (schedule l) <= total_amount (schedule l) ∧
  (e < cliff_epoch (schedule l) → paid id log = 0) ∧
  (end_epoch (schedule l) <= e → paid id log + available_to_release now l = total_amount (schedule l)).
Proof.
  intros Hr Hl. cbn zeta. destruct (os_locks _ _ _ (vesting_reach_on_schedule _ _ _ Hr) id l Hl) as [Hs _ Hp Hb].
  pose proof (releasable_mono (effective_epoch now l) (effective_epoch now l) (schedule l) Hs).
  split_and!; [done|lia|lia|lia|..]; unfold available_to_release, saturating_sub.
  - intros He. unfold releasable_amount in *. rewrite (proj2 (Z.ltb_lt _ _)) in * by done. lia.
  - intros He. pose proof (schedule_order _ Hs). unfold releasable_amount in *.
    rewrite (proj2 (Z.ltb_ge _ _)) in * by lia. rewrite vested_amount_spec in * by done.
    rewrite (proj2 (Z.ltb_ge _ _)), (proj2 (Z.leb_le _ _)) in * by lia. lia.
Qed.

(** ** What has vested can be claimed *)

Lemma find_by_key_id_spec id m :
  match find_by_key_id id m with
  | Some k => is_Some (m !! k) ∧ key_id k = id
  | None => ∀ k, is_Some (m !! k) → key_id k ≠ id
  end.
Proof.
  unfold find_by_key_id. apply (map_fold_weak_ind (λ r (m : gmap PublicKey Z), match r with
    | Some k => is_Some (m !! k) ∧ key_id k = id | None => ∀ k, is_Some (m !! k) → key_id k ≠ id end)).
  { intros k. rewrite lookup_empty. by intros []. }
  intros k z m' r Hk IH.
  assert (∀ b, is_Some (m' !! b) → is_Some (<[k := z]> m' !! b)) as Hm.
  { intros b Hb. rewrite lookup_insert_is_Some. destruct (decide (k = b)); auto. }
  destruct (Z.eqb_spec (key_id k) id) as [<-|Hne]; destruct r as [b|].
  - destruct (key_before k b); [by rewrite lookup_insert_eq|]. destruct IH; auto.
  - by rewrite lookup_insert_eq.
  - destruct IH; auto.
  - intros k' [<-|[_ Hx]]%lookup_insert_is_Some; auto.
Qed.

Section Claimable.
Context (canon : Z → PublicKey) (canon_id : ∀ i, key_id (canon i) = i).

(** Every account of the token is the one its identifier names. *)
Record token_ready (t : TokenContract) : Prop := {
  ready_balances : ∀ k, is_Some (balances t !! k) → k = canon (key_id k);
  ready_locked : ∀ k, is_Some (locked_balances t !! k) → k = canon (key_id k);
  ready_typed : ∀ k v, locked_balances t !! k = Some v → 0 <= v <= umax 128;
}.

Lemma ready_locked_of t k : token_ready t → 0 <= locked_of k t <= umax 128.
Proof.
  intros Ht. unfold locked_of. destruct (locked_balances t !! k) as [v|] eqn:Hk; cbn.
  - by eapply ready_typed.
  - unfold umax. lia.
Qed.

Lemma find_ready t i : token_ready t → 0 < locked_of (canon i) t → find_beneficiary_key i t = canon i.
Proof.
  intros [Hb Hl _] Hp. unfold find_beneficiary_key.
  pose proof (find_by_key_id_spec i (balances t)) as H1.
  pose proof (find_by_key_id_spec i (locked_balances t)) as H2.
  destruct (find_by_key_id i (balances t)) as [k|].
  - destruct H1 as [H1 <-]. by apply Hb.
  - destruct (find_by_key_id i (locked_balances t)) as [k|].
    + destruct H2 as [H2 <-]. by apply Hl.
    + exfalso. unfold locked_of in Hp. destruct (locked_balances t !! canon i) as [v|] eqn:Hv; [|done].
      apply (H2 (canon i)); [by rewrite Hv|]. apply canon_id.
Qed.

(** Locking and releasing on a ready token. *)
Lemma canon_ne i j : i ≠ j → canon i ≠ canon j.
Proof. intros Hne E%(f_equal key_id). by rewrite !canon_id in E. Qed.

Lemma with_locked_ready t i a :
  token_ready t → 0 <= a <= umax 128 →
  token_ready (with_locked (<[canon i := a]> (locked_balances t)) t) ∧
  ∀ j, locked_of (canon j) (with_locked (<[canon i := a]> (locked_balances t)) t) =
    if j =? i then a else locked_of (canon j) t.
Proof.
  intros [Hb Hk Hv] Ha. split; [split; cbn; [done|..]|].
  - intros k [<-|[_ Hx]]%lookup_insert_is_Some; [by rewrite canon_id|by apply Hk].
  - intros k v [[<- <-]|[_ Hx]]%lookup_insert_Some; [done|by eapply Hv].
  - intros j. unfold locked_of. cbn. destruct (Z.eqb_spec j i) as [->|Hne].
    + by rewrite lookup_insert_eq.
    + by rewrite lookup_insert_ne by (by apply canon_ne).
Qed.

Lemma delete_locked_ready t i :
  token_ready t →
  token_ready (with_locked (delete (canon i) (locked_balances t)) t) ∧
  ∀ j, locked_of (canon j) (with_locked (delete (canon i) (locked_balances t)) t) =
    if j =? i then 0 else locked_of (canon j) t.
Proof.
  intros [Hb Hk Hv]. split; [split; cbn; [done|..]|].
  - intros k [v [_ Hx]%lookup_delete_Some]. apply Hk. by rewrite Hx.
  - intros k v [_ Hx]%lookup_delete_Some. by eapply Hv.
  - intros j. unfold locked_of. cbn. destruct (Z.eqb_spec j i) as [->|Hne].
    + by rewrite lookup_delete_eq.
    + by rewrite lookup_delete_ne by (by apply canon_ne).
Qed.

Lemma lock_ready t t' i a :
  token_ready t → 0 <= a → lock_balance (canon i) a t = (t', Ok tt) →
  token_ready t' ∧
  ∀ j, locked_of (canon j) t' = locked_of (canon j) t + if j =? i then a else 0.
Proof.
  intros Ht Ha Hl. pose proof (ready_locked_of t (canon i) Ht) as Hr.
  unfold lock_balance in Hl. monad_inv. int_inv.
  destruct (with_locked_ready t i (locked_of (canon i) t + a) Ht) as [Hw Hj]; [lia|]. split; [done|].
  intros j. rewrite Hj. destruct (Z.eqb_spec j i) as [->|]; lia.
Qed.

Lemma release_ready t i a :
  token_ready t → 0 < a <= locked_of (canon i) t →
  ∃ t', release_balance (canon i) a t = (t', Ok tt) ∧ token_ready t' ∧
  ∀ j, locked_of (canon j) t' = locked_of (canon j) t - if j =? i then a else 0.
Proof.
  intros Ht Ha. pose proof (ready_locked_of t (canon i) Ht) as Hr. eexists.
  unfold release_balance, bind, gets, guard, modify. rewrite (proj2 (Z.leb_le _ _)) by lia.
  cbn. rewrite wsub_small by lia. split; [done|]. destruct (Z.eqb_spec (locked_of (canon i) t - a) 0).
  - destruct (delete_locked_ready t i Ht) as [H1 H2]. split; [done|].
    intros j. rewrite H2. destruct (Z.eqb_spec j i) as [->|]; lia.
  - destruct (with_locked_ready t i (locked_of (canon i) t - a) Ht) as [H1 H2]; [lia|]. split; [done|].
    intros j. rewrite H2. destruct (Z.eqb_spec j i) as [->|]; lia.
Qed.

(** Moving a balance keeps the locks. *)
Lemma set_balance_ready t i a :
  token_ready t → token_ready (set_balance (canon i) a t) ∧
  ∀ k, locked_of k (set_balance (canon i) a t) = locked_of k t.
Proof.
  intros [Hb Hk Hv]. split; [|done]. split; [cbn|done|done].
  intros k [<-|[_ Hx]]%lookup_insert_is_Some; [by rewrite canon_id|by apply Hb].
Qed.

Lemma transfer_ready c i j a w :
  token_ready (token w) →
  let w' := (kernel_transfer c (canon i) (canon j) a w).1 in
  token_ready (token w') ∧ (∀ k, locked_of k (token w') = locked_of k (token w)) ∧ vesting w' = vesting w.
Proof.
  intros Ht. unfold kernel_transfer, verify_caller, on_token, debit_balance, credit_balance,
    bind, gets, guard, throw, ret, modify, lift, ok_or; cbn.
  destruct (paused (kernel w)); [done|]; cbn. destruct (_ || _); [|done]; cbn.
  destruct (a <=? _); [|done]; cbn.
  destruct (set_balance_ready (token w) i (wsub 128 (balance_of (canon i) (token w)) a) Ht) as [H1 H2].
  destruct (checked_add _ _ _) as [n|]; cbn; [|done].
  destruct (set_balance_ready _ j n H1) as [H3 H4]. split_and!; [done| |done].
  intros k. by rewrite H4.
Qed.

(** What a lock still has to pay. *)
Definition owed (l : VestingLock) : Z :=
  match lock_revoked_epoch l with
  | Some r => vested_amount r (schedule l)
  | None => total_amount (schedule l)
  end - amount_released l.

Definition owed_to (b : Z) (w : Treasury) : Z :=
  msum (λ _ l, if beneficiary l =? b then owed l else 0) (locks (vesting w)).

(** The keys an operation names are the canonical ones. *)
Definition op_keys (op : KernelOp) : Prop :=
  match op with
  | KCreateVesting _ b _ _ _ => b = canon (key_id b)
  | KRevokeVesting _ _ k _ => k = canon (key_id k)
  | KReleaseVested _ _ _ | KPause _ | KUnpause _ => True
  | _ => False
  end.

(** Runs of vesting operations, between which the token may change in any way that
    keeps its accounts canonical and unlocks nothing. *)
Inductive claim_reach : Z → Treasury → list (Z * Z) → Prop :=
| cr_start now k t : token_ready t →
    claim_reach now {| kernel := k; token := t; vesting := VestingState_new |} []
| cr_step now now' w log op :
    claim_reach now w log → now <= now' → op_typed op → op_keys op →
    match op_epoch op with Some e => e = now' | None => True end →
    0 <= key_id (kernel_address (kernel w)) < 2 ^ 256 → next_id (vesting w) + 1 < 2 ^ 64 →
    claim_reach now' (kernel_step op w).1 (log ++ paid_by op w)
| cr_token now w log t :
    claim_reach now w log → token_ready t →
    (∀ i, locked_of (canon i) (token w) <= locked_of (canon i) t) →
    claim_reach now (set_token t w) log.

Lemma claim_reach_vesting now w log : claim_reach now w log → vesting_reach now w log.
Proof. induction 1; [apply vr_start|by eapply vr_step|by apply vr_token]. Qed.

Record backed (w : Treasury) : Prop := {
  bk_ready : token_ready (token w);
  bk_locked : ∀ b, owed_to b w <= locked_of (canon b) (token w);
}.

(** A lock on schedule owes at least what it can release, and the sum at least that. *)
Lemma owed_bound now log id l :
  lock_on_schedule now log id l → 0 <= available_to_release now l <= owed l.
Proof.
  intros [Hs Hr _ Hb]. unfold available_to_release, owed, saturating_sub, effective_epoch in *.
  destruct (lock_revoked_epoch l) as [r|].
  - rewrite Z.min_l in * by lia. pose proof (releasable_mono r r (schedule l) Hs). lia.
  - pose proof (releasable_mono now now (schedule l) Hs). lia.
Qed.

Lemma owed_to_bound now log w id l :
  on_schedule now w log → locks (vesting w) !! id = Some l → owed l <= owed_to (beneficiary l) w.
Proof.
  intros Hos Hl. pose proof (msum_lookup_le (λ _ l0, if beneficiary l0 =? beneficiary l then owed l0 else 0)
    (locks (vesting w)) id l) as Hm. cbn in Hm. rewrite Z.eqb_refl in Hm. apply Hm; [|done].
  intros i l0 H0. pose proof (owed_bound _ _ _ _ (os_locks _ _ _ Hos i l0 H0)). case_match; lia.
Qed.

Lemma owed_to_insert w w' id l l' b :
  locks (vesting w') = <[id := l']> (locks (vesting w)) → locks (vesting w) !! id = Some l →
  beneficiary l' = beneficiary l →
  owed_to b w' = owed_to b w + if b =? beneficiary l then owed l' - owed l else 0.
Proof.
  intros E Hl Hb. unfold owed_to. rewrite E, msum_insert, Hl. cbn. rewrite Hb, (Z.eqb_sym b).
  case_match; lia.
Qed.

Lemma create_backed now w log c b s r :
  on_schedule now w log → backed w → b = canon (key_id b) →
  0 <= key_id (kernel_address (kernel w)) < 2 ^ 256 → next_id (vesting w) + 1 < 2 ^ 64 →
  backed (create_vesting c b s now r w).1.
Proof.
  intros Hos [Hr Hb] Hc Hk Hn.
  destruct (create_vesting_cases c b s now r w) as [(Et & [E|E])|(Hv & El & E)].
  1,2: by split; unfold owed_to; rewrite ?Et, ?E.
  assert (0 < total_amount s) as Hp by (unfold VestingSchedule_is_valid in Hv; int_inv; lia).
  set (w' := (create_vesting c b s now r w).1) in *. rewrite Hc in El.
  destruct (lock_ready _ _ _ (total_amount s) Hr ltac:(lia) El) as [Hr' Hl]. split; [done|]. intros i. rewrite Hl.
  unfold owed_to. rewrite E. cbn. rewrite msum_insert_fresh; cycle 1.
  { apply eq_None_not_Some. intros Hx%(os_ids _ _ _ Hos). rewrite vesting_id_counter in Hx; [lia|done|].
    pose proof (os_next _ _ _ Hos). lia. }
  specialize (Hb i). unfold owed_to in Hb. unfold owed at 1. cbn. rewrite (Z.eqb_sym i).
  case_match; lia.
Qed.

(** The beneficiary's key is found and enough is locked. *)
Lemma backed_release now w log id l a :
  on_schedule now w log → backed w → locks (vesting w) !! id = Some l → 0 < a <= owed l →
  find_beneficiary_key (beneficiary l) (token w) = canon (beneficiary l) ∧
  ∃ t', release_balance (canon (beneficiary l)) a (token w) = (t', Ok tt) ∧ token_ready t' ∧
  ∀ j, locked_of (canon j) t' = locked_of (canon j) (token w) - if j =? beneficiary l then a else 0.
Proof.
  intros Hos [Hr Hb] Hl Ha. pose proof (owed_to_bound _ _ _ _ _ Hos Hl). specialize (Hb (beneficiary l)).
  split; [apply find_ready; [done|lia]|]. apply release_ready; [done|lia].
Qed.

Lemma release_backed now w log c id :
  on_schedule now w log → backed w → backed (release_vested c id now w).1.
Proof.
  intros Hos Hbk. pose proof (release_vested_cases c id now w) as Hc.
  destruct (release_vested c id now w) as [w' r]. cbn.
  destruct Hc as [[-> _]|(l & Hl & Hne & Eb & Hc)]; [done|].
  pose proof (os_locks _ _ _ Hos id l Hl) as Hlo. pose proof (owed_bound _ _ _ _ Hlo) as Ho.
  destruct (backed_release _ _ _ _ _ (available_to_release now l) Hos Hbk Hl ltac:(lia))
    as (Hf & t' & Et & Hr' & Hlk).
  rewrite Hf, Et in Eb. simplify_eq. destruct Hc as [(_ & _ & Hx)|(_ & _ & _ & E)].
  { exfalso. destruct Hlo as [Hs _ _ Hb]. pose proof (ok_amount _ Hs).
    pose proof (releasable_mono (effective_epoch now l) _ _ Hs (Z.le_refl _)).
    unfold available_to_release, saturating_sub in Hx. lia. }
  split; [done|]. intros i. rewrite Hlk.
  rewrite (owed_to_insert w w' id l _ i ltac:(by rewrite E) Hl eq_refl). destruct Hbk as [_ Hb].
  assert (owed (with_released (amount_released l + available_to_release now l) l) =
    owed l - available_to_release now l) as -> by (unfold owed; cbn; lia).
  specialize (Hb i). case_match; lia.
Qed.

Lemma revoke_amount now log id l l' u :
  lock_on_schedule now log id l → VestingLock_revoke now l = Ok (l', u) →
  lock_revoked_epoch l = None ∧ l' = with_revoked now l ∧ 0 <= u ∧ owed l' = owed l - u ∧ u <= owed l.
Proof.
  intros [Hs _ _ Hb] Hv. unfold VestingLock_revoke in Hv. unfold effective_epoch in Hb.
  destruct (negb (revocable l)); [done|]. destruct (lock_revoked_epoch l) as [r|] eqn:Hr; [done|].
  cbn in Hv. pose proof (releasable_mono now now _ Hs) as Hm. simplify_eq.
  unfold owed, remaining_locked, saturating_sub. rewrite Hr. cbn.
  split_and!; [done|done|lia|lia|lia].
Qed.

Lemma return_backed now w log id l l' u k :
  on_schedule now w log → backed w → locks (vesting w) !! id = Some l → k = canon (key_id k) →
  VestingLock_revoke now l = Ok (l', u) →
  backed (return_unvested (beneficiary l) k u
    (set_vesting (with_locks (<[id := l']> (locks (vesting w))) (vesting w)) w)).1.
Proof.
  intros Hos Hbk Hl Hk Hv. pose proof (os_locks _ _ _ Hos id l Hl) as Hlo.
  destruct (revoke_amount _ _ _ _ _ _ Hlo Hv) as (_ & -> & Hu & Ho & Hle).
  set (w1 := set_vesting _ w).
  assert (∀ b, owed_to b w1 = owed_to b w - if b =? beneficiary l then u else 0) as Hw1.
  { intros b. rewrite (owed_to_insert w w1 id l _ b eq_refl Hl eq_refl), Ho. case_match; lia. }
  assert (backed w1) as Hb1.
  { destruct Hbk as [Hr Hb]. split; [done|]. intros b. rewrite Hw1. specialize (Hb b). cbn. case_match; lia. }
  unfold return_unvested. destruct (Z.ltb_spec 0 u) as [Hp|]; [|done].
  destruct (backed_release _ _ _ _ _ u Hos Hbk Hl ltac:(lia)) as (Hf & t' & Et & Hr' & Hlk).
  unfold bind at 1, gets at 1. cbn beta iota. change (token w1) with (token w). rewrite Hf.
  change (kernel w1) with (kernel w). change (kernel_address (kernel w)) with (kernel_address (kernel w1)).
  unfold bind at 1. rewrite release_by_kernel. destruct (paused (kernel w1)); [done|].
  unfold on_token. change (token w1) with (token w). rewrite Et. cbn beta iota. rewrite Hk.
  set (w2 := set_token t' w1). unfold bind, modify.
  pose proof (transfer_ready (kernel_address (kernel w1)) (beneficiary l) (key_id k) u w2 Hr') as (H1 & H2 & H3).
  assert (∀ b, owed_to b w2 <= locked_of (canon b) t') as Hb2.
  { intros b. change (owed_to b w2) with (owed_to b w1). rewrite Hw1, Hlk.
    pose proof (bk_locked _ Hbk b). case_match; lia. }
  destruct (kernel_transfer _ _ _ _ w2) as [w3 [x|x]]; cbn in H1, H2, H3 |- *; split; cbn; try done;
    intros b; rewrite H2; unfold owed_to; cbn; rewrite H3; apply Hb2.
Qed.

Lemma revoke_backed now w log c id k :
  on_schedule now w log → backed w → k = canon (key_id k) → backed (revoke_vesting c id k now w).1.
Proof.
  intros Hos Hbk Hk. unfold revoke_vesting, verify_governance, bind, gets, guard, throw, ret, modify, lift, ok_or; cbn.
  destruct (bool_decide _); [|done]; cbn.
  destruct (locks (vesting w) !! id) as [l|] eqn:Hl; [|done]; cbn.
  destruct (VestingLock_revoke now l) as [[l' u]|] eqn:Hv; [|done]; cbn.
  pose proof (return_backed _ _ _ _ _ _ _ _ Hos Hbk Hl Hk Hv) as Hx.
  by destruct (return_unvested _ _ _ _) as [w3 [x|x]].
Qed.

Lemma claim_reach_backed now w log : claim_reach now w log → backed w.
Proof.
  induction 1 as [now k t Ht|now now' w log op Hr IH Hle Ht Hk He Hkid Hn|now w log t _ IH Ht Hl].
  - split; [done|]. intros b. apply (ready_locked_of t (canon b) Ht).
  - apply claim_reach_vesting, vesting_reach_on_schedule in Hr. apply (on_schedule_later _ now') in Hr; [|done].
    destruct op; cbn in Hk, He; try done; subst; cbn [kernel_step].
    1,2: unfold pause, unpause, verify_governance, bind, gets, guard, throw, ret, modify;
      destruct (bool_decide _); cbn; [by destruct IH|done].
    + pose proof (create_backed _ _ _ c b s r Hr IH Hk Hkid Hn). by destruct (create_vesting _ _ _ _ _ _).
    + pose proof (release_backed _ _ _ c id Hr IH). by destruct (release_vested _ _ _ _).
    + pose proof (revoke_backed _ _ _ c id return_to Hr IH Hk). by destruct (revoke_vesting _ _ _ _ _).
  - destruct IH as [_ Hb]. split; [done|]. intros b. specialize (Hb b). specialize (Hl b). cbn.
    change (owed_to b (set_token t w)) with (owed_to b w). lia.
Qed.

Lemma available_status now log id l :
  lock_on_schedule now log id l → available_to_release now l ≠ 0 →
  VestingLock_status now l = VActive ∨ VestingLock_status now l = VRevoked.
Proof.
  intros [Hs _ _ Hb]. unfold available_to_release, VestingLock_status, effective_epoch, saturating_sub in *.
  destruct (lock_revoked_epoch l); [by right|]. intros Ha. left.
  pose proof (releasable_mono now now _ Hs (Z.le_refl _)). pose proof (schedule_order _ Hs).
  rewrite (proj2 (Z.leb_gt _ _)) by lia. unfold releasable_amount in *.
  destruct (Z.ltb_spec now (cliff_epoch (schedule l))); [lia|]. by rewrite (proj2 (Z.ltb_ge _ _)) by lia.
Qed.

(** The part of [release_vested] after its checks. *)
Definition pay_vested (id : Z) (l : VestingLock) (available : Z) : KM Z :=
  w <- gets (λ w, w) ;;
  release (kernel_address (kernel w)) (find_beneficiary_key (beneficiary l) (token w)) available ;;;
  l' <- lift (match VestingLock_record_release available l with Ok l' => Ok l' | Err _ => Err Overflow end) ;;
  modify (λ w, set_vesting (VestingState_record_release available
    (with_locks (<[id := l']> (locks (vesting w))) (vesting w))) w) ;;;
  ret available.

Lemma pay_vested_ok now w log id l w' r :
  on_schedule now w log → backed w → locks (vesting w) !! id = Some l → available_to_release now l ≠ 0 →
  pay_vested id l (available_to_release now l) w = (w', r) →
  if paused (kernel w) then w' = w ∧ r = Err Paused
  else r = Ok (available_to_release now l) ∧
    locked_of (canon (beneficiary l)) (token w') =
      locked_of (canon (beneficiary l)) (token w) - available_to_release now l ∧
    locks (vesting w') !! id = Some (with_released (amount_released l + available_to_release now l) l).
Proof.
  intros Hr Hbk Hl Ha Hpay. pose proof (os_locks _ _ _ Hr id l Hl) as Hlo.
  pose proof (owed_bound _ _ _ _ Hlo) as Ho.
  destruct (backed_release _ _ _ _ _ (available_to_release now l) Hr Hbk Hl ltac:(lia)) as (Hf & t' & Et & _ & Hlk).
  assert (VestingLock_record_release (available_to_release now l) l =
    Ok (with_released (amount_released l + available_to_release now l) l)) as Hrec.
  { destruct Hlo as [Hs _ _ Hb]. pose proof (ok_amount _ Hs).
    pose proof (releasable_mono (effective_epoch now l) _ _ Hs (Z.le_refl _)).
    unfold VestingLock_record_release, checked_add, ok_or, available_to_release, saturating_sub.
    rewrite (proj2 (Z.leb_le _ _)) by lia. cbn. by rewrite (proj2 (Z.ltb_ge _ _)) by lia. }
  unfold pay_vested in Hpay. rewrite (bind_step _ _ w w w), Hf in Hpay by done.
  destruct (paused (kernel w)) eqn:Hp.
  { rewrite (bind_stop _ _ w w Paused) in Hpay by (by rewrite release_by_kernel, Hp). by simplify_eq. }
  rewrite (bind_step _ _ w (set_token t' w) tt) in Hpay
    by (rewrite release_by_kernel, Hp; unfold on_token; by rewrite Et).
  rewrite (bind_step _ _ _ (set_token t' w) (with_released (amount_released l + available_to_release now l) l))
    in Hpay by (unfold lift; by rewrite Hrec).
  injection Hpay as <- <-. split; [done|]. cbn. by rewrite Hlk, Z.eqb_refl, lookup_insert_eq.
Qed.

(** C10: what a vesting has made releasable can be claimed.  At epochs that do not go
    back, as long as identifiers name accounts, only vesting operations unlock
    balances and there are fewer than 2^64 vestings, whatever vestings have been
    created, claimed and revoked, a claim by the beneficiary of a lock is decided
    as follows.  What is available is what the schedule releases by now, or by the
    revocation, less what was paid; that is nothing before the cliff, and so nothing
    ever for a lock revoked before its cliff.  If nothing is available the claim fails,
    while the kernel is paused it fails as well, both without a change; otherwise it
    pays exactly what is available, out of the account's locked balance. *)
Theorem vested_claimable now w log c id l :
  claim_reach now w log → locks (vesting w) !! id = Some l → key_id c = beneficiary l →
  let a := available_to_release now l in
  let '(w', r) := release_vested c id now w in
  a = releasable_amount (effective_epoch now l) (schedule l) - paid id log ∧
  if a =? 0 then w' = w ∧ is_ok r = false
  else if paused (kernel w) then w' = w ∧ r = Err Paused
  else r = Ok a ∧
    locked_of (canon (beneficiary l)) (token w') = locked_of (canon (beneficiary l)) (token w) - a ∧
    locks (vesting w') !! id = Some (with_released (amount_released l + a) l).
Proof.
  intros Hr Hl Hc. cbv zeta. pose proof (claim_reach_backed _ _ _ Hr) as Hbk.
  apply claim_reach_vesting, vesting_reach_on_schedule in Hr.
  pose proof (os_locks _ _ _ Hr id l Hl) as Hlo.
  destruct (release_vested c id now w) as [w' r] eqn:Hrel. split.
  { destruct Hlo as [_ _ Hp Hb]. unfold available_to_release, saturating_sub. rewrite Hp. lia. }
  destruct (Z.eqb_spec (available_to_release now l) 0) as [Hz|Ha].
  { pose proof (release_vested_cases c id now w) as Hcases. rewrite Hrel in Hcases.
    destruct Hcases as [?|(l0 & Hl0 & Hne & _)]; [done|]. by rewrite Hl in Hl0; simplify_eq. }
  assert (release_vested c id now w = pay_vested id l (available_to_release now l) w) as Hpay.
  { unfold release_vested. rewrite (bind_step _ _ w w (vesting w)) by done.
    rewrite (bind_step _ _ w w l) by (unfold lift; by rewrite Hl).
    rewrite Hc, Z.eqb_refl, (bind_step _ _ w w tt) by done.
    rewrite (bind_step _ _ w w tt) by (by destruct (available_status _ _ _ _ Hlo Ha) as [-> | ->]).
    by rewrite (bind_step _ _ w w tt) by (unfold guard; by rewrite (proj2 (Z.eqb_neq _ _) Ha)). }
  rewrite Hrel in Hpay. symmetry in Hpay. apply (pay_vested_ok _ _ _ _ _ _ _ Hr Hbk Hl Ha Hpay).
Qed.

End Claimable.

End Vesting.

(** ** Examples *)

Module TreasuryDemo.

#[export] Instance demo_vesting_hash : VestingHash :=
  {| vesting_hash1 := λ k n, k + n; vesting_hash2 := λ k n, k * 31 + n |}.

(** Governance is key 8 and the kernel key 9, on the token where key 1 holds 600. *)
Definition w0 : Treasury := {|
  kernel := TreasuryKernel_new (demo_key 8) (demo_key 9) 100; token := demo_token false true;
  vesting := VestingState_new |}.

Definition sched : VestingSchedule :=
  {| start_epoch := 0; cliff_epoch := 2; end_epoch := 10; total_amount := 400 |}.

Definition id0 : Z := vesting_id 9 0.

Definition create : KernelOp := KCreateVesting (demo_key 9) (demo_key 1) sched 0 true.
Definition claim (e : Z) : KernelOp := KReleaseVested (demo_key 1) id0 e.
Definition revoke (e : Z) : KernelOp := KRevokeVesting (demo_key 8) id0 (demo_key 8) e.

Fixpoint run (ops : list KernelOp) (w : Treasury) : Treasury :=
  match ops with [] => w | op :: ops => run ops (kernel_step op w).1 end.

Lemma demo_ready : token_ready demo_key (demo_token false true).
Proof.
  split; cbn; [|intros k []; done|done].
  intros k. rewrite !lookup_insert_is_Some. intros [<-|[_ [<-|[_ []]]]]; done.
Qed.

Lemma demo_reach :
  claim_reach demo_key 5 (run [create; claim 5] w0) [(id0, 200)].
Proof.
  refine (cr_step demo_key 0 5 (run [create] w0) [] (claim 5) _ _ _ _ _ _ _); [|done|done|done|done|vm_compute; done|vm_compute; done].
  refine (cr_step demo_key 0 0 w0 [] create _ _ _ _ _ _ _); [|done|cbn; unfold umax; lia|done|done|vm_compute; done|vm_compute; done].
  apply cr_start, demo_ready.
Qed.

Lemma vesting_on_schedule_witness :
  paid id0 [(id0, 200)] = 200 ∧ locked_of (demo_key 1) (token (run [create; claim 5] w0)) = 200.
Proof.
  split; [|by vm_compute].
  exact (proj1 (vesting_on_schedule 5 (run [create; claim 5] w0) [(id0, 200)] id0
    (with_released 200 (VestingLock_new id0 1 sched 0 true))
    (claim_reach_vesting demo_key 5 _ _ demo_reach) ltac:(vm_compute; reflexivity))).
Defined.

Lemma vested_claimable_witness :
  ∃ w', release_vested (demo_key 1) id0 5 (run [create; KUnpause (demo_key 8)] w0) = (w', Ok 200) ∧
    locked_of (demo_key 1) (token w') = 200.
Proof.
  pose proof (vested_claimable demo_key (λ i, eq_refl) 5 (run [create; KUnpause (demo_key 8)] w0) []
    (demo_key 1) id0 (VestingLock_new id0 1 sched 0 true)) as Hv.
  destruct (release_vested (demo_key 1) id0 5 (run [create; KUnpause (demo_key 8)] w0)) as [w' r] eqn:Hr.
  destruct Hv as (_ & Hok & Hl & _).
  - refine (cr_step demo_key 0 5 (run [create] w0) [] (KUnpause (demo_key 8)) _ _ _ _ _ _ _);
      [|done|done|done|done|vm_compute; done|vm_compute; done].
    refine (cr_step demo_key 0 0 w0 [] create _ _ _ _ _ _ _);
      [|done|cbn; unfold umax; lia|done|done|vm_compute; done|vm_compute; done].
    apply cr_start, demo_ready.
  - by vm_compute.
  - done.
  - exists w'. split; [by rewrite Hok|]. etransitivity; [exact Hl|]. by vm_compute.
Defined.

(** An authorized mint, executed in its epoch and not again. *)
Definition mint_400 : MintAuthorization := {|
  ma_proposal_id := 1; ma_reason := MTreasuryAllocation; ma_authorized_amount := 400;
  ma_recipient_key_id := 1; ma_authorized_at_epoch := 3; ma_executable_after_epoch := 4;
  ma_consumed := false |}.

Definition burn_100 : BurnAuthorization := {|
  ba_proposal_id := 2; ba_authorized_amount := 100; ba_from_key_id := 1;
  ba_authorized_at_epoch := 3; ba_executable_after_epoch := 4; ba_consumed := false |}.

Lemma mint_executes :
  let ops := [KRegisterMint mint_400; KExecuteMint 1 3; KExecuteMint 1 4; KExecuteMint 1 5;
              KRegisterMint mint_400; KExecuteMint 1 6] in
  executions 1 ops w0 = 1 ∧ total_supply (token (run ops w0)) = 1400.
Proof. by vm_compute. Qed.

(** The authorized mint pays an account made up from the identifier, not the account
    that holds the 600; and an authorized burn looks for the balance there, so that
    it does not burn anything of a real account. *)
Lemma mint_to_synthetic_account :
  let w := run [KRegisterMint mint_400; KExecuteMint 1 4] w0 in
  balance_of (demo_key 1) (token w) = 600 ∧ balance_of (synthetic_key 1) (token w) = 400.
Proof. by vm_compute. Qed.

Lemma burn_misses_account :
  kernel_step (KExecuteBurn 2 4) (run [KRegisterBurn burn_100] w0) =
    (run [KRegisterBurn burn_100] w0, false) ∧ balance_of (demo_key 1) (token w0) = 600.
Proof. by vm_compute. Qed.

(** That account comes first among those with the identifier, so that after the mint
    the beneficiary cannot claim what has vested. *)
Lemma mint_blocks_claims :
  let w := run [create; KRegisterMint mint_400; KExecuteMint 1 4] w0 in
  (release_vested (demo_key 1) id0 5 (run [create] w0)).2 = Ok 200 ∧
  (release_vested (demo_key 1) id0 5 w).2 = Err InsufficientLockedBalance ∧
  locked_of (demo_key 1) (token w) = 400.
Proof. by vm_compute. Qed.

(** What had vested when a lock is revoked before its cliff stays locked: it is not
    returned, and the beneficiary never gets it. *)
Lemma revoked_before_cliff l r :
  schedule_ok (schedule l) → lock_revoked_epoch l = Some r → r < cliff_epoch (schedule l) →
  ∀ now, available_to_release now l = saturating_sub 0 (amount_released l).
Proof.
  intros Hs Hr Hc now. unfold available_to_release, effective_epoch, releasable_amount. rewrite Hr.
  by rewrite (proj2 (Z.ltb_lt _ _)) by lia.
Qed.

Lemma revoke_strands_vested :
  let w := run [create; revoke 1] w0 in
  locked_of (demo_key 1) (token w) = 40 ∧ balance_of (demo_key 8) (token w) = 360 ∧
  (release_vested (demo_key 1) id0 100 w).2 = Err VestingAlreadyFullyReleased.
Proof. by vm_compute. Qed.

(** Revoking while the kernel is paused marks the lock revoked but returns nothing,
    and it cannot be repeated. *)
Lemma paused_revoke_returns_nothing :
  let w := run [create; KPause (demo_key 8); revoke 5; KUnpause (demo_key 8); revoke 5] w0 in
  (revoke_vesting (demo_key 8) id0 (demo_key 8) 5 (run [create] w0)).2 = Ok 200 ∧
  (revoke_vesting (demo_key 8) id0 (demo_key 8) 5 w).2 = Err Unauthorized ∧
  locked_of (demo_key 1) (token w) = 400 ∧ balance_of (demo_key 8) (token w) = 0.
Proof. by vm_compute. Qed.

End TreasuryDemo.
