(* ===== verification/Roles.v ===== *)
(** * Roles and assignments (lib-blockchain contracts/treasury_kernel)

    [RoleDefinition] and [Assignment] of [role_types.rs] and the [RoleRegistry] of
    [role_registry.rs]: an assignment copies the caps of its role when it is made,
    and payments are recorded against the copies.  The identifier of an assignment
    is a hash of the person, the role and a counter, a parameter here that does not
    collide.

    The theorems: whatever happens to the registry, the payments recorded for an
    assignment add up to its totals and stay within the caps its role had when it
    was made; and a person never holds a role twice or two roles declared
    incompatible beforehand, as long as no suspended assignment is reactivated. *)
From stdpp Require Import base tactics numbers list option gmap fin_maps strings sorting.
From S2P Require Import Prelude.

(** ** Roles and assignments *)

Record RoleDefinition : Type := {
  role_id : Z; role_name : string; description : string; annual_cap : Z; lifetime_cap : option Z;
  per_epoch_cap : Z; role_created_at : Z; is_active : bool; requires_attestation : bool;
}.

Definition RoleDefinition_new (id : Z) (n d : string) (annual per_epoch epoch : Z) : RoleDefinition := {|
  role_id := id; role_name := n; description := d; annual_cap := annual; lifetime_cap := None;
  per_epoch_cap := per_epoch; role_created_at := epoch; is_active := true; requires_attestation := false |}.

Inductive AssignmentStatus : Type := Active | Suspended | Terminated.

#[export] Instance AssignmentStatus_eq_dec : EqDecision AssignmentStatus.
Proof. solve_decision. Defined.

Record Assignment : Type := {
  assignment_id : Z; person_id : Z; assigned_role : Z;
  snap_annual_cap : Z; snap_lifetime_cap : option Z; snap_per_epoch_cap : Z;
  total_paid : Z; current_year_paid : Z; current_epoch_paid : Z; last_payment_epoch : option Z;
  status : AssignmentStatus; assigned_at_epoch : Z; assigned_in_year : Z; current_year : Z;
  suspended_at_epoch : option Z; terminated_at_epoch : option Z;
}.

Inductive AssignmentError : Type :=
| NotActive | ExceedsAnnualCap | ExceedsLifetimeCap | ExceedsEpochCap
| AlreadyTerminated | AlreadySuspended | NotSuspended.

Inductive RoleRegistryError : Type :=
| RoleNotFound (id : Z) | RoleNotActive (id : Z) | AssignmentNotFound (id : Z)
| DuplicateAssignment (person role : Z) | ProhibitedCombination (a b : Z) | Unauthorized
| AssignmentFailed (e : AssignmentError) | RoleAlreadyExists (id : Z).

Definition Assignment_new (id person : Z) (r : RoleDefinition) (epoch year : Z) : Assignment := {|
  assignment_id := id; person_id := person; assigned_role := role_id r;
  snap_annual_cap := annual_cap r; snap_lifetime_cap := lifetime_cap r;
  snap_per_epoch_cap := per_epoch_cap r;
  total_paid := 0; current_year_paid := 0; current_epoch_paid := 0; last_payment_epoch := None;
  status := Active; assigned_at_epoch := epoch; assigned_in_year := year; current_year := year;
  suspended_at_epoch := None; terminated_at_epoch := None |}.

Definition with_paid (total year_paid epoch_paid year : Z) (last : option Z) (a : Assignment) : Assignment := {|
  assignment_id := assignment_id a; person_id := person_id a; assigned_role := assigned_role a;
  snap_annual_cap := snap_annual_cap a; snap_lifetime_cap := snap_lifetime_cap a;
  snap_per_epoch_cap := snap_per_epoch_cap a;
  total_paid := total; current_year_paid := year_paid; current_epoch_paid := epoch_paid;
  last_payment_epoch := last; status := status a; assigned_at_epoch := assigned_at_epoch a;
  assigned_in_year := assigned_in_year a; current_year := year;
  suspended_at_epoch := suspended_at_epoch a; terminated_at_epoch := terminated_at_epoch a |}.

Definition with_status (s : AssignmentStatus) (suspended terminated : option Z) (a : Assignment) : Assignment := {|
  assignment_id := assignment_id a; person_id := person_id a; assigned_role := assigned_role a;
  snap_annual_cap := snap_annual_cap a; snap_lifetime_cap := snap_lifetime_cap a;
  snap_per_epoch_cap := snap_per_epoch_cap a;
  total_paid := total_paid a; current_year_paid := current_year_paid a;
  current_epoch_paid := current_epoch_paid a; last_payment_epoch := last_payment_epoch a;
  status := s; assigned_at_epoch := assigned_at_epoch a; assigned_in_year := assigned_in_year a;
  current_year := current_year a; suspended_at_epoch := suspended; terminated_at_epoch := terminated |}.

Definition can_receive_payment (a : Assignment) : bool := bool_decide (status a = Active).

Definition remaining_annual_cap (a : Assignment) : Z :=
  saturating_sub (snap_annual_cap a) (current_year_paid a).

Definition remaining_lifetime_cap (a : Assignment) : option Z :=
  (λ cap, saturating_sub cap (total_paid a)) <$> snap_lifetime_cap a.

Definition remaining_epoch_cap (epoch : Z) (a : Assignment) : Z :=
  if bool_decide (last_payment_epoch a = Some epoch)
  then saturating_sub (snap_per_epoch_cap a) (current_epoch_paid a)
  else snap_per_epoch_cap a.

Definition Assignment_max_payable (epoch : Z) (a : Assignment) : Z :=
  let max := match remaining_lifetime_cap a with
             | Some r => Z.min (remaining_annual_cap a) r
             | None => remaining_annual_cap a
             end in
  Z.min max (remaining_epoch_cap epoch a).

Notation AM := (M Assignment AssignmentError) (only parsing).

(** The counters of a new year and of a new epoch start before the caps are checked,
    so that they stay reset when a check fails. *)
Definition Assignment_record_payment (amount epoch year : Z) : AM unit :=
  a <- gets (λ a, a) ;;
  guard (can_receive_payment a) NotActive ;;;
  (if current_year a <? year
   then modify (λ a, with_paid (total_paid a) 0 (current_epoch_paid a) year (last_payment_epoch a) a)
   else ret tt) ;;;
  (if bool_decide (last_payment_epoch a = Some epoch) then ret tt
   else modify (λ a, with_paid (total_paid a) (current_year_paid a) 0 (current_year a) (Some epoch) a)) ;;;
  a <- gets (λ a, a) ;;
  guard (saturating_add 64 (current_year_paid a) amount <=? snap_annual_cap a) ExceedsAnnualCap ;;;
  guard (match snap_lifetime_cap a with
         | Some cap => saturating_add 64 (total_paid a) amount <=? cap
         | None => true
         end) ExceedsLifetimeCap ;;;
  guard (saturating_add 64 (current_epoch_paid a) amount <=? snap_per_epoch_cap a) ExceedsEpochCap ;;;
  modify (λ a, with_paid (saturating_add 64 (total_paid a) amount)
    (saturating_add 64 (current_year_paid a) amount) (saturating_add 64 (current_epoch_paid a) amount)
    (current_year a) (last_payment_epoch a) a).

Definition suspend (epoch : Z) : AM unit :=
  a <- gets (λ a, a) ;;
  guard (negb (bool_decide (status a = Terminated))) AlreadyTerminated ;;;
  guard (negb (bool_decide (status a = Suspended))) AlreadySuspended ;;;
  modify (with_status Suspended (Some epoch) (terminated_at_epoch a)).

Definition reactivate : AM unit :=
  a <- gets (λ a, a) ;;
  guard (bool_decide (status a = Suspended)) NotSuspended ;;;
  modify (with_status Active None (terminated_at_epoch a)).

Definition terminate (epoch : Z) : AM unit :=
  a <- gets (λ a, a) ;;
  guard (negb (bool_decide (status a = Terminated))) AlreadyTerminated ;;;
  modify (with_status Terminated (suspended_at_epoch a) (Some epoch)).

(** ** The registry *)

Record RoleRegistry : Type := {
  roles : gmap Z RoleDefinition; assignments : gmap Z Assignment;
  assignments_by_person : gmap Z (gset Z); assignments_by_role : gmap Z (gset Z);
  prohibited_combinations : gset (Z * Z); authorized_admin : Z; next_assignment_counter : Z;
}.

Definition RoleRegistry_new (admin : Z) : RoleRegistry := {|
  roles := ∅; assignments := ∅; assignments_by_person := ∅; assignments_by_role := ∅;
  prohibited_combinations := ∅; authorized_admin := admin; next_assignment_counter := 0 |}.

Definition set_roles (m : gmap Z RoleDefinition) (r : RoleRegistry) : RoleRegistry := {|
  roles := m; assignments := assignments r; assignments_by_person := assignments_by_person r;
  assignments_by_role := assignments_by_role r; prohibited_combinations := prohibited_combinations r;
  authorized_admin := authorized_admin r; next_assignment_counter := next_assignment_counter r |}.

Definition set_assignments (m : gmap Z Assignment) (r : RoleRegistry) : RoleRegistry := {|
  roles := roles r; assignments := m; assignments_by_person := assignments_by_person r;
  assignments_by_role := assignments_by_role r; prohibited_combinations := prohibited_combinations r;
  authorized_admin := authorized_admin r; next_assignment_counter := next_assignment_counter r |}.

Definition set_prohibited (s : gset (Z * Z)) (r : RoleRegistry) : RoleRegistry := {|
  roles := roles r; assignments := assignments r; assignments_by_person := assignments_by_person r;
  assignments_by_role := assignments_by_role r; prohibited_combinations := s;
  authorized_admin := authorized_admin r; next_assignment_counter := next_assignment_counter r |}.

(** The hash of a person, a role and a counter. *)
Class AssignmentHash : Type := { assignment_hash : Z → Z → Z → Z }.

Notation RM := (M RoleRegistry RoleRegistryError) (only parsing).

Definition verify_admin (c : Z) : RM unit :=
  r <- gets (λ r, r) ;; guard (c =? authorized_admin r) Unauthorized.

Definition grant_role (d : RoleDefinition) (c : Z) : RM unit :=
  verify_admin c ;;;
  r <- gets (λ r, r) ;;
  guard (negb (bool_decide (is_Some (roles r !! role_id d)))) (RoleAlreadyExists (role_id d)) ;;;
  modify (set_roles (<[role_id d := d]> (roles r))).

Definition with_active (b : bool) (d : RoleDefinition) : RoleDefinition := {|
  role_id := role_id d; role_name := role_name d; description := description d;
  annual_cap := annual_cap d; lifetime_cap := lifetime_cap d; per_epoch_cap := per_epoch_cap d;
  role_created_at := role_created_at d; is_active := b; requires_attestation := requires_attestation d |}.

Definition with_caps (annual : Z) (lifetime : option Z) (per_epoch : Z) (d : RoleDefinition) : RoleDefinition := {|
  role_id := role_id d; role_name := role_name d; description := description d;
  annual_cap := annual; lifetime_cap := lifetime; per_epoch_cap := per_epoch;
  role_created_at := role_created_at d; is_active := is_active d;
  requires_attestation := requires_attestation d |}.

Definition revoke_role (id c : Z) : RM unit :=
  verify_admin c ;;;
  r <- gets (λ r, r) ;;
  d <- lift (ok_or (roles r !! id) (RoleNotFound id)) ;;
  modify (set_roles (<[id := with_active false d]> (roles r))).

Definition update_role_caps (id annual : Z) (lifetime : option Z) (per_epoch c : Z) : RM unit :=
  verify_admin c ;;;
  r <- gets (λ r, r) ;;
  d <- lift (ok_or (roles r !! id) (RoleNotFound id)) ;;
  modify (set_roles (<[id := with_caps annual lifetime per_epoch d]> (roles r))).

(** The pair with the smaller role first. *)
Definition role_pair (a b : Z) : Z * Z := if a <? b then (a, b) else (b, a).

Definition add_prohibited_combination (a b c : Z) : RM unit :=
  verify_admin c ;;;
  modify (λ r, set_prohibited ({[role_pair a b]} ∪ prohibited_combinations r) r).

Definition remove_prohibited_combination (a b c : Z) : RM unit :=
  verify_admin c ;;;
  modify (λ r, set_prohibited (prohibited_combinations r ∖ {[role_pair a b]}) r).

Definition is_prohibited_combination (a b : Z) (r : RoleRegistry) : bool :=
  bool_decide (role_pair a b ∈ prohibited_combinations r).

(** The roles of the active assignments, in the order of their identifiers. *)
Definition get_active_roles_for_person (p : Z) (r : RoleRegistry) : list Z :=
  match assignments_by_person r !! p with
  | Some ids =>
      omap (λ id, a ← assignments r !! id; if bool_decide (status a = Active) then Some (assigned_role a) else None)
        (merge_sort Z.le (elements ids))
  | None => []
  end.

Section Registry.
Context `{AssignmentHash}.

Definition generate_assignment_id (p role : Z) (r : RoleRegistry) : RoleRegistry * Z :=
  ({| roles := roles r; assignments := assignments r; assignments_by_person := assignments_by_person r;
      assignments_by_role := assignments_by_role r; prohibited_combinations := prohibited_combinations r;
      authorized_admin := authorized_admin r;
      next_assignment_counter := wadd 64 (next_assignment_counter r) 1 |},
   assignment_hash p role (next_assignment_counter r)).

Definition index_assignment (role : Z) (a : Assignment) (r : RoleRegistry) : RoleRegistry := {|
  roles := roles r; assignments := <[assignment_id a := a]> (assignments r);
  assignments_by_person := <[person_id a := {[assignment_id a]} ∪
    default ∅ (assignments_by_person r !! person_id a)]> (assignments_by_person r);
  assignments_by_role := <[role := {[assignment_id a]} ∪
    default ∅ (assignments_by_role r !! role)]> (assignments_by_role r);
  prohibited_combinations := prohibited_combinations r; authorized_admin := authorized_admin r;
  next_assignment_counter := next_assignment_counter r |}.

(** The first existing role that may not be combined with the new one. *)
Definition first_prohibited (role : Z) (existing : list Z) (r : RoleRegistry) : option Z :=
  head (filter (λ e, is_prohibited_combination role e r = true) existing).

Definition create_assignment (p role epoch year c : Z) : RM Assignment :=
  verify_admin c ;;;
  r <- gets (λ r, r) ;;
  d <- lift (ok_or (roles r !! role) (RoleNotFound role)) ;;
  guard (is_active d) (RoleNotActive role) ;;;
  let existing := get_active_roles_for_person p r in
  guard (negb (bool_decide (role ∈ existing))) (DuplicateAssignment p role) ;;;
  match first_prohibited role existing r with
  | Some e => throw (ProhibitedCombination role e)
  | None => ret tt
  end ;;;
  let '(r', id) := generate_assignment_id p role r in
  let a := Assignment_new id p d epoch year in
  modify (λ _, index_assignment role a r') ;;;
  ret a.

(** A method of a stored assignment; what it wrote before an error stays. *)
Definition on_assignment (id : Z) (m : AM unit) (c : Z) : RM unit :=
  verify_admin c ;;;
  r <- gets (λ r, r) ;;
  a <- lift (ok_or (assignments r !! id) (AssignmentNotFound id)) ;;
  let '(a', res) := m a in
  modify (set_assignments (<[id := a']> (assignments r))) ;;;
  lift (match res with Ok u => Ok u | Err e => Err (AssignmentFailed e) end).

Definition record_payment (id amount epoch year c : Z) : RM unit :=
  on_assignment id (Assignment_record_payment amount epoch year) c.
Definition suspend_assignment (id epoch c : Z) : RM unit := on_assignment id (suspend epoch) c.
Definition reactivate_assignment (id c : Z) : RM unit := on_assignment id reactivate c.
Definition terminate_assignment (id epoch c : Z) : RM unit := on_assignment id (terminate epoch) c.

(** ** Runs *)

Inductive RegistryOp : Type :=
| OGrant (d : RoleDefinition) | ORevoke (id : Z) | OCaps (id annual : Z) (lifetime : option Z) (per_epoch : Z)
| OProhibit (a b : Z) | OAllow (a b : Z) | OCreate (p role : Z) | OPay (id amount : Z)
| OSuspend (id : Z) | OReactivate (id : Z) | OTerminate (id : Z).

(** An operation called by [c] at this epoch and year. *)
Definition registry_step (op : RegistryOp) (epoch year c : Z) (r : RoleRegistry) : RoleRegistry * bool :=
  let run {A : Type} (m : RM A) := let '(r', x) := m r in (r', is_ok x) in
  match op with
  | OGrant d => run (grant_role d c)
  | ORevoke id => run (revoke_role id c)
  | OCaps id a l e => run (update_role_caps id a l e c)
  | OProhibit a b => run (add_prohibited_combination a b c)
  | OAllow a b => run (remove_prohibited_combination a b c)
  | OCreate p role => run (create_assignment p role epoch year c)
  | OPay id amount => run (record_payment id amount epoch year c)
  | OSuspend id => run (suspend_assignment id epoch c)
  | OReactivate id => run (reactivate_assignment id c)
  | OTerminate id => run (terminate_assignment id epoch c)
  end.

(** A payment that was recorded. *)
Record Payment : Type := { pay_id : Z; pay_amount : Z; pay_epoch : Z; pay_year : Z }.

Definition payment_of (op : RegistryOp) (epoch year c : Z) (r : RoleRegistry) : list Payment :=
  match op with
  | OPay id amount =>
      if (registry_step op epoch year c r).2
      then [{| pay_id := id; pay_amount := amount; pay_epoch := epoch; pay_year := year |}] else []
  | _ => []
  end.

(** The amounts paid to an assignment, of the payments a test selects. *)
Definition paid_if (f : Payment → bool) (id : Z) (log : list Payment) : Z :=
  sumZ ((λ p, if (pay_id p =? id) && f p then pay_amount p else 0) <$> log).

(** Caps below the largest number; that one is never exceeded, since sums stop there. *)
Definition cap_ok (c : Z) : Prop := 0 <= c < umax 64.

Definition op_typed (op : RegistryOp) : Prop :=
  match op with
  | OGrant d => cap_ok (annual_cap d) ∧ cap_ok (per_epoch_cap d) ∧ from_option cap_ok True (lifetime_cap d)
  | OCaps _ a l e => cap_ok a ∧ cap_ok e ∧ from_option cap_ok True l
  | OPay _ amount => 0 <= amount <= umax 64
  | _ => True
  end.

(** An assignment that was made, with its role as it was then. *)
Definition grant_of (op : RegistryOp) (epoch year c : Z) (r : RoleRegistry) : list (Z * RoleDefinition) :=
  match op with
  | OCreate p role =>
      match (create_assignment p role epoch year c r).2, roles r !! role with
      | Ok a, Some d => [(assignment_id a, d)]
      | _, _ => []
      end
  | _ => []
  end.

(** Runs with a clock that does not go back, the payments they record and the
    assignments they make. *)
Inductive registry_reach (admin : Z)
    : Z → Z → RoleRegistry → list Payment → list (Z * RoleDefinition) → Prop :=
| rr_start e y : registry_reach admin e y (RoleRegistry_new admin) [] []
| rr_step e y e' y' r log made op c :
    registry_reach admin e y r log made → e <= e' → y <= y' → op_typed op →
    next_assignment_counter r + 1 < 2 ^ 64 →
    registry_reach admin e' y' (registry_step op e' y' c r).1 (log ++ payment_of op e' y' c r)
      (made ++ grant_of op e' y' c r).

(** ** What an operation does *)

Lemma on_assignment_cases id m c r :
  let '(r', x) := on_assignment id m c r in
  (r' = r ∧ is_ok x = false) ∨
  ∃ a, assignments r !! id = Some a ∧ r' = set_assignments (<[id := (m a).1]> (assignments r)) r ∧
    is_ok x = is_ok (m a).2.
Proof.
  unfold on_assignment, verify_admin, bind, gets, guard, throw, ret, modify, lift, ok_or; cbn.
  destruct (c =? authorized_admin r); [|by left]. destruct (assignments r !! id) as [a|] eqn:Ha; [|by left].
  destruct (m a) as [a' [u|e]] eqn:Hm; right; exists a; by rewrite Hm.
Qed.

Lemma record_payment_cases amount epoch year a :
  let y0 := if current_year a <? year then 0 else current_year_paid a in
  let cy := if current_year a <? year then year else current_year a in
  let e0 := if bool_decide (last_payment_epoch a = Some epoch) then current_epoch_paid a else 0 in
  let '(a', x) := Assignment_record_payment amount epoch year a in
  (a' = a ∧ is_ok x = false) ∨
  (a' = with_paid (total_paid a) y0 e0 cy (Some epoch) a ∧ is_ok x = false) ∨
  (a' = with_paid (saturating_add 64 (total_paid a) amount) (saturating_add 64 y0 amount)
          (saturating_add 64 e0 amount) cy (Some epoch) a ∧
   is_ok x = true ∧ status a = Active ∧ saturating_add 64 y0 amount <= snap_annual_cap a ∧
   saturating_add 64 e0 amount <= snap_per_epoch_cap a ∧
   match snap_lifetime_cap a with Some cap => saturating_add 64 (total_paid a) amount <= cap | None => True end).
Proof.
  cbn zeta. unfold Assignment_record_payment, can_receive_payment, bind, gets, guard, throw, ret, modify; cbn.
  destruct (bool_decide_reflect (status a = Active)); [|by left]; cbn.
  destruct a as [? ? ? ann life ep ? ? ? last ? ? ? cy ? ?]; cbn in *.
  destruct (cy <? year), (bool_decide_reflect (last = Some epoch)) as [->|]; cbn;
    (destruct (_ <=? ann) eqn:?; cbn; [|by auto]);
    (destruct life as [cap|]; [destruct (_ <=? cap) eqn:?; cbn; [|by auto]|]; cbn);
    (destruct (_ <=? ep) eqn:?; cbn; [|by auto]); int_inv; auto 10.
Qed.

(** Only payments and the status change in an assignment. *)
Definition same_terms (a a' : Assignment) : Prop :=
  assignment_id a' = assignment_id a ∧ person_id a' = person_id a ∧ assigned_role a' = assigned_role a ∧
  snap_annual_cap a' = snap_annual_cap a ∧ snap_lifetime_cap a' = snap_lifetime_cap a ∧
  snap_per_epoch_cap a' = snap_per_epoch_cap a.

Lemma record_payment_terms amount epoch year a :
  same_terms a (Assignment_record_payment amount epoch year a).1 ∧
  status (Assignment_record_payment amount epoch year a).1 = status a.
Proof.
  pose proof (record_payment_cases amount epoch year a) as Hc.
  destruct (Assignment_record_payment amount epoch year a) as [a' x].
  by destruct Hc as [[-> _]|[[-> _]|[-> _]]].
Qed.

Lemma suspend_cases e a :
  (suspend e a).1 = a ∨ (suspend e a).1 = with_status Suspended (Some e) (terminated_at_epoch a) a.
Proof. unfold suspend, bind, gets, guard, modify, throw, ret; cbn. repeat case_match; simplify_eq/=; auto. Qed.

Lemma terminate_cases e a :
  (terminate e a).1 = a ∨ (terminate e a).1 = with_status Terminated (suspended_at_epoch a) (Some e) a.
Proof. unfold terminate, bind, gets, guard, modify, throw, ret; cbn. repeat case_match; simplify_eq/=; auto. Qed.

Lemma reactivate_cases a :
  (reactivate a).1 = a ∨ (reactivate a).1 = with_status Active None (terminated_at_epoch a) a.
Proof. unfold reactivate, bind, gets, guard, modify, throw, ret; cbn. repeat case_match; simplify_eq/=; auto. Qed.

Lemma paid_if_app f id log log' : paid_if f id (log ++ log') = paid_if f id log + paid_if f id log'.
Proof. unfold paid_if. by rewrite fmap_app, sumZ_app. Qed.

Lemma paid_if_one f id p : paid_if f id [p] = if (pay_id p =? id) && f p then pay_amount p else 0.
Proof. unfold paid_if. cbn. lia. Qed.

Lemma paid_if_none f id log : (∀ p, p ∈ log → pay_id p ≠ id) → paid_if f id log = 0.
Proof.
  intros Hn. induction log as [|p log IH]; [done|].
  change (p :: log) with ([p] ++ log). rewrite paid_if_app, paid_if_one, IH by set_solver.
  rewrite (proj2 (Z.eqb_neq _ _)) by set_solver. done.
Qed.

Lemma paid_if_le f id log :
  (∀ p, p ∈ log → 0 <= pay_amount p) → 0 <= paid_if f id log <= paid_if (λ _, true) id log.
Proof.
  intros Hn. induction log as [|p log IH]; [done|].
  change (p :: log) with ([p] ++ log). rewrite !paid_if_app, !paid_if_one.
  specialize (IH ltac:(set_solver)). specialize (Hn p ltac:(set_solver)).
  rewrite andb_true_r. destruct (pay_id p =? id); cbn; [case_match|]; lia.
Qed.

(** ** Payments stay within the caps *)

Definition in_year (y : Z) (p : Payment) : bool := pay_year p =? y.
Definition in_epoch (e : Z) (p : Payment) : bool := pay_epoch p =? e.
Definition any (p : Payment) : bool := true.

Record books (e y : Z) (log : list Payment) (id : Z) (a : Assignment) : Prop := {
  b_typed : cap_ok (snap_annual_cap a) ∧ cap_ok (snap_per_epoch_cap a);
  b_clock : current_year a <= y;
  b_year : current_year_paid a = paid_if (in_year (current_year a)) id log;
  b_years : ∀ y', (current_year a < y' → paid_if (in_year y') id log = 0) ∧
                  paid_if (in_year y') id log <= snap_annual_cap a;
  b_epoch : match last_payment_epoch a with
            | Some e0 => e0 <= e ∧ current_epoch_paid a = paid_if (in_epoch e0) id log
            | None => True
            end;
  b_epochs : ∀ e', (match last_payment_epoch a with Some e0 => e0 < e' | None => True end →
                      paid_if (in_epoch e') id log = 0) ∧
                   paid_if (in_epoch e') id log <= snap_per_epoch_cap a;
  b_total : total_paid a = Z.min (umax 64) (paid_if any id log);
  b_lifetime : match snap_lifetime_cap a with
               | Some cap => cap_ok cap ∧ paid_if any id log <= cap
               | None => True
               end;
}.

(** A log in which this assignment is paid nothing more says the same. *)
Lemma books_frame e y e' y' log p id a :
  e <= e' → y <= y' → (∀ f, paid_if f id p = 0) → books e y log id a → books e' y' (log ++ p) id a.
Proof.
  intros He Hy Hp [? ? ? Hys Hep Heps ? ?]. assert (∀ f, paid_if f id (log ++ p) = paid_if f id log) as E.
  { intros f. rewrite paid_if_app, Hp. lia. }
  split; rewrite ?E; try done; [lia|..].
  - intros x. rewrite E. apply Hys.
  - destruct (last_payment_epoch a); [rewrite E; intuition lia|done].
  - intros x. rewrite E. apply Heps.
Qed.

(** Starting the counters of a new year and a new epoch. *)
Lemma books_reset e y log id a :
  (∀ p, p ∈ log → 0 <= pay_amount p) →
  books e y log id a →
  books e y log id (with_paid (total_paid a) (if current_year a <? y then 0 else current_year_paid a)
    (if bool_decide (last_payment_epoch a = Some e) then current_epoch_paid a else 0)
    (if current_year a <? y then y else current_year a) (Some e) a).
Proof.
  intros Hlog [Ht Hc Hy Hys Hep Heps Hto Hl]. split; cbn; try done.
  - destruct (Z.ltb_spec (current_year a) y); lia.
  - destruct (Z.ltb_spec (current_year a) y) as [Hlt|]; [|done]. symmetry. by apply Hys.
  - intros y'. split; [|apply Hys]. intros Hlt. apply Hys. destruct (Z.ltb_spec (current_year a) y); lia.
  - split; [lia|]. case_bool_decide as He.
    + rewrite He in Hep. by destruct Hep.
    + symmetry. apply Heps. destruct (last_payment_epoch a) as [e0|]; [|done].
      destruct (decide (e0 = e)); [congruence|]. destruct Hep. lia.
  - intros e'. split; [|apply Heps]. intros Hlt. apply Heps.
    destruct (last_payment_epoch a); [|done]. destruct Hep. lia.
Qed.

Lemma books_pay e y log id a amount :
  (∀ p, p ∈ log → 0 <= pay_amount p) → 0 <= amount <= umax 64 → books e y log id a →
  let p := {| pay_id := id; pay_amount := amount; pay_epoch := e; pay_year := y |} in
  let '(a', x) := Assignment_record_payment amount e y a in
  books e y (log ++ if is_ok x then [p] else []) id a'.
Proof.
  intros Hlog Ha Hb p. pose proof (record_payment_cases amount e y a) as Hc. cbn zeta in Hc.
  pose proof (books_reset e y log id a Hlog Hb) as Hr.
  destruct (Assignment_record_payment amount e y a) as [a' x].
  destruct Hc as [[-> ->]|[[-> ->]|(-> & -> & _ & H1 & H2 & H3)]]; rewrite ?app_nil_r; [done|done|].
  assert (∀ f, 0 <= paid_if f id log) as Hpos by (intros f; by apply paid_if_le).
  assert (∀ f, paid_if f id (log ++ [p]) = paid_if f id log + if f p then amount else 0) as Hp.
  { intros f. rewrite paid_if_app, paid_if_one. cbn. by rewrite Z.eqb_refl. }
  destruct Hr as [[[? ?] [? ?]] Hc Hy Hys Hep Heps Hto Hl]; cbn in *.
  set (cy := if current_year a <? y then y else current_year a) in *.
  assert (cy = y) as -> by (subst cy; pose proof (b_clock _ _ _ _ _ Hb); destruct (Z.ltb_spec (current_year a) y); lia).
  destruct Hep as [_ Hep]. rewrite Hy, Hep in *.
  assert (saturating_add 64 (paid_if (in_year y) id log) amount = paid_if (in_year y) id log + amount) as Ey.
  { unfold saturating_add in *. lia. }
  assert (saturating_add 64 (paid_if (in_epoch e) id log) amount = paid_if (in_epoch e) id log + amount) as Ee.
  { unfold saturating_add in *. lia. }
  assert (in_year y p = true ∧ in_epoch e p = true) as [Iy Ie] by (split; apply Z.eqb_refl).
  rewrite Ey, Ee in *. split; cbn; [by split; split|..]; try done; rewrite ?Hp, ?Iy, ?Ie; cbn; try lia.
  - intros y'. rewrite Hp. unfold in_year at 2 4. cbn. destruct (Hys y') as [Hy0 Hy1].
    destruct (Z.eqb_spec y y') as [<-|]; split; intros; try specialize (Hy0 ltac:(lia)); lia.
  - intros e'. rewrite Hp. unfold in_epoch at 2 4. cbn. destruct (Heps e') as [He0 He1].
    destruct (Z.eqb_spec e e') as [<-|]; split; intros; try specialize (He0 ltac:(lia)); lia.
  - rewrite Hto. specialize (Hpos any). unfold saturating_add. lia.
  - destruct (snap_lifetime_cap a) as [cap|]; [|done]. rewrite Hto in H3. unfold saturating_add in H3.
    specialize (Hpos any). destruct Hl as [[? ?] ?]. split; [split; lia|lia].
Qed.

Lemma create_assignment_cases p role epoch year c r :
  let '(r', x) := create_assignment p role epoch year c r in
  (r' = r ∧ is_ok x = false) ∨
  ∃ d, roles r !! role = Some d ∧ is_active d = true ∧
    role ∉ get_active_roles_for_person p r ∧
    first_prohibited role (get_active_roles_for_person p r) r = None ∧
    r' = index_assignment role
      (Assignment_new (assignment_hash p role (next_assignment_counter r)) p d epoch year)
      (generate_assignment_id p role r).1 ∧
    x = Ok (Assignment_new (assignment_hash p role (next_assignment_counter r)) p d epoch year).
Proof.
  unfold create_assignment, verify_admin, bind, gets, guard, throw, ret, modify, lift, ok_or.
  destruct (c =? authorized_admin r); [|by left].
  destruct (roles r !! role) as [d|] eqn:Hd; [|by left]. destruct (is_active d) eqn:Ha; [|by left].
  destruct (bool_decide_reflect (role ∈ get_active_roles_for_person p r)); [by left|]. cbn [negb].
  destruct (first_prohibited _ _ _) eqn:Hf; [by left|]. right. by exists d.
Qed.

(** The operations on roles leave the assignments. *)
Lemma role_op_frame op epoch year c r :
  match op with OCreate _ _ | OPay _ _ | OSuspend _ | OReactivate _ | OTerminate _ => False | _ => True end →
  let r' := (registry_step op epoch year c r).1 in
  assignments r' = assignments r ∧ assignments_by_person r' = assignments_by_person r ∧
  next_assignment_counter r' = next_assignment_counter r.
Proof.
  destruct op; intros Hop; try done; cbn; unfold grant_role, revoke_role, update_role_caps,
    add_prohibited_combination, remove_prohibited_combination, verify_admin, bind, gets, guard, throw, ret,
    modify, lift, ok_or; cbn; repeat (case_match; simplify_eq/=; try done).
Qed.

Definition role_ok (d : RoleDefinition) : Prop :=
  cap_ok (annual_cap d) ∧ cap_ok (per_epoch_cap d) ∧ from_option cap_ok True (lifetime_cap d).

Lemma role_op_typed op epoch year c r :
  op_typed op → map_Forall (λ _, role_ok) (roles r) →
  map_Forall (λ _, role_ok) (roles (registry_step op epoch year c r).1).
Proof.
  intros Ht Hr. destruct op; cbn in Ht |- *.
  6: { pose proof (create_assignment_cases p role epoch year c r) as Hc.
       destruct (create_assignment p role epoch year c r). by destruct Hc as [[-> _]|(d & _ & _ & _ & _ & -> & _)]. }
  6: pose proof (on_assignment_cases id (Assignment_record_payment amount epoch year) c r) as Hc;
       unfold record_payment.
  7: pose proof (on_assignment_cases id (suspend epoch) c r) as Hc; unfold suspend_assignment.
  8: pose proof (on_assignment_cases id reactivate c r) as Hc; unfold reactivate_assignment.
  9: pose proof (on_assignment_cases id (terminate epoch) c r) as Hc; unfold terminate_assignment.
  6,7,8,9: destruct (on_assignment _ _ _ _); by destruct Hc as [[-> _]|(a & _ & -> & _)].
  all: unfold grant_role, revoke_role, update_role_caps, add_prohibited_combination,
    remove_prohibited_combination, verify_admin, bind, gets, guard, throw, ret, modify, lift, ok_or; cbn;
    repeat (case_match; simplify_eq/=; try done).
  all: apply map_Forall_insert_2; [|done].
  - exact Ht.
  - match goal with E : roles _ !! _ = Some _ |- _ => exact (Hr _ _ E) end.
  - exact Ht.
Qed.

Section Unique.
Context (hash_counter : ∀ p r n p' r' n', assignment_hash p r n = assignment_hash p' r' n' → n = n').

Record registry_ok (e y : Z) (r : RoleRegistry) (log : list Payment) : Prop := {
  ro_books : ∀ id a, assignments r !! id = Some a → books e y log id a;
  ro_ids : ∀ id, is_Some (assignments r !! id) →
    ∃ p role n, id = assignment_hash p role n ∧ n < next_assignment_counter r;
  ro_roles : map_Forall (λ _, role_ok) (roles r);
  ro_log : ∀ p, p ∈ log → 0 <= pay_amount p ∧ is_Some (assignments r !! pay_id p);
  ro_next : 0 <= next_assignment_counter r < 2 ^ 64;
}.

Lemma registry_ok_later e y e' y' r log :
  e <= e' → y <= y' → registry_ok e y r log → registry_ok e' y' r log.
Proof.
  intros He Hy [Hb ? ? ? ?]. split; try done. intros id a Ha. rewrite <- (app_nil_r log).
  apply (books_frame e y); auto.
Qed.

Definition ids_ok (r : RoleRegistry) : Prop :=
  ∀ id, is_Some (assignments r !! id) →
    ∃ p role n, id = assignment_hash p role n ∧ n < next_assignment_counter r.

Lemma fresh_id r p role :
  ids_ok r → assignments r !! assignment_hash p role (next_assignment_counter r) = None.
Proof.
  intros Hok. apply eq_None_not_Some. intros (p' & role' & n & E & Hn)%Hok. apply hash_counter in E. lia.
Qed.

Lemma ids_ok_create r p role d e y :
  ids_ok r → 0 <= next_assignment_counter r → next_assignment_counter r + 1 < 2 ^ 64 →
  ids_ok (index_assignment role
    (Assignment_new (assignment_hash p role (next_assignment_counter r)) p d e y)
    (generate_assignment_id p role r).1).
Proof.
  intros Hi H0 Hn id. cbn. rewrite wadd_small by (unfold umax; lia). rewrite lookup_insert_is_Some.
  intros [<-|[_ Ha]]; [by eexists _, _, _; split; [|apply Z.lt_succ_diag_r]|].
  destruct (Hi id Ha) as (p' & role' & n & ? & ?). exists p', role', n. split; [done|lia].
Qed.

Lemma create_ok e y r log p role c :
  registry_ok e y r log → next_assignment_counter r + 1 < 2 ^ 64 →
  registry_ok e y (create_assignment p role e y c r).1 log.
Proof.
  intros Hok Hn. pose proof (create_assignment_cases p role e y c r) as Hc.
  destruct (create_assignment p role e y c r) as [r' x]. cbn [fst].
  destruct Hc as [[-> _]|(d & Hd & _ & _ & _ & -> & _)]; [done|].
  pose proof (fresh_id r p role (ro_ids _ _ _ _ Hok)) as Hf. destruct Hok as [Hb Hi Hr Hl Hx].
  split; cbn; rewrite ?wadd_small by (unfold umax; lia).
  - intros id a. rewrite lookup_insert_Some. intros [[<- <-]|[_ Ha]]; [|by apply Hb].
    assert (∀ f, paid_if f (assignment_hash p role (next_assignment_counter r)) log = 0) as E.
    { intros f. apply paid_if_none. intros q Hq E. destruct (Hl q Hq) as [_ Hs]. rewrite E, Hf in Hs. by destruct Hs. }
    destruct (Hr role d Hd) as (H1 & H2 & H3). destruct H1 as [? ?], H2 as [? ?].
    split; cbn; rewrite ?E; [by split; split|lia|done| |done| |done|].
    + intros y'. rewrite E. lia.
    + intros e'. rewrite E. lia.
    + destruct (lifetime_cap d) as [cap|]; [|done]. split; [done|]. destruct H3. lia.
  - pose proof (ids_ok_create r p role d e y Hi) as Hx'. unfold ids_ok in Hx'. cbn in Hx'.
    rewrite wadd_small in Hx' by (unfold umax; lia). apply Hx'; lia.
  - done.
  - intros q Hq. destruct (Hl q Hq) as [? ?]. split; [done|]. rewrite lookup_insert_is_Some.
    destruct (decide (assignment_hash p role (next_assignment_counter r) = pay_id q)); auto.
  - lia.
Qed.

(** Replacing an assignment by one whose books are right. *)
Lemma update_ok e y r log log' id a a' :
  registry_ok e y r log → assignments r !! id = Some a → books e y (log ++ log') id a' →
  (∀ q, q ∈ log' → pay_id q = id ∧ 0 <= pay_amount q) →
  registry_ok e y (set_assignments (<[id := a']> (assignments r)) r) (log ++ log').
Proof.
  intros [Hb Hi Hr Hl Hx] Ha Hb' Hq. split; cbn; try done.
  - intros i b. rewrite lookup_insert_Some. intros [[<- <-]|[Hne Hi']]; [done|].
    apply (books_frame e y); [lia|lia| |by apply Hb]. intros f. apply paid_if_none.
    intros q [-> _]%Hq. done.
  - intros i. rewrite lookup_insert_is_Some. intros [<-|[_ H']]; apply Hi; [by rewrite Ha|done].
  - intros q. rewrite elem_of_app, lookup_insert_is_Some. intros [[? ?]%Hl|[-> ?]%Hq]; split; auto.
    destruct (decide (id = pay_id q)); auto.
Qed.

Lemma with_status_books e y log id s x z a :
  books e y log id a → books e y log id (with_status s x z a).
Proof. by intros []. Qed.

(** A method of an assignment that keeps its books. *)
Lemma on_assignment_ok e y r log id m c :
  registry_ok e y r log → (∀ a, books e y log id a → books e y log id (m a).1) →
  registry_ok e y (on_assignment id m c r).1 log.
Proof.
  intros Hok Hm. pose proof (on_assignment_cases id m c r) as Hc.
  destruct (on_assignment id m c r) as [r' x]; cbn.
  destruct Hc as [[-> _]|(a & Ha & -> & _)]; [done|].
  rewrite <- (app_nil_r log). apply (update_ok _ _ _ _ [] id a); [done|done| |by intros q ?%not_elem_of_nil].
  rewrite app_nil_r. apply Hm. by eapply ro_books.
Qed.

Lemma pay_ok e y r log id amount c :
  registry_ok e y r log → 0 <= amount <= umax 64 →
  registry_ok e y (record_payment id amount e y c r).1 (log ++ payment_of (OPay id amount) e y c r).
Proof.
  intros Hok Ha. unfold payment_of, registry_step, record_payment; cbn zeta iota.
  pose proof (on_assignment_cases id (Assignment_record_payment amount e y) c r) as Hc.
  destruct (on_assignment id _ c r) as [r' x]; cbn.
  destruct Hc as [[-> ->]|(a & Hl & -> & ->)]; [by rewrite app_nil_r|].
  pose proof (books_pay e y log id a amount) as Hp. cbn zeta in Hp.
  destruct (Assignment_record_payment amount e y a) as [a' z]; cbn in Hp |- *.
  apply (update_ok _ _ _ _ _ id a); [done|done| |].
  - apply Hp; [|done|by eapply ro_books]. intros q Hq. by apply (ro_log _ _ _ _ Hok).
  - destruct (is_ok z); intros q; rewrite ?list_elem_of_singleton; [intros ->; cbn; lia|by intros ?%not_elem_of_nil].
Qed.

Lemma registry_reach_ok admin e y r log made :
  registry_reach admin e y r log made → registry_ok e y r log.
Proof.
  induction 1 as [e y|e y e' y' r log made op c Hr IH He Hy Ht Hn].
  { split; cbn; [done|by intros ? []|by apply map_Forall_empty|by intros ? ?%not_elem_of_nil|lia]. }
  apply (registry_ok_later _ _ e' y') in IH; [|done|done].
  pose proof (role_op_typed op e' y' c r Ht (ro_roles _ _ _ _ IH)) as Hroles.
  destruct op; cbn [payment_of]; rewrite ?app_nil_r.
  1,2,3,4,5: match goal with |- registry_ok _ _ (registry_step ?op _ _ _ _).1 _ =>
      destruct (role_op_frame op e' y' c r I) as (E1 & _ & E3) end;
    destruct IH; split; rewrite ?E1, ?E3; done.
  - pose proof (create_ok _ _ _ _ p role c IH Hn). cbn. by destruct (create_assignment _ _ _ _ _ _).
  - pose proof (pay_ok _ _ _ _ id amount c IH Ht) as Hp. cbn in Hp |- *. by destruct (record_payment _ _ _ _ _ _).
  - pose proof (on_assignment_ok e' y' r log id (suspend e') c IH) as Hp. cbn. unfold suspend_assignment in *.
    destruct (on_assignment _ _ _ _). apply Hp. intros a Ha.
    destruct (suspend_cases e' a) as [-> | ->]; [done|by apply with_status_books].
  - pose proof (on_assignment_ok e' y' r log id reactivate c IH) as Hp. cbn. unfold reactivate_assignment in *.
    destruct (on_assignment _ _ _ _). apply Hp. intros a Ha.
    destruct (reactivate_cases a) as [-> | ->]; [done|by apply with_status_books].
  - pose proof (on_assignment_ok e' y' r log id (terminate e') c IH) as Hp. cbn. unfold terminate_assignment in *.
    destruct (on_assignment _ _ _ _). apply Hp. intros a Ha.
    destruct (terminate_cases e' a) as [-> | ->]; [done|by apply with_status_books].
Qed.

Lemma on_assignment_terms id m c r :
  (∀ a, same_terms a (m a).1) → ∀ i a, assignments r !! i = Some a →
  ∃ a', assignments (on_assignment id m c r).1 !! i = Some a' ∧ same_terms a a'.
Proof.
  intros Hm i a Ha. pose proof (on_assignment_cases id m c r) as Hc.
  destruct (on_assignment id m c r) as [r' x]; cbn.
  destruct Hc as [[-> _]|(b & Hb & -> & _)]; [by exists a|]. cbn.
  destruct (decide (id = i)) as [<-|]; [rewrite lookup_insert_eq|rewrite lookup_insert_ne by done; by exists a].
  rewrite Ha in Hb. simplify_eq. eauto.
Qed.

(** The terms of an assignment never change. *)
Lemma step_keeps_terms op e y c r id a :
  ids_ok r → assignments r !! id = Some a →
  ∃ a', assignments (registry_step op e y c r).1 !! id = Some a' ∧ same_terms a a'.
Proof.
  intros Hi Ha. destruct op.
  1,2,3,4,5: match goal with |- context [registry_step ?op _ _ _ _] =>
      destruct (role_op_frame op e y c r I) as (-> & _) end; by exists a.
  - cbn. pose proof (create_assignment_cases p role e y c r) as Hc. pose proof (fresh_id r p role Hi) as Hf.
    destruct (create_assignment p role e y c r). cbn.
    destruct Hc as [[-> _]|(d & _ & _ & _ & _ & -> & _)]; [by exists a|]. exists a. split; [|done]. cbn.
    rewrite lookup_insert_ne; [done|]. intros E. congruence.
  - pose proof (on_assignment_terms id0 (Assignment_record_payment amount e y) c r
      (λ a, proj1 (record_payment_terms amount e y a)) id a Ha) as Hx.
    cbn. unfold record_payment. by destruct (on_assignment _ _ _ _).
  - pose proof (on_assignment_terms id0 (suspend e) c r) as Hx. cbn. unfold suspend_assignment.
    destruct (on_assignment _ _ _ _). apply Hx; [|done]. intros b. by destruct (suspend_cases e b) as [-> | ->].
  - pose proof (on_assignment_terms id0 reactivate c r) as Hx. cbn. unfold reactivate_assignment.
    destruct (on_assignment _ _ _ _). apply Hx; [|done]. intros b. by destruct (reactivate_cases b) as [-> | ->].
  - pose proof (on_assignment_terms id0 (terminate e) c r) as Hx. cbn. unfold terminate_assignment.
    destruct (on_assignment _ _ _ _). apply Hx; [|done]. intros b. by destruct (terminate_cases e b) as [-> | ->].
Qed.

(** Only [create_assignment] makes assignments. *)
Lemma step_makes op e y c r id :
  match op with OCreate _ _ => False | _ => True end →
  is_Some (assignments (registry_step op e y c r).1 !! id) → is_Some (assignments r !! id).
Proof.
  intros Hop. destruct op; try done.
  1,2,3,4,5: match goal with |- context [registry_step ?op _ _ _ _] =>
      destruct (role_op_frame op e y c r I) as (-> & _) end; done.
  all: cbn [registry_step]; unfold record_payment, suspend_assignment, reactivate_assignment, terminate_assignment.
  all: match goal with |- context [on_assignment ?i ?m ?k ?s] =>
    pose proof (on_assignment_cases i m k s) as Hc; destruct (on_assignment i m k s) end; cbn [fst].
  all: destruct Hc as [[-> _]|(a & Ha & -> & _)]; [done|]; cbn.
  all: rewrite lookup_insert_is_Some; intros [<-|[_ ?]]; [by rewrite Ha|done].
Qed.

Definition copies (d : RoleDefinition) (a : Assignment) : Prop :=
  snap_annual_cap a = annual_cap d ∧ snap_lifetime_cap a = lifetime_cap d ∧
  snap_per_epoch_cap a = per_epoch_cap d.

Lemma same_terms_copies d a a' : same_terms a a' → copies d a → copies d a'.
Proof. unfold same_terms, copies. intros (_ & _ & _ & -> & -> & ->). done. Qed.

Lemma registry_reach_made admin e y r log made :
  registry_reach admin e y r log made →
  (∀ id d, (id, d) ∈ made → is_Some (assignments r !! id)) ∧
  (∀ id a, assignments r !! id = Some a → ∃ d, (id, d) ∈ made ∧ copies d a ∧
     ∀ d', (id, d') ∈ made → d' = d).
Proof.
  induction 1 as [e y|e y e' y' r log made op c Hr [IH1 IH2] He Hy Ht Hn].
  { split; [by intros id d ?%not_elem_of_nil|by intros id a]. }
  apply registry_reach_ok in Hr. pose proof (ro_ids _ _ _ _ Hr) as Hi.
  assert (∀ id d, (id, d) ∈ made → is_Some (assignments (registry_step op e' y' c r).1 !! id)) as Hkept.
  { intros id d [a Ha]%IH1. destruct (step_keeps_terms op e' y' c r id a Hi Ha) as (a' & -> & _). done. }
  assert (∀ id a', assignments (registry_step op e' y' c r).1 !! id = Some a' → is_Some (assignments r !! id) →
    ∃ d, (id, d) ∈ made ∧ copies d a' ∧ ∀ d', (id, d') ∈ made → d' = d) as Hold.
  { intros id a' Ha' [a Ha]. destruct (step_keeps_terms op e' y' c r id a Hi Ha) as (a0 & Ha0 & Hs).
    destruct (IH2 id a Ha) as (d & Hd & Hcp & Hu). exists d. split_and!; [done| |done].
    eapply same_terms_copies; [|exact Hcp]. congruence. }
  destruct op as [d0| | | | |p role| | | |]; cbn [grant_of]; rewrite ?app_nil_r;
    try (split; [exact Hkept|]; intros id' a' Ha'; apply (Hold id' a' Ha');
      refine (step_makes _ e' y' c r id' _ (ex_intro _ a' Ha')); exact I).
  pose proof (create_assignment_cases p role e' y' c r) as Hc. pose proof (fresh_id r p role Hi) as Hf.
  cbn [registry_step] in Hkept, Hold |- *. destruct (create_assignment p role e' y' c r) as [r' x].
  cbn [fst snd] in *. destruct Hc as [[-> Hx]|(d & Hd & _ & _ & _ & -> & ->)].
  { destruct x; [done|]. rewrite app_nil_r. split; [done|]. intros id a Ha. apply Hold; [done|by rewrite Ha]. }
  rewrite Hd. cbn [assignment_id Assignment_new]. set (new := assignment_hash _ _ _) in *.
  assert (∀ d', (new, d') ∉ made) as Hnew by (intros d' [a Ha]%IH1; congruence).
  split.
  - intros id d' [?|[= -> ->]%list_elem_of_singleton]%elem_of_app; [by eapply Hkept|].
    cbn. rewrite lookup_insert_eq. by eexists.
  - intros id a' Ha'. destruct (decide (new = id)) as [<-|Hne].
    + cbn in Ha'. rewrite lookup_insert_eq in Ha'. injection Ha' as <-. exists d. split_and!; [|done|].
      * apply elem_of_app. right. by apply list_elem_of_singleton.
      * intros d' [Hin|[= ->]%list_elem_of_singleton]%elem_of_app; [by destruct (Hnew d')|done].
    + destruct (Hold id a' Ha') as (d1 & H1 & H2 & H3).
      { cbn in Ha'. rewrite lookup_insert_ne in Ha' by done. by rewrite Ha'. }
      exists d1. split_and!; [by apply elem_of_app; left|done|].
      intros d' [Hin|[= E _]%list_elem_of_singleton]%elem_of_app; [by apply H3|]. by destruct Hne.
Qed.

(** C18: payments keep to the caps.  However roles are granted, changed and revoked,
    and assignments suspended and reactivated, as long as the epochs and years of the
    calls do not go back, no cap is the largest u64, fewer than 2^64 assignments are
    made, and the hashes that identify
    assignments differ for different counters: the payments recorded for an
    assignment add up to its total (which stops at the largest u64), in no year exceed
    the annual cap, in no epoch the epoch cap, and altogether not the lifetime cap.
    These are the caps its role had when the assignment was made, and no operation
    changes them. *)
Theorem payments_within_caps admin e y r log made id a :
  registry_reach admin e y r log made → assignments r !! id = Some a →
  ∃ d, (id, d) ∈ made ∧ (∀ d', (id, d') ∈ made → d' = d) ∧
    snap_annual_cap a = annual_cap d ∧ snap_lifetime_cap a = lifetime_cap d ∧
    snap_per_epoch_cap a = per_epoch_cap d ∧
    total_paid a = Z.min (umax 64) (paid_if any id log) ∧
    (∀ y', paid_if (in_year y') id log <= annual_cap d) ∧
    (∀ e', paid_if (in_epoch e') id log <= per_epoch_cap d) ∧
    match lifetime_cap d with Some cap => paid_if any id log <= cap | None => True end ∧
    ∀ op e' y' c, ∃ a', assignments (registry_step op e' y' c r).1 !! id = Some a' ∧ same_terms a a'.
Proof.
  intros Hr Ha. apply registry_reach_ok in Hr as Hok. pose proof (ro_ids _ _ _ _ Hok) as Hi.
  destruct (ro_books _ _ _ _ Hok id a Ha) as [_ _ _ Hys _ Heps Ht Hl].
  apply registry_reach_made in Hr as [_ (d & Hd & (E1 & E2 & E3) & Hu)%(λ H, H id a Ha)].
  exists d. rewrite E1 in Hys. rewrite E2 in Hl. rewrite E3 in Heps.
  split_and!; [done..|intros; by apply Hys|intros; by apply Heps| |].
  - destruct (lifetime_cap d); [by destruct Hl|done].
  - intros. by apply step_keeps_terms.
Qed.

(** ** Incompatible roles *)

(** Two active assignments of one person. *)
Definition both_active (r : RoleRegistry) (a b : Assignment) : Prop :=
  ∃ i j, i ≠ j ∧ assignments r !! i = Some a ∧ assignments r !! j = Some b ∧
    person_id a = person_id b ∧ status a = Active ∧ status b = Active.

Definition compatible (r : RoleRegistry) : Prop :=
  ∀ a b, both_active r a b →
    assigned_role a ≠ assigned_role b ∧ is_prohibited_combination (assigned_role a) (assigned_role b) r = false.

(** No reactivation, and a combination is prohibited before anyone has it. *)
Definition orderly (op : RegistryOp) (r : RoleRegistry) : Prop :=
  match op with
  | OReactivate _ => False
  | OProhibit x y => ∀ a b, both_active r a b → role_pair (assigned_role a) (assigned_role b) ≠ role_pair x y
  | _ => True
  end.

Inductive orderly_reach (admin : Z) : RoleRegistry → Prop :=
| or_start : orderly_reach admin (RoleRegistry_new admin)
| or_step r op e y c :
    orderly_reach admin r → orderly op r → next_assignment_counter r + 1 < 2 ^ 64 →
    orderly_reach admin (registry_step op e y c r).1.

Record indexed (r : RoleRegistry) : Prop := {
  ix_ids : ids_ok r;
  ix_next : 0 <= next_assignment_counter r;
  ix_person : ∀ id a, assignments r !! id = Some a →
    ∃ ids, assignments_by_person r !! person_id a = Some ids ∧ id ∈ ids;
  ix_roles : ∀ id d, roles r !! id = Some d → role_id d = id;
}.

(** What the lookup by person finds. *)
Lemma active_roles_spec r id a :
  indexed r → assignments r !! id = Some a → status a = Active →
  assigned_role a ∈ get_active_roles_for_person (person_id a) r.
Proof.
  intros Hx Ha Hs. unfold get_active_roles_for_person.
  destruct (ix_person _ Hx id a Ha) as (ids & -> & Hin). apply list_elem_of_omap. exists id. split.
  - rewrite merge_sort_Permutation. by apply elem_of_elements.
  - rewrite Ha. cbn. by rewrite bool_decide_eq_true_2.
Qed.

Lemma role_pair_sym a b : role_pair a b = role_pair b a.
Proof. unfold role_pair. destruct (Z.ltb_spec a b), (Z.ltb_spec b a); try done; try lia. f_equal; lia. Qed.

Lemma first_prohibited_none role existing r e :
  first_prohibited role existing r = None → e ∈ existing → is_prohibited_combination role e r = false.
Proof.
  unfold first_prohibited. intros Hf He. apply not_true_is_false. intros Hp.
  apply head_None in Hf. assert (e ∈ filter (λ e, is_prohibited_combination role e r = true) existing) as Hin.
  { by apply list_elem_of_filter. }
  rewrite Hf in Hin. by apply not_elem_of_nil in Hin.
Qed.

(** Methods that activate nothing and leave the terms keep compatibility. *)
Lemma update_compatible r id a a' :
  assignments r !! id = Some a → same_terms a a' → (status a' = Active → status a = Active) →
  compatible r → compatible (set_assignments (<[id := a']> (assignments r)) r).
Proof.
  intros Ha (_ & Hp & Hr & _) Hs Hc x y (i & j & Hij & Hx & Hy & Hpe & Sx & Sy). cbn in Hx, Hy.
  apply lookup_insert_Some in Hx, Hy. unfold is_prohibited_combination; cbn.
  destruct Hx as [[<- <-]|[_ Hx]], Hy as [[<- <-]|[_ Hy]]; [done|..].
  - rewrite Hr. apply (Hc a y). exists id, j. split_and!; try done; [by rewrite <- Hp|auto].
  - rewrite Hr. apply (Hc x a). exists i, id. split_and!; try done; [by rewrite <- Hp|auto].
  - apply (Hc x y). by exists i, j.
Qed.

Lemma on_assignment_orderly id m c r :
  (∀ a, same_terms a (m a).1 ∧ (status (m a).1 = Active → status a = Active)) →
  indexed r → compatible r → indexed (on_assignment id m c r).1 ∧ compatible (on_assignment id m c r).1.
Proof.
  intros Hm Hx Hc. pose proof (on_assignment_cases id m c r) as Hcs.
  destruct (on_assignment id m c r) as [r' x]; cbn. destruct Hcs as [[-> _]|(a & Ha & -> & _)]; [done|].
  destruct (Hm a) as [Ht Hs]. split; [|by apply (update_compatible r id a)].
  destruct Hx as [Hi Hn Hp Hr]. split; cbn; try done.
  - intros i. cbn. rewrite lookup_insert_is_Some. intros [<-|[_ H']]; apply Hi; [by rewrite Ha|done].
  - intros i b. rewrite lookup_insert_Some. intros [[<- <-]|[_ Hb]]; [|by apply Hp].
    destruct Ht as (_ & -> & _). by apply Hp.
Qed.

Lemma create_orderly p role e y c r :
  next_assignment_counter r + 1 < 2 ^ 64 → indexed r → compatible r →
  indexed (create_assignment p role e y c r).1 ∧ compatible (create_assignment p role e y c r).1.
Proof.
  intros Hn Hx Hc. pose proof (create_assignment_cases p role e y c r) as Hcs.
  destruct (create_assignment p role e y c r) as [r' x]; cbn.
  destruct Hcs as [[-> _]|(d & Hd & _ & Hdup & Hpro & -> & _)]; [done|].
  pose proof (fresh_id r p role (ix_ids _ Hx)) as Hf. pose proof (ix_roles _ Hx role d Hd) as Hrole.
  assert (∀ b, person_id b = p → status b = Active → (∃ j, assignments r !! j = Some b) →
    role ≠ assigned_role b ∧ is_prohibited_combination role (assigned_role b) r = false) as Hnew.
  { intros b <- Hs [j Hj]. pose proof (active_roles_spec r j b Hx Hj Hs) as Hin. split; [by intros ->|].
    by apply (first_prohibited_none _ _ _ _ Hpro). }
  split.
  - destruct Hx as [Hi H0 Hp Hr]. split; [by apply ids_ok_create| |..]; cbn; rewrite ?wadd_small by (unfold umax; lia); [lia| |done].
    intros id a. rewrite lookup_insert_Some. intros [[<- <-]|[_ Ha]]; cbn.
    + eexists. rewrite lookup_insert_eq. split; [done|set_solver].
    + destruct (Hp id a Ha) as (ids & Hids & Hin). destruct (decide (p = person_id a)) as [->|].
      * eexists. rewrite lookup_insert_eq, Hids. split; [done|set_solver].
      * exists ids. by rewrite lookup_insert_ne.
  - intros a b (i & j & Hij & Ha & Hb & Hpe & Sa & Sb). cbn in Ha, Hb. apply lookup_insert_Some in Ha, Hb.
    change (is_prohibited_combination ?x ?z _) with (is_prohibited_combination x z r).
    destruct Ha as [[<- <-]|[_ Ha]], Hb as [[<- <-]|[_ Hb]]; [done|..]; cbn in *.
    + rewrite Hrole. apply Hnew; eauto.
    + rewrite Hrole. destruct (Hnew a) as [H1 H2]; eauto. split; [done|].
      unfold is_prohibited_combination in *. by rewrite role_pair_sym.
    + apply Hc. by exists i, j.
Qed.

(** An operation on roles keeps them under their identifiers, and allows more or
    prohibits one more combination. *)
Lemma role_op_keyed op e y c r :
  (∀ id d, roles r !! id = Some d → role_id d = id) →
  match op with OCreate _ _ | OPay _ _ | OSuspend _ | OReactivate _ | OTerminate _ => False | _ => True end →
  let r' := (registry_step op e y c r).1 in
  (∀ id d, roles r' !! id = Some d → role_id d = id) ∧
  (prohibited_combinations r' ⊆ prohibited_combinations r ∨
   ∃ a b, op = OProhibit a b ∧ prohibited_combinations r' = {[role_pair a b]} ∪ prohibited_combinations r).
Proof.
  intros Hk Hop. destruct op; try done; cbn; unfold grant_role, revoke_role, update_role_caps,
    add_prohibited_combination, remove_prohibited_combination, verify_admin, bind, gets, guard, throw, ret,
    modify, lift, ok_or; cbn; repeat (case_match; simplify_eq/=; try (split; [done|left; set_solver])).
  1,2,3: split; [|by left]; intros i d'; rewrite lookup_insert_Some; intros [[<- <-]|[_ Hx]];
    [first [done|match goal with E : roles _ !! _ = Some _ |- _ => exact (Hk _ _ E) end]|by apply Hk].
  split; [done|]. right. eauto.
Qed.

Lemma orderly_reach_compatible admin r : orderly_reach admin r → indexed r ∧ compatible r.
Proof.
  induction 1 as [|r op e y c Hr [Hx Hc] Ho Hn].
  { split; [by split; cbn; [intros ? []|..]|]. intros a b (i & j & _ & Ha & _). done. }
  destruct op; cbn in Ho.
  1,2,3,4,5: match goal with |- indexed (registry_step ?op _ _ _ _).1 ∧ _ =>
      destruct (role_op_frame op e y c r I) as (E1 & E2 & E3);
      destruct (role_op_keyed op e y c r (ix_roles _ Hx) I) as [Hk Hp] end;
    (split; [destruct Hx; split; unfold ids_ok in *; rewrite ?E1, ?E2, ?E3; done|]);
    intros a0 b0 Hb0; unfold both_active in Hb0; rewrite E1 in Hb0; fold (both_active r a0 b0) in Hb0;
    destruct (Hc a0 b0 Hb0) as [Hne Hpr]; split; [done|];
    unfold is_prohibited_combination in *; rewrite bool_decide_eq_false in *;
    destruct Hp as [Hp|(? & ? & ? & Hp)]; [set_solver|simplify_eq].
  - rewrite Hp. specialize (Ho a0 b0 Hb0). set_solver.
  - pose proof (create_orderly p role e y c r Hn Hx Hc). cbn. by destruct (create_assignment _ _ _ _ _ _).
  - pose proof (on_assignment_orderly id (Assignment_record_payment amount e y) c r) as Hp.
    cbn. unfold record_payment. destruct (on_assignment _ _ _ _). apply Hp; [|done|done].
    intros a. destruct (record_payment_terms amount e y a) as [? ->]. done.
  - pose proof (on_assignment_orderly id (suspend e) c r) as Hp.
    cbn. unfold suspend_assignment. destruct (on_assignment _ _ _ _). apply Hp; [|done|done].
    intros a. by destruct (suspend_cases e a) as [-> | ->].
  - done.
  - pose proof (on_assignment_orderly id (terminate e) c r) as Hp.
    cbn. unfold terminate_assignment. destruct (on_assignment _ _ _ _). apply Hp; [|done|done].
    intros a. by destruct (terminate_cases e a) as [-> | ->].
Qed.

(** Nobody holds incompatible roles.  As long as no suspended assignment is
    reactivated, and roles are declared incompatible before somebody has both, two
    active assignments of one person are of different roles that may be combined. *)
Theorem roles_compatible admin r a b :
  orderly_reach admin r → both_active r a b →
  assigned_role a ≠ assigned_role b ∧ is_prohibited_combination (assigned_role a) (assigned_role b) r = false.
Proof. intros Hr Hb. by apply (orderly_reach_compatible _ _ Hr). Qed.

End Unique.

End Registry.

(** ** Examples *)

Module RolesDemo.

#[export] Instance demo_assignment_hash : AssignmentHash := {| assignment_hash := λ _ _ n, n |}.

Definition role_a : RoleDefinition := RoleDefinition_new 1 "Auditor" "" 1000 100 0.
Definition role_b : RoleDefinition := RoleDefinition_new 2 "Treasurer" "" 1000 100 0.

(** Operations of the administrator 7, each with its epoch. *)
Fixpoint run (ops : list (RegistryOp * Z)) (r : RoleRegistry) : RoleRegistry :=
  match ops with [] => r | (op, e) :: ops => run ops (registry_step op e 0 7 r).1 end.

Definition r0 : RoleRegistry := RoleRegistry_new 7.
Definition setup : list (RegistryOp * Z) :=
  [(OGrant role_a, 0); (OGrant role_b, 0); (OProhibit 1 2, 0); (OCreate 5 1, 0)].

Lemma setup_reach : registry_reach 7 0 0 (run setup r0) [] [(0, role_a)].
Proof.
  refine (rr_step 7 0 0 0 0 (run (take 3 setup) r0) [] [] (OCreate 5 1) 7 _ _ _ _ _); [|done|done|done|by vm_compute].
  refine (rr_step 7 0 0 0 0 (run (take 2 setup) r0) [] [] (OProhibit 1 2) 7 _ _ _ _ _); [|done|done|done|by vm_compute].
  refine (rr_step 7 0 0 0 0 (run (take 1 setup) r0) [] [] (OGrant role_b) 7 _ _ _ _ _);
    [|done|done|by repeat split; vm_compute|by vm_compute].
  refine (rr_step 7 0 0 0 0 r0 [] [] (OGrant role_a) 7 _ _ _ _ _);
    [|done|done|by repeat split; vm_compute|by vm_compute].
  apply rr_start.
Qed.

Definition paid_60 : Payment := {| pay_id := 0; pay_amount := 60; pay_epoch := 3; pay_year := 0 |}.

Lemma payments_within_caps_witness :
  total_paid (default (Assignment_new 0 0 role_a 0 0) (assignments (run (setup ++ [(OPay 0 60, 3)]) r0) !! 0)) = 60 ∧
  paid_if (in_epoch 3) 0 [paid_60] <= 100.
Proof.
  split; [by vm_compute|].
  destruct (@payments_within_caps demo_assignment_hash (λ _ _ n _ _ n' E, E) 7 3 0
    (run (setup ++ [(OPay 0 60, 3)]) r0) [paid_60] [(0, role_a)] 0
    (with_paid 60 60 60 0 (Some 3) (Assignment_new 0 5 role_a 0 0))) as (d & _ & Hu & _ & _ & _ & _ & _ & He & _).
  - refine (rr_step 7 0 0 3 0 (run setup r0) [] [(0, role_a)] (OPay 0 60) 7 setup_reach _ _ _ _);
      [done|done|by vm_compute|by vm_compute].
  - by vm_compute.
  - specialize (He 3). rewrite <- (Hu role_a) in He; [exact He|]. constructor.
Defined.

Lemma roles_compatible_witness :
  let r := run [(OGrant role_a, 0); (OGrant role_b, 0); (OCreate 5 1, 0); (OCreate 5 2, 0)] r0 in
  is_prohibited_combination 1 2 r = false.
Proof.
  refine (proj2 (roles_compatible (λ _ _ n _ _ n' E, E) 7 _ (Assignment_new 0 5 role_a 0 0)
    (Assignment_new 1 5 role_b 0 0) _ _)).
  - refine (or_step 7 (run [(OGrant role_a, 0); (OGrant role_b, 0); (OCreate 5 1, 0)] r0) (OCreate 5 2) 0 0 7 _ _ _);
      [|done|by vm_compute].
    refine (or_step 7 (run [(OGrant role_a, 0); (OGrant role_b, 0)] r0) (OCreate 5 1) 0 0 7 _ _ _); [|done|by vm_compute].
    refine (or_step 7 (run [(OGrant role_a, 0)] r0) (OGrant role_b) 0 0 7 _ _ _); [|done|by vm_compute].
    refine (or_step 7 r0 (OGrant role_a) 0 0 7 _ _ _); [|done|by vm_compute]. apply or_start.
  - exists 0, 1. by repeat split; vm_compute.
Defined.

(** A reactivation is not checked: the person ends up with both incompatible roles. *)
Lemma reactivation_bypasses :
  let r := run (setup ++ [(OCreate 5 2, 0); (OSuspend 0, 1); (OCreate 5 2, 1); (OReactivate 0, 2)]) r0 in
  (registry_step (OCreate 5 2) 0 0 7 (run setup r0)).2 = false ∧
  get_active_roles_for_person 5 r = [1; 2] ∧ is_prohibited_combination 1 2 r = true.
Proof. by vm_compute. Qed.

(** Going back and forth between epochs starts the counter of an epoch again. *)
Lemma epochs_out_of_order :
  let ops := [(OPay 0 100, 4); (OPay 0 1, 5); (OPay 0 100, 4)] in
  total_paid (default (Assignment_new 0 0 role_a 0 0) (assignments (run (setup ++ ops) r0) !! 0)) = 201 ∧
  snap_per_epoch_cap (Assignment_new 0 5 role_a 0 0) = 100.
Proof. by vm_compute. Qed.

End RolesDemo.
