(* ===== verification/Caps.v ===== *)
(** * The cap ledger (lib-blockchain contracts/treasury_kernel)

    [CapLedger] of [cap_ledger.rs] with the types of [cap_types.rs]: compensation is
    reserved after a check against the global pool, the caps of the role and those of
    the assignment, and consumes them when the reservation is committed.  The
    identifier of a reservation is a hash of the assignment, a counter and the
    period, a parameter that does not collide.  An [expect] that fails is the error
    [Panicked].

    The theorems: a reservation succeeds exactly up to [max_payable]; and with one
    reservation open at a time, no cap is ever exceeded.  With two it is, since the
    check does not count what is reserved. *)
From stdpp Require Import base tactics numbers list option gmap fin_maps strings.
From S2P Require Import Prelude Roles.

(** ** Types *)

Record RoleCap : Type := {
  rc_role : Z; period_cap : Z; period_consumed : Z; rc_lifetime_cap : option Z;
  lifetime_consumed : Z; rc_period : Z;
}.

Definition RoleCap_new (id cap : Z) (lifetime : option Z) (period : Z) : RoleCap := {|
  rc_role := id; period_cap := cap; period_consumed := 0; rc_lifetime_cap := lifetime;
  lifetime_consumed := 0; rc_period := period |}.

Definition rc_with (period_used lifetime_used period : Z) (c : RoleCap) : RoleCap := {|
  rc_role := rc_role c; period_cap := period_cap c; period_consumed := period_used;
  rc_lifetime_cap := rc_lifetime_cap c; lifetime_consumed := lifetime_used; rc_period := period |}.

Definition remaining_period (c : RoleCap) : Z := saturating_sub (period_cap c) (period_consumed c).

Definition rc_remaining_lifetime (c : RoleCap) : option Z :=
  (λ cap, saturating_sub cap (lifetime_consumed c)) <$> rc_lifetime_cap c.

Definition rc_reset_period (p : Z) (c : RoleCap) : RoleCap :=
  if rc_period c <? p then rc_with 0 (lifetime_consumed c) p c else c.

Record AssignmentConsumption : Type := {
  ac_assignment : Z; ac_role : Z; ac_annual_cap : Z; ac_lifetime_cap : option Z;
  current_period_consumed : Z; total_consumed : Z; ac_period : Z;
}.

Definition AssignmentConsumption_new (id role annual : Z) (lifetime : option Z) (period : Z)
    : AssignmentConsumption := {|
  ac_assignment := id; ac_role := role; ac_annual_cap := annual; ac_lifetime_cap := lifetime;
  current_period_consumed := 0; total_consumed := 0; ac_period := period |}.

Definition ac_with (period_used total period : Z) (c : AssignmentConsumption) : AssignmentConsumption := {|
  ac_assignment := ac_assignment c; ac_role := ac_role c; ac_annual_cap := ac_annual_cap c;
  ac_lifetime_cap := ac_lifetime_cap c; current_period_consumed := period_used;
  total_consumed := total; ac_period := period |}.

Definition remaining_annual (c : AssignmentConsumption) : Z :=
  saturating_sub (ac_annual_cap c) (current_period_consumed c).

Definition ac_remaining_lifetime (c : AssignmentConsumption) : option Z :=
  (λ cap, saturating_sub cap (total_consumed c)) <$> ac_lifetime_cap c.

Definition ac_reset_period (p : Z) (c : AssignmentConsumption) : AssignmentConsumption :=
  if ac_period c <? p then ac_with 0 (total_consumed c) p c else c.

Record PeriodConsumption : Type := { pc_period : Z; pc_total : Z; payout_count : Z }.

Record CapReservation : Type := {
  res_id : Z; res_assignment : Z; res_role : Z; res_amount : Z; res_period : Z; res_epoch : Z;
}.

Inductive CapError : Type :=
| CapOverflow | GlobalCapExceeded (cap consumed requested : Z)
| RolePeriodCapExceeded (role cap consumed requested : Z)
| RoleLifetimeCapExceeded (role cap consumed requested : Z)
| AssignmentAnnualCapExceeded (id cap consumed requested : Z)
| AssignmentLifetimeCapExceeded (id cap consumed requested : Z)
| CapRoleNotFound (role : Z) | CapAssignmentNotFound (id : Z) | ReservationNotFound (id : Z)
| PeriodMismatch (expected actual : Z) | Panicked.

(** The counters of a role, then those of an assignment: the first is written when the
    second overflows. *)
Definition rc_record_consumption (amount : Z) : M RoleCap CapError unit :=
  c <- gets (λ c, c) ;;
  p <- lift (ok_or (checked_add 64 (period_consumed c) amount) Panicked) ;;
  modify (rc_with p (lifetime_consumed c) (rc_period c)) ;;;
  l <- lift (ok_or (checked_add 64 (lifetime_consumed c) amount) Panicked) ;;
  modify (rc_with p l (rc_period c)).

Definition ac_record_consumption (amount : Z) : M AssignmentConsumption CapError unit :=
  c <- gets (λ c, c) ;;
  p <- lift (ok_or (checked_add 64 (current_period_consumed c) amount) Panicked) ;;
  modify (ac_with p (total_consumed c) (ac_period c)) ;;;
  l <- lift (ok_or (checked_add 64 (total_consumed c) amount) Panicked) ;;
  modify (ac_with p l (ac_period c)).

(** ** The ledger *)

Record CapLedger : Type := {
  global_pool_cap : Z; global_pool_consumed : Z; current_period : Z;
  role_caps : gmap Z RoleCap; assignment_consumption : gmap Z AssignmentConsumption;
  period_history : gmap Z PeriodConsumption; pending_reservations : gmap Z CapReservation;
  next_reservation_counter : Z;
}.

Definition CapLedger_new (cap period : Z) : CapLedger := {|
  global_pool_cap := cap; global_pool_consumed := 0; current_period := period; role_caps := ∅;
  assignment_consumption := ∅; period_history := ∅; pending_reservations := ∅;
  next_reservation_counter := 0 |}.

Definition set_used (g : Z) (r : gmap Z RoleCap) (a : gmap Z AssignmentConsumption) (l : CapLedger) : CapLedger := {|
  global_pool_cap := global_pool_cap l; global_pool_consumed := g; current_period := current_period l;
  role_caps := r; assignment_consumption := a; period_history := period_history l;
  pending_reservations := pending_reservations l; next_reservation_counter := next_reservation_counter l |}.

Definition set_pending (m : gmap Z CapReservation) (n : Z) (l : CapLedger) : CapLedger := {|
  global_pool_cap := global_pool_cap l; global_pool_consumed := global_pool_consumed l;
  current_period := current_period l; role_caps := role_caps l;
  assignment_consumption := assignment_consumption l; period_history := period_history l;
  pending_reservations := m; next_reservation_counter := n |}.

Definition advance_period (p : Z) (l : CapLedger) : CapLedger :=
  if p <=? current_period l then l else {|
  global_pool_cap := global_pool_cap l; global_pool_consumed := 0; current_period := p;
  role_caps := rc_reset_period p <$> role_caps l;
  assignment_consumption := ac_reset_period p <$> assignment_consumption l;
  period_history := <[current_period l :=
    {| pc_period := current_period l; pc_total := global_pool_consumed l; payout_count := 0 |}]> (period_history l);
  pending_reservations := pending_reservations l; next_reservation_counter := next_reservation_counter l |}.

Definition register_role (d : RoleDefinition) (cap : Z) (l : CapLedger) : CapLedger :=
  set_used (global_pool_consumed l)
    (<[role_id d := RoleCap_new (role_id d) cap (lifetime_cap d) (current_period l)]> (role_caps l))
    (assignment_consumption l) l.

Notation CM := (M CapLedger CapError) (only parsing).

Definition update_caps (role cap : Z) (lifetime : option Z) : CM unit :=
  l <- gets (λ l, l) ;;
  c <- lift (ok_or (role_caps l !! role) (CapRoleNotFound role)) ;;
  modify (set_used (global_pool_consumed l)
    (<[role := {| rc_role := rc_role c; period_cap := cap; period_consumed := period_consumed c;
                  rc_lifetime_cap := lifetime; lifetime_consumed := lifetime_consumed c;
                  rc_period := rc_period c |}]> (role_caps l)) (assignment_consumption l)).

Definition register_assignment (a : Assignment) (l : CapLedger) : CapLedger :=
  set_used (global_pool_consumed l) (role_caps l)
    (<[assignment_id a := AssignmentConsumption_new (assignment_id a) (assigned_role a)
         (snap_annual_cap a) (snap_lifetime_cap a) (current_period l)]> (assignment_consumption l)) l.

(** ** Checks *)

Definition check_global_cap (amount : Z) (l : CapLedger) : result unit CapError :=
  let? new_total := ok_or (checked_add 64 (global_pool_consumed l) amount) CapOverflow in
  if global_pool_cap l <? new_total
  then Err (GlobalCapExceeded (global_pool_cap l) (global_pool_consumed l) amount) else Ok tt.

Definition check_role_caps (role amount : Z) (l : CapLedger) : result unit CapError :=
  let? c := ok_or (role_caps l !! role) (CapRoleNotFound role) in
  let? new_period := ok_or (checked_add 64 (period_consumed c) amount) CapOverflow in
  if period_cap c <? new_period
  then Err (RolePeriodCapExceeded role (period_cap c) (period_consumed c) amount) else
  match rc_lifetime_cap c with
  | Some cap =>
      let? new_lifetime := ok_or (checked_add 64 (lifetime_consumed c) amount) CapOverflow in
      if cap <? new_lifetime
      then Err (RoleLifetimeCapExceeded role cap (lifetime_consumed c) amount) else Ok tt
  | None => Ok tt
  end.

Definition check_assignment_caps (c : AssignmentConsumption) (amount : Z) : result unit CapError :=
  let? new_period := ok_or (checked_add 64 (current_period_consumed c) amount) CapOverflow in
  if ac_annual_cap c <? new_period
  then Err (AssignmentAnnualCapExceeded (ac_assignment c) (ac_annual_cap c) (current_period_consumed c) amount) else
  match ac_lifetime_cap c with
  | Some cap =>
      let? new_lifetime := ok_or (checked_add 64 (total_consumed c) amount) CapOverflow in
      if cap <? new_lifetime
      then Err (AssignmentLifetimeCapExceeded (ac_assignment c) cap (total_consumed c) amount) else Ok tt
  | None => Ok tt
  end.

(** ** Reservations *)

(** The hash of an assignment, a counter and a period. *)
Class ReservationHash : Type := { reservation_hash : Z → Z → Z → Z }.

Section Ledger.
Context `{ReservationHash}.

Definition reserve_compensation (id amount epoch : Z) : CM CapReservation :=
  l <- gets (λ l, l) ;;
  c <- lift (ok_or (assignment_consumption l !! id) (CapAssignmentNotFound id)) ;;
  lift (check_global_cap amount l) ;;;
  lift (check_role_caps (ac_role c) amount l) ;;;
  lift (check_assignment_caps c amount) ;;;
  let rid := reservation_hash id (next_reservation_counter l) (current_period l) in
  let r := {| res_id := rid; res_assignment := id; res_role := ac_role c; res_amount := amount;
              res_period := current_period l; res_epoch := epoch |} in
  modify (set_pending (<[rid := r]> (pending_reservations l)) (wadd 64 (next_reservation_counter l) 1)) ;;;
  ret r.

(** A method of an entry, if it is there. *)
Definition on_role (role : Z) (m : M RoleCap CapError unit) : CM unit :=
  l <- gets (λ l, l) ;;
  match role_caps l !! role with
  | Some c => let '(c', x) := m c in
      modify (set_used (global_pool_consumed l) (<[role := c']> (role_caps l)) (assignment_consumption l)) ;;;
      lift x
  | None => ret tt
  end.

Definition on_consumption (id : Z) (m : M AssignmentConsumption CapError unit) : CM unit :=
  l <- gets (λ l, l) ;;
  match assignment_consumption l !! id with
  | Some c => let '(c', x) := m c in
      modify (set_used (global_pool_consumed l) (role_caps l) (<[id := c']> (assignment_consumption l))) ;;;
      lift x
  | None => ret tt
  end.

Definition commit_reservation (rid : Z) : CM unit :=
  l <- gets (λ l, l) ;;
  r <- lift (ok_or (pending_reservations l !! rid) (ReservationNotFound rid)) ;;
  guard (res_period r =? current_period l) (PeriodMismatch (current_period l) (res_period r)) ;;;
  modify (set_pending (delete rid (pending_reservations l)) (next_reservation_counter l)) ;;;
  g <- lift (ok_or (checked_add 64 (global_pool_consumed l) (res_amount r)) CapOverflow) ;;
  modify (set_used g (role_caps l) (assignment_consumption l)) ;;;
  on_role (res_role r) (rc_record_consumption (res_amount r)) ;;;
  on_consumption (res_assignment r) (ac_record_consumption (res_amount r)).

Definition rollback_reservation (rid : Z) : CM unit :=
  l <- gets (λ l, l) ;;
  lift (ok_or (pending_reservations l !! rid) (ReservationNotFound rid)) ;;;
  modify (set_pending (delete rid (pending_reservations l)) (next_reservation_counter l)).

Definition global_remaining (l : CapLedger) : Z :=
  saturating_sub (global_pool_cap l) (global_pool_consumed l).

(** The smaller of a bound and an optional one. *)
Definition min_opt (m : Z) (o : option Z) : Z := match o with Some x => Z.min m x | None => m end.

Definition max_payable (id : Z) (l : CapLedger) : result Z CapError :=
  let? c := ok_or (assignment_consumption l !! id) (CapAssignmentNotFound id) in
  let? rc := ok_or (role_caps l !! ac_role c) (CapRoleNotFound (ac_role c)) in
  let m := Z.min (global_remaining l) (remaining_period rc) in
  let m := min_opt m (rc_remaining_lifetime rc) in
  let m := Z.min m (remaining_annual c) in
  Ok (min_opt m (ac_remaining_lifetime c)).

(** ** Checks and [max_payable] agree *)

Definition cap_typed (cap : option Z) : Prop := match cap with Some c => c <= umax 64 | None => True end.

Definition role_cap_typed (c : RoleCap) : Prop :=
  0 <= period_consumed c ∧ 0 <= lifetime_consumed c ∧ period_cap c <= umax 64 ∧ cap_typed (rc_lifetime_cap c).

Definition consumption_typed (c : AssignmentConsumption) : Prop :=
  0 <= current_period_consumed c ∧ 0 <= total_consumed c ∧ ac_annual_cap c <= umax 64 ∧ cap_typed (ac_lifetime_cap c).

Record ledger_typed (l : CapLedger) : Prop := {
  lt_global : 0 <= global_pool_consumed l ∧ global_pool_cap l <= umax 64;
  lt_roles : map_Forall (λ _, role_cap_typed) (role_caps l);
  lt_assignments : map_Forall (λ _, consumption_typed) (assignment_consumption l);
}.

(** Adding [amount] to [used] is within [cap]. *)
Definition fits (used amount : Z) (cap : option Z) : Prop :=
  match cap with Some c => used + amount <= c | None => True end.

Lemma check_global_spec amount l :
  ledger_typed l → is_ok (check_global_cap amount l) = true ↔ global_pool_consumed l + amount <= global_pool_cap l.
Proof.
  intros [[? ?] _ _]. unfold check_global_cap, ok_or, checked_add.
  destruct (Z.leb_spec (global_pool_consumed l + amount) (umax 64)); cbn;
    [destruct (Z.ltb_spec (global_pool_cap l) (global_pool_consumed l + amount))|]; cbn; split; try done; lia.
Qed.

Lemma check_role_spec role amount l :
  ledger_typed l →
  is_ok (check_role_caps role amount l) = true ↔
  ∃ c, role_caps l !! role = Some c ∧ period_consumed c + amount <= period_cap c ∧
       fits (lifetime_consumed c) amount (rc_lifetime_cap c).
Proof.
  intros [_ Hr _]. unfold check_role_caps, ok_or, checked_add, fits.
  destruct (role_caps l !! role) as [c|] eqn:Hc; cbn; [|split; [done|by intros (? & ? & _)]].
  destruct (Hr role c Hc) as (? & ? & ? & Ht).
  destruct (Z.leb_spec (period_consumed c + amount) (umax 64)); cbn; [|split; [done|intros (? & [= <-] & ? & _); lia]].
  destruct (Z.ltb_spec (period_cap c) (period_consumed c + amount)); cbn; [split; [done|intros (? & [= <-] & ? & _); lia]|].
  destruct (rc_lifetime_cap c) as [cap|] eqn:Hl; cbn in Ht; [|split; [intros _; exists c; by rewrite Hl|done]].
  destruct (Z.leb_spec (lifetime_consumed c + amount) (umax 64)); cbn;
    [destruct (Z.ltb_spec cap (lifetime_consumed c + amount))|]; cbn; split; try done;
    try (intros (? & [= <-] & _ & Hx); rewrite Hl in Hx; lia).
  intros _. exists c. by rewrite Hl.
Qed.

Lemma check_assignment_spec c amount :
  consumption_typed c →
  is_ok (check_assignment_caps c amount) = true ↔
  current_period_consumed c + amount <= ac_annual_cap c ∧ fits (total_consumed c) amount (ac_lifetime_cap c).
Proof.
  intros (? & ? & ? & Ht). unfold check_assignment_caps, ok_or, checked_add, fits.
  destruct (Z.leb_spec (current_period_consumed c + amount) (umax 64)); cbn; [|split; [done|lia]].
  destruct (Z.ltb_spec (ac_annual_cap c) (current_period_consumed c + amount)); cbn; [split; [done|lia]|].
  destruct (ac_lifetime_cap c) as [cap|]; cbn in Ht; [|split; done].
  destruct (Z.leb_spec (total_consumed c + amount) (umax 64)); cbn;
    [destruct (Z.ltb_spec cap (total_consumed c + amount))|]; cbn; split; try done; lia.
Qed.

(** What a reservation needs: room under every cap. *)
Definition room (id amount : Z) (l : CapLedger) : Prop :=
  ∃ c rc, assignment_consumption l !! id = Some c ∧ role_caps l !! ac_role c = Some rc ∧
    global_pool_consumed l + amount <= global_pool_cap l ∧
    period_consumed rc + amount <= period_cap rc ∧ fits (lifetime_consumed rc) amount (rc_lifetime_cap rc) ∧
    current_period_consumed c + amount <= ac_annual_cap c ∧ fits (total_consumed c) amount (ac_lifetime_cap c).

Lemma reserve_cases id amount epoch l :
  ledger_typed l →
  let '(l', x) := reserve_compensation id amount epoch l in
  (l' = l ∧ is_ok x = false ∧ ¬ room id amount l) ∨
  ∃ r, x = Ok r ∧ room id amount l ∧
    res_id r = reservation_hash id (next_reservation_counter l) (current_period l) ∧
    res_assignment r = id ∧ res_amount r = amount ∧ res_period r = current_period l ∧
    (ac_role <$> assignment_consumption l !! id) = Some (res_role r) ∧
    l' = set_pending (<[res_id r := r]> (pending_reservations l)) (wadd 64 (next_reservation_counter l) 1) l.
Proof.
  intros Ht. unfold reserve_compensation, bind, gets, lift, modify, ret, ok_or.
  destruct (assignment_consumption l !! id) as [c|] eqn:Hc; [|left; split_and!; [done|done|intros (? & ? & E & _); by rewrite Hc in E]].
  pose proof (check_global_spec amount l Ht) as Hg. pose proof (check_role_spec (ac_role c) amount l Ht) as Hr.
  pose proof (check_assignment_spec c amount (lt_assignments _ Ht id c Hc)) as Ha.
  destruct (check_global_cap amount l) as [[]|]; cbn in Hg;
    [|left; split_and!; [done|done|intros (? & ? & _ & _ & Hx & _); by apply Hg in Hx]].
  destruct (check_role_caps (ac_role c) amount l) as [[]|]; cbn in Hr;
    [|left; split_and!; [done|done|intros (c' & rc & E & ? & _ & ? & ? & _); rewrite Hc in E; simplify_eq;
      assert (false = true) by (apply Hr; eauto); done]].
  destruct (check_assignment_caps c amount) as [[]|]; cbn in Ha;
    [|left; split_and!; [done|done|intros (c' & rc & E & ? & _ & _ & _ & ? & ?); rewrite Hc in E; simplify_eq;
      assert (false = true) by (apply Ha; eauto); done]].
  right. eexists. split; [done|]. cbn. split_and!; try done.
  destruct (proj1 Hr eq_refl) as (rc & Hrc & ? & ?). destruct (proj1 Ha eq_refl). exists c, rc.
  split_and!; try done. by apply Hg.
Qed.

(** The bound of [max_payable], when the assignment and its role are known. *)
Lemma max_payable_room id l amount :
  0 < amount → room id amount l ↔ ∃ m, max_payable id l = Ok m ∧ amount <= m.
Proof.
  intros Ha. unfold room, max_payable, ok_or, global_remaining, remaining_period, rc_remaining_lifetime,
    remaining_annual, ac_remaining_lifetime, fits, min_opt, saturating_sub. split.
  - intros (c & rc & -> & Hr & ? & ? & Hf & ? & Hg). cbn. rewrite Hr. cbn. eexists. split; [done|].
    destruct (rc_lifetime_cap rc), (ac_lifetime_cap c); cbn; lia.
  - destruct (assignment_consumption l !! id) as [c|]; cbn; [|by intros (? & ? & _)].
    destruct (role_caps l !! ac_role c) as [rc|] eqn:Hr; cbn; [|by intros (? & ? & _)].
    intros (m & [= <-] & Hm). exists c, rc.
    destruct (rc_lifetime_cap rc), (ac_lifetime_cap c); cbn in Hm; split_and!; try done; lia.
Qed.

(** A reservation succeeds exactly up to [max_payable].  It is then pending with
    its amount, and otherwise nothing changes. *)
Theorem reserve_upto_max_payable id amount epoch l :
  ledger_typed l → 0 < amount →
  let '(l', x) := reserve_compensation id amount epoch l in
  (is_ok x = true ↔ ∃ m, max_payable id l = Ok m ∧ amount <= m) ∧
  match x with
  | Ok r => res_amount r = amount ∧ pending_reservations l' !! res_id r = Some r ∧
            max_payable id l' = max_payable id l
  | Err _ => l' = l
  end.
Proof.
  intros Ht Ha. pose proof (reserve_cases id amount epoch l Ht) as Hc.
  pose proof (max_payable_room id l amount Ha) as Hm.
  destruct (reserve_compensation id amount epoch l) as [l' x].
  destruct Hc as [(-> & Hx & Hn)|(r & -> & Hr & _ & _ & Hamt & _ & _ & ->)].
  - destruct x; [done|]. split; [|done]. split; [done|]. intros Hx'%Hm. done.
  - split; [split; [|done]; intros _; by apply Hm|]. split_and!; [done|by apply lookup_insert_eq|done].
Qed.

(** ** One reservation at a time *)

Inductive CapOp : Type :=
| CRegisterRole (d : RoleDefinition) (cap : Z) | CUpdateCaps (role cap : Z) (lifetime : option Z)
| CRegisterAssignment (a : Assignment) | CReserve (id amount epoch : Z) | CCommit (rid : Z)
| CRollback (rid : Z) | CAdvance (p : Z).

Definition cap_step (op : CapOp) (l : CapLedger) : CapLedger :=
  match op with
  | CRegisterRole d cap => register_role d cap l
  | CUpdateCaps role cap lifetime => (update_caps role cap lifetime l).1
  | CRegisterAssignment a => register_assignment a l
  | CReserve id amount epoch => (reserve_compensation id amount epoch l).1
  | CCommit rid => (commit_reservation rid l).1
  | CRollback rid => (rollback_reservation rid l).1
  | CAdvance p => advance_period p l
  end.

(** The reservations that can still be committed. *)
Definition open (l : CapLedger) (rid : Z) (r : CapReservation) : Prop :=
  pending_reservations l !! rid = Some r ∧ res_period r = current_period l.

Definition raised (old new : option Z) : Prop :=
  match old, new with _, None => True | Some o, Some n => o <= n <= umax 64 | None, Some _ => False end.

(** New roles and assignments with caps of their type, caps that are only raised, and
    a reservation only when none is open. *)
Definition careful (op : CapOp) (l : CapLedger) : Prop :=
  match op with
  | CRegisterRole d cap => role_caps l !! role_id d = None ∧ 0 <= cap <= umax 64 ∧
      match lifetime_cap d with Some c => 0 <= c <= umax 64 | None => True end
  | CUpdateCaps role cap lifetime => ∀ c, role_caps l !! role = Some c →
      period_cap c <= cap <= umax 64 ∧ raised (rc_lifetime_cap c) lifetime
  | CRegisterAssignment a => assignment_consumption l !! assignment_id a = None ∧
      0 <= snap_annual_cap a <= umax 64 ∧ match snap_lifetime_cap a with Some c => 0 <= c <= umax 64 | None => True end
  | CReserve _ amount _ => 0 <= amount ∧ ∀ rid r, ¬ open l rid r
  | _ => True
  end.

Inductive cap_reach (cap period : Z) : CapLedger → Prop :=
| cr_new : 0 <= cap <= umax 64 → cap_reach cap period (CapLedger_new cap period)
| cr_op l op : cap_reach cap period l → careful op l → cap_reach cap period (cap_step op l).

(** Entries within their caps, that stay so if [a] is added. *)
Definition role_within (a : Z) (c : RoleCap) : Prop :=
  role_cap_typed c ∧ period_consumed c + a <= period_cap c ∧ fits (lifetime_consumed c) a (rc_lifetime_cap c).

Definition consumption_within (a : Z) (c : AssignmentConsumption) : Prop :=
  consumption_typed c ∧ current_period_consumed c + a <= ac_annual_cap c ∧
  fits (total_consumed c) a (ac_lifetime_cap c).

Record within (l : CapLedger) : Prop := {
  w_global : 0 <= global_pool_consumed l <= global_pool_cap l ∧ global_pool_cap l <= umax 64;
  w_roles : map_Forall (λ _, role_within 0) (role_caps l);
  w_assignments : map_Forall (λ _, consumption_within 0) (assignment_consumption l);
}.

Record ledger_ok (l : CapLedger) : Prop := {
  lo_within : within l;
  lo_pending : ∀ rid r, pending_reservations l !! rid = Some r → 0 <= res_amount r ∧ res_period r <= current_period l;
  lo_room : ∀ rid r, open l rid r →
    room (res_assignment r) (res_amount r) l ∧
    (ac_role <$> assignment_consumption l !! res_assignment r) = Some (res_role r);
  lo_one : ∀ rid r rid' r', open l rid r → open l rid' r' → rid = rid';
}.

Lemma within_typed l : within l → ledger_typed l.
Proof. intros [? Hr Ha]. split; [lia|..]; [intros i c Hc; by apply (Hr i)|intros i c Hc; by apply (Ha i)]. Qed.

Lemma rc_record_within amount c :
  0 <= amount → role_within amount c → role_within 0 (rc_record_consumption amount c).1.
Proof.
  intros Ha (Ht & Hp & Hf). destruct Ht as (? & ? & ? & Hl).
  assert (role_within 0 c) as Hc.
  { repeat split; try done; [lia|]. unfold fits in *. destruct (rc_lifetime_cap c); [lia|done]. }
  unfold rc_record_consumption, bind, gets, lift, modify, ok_or, checked_add.
  destruct (Z.leb_spec (period_consumed c + amount) (umax 64)); cbn; [|done].
  assert (role_within 0 (rc_with (period_consumed c + amount) (lifetime_consumed c) (rc_period c) c)) as Hq.
  { destruct Hc as (_ & _ & ?). repeat split; cbn; try done; lia. }
  destruct (Z.leb_spec (lifetime_consumed c + amount) (umax 64)); cbn; [|done].
  repeat split; cbn; try done; try lia. unfold fits in *. destruct (rc_lifetime_cap c); [lia|done].
Qed.

Lemma ac_record_within amount c :
  0 <= amount → consumption_within amount c → consumption_within 0 (ac_record_consumption amount c).1.
Proof.
  intros Ha (Ht & Hp & Hf). destruct Ht as (? & ? & ? & Hl).
  assert (consumption_within 0 c) as Hc.
  { repeat split; try done; [lia|]. unfold fits in *. destruct (ac_lifetime_cap c); [lia|done]. }
  unfold ac_record_consumption, bind, gets, lift, modify, ok_or, checked_add.
  destruct (Z.leb_spec (current_period_consumed c + amount) (umax 64)); cbn; [|done].
  assert (consumption_within 0 (ac_with (current_period_consumed c + amount) (total_consumed c) (ac_period c) c)) as Hq.
  { destruct Hc as (_ & _ & ?). repeat split; cbn; try done; lia. }
  destruct (Z.leb_spec (total_consumed c + amount) (umax 64)); cbn; [|done].
  repeat split; cbn; try done; try lia. unfold fits in *. destruct (ac_lifetime_cap c); [lia|done].
Qed.

Lemma alter_some {V : Type} (f : V → V) (m : gmap Z V) k v : m !! k = Some v → alter f k m = <[k := f v]> m.
Proof.
  intros Hv. apply map_eq. intros i. destruct (decide (k = i)) as [<-|].
  - by rewrite lookup_alter_eq, lookup_insert_eq, Hv.
  - by rewrite lookup_alter_ne, lookup_insert_ne.
Qed.

Lemma alter_none {V : Type} (f : V → V) (m : gmap Z V) k : m !! k = None → alter f k m = m.
Proof.
  intros Hv. apply map_eq. intros i. destruct (decide (k = i)) as [<-|].
  - by rewrite lookup_alter_eq, Hv.
  - by rewrite lookup_alter_ne.
Qed.

Lemma on_role_run role m l :
  (on_role role m l).1 =
  set_used (global_pool_consumed l) (alter (λ c, (m c).1) role (role_caps l)) (assignment_consumption l) l.
Proof.
  unfold on_role, bind, gets. destruct (role_caps l !! role) as [c|] eqn:Hc.
  - rewrite (alter_some _ _ _ _ Hc). by destruct (m c).
  - rewrite alter_none by done. by destruct l.
Qed.

Lemma on_consumption_run id m l :
  (on_consumption id m l).1 =
  set_used (global_pool_consumed l) (role_caps l) (alter (λ c, (m c).1) id (assignment_consumption l)) l.
Proof.
  unfold on_consumption, bind, gets. destruct (assignment_consumption l !! id) as [c|] eqn:Hc.
  - rewrite (alter_some _ _ _ _ Hc). by destruct (m c).
  - rewrite alter_none by done. by destruct l.
Qed.

(** A commit consumes the caps in this order, and stops at the first that overflows. *)
Lemma commit_cases rid l :
  let l' := (commit_reservation rid l).1 in
  l' = l ∨
  ∃ r, open l rid r ∧
    let g := global_pool_consumed l + res_amount r in
    let l0 := set_pending (delete rid (pending_reservations l)) (next_reservation_counter l) l in
    let roles := alter (λ c, (rc_record_consumption (res_amount r) c).1) (res_role r) (role_caps l) in
    let cons := alter (λ c, (ac_record_consumption (res_amount r) c).1) (res_assignment r)
                  (assignment_consumption l) in
    l' = l0 ∨ g <= umax 64 ∧
    (l' = set_used g roles (assignment_consumption l) l0 ∨ l' = set_used g roles cons l0).
Proof.
  cbn zeta. unfold commit_reservation, bind, gets, lift, ok_or, guard, modify, throw, ret.
  destruct (pending_reservations l !! rid) as [r|] eqn:Hr; [|by left].
  destruct (Z.eqb_spec (res_period r) (current_period l)) as [Hp|]; [|by left].
  right. exists r. split; [done|].
  destruct (checked_add 64 (global_pool_consumed l) (res_amount r)) as [g|] eqn:Hg; [|by left].
  int_inv. right. split; [done|].
  set (l1 := set_used _ _ _ _).
  pose proof (on_role_run (res_role r) (rc_record_consumption (res_amount r)) l1) as E.
  destruct (on_role _ _ l1) as [l2 [u|e]]; cbn in E; subst l2; [right|by left].
  by rewrite on_consumption_run.
Qed.

Lemma alter_within {V : Type} (P : V → Prop) (f : V → V) (m : gmap Z V) k :
  map_Forall (λ _, P) m → (∀ v, m !! k = Some v → P (f v)) → map_Forall (λ _, P) (alter f k m).
Proof.
  intros Hm Hf i v. rewrite lookup_alter_Some. intros [(<- & w & Hw & ->)|[_ Hv]]; [auto|by apply (Hm i)].
Qed.

(** Deleting a pending reservation. *)
Lemma delete_ok rid l :
  ledger_ok l →
  ledger_ok (set_pending (delete rid (pending_reservations l)) (next_reservation_counter l) l).
Proof.
  intros [Hw Hp Hr Ho]. split; unfold open; cbn; [by destruct Hw; split| | |].
  - intros i r [_ Hx]%lookup_delete_Some. by apply (Hp i).
  - intros i r [[_ Hx]%lookup_delete_Some ?]. by apply (Hr i).
  - intros i r i' r' [[_ Hx]%lookup_delete_Some ?] [[_ Hx']%lookup_delete_Some ?]. by apply (Ho i r i' r').
Qed.

Lemma commit_ok rid l : ledger_ok l → ledger_ok (commit_reservation rid l).1.
Proof.
  intros Hok. pose proof (commit_cases rid l) as Hc. cbn zeta in Hc.
  destruct (commit_reservation rid l) as [l' x]. cbn in Hc |- *.
  destruct Hc as [->|(r & Hop & Hc)]; [done|]. pose proof (delete_ok rid l Hok) as Hd.
  destruct Hc as [->|[Hg Hc]]; [done|].
  destruct Hok as [[Hwg Hwr Hwa] Hp Hr Ho]. destruct (Hr rid r Hop) as [(c & rc & Hc1 & Hrc & H1 & H2 & H3 & H4 & H5) Hrole].
  destruct (Hp rid r (proj1 Hop)) as [Hamt _]. rewrite Hc1 in Hrole. injection Hrole as Hrole.
  assert (map_Forall (λ _, role_within 0) (alter (λ c, (rc_record_consumption (res_amount r) c).1) (res_role r) (role_caps l))) as Hroles.
  { apply alter_within; [done..|]. intros v Hv. rewrite <- Hrole, Hrc in Hv. simplify_eq.
    apply rc_record_within; [done|]. destruct (Hwr _ _ Hrc) as [? _]. done. }
  assert (map_Forall (λ _, consumption_within 0) (alter (λ c, (ac_record_consumption (res_amount r) c).1)
    (res_assignment r) (assignment_consumption l))) as Hcons.
  { apply alter_within; [done..|]. intros v Hv. rewrite Hc1 in Hv. simplify_eq.
    apply ac_record_within; [done|]. destruct (Hwa _ _ Hc1) as [? _]. done. }
  assert (∀ l1, pending_reservations l1 = delete rid (pending_reservations l) →
    current_period l1 = current_period l → within l1 → ledger_ok l1) as Hfin.
  { intros l1 E1 E2 Hw1. split; [done|..]; unfold open; rewrite ?E1, ?E2.
    - intros i r' [_ Hx]%lookup_delete_Some. by apply (Hp i).
    - intros i r' [[Hne Hx]%lookup_delete_Some ?]. destruct Hne. by apply (Ho rid r i r').
    - intros i r' i' r'' [[Hne Hx]%lookup_delete_Some ?]. destruct Hne. by apply (Ho rid r i r'). }
  destruct Hc as [-> | ->]; apply Hfin; try done; split; cbn; try done; lia.
Qed.

Lemma reserve_ok id amount epoch l :
  ledger_ok l → careful (CReserve id amount epoch) l → ledger_ok (reserve_compensation id amount epoch l).1.
Proof.
  intros Hok [Ha Hnone]. pose proof (reserve_cases id amount epoch l (within_typed _ (lo_within _ Hok))) as Hc.
  destruct (reserve_compensation id amount epoch l) as [l' x]. cbn.
  destruct Hc as [(-> & _)|(r & -> & Hr & _ & Hid & Hamt & Hper & Hrole & ->)]; [done|].
  destruct Hok as [Hw Hp Hro Ho]. split; unfold open; cbn.
  - destruct Hw. by split.
  - intros i r0 [[<- <-]|[_ Hx]]%lookup_insert_Some; [lia|by apply (Hp i)].
  - intros i r0 [[[<- <-]|[_ Hx]]%lookup_insert_Some Hpd].
    + rewrite Hid, Hamt in *. done.
    + by destruct (Hnone i r0).
  - intros i r0 j r1 [[[<- <-]|[_ Hx]]%lookup_insert_Some ?] [[[<- <-]|[_ Hy]]%lookup_insert_Some ?]; try done.
    + by destruct (Hnone j r1).
    + by destruct (Hnone i r0).
    + by destruct (Hnone i r0).
Qed.

(** Operations that keep the reservations and the room of the open ones. *)
Lemma same_pending_ok l l' :
  ledger_ok l → within l' → pending_reservations l' = pending_reservations l →
  current_period l' = current_period l →
  (∀ id a, room id a l → room id a l') →
  (∀ id c, assignment_consumption l !! id = Some c → ∃ c', assignment_consumption l' !! id = Some c' ∧ ac_role c' = ac_role c) →
  ledger_ok l'.
Proof.
  intros [_ Hp Hr Ho] Hw Ep Ec Hroom Hcons. split; [done|..]; unfold open; rewrite ?Ep, ?Ec; [done| |done].
  intros rid r Hop. destruct (Hr rid r Hop) as [Hx Hy]. split; [auto|].
  destruct (assignment_consumption l !! res_assignment r) as [c|] eqn:Hc; [|done].
  destruct (Hcons _ _ Hc) as (c' & -> & E). cbn in *. congruence.
Qed.

Lemma register_role_ok d cap l :
  ledger_ok l → careful (CRegisterRole d cap) l → ledger_ok (register_role d cap l).
Proof.
  intros Hok (Hf & Hc & Hl). apply (same_pending_ok l); try done; [| |by eauto].
  - destruct (lo_within _ Hok) as [? Hr Ha]. split; cbn; [done| |done].
    apply map_Forall_insert_2; [|done]. repeat split; cbn; try done; try lia;
      destruct (lifetime_cap d); cbn; try done; lia.
  - intros id a (c & rc & H1 & H2 & Hx). exists c, rc. split; [done|]. split; [|done]. cbn.
    rewrite lookup_insert_ne; [done|]. intros E. congruence.
Qed.

Lemma register_assignment_ok a l :
  ledger_ok l → careful (CRegisterAssignment a) l → ledger_ok (register_assignment a l).
Proof.
  intros Hok (Hf & Hc & Hl).
  assert (∀ id c, assignment_consumption l !! id = Some c →
    assignment_consumption (register_assignment a l) !! id = Some c) as Hk.
  { intros id c Hx. cbn. rewrite lookup_insert_ne; [done|]. intros E. congruence. }
  apply (same_pending_ok l); try done; [| |by eauto].
  - destruct (lo_within _ Hok) as [? Hr Ha]. split; cbn; [done|done|].
    apply map_Forall_insert_2; [|done]. repeat split; cbn; try done; try lia;
      destruct (snap_lifetime_cap a); cbn; try done; lia.
  - intros id x (c & rc & H1 & H2 & Hx). exists c, rc. split; [by apply Hk|done].
Qed.

Lemma fits_raised u a old new : fits u a old → raised old new → fits u a new.
Proof. unfold fits, raised. destruct old, new; try done; lia. Qed.

Lemma update_caps_ok role cap lifetime l :
  ledger_ok l → careful (CUpdateCaps role cap lifetime) l → ledger_ok (update_caps role cap lifetime l).1.
Proof.
  intros Hok Hc. unfold update_caps, bind, gets, lift, ok_or, modify; cbn.
  destruct (role_caps l !! role) as [c|] eqn:Hr; cbn; [|done]. destruct (Hc c Hr) as [Hcap Hraise].
  apply (same_pending_ok l); try done; [| |by eauto].
  - destruct (lo_within _ Hok) as [? Hro Ha]. split; cbn; [done| |done].
    apply map_Forall_insert_2; [|done]. destruct (Hro role c Hr) as ((? & ? & ? & Ht) & ? & Hf).
    repeat split; cbn; try done; try lia; [|by eapply fits_raised].
    destruct lifetime, (rc_lifetime_cap c); cbn in *; try done; lia.
  - intros id a (k & rc & H1 & H2 & H3 & H4 & H5 & H6 & H7). cbn.
    destruct (decide (role = ac_role k)) as [->|].
    + rewrite Hr in H2. simplify_eq. eexists k, _. cbn. rewrite lookup_insert_eq.
      split_and!; try done; cbn; [lia|by eapply fits_raised].
    + exists k, rc. cbn. rewrite lookup_insert_ne by done. done.
Qed.

Lemma advance_ok p l : ledger_ok l → ledger_ok (advance_period p l).
Proof.
  intros Hok. unfold advance_period. destruct (Z.leb_spec p (current_period l)) as [|Hlt]; [done|].
  destruct Hok as [[Hg Hr Ha] Hp _ _]. split; unfold open; cbn.
  - split; cbn; [lia|..].
    + intros i c. rewrite lookup_fmap_Some. intros (c0 & <- & Hc). destruct (Hr i c0 Hc) as ((? & ? & ? & ?) & ? & ?).
      unfold rc_reset_period. case_match; [|done]. repeat split; cbn; try done; lia.
    + intros i c. rewrite lookup_fmap_Some. intros (c0 & <- & Hc). destruct (Ha i c0 Hc) as ((? & ? & ? & ?) & ? & ?).
      unfold ac_reset_period. case_match; [|done]. repeat split; cbn; try done; lia.
  - intros rid r Hx. destruct (Hp rid r Hx). lia.
  - intros rid r [Hx E]. destruct (Hp rid r Hx). lia.
  - intros rid r ? ? [Hx E]. destruct (Hp rid r Hx). lia.
Qed.

Lemma cap_reach_ok cap period l : cap_reach cap period l → ledger_ok l.
Proof.
  induction 1 as [Hc|l op Hr IH Hcare].
  - split; unfold open; cbn; [split; cbn; [lia|by apply map_Forall_empty..]|done| |].
    + by intros ? ? [? _].
    + by intros ? ? ? ? [? _].
  - destruct op; cbn [cap_step].
    + by apply register_role_ok.
    + by apply update_caps_ok.
    + by apply register_assignment_ok.
    + by apply reserve_ok.
    + by apply commit_ok.
    + unfold rollback_reservation, bind, gets, lift, ok_or, modify.
      destruct (pending_reservations l !! rid); [by apply delete_ok|done].
    + by apply advance_ok.
Qed.

(** C19: the caps hold for a careful caller: one who makes a reservation only when no
    other of the period is open, registers every role and every assignment once,
    and only ever raises the caps of a role.  Then, whatever is reserved, committed
    and rolled back, and however the periods advance, what the ledger records as
    consumed by the pool, by every role and by every assignment stays within the caps
    of their period and of their lifetime. *)
Theorem caps_hold cap period l :
  cap_reach cap period l →
  0 <= global_pool_consumed l <= global_pool_cap l ∧
  (∀ role c, role_caps l !! role = Some c →
    0 <= period_consumed c <= period_cap c ∧ fits (lifetime_consumed c) 0 (rc_lifetime_cap c)) ∧
  (∀ id c, assignment_consumption l !! id = Some c →
    0 <= current_period_consumed c <= ac_annual_cap c ∧ fits (total_consumed c) 0 (ac_lifetime_cap c)).
Proof.
  intros Hr. destruct (lo_within _ (cap_reach_ok _ _ _ Hr)) as [Hg Hro Ha]. split; [lia|]. split.
  - intros role c Hc. destruct (Hro role c Hc) as ((? & ? & ? & ?) & ? & ?). split; [lia|done].
  - intros id c Hc. destruct (Ha id c Hc) as ((? & ? & ? & ?) & ? & ?). split; [lia|done].
Qed.

End Ledger.

(** ** Examples *)

Module CapsDemo.

#[export] Instance demo_reservation_hash : ReservationHash := {| reservation_hash := λ _ n _, n |}.

(** A pool, a role and an assignment with 100 each. *)
Definition demo_role : RoleDefinition := RoleDefinition_new 1 "Auditor" "" 100 100 0.
Definition l0 : CapLedger :=
  register_assignment (Assignment_new 9 5 demo_role 0 0) (register_role demo_role 100 (CapLedger_new 100 0)).

Fixpoint run (ops : list CapOp) (l : CapLedger) : CapLedger :=
  match ops with [] => l | op :: ops => run ops (cap_step op l) end.

Lemma l0_reach : cap_reach 100 0 l0.
Proof.
  refine (cr_op 100 0 _ (CRegisterAssignment (Assignment_new 9 5 demo_role 0 0)) _ _); [|by vm_compute].
  refine (cr_op 100 0 _ (CRegisterRole demo_role 100) _ _); [|by vm_compute]. by apply cr_new.
Qed.

Lemma reserve_upto_max_payable_witness : is_ok (reserve_compensation 9 100 0 l0).2 = true.
Proof.
  assert (ledger_typed l0) as Ht by exact (within_typed _ (lo_within _ (cap_reach_ok _ _ _ l0_reach))).
  pose proof (reserve_upto_max_payable 9 100 0 l0 Ht ltac:(lia)) as Hx.
  destruct (reserve_compensation 9 100 0 l0) as [l' x]. apply (proj1 Hx). exists 100. split; [by vm_compute|done].
Defined.

Lemma caps_hold_witness : global_pool_consumed (run [CReserve 9 60 0; CCommit 0] l0) <= 100.
Proof.
  refine (proj2 (proj1 (caps_hold 100 0 (run [CReserve 9 60 0; CCommit 0] l0) _))).
  refine (cr_op 100 0 _ (CCommit 0) _ _); [|done].
  refine (cr_op 100 0 _ (CReserve 9 60 0) l0_reach _). split; [done|]. intros rid r [Hp _]. done.
Defined.

(** Two reservations of 60 fit under caps of 100, since an open one is not counted;
    committing both exceeds every cap. *)
Lemma two_reservations_exceed :
  let l := run [CReserve 9 60 0; CReserve 9 60 0; CCommit 0; CCommit 1] l0 in
  global_pool_consumed l = 120 ∧ global_pool_cap l = 100 ∧
  (period_consumed <$> role_caps l !! 1) = Some 120 ∧
  (current_period_consumed <$> assignment_consumption l !! 9) = Some 120.
Proof. by vm_compute. Qed.

(** Registering an assignment again forgets what it consumed. *)
Lemma registration_forgets :
  let l := run [CReserve 9 60 0; CCommit 0; CRegisterAssignment (Assignment_new 9 5 demo_role 0 0)] l0 in
  (total_consumed <$> assignment_consumption l !! 9) = Some 0 ∧ global_pool_consumed l = 60.
Proof. by vm_compute. Qed.

End CapsDemo.
