(* ===== verification/Payouts.v ===== *)
(** * Metrics and payouts (lib-blockchain contracts/treasury_kernel)

    The work an assignment is paid for and the amount: [MetricBook] and [EpochClock]
    of [metric_book.rs] with the types of [metric_types.rs], the
    [CompensationEngine] of [compensation_engine.rs] and the [PaidLedger] of
    [paid_ledger.rs].  The hash of a computation is a parameter applied to what the
    code feeds the hasher, in that order.

    The theorems: a payout is the work at the role's rate under every cap, whatever
    the order of the metrics; an assignment is paid once for an epoch; when an epoch
    has been closed no metric of it is added or attested; and a finalized metric
    has the attestations its policy asks for. *)
From stdpp Require Import base tactics numbers list option gmap fin_maps strings sorting.
From S2P Require Import Prelude Roles.

(** ** Metrics *)

Inductive MetricType : Type :=
| HoursWorked | TasksCompleted | CodeCommits | ReviewsPerformed | MilestonesAchieved
| DocumentsProduced | TicketsResolved | Custom (name : string).

#[export] Instance MetricType_eq_dec : EqDecision MetricType.
Proof. solve_decision. Defined.

(** The position of a constructor, and its argument. *)
Definition metric_index (t : MetricType) : Z * string :=
  match t with
  | HoursWorked => (0, "") | TasksCompleted => (1, "") | CodeCommits => (2, "")
  | ReviewsPerformed => (3, "") | MilestonesAchieved => (4, "") | DocumentsProduced => (5, "")
  | TicketsResolved => (6, "") | Custom n => (7, n)
  end%string.

Definition metric_of (p : Z * string) : MetricType :=
  match p.1 with
  | 0 => HoursWorked | 1 => TasksCompleted | 2 => CodeCommits | 3 => ReviewsPerformed
  | 4 => MilestonesAchieved | 5 => DocumentsProduced | 6 => TicketsResolved | _ => Custom p.2
  end.

#[export] Program Instance MetricType_countable : Countable MetricType :=
  inj_countable' metric_index metric_of _.
Next Obligation. by intros []. Qed.

Record MetricKey : Type := { mk_epoch : Z; mk_assignment : Z; metric_type : MetricType }.

#[export] Instance MetricKey_eq_dec : EqDecision MetricKey.
Proof. solve_decision. Defined.

#[export] Program Instance MetricKey_countable : Countable MetricKey :=
  inj_countable' (λ k, (mk_epoch k, mk_assignment k, metric_type k))
    (λ p, {| mk_epoch := p.1.1; mk_assignment := p.1.2; metric_type := p.2 |}) _.
Next Obligation. by intros []. Qed.

(** The derived order of keys: that of these lists. *)
Definition key_code (k : MetricKey) : list Z :=
  mk_epoch k :: mk_assignment k :: (metric_index (metric_type k)).1 ::
  ((λ c, Z.of_N (Ascii.N_of_ascii c)) <$> String.list_ascii_of_string (metric_index (metric_type k)).2).

Fixpoint lex_leb (l1 l2 : list Z) : bool :=
  match l1, l2 with
  | [], _ => true
  | _ :: _, [] => false
  | x :: l1, y :: l2 => (x <? y) || ((x =? y) && lex_leb l1 l2)
  end.

Inductive MetricUnit : Type := Hours | Count | Percentage | Points.

Definition default_unit (t : MetricType) : MetricUnit :=
  match t with HoursWorked => Hours | _ => Count end.

Record MetricRecord : Type := {
  mr_key : MetricKey; mr_value : Z; unit_of : MetricUnit; recorded_at_epoch : Z; recorded_by : Z;
  finalized : bool; finalized_at_epoch : option Z;
}.

Definition MetricRecord_new (k : MetricKey) (v epoch by_ : Z) : MetricRecord := {|
  mr_key := k; mr_value := v; unit_of := default_unit (metric_type k); recorded_at_epoch := epoch;
  recorded_by := by_; finalized := false; finalized_at_epoch := None |}.

Definition finalize (epoch : Z) (m : MetricRecord) : MetricRecord := {|
  mr_key := mr_key m; mr_value := mr_value m; unit_of := unit_of m;
  recorded_at_epoch := recorded_at_epoch m; recorded_by := recorded_by m; finalized := true;
  finalized_at_epoch := Some epoch |}.

Inductive AttesterRole : Type := Supervisor | Peer | Automated | GovernanceAttester.

#[export] Instance AttesterRole_eq_dec : EqDecision AttesterRole.
Proof. solve_decision. Defined.

Record Attestation : Type := {
  attester : Z; attester_role : AttesterRole; attested_at_epoch : Z; att_signature : Z;
}.

Record AttestationPolicy : Type := {
  policy_type : MetricType; required_count : Z; required_roles : list AttesterRole; timeout_epochs : Z;
}.

Definition AttestationPolicy_new (t : MetricType) (n : Z) : AttestationPolicy :=
  {| policy_type := t; required_count := n; required_roles := []; timeout_epochs := 10 |}.

Definition require_role (r : AttesterRole) (p : AttestationPolicy) : AttestationPolicy :=
  if bool_decide (r ∈ required_roles p) then p else {|
  policy_type := policy_type p; required_count := required_count p;
  required_roles := required_roles p ++ [r]; timeout_epochs := timeout_epochs p |}.

Definition AttestationPolicy_default : AttestationPolicy :=
  require_role Supervisor (AttestationPolicy_new HoursWorked 1).

Inductive EpochStatus : Type := Open | Closing | Closed.

#[export] Instance EpochStatus_eq_dec : EqDecision EpochStatus.
Proof. solve_decision. Defined.

Record EpochState : Type := {
  epoch_id : Z; started_at_epoch : Z; closed_at_epoch : option Z; epoch_status : EpochStatus;
  finalized_metrics_count : Z; total_compensation_processed : Z;
}.

Definition EpochState_new (id started : Z) : EpochState := {|
  epoch_id := id; started_at_epoch := started; closed_at_epoch := None; epoch_status := Open;
  finalized_metrics_count := 0; total_compensation_processed := 0 |}.

Definition with_epoch_status (s : EpochStatus) (closed : option Z) (e : EpochState) : EpochState := {|
  epoch_id := epoch_id e; started_at_epoch := started_at_epoch e; closed_at_epoch := closed;
  epoch_status := s; finalized_metrics_count := finalized_metrics_count e;
  total_compensation_processed := total_compensation_processed e |}.

Inductive MetricError : Type :=
| MetricAlreadyRecorded (k : MetricKey) (existing : Z) | MetricNotFound (k : MetricKey)
| EpochClosed (e : Z) | EpochClosing (e : Z) | EpochNotRegistered (e : Z) | AlreadyFinalized (k : MetricKey)
| OverwriteForbidden | InsufficientAttestations (k : MetricKey) (required actual : Z)
| DuplicateAttestation (k : MetricKey) (attester : Z).

Inductive EpochError : Type :=
| EpochNotFound (e : Z) | AlreadyClosed (e : Z) | ReopenForbidden | EpochUnauthorized.

(** ** The book *)

Record MetricBook : Type := {
  metrics : gmap MetricKey MetricRecord; attestations : gmap MetricKey (list Attestation);
  policies : gmap MetricType AttestationPolicy; epoch_status_cache : gmap Z EpochStatus;
}.

Definition MetricBook_new : MetricBook :=
  {| metrics := ∅; attestations := ∅; policies := ∅; epoch_status_cache := ∅ |}.

Definition set_metrics (m : gmap MetricKey MetricRecord) (b : MetricBook) : MetricBook :=
  {| metrics := m; attestations := attestations b; policies := policies b;
     epoch_status_cache := epoch_status_cache b |}.
Definition set_attestations (a : gmap MetricKey (list Attestation)) (b : MetricBook) : MetricBook :=
  {| metrics := metrics b; attestations := a; policies := policies b;
     epoch_status_cache := epoch_status_cache b |}.

Definition set_epoch_status (e : Z) (s : EpochStatus) (b : MetricBook) : MetricBook :=
  {| metrics := metrics b; attestations := attestations b; policies := policies b;
     epoch_status_cache := <[e := s]> (epoch_status_cache b) |}.

Definition require_epoch_open (e : Z) (b : MetricBook) : result unit MetricError :=
  let? s := ok_or (epoch_status_cache b !! e) (EpochNotRegistered e) in
  match s with Open => Ok tt | Closing => Err (EpochClosing e) | Closed => Err (EpochClosed e) end.

Definition require_epoch_allows_attestations (e : Z) (b : MetricBook) : result unit MetricError :=
  let? s := ok_or (epoch_status_cache b !! e) (EpochNotRegistered e) in
  match s with Open | Closing => Ok tt | Closed => Err (EpochClosed e) end.

Definition set_policy (p : AttestationPolicy) (b : MetricBook) : MetricBook :=
  {| metrics := metrics b; attestations := attestations b; policies := <[policy_type p := p]> (policies b);
     epoch_status_cache := epoch_status_cache b |}.

Definition get_policy (t : MetricType) (b : MetricBook) : AttestationPolicy :=
  default AttestationPolicy_default (policies b !! t).

Notation BM := (M MetricBook MetricError) (only parsing).

Definition record_metric (epoch id : Z) (t : MetricType) (value recorder now : Z) : BM MetricKey :=
  b <- gets (λ b, b) ;;
  lift (require_epoch_open epoch b) ;;;
  let key := {| mk_epoch := epoch; mk_assignment := id; metric_type := t |} in
  match metrics b !! key with
  | Some existing => throw (MetricAlreadyRecorded key (mr_value existing))
  | None => ret tt
  end ;;;
  modify (set_metrics (<[key := MetricRecord_new key value now recorder]> (metrics b))) ;;;
  ret key.

(** The empty list of a key without attestations is stored before the check. *)
Definition attest_metric (key : MetricKey) (who : Z) (role : AttesterRole) (signature now : Z) : BM unit :=
  b <- gets (λ b, b) ;;
  lift (require_epoch_allows_attestations (mk_epoch key) b) ;;;
  m <- lift (ok_or (metrics b !! key) (MetricNotFound key)) ;;
  guard (negb (finalized m)) (AlreadyFinalized key) ;;;
  let existing := default [] (attestations b !! key) in
  modify (set_attestations (<[key := existing]> (attestations b))) ;;;
  guard (negb (existsb (λ a, attester a =? who) existing)) (DuplicateAttestation key who) ;;;
  modify (set_attestations (<[key := existing ++
    [{| attester := who; attester_role := role; attested_at_epoch := now; att_signature := signature |}]]>
    (attestations b))).

Definition get_attestations (key : MetricKey) (b : MetricBook) : list Attestation :=
  default [] (attestations b !! key).

Definition satisfied (p : AttestationPolicy) (l : list Attestation) : bool :=
  (required_count p <=? Z.of_nat (length l)) &&
  forallb (λ r, existsb (λ a, bool_decide (attester_role a = r)) l) (required_roles p).

Definition is_sufficiently_attested (key : MetricKey) (b : MetricBook) : bool :=
  match metrics b !! key with
  | None => false
  | Some m => satisfied (get_policy (metric_type (mr_key m)) b) (get_attestations key b)
  end.

Definition finalize_metric (key : MetricKey) (now : Z) : BM unit :=
  b <- gets (λ b, b) ;;
  (if is_sufficiently_attested key b then ret tt
   else m <- lift (ok_or (metrics b !! key) (MetricNotFound key)) ;;
        throw (InsufficientAttestations key (required_count (get_policy (metric_type (mr_key m)) b))
                 (as_u 32 (Z.of_nat (length (get_attestations key b)))))) ;;;
  m <- lift (ok_or (metrics b !! key) (MetricNotFound key)) ;;
  modify (set_metrics (<[key := finalize now m]> (metrics b))).

(** ** The clock *)

Record EpochClock : Type := { epochs : gmap Z EpochState; current_epoch : Z; clock_authority : Z }.

Definition EpochClock_new (e authority : Z) : EpochClock :=
  {| epochs := {[ e := EpochState_new e e ]}; current_epoch := e; clock_authority := authority |}.

Definition advance_epoch (c : EpochClock) : EpochClock :=
  let e := wadd 64 (current_epoch c) 1 in
  {| epochs := <[e := EpochState_new e e]> (epochs c); current_epoch := e; clock_authority := clock_authority c |}.

Definition set_epoch (e : Z) (s : EpochState) (c : EpochClock) : EpochClock :=
  {| epochs := <[e := s]> (epochs c); current_epoch := current_epoch c; clock_authority := clock_authority c |}.

Notation TM := (M EpochClock EpochError) (only parsing).

Definition begin_close_epoch (e caller : Z) : TM unit :=
  c <- gets (λ c, c) ;;
  guard (caller =? clock_authority c) EpochUnauthorized ;;;
  s <- lift (ok_or (epochs c !! e) (EpochNotFound e)) ;;
  match epoch_status s with
  | Open => modify (set_epoch e (with_epoch_status Closing (closed_at_epoch s) s))
  | Closing => ret tt
  | Closed => throw (AlreadyClosed e)
  end.

Definition finalize_close_epoch (e caller now : Z) : TM unit :=
  c <- gets (λ c, c) ;;
  guard (caller =? clock_authority c) EpochUnauthorized ;;;
  s <- lift (ok_or (epochs c !! e) (EpochNotFound e)) ;;
  match epoch_status s with
  | Open | Closing => modify (set_epoch e (with_epoch_status Closed (Some now) s))
  | Closed => throw (AlreadyClosed e)
  end.

Definition close_epoch (e caller now : Z) : TM unit :=
  begin_close_epoch e caller ;;; finalize_close_epoch e caller now.

Definition get_epoch_status (e : Z) (c : EpochClock) : option EpochStatus := epoch_status <$> epochs c !! e.

(** Every status of the clock replaces that of the book. *)
Definition sync_to_metric_book (c : EpochClock) (b : MetricBook) : MetricBook :=
  {| metrics := metrics b; attestations := attestations b; policies := policies b;
     epoch_status_cache := (epoch_status <$> epochs c) ∪ epoch_status_cache b |}.

(** ** The engine *)

Inductive CapType : Type :=
| AssignmentAnnual | AssignmentLifetime | AssignmentEpoch | RolePeriod | RoleLifetime | GlobalCap.

Record CapApplication : Type := { cap_type : CapType; original_amount : Z; cap_value : Z; capped_amount : Z }.

Record PayoutBreakdown : Type := {
  base_rate : Z; total_units : Z; multipliers : list (string * Z); cap_applied : option CapApplication;
}.

Record PayoutCalculation : Type := {
  pay_assignment : Z; payout_epoch : Z; base_amount : Z; multiplied_amount : Z; final_amount : Z;
  computation_hash : Z; breakdown : PayoutBreakdown;
}.

Record CompensationConfig : Type := { base_rates : gmap Z Z; default_base_rate : Z }.

Definition get_rate (role : Z) (c : CompensationConfig) : Z :=
  default (default_base_rate c) (base_rates c !! role).

Record EconomicConstants : Type := {
  max_epoch_payout : Z; min_payout_threshold : Z; basis_points_denominator : Z;
}.

Inductive CompensationError : Type :=
| UnfinalizedMetric (k : MetricKey) | EpochMismatch (expected found : Z)
| BelowMinimumThreshold (amount threshold : Z) | ComputationMismatch (expected actual : Z).

Fixpoint validate_inputs (ms : list MetricRecord) (epoch : Z) : result unit CompensationError :=
  match ms with
  | [] => Ok tt
  | m :: ms =>
      if negb (finalized m) then Err (UnfinalizedMetric (mr_key m))
      else if negb (mk_epoch (mr_key m) =? epoch) then Err (EpochMismatch epoch (mk_epoch (mr_key m)))
      else validate_inputs ms epoch
  end.

Definition is_hours (m : MetricRecord) : bool :=
  match metric_type (mr_key m) with HoursWorked => true | _ => false end.

Definition compute_base_amount (ms : list MetricRecord) (role : RoleDefinition) (cfg : CompensationConfig) : Z * Z :=
  let units := foldl (wadd 64) 0 (mr_value <$> filter (λ m, is_hours m = true) ms) in
  (default (umax 64) (checked_mul 64 (get_rate (role_id role) cfg) units), units).

(** A cap that is exceeded replaces the amount, and the record of the cap applied. *)
Definition apply_cap (t : CapType) (cap : Z) (r : Z * option CapApplication) : Z * option CapApplication :=
  if cap <? r.1
  then (cap, Some {| cap_type := t; original_amount := r.1; cap_value := cap; capped_amount := cap |}) else r.

Definition apply_caps (amount : Z) (a : Assignment) (k : EconomicConstants) : Z * option CapApplication :=
  let r := apply_cap AssignmentEpoch (max_epoch_payout k) (amount, None) in
  let r := apply_cap AssignmentEpoch (snap_per_epoch_cap a) r in
  let r := apply_cap AssignmentAnnual (saturating_sub (snap_annual_cap a) (current_year_paid a)) r in
  match snap_lifetime_cap a with
  | Some cap => apply_cap AssignmentLifetime (saturating_sub cap (total_paid a)) r
  | None => r
  end.

(** The hash of the metrics in the order of their keys, the role, the assignment and
    the epoch. *)
Class PayoutHash : Type :=
  { payout_hash : list (Z * Z * MetricType * Z) → Z → Z → Z → Z → option Z → Z → Z }.

(** A stable sort by key. *)
Definition key_leb (m1 m2 : MetricRecord) : bool := lex_leb (key_code (mr_key m1)) (key_code (mr_key m2)).

Fixpoint insert_metric (m : MetricRecord) (l : list MetricRecord) : list MetricRecord :=
  match l with
  | [] => [m]
  | x :: l' => if key_leb m x then m :: l else x :: insert_metric m l'
  end.

Definition sort_metrics (l : list MetricRecord) : list MetricRecord := foldr insert_metric [] l.

Section Engine.
Context `{PayoutHash}.

Definition hash_computation (ms : list MetricRecord) (role : RoleDefinition) (a : Assignment) (epoch : Z) : Z :=
  payout_hash ((λ m, (mk_epoch (mr_key m), mk_assignment (mr_key m), metric_type (mr_key m), mr_value m))
                 <$> sort_metrics ms)
    (role_id role) (annual_cap role) (assignment_id a) (snap_annual_cap a) (snap_lifetime_cap a) epoch.

Definition compute_payout (ms : list MetricRecord) (role : RoleDefinition) (a : Assignment) (epoch : Z)
    (k : EconomicConstants) (cfg : CompensationConfig) : result PayoutCalculation CompensationError :=
  let? _ := validate_inputs ms epoch in
  let '(base, units) := compute_base_amount ms role cfg in
  let '(final, applied) := apply_caps base a k in
  if (final <? min_payout_threshold k) && (0 <? final)
  then Err (BelowMinimumThreshold final (min_payout_threshold k)) else
  Ok {| pay_assignment := assignment_id a; payout_epoch := epoch; base_amount := base;
        multiplied_amount := base; final_amount := final;
        computation_hash := hash_computation ms role a epoch;
        breakdown := {| base_rate := get_rate (role_id role) cfg; total_units := units;
                        multipliers := []; cap_applied := applied |} |}.

Definition verify_computation (ms : list MetricRecord) (role : RoleDefinition) (a : Assignment)
    (epoch expected : Z) : result unit CompensationError :=
  let actual := hash_computation ms role a epoch in
  if actual =? expected then Ok tt else Err (ComputationMismatch expected actual).

End Engine.

(** ** The paid ledger *)

Record PaymentRecord : Type := {
  paid_epoch : Z; paid_assignment : Z; paid_amount : Z; paid_hash : Z; paid_at_epoch : Z; transaction_id : Z;
}.

Inductive PaymentError : Type :=
| AlreadyPaid (epoch id existing_tx : Z) | PaymentNotFound (epoch id : Z).

Record PaidLedger : Type := { payments : gmap (Z * Z) PaymentRecord; ledger_total : Z; payment_count : Z }.

Definition PaidLedger_new : PaidLedger := {| payments := ∅; ledger_total := 0; payment_count := 0 |}.

Definition PaidLedger_record_payment (epoch id amount hash at_epoch tx : Z) : M PaidLedger PaymentError unit :=
  l <- gets (λ l, l) ;;
  match payments l !! (epoch, id) with
  | Some existing => throw (AlreadyPaid epoch id (transaction_id existing))
  | None => ret tt
  end ;;;
  modify (λ l, {|
    payments := <[(epoch, id) := {| paid_epoch := epoch; paid_assignment := id; paid_amount := amount;
                    paid_hash := hash; paid_at_epoch := at_epoch; transaction_id := tx |}]> (payments l);
    ledger_total := saturating_add 64 (ledger_total l) amount;
    payment_count := wadd 64 (payment_count l) 1 |}).

Definition get_payment (epoch id : Z) (l : PaidLedger) : result PaymentRecord PaymentError :=
  ok_or (payments l !! (epoch, id)) (PaymentNotFound epoch id).

(** The sum of a query wraps. *)
Definition total_paid_to_assignment (id : Z) (l : PaidLedger) : Z :=
  as_u 64 (msum (λ k r, if k.2 =? id then paid_amount r else 0) (payments l)).

Definition total_paid_in_epoch (epoch : Z) (l : PaidLedger) : Z :=
  as_u 64 (msum (λ k r, if k.1 =? epoch then paid_amount r else 0) (payments l)).

Definition verify_payment (epoch id expected : Z) (l : PaidLedger) : result bool PaymentError :=
  let? r := get_payment epoch id l in Ok (paid_hash r =? expected).

(** ** Payouts *)

Lemma validate_inputs_ok ms epoch :
  validate_inputs ms epoch = Ok tt ↔ Forall (λ m, finalized m = true ∧ mk_epoch (mr_key m) = epoch) ms.
Proof.
  induction ms as [|m ms IH]; [done|]. cbn. rewrite Forall_cons, <- IH.
  destruct (finalized m); cbn; [|naive_solver].
  destruct (Z.eqb_spec (mk_epoch (mr_key m)) epoch); cbn; naive_solver.
Qed.

Lemma foldl_wadd l a : 0 <= a < 2 ^ 64 → foldl (wadd 64) a l = (a + sumZ l) mod 2 ^ 64.
Proof.
  revert a. induction l as [|x l IH]; intros a Ha; cbn [foldl].
  - cbn [sumZ foldr]. rewrite Z.add_0_r. symmetry. by apply Z.mod_small.
  - rewrite IH by (unfold wadd; apply Z.mod_pos_bound; lia). unfold wadd.
    rewrite sumZ_cons, Z.add_mod_idemp_l by lia. f_equal. lia.
Qed.

(** The hours recorded. *)
Definition hours (ms : list MetricRecord) : Z := sumZ (mr_value <$> filter (λ m, is_hours m = true) ms).

Lemma hours_perm ms ms' : ms ≡ₚ ms' → hours ms = hours ms'.
Proof. intros Hp. apply sumZ_Permutation. by rewrite Hp. Qed.

Lemma compute_base_perm ms ms' role cfg :
  ms ≡ₚ ms' → compute_base_amount ms role cfg = compute_base_amount ms' role cfg.
Proof.
  intros Hp. unfold compute_base_amount. rewrite !foldl_wadd by lia.
  pose proof (hours_perm ms ms' Hp) as E. unfold hours in E. by rewrite E.
Qed.

Lemma compute_base_exact ms role cfg :
  0 <= hours ms < 2 ^ 64 →
  compute_base_amount ms role cfg = (Z.min (umax 64) (get_rate (role_id role) cfg * hours ms), hours ms).
Proof.
  intros Hh. unfold compute_base_amount. rewrite foldl_wadd by lia. fold (hours ms).
  rewrite Z.add_0_l, Z.mod_small by done. f_equal. unfold checked_mul. case_match; int_inv; cbn; lia.
Qed.

Lemma apply_cap_min t cap r : (apply_cap t cap r).1 = Z.min r.1 cap.
Proof. unfold apply_cap. destruct (Z.ltb_spec cap r.1); cbn; lia. Qed.

(** The amount under every cap of the assignment and of an epoch. *)
Definition capped (amount : Z) (a : Assignment) (k : EconomicConstants) : Z :=
  let m := Z.min (Z.min (Z.min amount (max_epoch_payout k)) (snap_per_epoch_cap a)) (remaining_annual_cap a) in
  match remaining_lifetime_cap a with Some r => Z.min m r | None => m end.

Lemma apply_caps_min amount a k : (apply_caps amount a k).1 = capped amount a k.
Proof.
  unfold apply_caps, capped, remaining_lifetime_cap, remaining_annual_cap.
  destruct (snap_lifetime_cap a); cbn [option_fmap option_map fmap]; by rewrite !apply_cap_min.
Qed.

(** The order on keys. *)
Lemma lex_leb_refl l : lex_leb l l = true.
Proof. induction l; cbn; [done|]. by rewrite Z.ltb_irrefl, Z.eqb_refl. Qed.

Lemma lex_leb_total l1 l2 : lex_leb l1 l2 = true ∨ lex_leb l2 l1 = true.
Proof.
  revert l2. induction l1 as [|x l1 IH]; intros [|y l2]; cbn; auto.
  destruct (Z.ltb_spec x y), (Z.ltb_spec y x), (Z.eqb_spec x y), (Z.eqb_spec y x); cbn; auto; lia.
Qed.

Lemma lex_leb_antisym l1 l2 : lex_leb l1 l2 = true → lex_leb l2 l1 = true → l1 = l2.
Proof.
  revert l2. induction l1 as [|x l1 IH]; intros [|y l2]; cbn; try done.
  destruct (Z.ltb_spec x y), (Z.ltb_spec y x), (Z.eqb_spec x y), (Z.eqb_spec y x); cbn; try done; try lia.
  intros. f_equal; [done|auto].
Qed.

Lemma lex_leb_trans l1 l2 l3 : lex_leb l1 l2 = true → lex_leb l2 l3 = true → lex_leb l1 l3 = true.
Proof.
  revert l2 l3. induction l1 as [|x l1 IH]; intros [|y l2] [|z l3]; cbn; try done.
  destruct (Z.ltb_spec x y), (Z.ltb_spec y z), (Z.eqb_spec x y), (Z.eqb_spec y z), (Z.ltb_spec x z),
    (Z.eqb_spec x z); cbn; try done; try lia. apply IH.
Qed.

Lemma ascii_codes (l : list Ascii.ascii) :
  (λ z, Ascii.ascii_of_N (Z.to_N z)) <$> ((λ c, Z.of_N (Ascii.N_of_ascii c)) <$> l) = l.
Proof. induction l as [|c l IH]; cbn; [done|]. by rewrite IH, N2Z.id, Ascii.ascii_N_embedding. Qed.

Lemma key_code_inj k1 k2 : key_code k1 = key_code k2 → k1 = k2.
Proof.
  destruct k1 as [e1 a1 t1], k2 as [e2 a2 t2]. unfold key_code; cbn. intros [= -> -> Hi Hs]. f_equal.
  apply (f_equal (fmap (λ z, Ascii.ascii_of_N (Z.to_N z)))) in Hs. rewrite !ascii_codes in Hs.
  apply (f_equal String.string_of_list_ascii) in Hs. rewrite !String.string_of_list_ascii_of_string in Hs.
  destruct t1, t2; cbn in Hi, Hs; try done. by subst.
Qed.

#[local] Arguments key_leb : simpl never.

(** The sort permutes the metrics, and the order of its input does not matter. *)
Definition key_le (m1 m2 : MetricRecord) : Prop := key_leb m1 m2 = true.

Lemma insert_metric_perm m l : insert_metric m l ≡ₚ m :: l.
Proof. induction l as [|x l IH]; cbn; [done|]. case_match; [done|]. rewrite IH. by constructor. Qed.

Lemma sort_metrics_perm l : sort_metrics l ≡ₚ l.
Proof. induction l as [|m l IH]; cbn; [done|]. by rewrite insert_metric_perm, IH. Qed.

Lemma insert_metric_sorted m l : StronglySorted key_le l → StronglySorted key_le (insert_metric m l).
Proof.
  induction l as [|x l IH]; cbn; intros Hs; [by repeat constructor|].
  apply StronglySorted_inv in Hs as [Hs Hx]. case_match eqn:E.
  - constructor; [by constructor|]. constructor; [done|]. apply (Forall_impl _ _ _ Hx).
    intros y Hy. exact (lex_leb_trans _ _ _ E Hy).
  - constructor; [auto|]. apply Forall_forall. intros y Hy. rewrite insert_metric_perm in Hy.
    apply elem_of_cons in Hy as [->|Hy]; [|by eapply Forall_forall in Hx].
    unfold key_le, key_leb in *. by destruct (lex_leb_total (key_code (mr_key m)) (key_code (mr_key x))) as [E'|]; [congruence|].
Qed.

Lemma sort_metrics_sorted l : StronglySorted key_le (sort_metrics l).
Proof. induction l; cbn; [constructor|by apply insert_metric_sorted]. Qed.

Lemma sort_metrics_unique l l' : NoDup (mr_key <$> l) → l ≡ₚ l' → sort_metrics l = sort_metrics l'.
Proof.
  intros Hn Hp. apply (StronglySorted_unique_strong key_le); [| | |by rewrite !sort_metrics_perm].
  - intros x y Hx Hy H1 H2. rewrite sort_metrics_perm in Hx. rewrite sort_metrics_perm, <- Hp in Hy.
    pose proof (key_code_inj _ _ (lex_leb_antisym _ _ H1 H2)) as E. clear -Hn Hx Hy E.
    apply list_elem_of_lookup in Hx as [i Hx], Hy as [j Hy].
    assert (i = j) as ->; [|congruence].
    apply (NoDup_lookup (mr_key <$> l) i j (mr_key x)); [done|..]; rewrite list_lookup_fmap, ?Hx, ?Hy; cbn; congruence.
  - apply sort_metrics_sorted.
  - apply sort_metrics_sorted.
Qed.

Section Payouts.
Context `{PayoutHash}.

(** A payout is the work at the role's rate, under every cap.  It is computed
    exactly when the metrics are final and of the epoch, and the amount is zero or
    not below the threshold; the amount is the hours times the rate, cut to the caps
    of the epoch, of the year and of the lifetime that are left; and the order in
    which the metrics come changes nothing, the hash included. *)
Theorem payout_exact ms role a epoch k cfg :
  0 <= hours ms < 2 ^ 64 →
  let final := capped (Z.min (umax 64) (get_rate (role_id role) cfg * hours ms)) a k in
  ((∃ p, compute_payout ms role a epoch k cfg = Ok p) ↔
     Forall (λ m, finalized m = true ∧ mk_epoch (mr_key m) = epoch) ms ∧
     (0 < final → min_payout_threshold k <= final)) ∧
  ∀ p, compute_payout ms role a epoch k cfg = Ok p →
    final_amount p = final ∧ total_units (breakdown p) = hours ms ∧
    verify_computation ms role a epoch (computation_hash p) = Ok tt ∧
    ∀ ms', NoDup (mr_key <$> ms) → ms ≡ₚ ms' → compute_payout ms' role a epoch k cfg = Ok p.
Proof.
  intros Hh final. pose proof (compute_base_exact ms role cfg Hh) as Hb.
  pose proof (apply_caps_min (Z.min (umax 64) (get_rate (role_id role) cfg * hours ms)) a k) as Hc.
  fold final in Hc. split.
  - unfold compute_payout. rewrite <- validate_inputs_ok, Hb.
    destruct (apply_caps _ a k) as [f o]; cbn in Hc; subst f.
    destruct (validate_inputs ms epoch) as [[]|]; cbn; [|naive_solver].
    destruct (Z.ltb_spec final (min_payout_threshold k)), (Z.ltb_spec 0 final); cbn; naive_solver lia.
  - intros p Hp. assert (validate_inputs ms epoch = Ok tt) as Hv.
    { unfold compute_payout in Hp. by destruct (validate_inputs ms epoch) as [[]|]. }
    split_and!; cycle 3.
    { intros ms' Hn Hperm. rewrite <- Hp. unfold compute_payout, hash_computation.
      rewrite Hv, (proj2 (validate_inputs_ok ms' epoch)); cycle 1.
      { rewrite <- Hperm. by apply validate_inputs_ok. }
      by rewrite (compute_base_perm ms ms' role cfg Hperm), (sort_metrics_unique ms ms' Hn Hperm). }
    all: unfold compute_payout in Hp; rewrite Hv, Hb in Hp; cbn in Hp;
      destruct (apply_caps _ a k) as [f o]; cbn in Hc, Hp; subst f;
      destruct (_ && _); [done|]; injection Hp as <-; cbn; try done.
    unfold verify_computation. by rewrite Z.eqb_refl.
Qed.

End Payouts.

(** ** Paid once *)

Definition pay_call (r : PaymentRecord) : M PaidLedger PaymentError unit :=
  PaidLedger_record_payment (paid_epoch r) (paid_assignment r) (paid_amount r) (paid_hash r)
    (paid_at_epoch r) (transaction_id r).

Definition pay_key (r : PaymentRecord) : Z * Z := (paid_epoch r, paid_assignment r).

(** A run of payments, with those that were accepted. *)
Fixpoint pay_all (calls : list PaymentRecord) (l : PaidLedger) : PaidLedger * list PaymentRecord :=
  match calls with
  | [] => (l, [])
  | r :: calls =>
      let '(l', x) := pay_call r l in
      let '(l'', acc) := pay_all calls l' in
      (l'', if is_ok x then r :: acc else acc)
  end.

Lemma pay_call_cases r l :
  (∃ r0, payments l !! pay_key r = Some r0 ∧
     pay_call r l = (l, Err (AlreadyPaid (paid_epoch r) (paid_assignment r) (transaction_id r0)))) ∨
  payments l !! pay_key r = None ∧
  pay_call r l = ({| payments := <[pay_key r := r]> (payments l);
                     ledger_total := saturating_add 64 (ledger_total l) (paid_amount r);
                     payment_count := wadd 64 (payment_count l) 1 |}, Ok tt).
Proof.
  unfold pay_call, PaidLedger_record_payment, bind, gets, throw, ret, modify. unfold pay_key.
  destruct (payments l !! _) as [r0|]; [left; by exists r0|right]. by destruct r.
Qed.

Lemma pay_all_spec calls l l0 acc :
  Forall (λ r, 0 <= paid_amount r) calls → 0 <= ledger_total l0 <= umax 64 → pay_all calls l0 = (l, acc) →
  (∀ k, k ∈ pay_key <$> acc → payments l0 !! k = None) ∧ NoDup (pay_key <$> acc) ∧ (∀ r, r ∈ acc → r ∈ calls) ∧
  (∀ r, r ∈ calls → is_Some (payments l0 !! pay_key r) ∨ ∃ r', r' ∈ acc ∧ pay_key r' = pay_key r) ∧
  (∀ k r, payments l !! k = Some r ↔ payments l0 !! k = Some r ∨ r ∈ acc ∧ pay_key r = k) ∧
  ledger_total l = Z.min (umax 64) (ledger_total l0 + sumZ (paid_amount <$> acc)).
Proof.
  intros Hpos. revert acc l0. induction calls as [|c calls IH]; intros acc l0 Hl0; cbn [pay_all].
  { intros [= <- <-]. split_and!; try by intros ? ?%not_elem_of_nil.
    - constructor.
    - intros k r. rewrite elem_of_nil. naive_solver.
    - unfold sumZ; cbn; lia. }
  apply Forall_cons in Hpos as [Hc Hpos]. destruct (pay_call_cases c l0) as [(r0 & Hr0 & ->)|[Hn ->]].
  - destruct (pay_all calls l0) as [l1 acc1] eqn:E. intros [= <- <-]. cbn [is_ok].
    destruct (IH Hpos acc1 l0 Hl0 E) as (? & ? & Hsub & Hin & ? & ?). split_and!; try done.
    + intros r Hr. right. by apply Hsub.
    + intros r [->|Hr]%elem_of_cons; [left; by rewrite Hr0|by apply Hin].
  - set (l0' := {| payments := _ |}). destruct (pay_all calls l0') as [l1 acc1] eqn:E. intros [= <- <-]. cbn [is_ok].
    assert (0 <= ledger_total l0' <= umax 64) as Hl0' by (cbn; unfold saturating_add; lia).
    destruct (IH Hpos acc1 l0' Hl0' E) as (Hfr & Hnd & Hsub & Hin & Hlk & Htot). split_and!.
    + intros k. rewrite fmap_cons. intros [->|Hk]%elem_of_cons; [done|].
      specialize (Hfr k Hk). cbn in Hfr. by apply lookup_insert_None in Hfr as [? _].
    + rewrite fmap_cons. constructor; [|done]. intros Hk%Hfr. cbn in Hk. by rewrite lookup_insert_eq in Hk.
    + intros r [->|Hr]%elem_of_cons; [left|right; by apply Hsub].
    + intros r [->|Hr]%elem_of_cons; [right; exists c; split; [left|done]|].
      destruct (Hin r Hr) as [Hx|(r' & ? & ?)]; [|right; exists r'; split; [by right|done]].
      cbn in Hx. apply lookup_insert_is_Some in Hx as [E'|[_ ?]]; [right; exists c; split; [left|done]|by left].
    + intros k r. rewrite Hlk. cbn. rewrite lookup_insert_Some, elem_of_cons.
      split; [intros [[[<- <-]|[_ ?]]|[? ?]]; auto|].
      intros [Hx|[[->|?] ?]]; [left; right; split; [congruence|done]|auto|auto].
    + rewrite Htot, fmap_cons, sumZ_cons. cbn. unfold saturating_add.
      assert (0 <= sumZ (paid_amount <$> acc1)); [|lia]. apply sumZ_nonneg, Forall_fmap, Forall_forall.
      intros r Hr. rewrite Forall_forall in Hpos. apply Hpos. by apply Hsub.
Qed.

(** An assignment is paid once for an epoch.  Of any calls, the first for an
    epoch and an assignment is the one that is accepted and stays recorded; the total
    is what the accepted calls paid. *)
Theorem paid_once calls l acc :
  Forall (λ r, 0 <= paid_amount r) calls → pay_all calls PaidLedger_new = (l, acc) →
  NoDup (pay_key <$> acc) ∧ (∀ r, r ∈ acc → r ∈ calls) ∧
  (∀ r, r ∈ calls → ∃ r', r' ∈ acc ∧ pay_key r' = pay_key r) ∧
  (∀ k r, payments l !! k = Some r ↔ r ∈ acc ∧ pay_key r = k) ∧
  ledger_total l = Z.min (umax 64) (sumZ (paid_amount <$> acc)).
Proof.
  intros Hpos Hp.
  destruct (pay_all_spec calls l PaidLedger_new acc Hpos ltac:(cbn; unfold umax; lia) Hp) as (_ & ? & ? & Hin & Hlk & Ht).
  split_and!; try done.
  - intros r Hr. destruct (Hin r Hr) as [Hx|]; [|done]. cbn in Hx. rewrite lookup_empty in Hx. by destruct Hx.
  - intros k r. rewrite Hlk. cbn. rewrite lookup_empty. naive_solver.
Qed.

(** ** Closed epochs and finalized metrics *)

(** The clock and the book, which learns the status of the epochs from the clock or
    from a direct call of [set_epoch_status]. *)
Record Period : Type := { clock : EpochClock; book : MetricBook }.

Inductive PeriodOp : Type :=
| PRecord (epoch id : Z) (t : MetricType) (value recorder now : Z)
| PAttest (k : MetricKey) (who : Z) (role : AttesterRole) (signature now : Z)
| PFinalize (k : MetricKey) (now : Z) | PPolicy (p : AttestationPolicy) | PAdvance
| PBeginClose (e caller : Z) | PFinalizeClose (e caller now : Z) | PClose (e caller now : Z) | PSync
| PSetStatus (e : Z) (st : EpochStatus).

Definition period_step (op : PeriodOp) (s : Period) : Period :=
  let on_book {A : Type} (m : BM A) := {| clock := clock s; book := (m (book s)).1 |} in
  let on_clock (m : TM unit) := {| clock := (m (clock s)).1; book := book s |} in
  match op with
  | PRecord e id t v r now => on_book (record_metric e id t v r now)
  | PAttest k who role sg now => on_book (attest_metric k who role sg now)
  | PFinalize k now => on_book (finalize_metric k now)
  | PPolicy p => {| clock := clock s; book := set_policy p (book s) |}
  | PAdvance => {| clock := advance_epoch (clock s); book := book s |}
  | PBeginClose e c => on_clock (begin_close_epoch e c)
  | PFinalizeClose e c now => on_clock (finalize_close_epoch e c now)
  | PClose e c now => on_clock (close_epoch e c now)
  | PSync => {| clock := clock s; book := sync_to_metric_book (clock s) (book s) |}
  | PSetStatus e st => {| clock := clock s; book := set_epoch_status e st (book s) |}
  end.

(** Runs, with the policies that were set; the counter of epochs does not wrap. *)
Inductive period_reach : Period → list AttestationPolicy → Prop :=
| pr_start e authority : 0 <= e →
    period_reach {| clock := EpochClock_new e authority; book := MetricBook_new |} []
| pr_step s ps op : period_reach s ps → current_epoch (clock s) + 1 < 2 ^ 64 →
    period_reach (period_step op s) (match op with PPolicy p => ps ++ [p] | _ => ps end).

(** What each operation on the book does. *)
Lemma record_metric_cases e id t v r now b :
  let k := {| mk_epoch := e; mk_assignment := id; metric_type := t |} in
  let b' := (record_metric e id t v r now b).1 in
  b' = b ∨ epoch_status_cache b !! e = Some Open ∧ metrics b !! k = None ∧
    b' = set_metrics (<[k := MetricRecord_new k v now r]> (metrics b)) b.
Proof.
  cbn zeta. unfold record_metric, require_epoch_open, bind, gets, lift, throw, ret, modify, ok_or.
  destruct (epoch_status_cache b !! e) as [[]|]; cbn; auto. destruct (metrics b !! _) eqn:E; cbn; auto.
Qed.

Lemma attest_metric_cases k who role sg now b :
  let b' := (attest_metric k who role sg now b).1 in
  b' = b ∨ ∃ m l, epoch_status_cache b !! mk_epoch k ≠ Some Closed ∧ metrics b !! k = Some m ∧
    finalized m = false ∧ l = get_attestations k b ∧
    (b' = set_attestations (<[k := l]> (attestations b)) b ∨
     (who ∉ attester <$> l) ∧ b' = set_attestations (<[k := l ++
       [{| attester := who; attester_role := role; attested_at_epoch := now; att_signature := sg |}]]> (attestations b)) b).
Proof.
  cbn zeta. unfold attest_metric, require_epoch_allows_attestations, bind, gets, lift, guard, throw, ret, modify, ok_or.
  destruct (epoch_status_cache b !! mk_epoch k) as [[]|] eqn:Hs; cbn; auto;
    (destruct (metrics b !! k) as [m|] eqn:Hm; cbn; [|by auto]); destruct (finalized m) eqn:Hf; cbn; auto;
    right; exists m, (get_attestations k b); (split_and!; [done..|]); fold (get_attestations k b);
    destruct (existsb _ _) eqn:Hx; cbn; auto; right; (split; [|done]);
    intros (a & -> & Ha)%list_elem_of_fmap; apply not_true_iff_false in Hx; apply Hx, existsb_exists;
    exists a; (split; [by apply list_elem_of_In|apply Z.eqb_refl]).
Qed.

Lemma finalize_metric_cases k now b :
  let b' := (finalize_metric k now b).1 in
  b' = b ∨ ∃ m, metrics b !! k = Some m ∧
    satisfied (get_policy (metric_type (mr_key m)) b) (get_attestations k b) = true ∧
    b' = set_metrics (<[k := finalize now m]> (metrics b)) b.
Proof.
  cbn zeta. unfold finalize_metric, is_sufficiently_attested, bind, gets, lift, throw, ret, modify, ok_or.
  destruct (metrics b !! k) as [m|] eqn:Hm; cbn; auto. destruct (satisfied _ _) eqn:Hs; cbn; eauto.
Qed.

(** A closed epoch stays closed. *)
Definition clock_ok (c : EpochClock) : Prop :=
  0 <= current_epoch c ∧ ∀ e, is_Some (epochs c !! e) → e <= current_epoch c.

Definition closed (e : Z) (c : EpochClock) : Prop := get_epoch_status e c = Some Closed.

Lemma close_frame c s s' e :
  epochs c !! e = Some s → epoch_status s ≠ Closed →
  (clock_ok c → clock_ok (set_epoch e s' c)) ∧ current_epoch (set_epoch e s' c) = current_epoch c ∧
  ∀ x, closed x c → closed x (set_epoch e s' c).
Proof.
  intros Hs Hn. split_and!; [|done|].
  - intros [H0 Hk]. split; [done|]. cbn. intros i [<-|[_ Hi]]%lookup_insert_is_Some; apply Hk; [by rewrite Hs|done].
  - intros x Hc. unfold closed, get_epoch_status in *. cbn. destruct (decide (e = x)) as [->|].
    + rewrite Hs in Hc. cbn in Hc. congruence.
    + by rewrite lookup_insert_ne.
Qed.

Lemma begin_close_cases e caller c :
  let c' := (begin_close_epoch e caller c).1 in
  c' = c ∨ ∃ s s', epochs c !! e = Some s ∧ epoch_status s ≠ Closed ∧ c' = set_epoch e s' c.
Proof.
  cbn zeta. unfold begin_close_epoch, bind, gets, guard, lift, throw, ret, modify, ok_or.
  destruct (caller =? clock_authority c); cbn; auto. destruct (epochs c !! e) as [s|] eqn:Hs; cbn; auto.
  destruct (epoch_status s) eqn:Hst; cbn; auto. right. exists s. eexists. rewrite Hst. done.
Qed.

Lemma finalize_close_cases e caller now c :
  let c' := (finalize_close_epoch e caller now c).1 in
  c' = c ∨ ∃ s s', epochs c !! e = Some s ∧ epoch_status s ≠ Closed ∧ c' = set_epoch e s' c.
Proof.
  cbn zeta. unfold finalize_close_epoch, bind, gets, guard, lift, throw, ret, modify, ok_or.
  destruct (caller =? clock_authority c); cbn; auto. destruct (epochs c !! e) as [s|] eqn:Hs; cbn; auto.
  destruct (epoch_status s) eqn:Hst; cbn; auto; right; exists s; eexists; rewrite Hst; done.
Qed.

(** What a step of the clock keeps. *)
Definition clock_kept (c c' : EpochClock) : Prop :=
  (clock_ok c → clock_ok c') ∧ current_epoch c <= current_epoch c' <= current_epoch c + 1 ∧
  ∀ e, closed e c → closed e c'.

Lemma clock_kept_refl c : clock_kept c c.
Proof. split_and!; auto; lia. Qed.

Lemma begin_close_kept e caller c : clock_kept c (begin_close_epoch e caller c).1.
Proof.
  destruct (begin_close_cases e caller c) as [->|(s & s' & Hs & Hn & ->)]; [apply clock_kept_refl|].
  destruct (close_frame c s s' e Hs Hn) as (? & ? & ?). split_and!; try done; cbn; lia.
Qed.

Lemma finalize_close_kept e caller now c :
  clock_kept c (finalize_close_epoch e caller now c).1 ∧
  current_epoch (finalize_close_epoch e caller now c).1 = current_epoch c.
Proof.
  destruct (finalize_close_cases e caller now c) as [->|(s & s' & Hs & Hn & ->)]; [split; [apply clock_kept_refl|done]|].
  destruct (close_frame c s s' e Hs Hn) as (? & ? & ?). split; [|done]. split_and!; try done; cbn; lia.
Qed.

Lemma advance_kept c : clock_ok c → current_epoch c + 1 < 2 ^ 64 → clock_kept c (advance_epoch c).
Proof.
  intros Hok Hn. pose proof Hok as [H0 Hk]. unfold advance_epoch. rewrite wadd_small by (unfold umax; lia).
  split_and!; cbn; try lia.
  - intros _. split; cbn; [lia|]. intros e [<-|[_ He]]%lookup_insert_is_Some; [lia|]. specialize (Hk e He). lia.
  - intros e Hc. unfold closed, get_epoch_status in *. cbn. rewrite lookup_insert_ne; [done|].
    intros <-. destruct (epochs c !! (current_epoch c + 1)) eqn:E; [|done].
    assert (current_epoch c + 1 <= current_epoch c) by (apply Hk; by rewrite E). lia.
Qed.

Lemma step_clock_kept op s :
  clock_ok (clock s) → current_epoch (clock s) + 1 < 2 ^ 64 → clock_kept (clock s) (clock (period_step op s)).
Proof.
  intros Hok Hn. destruct op; cbn [period_step clock]; try apply clock_kept_refl.
  - by apply advance_kept.
  - apply begin_close_kept.
  - apply finalize_close_kept.
  - unfold close_epoch, bind. pose proof (begin_close_kept e caller (clock s)) as Hb.
    destruct (begin_close_cases e caller (clock s)) as [E|(x & y & _ & _ & E)];
    destruct (begin_close_epoch e caller (clock s)) as [c1 [u|err]]; cbn [fst] in *; try done.
    + subst c1. by apply finalize_close_kept.
    + destruct (finalize_close_kept e caller now c1) as [(H1 & _ & H3) E2].
      destruct Hb as (B1 & B2 & B3). split_and!; [by auto|rewrite E2; lia..|by auto].
Qed.

(** What was recorded of a metric. *)
Definition work (m : MetricRecord) : MetricKey * Z * Z * Z :=
  (mr_key m, mr_value m, recorded_at_epoch m, recorded_by m).

(** What may become of a metric of a closed epoch: it can be made final. *)
Definition made_final (m m' : MetricRecord) : Prop := m' = m ∨ ∃ now, m' = finalize now m.

Definition frozen (e : Z) (b b' : MetricBook) : Prop :=
  ∀ k, mk_epoch k = e →
    get_attestations k b' = get_attestations k b ∧ option_Forall2 made_final (metrics b !! k) (metrics b' !! k).

Lemma frozen_refl e b : frozen e b b.
Proof. intros k _. split; [done|]. destruct (metrics b !! k); constructor. by left. Qed.

Lemma frozen_trans e b1 b2 b3 : frozen e b1 b2 → frozen e b2 b3 → frozen e b1 b3.
Proof.
  intros H1 H2 k Hk. destruct (H1 k Hk) as [A1 M1], (H2 k Hk) as [A2 M2]. split; [congruence|].
  destruct (metrics b1 !! k), (metrics b2 !! k), (metrics b3 !! k); inversion M1 as [? ? E1|];
    inversion M2 as [? ? E2|]; subst; constructor.
  destruct E1 as [->|[n1 ->]]; [done|]. right. destruct E2 as [->|[n2 ->]]; eauto.
Qed.

(** The call does not tell the book that the epoch is not closed. *)
Definition no_reopening (e : Z) (op : PeriodOp) : bool :=
  match op with PSetStatus x st => negb (x =? e) || bool_decide (st = Closed) | _ => true end.

Lemma get_attestations_insert k k' l b :
  (k = k' → l = get_attestations k b) →
  get_attestations k' (set_attestations (<[k := l]> (attestations b)) b) = get_attestations k' b.
Proof.
  intros Hl. unfold get_attestations in *. cbn. destruct (decide (k = k')) as [<-|].
  - rewrite lookup_insert_eq. cbn. auto.
  - by rewrite lookup_insert_ne.
Qed.

(** A closed epoch in a step. *)
Lemma step_frozen op s e :
  closed e (clock s) → epoch_status_cache (book s) !! e = Some Closed → no_reopening e op = true →
  frozen e (book s) (book (period_step op s)) ∧
  epoch_status_cache (book (period_step op s)) !! e = Some Closed.
Proof.
  intros Hc Hb Hop. pose proof (frozen_refl e (book s)) as Hrefl.
  destruct op; cbn [period_step book no_reopening] in *; try done.
  - destruct (record_metric_cases epoch id t value recorder now (book s)) as [->|(Ho & _ & ->)]; [done|].
    split; [|done]. intros k Hk. cbn. rewrite lookup_insert_ne; [by apply Hrefl|].
    intros <-. cbn in Hk. congruence.
  - destruct (attest_metric_cases k who role signature now (book s)) as [->|(m & l & Ho & _ & _ & -> & [-> |[_ ->]])]; [done|..].
    + split; [|done]. intros k' Hk. split; [by apply get_attestations_insert|by apply Hrefl].
    + split; [|done]. intros k' Hk. split; [|by apply Hrefl]. apply get_attestations_insert. intros ->. congruence.
  - destruct (finalize_metric_cases k now (book s)) as [->|(m & Hm & _ & ->)]; [done|].
    split; [|done]. intros k' Hk. split; [done|]. cbn. destruct (decide (k = k')) as [<-|].
    + rewrite lookup_insert_eq, Hm. constructor. right. by exists now.
    + rewrite lookup_insert_ne by done. by apply Hrefl.
  - split; [done|]. cbn. apply lookup_union_Some_l. unfold closed, get_epoch_status in Hc.
    by rewrite lookup_fmap.
  - split; [done|]. cbn. destruct (Z.eqb_spec e0 e) as [->|]; [|by rewrite lookup_insert_ne].
    apply bool_decide_eq_true in Hop as ->. by rewrite lookup_insert_eq.
Qed.

Lemma period_reach_clock s ps : period_reach s ps → clock_ok (clock s).
Proof.
  induction 1 as [e a He|s ps op Hr IH Hn]; [|by apply step_clock_kept].
  split; [done|]. cbn. intros i Hi. rewrite lookup_singleton_is_Some in Hi. lia.
Qed.

Lemma run_frozen ops s e :
  clock_ok (clock s) → closed e (clock s) → epoch_status_cache (book s) !! e = Some Closed →
  forallb (no_reopening e) ops = true → current_epoch (clock s) + Z.of_nat (length ops) < 2 ^ 64 →
  frozen e (book s) (book (foldl (λ s op, period_step op s) s ops)).
Proof.
  revert s. induction ops as [|op ops IH]; intros s Hok Hc Hb Hops Hn; cbn [foldl length forallb] in *;
    [apply frozen_refl|].
  apply andb_true_iff in Hops as [Hop Hops]. destruct (step_frozen op s e Hc Hb Hop) as [Hw Hb'].
  destruct (step_clock_kept op s Hok ltac:(lia)) as (H1 & H2 & H3).
  eapply frozen_trans; [exact Hw|]. apply IH; [by auto|by auto|done|done|lia].
Qed.

(** C21: a closed epoch is frozen, but for the finalization of its metrics.  Once the
    authority has closed an epoch and the book has learned it, then, as long as
    nobody tells the book through [set_epoch_status] that the epoch is not closed and
    the counter of epochs stays below 2^64,
    no sequence of operations adds a metric of the epoch or an attestation to one,
    and a metric changes at most in its marks of being final and of the epoch when
    that was set, which [finalize_metric] still sets. *)
Theorem closed_epoch_frozen s ps e ops :
  period_reach s ps → closed e (clock s) → epoch_status_cache (book s) !! e = Some Closed →
  forallb (no_reopening e) ops = true → current_epoch (clock s) + Z.of_nat (length ops) < 2 ^ 64 →
  let b' := book (foldl (λ s op, period_step op s) s ops) in
  ∀ k, mk_epoch k = e →
    get_attestations k b' = get_attestations k (book s) ∧
    match metrics (book s) !! k, metrics b' !! k with
    | None, None => True
    | Some m, Some m' => m' = m ∨ ∃ now, m' = finalize now m
    | _, _ => False
    end.
Proof.
  intros Hr Hc Hb Hops Hn b' k Hk. apply period_reach_clock in Hr.
  destruct (run_frozen ops s e Hr Hc Hb Hops Hn k Hk) as [Ha Hm]. split; [exact Ha|].
  subst b'. inversion Hm; done.
Qed.

(** Attesters are distinct, and what is final met a policy that was in force. *)
Record attested (ps : list AttestationPolicy) (b : MetricBook) : Prop := {
  at_policies : ∀ t p, policies b !! t = Some p → p ∈ ps;
  at_distinct : ∀ k, NoDup (attester <$> get_attestations k b);
  at_final : ∀ k m, metrics b !! k = Some m → finalized m = true →
    ∃ p, (p = AttestationPolicy_default ∨ p ∈ ps) ∧ satisfied p (get_attestations k b) = true;
}.

Lemma get_policy_known ps b t : attested ps b → get_policy t b = AttestationPolicy_default ∨ get_policy t b ∈ ps.
Proof.
  intros Hat. unfold get_policy. destruct (policies b !! t) as [p|] eqn:Hp; cbn; [right|by left].
  by eapply at_policies.
Qed.

Lemma attest_attested ps k who role sg now b :
  attested ps b → attested ps (attest_metric k who role sg now b).1.
Proof.
  intros Hat. destruct (attest_metric_cases k who role sg now b) as [->|(m & l & _ & Hm & Hf & -> & Hc)]; [done|].
  pose proof Hat as [Hp Hd Hfin]. set (a := {| attester := who |}) in Hc.
  assert (∀ l, (∀ k', k' ≠ k → get_attestations k' (set_attestations (<[k := l]> (attestations b)) b) = get_attestations k' b)) as Hne.
  { intros l k' Hne. apply get_attestations_insert. congruence. }
  assert (∀ l, get_attestations k (set_attestations (<[k := l]> (attestations b)) b) = l) as Heq.
  { intros l. unfold get_attestations. cbn. by rewrite lookup_insert_eq. }
  assert (∀ l, NoDup (attester <$> l) → attested ps (set_attestations (<[k := l]> (attestations b)) b)) as Hset.
  { intros l Hl. split; cbn; [done|..].
    - intros k'. destruct (decide (k' = k)) as [->|]; [by rewrite Heq|by rewrite Hne].
    - intros k' m' Hm' Hf'. rewrite Hne; [by eapply Hfin|]. intros ->. congruence. }
  destruct Hc as [-> |[Hn ->]]; [by apply Hset|]. apply Hset. rewrite fmap_app. apply NoDup_app.
  split_and!; [done| |by apply NoDup_singleton]. intros x Hx Hx'%list_elem_of_singleton. cbn in Hx'. congruence.
Qed.

Lemma period_reach_attested s ps : period_reach s ps → attested ps (book s).
Proof.
  induction 1 as [e a He|s ps op Hr IH Hn]; [by split; cbn; [done|constructor|done]|].
  destruct op; cbn [period_step book]; try exact IH.
  - destruct (record_metric_cases epoch id t value recorder now (book s)) as [->|(_ & _ & ->)]; [done|].
    destruct IH as [Hp Hd Hf]. split; cbn; [done|done|].
    intros k m [[<- <-]|[_ Hm]]%lookup_insert_Some; [done|by apply Hf].
  - by apply attest_attested.
  - destruct (finalize_metric_cases k now (book s)) as [->|(m & Hm & Hsat & ->)]; [done|].
    pose proof (get_policy_known ps (book s) (metric_type (mr_key m)) IH) as Hpol.
    destruct IH as [Hp Hd Hf]. split; cbn; [done|done|].
    intros k' m' [[<- <-]|[_ Hm']]%lookup_insert_Some; [eauto|by apply Hf].
  - destruct IH as [Hp Hd Hf]. split; cbn; [|done|].
    + intros t q [[<- <-]|[_ Hq]]%lookup_insert_Some; set_solver.
    + intros k m Hm Hfm. destruct (Hf k m Hm Hfm) as (q & Hq & ?). exists q. split; [set_solver|done].
  - by destruct IH; split.
  - by destruct IH; split.
Qed.

(** A final metric has its attestations.  Different attesters have attested to
    it, as many and in the roles that a policy in force asked for; and from then on
    neither the metric nor its attestations change. *)
Theorem final_metric_attested s ps k m :
  period_reach s ps → metrics (book s) !! k = Some m → finalized m = true →
  NoDup (attester <$> get_attestations k (book s)) ∧
  (∃ p, (p = AttestationPolicy_default ∨ p ∈ ps) ∧ satisfied p (get_attestations k (book s)) = true) ∧
  ∀ op, let b' := book (period_step op s) in
    (∃ m', metrics b' !! k = Some m' ∧ work m' = work m ∧ finalized m' = true) ∧
    get_attestations k b' = get_attestations k (book s).
Proof.
  intros Hr Hm Hf. destruct (period_reach_attested _ _ Hr) as [_ Hd Hfin]. split_and!; [done|by eapply Hfin|].
  intros op. cbn zeta. destruct op; cbn [period_step book]; try (split; [by exists m|done]).
  - destruct (record_metric_cases epoch id t value recorder now (book s)) as [->|(_ & Hn & ->)]; [by eauto|].
    split; [|done]. exists m. split; [|done]. cbn. rewrite lookup_insert_ne; [done|]. intros E. congruence.
  - destruct (attest_metric_cases k0 who role signature now (book s)) as [->|(m0 & l & _ & Hm0 & Hf0 & -> & Hc)]; [by eauto|].
    assert (k0 ≠ k) by congruence. destruct Hc as [-> |[_ ->]];
      (split; [by exists m|]; apply get_attestations_insert; congruence).
  - destruct (finalize_metric_cases k0 now (book s)) as [->|(m0 & Hm0 & _ & ->)]; [by eauto|].
    split; [|done]. cbn. destruct (decide (k0 = k)) as [->|].
    + rewrite lookup_insert_eq. eexists. split; [done|]. by simplify_eq.
    + rewrite lookup_insert_ne by done. by exists m.
Qed.

(** ** Examples *)

Module PayoutsDemo.

#[export] Instance demo_payout_hash : PayoutHash :=
  {| payout_hash := λ l r c i a o e, sumZ ((λ x, x.2) <$> l) + r + c + i + a + e |}.

Definition key (t : MetricType) : MetricKey := {| mk_epoch := 4; mk_assignment := 9; metric_type := t |}.
Definition worked (t : MetricType) (n : Z) : MetricRecord := finalize 5 (MetricRecord_new (key t) n 4 1).

Definition demo_role : RoleDefinition := RoleDefinition_new 1 "Auditor" "" 1000000 50000 0.
Definition demo_assignment : Assignment := Assignment_new 9 5 demo_role 0 0.
Definition demo_config (rate : Z) : CompensationConfig := {| base_rates := ∅; default_base_rate := rate |}.
Definition demo_constants : EconomicConstants :=
  {| max_epoch_payout := 100000; min_payout_threshold := 1; basis_points_denominator := 10000 |}.
Definition demo_metrics : list MetricRecord := [worked TasksCompleted 3; worked HoursWorked 40].

Lemma payout_exact_witness :
  ∃ p, compute_payout demo_metrics demo_role demo_assignment 4 demo_constants (demo_config 1000) = Ok p ∧
    final_amount p = 40000.
Proof.
  destruct (payout_exact demo_metrics demo_role demo_assignment 4 demo_constants (demo_config 1000)
    ltac:(by vm_compute)) as [H1 H2].
  destruct (proj2 H1) as [p Hp]; [split; [by repeat constructor|by vm_compute]|].
  exists p. split; [exact Hp|]. exact (proj1 (H2 p Hp)).
Defined.

Definition paid (e n tx : Z) : PaymentRecord :=
  {| paid_epoch := e; paid_assignment := 9; paid_amount := n; paid_hash := 0; paid_at_epoch := 6; transaction_id := tx |}.

Lemma paid_once_witness :
  ledger_total (pay_all [paid 4 10 1; paid 4 20 2; paid 5 30 3] PaidLedger_new).1 = 40.
Proof.
  refine (proj2 (proj2 (proj2 (proj2 (paid_once [paid 4 10 1; paid 4 20 2; paid 5 30 3]
    _ [paid 4 10 1; paid 5 30 3] _ _))))); [by repeat constructor|by vm_compute].
Defined.

(** An epoch in which hours are recorded, attested and made final, and then closed. *)
Definition p0 : Period := {| clock := EpochClock_new 4 7; book := MetricBook_new |}.
Definition ops1 : list PeriodOp :=
  [PSync; PRecord 4 9 HoursWorked 40 1 4; PAttest (key HoursWorked) 2 Supervisor 0 4;
   PFinalize (key HoursWorked) 4; PClose 4 7 5; PSync].
Definition run (ops : list PeriodOp) (s : Period) : Period := foldl (λ s op, period_step op s) s ops.

Lemma run_reach ops s ps :
  period_reach s ps → Forall (λ op, match op with PPolicy _ | PAdvance => False | _ => True end) ops →
  current_epoch (clock s) + 1 < 2 ^ 64 → clock_ok (clock s) → period_reach (run ops s) ps.
Proof.
  revert s. induction ops as [|op ops IH]; intros s Hr Hf Hn Hok; [done|].
  apply Forall_cons in Hf as [Hop Hf]. apply IH; [|done| |by apply step_clock_kept].
  - pose proof (pr_step s ps op Hr Hn) as Hx. by destruct op.
  - enough (current_epoch (clock (period_step op s)) = current_epoch (clock s)) as -> by done.
    destruct op; cbn [period_step clock]; try done.
    + by destruct (begin_close_cases e caller (clock s)) as [->|(? & ? & _ & _ & ->)].
    + by apply finalize_close_kept.
    + unfold close_epoch, bind. pose proof (begin_close_cases e caller (clock s)) as Hb.
      destruct (begin_close_epoch e caller (clock s)) as [c1 [u|err]]; cbn [fst] in *;
        destruct Hb as [->|(? & ? & _ & _ & ->)]; try done; by rewrite (proj2 (finalize_close_kept e caller now _)).
Qed.

Lemma p1_reach : period_reach (run ops1 p0) [].
Proof. apply run_reach; [by apply pr_start|by repeat constructor|by vm_compute|]. apply (period_reach_clock _ []). by apply pr_start. Qed.

Definition ops2 : list PeriodOp :=
  [PRecord 4 9 TasksCompleted 1 1 6; PAttest (key HoursWorked) 3 Peer 0 6; PSetStatus 5 Open].

Lemma closed_epoch_frozen_witness :
  get_attestations (key HoursWorked) (book (run ops2 (run ops1 p0))) =
    get_attestations (key HoursWorked) (book (run ops1 p0)) ∧
  metrics (book (run ops2 (run ops1 p0))) !! key TasksCompleted = None.
Proof.
  pose proof (closed_epoch_frozen (run ops1 p0) [] 4 ops2
    p1_reach ltac:(by vm_compute) ltac:(by vm_compute) ltac:(by vm_compute) ltac:(by vm_compute)) as Hf.
  split; [exact (proj1 (Hf (key HoursWorked) eq_refl))|].
  destruct (Hf (key TasksCompleted) eq_refl) as [_ Hm].
  assert (metrics (book (run ops1 p0)) !! key TasksCompleted = None) as E by (vm_compute; reflexivity).
  rewrite E in Hm. unfold run at 1. destruct (metrics _ !! key TasksCompleted); [contradiction Hm|reflexivity].
Defined.

(** A metric that was attested in time is made final after its epoch was closed, and
    the book takes an open status for a closed epoch from any caller. *)
Lemma closed_not_immutable :
  let s := run [PSync; PRecord 4 9 HoursWorked 40 1 4; PAttest (key HoursWorked) 2 Supervisor 0 4;
                PClose 4 7 5; PSync] p0 in
  let s1 := run [PFinalize (key HoursWorked) 9] s in
  let s2 := run [PSetStatus 4 Open; PRecord 4 9 TasksCompleted 1 1 9] s in
  (finalized <$> metrics (book s) !! key HoursWorked) = Some false ∧
  (finalized <$> metrics (book s1) !! key HoursWorked) = Some true ∧
  (mr_value <$> metrics (book s2) !! key TasksCompleted) = Some 1.
Proof. by vm_compute. Qed.

Lemma final_metric_attested_witness : NoDup (attester <$> get_attestations (key HoursWorked) (book (run ops1 p0))).
Proof.
  refine (proj1 (final_metric_attested (run ops1 p0) [] (key HoursWorked) (finalize 4 (MetricRecord_new (key HoursWorked) 40 4 1))
    p1_reach _ _)); by vm_compute.
Defined.

(** Metrics of another assignment are accepted. *)
Lemma foreign_metrics_pay :
  let other := finalize 5 (MetricRecord_new {| mk_epoch := 4; mk_assignment := 8; metric_type := HoursWorked |} 40 4 1) in
  ∃ p, compute_payout [other] demo_role demo_assignment 4 demo_constants (demo_config 1000) = Ok p ∧
    final_amount p = 40000 ∧ pay_assignment p = 9.
Proof. by eexists. Qed.

(** The rate is not part of the hash: a payout at another rate verifies as well. *)
Lemma hash_misses_rate `{PayoutHash} ms role a epoch k cfg cfg' p p' :
  compute_payout ms role a epoch k cfg = Ok p → compute_payout ms role a epoch k cfg' = Ok p' →
  computation_hash p = computation_hash p'.
Proof.
  unfold compute_payout. destruct (validate_inputs ms epoch); [|done]. cbn.
  destruct (apply_caps (default _ (checked_mul 64 (get_rate (role_id role) cfg) _)) a k),
    (apply_caps (default _ (checked_mul 64 (get_rate (role_id role) cfg') _)) a k).
  intros Hp Hp'. repeat case_match; by simplify_eq.
Qed.

(** A metric can be finalized again, after the epoch is closed too, and the epoch of
    its finalization is overwritten. *)
Lemma finalized_again :
  (finalized_at_epoch <$> metrics (book (run [PFinalize (key HoursWorked) 90] (run ops1 p0))) !! key HoursWorked)
    = Some (Some 90).
Proof. by vm_compute. Qed.

End PayoutsDemo.
