(* ===== verification/TreasuryGov.v ===== *)
(** * Governance of the treasury (lib-blockchain contracts/treasury_kernel)

    [GovernanceExecutor] of [governance_executor.rs] with the types of
    [governance_types.rs]: proposals are voted on, wait for a timelock after their
    approval, and are then executed, begun with [begin_execution] and recorded with
    [complete_execution].  The text of the details of a result is left out.

    The theorems: an execution begins only with an approval whose timelock has
    passed and whose time for execution has not, and with the action that was
    proposed; and never after one that succeeded. *)
From stdpp Require Import base tactics numbers list option gmap fin_maps strings sorting.
From S2P Require Import Prelude.

(** ** Types *)

Inductive ProposalStatus : Type := Voting | Approved | Rejected | Expired | Executed.

#[export] Instance ProposalStatus_eq_dec : EqDecision ProposalStatus.
Proof. solve_decision. Defined.

Inductive TreasuryParameter : Type :=
| MintDelayEpochs | MaxUbiPoolPerEpoch | DefaultVotingDurationEpochs | DefaultTimelockEpochs
| MaxEpochPayout | MinPayoutThreshold.

#[export] Instance TreasuryParameter_eq_dec : EqDecision TreasuryParameter.
Proof. solve_decision. Defined.

Definition parameter_code (p : TreasuryParameter) : Z :=
  match p with
  | MintDelayEpochs => 0 | MaxUbiPoolPerEpoch => 1 | DefaultVotingDurationEpochs => 2
  | DefaultTimelockEpochs => 3 | MaxEpochPayout => 4 | MinPayoutThreshold => 5
  end.

Definition parameter_of (z : Z) : TreasuryParameter :=
  match z with
  | 0 => MintDelayEpochs | 1 => MaxUbiPoolPerEpoch | 2 => DefaultVotingDurationEpochs
  | 3 => DefaultTimelockEpochs | 4 => MaxEpochPayout | _ => MinPayoutThreshold
  end.

#[export] Program Instance TreasuryParameter_countable : Countable TreasuryParameter :=
  inj_countable' parameter_code parameter_of _.
Next Obligation. by intros []. Qed.

Inductive GovMintReason : Type :=
| GTreasuryAllocation | GrantSubsidy | EcosystemFund | EmergencyLiquidity | Migration.
Inductive GovBurnReason : Type := ExcessReduction | FeeBurn | SupplyAdjustment | Penalty.

Inductive TreasuryAction : Type :=
| AMint (recipient amount : Z) (r : GovMintReason) | ABurn (amount : Z) (r : GovBurnReason)
| AUpdateRoleCap (role : Z) (annual : option Z) (lifetime : option (option Z)) (per_epoch : option Z)
| ACreateRole (role : Z) (name : string) (annual : Z) (lifetime : option Z) (per_epoch : Z)
| ADeactivateRole (role : Z) | AUpdateParameter (p : TreasuryParameter) (value : Z)
| AEmergencyPause | AEmergencyResume | AUpdateCompensationRate (role rate : Z)
| AGrantRole (identity role : Z) | ARevokeRole (identity role : Z)
| AUpdateSRV (committed : Z) (multiplier : option Z) (rationale : string).

Record TreasuryProposal : Type := {
  proposal_id : Z; action : TreasuryAction; created_at : Z; voting_ends_epoch : Z;
  proposal_status : ProposalStatus; approved_at_epoch : option Z; timelock_expires_epoch : option Z;
  executed_at_epoch : option Z; proposer : Z; proposal_text : string;
}.

Definition TreasuryProposal_new (id : Z) (a : TreasuryAction) (epoch duration who : Z) (text : string)
    : TreasuryProposal := {|
  proposal_id := id; action := a; created_at := epoch; voting_ends_epoch := saturating_add 64 epoch duration;
  proposal_status := Voting; approved_at_epoch := None; timelock_expires_epoch := None;
  executed_at_epoch := None; proposer := who; proposal_text := text |}.

Definition with_proposal_status (s : ProposalStatus) (approved timelock executed : option Z)
    (p : TreasuryProposal) : TreasuryProposal := {|
  proposal_id := proposal_id p; action := action p; created_at := created_at p;
  voting_ends_epoch := voting_ends_epoch p; proposal_status := s; approved_at_epoch := approved;
  timelock_expires_epoch := timelock; executed_at_epoch := executed; proposer := proposer p;
  proposal_text := proposal_text p |}.

Definition approve (epoch timelock : Z) (p : TreasuryProposal) : TreasuryProposal :=
  with_proposal_status Approved (Some epoch) (Some (saturating_add 64 epoch timelock)) (executed_at_epoch p) p.

Definition reject (p : TreasuryProposal) : TreasuryProposal :=
  with_proposal_status Rejected (approved_at_epoch p) (timelock_expires_epoch p) (executed_at_epoch p) p.

Definition expire (p : TreasuryProposal) : TreasuryProposal :=
  with_proposal_status Expired (approved_at_epoch p) (timelock_expires_epoch p) (executed_at_epoch p) p.

Definition execute (epoch : Z) (p : TreasuryProposal) : TreasuryProposal :=
  with_proposal_status Executed (approved_at_epoch p) (timelock_expires_epoch p) (Some epoch) p.

Definition EXECUTION_GRACE_EPOCHS : Z := 4.

Definition has_expired (now : Z) (p : TreasuryProposal) : bool :=
  match proposal_status p with
  | Voting => voting_ends_epoch p <? now
  | Approved => match timelock_expires_epoch p with
                | Some e => saturating_add 64 e EXECUTION_GRACE_EPOCHS <? now | None => false end
  | _ => false
  end.

Definition proposal_is_executable (now : Z) (p : TreasuryProposal) : bool :=
  bool_decide (proposal_status p = Approved) &&
  match timelock_expires_epoch p with Some e => e <=? now | None => false end.

Inductive GovernanceError : Type :=
| ProposalNotFound (id : Z) | ProposalAlreadyExists (id : Z)
| InvalidProposalStatus (id : Z) (expected actual : ProposalStatus)
| TimelockNotExpired (id expires now : Z) | ProposalExpired (id : Z)
| InvalidActionParameters (text : string) | InvalidActionType.

Record ExecutionResult : Type := {
  er_proposal : Z; er_epoch : Z; er_action : TreasuryAction; er_success : bool;
}.

(** ** The executor *)

Record GovernanceExecutor : Type := {
  proposals : gmap Z TreasuryProposal; executed : gmap Z ExecutionResult;
  voting_duration_epochs : Z; timelock_epochs : Z; parameters : gmap TreasuryParameter Z;
}.

Definition GovernanceExecutor_new : GovernanceExecutor := {|
  proposals := ∅; executed := ∅; voting_duration_epochs := 2; timelock_epochs := 1;
  parameters := <[MintDelayEpochs := 1]> (<[MaxUbiPoolPerEpoch := 1000000]>
    (<[DefaultVotingDurationEpochs := 2]> (<[DefaultTimelockEpochs := 1]>
    (<[MaxEpochPayout := 100000]> {[ MinPayoutThreshold := 1 ]})))) |}.

Definition set_proposals (m : gmap Z TreasuryProposal) (g : GovernanceExecutor) : GovernanceExecutor := {|
  proposals := m; executed := executed g; voting_duration_epochs := voting_duration_epochs g;
  timelock_epochs := timelock_epochs g; parameters := parameters g |}.

Definition set_executed (m : gmap Z ExecutionResult) (g : GovernanceExecutor) : GovernanceExecutor := {|
  proposals := proposals g; executed := m; voting_duration_epochs := voting_duration_epochs g;
  timelock_epochs := timelock_epochs g; parameters := parameters g |}.

Definition set_delays (voting timelock : Z) (g : GovernanceExecutor) : GovernanceExecutor := {|
  proposals := proposals g; executed := executed g; voting_duration_epochs := voting;
  timelock_epochs := timelock; parameters := parameters g |}.

Definition set_parameter (p : TreasuryParameter) (v : Z) (g : GovernanceExecutor) : GovernanceExecutor := {|
  proposals := proposals g; executed := executed g; voting_duration_epochs := voting_duration_epochs g;
  timelock_epochs := timelock_epochs g; parameters := <[p := v]> (parameters g) |}.

Definition validate_action (a : TreasuryAction) : result unit GovernanceError :=
  match a with
  | AMint _ n _ => if n =? 0 then Err (InvalidActionParameters "Mint amount cannot be zero") else Ok tt
  | ABurn n _ => if n =? 0 then Err (InvalidActionParameters "Burn amount cannot be zero") else Ok tt
  | ACreateRole _ name annual _ per_epoch =>
      if bool_decide (name = ""%string) then Err (InvalidActionParameters "Role name cannot be empty")
      else if (annual =? 0) || (per_epoch =? 0) then Err (InvalidActionParameters "Caps cannot be zero") else Ok tt
  | AUpdateParameter _ v => if v =? 0 then Err (InvalidActionParameters "Parameter value cannot be zero") else Ok tt
  | _ => Ok tt
  end.

Notation GM := (M GovernanceExecutor GovernanceError) (only parsing).

Definition create_proposal (id : Z) (a : TreasuryAction) (now who : Z) (text : string) : GM unit :=
  g <- gets (λ g, g) ;;
  guard (negb (bool_decide (is_Some (proposals g !! id)))) (ProposalAlreadyExists id) ;;;
  lift (validate_action a) ;;;
  modify (set_proposals (<[id := TreasuryProposal_new id a now (voting_duration_epochs g) who text]> (proposals g))).

(** A proposal that must have this status. *)
Definition proposal_in (id : Z) (s : ProposalStatus) (g : GovernanceExecutor) : result TreasuryProposal GovernanceError :=
  let? p := ok_or (proposals g !! id) (ProposalNotFound id) in
  if bool_decide (proposal_status p = s) then Ok p else Err (InvalidProposalStatus id s (proposal_status p)).

Definition approve_proposal (id now : Z) : GM unit :=
  g <- gets (λ g, g) ;;
  p <- lift (proposal_in id Voting g) ;;
  modify (set_proposals (<[id := approve now (timelock_epochs g) p]> (proposals g))).

Definition reject_proposal (id : Z) : GM unit :=
  g <- gets (λ g, g) ;;
  p <- lift (proposal_in id Voting g) ;;
  modify (set_proposals (<[id := reject p]> (proposals g))).

Definition check_timelock (id now : Z) (p : TreasuryProposal) : result unit GovernanceError :=
  match timelock_expires_epoch p with
  | Some e => if now <? e then Err (TimelockNotExpired id e now) else Ok tt
  | None => Ok tt
  end.

(** Begins an execution; nothing is written. *)
Definition begin_execution (id now : Z) (g : GovernanceExecutor) : result TreasuryAction GovernanceError :=
  if bool_decide (is_Some (executed g !! id)) then Err (InvalidProposalStatus id Approved Executed) else
  let? p := proposal_in id Approved g in
  let? _ := check_timelock id now p in
  if has_expired now p then Err (ProposalExpired id) else Ok (action p).

Definition complete_execution (id now : Z) (success : bool) : GM ExecutionResult :=
  g <- gets (λ g, g) ;;
  p <- lift (ok_or (proposals g !! id) (ProposalNotFound id)) ;;
  (if success then modify (set_proposals (<[id := execute now p]> (proposals g))) else ret tt) ;;;
  let r := {| er_proposal := id; er_epoch := now; er_action := action p; er_success := success |} in
  modify (λ g, set_executed (<[id := r]> (executed g)) g) ;;;
  (if success then
     match action p with AUpdateParameter x v => modify (set_parameter x v) | _ => ret tt end
   else ret tt) ;;;
  ret r.

Definition prepare_srv_update (id now : Z) (g : GovernanceExecutor)
    : result (Z * option Z * string) GovernanceError :=
  let? p := proposal_in id Approved g in
  let? _ := check_timelock id now p in
  match action p with AUpdateSRV c m t => Ok (c, m, t) | _ => Err InvalidActionType end.

Definition process_epoch (now : Z) (g : GovernanceExecutor) : GovernanceExecutor :=
  set_proposals ((λ p, if has_expired now p then expire p else p) <$> proposals g) g.

(** The results with the smallest identifiers go first. *)
Definition cleanup_executed (keep : nat) (g : GovernanceExecutor) : GovernanceExecutor :=
  let ids := merge_sort Z.le (elements (dom (executed g))) in
  if bool_decide (keep < length ids)%nat
  then set_executed (foldr delete (executed g) (take (length ids - keep) ids)) g else g.

(** ** Runs *)

Inductive GovOp : Type :=
| GCreate (id : Z) (a : TreasuryAction) (who : Z) (text : string) | GApprove (id : Z) | GReject (id : Z)
| GComplete (id : Z) (success : bool) | GProcess | GDelays (voting timelock : Z) | GCleanup (keep : nat).

Definition gov_step (op : GovOp) (now : Z) (g : GovernanceExecutor) : GovernanceExecutor * bool :=
  let run {A : Type} (m : GM A) := let '(g', x) := m g in (g', is_ok x) in
  match op with
  | GCreate id a who text => run (create_proposal id a now who text)
  | GApprove id => run (approve_proposal id now)
  | GReject id => run (reject_proposal id)
  | GComplete id s => run (complete_execution id now s)
  | GProcess => (process_epoch now g, true)
  | GDelays v t => (set_delays v t g, true)
  | GCleanup k => (cleanup_executed k g, true)
  end.

(** What has happened to the proposals. *)
Inductive GovEvent : Type :=
| Proposed (id : Z) (a : TreasuryAction) | ApprovedAt (id epoch timelock : Z) | Succeeded (id : Z).

Definition event_of (op : GovOp) (now : Z) (g : GovernanceExecutor) : list GovEvent :=
  if (gov_step op now g).2 then
    match op with
    | GCreate id a _ _ => [Proposed id a]
    | GApprove id => [ApprovedAt id now (timelock_epochs g)]
    | GComplete id true => [Succeeded id]
    | _ => []
    end
  else [].

Inductive gov_reach : GovernanceExecutor → list GovEvent → Prop :=
| gr_start : gov_reach GovernanceExecutor_new []
| gr_step g h op now : gov_reach g h → gov_reach (gov_step op now g).1 (h ++ event_of op now g).

(** The proposal and the history agree. *)
Record recorded (h : list GovEvent) (id : Z) (p : TreasuryProposal) : Prop := {
  r_action : Proposed id (action p) ∈ h;
  r_approved : proposal_status p = Approved →
    ∃ a t, ApprovedAt id a t ∈ h ∧ timelock_expires_epoch p = Some (saturating_add 64 a t);
  r_done : Succeeded id ∈ h → proposal_status p = Executed;
}.

Record history_ok (g : GovernanceExecutor) (h : list GovEvent) : Prop := {
  h_proposals : ∀ id p, proposals g !! id = Some p → recorded h id p;
  h_done : ∀ id, Succeeded id ∈ h → is_Some (proposals g !! id);
}.

(** Events of other proposals, or none, change nothing. *)
Lemma recorded_app h h' id p : Succeeded id ∉ h' → recorded h id p → recorded (h ++ h') id p.
Proof.
  intros Hn [Ha Hap Hd]. split.
  - apply elem_of_app. by left.
  - intros Hs. destruct (Hap Hs) as (a & t & Hin & ?). exists a, t. split; [apply elem_of_app; by left|done].
  - intros [?|?]%elem_of_app; [auto|done].
Qed.

Lemma history_same g g' h h' :
  proposals g' = proposals g → (∀ id, Succeeded id ∉ h') → history_ok g h → history_ok g' (h ++ h').
Proof.
  intros E Hn [Hp Hd]. split; rewrite E.
  - intros id p Hl. apply recorded_app; auto.
  - intros id [?|?]%elem_of_app; [by apply Hd|by destruct (Hn id)].
Qed.

(** A proposal is replaced by one that the longer history records. *)
Lemma history_update g g' h h' id p :
  proposals g' = <[id := p]> (proposals g) → (∀ i, i ≠ id → Succeeded i ∉ h') →
  recorded (h ++ h') id p → history_ok g h → history_ok g' (h ++ h').
Proof.
  intros E Hn Hr [Hp Hd]. split; rewrite E.
  - intros i q [[<- <-]|[Hne Hl]]%lookup_insert_Some; [done|]. apply recorded_app; auto.
  - intros i Hs. apply lookup_insert_is_Some. destruct (decide (id = i)) as [|Hne]; [by left|right; split; [done|]].
    apply elem_of_app in Hs as [Hs|Hs]; [by apply Hd|]. by destruct (Hn i).
Qed.

Lemma create_history id a who text now g h :
  history_ok g h → history_ok (gov_step (GCreate id a who text) now g).1 (h ++ event_of (GCreate id a who text) now g).
Proof.
  intros Hok. unfold event_of, gov_step, create_proposal, bind, gets, guard, lift, throw, ret, modify; cbn.
  destruct (bool_decide_reflect (is_Some (proposals g !! id))) as [|Hn]; cbn; [by rewrite app_nil_r|].
  destruct (validate_action a) as [u|]; cbn; [|by rewrite app_nil_r].
  eapply history_update; [done| | |done]; [by intros i Hi ?%list_elem_of_singleton|]. split; cbn.
  - apply elem_of_app. right. by apply list_elem_of_singleton.
  - done.
  - intros [Hs|Hs]%elem_of_app; [by destruct Hn; apply (h_done _ _ Hok)|by apply list_elem_of_singleton in Hs].
Qed.

Lemma proposal_in_ok id s g p : proposal_in id s g = Ok p ↔ proposals g !! id = Some p ∧ proposal_status p = s.
Proof.
  unfold proposal_in, ok_or. destruct (proposals g !! id) as [q|]; cbn; [|naive_solver].
  case_bool_decide; naive_solver.
Qed.

Lemma approve_history id now g h :
  history_ok g h → history_ok (gov_step (GApprove id) now g).1 (h ++ event_of (GApprove id) now g).
Proof.
  intros Hok. unfold event_of, gov_step, approve_proposal, bind, gets, lift, modify; cbn.
  destruct (proposal_in id Voting g) as [p|] eqn:Hp; cbn; [|by rewrite app_nil_r].
  apply proposal_in_ok in Hp as [Hp Hs]. destruct (h_proposals _ _ Hok id p Hp) as [Ha _ Hd].
  eapply history_update; [done| | |done]; [by intros i Hi ?%list_elem_of_singleton|]. split; cbn.
  - apply elem_of_app. by left.
  - intros _. exists now, (timelock_epochs g). split; [|done]. apply elem_of_app. right. by apply list_elem_of_singleton.
  - intros [?%Hd|?%list_elem_of_singleton]%elem_of_app; congruence.
Qed.

Lemma reject_history id now g h :
  history_ok g h → history_ok (gov_step (GReject id) now g).1 (h ++ event_of (GReject id) now g).
Proof.
  intros Hok. unfold event_of, gov_step, reject_proposal, bind, gets, lift, modify; cbn.
  destruct (proposal_in id Voting g) as [p|] eqn:Hp; cbn; [|by rewrite app_nil_r].
  apply proposal_in_ok in Hp as [Hp Hs]. destruct (h_proposals _ _ Hok id p Hp) as [Ha _ Hd]. rewrite app_nil_r.
  rewrite <- (app_nil_r h). eapply history_update; [done|by intros i Hi ?%not_elem_of_nil| |done].
  rewrite app_nil_r. split; cbn; [done|done|]. intros ?%Hd. congruence.
Qed.

Lemma complete_history id now s g h :
  history_ok g h → history_ok (gov_step (GComplete id s) now g).1 (h ++ event_of (GComplete id s) now g).
Proof.
  intros Hok. unfold event_of, gov_step, complete_execution, bind, gets, lift, modify, ok_or, ret; cbn.
  destruct (proposals g !! id) as [p|] eqn:Hp; cbn; [|by rewrite app_nil_r].
  destruct (h_proposals _ _ Hok id p Hp) as [Ha Hap Hd]. destruct s; cbn.
  - set (g' := set_executed _ (set_proposals _ g)).
    assert (history_ok g' (h ++ [Succeeded id])) as Hg.
    { eapply history_update; [done| | |done]; [by intros i Hi [= ->]%list_elem_of_singleton|].
      split; cbn; [apply elem_of_app; by left|done|done]. }
    destruct (action p); cbn; try exact Hg. by destruct Hg; split.
  - rewrite app_nil_r. by destruct Hok; split.
Qed.

Lemma process_history now g h : history_ok g h → history_ok (process_epoch now g) h.
Proof.
  intros [Hp Hd]. split; cbn.
  - intros id p. rewrite lookup_fmap_Some. intros (q & <- & Hq). specialize (Hp id q Hq).
    destruct (has_expired now q) eqn:He; [|done]. destruct Hp as [Ha Hap Hdn]. split; cbn; [done|done|].
    intros Hs%Hdn. unfold has_expired in He. by rewrite Hs in He.
  - intros id Hs%Hd. by rewrite lookup_fmap, fmap_is_Some.
Qed.

Lemma gov_reach_ok g h : gov_reach g h → history_ok g h.
Proof.
  induction 1 as [|g h op now Hr IH]; [split; cbn; [done|by intros id ?%not_elem_of_nil]|].
  destruct op.
  - by apply create_history.
  - by apply approve_history.
  - by apply reject_history.
  - by apply complete_history.
  - cbn. rewrite app_nil_r. by apply process_history.
  - cbn. rewrite app_nil_r. by destruct IH; split.
  - cbn. rewrite app_nil_r. unfold cleanup_executed. case_bool_decide; [|done]. by destruct IH; split.
Qed.

(** C24: an execution begins with a valid approval.  It is for the action that was
    proposed under this identifier, after an approval whose timelock, as it was set
    then, has passed, but not more than the grace period ago; and no execution of the
    proposal has succeeded before. *)
Theorem execution_after_timelock g h id now a :
  gov_reach g h → begin_execution id now g = Ok a →
  Proposed id a ∈ h ∧ Succeeded id ∉ h ∧
  ∃ e t, ApprovedAt id e t ∈ h ∧
    saturating_add 64 e t <= now <= saturating_add 64 (saturating_add 64 e t) EXECUTION_GRACE_EPOCHS.
Proof.
  intros Hr. pose proof (gov_reach_ok _ _ Hr) as Hok. unfold begin_execution. case_bool_decide; [done|].
  destruct (proposal_in id Approved g) as [p|] eqn:Hp; cbn; [|done]. apply proposal_in_ok in Hp as [Hp Hs].
  destruct (h_proposals _ _ Hok id p Hp) as [Ha Hap Hd]. destruct (Hap Hs) as (e & t & Hin & Ht).
  unfold check_timelock, has_expired. rewrite Ht, Hs.
  destruct (Z.ltb_spec now (saturating_add 64 e t)); cbn; [done|].
  destruct (Z.ltb_spec (saturating_add 64 (saturating_add 64 e t) EXECUTION_GRACE_EPOCHS) now); [done|].
  intros [= <-]. split_and!; [done| |by exists e, t]. intros ?%Hd. congruence.
Qed.

(** ** Examples *)

Module GovDemo.

Fixpoint run (ops : list (GovOp * Z)) (g : GovernanceExecutor) : GovernanceExecutor :=
  match ops with [] => g | (op, e) :: ops => run ops (gov_step op e g).1 end.

Definition g0 : GovernanceExecutor := GovernanceExecutor_new.
Definition slower : TreasuryAction := AUpdateParameter DefaultTimelockEpochs 50.
Definition propose (id : Z) : GovOp := GCreate id slower 9 "".

Lemma execution_after_timelock_witness :
  begin_execution 1 2 (run [(propose 1, 0); (GApprove 1, 1)] g0) = Ok slower ∧
  ∃ e t, ApprovedAt 1 e t ∈ [Proposed 1 slower; ApprovedAt 1 1 1] ∧ saturating_add 64 e t <= 2.
Proof.
  split; [by vm_compute|].
  destruct (execution_after_timelock (run [(propose 1, 0); (GApprove 1, 1)] g0)
    [Proposed 1 slower; ApprovedAt 1 1 1] 1 2 slower) as (_ & _ & e & t & Hin & Hle & _).
  - refine (gr_step (run [(propose 1, 0)] g0) [Proposed 1 slower] (GApprove 1) 1 _).
    refine (gr_step g0 [] (propose 1) 0 _). apply gr_start.
  - by vm_compute.
  - exists e, t. split; [exact Hin|exact Hle].
Defined.

(** A proposal can be approved long after its voting has ended. *)
Lemma approved_after_voting :
  (voting_ends_epoch <$> proposals (run [(propose 1, 0)] g0) !! 1) = Some 2 ∧
  begin_execution 1 101 (run [(propose 1, 0); (GApprove 1, 100)] g0) = Ok slower.
Proof. by vm_compute. Qed.

(** Completing an execution needs neither an approval nor a begun execution. *)
Lemma completed_without_approval :
  let g := run [(propose 1, 0); (GComplete 1 true, 0)] g0 in
  (proposal_status <$> proposals g !! 1) = Some Executed ∧ parameters g !! DefaultTimelockEpochs = Some 50.
Proof. by vm_compute. Qed.

(** The parameter for the timelock is not the timelock. *)
Lemma parameter_not_applied :
  let g := run [(propose 1, 0); (GApprove 1, 1); (GComplete 1 true, 2); (propose 2, 2); (GApprove 2, 2)] g0 in
  parameters g !! DefaultTimelockEpochs = Some 50 ∧ timelock_epochs g = 1 ∧ begin_execution 2 3 g = Ok slower.
Proof. by vm_compute. Qed.

(** After a failed execution the proposal is refused until its result is cleaned up;
    the clean-up drops the smallest identifiers, not the oldest results. *)
Lemma cleanup_forgets_failure :
  let g := run [(propose 1, 0); (propose 2, 0); (GApprove 1, 1); (GApprove 2, 1);
                (GComplete 2 true, 2); (GComplete 1 false, 3)] g0 in
  begin_execution 1 3 g = Err (InvalidProposalStatus 1 Approved Executed) ∧
  begin_execution 1 3 (run [(GCleanup 1, 3)] g) = Ok slower.
Proof. by vm_compute. Qed.

End GovDemo.
