(* ===== verification/Oracle.v ===== *)
(** * The price oracle (lib-blockchain)

    [OracleState] of [oracle/mod.rs]: the committee and configuration with their
    scheduled updates, admission and aggregation of price attestations and the
    finalized prices; [oracle/protocol.rs]: the activation of protocol versions;
    and of [blockchain/oracle.rs] what the chain does with attestations, penalties
    and epoch boundaries.  Keys and identifiers are numbers; signing keys and
    signatures of variable length are byte lists.  Blake3 and Dilithium are
    parameters ([OracleEnv]).  Left out: the monitoring counters of
    [protocol.rs], which nothing reads, the decoding of governance proposals, and
    the loading of old snapshots ([migration.rs]). *)
From stdpp Require Import base tactics numbers list option gmap fin_maps fin_sets sorting strings.
From S2P Require Import Prelude Codec Memo.

Class OracleEnv : Type := {
  oracle_blake3 : list Z → Z;
  (* message, signature, key; [None] is an error *)
  oracle_dilithium_verify : list Z → list Z → list Z → option bool;
}.

(** ** Attestations *)

Record OraclePriceAttestation : Type := {
  att_epoch : Z; sov_usd_price : Z; cbe_usd_price : option Z; att_timestamp : Z;
  validator_pubkey : Z; att_sig : list Z;
}.

Inductive OracleAttestationValidationError : Type :=
| WrongEpoch (expected got : Z) | NonCommitteeSigner (k : Z) | DuplicateSigner (k : Z)
| MissingSignerPublicKey (k : Z) | InvalidSignature
| DeviationBand (attested_price median_price max_deviation_bps actual_deviation_bps : Z).

Record FinalizedOraclePrice : Type := {
  fin_epoch : Z; fin_sov_price : Z; fin_cbe_price : option Z;
}.

Inductive OracleAttestationAdmission : Type :=
| Accepted | IgnoredOutsideCurrentEpoch (current_epoch attested_epoch : Z)
| IgnoredDuplicateSigner (k : Z) | IgnoredAfterFinalization (epoch price : Z)
| Finalized (f : FinalizedOraclePrice).

Inductive OracleAttestationAdmissionError : Type :=
| Validation (e : OracleAttestationValidationError)
| ConflictingSigner (signer existing_price attempted_price : Z)
| ConflictingFinalizedPrice (epoch finalized_price attempted_price : Z).

(** ** State *)

Record OracleConfig : Type := {
  epoch_duration_secs : Z; max_source_age_secs : Z; max_deviation_bps : Z;
  max_price_staleness_epochs : Z; price_scale : Z;
}.

Record PendingCommitteeUpdate : Type := {
  cu_activate_at_epoch : Z; cu_members : list Z; cu_scheduled_at_epoch : Z;
  cu_expires_at_epoch : Z; cu_source_proposal_id : option Z;
}.

Record PendingConfigUpdate : Type := {
  gu_activate_at_epoch : Z; gu_config : OracleConfig; gu_scheduled_at_epoch : Z;
  gu_expires_at_epoch : Z; gu_source_proposal_id : option Z;
}.

Record OracleCommitteeState : Type := {
  members : list Z; pending_update : option PendingCommitteeUpdate;
}.

Record OracleEpochState : Type := {
  winning_price : option Z; winning_cbe_price : option Z; finalized : bool;
  price_signers : gmap Z (gset Z); cbe_price_signers : gmap Z (gset Z);
  signer_prices : gmap Z Z; signer_cbe_prices : gmap Z Z;
}.

Definition OracleEpochState_default : OracleEpochState := {|
  winning_price := None; winning_cbe_price := None; finalized := false; price_signers := ∅;
  cbe_price_signers := ∅; signer_prices := ∅; signer_cbe_prices := ∅ |}.

Inductive OracleProtocolVersion : Type := V0Legacy | V1StrictSpec.

#[export] Instance OracleProtocolVersion_eq_dec : EqDecision OracleProtocolVersion.
Proof. solve_decision. Defined.

Record PendingProtocolActivation : Type := {
  activate_at_height : Z; target_version : OracleProtocolVersion; scheduled_at_height : Z;
  pa_source_proposal_id : option Z;
}.

Record OracleProtocolConfig : Type := {
  current_version : OracleProtocolVersion; pending_activation : option PendingProtocolActivation;
  activated_at_height : Z;
}.

Inductive OracleSlashReason : Type :=
| SlashConflictingAttestation | SlashWrongEpoch | SlashDeviationBand.

Record CommitteeRemovalEntry : Type := {
  removal_key_id : Z; remove_at_epoch : Z; removal_reason : OracleSlashReason;
}.

Record OracleState : Type := {
  config : OracleConfig; committee : OracleCommitteeState;
  pending_config_update : option PendingConfigUpdate;
  finalized_prices : gmap Z FinalizedOraclePrice; epoch_state : gmap Z OracleEpochState;
  oracle_signing_pubkeys : gmap Z (list Z); protocol_config : OracleProtocolConfig;
  epoch_tracking_version : Z; committee_removal_queue : list CommitteeRemovalEntry;
}.

Definition set_committee (c : OracleCommitteeState) (s : OracleState) : OracleState := {|
  config := config s; committee := c; pending_config_update := pending_config_update s;
  finalized_prices := finalized_prices s; epoch_state := epoch_state s;
  oracle_signing_pubkeys := oracle_signing_pubkeys s; protocol_config := protocol_config s;
  epoch_tracking_version := epoch_tracking_version s;
  committee_removal_queue := committee_removal_queue s |}.

Definition set_config (g : OracleConfig) (p : option PendingConfigUpdate) (s : OracleState)
    : OracleState := {|
  config := g; committee := committee s; pending_config_update := p;
  finalized_prices := finalized_prices s; epoch_state := epoch_state s;
  oracle_signing_pubkeys := oracle_signing_pubkeys s; protocol_config := protocol_config s;
  epoch_tracking_version := epoch_tracking_version s;
  committee_removal_queue := committee_removal_queue s |}.

Definition set_prices (f : gmap Z FinalizedOraclePrice) (es : gmap Z OracleEpochState)
    (s : OracleState) : OracleState := {|
  config := config s; committee := committee s; pending_config_update := pending_config_update s;
  finalized_prices := f; epoch_state := es; oracle_signing_pubkeys := oracle_signing_pubkeys s;
  protocol_config := protocol_config s; epoch_tracking_version := epoch_tracking_version s;
  committee_removal_queue := committee_removal_queue s |}.

Definition set_queue (q : list CommitteeRemovalEntry) (s : OracleState) : OracleState := {|
  config := config s; committee := committee s; pending_config_update := pending_config_update s;
  finalized_prices := finalized_prices s; epoch_state := epoch_state s;
  oracle_signing_pubkeys := oracle_signing_pubkeys s; protocol_config := protocol_config s;
  epoch_tracking_version := epoch_tracking_version s; committee_removal_queue := q |}.

Definition set_protocol (p : OracleProtocolConfig) (s : OracleState) : OracleState := {|
  config := config s; committee := committee s; pending_config_update := pending_config_update s;
  finalized_prices := finalized_prices s; epoch_state := epoch_state s;
  oracle_signing_pubkeys := oracle_signing_pubkeys s; protocol_config := p;
  epoch_tracking_version := epoch_tracking_version s;
  committee_removal_queue := committee_removal_queue s |}.

Definition set_keys (k : gmap Z (list Z)) (s : OracleState) : OracleState := {|
  config := config s; committee := committee s; pending_config_update := pending_config_update s;
  finalized_prices := finalized_prices s; epoch_state := epoch_state s;
  oracle_signing_pubkeys := k; protocol_config := protocol_config s;
  epoch_tracking_version := epoch_tracking_version s;
  committee_removal_queue := committee_removal_queue s |}.

Definition set_tracking (v : Z) (s : OracleState) : OracleState := {|
  config := config s; committee := committee s; pending_config_update := pending_config_update s;
  finalized_prices := finalized_prices s; epoch_state := epoch_state s;
  oracle_signing_pubkeys := oracle_signing_pubkeys s; protocol_config := protocol_config s;
  epoch_tracking_version := v; committee_removal_queue := committee_removal_queue s |}.

(** [Vec::dedup]: equal neighbours are merged. *)
Fixpoint dedup (l : list Z) : list Z :=
  match l with
  | a :: ((b :: _) as l') => if a =? b then dedup l' else a :: dedup l'
  | _ => l
  end.

Definition normalize_members (l : list Z) : list Z := dedup (merge_sort Z.le l).

Definition remove_member (k : Z) (c : OracleCommitteeState) : OracleCommitteeState := {|
  members := filter (λ m, m ≠ k) (members c); pending_update := pending_update c |}.

(** [floor(2N/3) + 1], as a u16. *)
Definition threshold (c : OracleCommitteeState) : Z :=
  Z.min (2 * lenZ (members c) / 3 + 1) 65535.

Definition ORACLE_PRICE_SCALE : Z := 100000000.

Definition OracleConfig_default : OracleConfig := {|
  epoch_duration_secs := 300; max_source_age_secs := 60; max_deviation_bps := 500;
  max_price_staleness_epochs := 2; price_scale := ORACLE_PRICE_SCALE |}.

Definition OracleState_default : OracleState := {|
  config := OracleConfig_default; committee := {| members := []; pending_update := None |};
  pending_config_update := None; finalized_prices := ∅; epoch_state := ∅;
  oracle_signing_pubkeys := ∅;
  protocol_config := {| current_version := V0Legacy; pending_activation := None;
                        activated_at_height := 0 |};
  epoch_tracking_version := 1; committee_removal_queue := [] |}.

(** The field or the pair of fields at fault. *)
Inductive OracleConfigError : Type := InvalidField (field : string) | Inconsistent.

Definition OracleConfig_validate (g : OracleConfig) : result unit OracleConfigError :=
  if (epoch_duration_secs g <? 60) || (86400 <? epoch_duration_secs g)
  then Err (InvalidField "epoch_duration_secs")
  else if (max_source_age_secs g =? 0) || (max_source_age_secs g <? 10)
  then Err (InvalidField "max_source_age_secs")
  else if (max_deviation_bps g =? 0) || (10000 <? max_deviation_bps g)
  then Err (InvalidField "max_deviation_bps")
  else if (max_price_staleness_epochs g =? 0) || (100 <? max_price_staleness_epochs g)
  then Err (InvalidField "max_price_staleness_epochs")
  else if negb (price_scale g =? ORACLE_PRICE_SCALE) then Err (InvalidField "price_scale")
  else if epoch_duration_secs g <=? max_source_age_secs g then Err Inconsistent else Ok tt.

Section Oracle.
Context `{OracleEnv}.

(** ** Signatures *)

Definition le_number (n : nat) (z : Z) : list Z := rev (be_bytes n z).

(** The bincode encoding of [OraclePriceAttestationPayload]. *)
Definition canonical_payload_bytes (a : OraclePriceAttestation) : list Z :=
  le_number 8 (att_epoch a) ++ le_number 16 (sov_usd_price a) ++
  match cbe_usd_price a with Some c => 1 :: le_number 16 c | None => [0] end ++
  le_number 8 (att_timestamp a) ++ be_bytes 32 (validator_pubkey a).

Definition signing_digest (a : OraclePriceAttestation) : Z :=
  oracle_blake3 (str_bytes "SOVN_ORACLE_V1" ++ canonical_payload_bytes a).

Definition verify_oracle_signature (a : OraclePriceAttestation) (key : list Z)
    : result unit OracleAttestationValidationError :=
  match oracle_dilithium_verify (be_bytes 32 (signing_digest a)) (att_sig a) key with
  | Some true => Ok tt
  | _ => Err InvalidSignature
  end.

(** ** Epochs and scheduled updates *)

Definition epoch_id (block_timestamp : Z) (s : OracleState) : Z :=
  block_timestamp / Z.max (epoch_duration_secs (config s)) 1.

Definition should_process_epoch (block_timestamp last : Z) (s : OracleState) : bool :=
  epoch_id last s <? epoch_id block_timestamp s.

Definition schedule_committee_update (ms : list Z) (activate_at_epoch current_epoch : Z)
    (source : option Z) (s : OracleState) : result OracleState string :=
  if bool_decide (ms = []) then Err "oracle committee must not be empty"
  else if negb (size (list_to_set ms : gset Z) =? length ms)%nat
  then Err "oracle committee must not contain duplicate members"
  else if activate_at_epoch <=? current_epoch then Err "activate_at_epoch must be > current_epoch"
  else Ok (set_committee {| members := members (committee s); pending_update := Some {|
    cu_activate_at_epoch := activate_at_epoch; cu_members := normalize_members ms;
    cu_scheduled_at_epoch := current_epoch;
    cu_expires_at_epoch := saturating_add 64 activate_at_epoch 2;
    cu_source_proposal_id := source |} |} s).

Definition schedule_config_update (g : OracleConfig) (activate_at_epoch current_epoch : Z)
    (source : option Z) (s : OracleState) : result OracleState OracleConfigError :=
  let? _v := OracleConfig_validate g in
  if activate_at_epoch <=? current_epoch then Err (InvalidField "activate_at_epoch")
  else Ok (set_config (config s) (Some {| gu_activate_at_epoch := activate_at_epoch; gu_config := g;
    gu_scheduled_at_epoch := current_epoch;
    gu_expires_at_epoch := saturating_add 64 activate_at_epoch 2;
    gu_source_proposal_id := source |}) s).

Definition apply_committee_update (current_epoch : Z) (c : OracleCommitteeState)
    : OracleCommitteeState :=
  match pending_update c with
  | None => c
  | Some u =>
      if cu_expires_at_epoch u <=? current_epoch
      then {| members := members c; pending_update := None |}
      else if cu_activate_at_epoch u <=? current_epoch
      then {| members := normalize_members (cu_members u); pending_update := None |}
      else c
  end.

Definition apply_pending_updates (current_epoch : Z) (s : OracleState) : OracleState :=
  let s := set_committee (apply_committee_update current_epoch (committee s)) s in
  match pending_config_update s with
  | None => s
  | Some u =>
      if gu_expires_at_epoch u <=? current_epoch then set_config (config s) None s
      else if gu_activate_at_epoch u <=? current_epoch then set_config (gu_config u) None s
      else s
  end.

(** Returns whether anything was cancelled. *)
Definition cancel_pending_updates (cancel_committee cancel_config : bool) (s : OracleState)
    : OracleState * bool :=
  let c1 := cancel_committee && bool_decide (is_Some (pending_update (committee s))) in
  let s := if c1 then set_committee {| members := members (committee s); pending_update := None |} s
           else s in
  let c2 := cancel_config && bool_decide (is_Some (pending_config_update s)) in
  (if c2 then set_config (config s) None s else s, c1 || c2).

Definition committee_for_epoch (epoch : Z) (s : OracleState) : list Z :=
  match pending_update (committee s) with
  | Some u => if cu_activate_at_epoch u <=? epoch then cu_members u else members (committee s)
  | None => members (committee s)
  end.

(** ** Finalized prices *)

Definition set_winner (sov : Z) (cbe : option Z) (e : OracleEpochState) : OracleEpochState := {|
  winning_price := Some sov; winning_cbe_price := cbe; finalized := true;
  price_signers := price_signers e; cbe_price_signers := cbe_price_signers e;
  signer_prices := signer_prices e; signer_cbe_prices := signer_cbe_prices e |}.

Definition epoch_of (epoch : Z) (s : OracleState) : OracleEpochState :=
  default OracleEpochState_default (epoch_state s !! epoch).

Definition try_finalize_price (f : FinalizedOraclePrice) (s : OracleState) : OracleState * bool :=
  if bool_decide (is_Some (finalized_prices s !! fin_epoch f)) then (s, false)
  else (set_prices (<[fin_epoch f := f]> (finalized_prices s))
          (<[fin_epoch f := set_winner (fin_sov_price f) (fin_cbe_price f) (epoch_of (fin_epoch f) s)]>
             (epoch_state s)) s, true).

(** The entry with the largest key up to [epoch]. *)
Definition latest_up_to (epoch : Z) (m : gmap Z FinalizedOraclePrice) : option (Z * FinalizedOraclePrice) :=
  map_fold (λ k f acc, if k <=? epoch then
    match acc with Some (k', _) => if k' <? k then Some (k, f) else acc | None => Some (k, f) end
    else acc) None m.

Definition latest_fresh_price (current_epoch : Z) (s : OracleState) : option FinalizedOraclePrice :=
  let oldest_acceptable := saturating_sub current_epoch (max_price_staleness_epochs (config s)) in
  match latest_up_to current_epoch (finalized_prices s) with
  | Some (k, f) => if oldest_acceptable <=? k then Some f else None
  | None => None
  end.

(** ** Admission *)

Definition validate_attestation (a : OraclePriceAttestation) (current_epoch : Z)
    (seen_signers : gset Z) (resolve_signing_pubkey : Z → option (list Z)) (s : OracleState)
    : result unit OracleAttestationValidationError :=
  if negb (att_epoch a =? current_epoch) then Err (WrongEpoch current_epoch (att_epoch a))
  else if negb (bool_decide (validator_pubkey a ∈ members (committee s)))
  then Err (NonCommitteeSigner (validator_pubkey a))
  else if bool_decide (validator_pubkey a ∈ seen_signers)
  then Err (DuplicateSigner (validator_pubkey a)) else
  let? key := ok_or (resolve_signing_pubkey (validator_pubkey a))
                (MissingSignerPublicKey (validator_pubkey a)) in
  verify_oracle_signature a key.

Definition map_err {A E F : Type} (f : E → F) (r : result A E) : result A F :=
  match r with Ok a => Ok a | Err e => Err (f e) end.

(** The middle of the sorted values, or the average of the two middle ones. *)
Definition calculate_median (values : list Z) : Z :=
  let sorted := merge_sort Z.le values in
  let len := length sorted in
  if (len =? 0)%nat then 0
  else if (len mod 2 =? 1)%nat then nth (len / 2) sorted 0
  else
    let mid1 := nth (len / 2 - 1) sorted 0 in
    let mid2 := nth (len / 2) sorted 0 in
    let half_sum := wadd 128 (mid1 / 2) (mid2 / 2) in
    let rem_sum := wadd 128 (mid1 mod 2) (mid2 mod 2) in
    wadd 128 half_sum (rem_sum / 2).

Definition deviation_bps (price median : Z) : Z :=
  if 0 <? median then
    let diff := if median <? price then price - median else median - price in
    Z.min (saturating_mul 128 diff 10000 / median) (umax 32)
  else 0.

Definition check_deviation_band (a : OraclePriceAttestation) (e : OracleEpochState) (s : OracleState)
    : result unit OracleAttestationAdmissionError :=
  let existing_prices := (map_to_list (signer_prices e)).*2 in
  if bool_decide (existing_prices = []) then Ok tt else
  let median := calculate_median existing_prices in
  let deviation := deviation_bps (sov_usd_price a) median in
  if max_deviation_bps (config s) <? deviation
  then Err (Validation (DeviationBand (sov_usd_price a) median (max_deviation_bps (config s)) deviation))
  else Ok tt.

(** The answer after finalization at price [winning]; the CBE price is still
    collected. *)
Definition precheck_finalized (a : OraclePriceAttestation) (current_epoch winning : Z)
    (cbe_seen_signers : gset Z) (resolve : Z → option (list Z)) (s : OracleState)
    : result OracleAttestationAdmission OracleAttestationAdmissionError :=
  if winning =? sov_usd_price a then
    match cbe_usd_price a with
    | Some _ =>
        let? _v := map_err Validation (validate_attestation a current_epoch cbe_seen_signers resolve s) in
        Ok Accepted
    | None => Ok (IgnoredAfterFinalization current_epoch winning)
    end
  else Err (ConflictingFinalizedPrice current_epoch winning (sov_usd_price a)).

Definition precheck_attestation (a : OraclePriceAttestation) (current_epoch : Z)
    (resolve : Z → option (list Z)) (s : OracleState)
    : result OracleAttestationAdmission OracleAttestationAdmissionError :=
  if negb (att_epoch a =? current_epoch)
  then Ok (IgnoredOutsideCurrentEpoch current_epoch (att_epoch a)) else
  let e := epoch_of current_epoch s in
  match finalized_prices s !! current_epoch with
  | Some f => precheck_finalized a current_epoch (fin_sov_price f) (dom (signer_cbe_prices e)) resolve s
  | None =>
      if finalized e then
        match winning_price e with
        | Some winning => precheck_finalized a current_epoch winning (dom (signer_cbe_prices e)) resolve s
        | None => Ok (IgnoredAfterFinalization current_epoch (sov_usd_price a))
        end
      else
      match signer_prices e !! validator_pubkey a with
      | Some existing_price =>
          if existing_price =? sov_usd_price a then
            match cbe_usd_price a with
            | Some c =>
                if bool_decide (signer_cbe_prices e !! validator_pubkey a = Some c)
                then Ok (IgnoredDuplicateSigner (validator_pubkey a)) else Ok Accepted
            | None => Ok (IgnoredDuplicateSigner (validator_pubkey a))
            end
          else Err (ConflictingSigner (validator_pubkey a) existing_price (sov_usd_price a))
      | None =>
          let? _v := map_err Validation
            (validate_attestation a current_epoch (dom (signer_prices e)) resolve s) in
          let? _d :=
            match current_version (protocol_config s) with
            | V1StrictSpec => check_deviation_band a e s
            | V0Legacy => Ok tt
            end in
          Ok Accepted
      end
  end.

(** ** Aggregation *)

Definition track_sov (a : OraclePriceAttestation) (e : OracleEpochState) : OracleEpochState :=
  if finalized e then e else {|
    winning_price := winning_price e; winning_cbe_price := winning_cbe_price e;
    finalized := finalized e;
    price_signers := <[sov_usd_price a := {[validator_pubkey a]} ∪
      default ∅ (price_signers e !! sov_usd_price a)]> (price_signers e);
    cbe_price_signers := cbe_price_signers e;
    signer_prices := <[validator_pubkey a := sov_usd_price a]> (signer_prices e);
    signer_cbe_prices := signer_cbe_prices e |}.

(** Returns also whether the CBE price has just won. *)
Definition track_cbe (t : Z) (a : OraclePriceAttestation) (e : OracleEpochState)
    : OracleEpochState * bool :=
  match cbe_usd_price a with
  | None => (e, false)
  | Some c =>
      let signers := {[validator_pubkey a]} ∪ default ∅ (cbe_price_signers e !! c) in
      let won := bool_decide (winning_cbe_price e = None) && (t <=? Z.of_nat (size signers)) in
      ({| winning_price := winning_price e;
          winning_cbe_price := if won then Some c else winning_cbe_price e;
          finalized := finalized e; price_signers := price_signers e;
          cbe_price_signers := <[c := signers]> (cbe_price_signers e);
          signer_prices := signer_prices e;
          signer_cbe_prices := <[validator_pubkey a := c]> (signer_cbe_prices e) |}, won)
  end.

Definition sov_signers (price : Z) (e : OracleEpochState) : gset Z :=
  default ∅ (price_signers e !! price).

Definition set_cbe_price (c : option Z) (f : FinalizedOraclePrice) : FinalizedOraclePrice :=
  match c with
  | Some _ => {| fin_epoch := fin_epoch f; fin_sov_price := fin_sov_price f; fin_cbe_price := c |}
  | None => f
  end.

Definition process_attestation (a : OraclePriceAttestation) (current_epoch : Z)
    (resolve : Z → option (list Z)) (s : OracleState)
    : OracleState * result OracleAttestationAdmission OracleAttestationAdmissionError :=
  match precheck_attestation a current_epoch resolve s with
  | Err x => (s, Err x)
  | Ok Accepted =>
      let t := threshold (committee s) in
      let '(e, cbe_finalized) := track_cbe t a (track_sov a (epoch_of current_epoch s)) in
      if negb (finalized e) && bool_decide (is_Some (price_signers e !! sov_usd_price a)) &&
         (t <=? Z.of_nat (size (sov_signers (sov_usd_price a) e))) then
        let f := {| fin_epoch := current_epoch; fin_sov_price := sov_usd_price a;
                    fin_cbe_price := winning_cbe_price e |} in
        let es := <[current_epoch := set_winner (sov_usd_price a) (winning_cbe_price e) e]> (epoch_state s) in
        match finalized_prices s !! current_epoch with
        | Some x =>
            (set_prices (finalized_prices s) es s,
             if fin_sov_price x =? fin_sov_price f then Ok (Finalized f)
             else Err (ConflictingFinalizedPrice current_epoch (fin_sov_price x) (fin_sov_price f)))
        | None => (set_prices (<[current_epoch := f]> (finalized_prices s)) es s, Ok (Finalized f))
        end
      else
        let fps := if finalized e && cbe_finalized
                   then alter (set_cbe_price (winning_cbe_price e)) current_epoch (finalized_prices s)
                   else finalized_prices s in
        (set_prices fps (<[current_epoch := e]> (epoch_state s)) s, Ok Accepted)
  | Ok x => (s, Ok x)
  end.

(** ** Protocol versions *)

Definition version_number (v : OracleProtocolVersion) : Z :=
  match v with V0Legacy => 0 | V1StrictSpec => 1 end.

Inductive ProtocolScheduleError : Type :=
| InvalidActivationHeight (activate_at_height current_height : Z)
| InsufficientLeadTime (activate_at_height current_height min_lead_blocks : Z)
| DowngradeNotAllowed (current requested : Z) | AlreadyActive | AlreadyScheduled (existing_height : Z).

Definition schedule_activation (target : OracleProtocolVersion) (at_height current_height : Z)
    (source : option Z) (p : OracleProtocolConfig)
    : result OracleProtocolConfig ProtocolScheduleError :=
  if at_height <=? current_height then Err (InvalidActivationHeight at_height current_height)
  else if at_height <? saturating_add 64 current_height 100
  then Err (InsufficientLeadTime at_height current_height 100)
  else if version_number target <? version_number (current_version p)
  then Err (DowngradeNotAllowed (version_number (current_version p)) (version_number target))
  else if bool_decide (target = current_version p) then Err AlreadyActive else
  match pending_activation p with
  | Some u => Err (AlreadyScheduled (activate_at_height u))
  | None => Ok {| current_version := current_version p; pending_activation := Some {|
      activate_at_height := at_height; target_version := target;
      scheduled_at_height := current_height; pa_source_proposal_id := source |};
      activated_at_height := activated_at_height p |}
  end.

Definition cancel_pending_activation (p : OracleProtocolConfig) : OracleProtocolConfig * bool :=
  ({| current_version := current_version p; pending_activation := None;
      activated_at_height := activated_at_height p |},
   bool_decide (is_Some (pending_activation p))).

Definition apply_pending_activation (current_height : Z) (p : OracleProtocolConfig)
    : OracleProtocolConfig * option OracleProtocolVersion :=
  match pending_activation p with
  | Some u =>
      if activate_at_height u <=? current_height
      then ({| current_version := target_version u; pending_activation := None;
               activated_at_height := current_height |}, Some (target_version u))
      else (p, None)
  | None => (p, None)
  end.

(** ** The chain's side *)

Record OracleSlashEvent : Type := {
  slashed_key_id : Z; slash_reason : OracleSlashReason; slash_epoch : Z; slash_amount : Z;
  slashed_at_height : Z; committee_removal_at_epoch : option Z;
}.

(** The fields of [Blockchain] that concern the oracle: the registered validators,
    as consensus keys and stakes in the order they are iterated, the fraction of the
    slashing configuration, the timestamp up to which epochs were processed, and the
    CBE price of the token pricing state with the time of its update. *)
Record OracleChain : Type := {
  oracle : OracleState; validator_registry : list (list Z * Z);
  oracle_banned_validators : gset Z; oracle_slash_events : list OracleSlashEvent;
  slash_fraction_bps : Z; chain_height : Z; last_oracle_epoch_processed : Z;
  pricing_cbe_usd_price : option Z; pricing_last_updated : Z;
}.

Definition set_oracle (s : OracleState) (c : OracleChain) : OracleChain := {|
  oracle := s; validator_registry := validator_registry c;
  oracle_banned_validators := oracle_banned_validators c;
  oracle_slash_events := oracle_slash_events c; slash_fraction_bps := slash_fraction_bps c;
  chain_height := chain_height c; last_oracle_epoch_processed := last_oracle_epoch_processed c;
  pricing_cbe_usd_price := pricing_cbe_usd_price c; pricing_last_updated := pricing_last_updated c |}.

Definition calculate_slash (bps stake : Z) : Z :=
  as_u 64 (saturating_mul 128 stake bps / 10000).

(** The stake of the first validator with this key, reduced, and the amount. *)
Fixpoint slash_registry (bps key_id : Z) (l : list (list Z * Z)) : list (list Z * Z) * Z :=
  match l with
  | [] => ([], 0)
  | (k, stake) :: l' =>
      if oracle_blake3 k =? key_id then
        let amount := calculate_slash bps stake in
        ((k, saturating_sub stake amount) :: l', amount)
      else let '(l'', amount) := slash_registry bps key_id l' in ((k, stake) :: l'', amount)
  end.

Definition slash_oracle_validator_with_options (key_id : Z) (reason : OracleSlashReason) (epoch : Z)
    (aligned_removal : bool) (c : OracleChain) : OracleChain * Z :=
  let '(registry, amount) := slash_registry (slash_fraction_bps c) key_id (validator_registry c) in
  let removal_epoch := saturating_add 64 epoch 1 in
  let s := oracle c in
  let s' := if aligned_removal
            then set_queue (committee_removal_queue s ++ [{| removal_key_id := key_id;
                   remove_at_epoch := removal_epoch; removal_reason := reason |}]) s
            else set_committee (remove_member key_id (committee s)) s in
  ({| oracle := s'; validator_registry := registry;
      oracle_banned_validators := {[key_id]} ∪ oracle_banned_validators c;
      oracle_slash_events := oracle_slash_events c ++ [{| slashed_key_id := key_id;
        slash_reason := reason; slash_epoch := epoch; slash_amount := amount;
        slashed_at_height := chain_height c;
        committee_removal_at_epoch := if aligned_removal then Some removal_epoch else None |}];
      slash_fraction_bps := slash_fraction_bps c; chain_height := chain_height c;
      last_oracle_epoch_processed := last_oracle_epoch_processed c;
      pricing_cbe_usd_price := pricing_cbe_usd_price c; pricing_last_updated := pricing_last_updated c |}, amount).

Definition apply_pending_committee_removals (current_epoch : Z) (s : OracleState) : OracleState :=
  let due := filter (λ x, (remove_at_epoch x <=? current_epoch) = true) (committee_removal_queue s) in
  let remaining := filter (λ x, (remove_at_epoch x <=? current_epoch) = false) (committee_removal_queue s) in
  set_queue remaining
    (set_committee (foldl (λ c x, remove_member (removal_key_id x) c) (committee s) due) s).

Definition init_oracle_committee (ms : list Z) (s : OracleState) : result OracleState string :=
  if negb (bool_decide (members (committee s) = [])) then Err "Oracle committee already initialized"
  else Ok (set_committee {| members := normalize_members ms;
                            pending_update := pending_update (committee s) |} s).

(** What a block with timestamp [t] does at an epoch boundary. *)
Definition process_oracle_epoch (t : Z) (c : OracleChain) : OracleChain :=
  let s := oracle c in
  if should_process_epoch t (last_oracle_epoch_processed c) s then
    let epoch := epoch_id t s in
    let s' := apply_pending_committee_removals epoch (apply_pending_updates epoch s) in
    {| oracle := s'; validator_registry := validator_registry c;
       oracle_banned_validators := oracle_banned_validators c;
       oracle_slash_events := oracle_slash_events c; slash_fraction_bps := slash_fraction_bps c;
       chain_height := chain_height c; last_oracle_epoch_processed := t;
       pricing_cbe_usd_price := pricing_cbe_usd_price c; pricing_last_updated := pricing_last_updated c |}
  else c.

(** The signing key of a committee member: the oracle key, or the consensus key. *)
Definition resolve_key (c : OracleChain) (key_id : Z) : option (list Z) :=
  let registered := snd <$> find (λ x, x.1 =? key_id)
    ((λ v, (oracle_blake3 v.1, v.1)) <$> filter (λ v, v.1 ≠ []) (validator_registry c)) in
  match oracle_signing_pubkeys (oracle c) !! key_id with
  | Some [] | None => registered
  | Some k => Some k
  end.

Definition update_cbe_usd_price (price timestamp : Z) (c : OracleChain) : OracleChain := {|
  oracle := oracle c; validator_registry := validator_registry c;
  oracle_banned_validators := oracle_banned_validators c;
  oracle_slash_events := oracle_slash_events c; slash_fraction_bps := slash_fraction_bps c;
  chain_height := chain_height c; last_oracle_epoch_processed := last_oracle_epoch_processed c;
  pricing_cbe_usd_price := Some price; pricing_last_updated := timestamp |}.

(** Returns whether the epoch was finalized. *)
Definition apply_oracle_attestation (a : OraclePriceAttestation) (block_timestamp : Z)
    (c : OracleChain) : OracleChain * result bool string :=
  let current_epoch := epoch_id block_timestamp (oracle c) in
  match process_attestation a current_epoch (resolve_key c) (oracle c) with
  | (s, Ok (Finalized f)) =>
      (match fin_cbe_price f with
       | Some p => update_cbe_usd_price p block_timestamp (set_oracle s c)
       | None => set_oracle s c
       end, Ok true)
  | (s, Ok _) => (set_oracle s c, Ok false)
  | (s, Err (ConflictingSigner _ _ _)) =>
      ((slash_oracle_validator_with_options (validator_pubkey a) SlashConflictingAttestation
          (att_epoch a) false (set_oracle s c)).1,
       Err "Conflicting attestation detected - validator double-signed")
  | (s, Err _) => (set_oracle s c, Err "Attestation rejected")
  end.

(** The attestation transactions of a block, in order; failures are only logged. *)
Definition process_oracle_attestation_transactions (txs : list OraclePriceAttestation)
    (block_timestamp : Z) (c : OracleChain) : OracleChain :=
  foldl (λ c a, (apply_oracle_attestation a block_timestamp c).1) c txs.

Definition bootstrap_oracle_committee (ms : list (Z * list Z)) (s : OracleState)
    : result OracleState string :=
  if negb (bool_decide (members (committee s) = [])) then Err "Oracle committee already initialized"
  else if bool_decide (ms = []) then Err "Oracle committee members cannot be empty"
  else if negb (size (list_to_set ms.*1 : gset Z) =? length ms)%nat
  then Err "Oracle committee members must not contain duplicates"
  else
    let keys := foldl (λ m x, if bool_decide (x.2 = []) then m else <[x.1 := x.2]> m)
                  (oracle_signing_pubkeys s) ms in
    Ok (set_committee {| members := normalize_members ms.*1;
                         pending_update := pending_update (committee s) |} (set_keys keys s)).

Definition GRADUATION_THRESHOLD_USD : Z := 2724844.

(** The gate on the graduation of the CBE token with this reserve. *)
Definition cbe_graduation_oracle_gate (reserve_sov block_timestamp : Z) (s : OracleState)
    : result unit string :=
  let? fresh := ok_or (latest_fresh_price (epoch_id block_timestamp s) s)
                  "no fresh finalized oracle price available" in
  let? scaled := ok_or (checked_mul 128 reserve_sov (fin_sov_price fresh))
                   "arithmetic overflow in USD value calculation" in
  if scaled / ORACLE_PRICE_SCALE <? GRADUATION_THRESHOLD_USD * 1000000
  then Err "reserve USD value below threshold" else Ok tt.

(** ** Observers and stored state *)

Inductive OracleObserverError : Type := NoFinalizedPrice | StalePrice (epoch max_staleness : Z).

Definition latest_finalized_epoch (s : OracleState) : option Z :=
  map_fold (λ k _ acc, match acc with Some k' => Some (Z.max k k') | None => Some k end) None
    (finalized_prices s).

(** Whole SOV at a price, in whole dollars. *)
Definition reserve_value_usd (reserve_sov price : Z) : Z :=
  saturating_mul 128 (reserve_sov / ORACLE_PRICE_SCALE) price / ORACLE_PRICE_SCALE.

Definition validate_graduation_threshold (reserve_sov threshold_usd : Z) (s : OracleState)
    : result bool OracleObserverError :=
  let? latest_epoch := ok_or (latest_finalized_epoch s) NoFinalizedPrice in
  let? price := ok_or (finalized_prices s !! latest_epoch) NoFinalizedPrice in
  let? _fresh := ok_or (latest_fresh_price latest_epoch s)
                   (StalePrice latest_epoch (max_price_staleness_epochs (config s))) in
  Ok (threshold_usd <=? reserve_value_usd reserve_sov (fin_sov_price price)).

Definition calculate_reserve_value_usd (reserve_sov current_epoch : Z) (s : OracleState)
    : result Z OracleObserverError :=
  let? price := ok_or (latest_fresh_price current_epoch s) NoFinalizedPrice in
  Ok (as_u 64 (reserve_value_usd reserve_sov (fin_sov_price price))).

Definition needs_epoch_tracking_migration (last_timestamp_processed : Z) (s : OracleState) : bool :=
  (epoch_tracking_version s =? 0) && (last_timestamp_processed <? 1000000000).

(** Returns the timestamp that replaces the stored epoch number. *)
Definition migrate_epoch_tracking (last_timestamp_processed : Z) (s : OracleState) : OracleState * Z :=
  if 1 <=? epoch_tracking_version s then (s, last_timestamp_processed)
  else (set_tracking 1 s, saturating_mul 64 last_timestamp_processed (epoch_duration_secs (config s))).

(** ** What the observers see *)

Lemma latest_up_to_spec epoch m :
  match latest_up_to epoch m with
  | Some (k, f) => m !! k = Some f ∧ k <= epoch ∧ ∀ k', is_Some (m !! k') → k' <= epoch → k' <= k
  | None => ∀ k', is_Some (m !! k') → epoch < k'
  end.
Proof.
  unfold latest_up_to. apply (map_fold_weak_ind (λ r m, match r with
    | Some (k, f) => m !! k = Some f ∧ k <= epoch ∧ ∀ k', is_Some (m !! k') → k' <= epoch → k' <= k
    | None => ∀ k', is_Some (m !! k') → epoch < k' end)).
  { intros k'. rewrite lookup_empty. by intros [??]. }
  intros i x m' r Hi IH.
  assert (Hins : ∀ k', is_Some (<[i:=x]> m' !! k') → k' = i ∨ is_Some (m' !! k'))
    by (intros k'; rewrite lookup_insert_is_Some; naive_solver).
  assert (Hother : ∀ k f, m' !! k = Some f → <[i:=x]> m' !! k = Some f)
    by (intros k f Hk; rewrite lookup_insert_ne; congruence).
  destruct (Z.leb_spec i epoch); destruct r as [[k f]|]; [destruct (Z.ltb_spec k i)| | |].
  - split; [by rewrite lookup_insert_eq|]. split; [done|]. intros k' [->|Hk]%Hins ?; [lia|].
    destruct IH as (_ & _ & IH). specialize (IH _ Hk). lia.
  - destruct IH as (Hx1 & Hx2 & IH). split; [by apply Hother|]. split; [done|].
    intros k' [->|Hk]%Hins ?; [lia|]. by apply IH.
  - split; [by rewrite lookup_insert_eq|]. split; [done|]. intros k' [->|Hk]%Hins ?; [lia|].
    specialize (IH _ Hk). lia.
  - destruct IH as (Hx1 & Hx2 & IH). split; [by apply Hother|]. split; [done|].
    intros k' [->|Hk]%Hins ?; [lia|]. by apply IH.
  - intros k' [->|Hk]%Hins; [done|]. by apply IH.
Qed.

(** A fresh price is the newest finalized one up to the current epoch, and no older
    than the allowed number of epochs; there is one whenever the newest qualifies. *)
Lemma latest_fresh_price_spec cur s f :
  0 <= cur → 0 <= max_price_staleness_epochs (config s) →
  latest_fresh_price cur s = Some f ↔
  ∃ k, finalized_prices s !! k = Some f ∧ k <= cur ∧
       Z.max (cur - max_price_staleness_epochs (config s)) 0 <= k ∧
       ∀ k', is_Some (finalized_prices s !! k') → k' <= cur → k' <= k.
Proof.
  intros Hc Hm. unfold latest_fresh_price, saturating_sub.
  pose proof (latest_up_to_spec cur (finalized_prices s)) as Hs.
  destruct (latest_up_to _ _) as [[k g]|].
  - destruct Hs as (Hx1 & Hx2 & Hx3). split.
    + destruct (Z.leb_spec (Z.max (cur - max_price_staleness_epochs (config s)) 0) k); [|done].
      intros [= ->]. by exists k.
    + intros (k' & Hk & Hle & Hst & Hmax).
      assert (k' = k) as -> by (pose proof (Hx3 k' (mk_is_Some _ _ Hk) Hle); pose proof (Hmax k (mk_is_Some _ _ Hx1) Hx2); lia).
      rewrite Hk in Hx1. destruct (Z.leb_spec (Z.max (cur - max_price_staleness_epochs (config s)) 0) k); congruence || lia.
  - split; [done|]. intros (k' & Hk & Hle & _). specialize (Hs k' (mk_is_Some _ _ Hk)). lia.
Qed.

Lemma latest_finalized_epoch_spec s :
  match latest_finalized_epoch s with
  | Some k => is_Some (finalized_prices s !! k) ∧ ∀ k', is_Some (finalized_prices s !! k') → k' <= k
  | None => finalized_prices s = ∅
  end.
Proof.
  unfold latest_finalized_epoch. apply (map_fold_weak_ind (λ r m, match r with
    | Some k => is_Some (m !! k) ∧ ∀ k', is_Some (m !! k') → k' <= k | None => m = ∅ end)); [done|].
  intros i x m [k|] Hi IH.
  - destruct IH as [Hx1 Hx2]. split.
    + rewrite lookup_insert_is_Some. destruct (decide (i = Z.max i k)); [tauto|].
      right. split; [done|]. by replace (Z.max i k) with k by lia.
    + intros k' [<-|[_ Hk]]%lookup_insert_is_Some; [lia|]. specialize (Hx2 _ Hk). lia.
  - rewrite IH. split; [rewrite lookup_insert_is_Some; tauto|].
    intros k' [<-|[_ Hk]]%lookup_insert_is_Some; [lia|]. rewrite lookup_empty in Hk. by destruct Hk.
Qed.

(** The staleness check of the graduation threshold never fails: it compares the
    newest price with its own epoch. *)
Lemma graduation_never_stale reserve_sov threshold_usd s e n :
  (∀ k, is_Some (finalized_prices s !! k) → 0 <= k) →
  0 <= max_price_staleness_epochs (config s) →
  validate_graduation_threshold reserve_sov threshold_usd s ≠ Err (StalePrice e n).
Proof.
  intros Hpos Hm. unfold validate_graduation_threshold.
  pose proof (latest_finalized_epoch_spec s) as Hl.
  destruct (latest_finalized_epoch s) as [k|]; [|done]. destruct Hl as [[f Hf] Hmax]; cbn.
  rewrite Hf; cbn. pose proof (Hpos k (mk_is_Some _ _ Hf)).
  assert (latest_fresh_price k s = Some f) as ->; [|done].
  apply latest_fresh_price_spec; [done..|]. exists k. repeat split; [done|lia..|eauto].
Qed.

(** ** Runs *)

(** What changes the oracle: attestations, epoch boundaries, approved proposals,
    initialisation, penalties, protocol activation, and the registry and height the
    rest of the chain maintains. *)
Inductive OracleOp : Type :=
| OAttest (a : OraclePriceAttestation) (block_timestamp : Z)
| OEpoch (block_timestamp : Z)
| OScheduleCommittee (ms : list Z) (activate_at_epoch current_epoch : Z) (source : option Z)
| OScheduleConfig (g : OracleConfig) (activate_at_epoch current_epoch : Z) (source : option Z)
| OCancel (cancel_committee cancel_config : bool)
| OInit (ms : list Z) | OBootstrap (ms : list (Z * list Z))
| OSlash (key_id : Z) (reason : OracleSlashReason) (epoch : Z) (aligned_removal : bool)
| OScheduleVersion (v : OracleProtocolVersion) (at_height : Z) (source : option Z)
| OActivate (height : Z) | OCancelVersion
| OChain (registry : list (list Z * Z)) (height : Z).

Definition set_chain (registry : list (list Z * Z)) (height : Z) (c : OracleChain) : OracleChain := {|
  oracle := oracle c; validator_registry := registry;
  oracle_banned_validators := oracle_banned_validators c;
  oracle_slash_events := oracle_slash_events c; slash_fraction_bps := slash_fraction_bps c;
  chain_height := height; last_oracle_epoch_processed := last_oracle_epoch_processed c;
  pricing_cbe_usd_price := pricing_cbe_usd_price c; pricing_last_updated := pricing_last_updated c |}.

(** A refused update changes nothing. *)
Definition or_same {E : Type} (r : result OracleState E) (c : OracleChain) : OracleChain :=
  match r with Ok s => set_oracle s c | Err _ => c end.

Definition oracle_step (op : OracleOp) (c : OracleChain) : OracleChain :=
  let s := oracle c in
  match op with
  | OAttest a t => (apply_oracle_attestation a t c).1
  | OEpoch t => process_oracle_epoch t c
  | OScheduleCommittee ms e cur src => or_same (schedule_committee_update ms e cur src s) c
  | OScheduleConfig g e cur src => or_same (schedule_config_update g e cur src s) c
  | OCancel b1 b2 => set_oracle (cancel_pending_updates b1 b2 s).1 c
  | OInit ms => or_same (init_oracle_committee ms s) c
  | OBootstrap ms => or_same (bootstrap_oracle_committee ms s) c
  | OSlash k r e al => (slash_oracle_validator_with_options k r e al c).1
  | OScheduleVersion v h src =>
      match schedule_activation v h (chain_height c) src (protocol_config s) with
      | Ok p => set_oracle (set_protocol p s) c
      | Err _ => c
      end
  | OActivate h => set_oracle (set_protocol (apply_pending_activation h (protocol_config s)).1 s) c
  | OCancelVersion => set_oracle (set_protocol (cancel_pending_activation (protocol_config s)).1 s) c
  | OChain r h => set_chain r h c
  end.

(** An attestation whose signature was checked: with the committee of that moment
    and the key it was checked with. *)
Record VerifiedAttestation : Type := {
  v_att : OraclePriceAttestation; v_members : list Z; v_key : list Z;
}.

Definition verified_by (op : OracleOp) (c : OracleChain) : list VerifiedAttestation :=
  match op with
  | OAttest a _ =>
      match resolve_key c (validator_pubkey a) with
      | Some key =>
          if bool_decide (validator_pubkey a ∈ members (committee (oracle c))) &&
             match verify_oracle_signature a key with Ok _ => true | Err _ => false end
          then [{| v_att := a; v_members := members (committee (oracle c)); v_key := key |}] else []
      | None => []
      end
  | _ => []
  end.

(** The runs of a fresh oracle, with the attestations verified on the way. *)
Inductive oracle_reach : list VerifiedAttestation → OracleChain → Prop :=
| reach_start c : oracle c = OracleState_default → oracle_reach [] c
| reach_step log c op : oracle_reach log c →
    oracle_reach (verified_by op c ++ log) (oracle_step op c).

(** Committee member [k] signed price [p] for epoch [e]. *)
Definition backed (log : list VerifiedAttestation) (e p k : Z) : Prop :=
  ∃ v, v ∈ log ∧ validator_pubkey (v_att v) = k ∧ att_epoch (v_att v) = e ∧
       sov_usd_price (v_att v) = p ∧ k ∈ v_members v ∧
       verify_oracle_signature (v_att v) (v_key v) = Ok tt.

(** Signers recorded for an epoch are backed and stand at one price. *)
Definition epoch_ok (log : list VerifiedAttestation) (e : Z) (es : OracleEpochState) : Prop :=
  (∀ k p, signer_prices es !! k = Some p → backed log e p k) ∧
  (∀ p k, k ∈ sov_signers p es → signer_prices es !! k = Some p).

(** The finalized price is the winner of the epoch. *)
Definition price_ok (e : Z) (es : OracleEpochState) (f : option FinalizedOraclePrice) : Prop :=
  match f with
  | Some f => finalized es = true ∧ winning_price es = Some (fin_sov_price f) ∧
              winning_cbe_price es = fin_cbe_price f ∧ fin_epoch f = e
  | None => finalized es = false
  end.

Definition oracle_ok (log : list VerifiedAttestation) (s : OracleState) : Prop :=
  ∀ e, epoch_ok log e (epoch_of e s) ∧ price_ok e (epoch_of e s) (finalized_prices s !! e).

(** [f'] keeps the prices of [f]. *)
Definition keeps_price (f f' : FinalizedOraclePrice) : Prop :=
  fin_sov_price f' = fin_sov_price f ∧
  (∀ p, fin_cbe_price f = Some p → fin_cbe_price f' = Some p).

Lemma backed_app log log' e p k : backed log e p k → backed (log' ++ log) e p k.
Proof. intros (v & Hv & H'). exists v. split; [set_solver | exact H']. Qed.

Lemma epoch_ok_app log log' e es : epoch_ok log e es → epoch_ok (log' ++ log) e es.
Proof. intros [H1 H2]. split; eauto using backed_app. Qed.

Lemma epoch_of_insert e e' es f s :
  epoch_of e (set_prices f (<[e' := es]> (epoch_state s)) s) =
  if decide (e = e') then es else epoch_of e s.
Proof.
  unfold epoch_of; cbn. case_decide; subst; [by rewrite lookup_insert_eq|].
  by rewrite lookup_insert_ne by congruence.
Qed.

(** What acceptance means, given the invariant. *)
Lemma precheck_accepted log a cur R s :
  oracle_ok log s → precheck_attestation a cur R s = Ok Accepted →
  att_epoch a = cur ∧
  match finalized_prices s !! cur with
  | Some f => fin_sov_price f = sov_usd_price a
  | None => signer_prices (epoch_of cur s) !! validator_pubkey a = Some (sov_usd_price a) ∨
            (signer_prices (epoch_of cur s) !! validator_pubkey a = None ∧
             validator_pubkey a ∈ members (committee s) ∧
             ∃ key, R (validator_pubkey a) = Some key ∧ verify_oracle_signature a key = Ok tt)
  end.
Proof.
  intros Hok. specialize (Hok cur) as [_ Hp]. unfold precheck_attestation, precheck_finalized.
  destruct (Z.eqb_spec (att_epoch a) cur) as [Hc|]; cbn [negb]; [|discriminate].
  destruct (finalized_prices s !! cur) as [f|] eqn:Ef; intros Hpre; (split; [exact Hc|]).
  - destruct (Z.eqb_spec (fin_sov_price f) (sov_usd_price a)); [done|discriminate].
  - cbn in Hp. rewrite Hp in Hpre.
    destruct (signer_prices _ !! _) as [p|] eqn:Es.
    + left. destruct (Z.eqb_spec p (sov_usd_price a)); [by subst|discriminate].
    + right. split; [done|]. unfold validate_attestation in Hpre.
      destruct (negb _); [discriminate|].
      case_bool_decide; cbn [negb] in Hpre; [|discriminate].
      split; [done|]. case_bool_decide; [discriminate|].
      destruct (R (validator_pubkey a)) as [key|] eqn:Er; [|discriminate].
      exists key. split; [done|]. cbn in Hpre.
      destruct (verify_oracle_signature a key) as [[]|] eqn:Ev; [done|discriminate].
Qed.

Lemma track_sov_ok log a e es :
  epoch_ok log e es → backed log e (sov_usd_price a) (validator_pubkey a) →
  (∀ p, signer_prices es !! validator_pubkey a = Some p → p = sov_usd_price a) →
  epoch_ok log e (track_sov a es).
Proof.
  intros [H1 H2] Hb Hone. unfold track_sov. destruct (finalized es); [by split|].
  unfold epoch_ok, sov_signers in *; cbn. split.
  - intros k p. rewrite lookup_insert_Some. naive_solver.
  - intros p k. destruct (decide (p = sov_usd_price a)) as [->|Hne].
    + rewrite lookup_insert_eq; cbn. rewrite elem_of_union, elem_of_singleton.
      intros [->|Hk]; [by rewrite lookup_insert_eq|].
      apply H2 in Hk. destruct (decide (k = validator_pubkey a)) as [->|].
      * by rewrite lookup_insert_eq.
      * by rewrite lookup_insert_ne by congruence.
    + rewrite lookup_insert_ne by congruence. intros Hk. apply H2 in Hk.
      rewrite lookup_insert_ne; [done|]. intros <-. by apply Hone in Hk.
Qed.

(** The fields of an epoch that concern the SOV price. *)
Definition sov_fields (es : OracleEpochState) :=
  (winning_price es, finalized es, price_signers es, signer_prices es).

Lemma track_cbe_spec t a es es' won :
  track_cbe t a es = (es', won) →
  sov_fields es' = sov_fields es ∧
  (won = false ∧ winning_cbe_price es' = winning_cbe_price es ∨
   won = true ∧ winning_cbe_price es = None).
Proof.
  unfold track_cbe. destruct (cbe_usd_price a); [|intros [= <- <-]; eauto].
  intros [= <- <-]. split; [done|]. cbn. case_bool_decide; cbn; [|eauto].
  destruct (t <=? _); eauto.
Qed.

Lemma epoch_ok_fields log e es es' :
  sov_fields es' = sov_fields es → epoch_ok log e es → epoch_ok log e es'.
Proof.
  intros [= _ _ Hs Hp] [H1 H2]. unfold epoch_ok, sov_signers in *. by rewrite Hs, Hp.
Qed.

Lemma track_sov_winner a es :
  winning_price (track_sov a es) = winning_price es ∧
  winning_cbe_price (track_sov a es) = winning_cbe_price es ∧
  finalized (track_sov a es) = finalized es.
Proof. unfold track_sov. destruct (finalized es) eqn:E; by rewrite ?E. Qed.

(** One attestation: the invariant is kept, finalized prices stay, and a price that
    becomes final has the threshold of recorded signers. *)
Definition attestation_effect (log : list VerifiedAttestation) (t : Z) (s s' : OracleState) : Prop :=
  oracle_ok log s' ∧ ∀ e,
  match finalized_prices s !! e with
  | Some f => ∃ f', finalized_prices s' !! e = Some f' ∧ keeps_price f f'
  | None => ∀ f', finalized_prices s' !! e = Some f' →
      t <= Z.of_nat (size (sov_signers (fin_sov_price f') (epoch_of e s')))
  end.

Lemma effect_refl log t s : oracle_ok log s → attestation_effect log t s s.
Proof.
  intros Hok. split; [done|]. intros e. destruct (finalized_prices s !! e) eqn:E; [|naive_solver].
  eexists; split; [done|]. by split.
Qed.

(** It is enough to look at the epoch that is written. *)
Lemma effect_update log t s e es fs :
  oracle_ok log s → epoch_ok log e es → price_ok e es (fs !! e) →
  (∀ e', e' ≠ e → fs !! e' = finalized_prices s !! e') →
  match finalized_prices s !! e with
  | Some f => ∃ f', fs !! e = Some f' ∧ keeps_price f f'
  | None => ∀ f', fs !! e = Some f' → t <= Z.of_nat (size (sov_signers (fin_sov_price f') es))
  end →
  attestation_effect log t s (set_prices fs (<[e := es]> (epoch_state s)) s).
Proof.
  intros Hok He Hp Hoth Hfin. split.
  - intros e'. rewrite epoch_of_insert. cbn. case_decide as Hd; [subst; by split|].
    rewrite Hoth by done. apply Hok.
  - intros e'. rewrite epoch_of_insert. cbn. case_decide as Hd; [by subst|].
    rewrite Hoth by done. destruct (finalized_prices s !! e') as [f|]; [|naive_solver].
    exists f. by split.
Qed.

Lemma process_effect log a cur R s :
  oracle_ok log s →
  (validator_pubkey a ∈ members (committee s) → ∀ key, R (validator_pubkey a) = Some key →
     verify_oracle_signature a key = Ok tt →
     backed log (att_epoch a) (sov_usd_price a) (validator_pubkey a)) →
  attestation_effect log (threshold (committee s)) s (process_attestation a cur R s).1.
Proof.
  intros Hok Hver. unfold process_attestation.
  destruct (precheck_attestation a cur R s) as [[]|] eqn:Epre; try by apply effect_refl.
  destruct (precheck_accepted _ _ _ _ _ Hok Epre) as [<- Hacc].
  destruct (track_cbe _ a _) as [es won] eqn:Et.
  destruct (track_cbe_spec _ _ _ _ _ Et) as [Hf Hc].
  destruct (track_sov_winner a (epoch_of (att_epoch a) s)) as (Hw1 & Hw2 & Hw3).
  pose proof (Hok (att_epoch a)) as [He Hp].
  assert (Hes : epoch_ok log (att_epoch a) es).
  { apply (epoch_ok_fields _ _ _ _ Hf). destruct (finalized_prices s !! _) as [f|] eqn:Ef.
    - destruct Hp as [Hfin _]. unfold track_sov. by rewrite Hfin.
    - apply track_sov_ok; [done| |].
      + destruct Hacc as [Hs|(_ & Hm & key & Hk & Hv)]; [by apply He|by eapply Hver].
      + intros p Hs. destruct Hacc as [Hs'|[Hs' _]]; congruence. }
  pose proof Hf as Hf'. injection Hf' as Hwp Hfin _ _.
  rewrite Hw1 in Hwp. rewrite Hw3 in Hfin. rewrite Hw2 in Hc.
  destruct (finalized_prices s !! att_epoch a) as [f|] eqn:Ef.
  - destruct Hp as (Hp1 & Hp2 & Hp3 & Hp4). rewrite Hfin, Hp1; cbn [negb andb fst].
    apply effect_update; try done; rewrite ?Ef.
    + destruct Hc as [[-> Hc]|[-> Hc]]; [rewrite Ef; cbn; naive_solver congruence|].
      rewrite lookup_alter_eq, Ef; cbn. rewrite Hfin, Hwp. unfold set_cbe_price.
      destruct (winning_cbe_price es) eqn:Ew; cbn; rewrite ?Ew; naive_solver congruence.
    + intros e' Hne. destruct won; [|done]. by rewrite lookup_alter_ne by congruence.
    + destruct Hc as [[-> Hc]|[-> Hc]]; [exists f; by repeat split|].
      rewrite lookup_alter_eq, Ef; cbn. eexists; split; [done|]. unfold set_cbe_price.
      destruct (winning_cbe_price es); split; cbn; congruence.
  - cbn in Hp. rewrite Hfin, Hp; cbn [negb andb].
    case_bool_decide; cbn [andb]; [destruct (Z.leb_spec (threshold (committee s))
      (Z.of_nat (size (sov_signers (sov_usd_price a) es)))) as [Hle|]|]; cbn [fst].
    + apply effect_update; try done; rewrite ?Ef, ?lookup_insert_eq; cbn.
      * done.
      * intros e' Hne. by rewrite lookup_insert_ne by congruence.
      * intros f' [= <-]. done.
    + apply effect_update; rewrite ?Ef; cbn; try done; congruence.
    + apply effect_update; rewrite ?Ef; cbn; try done; congruence.
Qed.

Definition prices_of (s : OracleState) := (finalized_prices s, epoch_state s).

Lemma effect_frame log t s s' s'' :
  prices_of s' = prices_of s'' → attestation_effect log t s s'' → attestation_effect log t s s'.
Proof.
  intros [= Hf He] [Hok Hfin]. unfold attestation_effect, oracle_ok, epoch_of in *.
  rewrite Hf, He. by split.
Qed.

Lemma slash_frame k r e al c :
  prices_of (oracle (slash_oracle_validator_with_options k r e al c).1) = prices_of (oracle c).
Proof.
  unfold slash_oracle_validator_with_options. destruct (slash_registry _ _ _). by destruct al.
Qed.

Lemma apply_attestation_frame a t c :
  prices_of (oracle (apply_oracle_attestation a t c).1) =
  prices_of (process_attestation a (epoch_id t (oracle c)) (resolve_key c) (oracle c)).1.
Proof.
  unfold apply_oracle_attestation.
  destruct (process_attestation _ _ _ _) as [s [[]|[]]]; cbn [fst]; rewrite ?slash_frame; try done.
  by destruct (fin_cbe_price f).
Qed.

Lemma updates_frame e s : prices_of (apply_pending_updates e s) = prices_of s.
Proof. unfold apply_pending_updates. by repeat case_match. Qed.

(** Only attestations touch prices. *)
Lemma step_frame op c :
  (∀ a t, op ≠ OAttest a t) → prices_of (oracle (oracle_step op c)) = prices_of (oracle c).
Proof.
  intros Hop. destruct op; cbn [oracle_step]; try done.
  - by destruct (Hop a block_timestamp).
  - unfold process_oracle_epoch. destruct (should_process_epoch _ _ _); [|done].
    exact (updates_frame _ _).
  - unfold schedule_committee_update. by repeat case_match.
  - unfold schedule_config_update. by destruct (OracleConfig_validate g); cbn; [case_match|].
  - unfold cancel_pending_updates; cbn. by repeat case_match.
  - unfold init_oracle_committee. by case_match.
  - unfold bootstrap_oracle_committee. by repeat case_match.
  - apply slash_frame.
  - by case_match.
Qed.

Lemma step_effect log op c :
  oracle_ok log (oracle c) →
  attestation_effect (verified_by op c ++ log) (threshold (committee (oracle c)))
    (oracle c) (oracle (oracle_step op c)).
Proof.
  intros Hok.
  assert (Hok' : oracle_ok (verified_by op c ++ log) (oracle c)).
  { intros e. destruct (Hok e). split; [by apply epoch_ok_app|done]. }
  destruct op as [a t| | | | | | | | | | |];
    try (eapply effect_frame; [by apply step_frame | by apply effect_refl]).
  eapply effect_frame; [apply apply_attestation_frame|]. apply process_effect; [done|].
  intros Hm key Hk Hv. unfold verified_by.
  rewrite Hk, bool_decide_eq_true_2, Hv by done; cbn.
  eexists; split; [apply elem_of_cons; by left|]. done.
Qed.

Lemma oracle_reach_ok log c : oracle_reach log c → oracle_ok log (oracle c).
Proof.
  induction 1 as [c Hc|log c op _ IH].
  - rewrite Hc. intros e. unfold epoch_of, epoch_ok, sov_signers; cbn. rewrite !lookup_empty; cbn.
    split; [split|done]; intros ??; rewrite lookup_empty; set_solver.
  - apply (step_effect _ _ _ IH).
Qed.


(** C15: a finalized price is final: no sequence of attestations, epoch changes,
    governance updates, penalties or protocol upgrades changes the SOV price of a
    finalized epoch, nor its CBE price once it has one. *)
Theorem oracle_price_final log c ops e f :
  oracle_reach log c → finalized_prices (oracle c) !! e = Some f →
  ∃ f', finalized_prices (oracle (foldl (λ c op, oracle_step op c) c ops)) !! e = Some f' ∧
        fin_sov_price f' = fin_sov_price f ∧
        (∀ p, fin_cbe_price f = Some p → fin_cbe_price f' = Some p).
Proof.
  revert log c f. induction ops as [|op ops IH]; intros log c f Hr Hf; cbn; [by exists f|].
  destruct (step_effect log op c (oracle_reach_ok _ _ Hr)) as [_ Heff].
  specialize (Heff e). rewrite Hf in Heff. destruct Heff as (f1 & Hf1 & Hs1 & Hc1).
  destruct (IH _ _ f1 (reach_step _ _ op Hr) Hf1) as (f2 & Hf2 & Hs2 & Hc2).
  exists f2. split; [done|]. split; [congruence|]. eauto.
Qed.

(** An attestation that contradicts the price already recorded for its signer is
    answered with a penalty before its signature is looked at: whatever the
    signature, the named validator is banned, loses its seat and its stake is cut,
    as long as the epoch is not final. *)
Theorem conflict_needs_no_signature a t c p :
  att_epoch a = epoch_id t (oracle c) →
  finalized_prices (oracle c) !! att_epoch a = None →
  finalized (epoch_of (att_epoch a) (oracle c)) = false →
  signer_prices (epoch_of (att_epoch a) (oracle c)) !! validator_pubkey a = Some p →
  p ≠ sov_usd_price a →
  let c' := (apply_oracle_attestation a t c).1 in
  validator_pubkey a ∈ oracle_banned_validators c' ∧
  validator_pubkey a ∉ members (committee (oracle c')) ∧
  validator_registry c' =
    (slash_registry (slash_fraction_bps c) (validator_pubkey a) (validator_registry c)).1.
Proof.
  intros He Hf Hn Hs Hp. cbn zeta. unfold apply_oracle_attestation, process_attestation, precheck_attestation.
  rewrite <- He, Z.eqb_refl, Hf, Hn, Hs, (proj2 (Z.eqb_neq _ _) Hp); cbn.
  unfold slash_oracle_validator_with_options; cbn.
  destruct (slash_registry _ _ _); cbn. split; [set_solver|]. split; [|done].
  rewrite list_elem_of_filter. tauto.
Qed.

(** A CBE price in the name of a validator whose SOV price is recorded is accepted
    without a look at the signature too. *)
Lemma cbe_needs_no_signature a R s x :
  finalized_prices s !! att_epoch a = None → finalized (epoch_of (att_epoch a) s) = false →
  signer_prices (epoch_of (att_epoch a) s) !! validator_pubkey a = Some (sov_usd_price a) →
  cbe_usd_price a = Some x →
  signer_cbe_prices (epoch_of (att_epoch a) s) !! validator_pubkey a ≠ Some x →
  precheck_attestation a (att_epoch a) R s = Ok Accepted.
Proof.
  intros Hf Hn Hs Hc Hd. unfold precheck_attestation.
  by rewrite Z.eqb_refl, Hf, Hn, Hs, Z.eqb_refl, Hc, bool_decide_eq_false_2.
Qed.
End Oracle.

(** ** The median *)

Definition in_range (lo hi v : Z) : Prop := lo <= v <= hi.

#[export] Instance in_range_dec lo hi v : Decision (in_range lo hi v).
Proof. unfold in_range. apply _. Defined.

Lemma filter_none {A} (P : A → Prop) `{∀ x, Decision (P x)} l :
  Forall (λ x, ¬ P x) l → filter P l = [].
Proof. induction 1 as [|x l Hx _ IH]; [done|]. by rewrite filter_cons_False. Qed.

(** In a sorted list mostly within a range, the middle is within it. *)
Lemma sorted_middle S lo hi i :
  StronglySorted Z.le S → (i < length S)%nat →
  (length S < 2 * length (filter (in_range lo hi) S))%nat →
  (2 * i <= length S <= 2 * i + 2)%nat → in_range lo hi (nth i S 0).
Proof.
  intros Hs Hi Hmaj Hmid. destruct (nth_split S 0 Hi) as (l1 & l2 & HS & Hl).
  set (x := nth i S 0) in *. rewrite HS in Hs, Hmaj, Hmid. clearbody x.
  rewrite filter_app, filter_cons, !length_app in Hmaj. cbn [length] in *.
  rewrite length_app in Hmid. cbn in Hmid.
  pose proof (length_filter (in_range lo hi) l1). pose proof (length_filter (in_range lo hi) l2).
  destruct (decide (in_range lo hi x)) as [|Hx]; [done|exfalso].
  destruct (decide (x < lo)) as [Hlt|Hge].
  - rewrite (filter_none (in_range lo hi) l1) in Hmaj; [cbn in Hmaj; lia|].
    apply Forall_forall. intros y Hy. unfold in_range.
    pose proof (StronglySorted_app_1_elem_of _ _ _ y x Hs Hy ltac:(by left)). lia.
  - rewrite (filter_none (in_range lo hi) l2) in Hmaj; [cbn in Hmaj; lia|].
    apply Forall_forall. intros y Hy. unfold in_range in *.
    apply StronglySorted_app_1_r, StronglySorted_inv in Hs as [_ Hs].
    rewrite Forall_forall in Hs. specialize (Hs y Hy). lia.
Qed.

(** The average of two u128 values does not overflow and lies between them. *)
Lemma average_between a b :
  0 <= a < 2 ^ 128 → 0 <= b < 2 ^ 128 →
  wadd 128 (wadd 128 (a / 2) (b / 2)) (wadd 128 (a mod 2) (b mod 2) / 2) = (a + b) / 2.
Proof.
  intros Ha Hb. change (2 ^ 128) with 340282366920938463463374607431768211456 in *.
  assert (Hu : umax 128 = 340282366920938463463374607431768211455) by reflexivity.
  pose proof (Z.div_mod a 2). pose proof (Z.div_mod b 2).
  pose proof (Z.mod_pos_bound a 2). pose proof (Z.mod_pos_bound b 2).
  rewrite (wadd_small 128 (a / 2) (b / 2)), (wadd_small 128 (a mod 2) (b mod 2)) by lia.
  pose proof (Z.div_mod (a mod 2 + b mod 2) 2).
  pose proof (Z.mod_pos_bound (a mod 2 + b mod 2) 2).
  rewrite wadd_small by lia. pose proof (Z.div_mod (a + b) 2).
  pose proof (Z.mod_pos_bound (a + b) 2). lia.
Qed.

(** If more than half of the attested prices lie in a range, so does the median
    the deviation check compares with: a minority of the signers cannot move it
    out of what the majority attests, and the average of two u128 prices does not
    overflow. *)
Theorem median_within_majority values lo hi :
  Forall (λ v, 0 <= v < 2 ^ 128) values →
  (length values < 2 * length (filter (in_range lo hi) values))%nat →
  in_range lo hi (calculate_median values).
Proof.
  intros Hb Hmaj. unfold calculate_median. cbn zeta.
  pose proof (merge_sort_Permutation Z.le values) as Hp.
  assert (Hs : StronglySorted Z.le (merge_sort Z.le values)) by (apply StronglySorted_merge_sort; apply _).
  rewrite <- Hp in Hb. rewrite <- Hp in Hmaj. clear Hp.
  set (l := merge_sort Z.le values) in *. clearbody l. clear values.
  pose proof (length_filter (in_range lo hi) l) as Hlen.
  destruct (Nat.eqb_spec (length l) 0) as [|Hne]; [lia|].
  pose proof (Nat.div_mod_eq (length l) 2) as Hdm. pose proof (Nat.mod_upper_bound (length l) 2).
  destruct (Nat.eqb_spec (length l mod 2) 1) as [Ho|Ho]; [apply sorted_middle; lia || done|].
  assert (Hin : ∀ i, (i < length l)%nat → 0 <= nth i l 0 < 2 ^ 128).
  { intros i Hi. eapply (proj1 (Forall_forall _ _) Hb), list_elem_of_In, nth_In, Hi. }
  rewrite average_between by (apply Hin; lia).
  assert (H1 : in_range lo hi (nth (length l / 2 - 1) l 0)) by (apply sorted_middle; lia || done).
  assert (H2 : in_range lo hi (nth (length l / 2) l 0)) by (apply sorted_middle; lia || done).
  unfold in_range in *. Z.to_euclidean_division_equations; lia.
Qed.

(** ** A committee of four *)
Module OracleDemo.

(** A signature is valid if it repeats the key. *)
Definition env : OracleEnv := {|
  oracle_blake3 := sumZ; oracle_dilithium_verify := λ _ sig key, Some (bool_decide (sig = key)) |}.
#[local] Existing Instance env.

Definition start : OracleChain := {|
  oracle := OracleState_default; validator_registry := [([1], 1000); ([2], 1000); ([3], 1000); ([4], 1000)];
  oracle_banned_validators := ∅; oracle_slash_events := []; slash_fraction_bps := 100;
  chain_height := 7; last_oracle_epoch_processed := 0; pricing_cbe_usd_price := None;
  pricing_last_updated := 0 |}.

Definition attest (k price : Z) (sig : list Z) : OraclePriceAttestation := {|
  att_epoch := 2; sov_usd_price := price; cbe_usd_price := None; att_timestamp := 610;
  validator_pubkey := k; att_sig := sig |}.

Definition boot : OracleChain :=
  oracle_step (OBootstrap [(1, [11]); (2, [12]); (3, [13]); (4, [14])]) start.
Definition one : OracleChain := oracle_step (OAttest (attest 1 250 [11]) 620) boot.
Definition two : OracleChain := oracle_step (OAttest (attest 2 250 [12]) 620) one.
Definition last : OracleOp := OAttest (attest 3 250 [13]) 620.

Lemma two_reached : ∃ log, oracle_reach log two.
Proof. eexists. unfold two, one, boot. do 3 apply reach_step. by apply reach_start. Qed.


(** A later attestation of another price, a penalty and an upgrade do not move it. *)
Definition later : list OracleOp :=
  [OAttest (attest 4 900 [14]) 630; OSlash 2 SlashDeviationBand 2 true; OEpoch 1000].

Lemma oracle_price_final_witness :
  ∃ f, finalized_prices (oracle (foldl (λ c op, oracle_step op c) (oracle_step last two) later)) !! 2
    = Some f ∧ fin_sov_price f = 250.
Proof.
  destruct two_reached as [log Hr].
  destruct (oracle_price_final _ (oracle_step last two) later 2
    {| fin_epoch := 2; fin_sov_price := 250; fin_cbe_price := None |} (reach_step log two last Hr)
    ltac:(vm_compute; reflexivity)) as (f & Hf & Hs & _).
  exists f. by split.
Defined.

(** Nobody signed this attestation, and validator 1 loses seat and stake. *)
Definition forged : OraclePriceAttestation := attest 1 300 [].

Lemma conflict_needs_no_signature_witness :
  verify_oracle_signature forged [11] = Err InvalidSignature ∧
  1 ∈ members (committee (oracle one)) ∧
  1 ∉ members (committee (oracle (apply_oracle_attestation forged 640 one).1)) ∧
  validator_registry (apply_oracle_attestation forged 640 one).1 =
    [([1], 990); ([2], 1000); ([3], 1000); ([4], 1000)].
Proof.
  destruct (conflict_needs_no_signature forged 640 one 250 ltac:(vm_compute; reflexivity)
    ltac:(vm_compute; reflexivity) ltac:(vm_compute; reflexivity) ltac:(vm_compute; reflexivity)
    ltac:(cbn; lia)) as (_ & Hm & Hr).
  split; [vm_compute; reflexivity|].
  split; [apply (bool_decide_unpack _); vm_compute; exact I|]. split; [exact Hm|].
  rewrite Hr. vm_compute; reflexivity.
Defined.

(** Two outliers among five. *)
Lemma median_within_majority_witness : in_range 99 103 (calculate_median [100; 5; 103; 2000000; 99]).
Proof.
  apply median_within_majority; [repeat constructor; lia|].
  apply Nat.ltb_lt. vm_compute. reflexivity.
Defined.

(** A committee update brings a banned validator back. *)
Example banned_member_returns :
  let c := oracle_step (OSlash 1 SlashConflictingAttestation 2 false) one in
  let c' := oracle_step (OEpoch 900)
              (oracle_step (OScheduleCommittee [1; 2; 3] 3 2 None) c) in
  members (committee (oracle c)) = [2; 3; 4] ∧ members (committee (oracle c')) = [1; 2; 3] ∧
  bool_decide (1 ∈ oracle_banned_validators c') = true.
Proof. vm_compute. done. Qed.

(** Longer epochs lower the epoch number: the price of the old epoch 2 then counts as
    that of the new epoch 2, three hundred seconds and more after its end, and an
    attestation of the new price is refused. *)
Definition long_config : OracleConfig := {|
  epoch_duration_secs := 600; max_source_age_secs := 60; max_deviation_bps := 500;
  max_price_staleness_epochs := 2; price_scale := ORACLE_PRICE_SCALE |}.

Definition longer : OracleChain :=
  oracle_step (OEpoch 1200) (oracle_step (OScheduleConfig long_config 3 2 None) (oracle_step last two)).

Example longer_epochs_reuse_prices :
  epoch_id 1300 (oracle longer) = 2 ∧
  (latest_fresh_price 2 (oracle longer)) =
    Some {| fin_epoch := 2; fin_sov_price := 250; fin_cbe_price := None |} ∧
  (process_attestation (attest 1 400 [11]) 2 (resolve_key longer) (oracle longer)).2 =
    Err (ConflictingFinalizedPrice 2 250 400).
Proof. vm_compute. done. Qed.

End OracleDemo.
