(* ===== verification/Swap.v ===== *)
(** * The SOV swap pool and its liquidity positions (lib-blockchain)

    [SovSwapPool] of [contracts/sov_swap/core.rs], a constant-product market
    between SOV and one DAO token, with its swaps, simulations, fees and
    governance, and [LpPositionsManager] of [contracts/sov_swap/lp_positions.rs],
    with the shares of liquidity providers and their rewards.  Operations of the
    pool are programs on its state, since a swap can fail after it has changed it.
    Blake3 is a parameter. *)
From stdpp Require Import base tactics numbers list option gmap fin_maps strings.
From S2P Require Import Prelude TokenCore Codec Memo Curve.

(** ** The pool *)

Inductive DAOType : Type := NP | FP.

Record SwapResult : Type := {
  res_amount_in : Z; res_amount_out : Z; res_fee_amount : Z; res_new_sov_reserve : Z;
  res_new_token_reserve : Z;
}.

Record SimulationResult : Type := {
  sim_amount_out : Z; sim_fee_amount : Z; price_impact_bps : Z;
}.

Inductive SwapError : Type :=
| PoolNotInitialized | PoolAlreadyInitialized | ZeroInputAmount | ZeroOutputAmount
| InsufficientLiquidity | SwapInsufficientBalance | SlippageExceeded | DirectNpFpSwapBlocked
| GovernanceOnly | FeeTooHigh | InsufficientInitialLiquidity | SwapOverflow | InvalidTokenAddress
| KInvariantViolation.

Record SovSwapPool : Type := {
  pool_id : Z; token_id : Z; dao_type : DAOType; governance_addr : PublicKey;
  treasury_addr : PublicKey; initialized : bool;
  sov_reserve : Z; token_reserve : Z; (* u64 *)
  pool_k : Z;                         (* u128 *)
  fee_bps : Z;                        (* u16 *)
  pending_sov_fees : Z; pending_token_fees : Z; (* u64 *)
}.

Definition DEFAULT_FEE_BPS : Z := 100.
Definition MAX_FEE_BPS : Z := 1000.
Definition MINIMUM_LIQUIDITY : Z := 1000.

Notation SwapM := (M SovSwapPool SwapError) (only parsing).

Definition set_reserves (sov token k : Z) (p : SovSwapPool) : SovSwapPool := {|
  pool_id := pool_id p; token_id := token_id p; dao_type := dao_type p;
  governance_addr := governance_addr p; treasury_addr := treasury_addr p;
  initialized := initialized p; sov_reserve := sov; token_reserve := token; pool_k := k;
  fee_bps := fee_bps p; pending_sov_fees := pending_sov_fees p;
  pending_token_fees := pending_token_fees p |}.

Definition set_fees (bps sov token : Z) (p : SovSwapPool) : SovSwapPool := {|
  pool_id := pool_id p; token_id := token_id p; dao_type := dao_type p;
  governance_addr := governance_addr p; treasury_addr := treasury_addr p;
  initialized := initialized p; sov_reserve := sov_reserve p; token_reserve := token_reserve p;
  pool_k := pool_k p; fee_bps := bps; pending_sov_fees := sov; pending_token_fees := token |}.

Section Pool.
Context (blake3 : list Z → Z).

Definition derive_pool_id (token : Z) : Z :=
  blake3 (str_bytes "SOV_SWAP_POOL_V1" ++ be_bytes 32 token).

Definition init_pool (token : Z) (d : DAOType) (initial_sov initial_token : Z)
    (governance treasury : PublicKey) : result SovSwapPool SwapError :=
  if (initial_sov <? MINIMUM_LIQUIDITY) || (initial_token <? MINIMUM_LIQUIDITY)
  then Err InsufficientInitialLiquidity
  else if dilithium_pk governance =? 0 then Err InvalidTokenAddress
  else if dilithium_pk treasury =? 0 then Err InvalidTokenAddress else
  let? k := ok_or (checked_mul 128 initial_sov initial_token) SwapOverflow in
  Ok {| pool_id := derive_pool_id token; token_id := token; dao_type := d;
        governance_addr := governance; treasury_addr := treasury; initialized := true;
        sov_reserve := initial_sov; token_reserve := initial_token; pool_k := k;
        fee_bps := DEFAULT_FEE_BPS; pending_sov_fees := 0; pending_token_fees := 0 |}.

End Pool.

Definition require_initialized (p : SovSwapPool) : result unit SwapError :=
  if initialized p then Ok tt else Err PoolNotInitialized.

Definition require_governance (caller : PublicKey) (p : SovSwapPool) : result unit SwapError :=
  if bool_decide (caller = governance_addr p) then Ok tt else Err GovernanceOnly.

Definition calculate_fee (amount : Z) (p : SovSwapPool) : result Z SwapError :=
  let? x := ok_or (checked_mul 128 amount (fee_bps p)) SwapOverflow in
  let? y := ok_or (checked_div x 10000) SwapOverflow in
  Ok (as_u 64 y).

Definition calculate_output (amount_in reserve_in reserve_out : Z) : result Z SwapError :=
  if (reserve_in =? 0) || (reserve_out =? 0) then Err InsufficientLiquidity else
  let? numerator := ok_or (checked_mul 128 reserve_out amount_in) SwapOverflow in
  let? denominator := ok_or (checked_add 128 reserve_in amount_in) SwapOverflow in
  let? amount_out := ok_or (checked_div numerator denominator) SwapOverflow in
  Ok (as_u 64 amount_out).

Definition slipped (out : Z) (min_out : option Z) : bool :=
  match min_out with Some m => out <? m | None => false end.

Definition swap_sov_to_token (sov_amount : Z) (min_token_out : option Z) : SwapM SwapResult :=
  p <- gets (λ p, p) ;;
  lift (require_initialized p) ;;;
  guard (negb (sov_amount =? 0)) ZeroInputAmount ;;;
  fee_amount <- lift (calculate_fee sov_amount p) ;;
  after_fee <- lift (ok_or (checked_sub sov_amount fee_amount) SwapOverflow) ;;
  token_out <- lift (calculate_output after_fee (sov_reserve p) (token_reserve p)) ;;
  guard (negb (token_out =? 0)) ZeroOutputAmount ;;;
  guard (negb (slipped token_out min_token_out)) SlippageExceeded ;;;
  guard (token_out <? token_reserve p) InsufficientLiquidity ;;;
  new_sov <- lift (ok_or (checked_add 64 (sov_reserve p) after_fee) SwapOverflow) ;;
  new_token <- lift (ok_or (checked_sub (token_reserve p) token_out) SwapOverflow) ;;
  new_k <- lift (ok_or (checked_mul 128 new_sov new_token) SwapOverflow) ;;
  guard (pool_k p <=? new_k) KInvariantViolation ;;;
  modify (set_reserves new_sov new_token new_k) ;;;
  fees <- lift (ok_or (checked_add 64 (pending_sov_fees p) fee_amount) SwapOverflow) ;;
  modify (λ p, set_fees (fee_bps p) fees (pending_token_fees p) p) ;;;
  ret {| res_amount_in := sov_amount; res_amount_out := token_out; res_fee_amount := fee_amount;
         res_new_sov_reserve := new_sov; res_new_token_reserve := new_token |}.

Definition swap_token_to_sov (token_amount : Z) (min_sov_out : option Z) : SwapM SwapResult :=
  p <- gets (λ p, p) ;;
  lift (require_initialized p) ;;;
  guard (negb (token_amount =? 0)) ZeroInputAmount ;;;
  fee_amount <- lift (calculate_fee token_amount p) ;;
  after_fee <- lift (ok_or (checked_sub token_amount fee_amount) SwapOverflow) ;;
  sov_out <- lift (calculate_output after_fee (token_reserve p) (sov_reserve p)) ;;
  guard (negb (sov_out =? 0)) ZeroOutputAmount ;;;
  guard (negb (slipped sov_out min_sov_out)) SlippageExceeded ;;;
  guard (sov_out <? sov_reserve p) InsufficientLiquidity ;;;
  new_token <- lift (ok_or (checked_add 64 (token_reserve p) after_fee) SwapOverflow) ;;
  new_sov <- lift (ok_or (checked_sub (sov_reserve p) sov_out) SwapOverflow) ;;
  new_k <- lift (ok_or (checked_mul 128 new_sov new_token) SwapOverflow) ;;
  guard (pool_k p <=? new_k) KInvariantViolation ;;;
  modify (set_reserves new_sov new_token new_k) ;;;
  fees <- lift (ok_or (checked_add 64 (pending_token_fees p) fee_amount) SwapOverflow) ;;
  modify (λ p, set_fees (fee_bps p) (pending_sov_fees p) fees p) ;;;
  ret {| res_amount_in := token_amount; res_amount_out := sov_out; res_fee_amount := fee_amount;
         res_new_sov_reserve := new_sov; res_new_token_reserve := new_token |}.

Definition PRECISION : Z := 1000000000000000000.

Definition get_price (p : SovSwapPool) : result (Z * Z) SwapError :=
  let? _i := require_initialized p in
  if (sov_reserve p =? 0) || (token_reserve p =? 0) then Err InsufficientLiquidity else
  let? a := ok_or (checked_mul 128 (sov_reserve p) PRECISION) SwapOverflow in
  let? sov_per_token := ok_or (checked_div a (token_reserve p)) InsufficientLiquidity in
  let? b := ok_or (checked_mul 128 (token_reserve p) PRECISION) SwapOverflow in
  let? token_per_sov := ok_or (checked_div b (sov_reserve p)) InsufficientLiquidity in
  Ok (sov_per_token, token_per_sov).

(** Returns the old fee. *)
Definition set_fee_bps (caller : PublicKey) (new_fee_bps : Z) : SwapM Z :=
  p <- gets (λ p, p) ;;
  lift (require_governance caller p) ;;;
  guard (new_fee_bps <=? MAX_FEE_BPS) FeeTooHigh ;;;
  modify (λ p, set_fees new_fee_bps (pending_sov_fees p) (pending_token_fees p) p) ;;;
  ret (fee_bps p).

Definition collect_fees (p : SovSwapPool) : SovSwapPool * (Z * Z) :=
  (set_fees (fee_bps p) 0 0 p, (pending_sov_fees p, pending_token_fees p)).

(** [None] is SOV. *)
Definition validate_swap_allowed (from to : option DAOType) : result unit SwapError :=
  match from, to with
  | Some NP, Some FP | Some FP, Some NP => Err DirectNpFpSwapBlocked
  | _, _ => Ok tt
  end.

Definition simulate_sov_to_token (sov_amount : Z) (min_token_out : option Z) (p : SovSwapPool)
    : result SimulationResult SwapError :=
  let? _i := require_initialized p in
  if sov_amount =? 0 then Err ZeroInputAmount else
  let? fee := calculate_fee sov_amount p in
  let? after_fee := ok_or (checked_sub sov_amount fee) SwapOverflow in
  let? token_out := calculate_output after_fee (sov_reserve p) (token_reserve p) in
  if token_out =? 0 then Err ZeroOutputAmount
  else if slipped token_out min_token_out then Err SlippageExceeded
  else if token_reserve p <=? token_out then Err InsufficientLiquidity else
  let? x := ok_or (checked_mul 128 token_out 10000) SwapOverflow in
  let? y := ok_or (checked_div x (token_reserve p)) SwapOverflow in
  Ok {| sim_amount_out := token_out; sim_fee_amount := fee; price_impact_bps := as_u 64 y |}.

Definition simulate_token_to_sov (token_amount : Z) (min_sov_out : option Z) (p : SovSwapPool)
    : result SimulationResult SwapError :=
  let? _i := require_initialized p in
  if token_amount =? 0 then Err ZeroInputAmount else
  let? fee := calculate_fee token_amount p in
  let? after_fee := ok_or (checked_sub token_amount fee) SwapOverflow in
  let? sov_out := calculate_output after_fee (token_reserve p) (sov_reserve p) in
  if sov_out =? 0 then Err ZeroOutputAmount
  else if slipped sov_out min_sov_out then Err SlippageExceeded
  else if sov_reserve p <=? sov_out then Err InsufficientLiquidity else
  let? x := ok_or (checked_mul 128 sov_out 10000) SwapOverflow in
  let? y := ok_or (checked_div x (sov_reserve p)) SwapOverflow in
  Ok {| sim_amount_out := sov_out; sim_fee_amount := fee; price_impact_bps := as_u 64 y |}.

(** ** Liquidity positions *)

Record LiquidityPosition : Type := {
  provider : PublicKey; lp_tokens : Z; provided_at_height : Z; time_weighted_stake : Z;
  last_reward_claim_height : Z;
}.

Record LpRewardBreakdown : Type := {
  base_yield : Z; alignment_bonus : Z; ubi_contribution : Z; total_sov : Z;
}.

(** Positions are kept by key identifier. *)
Record LpPositionsManager : Type := {
  positions : gmap Z LiquidityPosition; total_lp_supply : Z; base_lp_pool : Z;
  alignment_multiplier_pool : Z; ubi_routing_pool : Z; volume_24h : Z;
  last_volume_reset_height : Z; volatility_factor : Z; twap_sov_per_token : Z;
  twap_window_blocks : Z; dao_health_score : Z;
}.

Definition LpPositionsManager_new : LpPositionsManager := {|
  positions := ∅; total_lp_supply := 0; base_lp_pool := 0; alignment_multiplier_pool := 0;
  ubi_routing_pool := 0; volume_24h := 0; last_volume_reset_height := 0;
  volatility_factor := 100; twap_sov_per_token := 0; twap_window_blocks := 30 * 60 / 10;
  dao_health_score := 75 |}.

Definition set_positions (ps : gmap Z LiquidityPosition) (total : Z) (l : LpPositionsManager)
    : LpPositionsManager := {|
  positions := ps; total_lp_supply := total; base_lp_pool := base_lp_pool l;
  alignment_multiplier_pool := alignment_multiplier_pool l; ubi_routing_pool := ubi_routing_pool l;
  volume_24h := volume_24h l; last_volume_reset_height := last_volume_reset_height l;
  volatility_factor := volatility_factor l; twap_sov_per_token := twap_sov_per_token l;
  twap_window_blocks := twap_window_blocks l; dao_health_score := dao_health_score l |}.

Definition set_pools (base alignment ubi : Z) (l : LpPositionsManager) : LpPositionsManager := {|
  positions := positions l; total_lp_supply := total_lp_supply l; base_lp_pool := base;
  alignment_multiplier_pool := alignment; ubi_routing_pool := ubi; volume_24h := volume_24h l;
  last_volume_reset_height := last_volume_reset_height l; volatility_factor := volatility_factor l;
  twap_sov_per_token := twap_sov_per_token l; twap_window_blocks := twap_window_blocks l;
  dao_health_score := dao_health_score l |}.

Definition set_volume (volume height : Z) (l : LpPositionsManager) : LpPositionsManager := {|
  positions := positions l; total_lp_supply := total_lp_supply l; base_lp_pool := base_lp_pool l;
  alignment_multiplier_pool := alignment_multiplier_pool l; ubi_routing_pool := ubi_routing_pool l;
  volume_24h := volume; last_volume_reset_height := height;
  volatility_factor := volatility_factor l; twap_sov_per_token := twap_sov_per_token l;
  twap_window_blocks := twap_window_blocks l; dao_health_score := dao_health_score l |}.

Definition set_lp_tokens (n : Z) (q : LiquidityPosition) : LiquidityPosition := {|
  provider := provider q; lp_tokens := n; provided_at_height := provided_at_height q;
  time_weighted_stake := time_weighted_stake q;
  last_reward_claim_height := last_reward_claim_height q |}.

Definition set_claimed (h : Z) (q : LiquidityPosition) : LiquidityPosition := {|
  provider := provider q; lp_tokens := lp_tokens q; provided_at_height := provided_at_height q;
  time_weighted_stake := time_weighted_stake q; last_reward_claim_height := h |}.

Definition MIN_LP_SOV : Z := 100000000000.

(** The tokens [add_liquidity] mints. *)
Definition lp_tokens_to_mint (sov_amount token_amount sov token : Z) (l : LpPositionsManager)
    : result Z string :=
  if total_lp_supply l =? 0 then
    let product := saturating_mul 64 (Z.min sov_amount token_amount) (Z.max sov_amount token_amount) in
    if product =? 0 then Err "Liquidity amounts too small" else
    let sqrt := integer_sqrt_u64 product in
    if sqrt =? 0 then Err "Initial liquidity below minimum" else Ok sqrt
  else if (sov =? 0) || (token =? 0) then Err "Pool reserves corrupted" else
  let? a := ok_or (checked_mul 128 sov_amount (total_lp_supply l)) "Overflow in SOV share calculation" in
  let? sov_share := ok_or (checked_div a sov) "Division by zero" in
  let? b := ok_or (checked_mul 128 token_amount (total_lp_supply l)) "Overflow in token share calculation" in
  let? token_share := ok_or (checked_div b token) "Division by zero" in
  Ok (as_u 64 (Z.min sov_share token_share)).

Definition add_liquidity (sov_amount token_amount sov token : Z) (who : PublicKey)
    (current_height : Z) (l : LpPositionsManager) : result (LpPositionsManager * Z) string :=
  if sov_amount <? MIN_LP_SOV then Err "Minimum SOV liquidity" else
  let? minted := lp_tokens_to_mint sov_amount token_amount sov token l in
  if minted =? 0 then Err "Liquidity amounts too small (would mint zero LP tokens)" else
  let q := default {| provider := who; lp_tokens := 0; provided_at_height := current_height;
                      time_weighted_stake := 0; last_reward_claim_height := current_height |}
             (positions l !! key_id who) in
  Ok (set_positions (<[key_id who := set_lp_tokens (saturating_add 64 (lp_tokens q) minted) q]>
                       (positions l))
        (saturating_add 64 (total_lp_supply l) minted) l, minted).

(** The position is changed before the supply is checked. *)
Definition remove_liquidity (n min_sov_out min_token_out sov token : Z) (who : PublicKey)
    : M LpPositionsManager string (Z * Z) :=
  l <- gets (λ l, l) ;;
  q <- lift (ok_or (positions l !! key_id who) "No LP position found") ;;
  guard (n <=? lp_tokens q) "Insufficient LP tokens" ;;;
  guard (negb (total_lp_supply l =? 0)) "Pool total supply is zero" ;;;
  a <- lift (ok_or (checked_mul 128 n sov) "Overflow in SOV calculation") ;;
  x <- lift (ok_or (checked_div a (total_lp_supply l)) "Division error") ;;
  b <- lift (ok_or (checked_mul 128 n token) "Overflow in token calculation") ;;
  y <- lift (ok_or (checked_div b (total_lp_supply l)) "Division error") ;;
  let sov_out := as_u 64 x in
  let token_out := as_u 64 y in
  guard (min_sov_out <=? sov_out) "SOV slippage exceeded" ;;;
  guard (min_token_out <=? token_out) "Token slippage exceeded" ;;;
  left <- lift (ok_or (checked_sub (lp_tokens q) n) "LP token underflow") ;;
  modify (λ l, set_positions (<[key_id who := set_lp_tokens left q]> (positions l))
                 (total_lp_supply l) l) ;;;
  total <- lift (ok_or (checked_sub (total_lp_supply l) n) "Total supply underflow") ;;
  modify (λ l, set_positions (positions l) total l) ;;;
  ret (sov_out, token_out).

Definition claim_lp_rewards (who : PublicKey) (current_height : Z) (l : LpPositionsManager)
    : result (LpPositionsManager * LpRewardBreakdown) string :=
  let? q := ok_or (positions l !! key_id who) "No LP position found" in
  if saturating_sub current_height (last_reward_claim_height q) =? 0
  then Err "Must wait at least one block before claiming again"
  else if total_lp_supply l =? 0 then Err "Total LP supply is zero" else
  let share := as_u 64 (wmul 128 (lp_tokens q) 10000 / total_lp_supply l) in
  let base := as_u 64 (wmul 128 (base_lp_pool l) share / 10000) in
  let alignment := as_u 64 (wmul 128 (wmul 128 (alignment_multiplier_pool l) share)
                              (dao_health_score l) / (10000 * 100)) in
  let ubi := as_u 64 (wmul 128 (ubi_routing_pool l) share / 10000) in
  let total := saturating_add 64 (saturating_add 64 base alignment) ubi in
  Ok (set_pools (saturating_sub (base_lp_pool l) base)
        (saturating_sub (alignment_multiplier_pool l) alignment)
        (saturating_sub (ubi_routing_pool l) ubi)
        (set_positions (<[key_id who := set_claimed current_height q]> (positions l))
           (total_lp_supply l) l),
      {| base_yield := base; alignment_bonus := alignment; ubi_contribution := ubi;
         total_sov := total |}).

Definition VOLUME_RESET_INTERVAL : Z := 14400.

Definition update_volume (sov_amount current_height : Z) (l : LpPositionsManager) : LpPositionsManager :=
  if wadd 64 (last_volume_reset_height l) VOLUME_RESET_INTERVAL <=? current_height
  then set_volume sov_amount current_height l
  else set_volume (saturating_add 64 (volume_24h l) sov_amount) (last_volume_reset_height l) l.

Definition get_current_apy (fee sov token twap : Z) (l : LpPositionsManager) : Z :=
  if (sov =? 0) || (volume_24h l =? 0) then 0 else
  let token_value :=
    if (0 <? twap) && (0 <? token) then saturating_mul 128 token twap / 100000000 else token in
  let total_liquidity := saturating_add 128 sov token_value in
  if total_liquidity =? 0 then 0 else
  let daily_fees := saturating_mul 128 (saturating_mul 128 (volume_24h l) fee) 365 in
  as_u 64 (daily_fees / saturating_mul 128 total_liquidity 10000).

(** ** The pool's invariant and its swaps *)

Record pool_ok (p : SovSwapPool) : Prop := {
  ok_init : initialized p = true;
  ok_sov : 0 < sov_reserve p <= umax 64;
  ok_token : 0 < token_reserve p <= umax 64;
  ok_k : pool_k p = sov_reserve p * token_reserve p;
  ok_fee : 0 <= fee_bps p <= MAX_FEE_BPS;
  ok_sov_fees : in_u 64 (pending_sov_fees p);
  ok_token_fees : in_u 64 (pending_token_fees p);
}.

(** The fee on an amount and what the constant product pays for the rest. *)
Definition swap_fee (amount : Z) (p : SovSwapPool) : Z := amount * fee_bps p / 10000.
Definition swap_out (amount reserve_in reserve_out : Z) : Z :=
  reserve_out * amount / (reserve_in + amount).

Lemma product_u128 a b : in_u 64 a → in_u 64 b → 0 <= a * b <= umax 128.
Proof.
  unfold in_u, umax. intros Ha Hb. split; [nia|].
  transitivity ((2 ^ 64 - 1) * (2 ^ 64 - 1)); [nia|vm_compute; discriminate].
Qed.

Lemma swap_fee_range amount p :
  pool_ok p → in_u 64 amount → 0 <= swap_fee amount p <= amount ∧
    calculate_fee amount p = Ok (swap_fee amount p) ∧
    checked_sub amount (swap_fee amount p) = Some (amount - swap_fee amount p) ∧
    (0 < amount → 0 < amount - swap_fee amount p).
Proof.
  intros Hp Ha. pose proof (ok_fee _ Hp) as Hf. unfold MAX_FEE_BPS in Hf.
  assert (in_u 64 (fee_bps p)) as Hf64 by (unfold in_u, umax; lia).
  pose proof (product_u128 _ _ Ha Hf64) as Hm. unfold in_u in Ha.
  assert (0 <= swap_fee amount p <= amount) as Hr.
  { unfold swap_fee. split; [apply Z.div_pos; lia|]. apply Z.div_le_upper_bound; nia. }
  split; [done|]. split.
  - unfold calculate_fee. rewrite (proj2 (checked_mul_Some 128 _ _ _)) by (split; [reflexivity|apply Hm]). cbn.
    fold (swap_fee amount p). rewrite as_u_small; [done|]. unfold in_u, umax in *. lia.
  - split; [apply checked_sub_Some; lia|]. intros Hpos. unfold swap_fee.
    assert (amount * fee_bps p / 10000 < amount); [|lia]. apply Z.div_lt_upper_bound; nia.
Qed.

Lemma swap_out_range a x y :
  0 < a <= umax 64 → 0 < x <= umax 64 → 0 < y <= umax 64 →
  0 <= swap_out a x y < y ∧ calculate_output a x y = Ok (swap_out a x y) ∧
  x * y <= (x + a) * (y - swap_out a x y).
Proof.
  intros Ha Hx Hy. unfold swap_out.
  assert (0 <= y * a / (x + a) < y) as Hr.
  { split; [apply Z.div_pos; nia|]. apply Z.div_lt_upper_bound; nia. }
  split; [done|]. split.
  - unfold calculate_output. destruct (Z.eqb_spec x 0), (Z.eqb_spec y 0); try lia. cbn.
    rewrite (proj2 (checked_mul_Some 128 _ _ _)) by (split; [reflexivity|apply product_u128; unfold in_u; lia]).
    rewrite (proj2 (checked_add_Some 128 x a (x + a))) by (unfold umax in *; lia). cbn.
    unfold checked_div. destruct (Z.eqb_spec (x + a) 0); [lia|]. cbn. rewrite as_u_small; [done|].
    unfold in_u in *. lia.
  - pose proof (Z.mul_div_le (y * a) (x + a)). nia.
Qed.

(** What a swap does when the fee, the rest and the output are as above; [fees] are
    the pending fees of its input. *)
Definition swap_result (amount : Z) (min_out : option Z) (a out fees fee new_in : Z)
    (traded settled p : SovSwapPool) (r : SwapResult) : SovSwapPool * result SwapResult SwapError :=
  if amount =? 0 then (p, Err ZeroInputAmount)
  else if out =? 0 then (p, Err ZeroOutputAmount)
  else if slipped out min_out then (p, Err SlippageExceeded)
  else if umax 64 <? new_in then (p, Err SwapOverflow)
  else if umax 64 <? fees + fee then (traded, Err SwapOverflow)
  else (settled, Ok r).

Definition bought (amount : Z) (p : SovSwapPool) : SovSwapPool :=
  let a := amount - swap_fee amount p in
  let out := swap_out a (sov_reserve p) (token_reserve p) in
  set_reserves (sov_reserve p + a) (token_reserve p - out)
    ((sov_reserve p + a) * (token_reserve p - out)) p.

Definition sold (amount : Z) (p : SovSwapPool) : SovSwapPool :=
  let a := amount - swap_fee amount p in
  let out := swap_out a (token_reserve p) (sov_reserve p) in
  set_reserves (sov_reserve p - out) (token_reserve p + a)
    ((sov_reserve p - out) * (token_reserve p + a)) p.

(** The impact of taking [out] from a reserve, in basis points. *)
Definition impact (out reserve : Z) : Z := out * 10000 / reserve.

Lemma impact_ok out reserve :
  0 <= out < reserve → reserve <= umax 64 →
  checked_mul 128 out 10000 = Some (out * 10000) ∧ checked_div (out * 10000) reserve = Some (impact out reserve) ∧
  as_u 64 (impact out reserve) = impact out reserve ∧ 0 <= impact out reserve < 10000.
Proof.
  intros Ho Hr. assert (0 <= impact out reserve < 10000) as Hi.
  { unfold impact. split; [apply Z.div_pos; lia|apply Z.div_lt_upper_bound; lia]. }
  split; [apply checked_mul_Some; unfold umax in *; lia|]. split; [apply checked_div_Some; split; [done|lia]|].
  split; [apply as_u_small; unfold in_u, umax; lia|done].
Qed.

Lemma simulated out fee reserve :
  0 <= out < reserve → reserve <= umax 64 →
  (let? x := ok_or (checked_mul 128 out 10000) SwapOverflow in
   let? y := ok_or (checked_div x reserve) SwapOverflow in
   Ok {| sim_amount_out := out; sim_fee_amount := fee; price_impact_bps := as_u 64 y |}) =
  Ok {| sim_amount_out := out; sim_fee_amount := fee; price_impact_bps := impact out reserve |}.
Proof.
  intros Ho Hr. destruct (impact_ok out reserve Ho Hr) as (-> & Hd & Hu & _). cbn [ok_or].
  rewrite Hd. cbn [ok_or]. by rewrite Hu.
Qed.

(** What a simulation answers. *)
Definition sim_result (amount : Z) (min_out : option Z) (out fee reserve : Z)
    : result SimulationResult SwapError :=
  if amount =? 0 then Err ZeroInputAmount
  else if out =? 0 then Err ZeroOutputAmount
  else if slipped out min_out then Err SlippageExceeded
  else Ok {| sim_amount_out := out; sim_fee_amount := fee; price_impact_bps := impact out reserve |}.

(** Runs a swap or its simulation up to the check of the slippage, and a swap to
    its end; [x] and [y] are the reserves of the input and of the output. *)
Ltac swap_prefix amount p x y :=
  intros Hp Ha; cbv zeta; destruct (swap_fee_range amount p Hp Ha) as (Hf & Hcf & Hsub & Hpos);
  destruct Hp as [Hi Hx Hy Hk Hb Hs Ht];
  unfold swap_sov_to_token, swap_token_to_sov, simulate_sov_to_token, simulate_token_to_sov,
    swap_result, sim_result, bind, gets, lift, guard, require_initialized;
  rewrite Hi; destruct (Z.eqb_spec amount 0) as [|Hne]; [done|]; cbn [negb];
  unfold in_u in *; specialize (Hpos ltac:(lia)); unfold ret; rewrite Hcf, Hsub; cbn [ok_or];
  destruct (swap_out_range (amount - swap_fee amount p) x y) as (Ho & Hco & Hprod); [lia|done|done|];
  rewrite Hco; destruct (Z.eqb_spec (swap_out (amount - swap_fee amount p) x y) 0); [done|]; cbn [negb];
  destruct (slipped _ _); [done|]; cbn [negb].

Ltac swap_suffix amount p x fees Hk :=
  rewrite (proj2 (Z.ltb_lt _ _)) by lia; unfold checked_add;
  destruct (Z.leb_spec (x + (amount - swap_fee amount p)) (umax 64)) as [Hle|Hgt];
  cbn [ok_or]; [rewrite (proj2 (Z.ltb_ge _ _)) by lia|by rewrite (proj2 (Z.ltb_lt _ _)) by lia];
  rewrite (proj2 (checked_sub_Some _ _ _)) by (split; [reflexivity|lia]); cbn [ok_or];
  rewrite (proj2 (checked_mul_Some 128 _ _ _)) by (split; [reflexivity|apply product_u128; unfold in_u; lia]);
  cbn [ok_or]; rewrite Hk, (proj2 (Z.leb_le _ _)) by lia; unfold modify;
  destruct (Z.leb_spec (fees + swap_fee amount p) (umax 64)); cbn [ok_or];
  [by rewrite (proj2 (Z.ltb_ge _ _)) by lia|by rewrite (proj2 (Z.ltb_lt _ _)) by lia].

(** A buy, on every branch: the checks of the liquidity and of the product never
    fail, and when the pending fees overflow the reserves have already changed. *)
Lemma buy_spec amount min_out p :
  pool_ok p → in_u 64 amount →
  let fee := swap_fee amount p in
  let a := amount - fee in
  let out := swap_out a (sov_reserve p) (token_reserve p) in
  swap_sov_to_token amount min_out p =
  swap_result amount min_out a out (pending_sov_fees p) fee (sov_reserve p + a) (bought amount p)
    (set_fees (fee_bps p) (pending_sov_fees p + fee) (pending_token_fees p) (bought amount p)) p
    {| res_amount_in := amount; res_amount_out := out; res_fee_amount := fee;
       res_new_sov_reserve := sov_reserve p + a; res_new_token_reserve := token_reserve p - out |}.
Proof.
  swap_prefix amount p (sov_reserve p) (token_reserve p).
  swap_suffix amount p (sov_reserve p) (pending_sov_fees p) Hk.
Qed.

Lemma sell_spec amount min_out p :
  pool_ok p → in_u 64 amount →
  let fee := swap_fee amount p in
  let a := amount - fee in
  let out := swap_out a (token_reserve p) (sov_reserve p) in
  swap_token_to_sov amount min_out p =
  swap_result amount min_out a out (pending_token_fees p) fee (token_reserve p + a) (sold amount p)
    (set_fees (fee_bps p) (pending_sov_fees p) (pending_token_fees p + fee) (sold amount p)) p
    {| res_amount_in := amount; res_amount_out := out; res_fee_amount := fee;
       res_new_sov_reserve := sov_reserve p - out; res_new_token_reserve := token_reserve p + a |}.
Proof.
  swap_prefix amount p (token_reserve p) (sov_reserve p).
  swap_suffix amount p (token_reserve p) (pending_token_fees p) Hk.
Qed.

Lemma bought_ok amount p :
  pool_ok p → 0 < amount <= umax 64 → sov_reserve p + (amount - swap_fee amount p) <= umax 64 →
  pool_ok (bought amount p) ∧ sov_reserve p * token_reserve p <= pool_k (bought amount p).
Proof.
  intros Hp Ha Hmax. destruct (swap_fee_range amount p Hp) as (Hf & _ & _ & Hpos); [unfold in_u; lia|].
  destruct Hp as [Hi Hx Hy Hk Hb Hs Ht].
  destruct (swap_out_range (amount - swap_fee amount p) (sov_reserve p) (token_reserve p)) as (Ho & _ & Hprod);
    [lia..|]. split; [|exact Hprod]. split; cbn; auto; lia.
Qed.

Lemma sold_ok amount p :
  pool_ok p → 0 < amount <= umax 64 → token_reserve p + (amount - swap_fee amount p) <= umax 64 →
  pool_ok (sold amount p) ∧ sov_reserve p * token_reserve p <= pool_k (sold amount p).
Proof.
  intros Hp Ha Hmax. destruct (swap_fee_range amount p Hp) as (Hf & _ & _ & Hpos); [unfold in_u; lia|].
  destruct Hp as [Hi Hx Hy Hk Hb Hs Ht].
  destruct (swap_out_range (amount - swap_fee amount p) (token_reserve p) (sov_reserve p)) as (Ho & _ & Hprod);
    [lia..|]. split; [split; cbn; auto; lia|]. cbn. lia.
Qed.

Lemma set_fees_ok bps a b p :
  pool_ok p → 0 <= bps <= MAX_FEE_BPS → in_u 64 a → in_u 64 b → pool_ok (set_fees bps a b p).
Proof. intros [] ???. by split. Qed.

(** ** Trading *)

(** What users and the governance may ask of a pool. *)
Inductive Trade : Type :=
| Buy (amount : Z) (min_out : option Z) | Sell (amount : Z) (min_out : option Z)
| CollectFees | SetFee (caller : PublicKey) (bps : Z).

Definition trade_wf (t : Trade) : Prop :=
  match t with
  | Buy a _ | Sell a _ => in_u 64 a
  | SetFee _ bps => in_u 16 bps
  | CollectFees => True
  end.

(** The pool after a request, and what the users have gained in SOV and in tokens. *)
Definition trade (t : Trade) (p : SovSwapPool) : SovSwapPool * (Z * Z) :=
  match t with
  | Buy a m =>
      match swap_sov_to_token a m p with
      | (p', Ok r) => (p', (- res_amount_in r, res_amount_out r))
      | (p', Err _) => (p', (0, 0))
      end
  | Sell a m =>
      match swap_token_to_sov a m p with
      | (p', Ok r) => (p', (res_amount_out r, - res_amount_in r))
      | (p', Err _) => (p', (0, 0))
      end
  | CollectFees => ((collect_fees p).1, (0, 0))
  | SetFee c bps => ((set_fee_bps c bps p).1, (0, 0))
  end.

Fixpoint trades (ts : list Trade) (p : SovSwapPool) : SovSwapPool * (Z * Z) :=
  match ts with
  | [] => (p, (0, 0))
  | t :: ts' =>
      let '(p1, (s1, t1)) := trade t p in
      let '(p2, (s2, t2)) := trades ts' p1 in
      (p2, (s1 + s2, t1 + t2))
  end.

(** The fees that wait for collection fit their type beside the fee of the request,
    and so all along a sequence of requests. *)
Definition fee_fits (t : Trade) (p : SovSwapPool) : bool :=
  match t with
  | Buy a _ => pending_sov_fees p + swap_fee a p <=? umax 64
  | Sell a _ => pending_token_fees p + swap_fee a p <=? umax 64
  | CollectFees | SetFee _ _ => true
  end.

Fixpoint fees_fit (ts : list Trade) (p : SovSwapPool) : bool :=
  match ts with
  | [] => true
  | t :: ts' => fee_fits t p && fees_fit ts' (trade t p).1
  end.

Lemma swap_result_cases amount min_out a out fees fee new_in traded settled p r p' x :
  swap_result amount min_out a out fees fee new_in traded settled p r = (p', x) →
  fees + fee <= umax 64 →
  (p' = p ∧ ∃ e, x = Err e) ∨
  (p' = settled ∧ x = Ok r ∧ amount ≠ 0 ∧ out ≠ 0 ∧ slipped out min_out = false ∧ new_in <= umax 64).
Proof.
  unfold swap_result. intros Hr Hf. rewrite (proj2 (Z.ltb_ge (umax 64) (fees + fee))) in Hr by done.
  repeat case_match; simplify_eq; int_inv; eauto 10.
Qed.

(** One request: the pool stays well formed, the product of the reserves does not
    fall, and what the users gain is taken from the reserves. *)
Lemma trade_step t p p' s d :
  trade t p = (p', (s, d)) → pool_ok p → trade_wf t →
  fee_fits t p = true →
  pool_ok p' ∧ sov_reserve p * token_reserve p <= sov_reserve p' * token_reserve p' ∧
  sov_reserve p' + s <= sov_reserve p ∧ token_reserve p' + d <= token_reserve p.
Proof.
  destruct t as [a m|a m| |c bps]; cbn [trade trade_wf fee_fits]; intros Ht Hp Hwf Hv; int_inv.
  - pose proof (buy_spec a m p Hp Hwf) as Hb. cbv zeta in Hb. rewrite Hb in Ht. clear Hb.
    destruct (swap_fee_range a p Hp Hwf) as (Hf & _ & _ & Hpos). unfold in_u in Hwf.
    destruct (swap_result _ _ _ _ _ _ _ _ _ _ _) as [q x] eqn:Hr.
    apply swap_result_cases in Hr as [(-> & e & ->)|(-> & -> & Hne & _ & _ & Hmax)]; [| |lia].
    + injection Ht as <- <- <-. split; [done|]. lia.
    + injection Ht as <- <- <-. destruct (bought_ok a p Hp) as [Hok Hk]; [lia|done|].
      rewrite (ok_k _ Hok) in Hk. pose proof (ok_sov_fees _ Hp). pose proof (ok_token_fees _ Hp).
      pose proof (ok_fee _ Hp). unfold in_u in *. split; [apply set_fees_ok; [done|done|unfold in_u; lia..]|].
      cbn in *. lia.
  - pose proof (sell_spec a m p Hp Hwf) as Hb. cbv zeta in Hb. rewrite Hb in Ht. clear Hb.
    destruct (swap_fee_range a p Hp Hwf) as (Hf & _ & _ & Hpos). unfold in_u in Hwf.
    destruct (swap_result _ _ _ _ _ _ _ _ _ _ _) as [q x] eqn:Hr.
    apply swap_result_cases in Hr as [(-> & e & ->)|(-> & -> & Hne & _ & _ & Hmax)]; [| |lia].
    + injection Ht as <- <- <-. split; [done|]. lia.
    + injection Ht as <- <- <-. destruct (sold_ok a p Hp) as [Hok Hk]; [lia|done|].
      rewrite (ok_k _ Hok) in Hk. pose proof (ok_sov_fees _ Hp). pose proof (ok_token_fees _ Hp).
      pose proof (ok_fee _ Hp). unfold in_u in *. split; [apply set_fees_ok; [done|done|unfold in_u; lia..]|].
      cbn in *. lia.
  - injection Ht as <- <- <-. pose proof (ok_sov_fees _ Hp). pose proof (ok_token_fees _ Hp).
    split; [apply set_fees_ok; [done|apply Hp|done..]|]. unfold in_u, umax in *. cbn. lia.
  - unfold set_fee_bps, bind, gets, lift, require_governance, guard in Ht.
    destruct (bool_decide _); [|injection Ht as <- <- <-; split; [done|lia]].
    destruct (Z.leb_spec bps MAX_FEE_BPS); injection Ht as <- <- <-; [|split; [done|lia]].
    unfold in_u in Hwf. split; [apply set_fees_ok; [done|lia|apply Hp..]|]. cbn. lia.
Qed.

Lemma trades_step ts p p' s d :
  trades ts p = (p', (s, d)) → pool_ok p → Forall trade_wf ts → fees_fit ts p = true →
  pool_ok p' ∧ sov_reserve p * token_reserve p <= sov_reserve p' * token_reserve p' ∧
  sov_reserve p' + s <= sov_reserve p ∧ token_reserve p' + d <= token_reserve p.
Proof.
  revert p s d. induction ts as [|t ts IH]; intros p s d; cbn [trades fees_fit].
  { intros [= <- <- <-] Hp _ _. split; [done|]. lia. }
  destruct (trade t p) as [p1 [s1 d1]] eqn:Ht. destruct (trades ts p1) as [p2 [s2 d2]] eqn:Hts.
  intros [= <- <- <-] Hp [Hwf Hall]%Forall_cons [Hv Hvs]%andb_true_iff.
  destruct (trade_step _ _ _ _ _ Ht Hp Hwf Hv) as (Hp1 & Hk & Hs & Hd).
  destruct (IH _ _ _ Hts Hp1 Hall Hvs) as (Hp2 & Hk2 & Hs2 & Hd2). split; [done|]. lia.
Qed.

(** C31: nobody profits from trading against the pool.  After any sequence of buys,
    sells, fee collections and fee changes on a well-formed pool in which the fees
    waiting for collection never overflow their type, the pool is well formed, its
    product has not fallen, and users who together have not lost tokens have not
    gained SOV, and the other way round.  A swap that fails costs its user nothing.
    The condition is needed: a swap whose fee overflows fails after it has moved
    the reserves ([Market.fee_overflow_profits]). *)
Theorem trading_never_profits ts p p' s d :
  trades ts p = (p', (s, d)) → pool_ok p → Forall trade_wf ts → fees_fit ts p = true →
  pool_ok p' ∧ pool_k p <= pool_k p' ∧ (0 <= d → s <= 0) ∧ (0 <= s → d <= 0).
Proof.
  intros Ht Hp Hall Hf. destruct (trades_step _ _ _ _ _ Ht Hp Hall Hf) as (Hp' & Hk & Hs & Hd).
  pose proof (ok_sov _ Hp). pose proof (ok_token _ Hp). pose proof (ok_sov _ Hp'). pose proof (ok_token _ Hp').
  rewrite (ok_k _ Hp), (ok_k _ Hp'). split; [done|]. split; [done|]. split; intros.
  - enough (sov_reserve p <= sov_reserve p') by lia. apply Z.nlt_ge. intros Hlt. nia.
  - enough (token_reserve p <= token_reserve p') by lia. apply Z.nlt_ge. intros Hlt. nia.
Qed.

(** ** Simulations *)

Lemma simulate_buy_spec amount min_out p :
  pool_ok p → in_u 64 amount → simulate_sov_to_token amount min_out p =
    sim_result amount min_out
      (swap_out (amount - swap_fee amount p) (sov_reserve p) (token_reserve p)) (swap_fee amount p)
      (token_reserve p).
Proof.
  swap_prefix amount p (sov_reserve p) (token_reserve p).
  rewrite (proj2 (Z.leb_gt _ _)) by lia. by apply simulated; lia.
Qed.

Lemma simulate_sell_spec amount min_out p :
  pool_ok p → in_u 64 amount → simulate_token_to_sov amount min_out p =
    sim_result amount min_out
      (swap_out (amount - swap_fee amount p) (token_reserve p) (sov_reserve p)) (swap_fee amount p)
      (sov_reserve p).
Proof.
  swap_prefix amount p (token_reserve p) (sov_reserve p).
  rewrite (proj2 (Z.leb_gt _ _)) by lia. by apply simulated; lia.
Qed.

(** What a swap of [amount] does, given its simulation; [x], [y] and [fees] are the
    reserves of the input and of the output and the pending fees of the input.  A
    simulated error is the swap's, and the pool is kept.  A simulated success is the
    swap's exactly when the grown reserve and the grown fees fit their type;
    otherwise the swap fails with an overflow: on the reserve before anything has
    changed, on the fees after the reserves have. *)
Definition agrees (amount : Z) (x y fees : SovSwapPool → Z) (p : SovSwapPool)
    (sim : result SimulationResult SwapError) (swap : SovSwapPool * result SwapResult SwapError)
    : Prop :=
  match sim with
  | Err e => swap = (p, Err e)
  | Ok s =>
      let paid := amount - sim_fee_amount s in
      if umax 64 <? x p + paid then swap = (p, Err SwapOverflow) else
      x swap.1 = x p + paid ∧ y swap.1 = y p - sim_amount_out s ∧
      if umax 64 <? fees p + sim_fee_amount s then swap.2 = Err SwapOverflow ∧ fees swap.1 = fees p
      else
        fees swap.1 = fees p + sim_fee_amount s ∧
        ∃ r, swap.2 = Ok r ∧ res_amount_in r = amount ∧
          res_amount_out r = sim_amount_out s ∧ res_fee_amount r = sim_fee_amount s
  end.

(** C32: simulations are exact up to overflows of the pool's own numbers.  In both
    directions, on a well-formed pool: when the simulation fails, the swap fails with
    the same error and the pool is unchanged; when it succeeds, the swap pays the
    simulated amount for the simulated fee and moves the reserves by them, provided
    the reserve of the input and its pending fees fit u64 afterwards.  When one of
    them does not, which the simulation does not look at, the swap fails with
    [Overflow], with the pool unchanged if it is the reserve and with the reserves
    already moved if it is only the fees. *)
Theorem simulation_exact amount min_out p :
  pool_ok p → in_u 64 amount →
  agrees amount sov_reserve token_reserve pending_sov_fees p
    (simulate_sov_to_token amount min_out p) (swap_sov_to_token amount min_out p) ∧
  agrees amount token_reserve sov_reserve pending_token_fees p
    (simulate_token_to_sov amount min_out p) (swap_token_to_sov amount min_out p).
Proof.
  intros Hp Ha. rewrite simulate_buy_spec, simulate_sell_spec by done.
  pose proof (buy_spec amount min_out p Hp Ha) as Hb. pose proof (sell_spec amount min_out p Hp Ha) as Hs.
  cbv zeta in Hb, Hs. rewrite Hb, Hs.
  split; unfold swap_result, sim_result, agrees;
    repeat (case_match; cbn [sim_fee_amount sim_amount_out] in *; simplify_eq; try done);
    cbn; eauto 10.
Qed.

(** ** Liquidity providers *)

Definition held (l : LpPositionsManager) : Z := msum (λ _ q, lp_tokens q) (positions l).

(** The supply is what the providers hold. *)
Record lp_ok (l : LpPositionsManager) : Prop := {
  lp_positions : map_Forall (λ _ q, 0 <= lp_tokens q) (positions l);
  lp_supply : total_lp_supply l = held l;
  lp_range : in_u 64 (total_lp_supply l);
}.

Definition tokens_of (who : PublicKey) (l : LpPositionsManager) : Z :=
  match positions l !! key_id who with Some q => lp_tokens q | None => 0 end.

Lemma tokens_of_range who l : lp_ok l → 0 <= tokens_of who l <= total_lp_supply l.
Proof.
  intros [Hp Hs Hr]. rewrite Hs. unfold tokens_of, held in *. destruct (positions l !! key_id who) as [q|] eqn:Hq.
  - split; [by apply (Hp _ _ Hq)|]. by apply (msum_lookup_le (λ _ q, lp_tokens q) _ _ _ Hp Hq).
  - split; [done|]. by apply msum_nonneg.
Qed.

(** The share that is minted to a later provider. *)
Lemma minted_share sov_amount token_amount sov token l n :
  lp_tokens_to_mint sov_amount token_amount sov token l = Ok n → 0 < total_lp_supply l →
  0 <= sov_amount → 0 <= token_amount → 0 <= sov → 0 <= token →
  0 <= n ∧ n * sov <= sov_amount * total_lp_supply l ∧ n * token <= token_amount * total_lp_supply l.
Proof.
  unfold lp_tokens_to_mint. intros Hm HT Ha Hb Hx Hy. destruct (Z.eqb_spec (total_lp_supply l) 0); [lia|].
  destruct (Z.eqb_spec sov 0), (Z.eqb_spec token 0); try done. cbn [orb] in Hm.
  repeat match type of Hm with context [ok_or ?o _] => destruct o eqn:?; cbn [ok_or] in Hm; [|done] end.
  injection Hm as <-. int_inv.
  pose proof (Z.mul_div_le (sov_amount * total_lp_supply l) sov ltac:(lia)) as Hsa.
  pose proof (Z.mul_div_le (token_amount * total_lp_supply l) token ltac:(lia)) as Hsb.
  assert (0 <= sov_amount * total_lp_supply l / sov) as Ha0 by (apply Z.div_pos; nia).
  assert (0 <= token_amount * total_lp_supply l / token) as Hb0 by (apply Z.div_pos; nia).
  set (sa := sov_amount * total_lp_supply l / sov) in *.
  set (sb := token_amount * total_lp_supply l / token) in *.
  assert (0 <= as_u 64 (Z.min sa sb) <= Z.min sa sb) as Hn.
  { unfold as_u. split; [apply Z.mod_pos_bound; lia|apply Z.mod_le; lia]. }
  split; [lia|]. split; nia.
Qed.

Lemma add_liquidity_ok sov_amount token_amount sov token who h l l' n :
  add_liquidity sov_amount token_amount sov token who h l = Ok (l', n) →
  lp_tokens_to_mint sov_amount token_amount sov token l = Ok n ∧ n ≠ 0 ∧
  total_lp_supply l' = saturating_add 64 (total_lp_supply l) n ∧
  ∃ q, positions l' = <[key_id who := set_lp_tokens (saturating_add 64 (tokens_of who l) n) q]> (positions l).
Proof.
  unfold add_liquidity. case_match; [done|].
  destruct (lp_tokens_to_mint _ _ _ _ _) as [m|]; [|done].
  destruct (Z.eqb_spec m 0); [done|]. intros [= <- <-]. do 3 (split; [done|]).
  unfold tokens_of. destruct (positions l !! key_id who); by eexists.
Qed.

Lemma insert_held who q n l :
  msum (λ _ q, lp_tokens q) (<[key_id who := set_lp_tokens n q]> (positions l)) =
  held l - tokens_of who l + n.
Proof. rewrite msum_insert. unfold held, tokens_of. destruct (positions l !! key_id who); cbn [from_option set_lp_tokens lp_tokens]; lia. Qed.

Lemma insert_nonneg who q n l :
  lp_ok l → 0 <= n → map_Forall (λ _ q, 0 <= lp_tokens q) (<[key_id who := set_lp_tokens n q]> (positions l)).
Proof. intros [Hp _ _] Hn. by apply map_Forall_insert_2. Qed.

Lemma add_lp_ok sov_amount token_amount sov token who h l l' n :
  add_liquidity sov_amount token_amount sov token who h l = Ok (l', n) → lp_ok l →
  0 <= n → total_lp_supply l + n <= umax 64 →
  lp_ok l' ∧ total_lp_supply l' = total_lp_supply l + n ∧ tokens_of who l' = tokens_of who l + n.
Proof.
  intros (Hm & Hn & Ht & q & Hps)%add_liquidity_ok Hl Hn0 Hmax. pose proof (tokens_of_range who l Hl) as Hr.
  rewrite saturating_add_small in Ht by lia. rewrite saturating_add_small in Hps by lia.
  split; [|split; [done|unfold tokens_of at 1; rewrite Hps, lookup_insert_eq; done]].
  split; [rewrite Hps; apply insert_nonneg; [done|lia]| |unfold in_u; destruct Hl as [_ _ []]; lia].
  unfold held. rewrite Hps, insert_held, Ht, (lp_supply _ Hl). lia.
Qed.

(** A withdrawal, on every branch: the supply covers what a provider holds, so the
    last check never fails, and failures change nothing. *)
Lemma remove_spec n min_sov min_token sov token who l :
  lp_ok l → in_u 64 n → in_u 64 sov → in_u 64 token →
  let sov_out := n * sov / total_lp_supply l in
  let token_out := n * token / total_lp_supply l in
  remove_liquidity n min_sov min_token sov token who l =
  match positions l !! key_id who with
  | None => (l, Err "No LP position found")
  | Some q =>
      if lp_tokens q <? n then (l, Err "Insufficient LP tokens")
      else if total_lp_supply l =? 0 then (l, Err "Pool total supply is zero")
      else if sov_out <? min_sov then (l, Err "SOV slippage exceeded")
      else if token_out <? min_token then (l, Err "Token slippage exceeded")
      else (set_positions (<[key_id who := set_lp_tokens (lp_tokens q - n) q]> (positions l))
              (total_lp_supply l - n) l, Ok (sov_out, token_out))
  end.
Proof.
  intros Hl Hn Hx Hy. cbv zeta. pose proof (tokens_of_range who l Hl) as Hr. unfold tokens_of in Hr.
  unfold remove_liquidity, bind, gets, lift, guard, modify.
  destruct (positions l !! key_id who) as [q|]; cbn [ok_or]; [|done]. rewrite Z.leb_antisym.
  destruct (Z.ltb_spec (lp_tokens q) n); [done|]. cbn [negb ret].
  destruct (Z.eqb_spec (total_lp_supply l) 0); [done|]. cbn [negb]. unfold ret.
  assert (∀ r, in_u 64 r → 0 <= n * r <= umax 128 ∧ in_u 64 (n * r / total_lp_supply l)) as Hmul.
  { intros r Hr'. split; [by apply product_u128|]. unfold in_u in *.
    split; [apply Z.div_pos; nia|]. transitivity r; [|lia]. apply Z.div_le_upper_bound; nia. }
  destruct (Hmul _ Hx) as [Hxm Hxu]. destruct (Hmul _ Hy) as [Hym Hyu].
  rewrite (proj2 (checked_mul_Some 128 n sov _)) by (split; [reflexivity|apply Hxm]). cbn [ok_or].
  rewrite (proj2 (checked_div_Some _ _ _)) by (split; [reflexivity|done]). cbn [ok_or].
  rewrite (proj2 (checked_mul_Some 128 n token _)) by (split; [reflexivity|apply Hym]). cbn [ok_or].
  rewrite (proj2 (checked_div_Some _ _ _)) by (split; [reflexivity|done]). cbn [ok_or].
  rewrite (as_u_small 64 _ Hxu), (as_u_small 64 _ Hyu), !Z.leb_antisym.
  destruct (_ <? min_sov); [done|]. cbn [negb]. destruct (_ <? min_token); [done|]. cbn [negb].
  rewrite (proj2 (checked_sub_Some _ _ _)) by (split; [reflexivity|lia]). cbn [ok_or].
  rewrite (proj2 (checked_sub_Some _ _ _)) by (split; [reflexivity|lia]). done.
Qed.

Lemma remove_lp_ok n min_sov min_token sov token who l l' r :
  remove_liquidity n min_sov min_token sov token who l = (l', r) → lp_ok l → in_u 64 n →
  in_u 64 sov → in_u 64 token → lp_ok l' ∧ (is_ok r = false → l' = l).
Proof.
  intros Hr Hl Hn Hx Hy. rewrite remove_spec in Hr by done. pose proof (tokens_of_range who l Hl) as Ht.
  unfold tokens_of in Ht. destruct (positions l !! key_id who) as [q|] eqn:Hq; [|by injection Hr as <- <-].
  repeat case_match; injection Hr as <- <-; try done. int_inv. unfold in_u in *. split; [|done].
  split; cbn; [apply insert_nonneg; [done|lia]| |destruct Hl as [_ _ []]; unfold in_u in *; lia].
  unfold held. cbn. rewrite insert_held, (lp_supply _ Hl). unfold tokens_of. rewrite Hq. lia.
Qed.

(** The first provider's shares are a square root, so they are positive. *)
Lemma first_minted sov_amount token_amount sov token l n :
  lp_tokens_to_mint sov_amount token_amount sov token l = Ok n → total_lp_supply l = 0 →
  0 <= sov_amount → 0 <= token_amount → 0 < n.
Proof.
  unfold lp_tokens_to_mint. intros Hm HT Ha Hb. rewrite HT, Z.eqb_refl in Hm. cbv zeta in Hm.
  destruct (Z.eqb_spec (saturating_mul 64 (Z.min sov_amount token_amount) (Z.max sov_amount token_amount)) 0); [done|].
  rewrite (proj1 (integer_sqrt_correct _)) in Hm
    by (unfold saturating_mul, in_u, umax; split; [apply Z.min_glb; nia|apply Z.le_min_r]).
  destruct (Z.eqb_spec (Z.sqrt (saturating_mul 64 (Z.min sov_amount token_amount) (Z.max sov_amount token_amount))) 0);
    [done|]. injection Hm as <-. pose proof (Z.sqrt_nonneg (saturating_mul 64 (Z.min sov_amount token_amount) (Z.max sov_amount token_amount))). lia.
Qed.

(** The withdrawal of shares that were just minted. *)
Lemma withdraw_minted sov_amount token_amount sov token who h l l1 n x y :
  add_liquidity sov_amount token_amount sov token who h l = Ok (l1, n) → lp_ok l → 0 < n →
  total_lp_supply l + n <= umax 64 → in_u 64 x → in_u 64 y →
  ∃ l2, remove_liquidity n 0 0 x y who l1 =
      (l2, Ok (n * x / (total_lp_supply l + n), n * y / (total_lp_supply l + n))) ∧
    lp_ok l2 ∧ total_lp_supply l2 = total_lp_supply l ∧ tokens_of who l2 = tokens_of who l.
Proof.
  intros Hadd Hl Hn Hmax Hx Hy. pose proof (add_liquidity_ok _ _ _ _ _ _ _ _ _ Hadd) as (_ & _ & _ & q & Hps).
  destruct (add_lp_ok _ _ _ _ _ _ _ _ _ Hadd Hl ltac:(lia) Hmax) as (Hl1 & HT1 & Htok).
  pose proof (tokens_of_range who l Hl) as Hr. pose proof (lp_range _ Hl) as Hu. unfold in_u in *.
  assert (remove_liquidity n 0 0 x y who l1 =
    (set_positions (<[key_id who := set_lp_tokens (tokens_of who l) q]> (positions l1)) (total_lp_supply l1 - n) l1,
     Ok (n * x / (total_lp_supply l + n), n * y / (total_lp_supply l + n)))) as Hrm.
  { rewrite remove_spec by (done || unfold in_u, umax in *; lia). rewrite HT1. unfold tokens_of in Htok.
    rewrite Hps, lookup_insert_eq in Htok |- *. cbn in Htok. cbn [lp_tokens set_lp_tokens].
    rewrite Htok. fold (tokens_of who l). unfold tokens_of at 1. fold (tokens_of who l).
    rewrite !(proj2 (Z.ltb_ge _ _)) by (lia || (apply Z.div_pos; nia)).
    rewrite (proj2 (Z.eqb_neq _ _)) by lia. do 3 f_equal. unfold set_lp_tokens. cbn. f_equal. lia. }
  eexists. split; [exact Hrm|].
  destruct (remove_lp_ok _ _ _ _ _ _ _ _ _ Hrm Hl1) as [Hl2 _]; [unfold in_u, umax in *; lia..|].
  split_and!; [done|cbn; lia|]. unfold tokens_of at 1. cbn. by rewrite lookup_insert_eq.
Qed.

(** C33: liquidity comes back, and brings no profit where shares are outstanding.
    The shares a deposit mints can be withdrawn at once, at the reserves the deposit
    left, as long as the supply is what the providers hold and the grown reserves and
    the supply fit u64, and the withdrawal
    restores the supply and the provider's shares.  Where other shares were
    outstanding it pays no more than was put in, of SOV and of tokens, and the
    deposit does not dilute them.  Where none were, the depositor owns all shares
    and the withdrawal pays out the whole reserves, with what the pool held before. *)
Theorem liquidity_returns sov_amount token_amount sov token who h l l1 n :
  lp_ok l → 0 <= sov_amount → 0 <= token_amount → 0 <= sov → 0 <= token →
  sov + sov_amount <= umax 64 → token + token_amount <= umax 64 →
  add_liquidity sov_amount token_amount sov token who h l = Ok (l1, n) →
  total_lp_supply l + n <= umax 64 →
  ∃ l2 sov_out token_out,
    remove_liquidity n 0 0 (sov + sov_amount) (token + token_amount) who l1 = (l2, Ok (sov_out, token_out)) ∧
    lp_ok l2 ∧ total_lp_supply l2 = total_lp_supply l ∧ tokens_of who l2 = tokens_of who l ∧
    (0 < total_lp_supply l →
      sov_out <= sov_amount ∧ token_out <= token_amount ∧
      sov * total_lp_supply l1 <= (sov + sov_amount) * total_lp_supply l ∧
      token * total_lp_supply l1 <= (token + token_amount) * total_lp_supply l) ∧
    (total_lp_supply l = 0 → sov_out = sov + sov_amount ∧ token_out = token + token_amount).
Proof.
  intros Hl Ha Hb Hx Hy Hxm Hym Hadd Hmax.
  pose proof (add_liquidity_ok _ _ _ _ _ _ _ _ _ Hadd) as (Hm & Hn & _). destruct (lp_range _ Hl) as [HT _].
  assert (0 < n) as Hn0.
  { destruct (decide (total_lp_supply l = 0)); [by eapply first_minted|].
    destruct (minted_share _ _ _ _ _ _ Hm) as [? _]; lia. }
  destruct (add_lp_ok _ _ _ _ _ _ _ _ _ Hadd Hl ltac:(lia) Hmax) as (_ & HT1 & _).
  destruct (withdraw_minted _ _ _ _ _ _ _ _ _ (sov + sov_amount) (token + token_amount) Hadd Hl Hn0 Hmax)
    as (l2 & Hrm & Hl2 & HT2 & Ht2); [unfold in_u; lia..|].
  do 3 eexists. split; [exact Hrm|]. split_and!; [done..| |].
  - intros Hpos. destruct (minted_share _ _ _ _ _ _ Hm Hpos) as (_ & Hs & Ht); [lia..|]. rewrite HT1.
    split_and!; [apply Z.div_le_upper_bound; nia|apply Z.div_le_upper_bound; nia|nia|nia].
  - intros ->. rewrite Z.add_0_l, !(Z.mul_comm n), !Z.div_mul by lia. done.
Qed.

(** ** Rewards *)

Definition rewards_ok (l : LpPositionsManager) : Prop :=
  in_u 64 (base_lp_pool l) ∧ in_u 64 (alignment_multiplier_pool l) ∧ in_u 64 (ubi_routing_pool l) ∧
  0 <= dao_health_score l <= 100.

(** A part of a pool by basis points and a percentage is at most the exact share. *)
Lemma stream_share pool share pct tokens total :
  in_u 64 pool → 0 <= share <= 10000 → 0 <= pct <= 100 → share * total <= tokens * 10000 → 0 < total →
  let x := wmul 128 (wmul 128 pool share) pct / (10000 * 100) in
  as_u 64 x = x ∧ 0 <= x <= pool ∧ x * total <= pool * tokens.
Proof.
  intros Hp Hs Hc Hle HT. cbv zeta. unfold in_u in Hp.
  assert (0 <= pool * share <= umax 64 * 10000) as H1 by nia.
  assert (0 <= pool * share * pct <= umax 64 * 10000 * 100) as H2 by nia.
  rewrite !wmul_small by (unfold umax in *; rewrite ?wmul_small; unfold umax in *; lia).
  assert (0 <= pool * share * pct / (10000 * 100) <= pool) as Hx.
  { split; [apply Z.div_pos; lia|]. apply Z.div_le_upper_bound; nia. }
  split; [apply as_u_small; unfold in_u; lia|]. split; [done|].
  pose proof (Z.mul_div_le (pool * share * pct) (10000 * 100) ltac:(lia)) as Hd.
  set (x := pool * share * pct / (10000 * 100)) in *.
  assert (pool * share * pct <= pool * share * 100) by nia.
  assert (pool * share * total <= pool * (tokens * 10000)) by nia. nia.
Qed.

Lemma stream_plain pool share :
  in_u 64 pool → 0 <= share <= 10000 →
  wmul 128 pool share / 10000 = wmul 128 (wmul 128 pool share) 100 / (10000 * 100).
Proof.
  intros Hp Hs. unfold in_u in Hp. assert (0 <= pool * share <= umax 64 * 10000) as H1 by nia.
  rewrite !wmul_small by (unfold umax in *; rewrite ?wmul_small; unfold umax in *; lia).
  by rewrite Z.div_mul_cancel_r.
Qed.

(** A claim stays within the provider's share.  Each of the three streams pays
    at most the provider's part of its pool, and is reduced by what it pays; the
    books of the providers do not change. *)
Theorem rewards_within_share who h l l' r :
  claim_lp_rewards who h l = Ok (l', r) → lp_ok l → rewards_ok l →
  base_yield r * total_lp_supply l <= base_lp_pool l * tokens_of who l ∧
  alignment_bonus r * total_lp_supply l <= alignment_multiplier_pool l * tokens_of who l ∧
  ubi_contribution r * total_lp_supply l <= ubi_routing_pool l * tokens_of who l ∧
  base_lp_pool l' = base_lp_pool l - base_yield r ∧
  alignment_multiplier_pool l' = alignment_multiplier_pool l - alignment_bonus r ∧
  ubi_routing_pool l' = ubi_routing_pool l - ubi_contribution r ∧
  total_lp_supply l' = total_lp_supply l ∧ lp_ok l' ∧ rewards_ok l' ∧
  (∀ w, tokens_of w l' = tokens_of w l).
Proof.
  unfold claim_lp_rewards. intros Hc Hl (Hb & Hal & Hu & Hh). pose proof (tokens_of_range who l Hl) as Ht.
  pose proof (lp_range _ Hl) as HT. unfold tokens_of in Ht |- *.
  destruct (positions l !! key_id who) as [q|] eqn:Hq; cbn [ok_or] in Hc; [|done].
  destruct (saturating_sub _ _ =? 0); [done|]. destruct (Z.eqb_spec (total_lp_supply l) 0); [done|].
  set (share := as_u 64 (wmul 128 (lp_tokens q) 10000 / total_lp_supply l)) in *.
  assert (0 <= share <= 10000 ∧ share * total_lp_supply l <= lp_tokens q * 10000) as [Hs Hle].
  { subst share. unfold in_u in HT. rewrite wmul_small by (unfold umax in *; lia).
    assert (0 <= lp_tokens q * 10000 / total_lp_supply l <= 10000) as Hr.
    { split; [apply Z.div_pos; lia|]. apply Z.div_le_upper_bound; lia. }
    rewrite as_u_small by (unfold in_u, umax; lia). split; [done|].
    pose proof (Z.mul_div_le (lp_tokens q * 10000) (total_lp_supply l)). lia. }
  rewrite !(stream_plain _ share) in Hc by done.
  destruct (stream_share (base_lp_pool l) share 100 (lp_tokens q) (total_lp_supply l)) as (E1 & R1 & S1); [done|done|lia|done|lia|].
  destruct (stream_share (alignment_multiplier_pool l) share (dao_health_score l) (lp_tokens q) (total_lp_supply l)) as (E2 & R2 & S2); [done|done|lia|done|lia|].
  destruct (stream_share (ubi_routing_pool l) share 100 (lp_tokens q) (total_lp_supply l)) as (E3 & R3 & S3); [done|done|lia|done|lia|].
  rewrite E1, E2, E3 in Hc. injection Hc as <- <-. cbn -[Z.div Z.mul wmul].
  unfold saturating_sub. rewrite !Z.max_l by lia.
  assert (∀ w, tokens_of w (set_positions (<[key_id who := set_claimed h q]> (positions l)) (total_lp_supply l) l) =
    tokens_of w l) as Hw.
  { intros w. unfold tokens_of. cbn. destruct (decide (key_id who = key_id w)) as [<-|Hne].
    - by rewrite lookup_insert_eq, Hq.
    - by rewrite lookup_insert_ne. }
  split_and!; try done.
  2: { unfold rewards_ok, in_u in *. cbn -[Z.div Z.mul wmul]. split_and!; lia. }
  destruct Hl as [Hp Hsup Hran]. split; cbn -[Z.div Z.mul wmul]; [|rewrite Hsup|done].
  - apply map_Forall_insert_2; [by apply (Hp _ _ Hq)|done].
  - unfold held. cbn -[Z.div Z.mul wmul]. rewrite msum_insert, Hq. cbn. lia.
Qed.

(** ** Limits of the pool *)

(** When the pending fees overflow, the swap is refused but its trade stays. *)
Lemma fee_overflow_keeps_trade amount p :
  pool_ok p → 0 < amount <= umax 64 →
  swap_out (amount - swap_fee amount p) (sov_reserve p) (token_reserve p) ≠ 0 →
  sov_reserve p + (amount - swap_fee amount p) <= umax 64 →
  umax 64 < pending_sov_fees p + swap_fee amount p →
  swap_sov_to_token amount None p = (bought amount p, Err SwapOverflow).
Proof.
  intros Hp Ha Ho Hx Hf. pose proof (buy_spec amount None p Hp) as Hb. cbv zeta in Hb.
  rewrite Hb by (unfold in_u; lia). unfold swap_result.
  rewrite (proj2 (Z.eqb_neq amount 0)) by lia. rewrite (proj2 (Z.eqb_neq _ 0)) by done. cbn [slipped].
  rewrite (proj2 (Z.ltb_ge _ _)) by done. by rewrite (proj2 (Z.ltb_lt _ _)) by done.
Qed.

(** The product of a first deposit saturates, so that every deposit of the minimum
    and some tokens mints the same number of shares. *)
Lemma first_deposit_flat sov_amount token_amount who h l :
  total_lp_supply l = 0 → MIN_LP_SOV <= sov_amount → 2 ^ 28 <= token_amount →
  ∃ l', add_liquidity sov_amount token_amount 0 0 who h l = Ok (l', 4294967295).
Proof.
  intros HT Hs Ht. unfold add_liquidity, lp_tokens_to_mint. rewrite HT.
  rewrite (proj2 (Z.ltb_ge _ _)) by done. cbn [Z.eqb].
  assert (saturating_mul 64 (Z.min sov_amount token_amount) (Z.max sov_amount token_amount) = umax 64) as ->.
  { unfold saturating_mul. apply Z.min_r. unfold MIN_LP_SOV, umax in *.
    replace (Z.min sov_amount token_amount * Z.max sov_amount token_amount) with (sov_amount * token_amount) by lia.
    nia. }
  assert (integer_sqrt_u64 (umax 64) = 4294967295) as -> by (vm_compute; reflexivity).
  eexists. reflexivity.
Qed.

(** ** Witnesses *)

Module Market.

Definition key (i : Z) : PublicKey := {| dilithium_pk := i; kyber_pk := 0; key_id := i |}.

Definition pool : SovSwapPool :=
  match init_pool (λ _, 7) 1 NP 1000000 2000000 (key 1) (key 2) with
  | Ok p => p
  | Err _ => set_reserves 0 0 0 {| pool_id := 0; token_id := 0; dao_type := NP;
      governance_addr := key 1; treasury_addr := key 2; initialized := false; sov_reserve := 0;
      token_reserve := 0; pool_k := 0; fee_bps := 0; pending_sov_fees := 0; pending_token_fees := 0 |}
  end.

Lemma pool_is_ok : pool_ok pool.
Proof. split; unfold in_u, umax; cbn; try done; unfold MAX_FEE_BPS; lia. Qed.

(** Buys 1000 SOV worth of tokens, sells 500 tokens, lowers the fee, sells the rest. *)
Definition session : list Trade :=
  [Buy 1000 None; Sell 500 (Some 1); SetFee (key 1) 0; CollectFees; Sell 1477 None].

(** Swaps whose fees overflow the pending fees move the price for nothing: between
    two of them, small swaps at the two prices gain SOV and tokens. *)
Definition clogged : SovSwapPool := set_fees 100 (umax 64) (umax 64) pool.
Definition pump : list Trade := [Buy 1000000 None; Sell 99 None; Sell 1000000 None; Buy 99 None].

Lemma fee_overflow_profits :
  fees_fit pump clogged = false ∧ (trades pump clogged).2 = (97, 98).
Proof. vm_compute. done. Qed.

Definition fund (l : LpPositionsManager) : LpPositionsManager := set_pools 1000 1000 1000 l.

(** Providers 1 and 2 with equal deposits. *)
Definition providers : LpPositionsManager :=
  match add_liquidity 100000000000 300000000 0 0 (key 1) 5 LpPositionsManager_new with
  | Ok (l, _) =>
      match add_liquidity 100000000000 300000000 100000000000 300000000 (key 2) 6 l with
      | Ok (l', _) => fund l'
      | Err _ => l
      end
  | Err _ => LpPositionsManager_new
  end.

Lemma providers_ok : lp_ok providers.
Proof.
  split.
  - apply map_Forall_to_list. vm_compute. repeat constructor; discriminate.
  - vm_compute. reflexivity.
  - split; vm_compute; discriminate.
Qed.

(** Each claim takes its share of what is left: a provider of half the supply takes
    three quarters of a pool in two blocks. *)
Lemma claims_repeat :
  tokens_of (key 1) providers * 2 = total_lp_supply providers ∧
  match claim_lp_rewards (key 1) 7 providers with
  | Ok (l, r) =>
      match claim_lp_rewards (key 1) 8 l with
      | Ok (l', r') => base_yield r + base_yield r' = 750 ∧ base_lp_pool l' = 250
      | Err _ => False
      end
  | Err _ => False
  end.
Proof. vm_compute. done. Qed.

End Market.

Lemma trading_never_profits_witness :
  (trades Market.session Market.pool).2 = (-14, 1) ∧
  pool_k Market.pool <= pool_k (trades Market.session Market.pool).1.
Proof.
  split; [vm_compute; reflexivity|].
  refine (proj1 (proj2 (trading_never_profits Market.session Market.pool
    (trades Market.session Market.pool).1 (trades Market.session Market.pool).2.1
    (trades Market.session Market.pool).2.2 _ _ _ _))).
  - vm_compute. reflexivity.
  - exact Market.pool_is_ok.
  - repeat constructor; unfold trade_wf, in_u, umax; lia.
  - vm_compute. reflexivity.
Defined.

Lemma simulation_exact_witness :
  is_ok (simulate_sov_to_token 1000 (Some 1900) Market.pool) = true ∧
  agrees 1000 sov_reserve token_reserve pending_sov_fees Market.pool
    (simulate_sov_to_token 1000 (Some 1900) Market.pool) (swap_sov_to_token 1000 (Some 1900) Market.pool).
Proof.
  split; [vm_compute; reflexivity|].
  refine (proj1 (simulation_exact 1000 (Some 1900) Market.pool Market.pool_is_ok _)).
  split; vm_compute; discriminate.
Defined.

Lemma liquidity_returns_witness :
  ∃ l1 l2 n sov_out token_out,
    add_liquidity 100000000000 500000000 200000000000 600000000 (Market.key 3) 9 Market.providers = Ok (l1, n) ∧
    remove_liquidity n 0 0 300000000000 1100000000 (Market.key 3) l1 = (l2, Ok (sov_out, token_out)) ∧
    sov_out <= 100000000000 ∧ token_out <= 500000000.
Proof.
  destruct (add_liquidity 100000000000 500000000 200000000000 600000000 (Market.key 3) 9 Market.providers)
    as [[l1 n]|e] eqn:Hadd; [|vm_compute in Hadd; discriminate Hadd].
  destruct (liquidity_returns 100000000000 500000000 200000000000 600000000 (Market.key 3) 9 Market.providers l1 n
    Market.providers_ok) as (l2 & so & to & Hr & _ & _ & _ & Hpaid & _).
  - lia.
  - lia.
  - lia.
  - lia.
  - vm_compute. discriminate.
  - vm_compute. discriminate.
  - exact Hadd.
  - vm_compute in Hadd. injection Hadd as _ <-. vm_compute. discriminate.
  - destruct Hpaid as (Hs & Ht & _); [vm_compute; reflexivity|].
    exists l1, l2, n, so, to. split; [reflexivity|]. split; [exact Hr|]. split; [exact Hs|exact Ht].
Defined.

Lemma rewards_within_share_witness :
  ∃ l r, claim_lp_rewards (Market.key 1) 7 Market.providers = Ok (l, r) ∧
    base_yield r * total_lp_supply Market.providers <= 1000 * tokens_of (Market.key 1) Market.providers.
Proof.
  destruct (claim_lp_rewards (Market.key 1) 7 Market.providers) as [[l r]|e] eqn:Hc;
    [|vm_compute in Hc; discriminate Hc].
  exists l, r. split; [reflexivity|].
  refine (proj1 (rewards_within_share (Market.key 1) 7 Market.providers l r Hc Market.providers_ok _)).
  unfold rewards_ok, in_u. vm_compute. repeat split; discriminate.
Defined.
