(* ===== verification/DaoStaking.v ===== *)
(** * Staking for the launch of DAOs (lib-blockchain)

    [SovDaoStaking] of [contracts/staking/sov_dao_staking.rs]: DAOs wait for a
    threshold of staked SOV and a number of stakers, launch as soon as both are
    met, and give the stakes of a DAO that missed its deadline back.  Operations
    are programs on the contract's state, since a stake can fail after it has
    been recorded: one that overflows a total stays in the staker's position.  The
    history of a run is a log of what the calls returned, such refusals included,
    and the theorems compare what was recorded for the stakers with what they get
    out.  Blake3 is a
    parameter. *)
From stdpp Require Import base tactics numbers list option gmap fin_maps strings.
From S2P Require Import Prelude TokenCore Codec Memo Swap.

(** ** Data *)

Record GlobalStakingGuardrails : Type := {
  min_threshold : Z; max_threshold : Z; guard_governance : PublicKey;
}.

Definition GlobalStakingGuardrails_default : GlobalStakingGuardrails := {|
  min_threshold := 10000 * 10 ^ 8; max_threshold := 10000000 * 10 ^ 8;
  guard_governance := zero_key |}.

Record PendingDao : Type := {
  pd_id : Z; pd_type : DAOType; token_name : string; token_symbol : string;
  threshold_sov : Z;     (* u64 *)
  min_stakers : Z;       (* u32 *)
  deadline_height : Z;   (* u64 *)
  total_staked : Z;      (* u64 *)
  staker_count : Z;      (* u32 *)
  pd_creator : PublicKey; metadata_hash : Z; created_height : Z;
}.

Record StakingPosition : Type := {
  staker : PublicKey; pos_amount : Z; staked_at_height : Z; claimed : bool;
}.

Record LaunchedDao : Type := {
  ld_id : Z; ld_token : PublicKey; ld_treasury : PublicKey; ld_total : Z; launch_height : Z;
}.

Record SovDaoStaking : Type := {
  guardrails : GlobalStakingGuardrails; pending_daos : list PendingDao;
  positions : gmap Z (list StakingPosition); launched_daos : gmap Z LaunchedDao;
  total_staked_sov : Z; (* u64 *)
}.

(** The messages of the code, with the numbers they print. *)
Inductive StakingError : Type :=
| BelowMinimum (threshold minimum : Z) | AboveMaximum (threshold maximum : Z)
| TooFewStakers (n : Z) | BadDeadline (lo hi blocks : Z) | DaoExists | LaunchedExists
| PendingNotFound | StakingClosed | BelowMinStake (minimum amount : Z)
| StakeAmountOverflow | TotalStakedOverflow | TotalLockedOverflow
| NotLaunched | NoPositions | StakerNotFound | TokensAlreadyClaimed
| DeadlineNotPassed | ThresholdWasMet | NotFoundOrClaimed.

Notation SM := (M SovDaoStaking StakingError) (only parsing).

Definition SovDaoStaking_new (governance : PublicKey) : SovDaoStaking := {|
  guardrails := {| min_threshold := min_threshold GlobalStakingGuardrails_default;
                   max_threshold := max_threshold GlobalStakingGuardrails_default;
                   guard_governance := governance |};
  pending_daos := []; positions := ∅; launched_daos := ∅; total_staked_sov := 0 |}.

(** ** Updates *)

(** The first element that satisfies [f], changed by [g] or removed. *)
Fixpoint update_first {A : Type} (f : A → bool) (g : A → A) (l : list A) : list A :=
  match l with
  | [] => []
  | x :: l' => if f x then g x :: l' else x :: update_first f g l'
  end.

Fixpoint remove_first {A : Type} (f : A → bool) (l : list A) : list A :=
  match l with
  | [] => []
  | x :: l' => if f x then l' else x :: remove_first f l'
  end.

Definition is_dao (id : Z) (d : PendingDao) : bool := pd_id d =? id.
Definition is_staker (c : PublicKey) (p : StakingPosition) : bool := bool_decide (staker p = c).

Definition find_dao (id : Z) (s : SovDaoStaking) : option PendingDao :=
  List.find (is_dao id) (pending_daos s).

Definition find_staker (c : PublicKey) (ps : list StakingPosition) : option StakingPosition :=
  List.find (is_staker c) ps.

Definition with_pos_amount (n : Z) (p : StakingPosition) : StakingPosition := {|
  staker := staker p; pos_amount := n; staked_at_height := staked_at_height p;
  claimed := claimed p |}.

Definition mark_position (p : StakingPosition) : StakingPosition := {|
  staker := staker p; pos_amount := pos_amount p; staked_at_height := staked_at_height p;
  claimed := true |}.

Definition with_stake (total count : Z) (d : PendingDao) : PendingDao := {|
  pd_id := pd_id d; pd_type := pd_type d; token_name := token_name d;
  token_symbol := token_symbol d; threshold_sov := threshold_sov d; min_stakers := min_stakers d;
  deadline_height := deadline_height d; total_staked := total; staker_count := count;
  pd_creator := pd_creator d; metadata_hash := metadata_hash d; created_height := created_height d |}.

Definition set_pending (l : list PendingDao) (s : SovDaoStaking) : SovDaoStaking := {|
  guardrails := guardrails s; pending_daos := l; positions := positions s;
  launched_daos := launched_daos s; total_staked_sov := total_staked_sov s |}.

Definition set_positions (id : Z) (ps : list StakingPosition) (s : SovDaoStaking) : SovDaoStaking := {|
  guardrails := guardrails s; pending_daos := pending_daos s;
  positions := <[id := ps]> (positions s);
  launched_daos := launched_daos s; total_staked_sov := total_staked_sov s |}.

Definition set_total (n : Z) (s : SovDaoStaking) : SovDaoStaking := {|
  guardrails := guardrails s; pending_daos := pending_daos s; positions := positions s;
  launched_daos := launched_daos s; total_staked_sov := n |}.

Definition set_launched (l : gmap Z LaunchedDao) (s : SovDaoStaking) : SovDaoStaking := {|
  guardrails := guardrails s; pending_daos := pending_daos s; positions := positions s;
  launched_daos := l; total_staked_sov := total_staked_sov s |}.

Definition on_dao (id : Z) (g : PendingDao → PendingDao) (s : SovDaoStaking) : SovDaoStaking :=
  set_pending (update_first (is_dao id) g (pending_daos s)) s.

(** ** Views *)

Definition get_dao_positions (id : Z) (s : SovDaoStaking) : list StakingPosition :=
  default [] (positions s !! id).

Definition get_staker_position (id : Z) (c : PublicKey) (s : SovDaoStaking)
    : option StakingPosition :=
  ps ← positions s !! id; find_staker c ps.

(** Enough stake and enough stakers. *)
Definition threshold_met (d : PendingDao) : bool :=
  (threshold_sov d <=? total_staked d) && (min_stakers d <=? staker_count d).

(** ** Operations *)

Section Staking.
Context (blake3 : list Z → Z).

Definition derive_pending_dao_id (name symbol : string) (threshold metadata creator_key : Z) : Z :=
  blake3 (str_bytes "pending_dao" ++ str_bytes name ++ str_bytes symbol ++
          rev (be_bytes 8 threshold) ++ be_bytes 32 metadata ++ be_bytes 32 creator_key).

(** A key whose arrays start with a hash of the identifier and are zero after it. *)
Definition derived_key (dilithium_tag kyber_tag : string) (id : Z) : PublicKey := {|
  dilithium_pk := blake3 (str_bytes dilithium_tag ++ be_bytes 32 id) * 2 ^ (8 * (2592 - 32));
  kyber_pk := blake3 (str_bytes kyber_tag ++ be_bytes 32 id) * 2 ^ (8 * (1568 - 32));
  key_id := id |}.

Definition derive_token_address (d : PendingDao) (current_height : Z) : PublicKey :=
  derived_key "dao_token_dilithium" "dao_token_kyber"
    (blake3 (str_bytes "token_addr" ++ be_bytes 32 (pd_id d) ++ rev (be_bytes 8 current_height))).

Definition derive_treasury_address (d : PendingDao) (current_height : Z) : PublicKey :=
  derived_key "dao_treasury_dilithium" "dao_treasury_kyber"
    (blake3 (str_bytes "treasury_addr" ++ be_bytes 32 (pd_id d) ++ rev (be_bytes 8 current_height))).

Definition MIN_DEADLINE_BLOCKS : Z := 30 * 8640.
Definition MAX_DEADLINE_BLOCKS : Z := 365 * 8640.
Definition MIN_STAKE : Z := 1000 * 10 ^ 8.

Definition create_pending_dao (t : DAOType) (name symbol : string) (threshold stakers blocks
    metadata : Z) (c : PublicKey) (current_height : Z) : SM Z :=
  s <- gets (λ s, s) ;;
  let g := guardrails s in
  guard (min_threshold g <=? threshold) (BelowMinimum threshold (min_threshold g)) ;;;
  guard (threshold <=? max_threshold g) (AboveMaximum threshold (max_threshold g)) ;;;
  guard (10 <=? stakers) (TooFewStakers stakers) ;;;
  guard ((MIN_DEADLINE_BLOCKS <=? blocks) && (blocks <=? MAX_DEADLINE_BLOCKS))
    (BadDeadline MIN_DEADLINE_BLOCKS MAX_DEADLINE_BLOCKS blocks) ;;;
  let id := derive_pending_dao_id name symbol threshold metadata (key_id c) in
  guard (negb (existsb (is_dao id) (pending_daos s))) DaoExists ;;;
  guard (bool_decide (launched_daos s !! id = None)) LaunchedExists ;;;
  let d := {| pd_id := id; pd_type := t; token_name := name; token_symbol := symbol;
              threshold_sov := threshold; min_stakers := stakers;
              deadline_height := wadd 64 current_height blocks; total_staked := 0;
              staker_count := 0; pd_creator := c; metadata_hash := metadata;
              created_height := current_height |} in
  modify (λ s, set_pending (pending_daos s ++ [d]) s) ;;;
  modify (set_positions id []) ;;;
  ret id.

Definition try_launch_dao (id current_height : Z) : SM unit :=
  s <- gets (λ s, s) ;;
  match find_dao id s with
  | None => ret tt
  | Some d =>
      if threshold_met d then
        let l := {| ld_id := id; ld_token := derive_token_address d current_height;
                    ld_treasury := derive_treasury_address d current_height;
                    ld_total := total_staked d; launch_height := current_height |} in
        modify (λ s, set_launched (<[id := l]> (launched_daos s)) s) ;;;
        modify (λ s, set_pending (remove_first (is_dao id) (pending_daos s)) s)
      else ret tt
  end.

Definition stake_for_dao (id amount : Z) (c : PublicKey) (current_height : Z) : SM unit :=
  s <- gets (λ s, s) ;;
  d <- lift (ok_or (find_dao id s) PendingNotFound) ;;
  guard (current_height <? deadline_height d) StakingClosed ;;;
  guard (MIN_STAKE <=? amount) (BelowMinStake (MIN_STAKE / 10 ^ 8) (amount / 10 ^ 8)) ;;;
  let ps := get_dao_positions id s in
  modify (set_positions id ps) ;;;
  (match find_staker c ps with
   | Some p =>
       n <- lift (ok_or (checked_add 64 (pos_amount p) amount) StakeAmountOverflow) ;;
       modify (set_positions id (update_first (is_staker c) (with_pos_amount n) ps))
   | None =>
       modify (set_positions id (ps ++ [{| staker := c; pos_amount := amount;
                                           staked_at_height := current_height;
                                           claimed := false |}])) ;;;
       modify (on_dao id (λ d, with_stake (total_staked d) (wadd 32 (staker_count d) 1) d))
   end) ;;;
  total <- lift (ok_or (checked_add 64 (total_staked d) amount) TotalStakedOverflow) ;;
  modify (on_dao id (λ d, with_stake total (staker_count d) d)) ;;;
  locked <- gets total_staked_sov ;;
  n <- lift (ok_or (checked_add 64 locked amount) TotalLockedOverflow) ;;
  modify (set_total n) ;;;
  try_launch_dao id current_height.

Definition claim_dao_tokens (id : Z) (c : PublicKey) : SM Z :=
  s <- gets (λ s, s) ;;
  _ <- lift (ok_or (launched_daos s !! id) NotLaunched) ;;
  ps <- lift (ok_or (positions s !! id) NoPositions) ;;
  p <- lift (ok_or (find_staker c ps) StakerNotFound) ;;
  guard (negb (claimed p)) TokensAlreadyClaimed ;;;
  modify (set_positions id (update_first (is_staker c) mark_position ps)) ;;;
  ret (pos_amount p).

Definition unstake_failed_dao (id : Z) (c : PublicKey) (current_height : Z) : SM Z :=
  s <- gets (λ s, s) ;;
  d <- lift (ok_or (find_dao id s) PendingNotFound) ;;
  guard (deadline_height d <? current_height) DeadlineNotPassed ;;;
  guard (negb (threshold_met d)) ThresholdWasMet ;;;
  ps <- lift (ok_or (positions s !! id) NoPositions) ;;
  let unpaid := λ p, is_staker c p && negb (claimed p) in
  p <- lift (ok_or (List.find unpaid ps) NotFoundOrClaimed) ;;
  modify (set_positions id (update_first unpaid mark_position ps)) ;;;
  modify (λ s, set_total (saturating_sub (total_staked_sov s) (pos_amount p)) s) ;;;
  ret (pos_amount p).

End Staking.

(** ** Runs *)

(** What the calls of a run returned. *)
Inductive StakeEvent : Type :=
| Created (id threshold stakers deadline : Z)
| Staked (id : Z) (c : PublicKey) (amount : Z)
| Refused (id : Z) (c : PublicKey) (amount : Z)
| Refunded (id : Z) (c : PublicKey) (amount : Z)
| Tokens (id : Z) (c : PublicKey) (amount : Z).

(** What [c] staked for the DAO, what was recorded for [c] by stakes that then were
    refused, both together, and what [c] was given for it. *)
Definition staked_by (log : list StakeEvent) (id : Z) (c : PublicKey) : Z :=
  sumZ (omap (λ e, match e with
                   | Staked i k a => if bool_decide (i = id ∧ k = c) then Some a else None
                   | _ => None end) log).

Definition refused_by (log : list StakeEvent) (id : Z) (c : PublicKey) : Z :=
  sumZ (omap (λ e, match e with
                   | Refused i k a => if bool_decide (i = id ∧ k = c) then Some a else None
                   | _ => None end) log).

Definition recorded_by (log : list StakeEvent) (id : Z) (c : PublicKey) : Z :=
  staked_by log id c + refused_by log id c.

Definition settled (log : list StakeEvent) (id : Z) (c : PublicKey) : list Z :=
  omap (λ e, match e with
             | Refunded i k a | Tokens i k a => if bool_decide (i = id ∧ k = c) then Some a else None
             | _ => None end) log.

(** The DAOs for which a stake was refused after it had been recorded. *)
Definition refusals (log : list StakeEvent) : list Z :=
  omap (λ e, match e with Refused i _ _ => Some i | _ => None end) log.

Definition staked_total (log : list StakeEvent) : Z :=
  sumZ (map (λ e, match e with Staked _ _ a => a | _ => 0 end) log).
Definition refunded_total (log : list StakeEvent) : Z :=
  sumZ (map (λ e, match e with Refunded _ _ a => a | _ => 0 end) log).

(** What a call of [stake_for_dao] leaves in the log: the overflows of the two totals
    come after the position was written, that of the position itself before. *)
Definition stake_event (id : Z) (c : PublicKey) (amount : Z) (r : result unit StakingError)
    : list StakeEvent :=
  match r with
  | Ok _ => [Staked id c amount]
  | Err TotalStakedOverflow | Err TotalLockedOverflow => [Refused id c amount]
  | Err _ => []
  end.

Section Runs.
Context (blake3 : list Z → Z).

(** Any calls, at heights that do not decrease and leave room for a deadline. *)
Inductive staking_run : Z → list StakeEvent → SovDaoStaking → Prop :=
| run_start governance : staking_run 0 [] (SovDaoStaking_new governance)
| run_create now log s t name symbol threshold stakers blocks metadata c h s' r :
    staking_run now log s → now <= h → h + MAX_DEADLINE_BLOCKS <= umax 64 →
    create_pending_dao blake3 t name symbol threshold stakers blocks metadata c h s = (s', r) →
    staking_run h (match r with
                   | Ok id => Created id threshold stakers (h + blocks) :: log
                   | Err _ => log end) s'
| run_stake now log s id amount c h s' r :
    staking_run now log s → now <= h → in_u 64 amount →
    stake_for_dao blake3 id amount c h s = (s', r) →
    staking_run h (stake_event id c amount r ++ log) s'
| run_claim now log s id c s' r :
    staking_run now log s → claim_dao_tokens id c s = (s', r) →
    staking_run now (match r with Ok a => Tokens id c a :: log | Err _ => log end) s'
| run_unstake now log s id c h s' r :
    staking_run now log s → now <= h → unstake_failed_dao id c h s = (s', r) →
    staking_run h (match r with Ok a => Refunded id c a :: log | Err _ => log end) s'.

End Runs.

(** ** Searching and updating a list *)

Lemma find_split {A : Type} (f : A → bool) (l : list A) (x : A) :
  List.find f l = Some x →
  ∃ l1 l2, l = l1 ++ x :: l2 ∧ f x = true ∧ Forall (λ y, f y = false) l1 ∧
    remove_first f l = l1 ++ l2 ∧ ∀ g, update_first f g l = l1 ++ g x :: l2.
Proof.
  induction l as [|y l IH]; simpl; [done|]. destruct (f y) eqn:Hy; intros Hf.
  - injection Hf as ->. by exists [], l.
  - destruct (IH Hf) as (l1 & l2 & -> & Hx & Hl & Hr & Hu). exists (y :: l1), l2.
    repeat split; [done|by constructor|by rewrite Hr|intros g; by rewrite Hu].
Qed.

Lemma find_none_iff {A : Type} (f : A → bool) (l : list A) :
  List.find f l = None ↔ Forall (λ y, f y = false) l.
Proof.
  induction l as [|y l IH]; simpl; [by split; constructor|].
  destruct (f y) eqn:Hy; [split; [done|intros H; inversion H; congruence]|].
  rewrite IH, Forall_cons. tauto.
Qed.

Lemma map_update {A B : Type} (f : A → bool) (g : A → A) (h : A → B) (l : list A) :
  (∀ x, h (g x) = h x) → map h (update_first f g l) = map h l.
Proof. intros Hg. induction l as [|x l IH]; simpl; [done|]. destruct (f x); simpl; by rewrite ?Hg, ?IH. Qed.

Lemma sum_update {A : Type} (f : A → bool) (g : A → A) (h : A → Z) (l : list A) (x : A) :
  List.find f l = Some x →
  sumZ (map h (update_first f g l)) = sumZ (map h l) + h (g x) - h x.
Proof.
  intros (l1 & l2 & -> & _ & _ & _ & Hu)%find_split. rewrite Hu, !map_app, !sumZ_app. simpl. lia.
Qed.

Lemma is_staker_true c p : is_staker c p = true ↔ staker p = c.
Proof. apply bool_decide_eq_true. Qed.

Lemma find_staker_update c c' g ps :
  (∀ p, staker (g p) = staker p) →
  find_staker c' (update_first (is_staker c) g ps) =
  if decide (c = c') then g <$> find_staker c ps else find_staker c' ps.
Proof.
  intros Hg. unfold find_staker, is_staker.
  induction ps as [|p ps IH]; simpl; [by case_decide|].
  destruct (bool_decide_reflect (staker p = c)) as [Hp|Hp]; simpl.
  - rewrite Hg. case_decide; subst; by repeat case_bool_decide.
  - rewrite IH. case_decide; [subst; by rewrite bool_decide_eq_false_2 by done|done].
Qed.

Lemma find_staker_snoc c ps p :
  find_staker c (ps ++ [p]) =
  match find_staker c ps with Some q => Some q | None => if decide (staker p = c) then Some p else None end.
Proof.
  unfold find_staker, is_staker. induction ps as [|q ps IH]; simpl.
  - case_decide; by case_bool_decide.
  - by case_bool_decide.
Qed.

Lemma find_staker_none c ps : find_staker c ps = None ↔ c ∉ map staker ps.
Proof.
  unfold find_staker. rewrite find_none_iff, Forall_forall. split.
  - intros Hp (p & -> & Hin)%list_elem_of_fmap. specialize (Hp p Hin).
    by apply bool_decide_eq_false in Hp.
  - intros Hn p Hin. apply bool_decide_eq_false. intros <-. by apply Hn, list_elem_of_fmap_2.
Qed.

Lemma find_staker_some c ps p : find_staker c ps = Some p → p ∈ ps ∧ staker p = c.
Proof.
  intros Hf. apply find_split in Hf as (l1 & l2 & -> & Hp & _). split; [|by apply is_staker_true].
  apply elem_of_app. right. left.
Qed.

Lemma find_staker_elem p ps : NoDup (map staker ps) → p ∈ ps → find_staker (staker p) ps = Some p.
Proof.
  unfold find_staker, is_staker. intros Hn Hp. induction ps as [|q ps IH]; [by apply elem_of_nil in Hp|].
  simpl in *. apply NoDup_cons in Hn as [Hq Hn]. apply elem_of_cons in Hp as [->|Hp].
  - by rewrite bool_decide_eq_true_2.
  - rewrite bool_decide_eq_false_2; [by apply IH|]. intros Heq. apply Hq. rewrite Heq.
    by apply list_elem_of_fmap_2.
Qed.

(** The position of a staker that was not paid is the staker's position. *)
Lemma find_unpaid c ps :
  NoDup (map staker ps) →
  List.find (λ p, is_staker c p && negb (claimed p)) ps =
    (p ← find_staker c ps; if claimed p then None else Some p) ∧
  ∀ p g, find_staker c ps = Some p → claimed p = false →
    update_first (λ p, is_staker c p && negb (claimed p)) g ps = update_first (is_staker c) g ps.
Proof.
  intros Hn. unfold find_staker. induction ps as [|q ps IH]; simpl in *; [done|].
  apply NoDup_cons in Hn as [Hq Hn]. destruct (IH Hn) as [IH1 IH2].
  destruct (is_staker c q) eqn:Hc; simpl.
  - apply is_staker_true in Hc. subst c. destruct (claimed q) eqn:Hcl; simpl.
    + split; [|intros p g [= <-] Hf; congruence]. rewrite IH1.
      fold (find_staker (staker q) ps). by rewrite (proj2 (find_staker_none _ _) Hq).
    + by split.
  - split; [done|]. intros p g Hp Hcl. f_equal. by eapply IH2.
Qed.

Lemma find_dao_some id s d : find_dao id s = Some d → d ∈ pending_daos s ∧ pd_id d = id.
Proof.
  intros Hf. apply find_split in Hf as (l1 & l2 & -> & Hp & _). split; [|by apply Z.eqb_eq in Hp].
  apply elem_of_app. right. left.
Qed.

Lemma find_dao_elem d s :
  NoDup (map pd_id (pending_daos s)) → d ∈ pending_daos s → find_dao (pd_id d) s = Some d.
Proof.
  unfold find_dao, is_dao. intros Hn Hp. induction (pending_daos s) as [|q l IH]; [by apply elem_of_nil in Hp|].
  simpl in *. apply NoDup_cons in Hn as [Hq Hn]. apply elem_of_cons in Hp as [->|Hp].
  - by rewrite Z.eqb_refl.
  - rewrite (proj2 (Z.eqb_neq _ _)); [by apply IH|]. intros Heq. apply Hq. rewrite Heq.
    by apply list_elem_of_fmap_2.
Qed.

(** ** The invariant *)

(** The positions of a DAO are its part of the log: one per staker, of at least
    the minimum, with everything recorded for the staker, and marked once it was
    paid. *)
Definition book_ok (log : list StakeEvent) (id : Z) (ps : list StakingPosition) : Prop :=
  NoDup (map staker ps) ∧
  ∀ c, match find_staker c ps with
       | None => recorded_by log id c = 0 ∧ settled log id c = []
       | Some p => recorded_by log id c = pos_amount p ∧ MIN_STAKE <= pos_amount p ∧
                   settled log id c = if claimed p then [pos_amount p] else []
       end.

Definition stake_sum (ps : list StakingPosition) : Z := sumZ (map pos_amount ps).

Definition pending_ok (now : Z) (log : list StakeEvent) (s : SovDaoStaking) (d : PendingDao) : Prop :=
  let ps := get_dao_positions (pd_id d) s in
  launched_daos s !! pd_id d = None ∧
  total_staked d <= stake_sum ps ∧ (pd_id d ∉ refusals log → total_staked d = stake_sum ps) ∧
  staker_count d = as_u 32 (lenZ ps) ∧
  Created (pd_id d) (threshold_sov d) (min_stakers d) (deadline_height d) ∈ log ∧
  (now <= deadline_height d → Forall (λ p, claimed p = false) ps).

(** What a launched DAO was promised when it was created. *)
Definition launched_ok (log : list StakeEvent) (s : SovDaoStaking) (id : Z) (l : LaunchedDao) : Prop :=
  ∃ threshold stakers deadline,
    Created id threshold stakers deadline ∈ log ∧
    threshold <= ld_total l ∧ ld_total l <= stake_sum (get_dao_positions id s) ∧
    (id ∉ refusals log → ld_total l = stake_sum (get_dao_positions id s)) ∧
    stakers <= lenZ (get_dao_positions id s) ∧ launch_height l < deadline.

Definition event_ok (s : SovDaoStaking) (e : StakeEvent) : Prop :=
  match e with
  | Created _ threshold stakers _ =>
      min_threshold GlobalStakingGuardrails_default <= threshold
        <= max_threshold GlobalStakingGuardrails_default ∧ 10 <= stakers
  | Staked _ _ _ | Refused _ _ _ => True
  | Refunded id _ _ => launched_daos s !! id = None
  | Tokens id _ _ => is_Some (launched_daos s !! id)
  end.

(** The SOV the contract still counts: everything but what it refunded. *)
Definition dao_locked (launched : bool) (ps : list StakingPosition) : Z :=
  sumZ (map (λ p, if negb launched && claimed p then 0 else pos_amount p) ps).

Definition is_launched (s : SovDaoStaking) (id : Z) : bool :=
  bool_decide (is_Some (launched_daos s !! id)).

Definition locked (s : SovDaoStaking) : Z :=
  msum (λ id ps, dao_locked (is_launched s id) ps) (positions s).

Record staking_inv (now : Z) (log : list StakeEvent) (s : SovDaoStaking) : Prop := {
  inv_limits : min_threshold (guardrails s) = min_threshold GlobalStakingGuardrails_default ∧
               max_threshold (guardrails s) = max_threshold GlobalStakingGuardrails_default;
  inv_ids : NoDup (map pd_id (pending_daos s));
  inv_known : ∀ id, is_Some (positions s !! id) ↔
                (∃ d, d ∈ pending_daos s ∧ pd_id d = id) ∨ is_Some (launched_daos s !! id);
  inv_book : ∀ id, book_ok log id (get_dao_positions id s);
  inv_pending : ∀ d, d ∈ pending_daos s → pending_ok now log s d;
  inv_launched : ∀ id l, launched_daos s !! id = Some l → launched_ok log s id l;
  inv_events : Forall (event_ok s) log;
  inv_locked : refusals log = [] → total_staked_sov s = locked s;
  inv_sums : refusals log = [] → total_staked_sov s = staked_total log - refunded_total log;
}.

(** Every DAO that waits lacks stake or stakers, unless a stake was refused for it. *)
Definition waiting (log : list StakeEvent) (s : SovDaoStaking) : Prop :=
  ∀ d, d ∈ pending_daos s → threshold_met d = true → pd_id d ∈ refusals log.

(** *** The log *)

Lemma staked_by_cons e log id c :
  staked_by (e :: log) id c =
  match e with Staked i k a => if bool_decide (i = id ∧ k = c) then a else 0 | _ => 0 end +
  staked_by log id c.
Proof. unfold staked_by. destruct e; simpl; try reflexivity. by case_bool_decide. Qed.

Lemma refused_by_cons e log id c :
  refused_by (e :: log) id c =
  match e with Refused i k a => if bool_decide (i = id ∧ k = c) then a else 0 | _ => 0 end +
  refused_by log id c.
Proof. unfold refused_by. destruct e; simpl; try reflexivity. by case_bool_decide. Qed.

Lemma recorded_by_cons e log id c :
  recorded_by (e :: log) id c =
  match e with
  | Staked i k a | Refused i k a => if bool_decide (i = id ∧ k = c) then a else 0
  | _ => 0 end + recorded_by log id c.
Proof.
  unfold recorded_by. rewrite staked_by_cons, refused_by_cons.
  destruct e; try case_bool_decide; lia.
Qed.

Lemma refused_by_none log id c : id ∉ refusals log → refused_by log id c = 0.
Proof.
  induction log as [|e log IH]; [done|]. rewrite refused_by_cons. unfold refusals in *.
  destruct e; simpl; try exact IH. rewrite not_elem_of_cons. intros [Hne Hn].
  rewrite bool_decide_eq_false_2 by naive_solver. by apply IH.
Qed.

Lemma refusals_mono log log' id : (∀ e, e ∈ log → e ∈ log') → id ∈ refusals log → id ∈ refusals log'.
Proof. unfold refusals. intros Hl. rewrite !list_elem_of_omap. intros (e & He & Heq). eauto. Qed.

Lemma settled_cons e log id c :
  settled (e :: log) id c =
  match e with
  | Refunded i k a | Tokens i k a => if bool_decide (i = id ∧ k = c) then [a] else []
  | _ => [] end ++ settled log id c.
Proof. unfold settled. destruct e; simpl; try done; by case_bool_decide. Qed.

Lemma settled_elem log id c a :
  Refunded id c a ∈ log ∨ Tokens id c a ∈ log → a ∈ settled log id c.
Proof.
  unfold settled. rewrite list_elem_of_omap.
  intros [He|He]; eexists; (split; [exact He|]); simpl; by rewrite bool_decide_eq_true_2.
Qed.

Lemma get_positions_set id id' ps s :
  get_dao_positions id' (set_positions id ps s) =
  if decide (id = id') then ps else get_dao_positions id' s.
Proof.
  unfold get_dao_positions; simpl. case_decide; [subst; by rewrite lookup_insert_eq|by rewrite lookup_insert_ne].
Qed.

Lemma book_cons_other e log id ps :
  match e with Created _ _ _ _ => True | Staked i _ _ | Refused i _ _ | Refunded i _ _ | Tokens i _ _ => i ≠ id end →
  book_ok log id ps → book_ok (e :: log) id ps.
Proof.
  intros He [Hn Hb]. split; [done|]. intros c. specialize (Hb c).
  rewrite recorded_by_cons, settled_cons. destruct e; try rewrite !bool_decide_eq_false_2 by naive_solver;
    simpl; by rewrite ?Z.add_0_l.
Qed.

(** A position that is paid. *)
Lemma book_settle e log id c p ps :
  e = Refunded id c (pos_amount p) ∨ e = Tokens id c (pos_amount p) →
  book_ok log id ps → find_staker c ps = Some p → claimed p = false →
  book_ok (e :: log) id (update_first (is_staker c) mark_position ps).
Proof.
  intros He [Hn Hb] Hp Hc. split; [by rewrite map_update|]. intros k.
  rewrite find_staker_update by done. specialize (Hb k) as Hk.
  rewrite recorded_by_cons, settled_cons. destruct (decide (c = k)) as [<-|Hne].
  - rewrite Hp in Hk |- *. rewrite Hc in Hk. destruct Hk as (H1 & H2 & H3). simpl. rewrite H3.
    destruct He as [-> | ->]; rewrite bool_decide_eq_true_2 by done; repeat split; (done || lia).
  - destruct He as [-> | ->]; rewrite bool_decide_eq_false_2 by naive_solver; simpl;
      by rewrite ?Z.add_0_l.
Qed.

(** The positions after a stake. *)
Definition add_stake (c : PublicKey) (amount h : Z) (ps : list StakingPosition)
    : list StakingPosition :=
  match find_staker c ps with
  | Some p => update_first (is_staker c) (with_pos_amount (pos_amount p + amount)) ps
  | None => ps ++ [{| staker := c; pos_amount := amount; staked_at_height := h; claimed := false |}]
  end.

Lemma book_stake e log id c a h ps :
  e = Staked id c a ∨ e = Refused id c a →
  book_ok log id ps → Forall (λ p, claimed p = false) ps → MIN_STAKE <= a →
  book_ok (e :: log) id (add_stake c a h ps).
Proof.
  intros He [Hn Hb] Hc Ha.
  assert (∀ k, recorded_by (e :: log) id k = (if decide (c = k) then a else 0) + recorded_by log id k ∧
               settled (e :: log) id k = settled log id k) as Hlog.
  { intros k. rewrite recorded_by_cons, settled_cons.
    destruct He as [-> | ->]; case_decide; case_bool_decide; simpl; naive_solver. }
  unfold add_stake. destruct (find_staker c ps) as [p|] eqn:Hp; split.
  - by rewrite map_update.
  - intros k. destruct (Hlog k) as [-> ->]. rewrite find_staker_update by done. specialize (Hb k) as Hk.
    destruct (decide (c = k)) as [<-|Hne]; [|by rewrite Z.add_0_l].
    rewrite Hp in Hk |- *. simpl.
    destruct Hk as (H1 & H2 & H3). repeat split; [lia|unfold MIN_STAKE in *; lia|].
    rewrite (proj1 (Forall_forall _ _) Hc p) in H3 |- * by by apply find_staker_some in Hp as [? _]. done.
  - rewrite map_app. simpl. apply NoDup_app. split; [done|]. split; [|apply NoDup_singleton].
    intros k Hk. apply find_staker_none in Hp. intros ->%list_elem_of_singleton. done.
  - intros k. destruct (Hlog k) as [-> ->]. rewrite find_staker_snoc. specialize (Hb k) as Hk. simpl.
    destruct (decide (c = k)) as [<-|Hne]; [|rewrite Z.add_0_l; by destruct (find_staker k ps)].
    rewrite Hp in Hk |- *. repeat split; naive_solver lia.
Qed.

Lemma add_stake_sum c a h ps :
  stake_sum (add_stake c a h ps) = stake_sum ps + a ∧
  lenZ (add_stake c a h ps) = lenZ ps + match find_staker c ps with Some _ => 0 | None => 1 end ∧
  (Forall (λ p, claimed p = false) ps → Forall (λ p, claimed p = false) (add_stake c a h ps)) ∧
  ∀ l, (l = false → Forall (λ p, claimed p = false) ps) →
    dao_locked l (add_stake c a h ps) = dao_locked l ps + a.
Proof.
  unfold add_stake, stake_sum, dao_locked, lenZ. destruct (find_staker c ps) as [p|] eqn:Hp.
  - split; [erewrite sum_update by done; simpl; lia|].
    apply find_split in Hp as (l1 & l2 & -> & _ & _ & _ & Hu). rewrite Hu.
    split; [rewrite !length_app; simpl; lia|]. split; [rewrite !Forall_app, !Forall_cons; naive_solver|].
    intros l Hl. rewrite !map_app, !sumZ_app. simpl.
    assert (negb l && claimed p = false) as ->; [|lia]. destruct l; [done|].
    specialize (Hl eq_refl). rewrite Forall_app, Forall_cons in Hl. simpl. tauto.
  - rewrite !map_app, !length_app, !sumZ_app, Forall_app, Forall_singleton. simpl.
    split_and!; [lia|lia|done|]. intros l _. rewrite map_app, sumZ_app. simpl. rewrite andb_false_r. lia.
Qed.

(** *** What each call does *)

Lemma update_first_twice {A : Type} (f : A → bool) (g1 g2 : A → A) (l : list A) :
  (∀ x, f (g1 x) = f x) →
  update_first f g2 (update_first f g1 l) = update_first f (λ x, g2 (g1 x)) l.
Proof.
  intros Hf. induction l as [|x l IH]; simpl; [done|].
  destruct (f x) eqn:Hx; simpl; rewrite ?Hf, Hx; [done|by rewrite IH].
Qed.

Lemma update_first_const {A : Type} (f : A → bool) (g : A → A) (l : list A) (x : A) :
  List.find f l = Some x → update_first f g l = update_first f (λ _, g x) l.
Proof. intros (l1 & l2 & -> & _ & _ & _ & Hu)%find_split. by rewrite !Hu. Qed.

Lemma update_first_same {A : Type} (f : A → bool) (l : list A) (x : A) :
  List.find f l = Some x → update_first f (λ _, x) l = l.
Proof. intros (l1 & l2 & -> & _ & _ & _ & Hu)%find_split. by rewrite Hu. Qed.

(** The state after a stake was recorded, before the DAO is launched; [total] and
    [sov] are the new totals of the DAO and of the contract. *)
Definition recorded_state (d : PendingDao) (c : PublicKey) (a h total sov : Z) (s : SovDaoStaking)
    : SovDaoStaking :=
  let ps := get_dao_positions (pd_id d) s in
  let count := match find_staker c ps with
               | Some _ => staker_count d | None => wadd 32 (staker_count d) 1 end in
  set_total sov
    (set_positions (pd_id d) (add_stake c a h ps)
       (on_dao (pd_id d) (λ x, with_stake total count d) s)).

Definition staked_state (d : PendingDao) (c : PublicKey) (a h : Z) (s : SovDaoStaking) : SovDaoStaking :=
  recorded_state d c a h (total_staked d + a) (total_staked_sov s + a) s.

Definition launched_state (d : PendingDao) (l : LaunchedDao) (s : SovDaoStaking) : SovDaoStaking :=
  set_pending (remove_first (is_dao (pd_id d)) (pending_daos s))
    (set_launched (<[pd_id d := l]> (launched_daos s)) s).

Lemma staked_state_find d c a h s :
  find_dao (pd_id d) s = Some d →
  ∃ d', find_dao (pd_id d) (staked_state d c a h s) = Some d' ∧
    d' = with_stake (total_staked d + a)
           (match find_staker c (get_dao_positions (pd_id d) s) with
            | Some _ => staker_count d | None => wadd 32 (staker_count d) 1 end) d.
Proof.
  intros Hd. eexists; split; [|done]. unfold find_dao in *. cbn [staked_state recorded_state pending_daos set_total set_positions on_dao set_pending].
  apply find_split in Hd as (l1 & l2 & -> & Hf & Hl & _ & Hu). rewrite Hu.
  clear Hu. induction l1 as [|x l1 IH]; simpl.
  - unfold is_dao; simpl. by rewrite Z.eqb_refl.
  - inversion_clear Hl as [|? ? Hx Hl']. rewrite Hx. by apply IH.
Qed.

Section Cases.
Context (blake3 : list Z → Z).

Lemma try_launch_cases d h s :
  find_dao (pd_id d) s = Some d →
  try_launch_dao blake3 (pd_id d) h s =
    (if threshold_met d then
       launched_state d {| ld_id := pd_id d; ld_token := derive_token_address blake3 d h;
                           ld_treasury := derive_treasury_address blake3 d h;
                           ld_total := total_staked d; launch_height := h |} s
     else s, Ok tt).
Proof.
  intros Hd. unfold try_launch_dao. unfold bind, gets. cbv beta iota. rewrite Hd.
  by destruct (threshold_met d).
Qed.

Lemma try_launch_ok id h s : (try_launch_dao blake3 id h s).2 = Ok tt.
Proof.
  unfold try_launch_dao, bind, gets. destruct (find_dao id s) as [d|]; [|done].
  by destruct (threshold_met d).
Qed.

(** A stake, on every branch. *)
Lemma stake_cases id a c h s s' r :
  stake_for_dao blake3 id a c h s = (s', r) → is_Some (positions s !! id) →
  (s' = s ∧ stake_event id c a r = []) ∨
  ∃ d, find_dao id s = Some d ∧ pd_id d = id ∧ h < deadline_height d ∧ MIN_STAKE <= a ∧
    ((r = Err TotalStakedOverflow ∧
      s' = recorded_state d c a h (total_staked d) (total_staked_sov s) s) ∨
     (r = Err TotalLockedOverflow ∧
      s' = recorded_state d c a h (total_staked d + a) (total_staked_sov s) s) ∨
     (r = Ok tt ∧ s' = (try_launch_dao blake3 id h (staked_state d c a h s)).1)).
Proof.
  intros Hr [ps Hps]. unfold stake_for_dao in Hr. erewrite bind_step in Hr by done.
  destruct (find_dao id s) as [d|] eqn:Hd; [|left; unfold bind, lift, ok_or in Hr; naive_solver].
  erewrite bind_step in Hr by done. cbv beta in Hr.
  destruct (Z.ltb_spec h (deadline_height d)); [|left; unfold bind, guard in Hr; naive_solver].
  erewrite bind_step in Hr by done. cbv beta in Hr.
  destruct (Z.leb_spec MIN_STAKE a); [|left; unfold bind, guard in Hr; naive_solver].
  do 2 erewrite bind_step in Hr by done. cbv beta zeta in Hr.
  destruct (find_dao_some _ _ _ Hd) as [_ Hid].
  assert (get_dao_positions id s = ps) as Hg by (unfold get_dao_positions; by rewrite Hps).
  rewrite Hg in Hr.
  match type of Hr with bind ?m _ ?z = _ =>
    assert (m z = (s, Err StakeAmountOverflow) ∨
      ∃ y, m z = (y, Ok tt) ∧ total_staked_sov y = total_staked_sov s ∧
        y = recorded_state d c a h (total_staked d) (total_staked_sov s) s ∧
        ∀ sov, set_total sov (on_dao id (λ x, with_stake (total_staked d + a) (staker_count x) x) y) =
          recorded_state d c a h (total_staked d + a) sov s) as Hm end.
  { unfold recorded_state, add_stake. rewrite Hid, Hg. unfold find_dao in Hd.
    destruct (find_staker c ps) as [p|].
    - unfold bind, lift, ok_or, modify. destruct (checked_add 64 (pos_amount p) a) as [n|] eqn:Hn; cycle 1.
      { left. f_equal. destruct s. unfold set_positions. simpl in *. by rewrite insert_id. }
      apply checked_add_Some in Hn as [-> _]. right. eexists. do 2 (split; [done|]).
      unfold on_dao, set_total, set_positions, set_pending; simpl. rewrite !insert_insert_eq. split.
      + f_equal. symmetry. apply update_first_same. by destruct d.
      + intros sov. f_equal. by rewrite (update_first_const _ _ _ d).
    - right. eexists. do 2 (split; [done|]).
      unfold on_dao, set_total, set_positions, set_pending; simpl.
      rewrite !insert_insert_eq. split; [f_equal; by rewrite (update_first_const _ _ _ d)|].
      intros sov. rewrite update_first_twice by done. f_equal. by rewrite (update_first_const _ _ _ d). }
  destruct Hm as [Hm|(y & Hm & Hy & Hyr & Hst)]; [left; erewrite bind_stop in Hr by exact Hm; naive_solver|].
  right. exists d. repeat (split; [done|]).
  erewrite bind_step in Hr by exact Hm. cbv beta in Hr.
  destruct (checked_add 64 (total_staked d) a) as [n|] eqn:Hn;
    [|unfold bind, lift, ok_or in Hr; naive_solver].
  apply checked_add_Some in Hn as [-> Hn].
  do 3 erewrite bind_step in Hr by done. cbv beta in Hr. right.
  cbn [total_staked_sov on_dao set_pending] in Hr. rewrite Hy in Hr.
  destruct (checked_add 64 (total_staked_sov s) a) as [n|] eqn:Hn'; cycle 1.
  { left. unfold bind, lift, ok_or in Hr. injection Hr as <- <-. split; [done|]. rewrite <- Hst, <- Hy. done. }
  apply checked_add_Some in Hn' as [-> _]. right.
  do 2 erewrite bind_step in Hr by done. cbv beta in Hr. rewrite Hst in Hr.
  pose proof (try_launch_ok id h (staked_state d c a h s)) as Hok. unfold staked_state in *.
  rewrite Hr in Hok |- *. by simpl in *.
Qed.

End Cases.

(** *** Preservation *)

Lemma pending_ok_ext now log s h log' s' d :
  now <= h → (∀ e, e ∈ log → e ∈ log') →
  get_dao_positions (pd_id d) s' = get_dao_positions (pd_id d) s →
  launched_daos s' !! pd_id d = launched_daos s !! pd_id d →
  pending_ok now log s d → pending_ok h log' s' d.
Proof.
  intros Hh Hlog Hps Hl (H1 & H2 & H3 & H4 & H5 & H6). unfold pending_ok. rewrite Hps, Hl.
  split_and!; [done..|intros Hn; apply H3; contradict Hn; by eapply refusals_mono|done|by apply Hlog|].
  intros Hd. apply H6. lia.
Qed.

Lemma launched_ok_ext log s log' s' id l :
  (∀ e, e ∈ log → e ∈ log') →
  stake_sum (get_dao_positions id s') = stake_sum (get_dao_positions id s) →
  lenZ (get_dao_positions id s') = lenZ (get_dao_positions id s) →
  launched_ok log s id l → launched_ok log' s' id l.
Proof.
  intros Hlog Hs Hn (th & st & dl & H1 & H2 & H3 & H4 & H5 & H6). exists th, st, dl.
  rewrite Hs, Hn. split_and!; try done; [by apply Hlog|].
  intros Hni. apply H4. contradict Hni. by eapply refusals_mono.
Qed.

Lemma inv_later now log s h : staking_inv now log s → now <= h → staking_inv h log s.
Proof. intros [] Hh. constructor; try done. intros d Hd. eapply pending_ok_ext; eauto. Qed.

Lemma locked_set id ps s :
  locked (set_positions id ps s) =
  locked s - dao_locked (is_launched s id) (get_dao_positions id s) + dao_locked (is_launched s id) ps.
Proof.
  unfold locked, get_dao_positions. cbn [positions set_positions]. rewrite msum_insert.
  unfold is_launched. simpl. destruct (positions s !! id); simpl; unfold dao_locked; simpl; lia.
Qed.

Lemma mark_same c ps :
  stake_sum (update_first (is_staker c) mark_position ps) = stake_sum ps ∧
  lenZ (update_first (is_staker c) mark_position ps) = lenZ ps.
Proof.
  unfold stake_sum, lenZ. rewrite map_update by done. split; [done|].
  rewrite <- (length_map staker), map_update by done. by rewrite length_map.
Qed.

Lemma dao_locked_launched ps : dao_locked true ps = stake_sum ps.
Proof. done. Qed.

Lemma claim_inv now log s id c s' r :
  claim_dao_tokens id c s = (s', r) → staking_inv now log s →
  staking_inv now (match r with Ok a => Tokens id c a :: log | Err _ => log end) s' ∧
  pending_daos s' = pending_daos s.
Proof.
  intros Hr Hi. unfold claim_dao_tokens in Hr. erewrite bind_step in Hr by done.
  destruct (launched_daos s !! id) as [l|] eqn:Hl; [|unfold bind, lift, ok_or in Hr; naive_solver].
  erewrite bind_step in Hr by done. cbv beta in Hr.
  destruct (positions s !! id) as [ps|] eqn:Hps; [|unfold bind, lift, ok_or in Hr; naive_solver].
  erewrite bind_step in Hr by done. cbv beta in Hr.
  destruct (find_staker c ps) as [p|] eqn:Hp; [|unfold bind, lift, ok_or in Hr; naive_solver].
  erewrite bind_step in Hr by done. cbv beta in Hr.
  destruct (claimed p) eqn:Hc; [unfold bind, guard in Hr; simpl in Hr; naive_solver|].
  unfold bind, guard, modify, ret in Hr. simpl in Hr. injection Hr as <- <-.
  split; [|done].
  assert (get_dao_positions id s = ps) as Hg by (unfold get_dao_positions; by rewrite Hps).
  destruct (mark_same c ps) as [Hsum Hlen]. destruct Hi. constructor; try done.
  - intros i. cbn [positions launched_daos pending_daos set_positions]. rewrite <- inv_known0.
    destruct (decide (id = i)) as [<-|Hne]; [|by rewrite lookup_insert_ne].
    rewrite lookup_insert_eq, Hps. split; by eexists.
  - intros i. rewrite get_positions_set. case_decide as Hne.
    + subst i. specialize (inv_book0 id). rewrite Hg in inv_book0. eapply book_settle; eauto.
    + by apply book_cons_other.
  - intros d Hd. specialize (inv_pending0 d Hd). apply (pending_ok_ext now log s); [lia|by right| |done|done].
    rewrite get_positions_set, decide_False; [done|]. intros ->. destruct inv_pending0. congruence.
  - intros i l' Hl'. apply (launched_ok_ext log s); [by right| | |by apply inv_launched0];
      rewrite get_positions_set; case_decide; subst; congruence.
  - constructor; [simpl; by eexists|done].
  - assert (is_launched s id = true) as Hil
      by (unfold is_launched; rewrite Hl; by apply bool_decide_eq_true_2; eexists).
    intros Hno. specialize (inv_locked0 Hno).
    rewrite locked_set, Hil, Hg, (dao_locked_launched ps), (dao_locked_launched (update_first _ _ _)), Hsum.
    simpl. lia.
Qed.

Lemma dao_locked_nonneg log id l ps : book_ok log id ps → 0 <= dao_locked l ps.
Proof.
  intros [Hn Hb]. unfold dao_locked. apply sumZ_nonneg, Forall_map, Forall_forall. intros p Hp.
  specialize (Hb (staker p)). rewrite (find_staker_elem p ps) in Hb by done.
  simpl. destruct (_ && _); [done|]. unfold MIN_STAKE in *. lia.
Qed.

Lemma unstake_inv now log s id c h s' r :
  unstake_failed_dao id c h s = (s', r) → now <= h → staking_inv now log s →
  staking_inv h (match r with Ok a => Refunded id c a :: log | Err _ => log end) s' ∧
  pending_daos s' = pending_daos s.
Proof.
  intros Hr Hh Hi. unfold unstake_failed_dao in Hr. erewrite bind_step in Hr by done.
  pose proof (inv_later _ _ _ _ Hi Hh) as Hi'.
  destruct (find_dao id s) as [d|] eqn:Hd; [|unfold bind, lift, ok_or in Hr; naive_solver].
  erewrite bind_step in Hr by done. cbv beta in Hr.
  destruct (Z.ltb_spec (deadline_height d) h) as [Hdl|]; [|unfold bind, guard in Hr; naive_solver].
  erewrite bind_step in Hr by done. cbv beta in Hr.
  destruct (threshold_met d); [unfold bind, guard in Hr; simpl in Hr; naive_solver|].
  erewrite bind_step in Hr by done. cbv beta in Hr.
  destruct (positions s !! id) as [ps|] eqn:Hps; [|unfold bind, lift, ok_or in Hr; naive_solver].
  erewrite bind_step in Hr by done. cbv beta zeta in Hr.
  assert (get_dao_positions id s = ps) as Hg by (unfold get_dao_positions; by rewrite Hps).
  pose proof (inv_book _ _ _ Hi id) as Hb. rewrite Hg in Hb.
  destruct (find_unpaid c ps (proj1 Hb)) as [Hf Hu]. rewrite Hf in Hr.
  destruct (find_staker c ps) as [p|] eqn:Hp; [|unfold bind, lift, ok_or in Hr; simpl in Hr; naive_solver].
  destruct (claimed p) eqn:Hc; [unfold bind, lift, ok_or in Hr; simpl in Hr; rewrite Hc in Hr; naive_solver|].
  specialize (Hu p mark_position eq_refl Hc). rewrite Hu in Hr.
  unfold bind, lift, ok_or, modify, ret in Hr. simpl in Hr. rewrite Hc in Hr. injection Hr as <- <-.
  split; [|done].
  destruct (find_dao_some _ _ _ Hd) as [Hin Hid].
  destruct (inv_pending _ _ _ Hi d Hin) as [Hnl _]. rewrite Hid in Hnl.
  destruct (mark_same c ps) as [Hsum Hlen].
  assert (is_launched s id = false) as Hil
    by (unfold is_launched; rewrite Hnl; by apply bool_decide_eq_false, is_Some_None).
  assert (dao_locked false (update_first (is_staker c) mark_position ps) =
          dao_locked false ps - pos_amount p) as Hlk.
  { unfold dao_locked. erewrite sum_update by exact Hp. simpl. rewrite Hc. lia. }
  pose proof (locked_set id (update_first (is_staker c) mark_position ps) s) as Hls.
  rewrite Hil, Hg, Hlk in Hls.
  assert (0 <= locked (set_positions id (update_first (is_staker c) mark_position ps) s)) as Hpos.
  { unfold locked. apply msum_nonneg. cbn [positions set_positions]. intros i qs.
    destruct (decide (id = i)) as [<-|Hne]; [rewrite lookup_insert_eq; intros [= <-]|].
    - eapply (dao_locked_nonneg (Refunded id c (pos_amount p) :: log) id). eapply book_settle; eauto.
    - rewrite lookup_insert_ne by done. intros Hq. eapply (dao_locked_nonneg log i).
      specialize (inv_book _ _ _ Hi i). unfold get_dao_positions. by rewrite Hq. }
  destruct Hi'. constructor; try done.
  - intros i. cbn [positions launched_daos pending_daos set_positions set_total]. rewrite <- inv_known0.
    destruct (decide (id = i)) as [<-|Hne]; [|by rewrite lookup_insert_ne].
    rewrite lookup_insert_eq, Hps. split; by eexists.
  - intros i. change (get_dao_positions i (set_total ?n ?x)) with (get_dao_positions i x).
    rewrite get_positions_set. case_decide as Hne.
    + subst i. eapply book_settle; eauto.
    + by apply book_cons_other.
  - intros d' Hd'. specialize (inv_pending0 d' Hd'). destruct (decide (pd_id d' = id)) as [Heq|Hne].
    + destruct inv_pending0 as (H1 & H2 & H3 & H4 & H5 & H6).
      assert (d' = d) as -> by (rewrite <- Heq in Hd; rewrite (find_dao_elem d' s) in Hd by done; congruence).
      unfold pending_ok. change (get_dao_positions ?i (set_total ?n ?x)) with (get_dao_positions i x).
      rewrite get_positions_set, decide_True by done. rewrite Hid, Hg in *. rewrite Hsum, Hlen.
      split_and!; try done; [by right|lia].
    + apply (pending_ok_ext h log s); [lia|by right| |done|done].
      change (get_dao_positions ?i (set_total ?n ?x)) with (get_dao_positions i x).
      by rewrite get_positions_set, decide_False by done.
  - intros i l' Hl'. apply (launched_ok_ext log s); [by right| | |by apply inv_launched0];
      change (get_dao_positions ?i (set_total ?n ?x)) with (get_dao_positions i x);
      rewrite get_positions_set; case_decide; subst; congruence.
  - constructor; [exact Hnl|done].
  - intros Hno. specialize (inv_locked0 Hno).
    change (locked (set_total ?n ?x)) with (locked x). rewrite Hls in Hpos |- *. simpl.
    unfold saturating_sub. lia.
  - intros Hno. specialize (inv_locked0 Hno). specialize (inv_sums0 Hno).
    simpl. unfold staked_total, refunded_total, saturating_sub in *. simpl. lia.
Qed.

Lemma split_ids id s d :
  NoDup (map pd_id (pending_daos s)) → find_dao id s = Some d →
  ∃ l1 l2, pending_daos s = l1 ++ d :: l2 ∧ pd_id d = id ∧
    (∀ x, x ∈ l1 ++ l2 → pd_id x ≠ id) ∧ NoDup (map pd_id (l1 ++ l2)) ∧
    remove_first (is_dao id) (pending_daos s) = l1 ++ l2 ∧
    ∀ g, update_first (is_dao id) g (pending_daos s) = l1 ++ g d :: l2.
Proof.
  intros Hn Hd. apply find_split in Hd as (l1 & l2 & Hl & Hf & _ & Hr & Hu). apply Z.eqb_eq in Hf.
  exists l1, l2. rewrite Hl, map_app in Hn. cbn [map] in Hn.
  rewrite <- (Permutation_middle (map pd_id l1) (map pd_id l2) (pd_id d)), <- map_app in Hn.
  apply NoDup_cons in Hn as [Hnot Hn]. repeat split; try done.
  intros x Hx Heq. apply Hnot. rewrite Hf, <- Heq. by apply list_elem_of_fmap_2.
Qed.

(** The calls before the deadline leave the positions of the DAO unmarked. *)
Lemma recorded_inv e now log s d c a h total sov :
  staking_inv now log s → now <= h → find_dao (pd_id d) s = Some d → h < deadline_height d →
  MIN_STAKE <= a → total <= total_staked d + a →
  (e = Refused (pd_id d) c a ∨
   e = Staked (pd_id d) c a ∧ total = total_staked d + a ∧ sov = total_staked_sov s + a) →
  staking_inv h (e :: log) (recorded_state d c a h total sov s).
Proof.
  intros Hi Hh Hd Hdl Ha Hmax He. pose proof (find_dao_some _ _ _ Hd) as [Hin _].
  destruct (inv_pending _ _ _ Hi d Hin) as (Hnl & Hts & Hts' & Hcount & Hcr & Hun).
  specialize (Hun ltac:(lia)). pose proof (inv_book _ _ _ Hi (pd_id d)) as Hb.
  destruct (split_ids _ _ _ (inv_ids _ _ _ Hi) Hd) as (l1 & l2 & Hl & _ & Hne & Hnd & _ & Hu).
  set (ps := get_dao_positions (pd_id d) s) in *.
  destruct (add_stake_sum c a h ps) as (Hsum & Hlen & Hun' & Hlk).
  assert (match find_staker c ps with
          | Some _ => staker_count d | None => wadd 32 (staker_count d) 1 end =
          as_u 32 (lenZ (add_stake c a h ps))) as Hcnt.
  { rewrite Hlen, Hcount. destruct (find_staker c ps); [by rewrite Z.add_0_r|].
    unfold wadd, as_u. by rewrite Zplus_mod_idemp_l. }
  assert (positions s !! pd_id d = Some ps) as Hps.
  { destruct (proj2 (inv_known _ _ _ Hi (pd_id d)) ltac:(left; by exists d)) as [x Hx].
    unfold ps, get_dao_positions. by rewrite Hx. }
  unfold recorded_state. fold ps. rewrite Hcnt. unfold on_dao. rewrite Hu.
  set (d' := with_stake total (as_u 32 (lenZ (add_stake c a h ps))) d).
  set (s' := set_total _ _).
  assert (∀ i, get_dao_positions i s' =
    if decide (pd_id d = i) then add_stake c a h ps else get_dao_positions i s) as Hgp.
  { intros i. unfold s'. change (get_dao_positions i (set_total ?n ?x)) with (get_dao_positions i x).
    by rewrite get_positions_set. }
  destruct (inv_later _ _ _ _ Hi Hh). constructor; try done.
  - cbn [pending_daos s' set_total set_positions set_pending]. rewrite Hl in inv_ids0.
    rewrite map_app in inv_ids0 |- *. exact inv_ids0.
  - intros i. cbn [positions launched_daos pending_daos s' set_total set_positions set_pending].
    destruct (decide (pd_id d = i)) as [<-|Hni].
    + rewrite lookup_insert_eq. split; [|by eexists]. intros _. left. exists d'. split; [|done].
      apply elem_of_app. right. left.
    + rewrite lookup_insert_ne, inv_known0, Hl by done. setoid_rewrite elem_of_app.
      setoid_rewrite elem_of_cons. split; (intros [(x & Hx & Hxi)|?]; [left|by right]);
        destruct Hx as [Hx|[->|Hx]]; try (by destruct (Hni Hxi)); eauto.
  - intros i. rewrite Hgp. case_decide as Heq; [subst i; apply book_stake; tauto|].
    apply book_cons_other; [|done]. destruct He as [->|(-> & _)]; done.
  - intros x Hx. assert (x = d' ∨ x ∈ l1 ++ l2) as [->|Hx'].
    { unfold s' in Hx. cbn in Hx. set_unfold in Hx. set_unfold. tauto. }
    + unfold pending_ok. change (pd_id d') with (pd_id d). rewrite Hgp, decide_True by done.
      split_and!; [done|simpl; lia| |done|by right|intros _; by apply Hun'].
      destruct He as [->|(-> & -> & _)]; [|simpl; intros Hno; rewrite Hsum; specialize (Hts' Hno); lia].
      intros []. simpl. by left.
    + specialize (Hne x Hx'). apply (pending_ok_ext h log s); [lia|by right| |done|].
      * rewrite Hgp. by rewrite decide_False.
      * apply inv_pending0. rewrite Hl. set_unfold. tauto.
  - intros i l Hil. apply (launched_ok_ext log s); [by right| | |by apply inv_launched0];
      rewrite Hgp, decide_False; try done; intros <-; unfold s' in Hil; simpl in Hil; congruence.
  - constructor; [by destruct He as [->|(-> & _)]|]. exact inv_events0.
  - destruct He as [->|(-> & -> & ->)]; [done|]. intros Hno. specialize (inv_locked0 Hno).
    unfold s'. change (locked (set_total ?n ?x)) with (locked x). rewrite locked_set.
    change (locked (set_pending ?l s)) with (locked s).
    change (is_launched (set_pending ?l s)) with (is_launched s).
    change (get_dao_positions ?i (set_pending ?l s)) with (get_dao_positions i s). fold ps.
    rewrite Hlk by done. simpl. lia.
  - destruct He as [->|(-> & -> & ->)]; [done|]. intros Hno. specialize (inv_sums0 Hno).
    simpl. unfold staked_total, refunded_total in *. simpl. lia.
Qed.

Lemma launch_inv h log s d l :
  staking_inv h log s → find_dao (pd_id d) s = Some d → threshold_met d = true →
  h < deadline_height d → ld_total l = total_staked d → launch_height l = h →
  staking_inv h log (launched_state d l s).
Proof.
  intros Hi Hd Hmet Hdl Htot Hlh. pose proof (find_dao_some _ _ _ Hd) as [Hin _].
  destruct (inv_pending _ _ _ Hi d Hin) as (Hnl & Hts & Hts' & Hcount & Hcr & Hun).
  specialize (Hun ltac:(lia)). pose proof (inv_book _ _ _ Hi (pd_id d)) as Hb.
  assert (staker_count d <= lenZ (get_dao_positions (pd_id d) s)) as Hcnt
    by (rewrite Hcount; unfold as_u; apply Z.mod_le; unfold lenZ; lia).
  destruct (split_ids _ _ _ (inv_ids _ _ _ Hi) Hd) as (l1 & l2 & Hl & _ & Hne & Hnd & Hrm & _).
  unfold threshold_met in Hmet. apply andb_true_iff in Hmet as [?%Z.leb_le ?%Z.leb_le].
  assert (∀ c, settled log (pd_id d) c = []) as Hset.
  { intros c. destruct Hb as [Hn Hb]. specialize (Hb c). destruct (find_staker c _) as [p|] eqn:Hp; [|tauto].
    apply find_staker_some in Hp as [Hp _]. rewrite (proj1 (Forall_forall _ _) Hun p Hp) in Hb. tauto. }
  destruct Hi. unfold launched_state. rewrite Hrm. constructor; try done.
  - intros i. cbn [positions launched_daos pending_daos set_launched set_pending]. rewrite inv_known0, Hl.
    setoid_rewrite elem_of_app. setoid_rewrite elem_of_cons.
    destruct (decide (pd_id d = i)) as [<-|Hni].
    + rewrite lookup_insert_eq. split; [by right; eexists|]. intros _. left. exists d. eauto.
    + rewrite lookup_insert_ne by done.
      split; (intros [(x & Hx & Hxi)|?]; [left|by right]); set_unfold in Hx; naive_solver.
  - intros x Hx. apply (pending_ok_ext h log s); [lia|done|done| |].
    + simpl. rewrite lookup_insert_ne; [done|]. intros Heq. by apply (Hne x Hx).
    + apply inv_pending0. rewrite Hl. simpl in Hx. set_unfold. tauto.
  - intros i l' Hi'. cbn [launched_daos set_launched set_pending] in Hi'.
    destruct (decide (pd_id d = i)) as [<-|Hni].
    + rewrite lookup_insert_eq in Hi'. injection Hi' as <-.
      exists (threshold_sov d), (min_stakers d), (deadline_height d).
      change (get_dao_positions ?i (set_pending _ (set_launched _ s))) with (get_dao_positions i s).
      rewrite Htot, Hlh. split_and!; (done || lia).
    + rewrite lookup_insert_ne in Hi' by done. apply (launched_ok_ext log s); auto.
  - apply Forall_forall. intros e He. pose proof (proj1 (Forall_forall _ _) inv_events0 e He) as Hev.
    destruct e as [| | |i c a|i c a]; try done; cbn [event_ok launched_daos set_launched set_pending] in *.
    + destruct (decide (pd_id d = i)) as [<-|Hni]; [|by rewrite lookup_insert_ne].
      pose proof (settled_elem log (pd_id d) c a (or_introl He)) as Hs. rewrite Hset in Hs.
      by apply elem_of_nil in Hs.
    + destruct (decide (pd_id d = i)) as [<-|Hni]; [rewrite lookup_insert_eq; by eexists|by rewrite lookup_insert_ne].
  - intros Hno. cbn [total_staked_sov set_launched set_pending]. rewrite inv_locked0 by done.
    unfold locked. apply msum_ext. intros i ps Hps. simpl in Hps. unfold is_launched; simpl.
    destruct (decide (pd_id d = i)) as [<-|Hni]; [|by rewrite lookup_insert_ne].
    rewrite lookup_insert_eq, Hnl, bool_decide_eq_false_2 by apply is_Some_None.
    rewrite bool_decide_eq_true_2 by by eexists. unfold get_dao_positions in Hun. rewrite Hps in Hun. simpl in Hun.
    unfold dao_locked. f_equal. apply map_ext_in. intros p Hp%list_elem_of_In. simpl.
    by rewrite (proj1 (Forall_forall _ _) Hun p Hp).
Qed.

Section Invariant.
Context (blake3 : list Z → Z).

Lemma waiting_mono log log' s :
  (∀ e, e ∈ log → e ∈ log') → waiting log s → waiting log' s.
Proof. intros Hl Hw d Hd Hm. eapply refusals_mono; [exact Hl|by apply Hw]. Qed.

(** A refused stake leaves its DAO waiting. *)
Lemma refused_inv now log s d c a h total :
  staking_inv now log s → waiting log s → now <= h → find_dao (pd_id d) s = Some d →
  h < deadline_height d → MIN_STAKE <= a → total <= total_staked d + a →
  let s' := recorded_state d c a h total (total_staked_sov s) s in
  staking_inv h (Refused (pd_id d) c a :: log) s' ∧ waiting (Refused (pd_id d) c a :: log) s'.
Proof.
  intros Hi Hw Hh Hd Hdl Ha Hmax s'. split; [apply (recorded_inv _ now); auto|].
  destruct (split_ids _ _ _ (inv_ids _ _ _ Hi) Hd) as (l1 & l2 & Hl & _ & _ & _ & _ & Hu).
  intros x Hx Hm. unfold s' in Hx. cbn [pending_daos recorded_state set_total set_positions on_dao set_pending] in Hx.
  rewrite Hu in Hx. unfold refusals. simpl. apply elem_of_app in Hx as [Hx|[->|Hx]%elem_of_cons]; [|by left|].
  - right. apply Hw; [|done]. rewrite Hl. apply elem_of_app. by left.
  - right. apply Hw; [|done]. rewrite Hl. apply elem_of_app. right. by right.
Qed.

Lemma stake_inv now log s id a c h s' r :
  stake_for_dao blake3 id a c h s = (s', r) → now <= h →
  staking_inv now log s → waiting log s →
  staking_inv h (stake_event id c a r ++ log) s' ∧ waiting (stake_event id c a r ++ log) s'.
Proof.
  intros Hr Hh Hi Hw. pose proof (inv_later _ _ _ _ Hi Hh) as Hi'.
  destruct (find_dao id s) as [d0|] eqn:Hd0; cycle 1.
  { unfold stake_for_dao, bind, gets, lift, ok_or in Hr. rewrite Hd0 in Hr. injection Hr as <- <-. done. }
  destruct (find_dao_some _ _ _ Hd0) as [Hin0 Hid0].
  destruct (stake_cases _ _ _ _ _ _ _ _ Hr) as [[-> ->]|(d & Hd & Hid & Hdl & Ha & Hcase)];
    [apply (inv_known _ _ _ Hi); left; by exists d0|done|].
  rewrite <- Hid in *. clear Hr Hd0 Hid0 Hin0 d0.
  destruct Hcase as [[-> ->]|[[-> ->]|[-> ->]]]; [apply (refused_inv now); auto; unfold MIN_STAKE in *; lia..|].
  cbn [stake_event app].
  assert (staking_inv h (Staked (pd_id d) c a :: log) (staked_state d c a h s)) as Hs
    by (apply (recorded_inv _ now); auto; lia).
  apply (waiting_mono _ (Staked (pd_id d) c a :: log)) in Hw; [|by right].
  destruct (staked_state_find d c a h s Hd) as (d' & Hd' & Heq).
  assert (pd_id d' = pd_id d ∧ deadline_height d' = deadline_height d) as [Hid' Hdl'] by by subst d'.
  pose proof (try_launch_cases blake3 d' h (staked_state d c a h s)) as HT. rewrite Hid' in HT.
  rewrite HT by done. cbn [fst].
  destruct (split_ids _ _ _ (inv_ids _ _ _ Hi) Hd) as (l1 & l2 & Hl & _ & Hne & _ & _ & Hu).
  destruct (split_ids _ _ _ (inv_ids _ _ _ Hs) Hd') as (k1 & k2 & Hk & _ & Hkne & _ & Hrm & _).
  assert (pending_daos (staked_state d c a h s) = l1 ++ d' :: l2) as Hp.
  { unfold staked_state. cbn [pending_daos recorded_state set_total set_positions on_dao set_pending].
    rewrite Hu. by subst d'. }
  assert (∀ x, x ∈ k1 ++ k2 → threshold_met x = true → pd_id x ∈ refusals (Staked (pd_id d) c a :: log)) as Hrest.
  { intros x Hx. apply Hw. assert (x ∈ l1 ++ d' :: l2) as Hxl
      by (rewrite <- Hp, Hk; set_unfold; tauto).
    rewrite Hl. set_unfold in Hxl. destruct Hxl as [?|[->|?]]; [set_unfold; tauto| |set_unfold; tauto].
    by destruct (Hkne d' Hx). }
  destruct (threshold_met d') eqn:Hmet.
  - split; [|unfold waiting, launched_state; cbn [pending_daos set_pending]; by rewrite Hid', Hrm].
    apply launch_inv; [done|by rewrite Hid'|done|lia|done|done].
  - split; [done|]. intros x Hx. rewrite Hk in Hx. apply elem_of_app in Hx as [Hx|[->|Hx]%elem_of_cons];
      [|congruence|]; apply Hrest; set_unfold; tauto.
Qed.

Lemma create_inv now log s t name symbol threshold stakers blocks metadata c h s' r :
  create_pending_dao blake3 t name symbol threshold stakers blocks metadata c h s = (s', r) →
  now <= h → 0 <= h → h + MAX_DEADLINE_BLOCKS <= umax 64 → staking_inv now log s → waiting log s →
  let log' := match r with
              | Ok id => Created id threshold stakers (h + blocks) :: log
              | Err _ => log end in
  staking_inv h log' s' ∧ waiting log' s'.
Proof.
  intros Hr Hh Hh0 Hmax Hi Hw. cbv zeta. pose proof (inv_later _ _ _ _ Hi Hh) as Hi'.
  unfold create_pending_dao in Hr. erewrite bind_step in Hr by done. cbv zeta in Hr.
  destruct (inv_limits _ _ _ Hi) as [Hlo Hhi]. rewrite Hlo, Hhi in Hr.
  destruct (Z.leb_spec (min_threshold GlobalStakingGuardrails_default) threshold);
    [|unfold bind, guard in Hr; naive_solver].
  erewrite bind_step in Hr by done.
  destruct (Z.leb_spec threshold (max_threshold GlobalStakingGuardrails_default));
    [|unfold bind, guard in Hr; naive_solver].
  erewrite bind_step in Hr by done.
  destruct (Z.leb_spec 10 stakers); [|unfold bind, guard in Hr; naive_solver].
  erewrite bind_step in Hr by done.
  destruct (_ && _) eqn:Hbl; [|unfold bind, guard in Hr; naive_solver].
  apply andb_true_iff in Hbl as [?%Z.leb_le ?%Z.leb_le]. erewrite bind_step in Hr by done.
  set (id := derive_pending_dao_id _ _ _ _ _ _) in Hr.
  destruct (existsb (is_dao id) (pending_daos s)) eqn:Hex;
    [unfold bind, guard in Hr; simpl in Hr; naive_solver|].
  erewrite bind_step in Hr by done.
  case_bool_decide as Hnl; [|unfold bind, guard in Hr; naive_solver].
  do 3 erewrite bind_step in Hr by done. unfold ret in Hr. rewrite wadd_small in Hr
    by (unfold umax, MAX_DEADLINE_BLOCKS, MIN_DEADLINE_BLOCKS in *; lia).
  injection Hr as <- <-. set (d := {| pd_id := id |}).
  assert (∀ x, x ∈ pending_daos s → pd_id x ≠ id) as Hfresh.
  { intros x Hx Heq. assert (existsb (is_dao id) (pending_daos s) = true); [|congruence].
    apply existsb_exists. exists x. split; [by apply list_elem_of_In|]. by apply Z.eqb_eq. }
  assert (positions s !! id = None) as Hnp.
  { destruct (positions s !! id) as [ps|] eqn:Hps; [|done].
    destruct (proj1 (inv_known _ _ _ Hi id) ltac:(rewrite Hps; by eexists)) as [(x & Hx & Heq)|[l Hl]];
      [by destruct (Hfresh x Hx)|congruence]. }
  set (s' := set_positions _ _ _).
  assert (∀ i, get_dao_positions i s' = get_dao_positions i s) as Hgp.
  { intros i. unfold s'. rewrite get_positions_set. case_decide; [subst i|done].
    unfold get_dao_positions. by rewrite Hnp. }
  assert (threshold_met d = false) as Hdm.
  { unfold threshold_met, d; simpl. apply andb_false_iff. right. apply Z.leb_gt. lia. }
  split; cycle 1.
  { intros x Hx Hm. simpl in Hx. apply elem_of_app in Hx as [Hx| ->%list_elem_of_singleton]; [|congruence].
    by apply Hw. }
  destruct Hi'. constructor; try done.
  - simpl. rewrite map_app. apply NoDup_app. split; [done|]. split; [|apply NoDup_singleton].
    intros k (x & -> & Hx)%list_elem_of_fmap Hk%list_elem_of_singleton. by apply (Hfresh x).
  - intros i. cbn [positions launched_daos pending_daos s' set_positions set_pending].
    setoid_rewrite elem_of_app. setoid_rewrite list_elem_of_singleton.
    destruct (decide (id = i)) as [<-|Hni].
    + rewrite lookup_insert_eq. split; [|by eexists]. intros _. left. by exists d; eauto.
    + rewrite lookup_insert_ne, inv_known0 by done. split; (intros [(x & Hx & Hxi)|?]; [left|by right]);
        [by eauto|]. destruct Hx as [Hx| ->]; [by eauto|by destruct (Hni Hxi)].
  - intros i. rewrite Hgp. by apply book_cons_other.
  - intros x Hx. simpl in Hx. apply elem_of_app in Hx as [Hx| ->%list_elem_of_singleton].
    + apply (pending_ok_ext h log s); [lia|by right|done|done|auto].
    + unfold pending_ok. rewrite Hgp. unfold get_dao_positions. cbn [pd_id d]. rewrite Hnp.
      split_and!; try done; by left.
  - intros i l Hl. apply (launched_ok_ext log s); [by right|by rewrite Hgp|by rewrite Hgp|auto].
  - constructor; [by repeat split|done].
  - intros Hno. specialize (inv_locked0 Hno).
    unfold s'. rewrite locked_set. change (locked (set_pending ?l s)) with (locked s).
    change (get_dao_positions ?i (set_pending ?l s)) with (get_dao_positions i s).
    unfold get_dao_positions. rewrite Hnp. simpl. unfold dao_locked. simpl. lia.
Qed.

Lemma run_inv now log s :
  staking_run blake3 now log s → 0 <= now ∧ staking_inv now log s ∧ waiting log s.
Proof.
  induction 1 as [g|now log s t name sym th st bl md c h s' r _ [Hn [Hi Hw]] Hh Hmax Hr
    |now log s id a c h s' r _ [Hn [Hi Hw]] Hh Ha Hr|now log s id c s' r _ [Hn [Hi Hw]] Hr
    |now log s id c h s' r _ [Hn [Hi Hw]] Hh Hr].
  - split; [done|]. split; [|intros d Hd; by apply elem_of_nil in Hd].
    constructor; try done; simpl.
    + apply NoDup_nil_2.
    + intros id. rewrite !lookup_empty. set_unfold. split; [intros []|intros [(x & [] & _)|[]]]; done.
    + intros id. unfold get_dao_positions; simpl. rewrite lookup_empty. by split; [apply NoDup_nil_2|].
    + intros d Hd. by apply elem_of_nil in Hd.
  - split; [lia|]. eapply create_inv; eauto. lia.
  - split; [lia|]. eapply stake_inv; eauto.
  - destruct (claim_inv _ _ _ _ _ _ _ Hr Hi) as [Hi' Hp]. split_and!; [lia|done|].
    unfold waiting. rewrite Hp. by destruct r.
  - destruct (unstake_inv _ _ _ _ _ _ _ _ Hr Hh Hi) as [Hi' Hp]. split_and!; [lia|done|].
    unfold waiting. rewrite Hp. by destruct r.
Qed.

(** ** Theorems *)

(** C12: However calls interleave, at heights that do not go back, a staker is given at most one settlement for a
    DAO, and it is exactly what was recorded for the staker: the accepted stakes, and
    with them any amount of a call that was refused for an overflow of a total after
    the position had been written.  A DAO that handed out tokens never refunded a
    stake.  In a run without such a refusal, the settlement is what was staked and
    the contract's total is what was staked less what was refunded. *)
Theorem stakes_settled_once now log s :
  staking_run blake3 now log s →
  (∀ id c, settled log id c = [] ∨ settled log id c = [staked_by log id c + refused_by log id c]) ∧
  (∀ id c, id ∉ refusals log → refused_by log id c = 0) ∧
  (∀ id c a c' a', ¬ (Refunded id c a ∈ log ∧ Tokens id c' a' ∈ log)) ∧
  (refusals log = [] → total_staked_sov s = staked_total log - refunded_total log).
Proof.
  intros (_ & Hi & _)%run_inv. split_and!; [|intros; by apply refused_by_none| |apply Hi].
  - intros id c. destruct (inv_book _ _ _ Hi id) as [_ Hb]. specialize (Hb c). unfold recorded_by in Hb.
    destruct (find_staker c _) as [p|]; [|left; tauto]. destruct Hb as (-> & _ & ->).
    destruct (claimed p); auto.
  - intros id c a c' a' [H1 H2]. pose proof (proj1 (Forall_forall _ _) (inv_events _ _ _ Hi)) as He.
    apply He in H1, H2. simpl in H1, H2. rewrite H1 in H2. by apply is_Some_None in H2.
Qed.

(** C11: What becomes of a recorded stake that was not settled yet, in a run at
    heights that do not go back.  If the DAO has
    launched, the staker can claim tokens for all of it.  Otherwise the DAO waits, and
    at every height after its deadline the staker gets all of it back, unless the
    threshold and the number of stakers are met: then the refund is refused, and so
    is the claim.  That happens only to a DAO for which some stake was refused for an
    overflow of a total after it had been recorded; for the others no stake is stuck. *)
Theorem stake_recoverable now log s id c :
  staking_run blake3 now log s → 0 < recorded_by log id c → settled log id c = [] →
  (is_Some (launched_daos s !! id) ∧ (claim_dao_tokens id c s).2 = Ok (recorded_by log id c)) ∨
  ∃ d, find_dao id s = Some d ∧ (claim_dao_tokens id c s).2 = Err NotLaunched ∧
    (∀ h, deadline_height d < h → (unstake_failed_dao id c h s).2 =
       if threshold_met d then Err ThresholdWasMet else Ok (recorded_by log id c)) ∧
    (threshold_met d = true → id ∈ refusals log).
Proof.
  intros (_ & Hi & Hw)%run_inv Hpos Hset. destruct (inv_book _ _ _ Hi id) as [Hn Hb]. specialize (Hb c).
  unfold get_dao_positions in Hn, Hb. destruct (positions s !! id) as [ps|] eqn:Hps; [|simpl in Hb; lia].
  simpl in Hn, Hb. destruct (find_staker c ps) as [p|] eqn:Hp; [|lia].
  destruct Hb as (-> & _ & Hcl). rewrite Hset in Hcl. destruct (claimed p) eqn:Hc; [done|].
  destruct (proj1 (inv_known _ _ _ Hi id) ltac:(rewrite Hps; by eexists)) as [(d & Hd & Hid)|[l Hl]].
  - right. exists d. assert (find_dao id s = Some d) as Hf.
    { rewrite <- Hid. by apply find_dao_elem; [apply Hi|]. }
    destruct (inv_pending _ _ _ Hi d Hd) as [Hnl _]. rewrite Hid in Hnl.
    split_and!; [done|unfold claim_dao_tokens, bind, gets, lift, ok_or; by rewrite Hnl| |].
    + intros h Hh. unfold unstake_failed_dao, bind, gets, lift, guard, ok_or, modify, ret.
      rewrite Hf, (proj2 (Z.ltb_lt _ _) Hh). destruct (threshold_met d); [done|]. simpl. rewrite Hps.
      rewrite (proj1 (find_unpaid c ps Hn)), Hp. simpl. by rewrite Hc.
    + rewrite <- Hid. by apply Hw.
  - left. split; [by eexists|]. unfold claim_dao_tokens, bind, gets, lift, guard, ok_or, modify, ret.
    by rewrite Hl, Hps, Hp, Hc.
Qed.

(** C25: In a run at heights that do not go back, a launched DAO is backed as its
    creation announced: the threshold lies
    between the guardrails, at least ten and at least the announced number of
    distinct stakers have the minimum stake or more on record, the total of the launch
    reaches the threshold and is covered by the recorded stakes, and the launch came
    before the deadline.  Where no stake for the DAO was refused for an overflow of a
    total, every recorded stake was an accepted one and the total is their sum. *)
Theorem launched_backed now log s id l :
  staking_run blake3 now log s → launched_daos s !! id = Some l →
  ∃ threshold stakers deadline (members : list PublicKey),
    Created id threshold stakers deadline ∈ log ∧
    10000 * 10 ^ 8 <= threshold <= 10000000 * 10 ^ 8 ∧ 10 <= stakers ∧
    NoDup members ∧ stakers <= lenZ members ∧
    Forall (λ c, MIN_STAKE <= recorded_by log id c) members ∧
    threshold <= ld_total l ∧ ld_total l <= sumZ (map (recorded_by log id) members) ∧
    launch_height l < deadline ∧
    (id ∉ refusals log →
      Forall (λ c, MIN_STAKE <= staked_by log id c) members ∧
      ld_total l = sumZ (map (staked_by log id) members)).
Proof.
  intros (_ & Hi & _)%run_inv Hl.
  destruct (inv_launched _ _ _ Hi id l Hl) as (th & st & dl & Hcr & Hth & Htot & Htot' & Hst & Hdl).
  pose proof (proj1 (Forall_forall _ _) (inv_events _ _ _ Hi) _ Hcr) as [Hth' Hst'].
  destruct (inv_book _ _ _ Hi id) as [Hn Hb]. set (ps := get_dao_positions id s) in *.
  assert (∀ p, p ∈ ps → recorded_by log id (staker p) = pos_amount p ∧ MIN_STAKE <= pos_amount p) as Hp.
  { intros p Hp. specialize (Hb (staker p)). rewrite (find_staker_elem p ps) in Hb by done. tauto. }
  assert (Forall (λ c, MIN_STAKE <= recorded_by log id c) (map staker ps)) as Hmin.
  { apply Forall_map, Forall_forall. intros p Hin. simpl. destruct (Hp p Hin) as [-> ?]. done. }
  assert (sumZ (map (recorded_by log id) (map staker ps)) = stake_sum ps) as Hsum.
  { unfold stake_sum. rewrite map_map. f_equal. apply map_ext_in. intros p Hin%list_elem_of_In. by apply Hp. }
  exists th, st, dl, (map staker ps). split_and!; try done; try apply Hth'; [| |].
  - unfold lenZ in *. by rewrite length_map.
  - by rewrite Hsum.
  - intros Hno. assert (∀ c, recorded_by log id c = staked_by log id c) as Heq
      by (intros c; unfold recorded_by; rewrite refused_by_none by done; lia).
    rewrite Htot', <- Hsum by done. split.
    + eapply Forall_impl; [exact Hmin|]. intros c. simpl. by rewrite Heq.
    + f_equal. apply map_ext. apply Heq.
Qed.

End Invariant.

(** ** A run *)
Module DaoDemo.

(** A hash that is zero on the preimages of key material, which start with a d. *)
Definition hash (l : list Z) : Z := if bool_decide (head l = Some 100) then 0 else sumZ l.

Definition key (i : Z) : PublicKey := {| dilithium_pk := i; kyber_pk := 0; key_id := i |}.

Inductive op : Type :=
| OCreate (name symbol : string) (c h : Z) | OStake (id a c h : Z) | OClaim (id c : Z) | OUnstake (id c h : Z).

Definition world : Type := Z * list StakeEvent * SovDaoStaking.

Definition play1 (w : world) (o : op) : option world :=
  let '(now, log, s) := w in
  match o with
  | OCreate name symbol c h =>
      let '(s', r) := create_pending_dao hash NP name symbol (10000 * 10 ^ 8) 10 (30 * 8640) 7 (key c) h s in
      if (now <=? h) && (h + MAX_DEADLINE_BLOCKS <=? umax 64) then
        Some (h, match r with Ok id => Created id (10000 * 10 ^ 8) 10 (h + 30 * 8640) :: log | Err _ => log end, s')
      else None
  | OStake id a c h =>
      let '(s', r) := stake_for_dao hash id a (key c) h s in
      if (now <=? h) && (0 <=? a) && (a <=? umax 64)
      then Some (h, stake_event id (key c) a r ++ log, s') else None
  | OClaim id c =>
      let '(s', r) := claim_dao_tokens id (key c) s in
      Some (now, match r with Ok a => Tokens id (key c) a :: log | Err _ => log end, s')
  | OUnstake id c h =>
      let '(s', r) := unstake_failed_dao id (key c) h s in
      if now <=? h then Some (h, match r with Ok a => Refunded id (key c) a :: log | Err _ => log end, s')
      else None
  end.

Definition play (w : world) (os : list op) : option world :=
  foldl (λ w o, w ← w; play1 w o) (Some w) os.

Lemma play1_run now log s o now' log' s' :
  staking_run hash now log s → play1 (now, log, s) o = Some (now', log', s') → staking_run hash now' log' s'.
Proof.
  intros Hr Hp. destruct o; simpl in Hp.
  - destruct (create_pending_dao _ _ _ _ _ _ _ _ _ _ _) as [s1 r] eqn:Hc. destruct (_ && _) eqn:Hb; [|done].
    apply andb_true_iff in Hb as [?%Z.leb_le ?%Z.leb_le]. injection Hp as <- <- <-. eapply run_create; eauto.
  - destruct (stake_for_dao _ _ _ _ _ _) as [s1 r] eqn:Hc. destruct (_ && _) eqn:Hb; [|done].
    rewrite !andb_true_iff, !Z.leb_le in Hb. injection Hp as <- <- <-.
    eapply run_stake; eauto; unfold in_u; tauto.
  - destruct (claim_dao_tokens _ _ _) as [s1 r] eqn:Hc. injection Hp as <- <- <-. eapply run_claim; eauto.
  - destruct (unstake_failed_dao _ _ _ _) as [s1 r] eqn:Hc. destruct (Z.leb_spec now h); [|done].
    injection Hp as <- <- <-. eapply run_unstake; eauto.
Qed.

Lemma play_run os w now' log' s' :
  staking_run hash w.1.1 w.1.2 w.2 → play w os = Some (now', log', s') → staking_run hash now' log' s'.
Proof.
  unfold play. revert w. induction os as [|o os IH]; intros [[now log] s] Hr Hp.
  - injection Hp as <- <- <-. exact Hr.
  - cbn [foldl] in Hp.
    change (w ← Some (now, log, s); play1 w o) with (play1 (now, log, s) o) in Hp.
    destruct (play1 (now, log, s) o) as [[[n1 l1] s1]|] eqn:Ho.
    + apply (IH (n1, l1, s1)); [|exact Hp]. eapply play1_run; eauto.
    + exfalso. clear -Hp. induction os; simpl in Hp; [done|auto].
Qed.

Definition start : world := (0, [], SovDaoStaking_new (key 99)).

Definition dao_a : Z := derive_pending_dao_id hash "Health" "HEA" (10000 * 10 ^ 8) 7 1.
Definition dao_b : Z := derive_pending_dao_id hash "Water" "WAT" (10000 * 10 ^ 8) 7 2.

(** Ten stakers launch the first DAO, and one claims; the second has one staker,
    whose stake is refunded. *)
Definition script : list op :=
  [OCreate "Health" "HEA" 1 100; OCreate "Water" "WAT" 2 100] ++
  map (λ i, OStake dao_a (1000 * 10 ^ 8) (Z.of_nat i) 200) (seq 1 10) ++
  [OStake dao_b (1000 * 10 ^ 8) 1 300; OStake dao_b (2000 * 10 ^ 8) 1 300;
   OStake dao_b (5000 * 10 ^ 8) 2 300; OClaim dao_a 1; OUnstake dao_b 1 260000; OUnstake dao_b 1 260001].

Definition final : world := Eval vm_compute in default start (play start script).

Lemma final_run : staking_run hash final.1.1 final.1.2 final.2.
Proof. apply (play_run script start); [constructor|vm_compute; reflexivity]. Qed.

Lemma stakes_settled_once_witness :
  settled final.1.2 dao_a (key 1) = [1000 * 10 ^ 8] ∧ settled final.1.2 dao_b (key 1) = [3000 * 10 ^ 8] ∧
  total_staked_sov final.2 = staked_total final.1.2 - refunded_total final.1.2.
Proof.
  split; [vm_compute; reflexivity|]. split; [vm_compute; reflexivity|].
  apply (stakes_settled_once hash final.1.1 final.1.2 final.2); [exact final_run|vm_compute; reflexivity].
Defined.

Lemma stake_recoverable_witness :
  0 < recorded_by final.1.2 dao_b (key 2) ∧ refusals final.1.2 = [] ∧
  ((is_Some (launched_daos final.2 !! dao_b) ∧
    (claim_dao_tokens dao_b (key 2) final.2).2 = Ok (recorded_by final.1.2 dao_b (key 2))) ∨
   ∃ d, find_dao dao_b final.2 = Some d ∧ (claim_dao_tokens dao_b (key 2) final.2).2 = Err NotLaunched ∧
     (∀ h, deadline_height d < h → (unstake_failed_dao dao_b (key 2) h final.2).2 =
        if threshold_met d then Err ThresholdWasMet else Ok (recorded_by final.1.2 dao_b (key 2))) ∧
     (threshold_met d = true → dao_b ∈ refusals final.1.2)).
Proof.
  split; [vm_compute; reflexivity|]. split; [vm_compute; reflexivity|].
  apply (stake_recoverable hash final.1.1); [exact final_run|vm_compute; reflexivity|vm_compute; reflexivity].
Defined.

Lemma launched_backed_witness :
  ∃ l, launched_daos final.2 !! dao_a = Some l ∧
    ∃ threshold stakers deadline (members : list PublicKey),
      Created dao_a threshold stakers deadline ∈ final.1.2 ∧
      10000 * 10 ^ 8 <= threshold <= 10000000 * 10 ^ 8 ∧ 10 <= stakers ∧
      NoDup members ∧ stakers <= lenZ members ∧
      Forall (λ c, MIN_STAKE <= recorded_by final.1.2 dao_a c) members ∧
      threshold <= ld_total l ∧ ld_total l <= sumZ (map (recorded_by final.1.2 dao_a) members) ∧
      launch_height l < deadline ∧
      (dao_a ∉ refusals final.1.2 →
        Forall (λ c, MIN_STAKE <= staked_by final.1.2 dao_a c) members ∧
        ld_total l = sumZ (map (staked_by final.1.2 dao_a) members)).
Proof.
  destruct (launched_daos final.2 !! dao_a) as [l|] eqn:Hl; [|vm_compute in Hl; discriminate].
  exists l. split; [reflexivity|].
  exact (launched_backed hash final.1.1 final.1.2 final.2 dao_a l final_run Hl).
Defined.

(** A stake that fails on the total stays in the staker's position, and is
    refunded with the others. *)
Example failed_stake_refunded :
  let s0 := (create_pending_dao hash NP "Water" "WAT" (10000 * 10 ^ 8) 10 (30 * 8640) 7 (key 2) 100
               (SovDaoStaking_new (key 99))).1 in
  let s1 := (stake_for_dao hash dao_b (2 ^ 63) (key 1) 200 s0).1 in
  let '(s2, r) := stake_for_dao hash dao_b (2 ^ 63) (key 2) 200 s1 in
  r = Err TotalStakedOverflow ∧ total_staked_sov s2 = 2 ^ 63 ∧
  (unstake_failed_dao dao_b (key 2) 260000 s2).2 = Ok (2 ^ 63).
Proof. vm_compute. repeat split. Qed.

(** The call of the tenth staker is refused for an overflow and still counts the
    staker: the DAO meets its terms but never launches, and neither a claim nor,
    after the deadline, a refund gives the first staker anything. *)
Definition stuck_script : list op :=
  [OCreate "Water" "WAT" 2 100; OStake dao_b (2 ^ 64 - 1 - 8000 * 10 ^ 8) 1 200] ++
  map (λ i, OStake dao_b (1000 * 10 ^ 8) (Z.of_nat i) 200) (seq 2 9).

Example stuck_stake :
  let '(_, log, s) := default start (play start stuck_script) in
  refusals log = [dao_b] ∧ settled log dao_b (key 1) = [] ∧
  staked_by log dao_b (key 1) = 2 ^ 64 - 1 - 8000 * 10 ^ 8 ∧
  (claim_dao_tokens dao_b (key 1) s).2 = Err NotLaunched ∧
  (unstake_failed_dao dao_b (key 1) 300000 s).2 = Err ThresholdWasMet.
Proof. vm_compute. repeat split. Qed.

(** Name and symbol are hashed without a separator: the second of two different
    DAOs is refused. *)
Example dao_ids_collide :
  let s0 := (create_pending_dao hash NP "AB" "C" (10000 * 10 ^ 8) 10 (30 * 8640) 7 (key 1) 100
               (SovDaoStaking_new (key 99))).1 in
  (∀ blake3 t m c, derive_pending_dao_id blake3 "AB" "C" t m c = derive_pending_dao_id blake3 "A" "BC" t m c) ∧
  (create_pending_dao hash NP "A" "BC" (10000 * 10 ^ 8) 10 (30 * 8640) 7 (key 1) 100 s0).2 = Err DaoExists.
Proof. split; [done|vm_compute; reflexivity]. Qed.

End DaoDemo.
