(* ===== verification/Validators.v ===== *)
(** * Validators: registration, slashing, recovery and epochs (lib-consensus)

    [validators/validator.rs], [validators/validator_manager.rs] and
    [slashing/mod.rs]; the fault reports of [byzantine/fault_detector.rs] that end
    in a slash; and the epoch changes of [engines/consensus_engine/mod.rs].  The
    voting power of a stake is computed in floating point and is a parameter; the
    clock is an argument of the operations that read it. *)
From stdpp Require Import base tactics numbers list option gmap fin_maps sorting strings.
From S2P Require Import Prelude Codec.

Inductive ValidatorStatus : Type := ActiveValidator | Inactive | Slashed | Jailed.

#[export] Instance ValidatorStatus_eq_dec : EqDecision ValidatorStatus.
Proof. solve_decision. Defined.

Inductive SlashType : Type := DoubleSign | Liveness | InvalidProposal | InvalidVote.

Inductive BanReason : Type :=
| BanDoubleSign | BanConflictingVote | BanEquivocation | BanInvalidBlock | BanLongRangeAttack.

Module JailStatus.

Inductive t : Type :=
| Active
| LivenessJail (jailed_at_block eligible_at_block : Z)
| PermanentBan (banned_at_block : Z) (reason : BanReason).

Definition is_active (s : t) : bool := match s with Active => true | _ => false end.

Definition is_permanently_banned (s : t) : bool :=
  match s with PermanentBan _ _ => true | _ => false end.

Definition eligible_at_block (s : t) : option Z :=
  match s with LivenessJail _ e => Some e | _ => None end.

End JailStatus.

Inductive RecoveryError : Type :=
| RecoveryPermanentBan (reason : BanReason) | JailPeriodNotExpired (eligible_at_block : Z)
| InsufficientStake (remaining_stake required : Z) | NotJailed | ValidatorNotFound.

(** ** Recovery policy *)

Definition JAIL_EXIT_WAIT_BLOCKS : Z := 1000.
Definition MIN_STAKE_TO_UNJAIL : Z := 1000 * 1000000.

(** The block from which the jail can be left is computed again from the block of
    the offence. *)
Definition check_unjail_eligibility (s : JailStatus.t) (remaining_stake current_block : Z)
    : result unit RecoveryError :=
  match s with
  | JailStatus.PermanentBan _ r => Err (RecoveryPermanentBan r)
  | JailStatus.Active => Err NotJailed
  | JailStatus.LivenessJail at_block _ =>
      let eligible := saturating_add 64 at_block JAIL_EXIT_WAIT_BLOCKS in
      if current_block <? eligible then Err (JailPeriodNotExpired eligible)
      else if remaining_stake <? MIN_STAKE_TO_UNJAIL
      then Err (InsufficientStake remaining_stake MIN_STAKE_TO_UNJAIL) else Ok tt
  end.

Definition liveness_jail_status (at_block : Z) : JailStatus.t :=
  JailStatus.LivenessJail at_block (saturating_add 64 at_block JAIL_EXIT_WAIT_BLOCKS).

Definition safety_ban_status (at_block : Z) (r : BanReason) : JailStatus.t :=
  JailStatus.PermanentBan at_block r.

(** ** Validators *)

(** Keys of variable length are byte lists; the consensus key is the number its
    2592 bytes denote. *)
Record Validator : Type := {
  identity : Z; stake : Z; storage_provided : Z; status : ValidatorStatus; consensus_key : Z;
  networking_key : list Z; rewards_key : list Z; voting_power : Z; commission_rate : Z;
  reputation : Z;     (* u32 *)
  last_activity : Z;
  slash_count : Z;    (* u32 *)
  jail_until : option Z; jail_status : JailStatus.t;
}.

(** [calculate_voting_power], of a stake and a storage capacity. *)
Class VotingPower : Type := calculate_voting_power : Z → Z → Z.

Definition can_participate (v : Validator) : bool :=
  match status v with ActiveValidator => JailStatus.is_active (jail_status v) | _ => false end.

Definition is_inactive (max_inactive_seconds now : Z) (v : Validator) : bool :=
  max_inactive_seconds <? wsub 64 now (last_activity v).

Definition update_activity (now : Z) (v : Validator) : Validator := {|
  identity := identity v; stake := stake v; storage_provided := storage_provided v;
  status := status v; consensus_key := consensus_key v; networking_key := networking_key v;
  rewards_key := rewards_key v; voting_power := voting_power v;
  commission_rate := commission_rate v; reputation := reputation v; last_activity := now;
  slash_count := slash_count v; jail_until := jail_until v; jail_status := jail_status v |}.

Section Ops.
Context `{VotingPower}.

Definition Validator_new (i s storage ck : Z) (nk rk : list Z) (rate now : Z) : Validator := {|
  identity := i; stake := s; storage_provided := storage; status := ActiveValidator;
  consensus_key := ck; networking_key := nk; rewards_key := rk;
  voting_power := calculate_voting_power s storage; commission_rate := rate; reputation := 100;
  last_activity := now; slash_count := 0; jail_until := None; jail_status := JailStatus.Active |}.

(** The fields a slash sets. *)
Definition with_penalty (s rep count power : Z) (st : ValidatorStatus) (until : option Z)
    (jail : JailStatus.t) (v : Validator) : Validator := {|
  identity := identity v; stake := s; storage_provided := storage_provided v; status := st;
  consensus_key := consensus_key v; networking_key := networking_key v;
  rewards_key := rewards_key v; voting_power := power; commission_rate := commission_rate v;
  reputation := rep; last_activity := last_activity v; slash_count := count;
  jail_until := until; jail_status := jail |}.

Definition reputation_penalty (t : SlashType) : Z :=
  match t with DoubleSign => 20 | Liveness => 5 | InvalidProposal => 10 | InvalidVote => 5 end.

(** Returns the slashed validator and the amount. *)
Definition slash (t : SlashType) (slash_percentage current_block : Z) (v : Validator)
    : Validator * Z :=
  let amount := wmul 64 (stake v) slash_percentage / 100 in
  let s := saturating_sub (stake v) amount in
  let '(st, until, jail) :=
    match t with
    | DoubleSign => (Slashed, None, safety_ban_status current_block BanDoubleSign)
    | InvalidProposal => (Slashed, None, safety_ban_status current_block BanInvalidBlock)
    | InvalidVote => (Slashed, None, safety_ban_status current_block BanConflictingVote)
    | Liveness =>
        let jail := liveness_jail_status current_block in
        (Jailed, Some (default 0 (JailStatus.eligible_at_block jail)), jail)
    end in
  (with_penalty s (saturating_sub (reputation v) (reputation_penalty t)) (wadd 32 (slash_count v) 1)
     (calculate_voting_power s (storage_provided v)) st until jail v, amount).

Definition unjail (current_block : Z) (v : Validator) : result Validator RecoveryError :=
  let? _u := check_unjail_eligibility (jail_status v) (stake v) current_block in
  Ok (with_penalty (stake v) (reputation v) (slash_count v) (voting_power v) ActiveValidator None
        JailStatus.Active v).

(** The deprecated jail by the clock, which leaves the jail status alone. *)
Definition jail (duration_seconds now : Z) (v : Validator) : Validator :=
  with_penalty (stake v) (reputation v) (slash_count v) (voting_power v) Jailed
    (Some (wadd 64 now duration_seconds)) (jail_status v) v.

Definition try_release_from_jail (now : Z) (v : Validator) : Validator * bool :=
  match jail_until v with
  | Some until =>
      if until <=? now
      then (with_penalty (stake v) (reputation v) (slash_count v) (voting_power v) ActiveValidator None
              (jail_status v) v, true)
      else (v, false)
  | None => (v, false)
  end.

Definition with_stake (s : Z) (v : Validator) : Validator :=
  with_penalty s (reputation v) (slash_count v) (calculate_voting_power s (storage_provided v))
    (status v) (jail_until v) (jail_status v) v.

Definition add_stake (amount : Z) (v : Validator) : Validator :=
  with_stake (wadd 64 (stake v) amount) v.

Definition remove_stake (amount : Z) (v : Validator) : result Validator string :=
  if stake v <? amount then Err "Cannot remove more stake than available"
  else if stake v - amount <? 1000 * 1000000
  then Err "Cannot reduce stake below minimum requirement"
  else Ok (with_stake (stake v - amount) v).

(** ** The validator set *)

Record ValidatorManager : Type := {
  validators : gmap Z Validator; max_validators : Z; min_stake : Z; total_voting_power : Z;
  development_mode : bool;
}.

Definition set_registry (vs : gmap Z Validator) (total : Z) (m : ValidatorManager)
    : ValidatorManager := {|
  validators := vs; max_validators := max_validators m; min_stake := min_stake m;
  total_voting_power := total; development_mode := development_mode m |}.

Definition ValidatorManager_new (max min : Z) (dev : bool) : ValidatorManager := {|
  validators := ∅; max_validators := max; min_stake := min; total_voting_power := 0;
  development_mode := dev |}.

Definition check_keys (ck : Z) (nk rk : list Z) : result unit string :=
  if ck =? 0 then Err "consensus_key must not be all zeros"
  else if bool_decide (nk = []) then Err "networking_key must not be empty"
  else if bool_decide (rk = []) then Err "rewards_key must not be empty"
  else if bool_decide (be_bytes 2592 ck = nk)
  then Err "Key separation violation: consensus_key and networking_key must be different"
  else if bool_decide (be_bytes 2592 ck = rk)
  then Err "Key separation violation: consensus_key and rewards_key must be different"
  else if bool_decide (nk = rk)
  then Err "Key separation violation: networking_key and rewards_key must be different"
  else Ok tt.

Definition register_validator (i s storage ck : Z) (nk rk : list Z) (rate now : Z)
    (m : ValidatorManager) : result ValidatorManager string :=
  if s <? min_stake m then Err "Insufficient stake"
  else if max_validators m <=? Z.of_nat (size (validators m)) then Err "Maximum validator limit reached"
  else if bool_decide (is_Some (validators m !! i)) then Err "Validator already registered" else
  let? _u := check_keys ck nk rk in
  let v := Validator_new i s storage ck nk rk rate now in
  Ok (set_registry (<[i := v]> (validators m)) (wadd 64 (total_voting_power m) (voting_power v)) m).

Definition remove_validator (i : Z) (m : ValidatorManager) : result ValidatorManager string :=
  match validators m !! i with
  | Some v => Ok (set_registry (delete i (validators m)) (wsub 64 (total_voting_power m) (voting_power v)) m)
  | None => Err "Validator not found"
  end.

Definition slash_validator (i : Z) (t : SlashType) (slash_percentage current_block : Z)
    (m : ValidatorManager) : result (ValidatorManager * Z) string :=
  match validators m !! i with
  | None => Err "Validator not found for slashing"
  | Some v =>
      let '(v', amount) := slash t slash_percentage current_block v in
      let total := saturating_add 64 (saturating_sub (total_voting_power m) (voting_power v)) (voting_power v') in
      Ok (set_registry (<[i := v']> (validators m)) total m, amount)
  end.

(** Registered and of active status; jail and ban are not looked at. *)
Definition is_validator (i : Z) (m : ValidatorManager) : bool :=
  match validators m !! i with
  | Some v => bool_decide (status v = ActiveValidator)
  | None => false
  end.

Definition update_validator_activity (now i : Z) (m : ValidatorManager) : ValidatorManager :=
  set_registry (alter (update_activity now) i (validators m)) (total_voting_power m) m.

Definition get_active_validators (vs : gmap Z Validator) : gset Z :=
  dom (filter (λ kv, can_participate kv.2 = true) vs).

(** The sum of the voting power of those who can participate. *)
Definition active_power (vs : gmap Z Validator) : Z :=
  as_u 64 (msum (λ _ v, if can_participate v then voting_power v else 0) vs).

Definition unjail_validator (i current_block : Z) (m : ValidatorManager)
    : result ValidatorManager string :=
  match validators m !! i with
  | None => Err "Validator not found for unjail"
  | Some v =>
      match unjail current_block v with
      | Err _ => Err "Failed to unjail validator"
      | Ok v' =>
          let vs := <[i := v']> (validators m) in
          Ok (set_registry vs (active_power vs) m)
      end
  end.

(** One validator of [process_inactive_validators]; the manager and the validators
    slashed so far. *)
Definition slash_inactive (max_inactive_seconds now current_block : Z)
    (acc : ValidatorManager * list Z) (i : Z) : ValidatorManager * list Z :=
  let '(m, inactive) := acc in
  match validators m !! i with
  | None => acc
  | Some v =>
      if is_inactive max_inactive_seconds now v && bool_decide (status v = ActiveValidator) then
        match slash_validator i Liveness 1 current_block m with
        | Ok (m', _) => (m', inactive ++ [i])
        | Err _ => acc
        end
      else acc
  end.

(** [order] is the order in which the map is iterated. *)
Definition process_inactive_validators (order : list Z) (max_inactive_seconds now current_block : Z)
    (m : ValidatorManager) : ValidatorManager * list Z :=
  foldl (slash_inactive max_inactive_seconds now current_block) (m, []) order.

Definition get_total_voting_power (m : ValidatorManager) : Z := active_power (validators m).

Definition get_byzantine_threshold (m : ValidatorManager) : Z :=
  wadd 64 (wmul 64 (get_total_voting_power m) 2 / 3) 1.

Definition meets_byzantine_threshold (power : Z) (m : ValidatorManager) : bool :=
  get_byzantine_threshold m <=? power.

Definition BFT_MIN_VALIDATORS : Z := 3.

Definition has_sufficient_validators (m : ValidatorManager) : bool :=
  let active := Z.of_nat (size (get_active_validators (validators m))) in
  if development_mode m then 1 <=? active else BFT_MIN_VALIDATORS <=? active.

(** What a validator registry says of a validator. *)
Record ValidatorInfo : Type := {
  info_identity : Z; info_stake : Z; info_storage : Z; info_consensus_key : Z;
  info_networking_key : list Z; info_rewards_key : list Z; info_commission : Z;
}.

Definition register_info (now : Z) (v : ValidatorInfo) (m : ValidatorManager) : result ValidatorManager string :=
  register_validator (info_identity v) (info_stake v) (info_storage v) (info_consensus_key v)
    (info_networking_key v) (info_rewards_key v) (info_commission v) now m.

(** Returns the manager and the numbers of new and of known validators. *)
Definition sync_from_validator_list (now : Z) (l : list ValidatorInfo) (m : ValidatorManager)
    : ValidatorManager * (Z * Z) :=
  foldl (λ acc v,
    let '(m, (synced, skipped)) := acc in
    if bool_decide (is_Some (validators m !! info_identity v)) then (m, (synced, skipped + 1)) else
    match register_info now v m with
    | Ok m' => (m', (synced + 1, skipped))
    | Err _ => acc
    end) (m, (0, 0)) l.

(** An entry of the validator update that the runtime sends to the consensus loop,
    which registers it without networking and rewards keys. *)
Record UpdateEntry : Type := { entry_identity : Z; entry_stake : Z; entry_consensus_key : Z }.

Definition update_validators (now : Z) (l : list UpdateEntry) (m : ValidatorManager)
    : ValidatorManager :=
  foldl (λ m e,
    if is_validator (entry_identity e) m then m else
    match register_validator (entry_identity e) (entry_stake e) 0 (entry_consensus_key e) [] [] 0 now m with
    | Ok m' => m'
    | Err _ => m
    end) m l.

(** ** Faults *)

Record DoubleSignEvent : Type := {
  ds_validator : Z; ds_height : Z; ds_round : Z; ds_first : list Z; ds_second : list Z;
  ds_detected_at : Z;
}.

Record LivenessViolation : Type := {
  lv_validator : Z; lv_height : Z; lv_missed_rounds : Z; lv_detected_at : Z;
}.

Record InvalidProposalEvent : Type := {
  ip_validator : Z; ip_height : Z; ip_proposal_hash : Z; ip_violation : string; ip_detected_at : Z;
}.

(** The maps from validators to their events, in the order they are iterated. *)
Record FaultReports : Type := {
  double_signs : list (Z * list DoubleSignEvent);
  liveness_violations : list (Z * list LivenessViolation);
  invalid_proposals : list (Z * list InvalidProposalEvent);
}.

Inductive ByzantineFaultType : Type := FaultDoubleSign | FaultLiveness | FaultInvalidProposal.

Inductive FaultSeverity : Type := Minor | Major | Critical.

Record ByzantineFault : Type := {
  fault_validator : Z; fault_type : ByzantineFaultType; severity : FaultSeverity;
  fault_detected_at : Z;
}.

(** [entry(k).or_insert_with(Vec::new).push(e)]. *)
Fixpoint push_event {A : Type} (k : Z) (e : A) (l : list (Z * list A)) : list (Z * list A) :=
  match l with
  | [] => [(k, [e])]
  | (k', es) :: l' => if k =? k' then (k', es ++ [e]) :: l' else (k', es) :: push_event k e l'
  end.

Definition record_double_sign (e : DoubleSignEvent) (r : FaultReports) : FaultReports := {|
  double_signs := push_event (ds_validator e) e (double_signs r);
  liveness_violations := liveness_violations r; invalid_proposals := invalid_proposals r |}.

Definition record_liveness_violation (e : LivenessViolation) (r : FaultReports) : FaultReports := {|
  double_signs := double_signs r;
  liveness_violations := push_event (lv_validator e) e (liveness_violations r);
  invalid_proposals := invalid_proposals r |}.

Definition record_invalid_proposal (e : InvalidProposalEvent) (r : FaultReports) : FaultReports := {|
  double_signs := double_signs r; liveness_violations := liveness_violations r;
  invalid_proposals := push_event (ip_validator e) e (invalid_proposals r) |}.

Definition detect_faults (r : FaultReports) : list ByzantineFault :=
  omap (λ '(i, es), match last es with
    | None => None
    | Some e => Some {| fault_validator := i; fault_type := FaultDoubleSign; severity := Critical;
                        fault_detected_at := ds_detected_at e |}
    end) (double_signs r) ++
  omap (λ '(i, es),
    let recent := length (filter (λ e, (3 <=? lv_missed_rounds e) = true) es) in
    match last es with
    | Some e =>
        if (0 <? recent)%nat
        then Some {| fault_validator := i; fault_type := FaultLiveness;
                     severity := if (10 <=? recent)%nat then Critical else Minor;
                     fault_detected_at := lv_detected_at e |}
        else None
    | None => None
    end) (liveness_violations r) ++
  omap (λ '(i, es), match last es with
    | Some e =>
        if (3 <=? length es)%nat
        then Some {| fault_validator := i; fault_type := FaultInvalidProposal; severity := Major;
                     fault_detected_at := ip_detected_at e |}
        else None
    | None => None
    end) (invalid_proposals r).

(** The slash for a fault. *)
Definition penalty (f : ByzantineFault) : SlashType * Z :=
  match fault_type f with
  | FaultDoubleSign => (DoubleSign, match severity f with Critical => 10 | _ => 5 end)
  | FaultLiveness => (Liveness, match severity f with Critical => 3 | _ => 1 end)
  | FaultInvalidProposal => (InvalidProposal, 2)
  end.

(** Failures are only logged. *)
Definition process_faults (fs : list ByzantineFault) (current_block : Z) (m : ValidatorManager)
    : ValidatorManager :=
  foldl (λ m f, let '(t, pct) := penalty f in
    match slash_validator (fault_validator f) t pct current_block m with
    | Ok (m', _) => m'
    | Err _ => m
    end) m fs.

(** ** Epochs *)

Inductive ValidatorSetChange : Type := AddValidator (v : ValidatorInfo) | RemoveValidator (i : Z).

Record PendingValidatorChange : Type := { effective_height : Z; change : ValidatorSetChange }.

(** The part of the consensus engine that concerns epochs: the validator set, the
    pending changes, a scheduled epoch length with its height, the epoch length of
    the configuration and the current height. *)
Record EpochState : Type := {
  manager : ValidatorManager; pending_changes : list PendingValidatorChange;
  pending_epoch_length : option (Z * Z); config_epoch_length : Z; epoch_height : Z;
}.

Definition set_changes (m : ValidatorManager) (cs : list PendingValidatorChange) (s : EpochState)
    : EpochState := {|
  manager := m; pending_changes := cs; pending_epoch_length := pending_epoch_length s;
  config_epoch_length := config_epoch_length s; epoch_height := epoch_height s |}.

Definition set_epoch_length (p : option (Z * Z)) (len : Z) (s : EpochState) : EpochState := {|
  manager := manager s; pending_changes := pending_changes s; pending_epoch_length := p;
  config_epoch_length := len; epoch_height := epoch_height s |}.

Definition epoch_length_blocks (s : EpochState) : Z :=
  if config_epoch_length s =? 0 then 1 else config_epoch_length s.

Definition is_epoch_boundary (h : Z) (s : EpochState) : bool := h mod epoch_length_blocks s =? 0.

Definition next_epoch_start (h : Z) (s : EpochState) : Z :=
  wmul 64 (wadd 64 (h / epoch_length_blocks s) 1) (epoch_length_blocks s).

Definition schedule_epoch_length_update (len : Z) (s : EpochState) : result EpochState string :=
  if len =? 0 then Err "Epoch length must be greater than zero" else
  Ok (set_epoch_length (Some (next_epoch_start (epoch_height s) s, len)) (config_epoch_length s) s).

Definition is_add_of (i : Z) (c : ValidatorSetChange) : bool :=
  match c with AddValidator v => info_identity v =? i | RemoveValidator _ => false end.

Definition is_remove_of (i : Z) (c : ValidatorSetChange) : bool :=
  match c with AddValidator _ => false | RemoveValidator j => j =? i end.

Definition is_removal (c : PendingValidatorChange) : bool :=
  match change c with RemoveValidator _ => true | AddValidator _ => false end.

Definition queue_validator_add (v : ValidatorInfo) (s : EpochState) : result EpochState string :=
  if bool_decide (is_Some (validators (manager s) !! info_identity v))
  then Err "Validator already registered" else
  let kept := filter (λ c, (is_add_of (info_identity v) (change c) ||
                            is_remove_of (info_identity v) (change c)) = false) (pending_changes s) in
  Ok (set_changes (manager s) (kept ++ [{| effective_height := next_epoch_start (epoch_height s) s;
                                           change := AddValidator v |}]) s).

Definition queue_validator_removal (i : Z) (s : EpochState) : result EpochState string :=
  let kept := filter (λ c, is_add_of i (change c) = false) (pending_changes s) in
  let cancelled := existsb (λ c, is_add_of i (change c)) (pending_changes s) in
  if cancelled then Ok (set_changes (manager s) kept s)
  else if negb (bool_decide (is_Some (validators (manager s) !! i)))
  then Err "Validator not found for removal"
  else Ok (set_changes (manager s)
             (kept ++ [{| effective_height := next_epoch_start (epoch_height s) s;
                          change := RemoveValidator i |}]) s).

Definition MAX_CHURN_NUMERATOR : Z := 1.
Definition MAX_CHURN_DENOMINATOR : Z := 3.

Definition churn_budget (m : ValidatorManager) : nat :=
  Z.to_nat (Z.max (Z.of_nat (size (get_active_validators (validators m))) * MAX_CHURN_NUMERATOR
                   / MAX_CHURN_DENOMINATOR) 1).

(** Applies the changes in order and counts those that had an effect; a refused
    registration ends the loop with the changes so far in place. *)
Fixpoint apply_changes (now : Z) (cs : list PendingValidatorChange) (m : ValidatorManager) (n : nat)
    : ValidatorManager * result nat string :=
  match cs with
  | [] => (m, Ok n)
  | c :: cs' =>
      match change c with
      | AddValidator v =>
          if bool_decide (is_Some (validators m !! info_identity v)) then apply_changes now cs' m n else
          match register_info now v m with
          | Ok m' => apply_changes now cs' m' (S n)
          | Err e => (m, Err e)
          end
      | RemoveValidator i =>
          match remove_validator i m with
          | Ok m' => apply_changes now cs' m' (S n)
          | Err _ => apply_changes now cs' m n
          end
      end
  end.

(** The changes to apply at a boundary and the queue that remains. *)
Definition split_changes (h : Z) (s : EpochState)
    : list PendingValidatorChange * list PendingValidatorChange :=
  let due := filter (λ c, (effective_height c =? h) = true) (pending_changes s) in
  let deferred := filter (λ c, (effective_height c =? h) = false) (pending_changes s) in
  let removals := filter (λ c, is_removal c = true) due in
  let additions := filter (λ c, is_removal c = false) due in
  let budget := churn_budget (manager s) in
  let nr := Nat.min (length removals) budget in
  let na := Nat.min (length additions) (budget - nr) in
  let late := (λ c, {| effective_height := next_epoch_start h s; change := change c |}) <$>
                (drop nr removals ++ drop na additions) in
  (take nr removals ++ take na additions, deferred ++ late).

(** [Err] also stands for the panic of the final assertion. *)
Definition apply_epoch_boundary_changes (now h : Z) : M EpochState string unit :=
  s <- gets (λ s, s) ;;
  if negb (is_epoch_boundary h s) then ret tt else
  match pending_epoch_length s with
  | Some (at_height, len) => if at_height =? h then modify (set_epoch_length None len) else ret tt
  | None => ret tt
  end ;;;
  s <- gets (λ s, s) ;;
  let '(changes, queue) := split_changes h s in
  modify (set_changes (manager s) queue) ;;;
  let '(m, r) := apply_changes now changes (manager s) 0 in
  modify (set_changes m queue) ;;;
  n <- lift r ;;
  guard (bool_decide (n ≤ churn_budget (manager s))%nat) "MAX CHURN VIOLATED".

End Ops.

(** ** The registry *)

Section Registry.
Context `{VotingPower}.

(** Status and jail status agree. *)
Definition jail_agrees (s : ValidatorStatus) (j : JailStatus.t) : Prop :=
  match s, j with
  | ActiveValidator, JailStatus.Active => True
  | Jailed, JailStatus.LivenessJail at_block e => e = saturating_add 64 at_block JAIL_EXIT_WAIT_BLOCKS
  | Slashed, JailStatus.PermanentBan _ _ => True
  | _, _ => False
  end.

Record validator_ok (i : Z) (v : Validator) : Prop := {
  ok_identity : identity v = i;
  ok_keys : check_keys (consensus_key v) (networking_key v) (rewards_key v) = Ok tt;
  ok_jail : jail_agrees (status v) (jail_status v);
}.

Record manager_ok (m : ValidatorManager) : Prop := {
  ok_validators : map_Forall validator_ok (validators m);
  ok_size : Z.of_nat (size (validators m)) <= Z.max 0 (max_validators m);
}.

Lemma slash_ok t pct b i v : validator_ok i v → validator_ok i (slash t pct b v).1.
Proof. intros []. destruct t; by split. Qed.

Lemma insert_known_ok i v v' m total :
  validators m !! i = Some v → validator_ok i v' → manager_ok m →
  manager_ok (set_registry (<[i := v']> (validators m)) total m).
Proof.
  intros Hi Hv [Ha Hs]. split; cbn; [by apply map_Forall_insert_2|].
  rewrite map_size_insert_Some; [done|by eexists].
Qed.

Lemma register_ok i s st ck nk rk rate now m m' :
  register_validator i s st ck nk rk rate now m = Ok m' →
  validators m !! i = None ∧ check_keys ck nk rk = Ok tt ∧ min_stake m <= s ∧
  m' = set_registry (<[i := Validator_new i s st ck nk rk rate now]> (validators m))
         (wadd 64 (total_voting_power m) (calculate_voting_power s st)) m ∧
  Z.of_nat (size (validators m)) < max_validators m.
Proof.
  unfold register_validator. destruct (Z.ltb_spec s (min_stake m)); [done|].
  destruct (Z.leb_spec (max_validators m) (Z.of_nat (size (validators m)))); [done|].
  destruct (bool_decide _) eqn:Hb; [done|]. apply bool_decide_eq_false, eq_None_not_Some in Hb.
  destruct (check_keys ck nk rk) as [[]|]; [|done]. cbn. by intros [= <-].
Qed.

Lemma register_manager_ok i s st ck nk rk rate now m m' :
  register_validator i s st ck nk rk rate now m = Ok m' → manager_ok m → manager_ok m'.
Proof.
  intros (Hn & Hk & _ & -> & Hs)%register_ok [Ha _]. split; cbn.
  - by apply map_Forall_insert_2.
  - rewrite map_size_insert_None by done. lia.
Qed.

Lemma slash_manager_ok i t pct b m m' a :
  slash_validator i t pct b m = Ok (m', a) → manager_ok m → manager_ok m'.
Proof.
  unfold slash_validator. destruct (validators m !! i) as [v|] eqn:Hv; [|done].
  destruct (slash t pct b v) as [v' a'] eqn:Hs. intros [= <- _] Hm.
  eapply insert_known_ok; [done| |done].
  pose proof (slash_ok t pct b i v (ok_validators _ Hm _ _ Hv)) as Hok. by rewrite Hs in Hok.
Qed.

Lemma remove_manager_ok i m m' : remove_validator i m = Ok m' → manager_ok m → manager_ok m'.
Proof.
  unfold remove_validator. destruct (validators m !! i) as [v|] eqn:Hv; [|done]. intros [= <-] [Ha Hs].
  split; cbn; [by apply map_Forall_delete|]. rewrite map_size_delete_Some by by eexists. lia.
Qed.

Lemma unjail_manager_ok i b m m' : unjail_validator i b m = Ok m' → manager_ok m → manager_ok m'.
Proof.
  unfold unjail_validator, unjail. destruct (validators m !! i) as [v|] eqn:Hv; [|done].
  destruct (check_unjail_eligibility _ _ _); [|done]. intros [= <-] Hm.
  eapply insert_known_ok; [done| |done]. destruct (ok_validators _ Hm _ _ Hv). by split.
Qed.

(** A fold of operations that keep a property keeps it. *)
Lemma foldl_keeps {A B : Type} (P : A → Prop) (f : A → B → A) l a :
  (∀ a b, P a → P (f a b)) → P a → P (foldl f a l).
Proof. intros Hf. revert a. induction l as [|b l IH]; cbn; auto. Qed.

(** What the rest of the node may do to the registry. *)
Inductive registry_step : relation ValidatorManager :=
| step_register i s st ck nk rk rate now m m' :
    register_validator i s st ck nk rk rate now m = Ok m' → registry_step m m'
| step_remove i m m' : remove_validator i m = Ok m' → registry_step m m'
| step_slash i t pct b m m' a : slash_validator i t pct b m = Ok (m', a) → registry_step m m'
| step_unjail i b m m' : unjail_validator i b m = Ok m' → registry_step m m'
| step_inactive order max now b m : registry_step m (process_inactive_validators order max now b m).1
| step_sync now l m : registry_step m (sync_from_validator_list now l m).1
| step_update now l m : registry_step m (update_validators now l m)
| step_faults r b m : registry_step m (process_faults (detect_faults r) b m).

Lemma registry_step_ok m m' : registry_step m m' → manager_ok m → manager_ok m'.
Proof.
  destruct 1 as [??????????|?|?|?|order max now b m|now l m|now l m|r b m]; intros Hm.
  - by eapply register_manager_ok.
  - by eapply remove_manager_ok.
  - by eapply slash_manager_ok.
  - by eapply unjail_manager_ok.
  - unfold process_inactive_validators. apply (foldl_keeps (λ x, manager_ok x.1)); [|done].
    intros [m1 l] i. cbn. intros Hm1. repeat case_match; try done. subst. by eapply slash_manager_ok.
  - unfold sync_from_validator_list. apply (foldl_keeps (λ x, manager_ok x.1)); [|done].
    intros [m1 [a b]] v. cbn. intros Hm1. case_match; [done|]. case_match; [|done].
    by eapply register_manager_ok.
  - unfold update_validators. apply foldl_keeps; [|done].
    intros m1 e Hm1. case_match; [done|]. case_match; [by eapply register_manager_ok|done].
  - unfold process_faults. apply foldl_keeps; [|done].
    intros m1 f Hm1. destruct (penalty f). repeat case_match; try done. by eapply slash_manager_ok.
Qed.

(** C29: the registry stays well formed.  After any sequence of registrations,
    removals, slashes, recoveries and updates on a new validator manager, there
    are no more validators than allowed, every one is registered under its
    identity with three distinct keys, and it can participate exactly when it is
    neither jailed nor banned, with the jail period of the policy. *)
Theorem registry_reachable_ok max min dev m :
  rtc registry_step (ValidatorManager_new max min dev) m → manager_ok m.
Proof.
  intros Hr. assert (manager_ok (ValidatorManager_new max min dev)) as H0.
  { split; cbn; [apply map_Forall_empty|]. rewrite map_size_empty. lia. }
  revert H0. induction Hr as [|m1 m2 m3 Hst _ IH]; [done|]. intros H1. by eapply IH, registry_step_ok.
Qed.

Lemma update_validators_id now l m : update_validators now l m = m.
Proof.
  unfold update_validators. apply (foldl_keeps (λ x, x = m)); [|done].
  intros m1 e ->. destruct (is_validator _ _); [done|].
  destruct (register_validator _ _ _ _ _ _ _ _ _) eqn:Hr; [|done].
  apply register_ok in Hr as (_ & Hk & _). unfold check_keys in Hk. by destruct (_ =? _).
Qed.

(** The runtime can register nobody.  The validator updates that the runtime
    sends to the consensus loop carry no networking and rewards keys, which the
    loop replaces by empty ones, and every registration with an empty key is
    refused: an update leaves the registry as it is. *)
Theorem update_registers_nobody now l m : update_validators now l m = m.
Proof. apply update_validators_id. Qed.

(** ** Bans *)

Definition banned (i : Z) (m : ValidatorManager) : Prop :=
  ∃ v, validators m !! i = Some v ∧ status v = Slashed ∧
    JailStatus.is_permanently_banned (jail_status v) = true.

(** Steps that neither remove [i] nor slash it for a liveness fault. *)
Inductive lasting_step (i : Z) : relation ValidatorManager :=
| last_register j s st ck nk rk rate now m m' :
    register_validator j s st ck nk rk rate now m = Ok m' → lasting_step i m m'
| last_remove j m m' : j ≠ i → remove_validator j m = Ok m' → lasting_step i m m'
| last_slash j t pct b m m' a :
    (j = i → t ≠ Liveness) → slash_validator j t pct b m = Ok (m', a) → lasting_step i m m'
| last_unjail j b m m' : unjail_validator j b m = Ok m' → lasting_step i m m'
| last_inactive order max now b m : lasting_step i m (process_inactive_validators order max now b m).1
| last_sync now l m : lasting_step i m (sync_from_validator_list now l m).1
| last_update now l m : lasting_step i m (update_validators now l m).

Lemma register_banned i j s st ck nk rk rate now m m' :
  register_validator j s st ck nk rk rate now m = Ok m' → banned i m → banned i m'.
Proof.
  intros (Hn & _ & _ & -> & _)%register_ok (v & Hv & Hb). exists v. cbn.
  rewrite lookup_insert_ne; [done|]. intros ->. congruence.
Qed.

Lemma slash_banned i j t pct b m m' a :
  (j = i → t ≠ Liveness) → slash_validator j t pct b m = Ok (m', a) → banned i m → banned i m'.
Proof.
  unfold slash_validator. intros Ht Hs (v & Hv & Hb). destruct (validators m !! j) as [w|] eqn:Hw; [|done].
  destruct (slash t pct b w) as [w' a'] eqn:Hsl. injection Hs as <- _. unfold banned. cbn.
  destruct (decide (j = i)) as [->|Hne]; [|exists v; by rewrite lookup_insert_ne].
  exists w'. rewrite lookup_insert_eq. split; [done|]. specialize (Ht eq_refl).
  unfold slash in Hsl. destruct t; [|done|..]; by injection Hsl as <- _.
Qed.

(** A ban lasts.  A banned validator stays banned under registrations,
    recoveries, updates, the slashing of inactive validators and further slashes
    for safety faults, and removals and slashes of others; so it never takes part
    in consensus again. *)
Theorem ban_lasts i m m' : banned i m → rtc (lasting_step i) m m' → banned i m' ∧ i ∉ get_active_validators (validators m').
Proof.
  intros Hb Hr. assert (banned i m') as Hb'.
  { induction Hr as [|m1 m2 m3 Hst _ IH]; [done|]. apply IH. clear IH m3.
    destruct Hst as [|j m m' Hne Hrem| |j b m m' Hu|order max now b m|now l m|now l m].
    - by eapply register_banned.
    - destruct Hb as (v & Hv & Hb). unfold remove_validator in Hrem. case_match; [|done].
      injection Hrem as <-. exists v. cbn. by rewrite lookup_delete_ne.
    - by eapply slash_banned.
    - destruct Hb as (v & Hv & Hs & Hb). unfold unjail_validator, unjail in Hu.
      destruct (validators m !! j) as [w|] eqn:Hw; [|done].
      destruct (check_unjail_eligibility _ _ _) eqn:Hc; [|done]. injection Hu as <-.
      exists v. cbn. rewrite lookup_insert_ne; [done|]. intros ->. rewrite Hv in Hw. injection Hw as <-.
      unfold check_unjail_eligibility in Hc. by destruct (jail_status v).
    - unfold process_inactive_validators. apply (foldl_keeps (λ x, banned i x.1)); [|done].
      intros [m1 l] j (v & Hv & Hs & Hb1). cbn in *. destruct (validators m1 !! j) as [w|] eqn:Hw; [|by exists v].
      destruct (_ && _) eqn:Hc; [|by exists v]. apply andb_true_iff in Hc as [_ Hc%bool_decide_eq_true].
      destruct (slash_validator j Liveness 1 b m1) as [[m2 a]|] eqn:Hsl; [|by exists v].
      eapply slash_banned; [|exact Hsl|by exists v]. intros ->. congruence.
    - unfold sync_from_validator_list. apply (foldl_keeps (λ x, banned i x.1)); [|done].
      intros [m1 [a b]] v Hb1. cbn. case_match; [done|]. case_match; [|done]. by eapply register_banned.
    - by rewrite update_validators_id. }
  split; [done|]. destruct Hb' as (v & Hv & Hs & _). unfold get_active_validators.
  rewrite elem_of_dom. intros [x [Hx Hp]%map_lookup_filter_Some]. rewrite Hv in Hx. injection Hx as <-.
  cbn in Hp. unfold can_participate in Hp. by rewrite Hs in Hp.
Qed.

Definition no_reports : FaultReports :=
  {| double_signs := []; liveness_violations := []; invalid_proposals := [] |}.

Lemma active_insert i v (vs : gmap Z Validator) :
  can_participate v = true → i ∈ get_active_validators (<[i := v]> vs).
Proof.
  intros Hv. unfold get_active_validators. apply elem_of_dom. exists v.
  apply map_lookup_filter_Some. by rewrite lookup_insert_eq.
Qed.

Lemma slash_known i t pct b v m :
  validators m !! i = Some v → ∃ total, slash_validator i t pct b m =
    Ok (set_registry (<[i := (slash t pct b v).1]> (validators m)) total m, (slash t pct b v).2).
Proof. intros Hv. unfold slash_validator. rewrite Hv. destruct (slash t pct b v). by eexists. Qed.

(** The stake that a slash leaves. *)
Lemma slash_stake t pct b v :
  0 <= pct <= 100 → 0 <= stake v < 2 ^ 57 → stake (slash t pct b v).1 = stake v - stake v * pct / 100.
Proof.
  intros Hp Hs. assert (wmul 64 (stake v) pct = stake v * pct) as E.
  { apply wmul_small. unfold umax. nia. }
  transitivity (saturating_sub (stake v) (wmul 64 (stake v) pct / 100)); [by destruct t|].
  unfold saturating_sub. rewrite E. assert (stake v * pct / 100 <= stake v) by (apply Z.div_le_upper_bound; nia).
  lia.
Qed.

(** A release by the clock lets nobody participate whom the recovery policy still holds. *)
Lemma release_cannot_participate now v :
  JailStatus.is_active (jail_status v) = false → can_participate (try_release_from_jail now v).1 = false.
Proof.
  intros Hj. unfold try_release_from_jail, can_participate.
  destruct (jail_until v) as [u|]; [destruct (u <=? now)|]; cbn; rewrite Hj; by destruct (status v).
Qed.

(** A liveness fault lifts a ban.  A validator that is reported for signing
    twice and for missing rounds is banned for the one and then, the reports being
    processed in this order, jailed for the other: its ban is replaced by a jail
    that it may leave after a thousand blocks. *)
Theorem ban_escaped i v b m ds lv :
  validators m !! i = Some v → 1200000000 <= stake v < 2 ^ 57 → 0 <= b < 2 ^ 64 - 1000 →
  ds_validator ds = i → lv_validator lv = i → 3 <= lv_missed_rounds lv →
  ∃ m', unjail_validator i (b + JAIL_EXIT_WAIT_BLOCKS) (process_faults
      (detect_faults (record_liveness_violation lv (record_double_sign ds no_reports))) b m) = Ok m' ∧
    i ∈ get_active_validators (validators m').
Proof.
  intros Hi Hs Hb Hds Hlv Hm. unfold record_liveness_violation, record_double_sign. cbn.
  rewrite Hds, Hlv. unfold detect_faults. cbn. rewrite (proj2 (Z.leb_le _ _) Hm), decide_True by done. cbn.
  unfold process_faults. cbn. destruct (slash_known i DoubleSign 10 b v m Hi) as [t1 ->]. cbv iota.
  set (v1 := (slash DoubleSign 10 b v).1). set (m1 := set_registry _ t1 m).
  assert (validators m1 !! i = Some v1) as H1 by apply lookup_insert_eq.
  assert (stake v1 = stake v - stake v * 10 / 100) as E1 by (apply slash_stake; lia).
  clearbody v1 m1. destruct (slash_known i Liveness 1 b v1 m1 H1) as [t2 ->]. cbv iota.
  assert (stake (slash Liveness 1 b v1).1 = stake v1 - stake v1 * 1 / 100) as E2
    by (apply slash_stake; Z.to_euclidean_division_equations; lia).
  unfold unjail_validator. cbn [validators set_registry]. rewrite lookup_insert_eq.
  unfold unjail, check_unjail_eligibility. rewrite E2. cbn -[JAIL_EXIT_WAIT_BLOCKS].
  assert (saturating_add 64 b JAIL_EXIT_WAIT_BLOCKS = b + JAIL_EXIT_WAIT_BLOCKS) as ->
    by (apply saturating_add_small; unfold umax, JAIL_EXIT_WAIT_BLOCKS; lia).
  rewrite Z.ltb_irrefl. rewrite (proj2 (Z.ltb_ge _ _)) by (unfold MIN_STAKE_TO_UNJAIL; Z.to_euclidean_division_equations; lia).
  eexists. split; [done|]. by apply active_insert.
Qed.

(** A ban is forgotten when the validator leaves and registers again. *)
Lemma ban_forgotten i s now v m :
  validators m !! i = Some v → manager_ok m → min_stake m <= s →
  ∃ m1 m2, remove_validator i m = Ok m1 ∧
    register_validator i s 0 (consensus_key v) (networking_key v) (rewards_key v) 0 now m1 = Ok m2 ∧
    i ∈ get_active_validators (validators m2).
Proof.
  intros Hi [Ha Hsz] Hs. unfold remove_validator. rewrite Hi. do 2 eexists. split; [done|].
  unfold register_validator. cbn. rewrite (proj2 (Z.ltb_ge _ _)) by done.
  assert (Z.of_nat (size (delete i (validators m))) < max_validators m) as Hlt.
  { rewrite map_size_delete_Some by by eexists.
    assert (size (validators m) ≠ 0)%nat; [|lia].
    apply map_size_non_empty_iff. intros He. by rewrite He in Hi. }
  rewrite (proj2 (Z.leb_gt _ _)) by done. rewrite lookup_delete_eq. cbn.
  rewrite (ok_keys _ _ (Ha _ _ Hi)). split; [done|]. by apply active_insert.
Qed.

(** ** Epoch changes *)

(** The validators that one registry has and the other has not. *)
Definition churn (m m' : ValidatorManager) : gset Z :=
  (dom (validators m') ∖ dom (validators m)) ∪ (dom (validators m) ∖ dom (validators m')).

Lemma churn_triangle m1 m2 m3 :
  (size (churn m1 m3) ≤ size (churn m1 m2) + size (churn m2 m3))%nat.
Proof.
  transitivity (size (churn m1 m2 ∪ churn m2 m3)).
  - apply subseteq_size. intros x. unfold churn. rewrite !elem_of_union, !elem_of_difference.
    destruct (decide (x ∈ dom (validators m2))); tauto.
  - rewrite size_union_alt. enough (size (churn m2 m3 ∖ churn m1 m2) ≤ size (churn m2 m3))%nat by lia.
    apply subseteq_size. set_solver.
Qed.

Lemma churn_refl m : size (churn m m) = 0%nat.
Proof. apply size_empty_iff. unfold churn. set_solver. Qed.

Lemma churn_single i m m' : churn m m' ⊆ {[i]} → (size (churn m m') ≤ 1)%nat.
Proof. intros Hs. rewrite <- (size_singleton (C := gset Z) i). by apply subseteq_size. Qed.

Lemma register_churn i s st ck nk rk rate now m m' :
  register_validator i s st ck nk rk rate now m = Ok m' → (size (churn m m') ≤ 1)%nat.
Proof.
  intros (_ & _ & _ & -> & _)%register_ok. apply (churn_single i). unfold churn. cbn.
  rewrite dom_insert_L. set_solver.
Qed.

Lemma remove_churn i m m' : remove_validator i m = Ok m' → (size (churn m m') ≤ 1)%nat.
Proof.
  unfold remove_validator. case_match; [|done]. intros [= <-]. apply (churn_single i). unfold churn. cbn.
  rewrite dom_delete_L. intros x. rewrite elem_of_union, !elem_of_difference, elem_of_singleton.
  destruct (decide (x = i)); tauto.
Qed.

Lemma register_err_text i s st ck nk rk rate now m e :
  register_validator i s st ck nk rk rate now m = Err e → e ≠ "MAX CHURN VIOLATED".
Proof.
  unfold register_validator, check_keys. intros Hr ->.
  repeat match type of Hr with context [if ?b then _ else _] => destruct b end; done.
Qed.

(** What a run of changes does to the registry. *)
Lemma apply_changes_churn now cs m n m' r :
  apply_changes now cs m n = (m', r) →
  (size (churn m m') ≤ length cs)%nat ∧
  match r with Ok n' => (n' ≤ n + length cs)%nat | Err e => e ≠ "MAX CHURN VIOLATED" end ∧
  rtc registry_step m m'.
Proof.
  revert m n. induction cs as [|c cs IH]; intros m n; cbn.
  { intros [= <- <-]. rewrite churn_refl. split_and!; [done|lia|done]. }
  assert (∀ m1 n1, n1 = n ∨ n1 = S n → (size (churn m m1) ≤ 1)%nat → rtc registry_step m m1 →
    apply_changes now cs m1 n1 = (m', r) → (size (churn m m') ≤ S (length cs))%nat ∧
    match r with Ok n' => (n' ≤ n + S (length cs))%nat | Err e => e ≠ "MAX CHURN VIOLATED" end ∧
    rtc registry_step m m') as Hgo.
  { intros m1 n1 Hn Hm1 Hst (Hc & Hr & Hst')%IH. pose proof (churn_triangle m m1 m').
    split_and!; [lia| |by transitivity m1]. destruct r; [|done]. destruct Hn; lia. }
  assert (size (churn m m) ≤ 1)%nat as Hrefl by (rewrite churn_refl; lia).
  destruct (change c) as [v|i].
  - destruct (bool_decide _); [apply (Hgo m n); [by left|done|done]|]. destruct (register_info now v m) as [m1|e] eqn:Hr.
    + apply (Hgo m1 (S n)); [by right|by eapply register_churn|by eapply rtc_once, step_register].
    + intros [= <- <-]. rewrite churn_refl. split_and!; [lia|by eapply register_err_text|done].
  - destruct (remove_validator i m) as [m1|e] eqn:Hr; [|by apply (Hgo m n); [left|..]].
    apply (Hgo m1 (S n)); [by right|by eapply remove_churn|by eapply rtc_once, step_remove].
Qed.

Lemma filter_split {A : Type} (f : A → bool) l :
  filter (λ c, f c = true) l ++ filter (λ c, f c = false) l ≡ₚ l.
Proof.
  induction l as [|c l IH]; [done|]. destruct (f c) eqn:E.
  - rewrite filter_cons_True, filter_cons_False by congruence. cbn. by rewrite IH.
  - rewrite filter_cons_False, filter_cons_True by congruence. by rewrite <- Permutation_middle, IH.
Qed.

(** What applying a queued change means: a registration of an identity that is not
    registered, a removal of one that is; the others have no effect. *)
Inductive applies (now : Z) : ValidatorSetChange → ValidatorManager → ValidatorManager → Prop :=
| applies_add v m m' : validators m !! info_identity v = None → register_info now v m = Ok m' →
    applies now (AddValidator v) m m'
| applies_known v m : is_Some (validators m !! info_identity v) → applies now (AddValidator v) m m
| applies_remove i m m' : remove_validator i m = Ok m' → applies now (RemoveValidator i) m m'
| applies_gone i m : validators m !! i = None → applies now (RemoveValidator i) m m.

Inductive applies_all (now : Z) : list ValidatorSetChange → ValidatorManager → ValidatorManager → Prop :=
| applies_nil m : applies_all now [] m m
| applies_cons c cs m m1 m' : applies now c m m1 → applies_all now cs m1 m' → applies_all now (c :: cs) m m'.

Definition refused (now : Z) (c : ValidatorSetChange) (m : ValidatorManager) (e : string) : Prop :=
  ∃ v, c = AddValidator v ∧ validators m !! info_identity v = None ∧ register_info now v m = Err e.

(** The changes before the first refused registration are applied, in order. *)
Lemma apply_changes_split now cs m n m' r :
  apply_changes now cs m n = (m', r) →
  ∃ done lost, change <$> cs = done ++ lost ∧ applies_all now done m m' ∧
    match r with
    | Ok _ => lost = []
    | Err e => ∃ c lost', lost = c :: lost' ∧ refused now c m' e
    end.
Proof.
  revert m n. induction cs as [|c cs IH]; intros m n; cbn.
  { intros [= <- <-]. exists [], []. split_and!; [done|constructor|done]. }
  assert (∀ m1 n1, applies now (change c) m m1 → apply_changes now cs m1 n1 = (m', r) →
    ∃ done lost, change c :: (change <$> cs) = done ++ lost ∧ applies_all now done m m' ∧
      match r with Ok _ => lost = [] | Err e => ∃ c lost', lost = c :: lost' ∧ refused now c m' e end) as Hgo.
  { intros m1 n1 Hc (d & l & -> & Hd & Hl)%IH. exists (change c :: d), l. split_and!; [done| |done].
    by eapply applies_cons. }
  destruct (change c) as [v|i].
  - case_bool_decide as Hk; [apply Hgo; by apply applies_known|]. apply eq_None_not_Some in Hk.
    destruct (register_info now v m) as [m1|e] eqn:Hr; [by apply Hgo, applies_add|].
    intros [= <- <-]. exists [], (AddValidator v :: (change <$> cs)). split_and!; [done|constructor|].
    do 2 eexists. split; [done|]. by exists v.
  - destruct (remove_validator i m) as [m1|e] eqn:Hr; [by apply Hgo, applies_remove|].
    apply Hgo, applies_gone. unfold remove_validator in Hr. by case_match.
Qed.

(** What is selected at a boundary and what stays queued. *)
Lemma split_changes_spec h s cs q :
  split_changes h s = (cs, q) →
  (length cs ≤ churn_budget (manager s))%nat ∧
  ∃ late, q = filter (λ c, (effective_height c =? h) = false) (pending_changes s) ++ late ∧
    Forall (λ c, effective_height c = next_epoch_start h s) late ∧
    (change <$> cs) ++ (change <$> late) ≡ₚ
      change <$> filter (λ c, (effective_height c =? h) = true) (pending_changes s).
Proof.
  unfold split_changes. set (due := filter (λ c, (effective_height c =? h) = true) _).
  intros [= <- <-]. split; [rewrite length_app, !length_take; lia|].
  eexists. split_and!; [done|apply Forall_fmap, Forall_true; done|].
  transitivity (change <$> (filter (λ c, is_removal c = true) due ++ filter (λ c, is_removal c = false) due));
    [|apply fmap_Permutation, filter_split].
  generalize (filter (λ c, is_removal c = true) due) as rm, (filter (λ c, is_removal c = false) due) as ad.
  intros rm ad. set (nr := Nat.min _ _). set (na := Nat.min _ _). rewrite !fmap_app, <- !list_fmap_compose.
  rewrite <- (take_drop nr rm) at 3. rewrite <- (take_drop na ad) at 3. rewrite !fmap_app.
  change (compose change _) with change. solve_Permutation.
Qed.

End Registry.

(** ** Witnesses *)

Module Registered.

Definition power : VotingPower := λ s storage, wadd 64 s storage.
#[local] Existing Instance power.

Definition info (i : Z) : ValidatorInfo := {|
  info_identity := i; info_stake := 2000000000; info_storage := 0; info_consensus_key := i;
  info_networking_key := [i; 1]; info_rewards_key := [i; 2]; info_commission := 5 |}.

(** Validators 1 to 4 of at most [max]. *)
Definition manager_of (max : Z) : ValidatorManager :=
  (sync_from_validator_list 0 (info <$> [1; 2; 3; 4]) (ValidatorManager_new max 1000000000 false)).1.

Definition double_sign : DoubleSignEvent := {|
  ds_validator := 1; ds_height := 10; ds_round := 0; ds_first := [1]; ds_second := [2];
  ds_detected_at := 10 |}.

Definition missed : LivenessViolation := {|
  lv_validator := 1; lv_height := 10; lv_missed_rounds := 3; lv_detected_at := 10 |}.

(** Two removals and an addition due at height 100. *)
Definition epoch (max : Z) : EpochState := {|
  manager := manager_of max;
  pending_changes := [ {| effective_height := 100; change := AddValidator (info 5) |};
                       {| effective_height := 100; change := RemoveValidator 2 |};
                       {| effective_height := 100; change := RemoveValidator 3 |} ];
  pending_epoch_length := None; config_epoch_length := 100; epoch_height := 99 |}.

Lemma manager_size : size (validators (manager_of 10)) = 4%nat.
Proof. vm_compute. reflexivity. Qed.

(** A registration refused at the boundary is dropped together with the changes
    after it, since the queue has already been replaced. *)
Lemma refused_addition_lost :
  let s := set_changes (manager_of 4)
    [ {| effective_height := 100; change := AddValidator (info 5) |} ] (epoch 4) in
  let '(s', r) := apply_epoch_boundary_changes 0 100 s in
  r = Err "Maximum validator limit reached" ∧ pending_changes s' = [].
Proof. vm_compute. done. Qed.

End Registered.

Lemma registry_reachable_ok_witness :
  manager_ok (@process_faults Registered.power [] 0 (Registered.manager_of 10)).
Proof.
  apply (@registry_reachable_ok Registered.power 10 1000000000 false).
  eapply rtc_l; [apply (step_sync 0 (Registered.info <$> [1; 2; 3; 4]))|].
  eapply rtc_l; [apply (step_faults {| double_signs := []; liveness_violations := []; invalid_proposals := [] |})|].
  apply rtc_refl.
Defined.

Lemma ban_lasts_witness :
  let m := @process_faults Registered.power
    (detect_faults (record_double_sign Registered.double_sign no_reports)) 10 (Registered.manager_of 10) in
  banned 1 m ∧ 1 ∉ get_active_validators
    (validators (@process_inactive_validators Registered.power [1; 2] 5 100 20 m).1).
Proof.
  split; [by eexists; split; [vm_compute; reflexivity|]|].
  apply (@ban_lasts Registered.power 1 (@process_faults Registered.power
    (detect_faults (record_double_sign Registered.double_sign no_reports)) 10 (Registered.manager_of 10))).
  - by eexists; split; [vm_compute; reflexivity|].
  - apply rtc_once, last_inactive.
Defined.

Lemma ban_escaped_witness :
  ∃ m', @unjail_validator 1 (10 + JAIL_EXIT_WAIT_BLOCKS) (@process_faults Registered.power
    (detect_faults (record_liveness_violation Registered.missed
      (record_double_sign Registered.double_sign no_reports))) 10 (Registered.manager_of 10)) = Ok m' ∧
    1 ∈ get_active_validators (validators m').
Proof.
  eapply (@ban_escaped Registered.power 1).
  - vm_compute. reflexivity.
  - cbn. lia.
  - lia.
  - reflexivity.
  - reflexivity.
  - cbn. lia.
Defined.

