(* ===== verification/Consensus.v ===== *)
(** * The BFT consensus engine (lib-consensus)

    [ConsensusEngine] of [lib-consensus/src/engines/consensus_engine/]: the
    message and timeout handlers of [state_machine.rs], the admission checks of
    [validation.rs], the vote counts of [storage.rs], proposals and votes of
    [proofs.rs], and the height and snapshot bookkeeping of [mod.rs].  A handler
    is a program on the engine's state; what it sends is appended to [outputs].
    Identities, hashes and keys are numbers, the all-zero array is 0.  Hashing,
    signatures, the proofs attached to proposals, rewards and the chain behind
    [ConsensusBlockchainProvider] and [BlockCommitCallback] are parameters
    ([ConsensusEnv]); the validator set is that of [Validators.v].  Left out: logging,
    the advisory replay and forensic records of [on_message], heartbeats, DAO and fee
    bookkeeping after a commit (their errors are only logged), and the deprecated
    synchronous driver. *)
From stdpp Require Import base tactics numbers list option gmap fin_maps sorting strings.
From S2P Require Import Prelude TokenCore Codec Memo Validators.

(** ** Types *)

Module VoteType.

Inductive t : Type := PreVote | PreCommit | Commit | Against.

#[global] Instance t_eq_dec : EqDecision t.
Proof. solve_decision. Defined.

#[global] Instance t_countable : Countable t.
Proof.
  refine (inj_countable'
    (λ x, match x with PreVote => 0 | PreCommit => 1 | Commit => 2 | Against => 3 end%nat)
    (λ n, match n with 0 => PreVote | 1 => PreCommit | 2 => Commit | _ => Against end%nat) _).
  by intros [].
Defined.

(** The [repr(u8)] value. *)
Definition to_byte (x : t) : Z :=
  match x with PreVote => 1 | PreCommit => 2 | Commit => 3 | Against => 4 end.

End VoteType.

Module ConsensusStep.

Inductive t : Type := Propose | PreVote | PreCommit | Commit | NewRound.

#[global] Instance t_eq_dec : EqDecision t.
Proof. solve_decision. Defined.

(** Also the derived order. *)
Definition as_ordinal (x : t) : Z :=
  match x with Propose => 0 | PreVote => 1 | PreCommit => 2 | Commit => 3 | NewRound => 4 end.

Definition lt (a b : t) : bool := as_ordinal a <? as_ordinal b.
Definition le (a b : t) : bool := as_ordinal a <=? as_ordinal b.

End ConsensusStep.

Inductive ConsensusType : Type :=
| ProofOfStake | ProofOfStorage | ProofOfUsefulWork | ByzantineFaultTolerance.

#[export] Instance ConsensusType_eq_dec : EqDecision ConsensusType.
Proof. solve_decision. Defined.

Inductive ConsensusError : Type :=
| ValidatorError (m : string) | ProofVerificationFailed (m : string)
| ByzantineFault (m : string) | RewardError (m : string) | CryptoError
| InvalidPreviousHash (m : string).

(** The proofs inside are opaque to the engine's logic. *)
Record ConsensusProof : Type := { consensus_type : ConsensusType; proof_body : Z }.

Record ConsensusVote : Type := {
  vote_id : Z; voter : Z; vote_proposal_id : Z; vote_type : VoteType.t;
  vote_height : Z;    (* u64 *)
  vote_round : Z;     (* u32 *)
  vote_timestamp : Z; vote_signature : Signature;
}.

Record ConsensusProposal : Type := {
  prop_id : Z; proposer : Z; prop_height : Z; prop_round : Z; protocol_version : Z;
  prop_previous_hash : Z; block_data : list Z; prop_timestamp : Z; prop_signature : Signature;
  consensus_proof : ConsensusProof;
}.

(** The [votes] field of the source is never filled and is left out. *)
Record ConsensusRound : Type := {
  height : Z; round : Z; step : ConsensusStep.t; start_time : Z; round_proposer : option Z;
  proposals : list Z; timed_out : bool; locked_proposal : option Z; valid_proposal : option Z;
}.

(** (height, round, vote type, validator), for [VotePoolKey] and [VoteTrackingKey]. *)
Notation VotePoolKey := (Z * Z * VoteType.t * Z)%type (only parsing).

Definition key_height (k : VotePoolKey) : Z := k.1.1.1.
Definition key_round (k : VotePoolKey) : Z := k.1.1.2.
Definition key_type (k : VotePoolKey) : VoteType.t := k.1.2.
Definition key_validator (k : VotePoolKey) : Z := k.2.

Definition vote_key (v : ConsensusVote) : VotePoolKey :=
  (vote_height v, vote_round v, vote_type v, voter v).

Notation VotePool := (gmap VotePoolKey (ConsensusVote * Z)) (only parsing).

Record FirstVoteRecord : Type := {
  first_vote_id : Z; first_proposal_id : Z; first_signature : Signature; first_timestamp : Z;
  received_at : Z;
}.

(** The two conflicting votes have the fields of a [FirstVoteRecord]; no peer is
    reported. *)
Record EquivocationEvidence : Type := {
  ev_validator : Z; ev_height : Z; ev_round : Z; ev_vote_type : VoteType.t;
  ev_vote_a : FirstVoteRecord; ev_vote_b : FirstVoteRecord; detected_at : Z;
}.

Record CommitAttestation : Type := {
  att_validator_id : Z; att_vote_id : Z; att_proposal_id : Z; att_round : Z;
  att_signature : list Z; att_public_key : Z;
}.

Record BftQuorumProof : Type := {
  proof_height : Z; proof_proposal_id : Z; total_validators : Z; attestations : list CommitAttestation;
}.

Inductive ValidatorMessage : Type :=
| ProposeMessage (p : ConsensusProposal)
| VoteMessage (v : ConsensusVote)
| HeartbeatMessage.

(** Effects outside the engine: a broadcast, a call of the catch-up trigger, a
    block handed to the chain. *)
Inductive Output : Type :=
| Broadcast (m : ValidatorMessage) (to : gset Z)
| CatchUp (from : Z)
| Committed (p : ConsensusProposal) (q : BftQuorumProof).

(** Code outside the engine.  [None] and [false] are errors. *)
Class ConsensusEnv : Type := {
  Chain : Type;
  get_blockchain_height : Chain → option Z;
  get_latest_block_hash : Chain → option Z;
  is_ready : Chain → bool;
  get_pending_transactions : Chain → option (list Z);
  decode_block_data : list Z → bool;
  commit_finalized_block_with_proof : ConsensusProposal → BftQuorumProof → Chain → Chain * bool;
  hash_blake3 : list Z → Z;
  (* [crystals_dilithium]: public key, message, signature; and signing with the
     secret key that belongs to a public key *)
  dilithium_verify : Z → list Z → list Z → bool;
  dilithium_sign : Z → list Z → list Z;
  (* the clock when a message is signed *)
  unix_time : list Z → Z;
  verify_other_proof : ConsensusProof → Z → option bool;
  create_consensus_proof : Z → Z → option ConsensusProof;
  distribute_rewards : ValidatorManager → Z → bool;
  env_voting_power :: VotingPower;
  (* the clock when the part of a validator in a block is recorded *)
  activity_time : ConsensusProposal → Z → Z;
  (* the clock when a vote is cast *)
  vote_time : ConsensusVote → Z;
  (* the iteration order of a [HashMap] *)
  iter_votes : VotePool → list (VotePoolKey * (ConsensusVote * Z));
}.

Section Engine.
Context `{ConsensusEnv}.

(** ** Signatures (lib-crypto) *)

Definition SIGNBYTES : Z := 4595.

(** Public keys are arrays of 2592 bytes. *)
Definition verify_signature (message sig : list Z) (pk : Z) : bool :=
  if (lenZ message =? 32) && (lenZ sig =? 2592) then true
  else if negb (lenZ sig =? SIGNBYTES) then false
  else dilithium_verify pk message sig.

(** [PublicKey::verify]. *)
Definition verify (k : PublicKey) (message : list Z) (s : Signature) : bool :=
  verify_signature message (signature s) (dilithium_pk k).

(** [KeyPair::sign] of the pair with public key [k]; the secret key has the
    expected size. *)
Definition sign (k : PublicKey) (message : list Z) : Signature := {|
  signature := dilithium_sign (dilithium_pk k) message; public_key := k; algorithm := 0;
  sig_timestamp := unix_time message |}.

(** The optional collaborators are flags; [chain] is what the provider and the
    commit callback share. *)
Record ConsensusEngine : Type := {
  validator_identity : option Z;
  validator_manager : ValidatorManager;
  current_round : ConsensusRound;
  pending_proposals : list ConsensusProposal;
  vote_pool : VotePool;
  validator_set_history : list (Z * gset Z);
  first_votes : gmap VotePoolKey FirstVoteRecord;
  evidence_log : list EquivocationEvidence;
  validator_keypair : option PublicKey;
  has_provider : bool; has_callback : bool; has_trigger : bool;
  chain : Chain;
  outputs : list Output;
}.

Notation EM := (M ConsensusEngine ConsensusError) (only parsing).

Definition set_round (r : ConsensusRound) (e : ConsensusEngine) : ConsensusEngine := {|
  validator_identity := validator_identity e; validator_manager := validator_manager e; current_round := r;
  pending_proposals := pending_proposals e; vote_pool := vote_pool e;
  validator_set_history := validator_set_history e; first_votes := first_votes e;
  evidence_log := evidence_log e; validator_keypair := validator_keypair e;
  has_provider := has_provider e; has_callback := has_callback e; has_trigger := has_trigger e;
  chain := chain e; outputs := outputs e |}.

Definition set_pool (p : VotePool) (e : ConsensusEngine) : ConsensusEngine := {|
  validator_identity := validator_identity e; validator_manager := validator_manager e;
  current_round := current_round e; pending_proposals := pending_proposals e; vote_pool := p;
  validator_set_history := validator_set_history e; first_votes := first_votes e;
  evidence_log := evidence_log e; validator_keypair := validator_keypair e;
  has_provider := has_provider e; has_callback := has_callback e; has_trigger := has_trigger e;
  chain := chain e; outputs := outputs e |}.

Definition set_pending (ps : list ConsensusProposal) (e : ConsensusEngine) : ConsensusEngine := {|
  validator_identity := validator_identity e; validator_manager := validator_manager e;
  current_round := current_round e; pending_proposals := ps; vote_pool := vote_pool e;
  validator_set_history := validator_set_history e; first_votes := first_votes e;
  evidence_log := evidence_log e; validator_keypair := validator_keypair e;
  has_provider := has_provider e; has_callback := has_callback e; has_trigger := has_trigger e;
  chain := chain e; outputs := outputs e |}.

Definition set_history (h : list (Z * gset Z)) (e : ConsensusEngine) : ConsensusEngine := {|
  validator_identity := validator_identity e; validator_manager := validator_manager e;
  current_round := current_round e; pending_proposals := pending_proposals e;
  vote_pool := vote_pool e; validator_set_history := h; first_votes := first_votes e;
  evidence_log := evidence_log e; validator_keypair := validator_keypair e;
  has_provider := has_provider e; has_callback := has_callback e; has_trigger := has_trigger e;
  chain := chain e; outputs := outputs e |}.

Definition set_detector (f : gmap VotePoolKey FirstVoteRecord) (l : list EquivocationEvidence)
    (e : ConsensusEngine) : ConsensusEngine := {|
  validator_identity := validator_identity e; validator_manager := validator_manager e;
  current_round := current_round e; pending_proposals := pending_proposals e;
  vote_pool := vote_pool e; validator_set_history := validator_set_history e; first_votes := f;
  evidence_log := l; validator_keypair := validator_keypair e;
  has_provider := has_provider e; has_callback := has_callback e; has_trigger := has_trigger e;
  chain := chain e; outputs := outputs e |}.

Definition set_manager (m : ValidatorManager) (e : ConsensusEngine) : ConsensusEngine := {|
  validator_identity := validator_identity e; validator_manager := m;
  current_round := current_round e; pending_proposals := pending_proposals e;
  vote_pool := vote_pool e; validator_set_history := validator_set_history e;
  first_votes := first_votes e; evidence_log := evidence_log e;
  validator_keypair := validator_keypair e; has_provider := has_provider e;
  has_callback := has_callback e; has_trigger := has_trigger e; chain := chain e;
  outputs := outputs e |}.

Definition set_local (id : option Z) (k : option PublicKey) (e : ConsensusEngine)
    : ConsensusEngine := {|
  validator_identity := id; validator_manager := validator_manager e;
  current_round := current_round e; pending_proposals := pending_proposals e;
  vote_pool := vote_pool e; validator_set_history := validator_set_history e;
  first_votes := first_votes e; evidence_log := evidence_log e; validator_keypair := k;
  has_provider := has_provider e; has_callback := has_callback e; has_trigger := has_trigger e;
  chain := chain e; outputs := outputs e |}.

Definition set_chain (c : Chain) (os : list Output) (e : ConsensusEngine) : ConsensusEngine := {|
  validator_identity := validator_identity e; validator_manager := validator_manager e;
  current_round := current_round e; pending_proposals := pending_proposals e;
  vote_pool := vote_pool e; validator_set_history := validator_set_history e;
  first_votes := first_votes e; evidence_log := evidence_log e;
  validator_keypair := validator_keypair e; has_provider := has_provider e;
  has_callback := has_callback e; has_trigger := has_trigger e; chain := c; outputs := os |}.

Definition emit (o : Output) : EM unit := modify (λ e, set_chain (chain e) (outputs e ++ [o]) e).

(** ** Membership, proposers and counts *)

(** [meets_threshold], [has_supermajority]. *)
Definition meets_threshold (numerator denominator threshold_bps : Z) : bool :=
  if denominator =? 0 then false else denominator * threshold_bps <=? numerator * 10000.

Definition BFT_SUPERMAJORITY_BPS : Z := 6667.

Definition check_supermajority (matching_votes total : Z) : bool :=
  meets_threshold matching_votes total BFT_SUPERMAJORITY_BPS.

Definition active_validators (e : ConsensusEngine) : gset Z :=
  get_active_validators (validators (validator_manager e)).

(** [get_active_validators().len() as u64]. *)
Definition active_count (e : ConsensusEngine) : Z := Z.of_nat (size (active_validators e)).

Definition validator_set_for_height (h : Z) (e : ConsensusEngine) : option (gset Z) :=
  snd <$> find (λ s, s.1 =? h) (validator_set_history e).

Definition snapshot_validator_set (h : Z) : EM unit :=
  modify (λ e,
    if existsb (λ s, s.1 =? h) (validator_set_history e) then e else
    let history := validator_set_history e ++ [(h, active_validators e)] in
    set_history (if (100 <? length history)%nat then tail history else history) e).

Definition get_active_validator_ids (e : ConsensusEngine) : gset Z :=
  match validator_set_for_height (height (current_round e)) e with
  | Some s => s
  | None => active_validators e
  end.

(** The round-robin choice from a set sorted by identity. *)
Definition round_robin (s : gset Z) (h r : Z) : option Z :=
  let sorted := merge_sort Z.le (elements s) in
  if bool_decide (s = ∅) then None
  else sorted !! Z.to_nat (wadd 64 h r mod Z.of_nat (length sorted)).

Definition compute_proposer_for_round (h r : Z) (e : ConsensusEngine) : option Z :=
  match validator_set_for_height h e with
  | Some s => round_robin s h r
  | None => round_robin (active_validators e) h r
  end.

Definition is_validator_member (v h : Z) (e : ConsensusEngine) : bool :=
  match validator_set_for_height h e with
  | Some s => bool_decide (v ∈ s)
  | None => false
  end.

(** The number of entries of the pool that satisfy [f] and are for a proposal. *)
Definition count_votes (f : VotePoolKey → bool) (id : Z) (pool : VotePool) : Z :=
  Z.of_nat (size (filter (λ kv, (f kv.1 && (kv.2.2 =? id)) = true) pool)).

Definition count_prevotes_for (h r id : Z) (e : ConsensusEngine) : Z :=
  count_votes (λ k, (key_height k =? h) && (key_round k =? r) &&
                    bool_decide (key_type k = VoteType.PreVote)) id (vote_pool e).

Definition count_precommits_for (h r id : Z) (e : ConsensusEngine) : Z :=
  count_votes (λ k, (key_height k =? h) && (key_round k =? r) &&
                    bool_decide (key_type k = VoteType.PreCommit)) id (vote_pool e).

(** Over all rounds: the round argument is ignored, as in the source. *)
Definition count_commits_for (h _round id : Z) (e : ConsensusEngine) : Z :=
  count_votes (λ k, (key_height k =? h) && bool_decide (key_type k = VoteType.Commit))
    id (vote_pool e).

(** The count of [enter_commit_step], also over all rounds. *)
Definition count_precommits_all_rounds (h id : Z) (e : ConsensusEngine) : Z :=
  count_votes (λ k, (key_height k =? h) && bool_decide (key_type k = VoteType.PreCommit))
    id (vote_pool e).

(** ** Signed data *)

Definition le_bytes (n : nat) (z : Z) : list Z := rev (be_bytes n z).

Definition serialize_vote_data (id v proposal : Z) (t : VoteType.t) (h r : Z) : list Z :=
  be_bytes 32 id ++ be_bytes 32 v ++ be_bytes 32 proposal ++ [VoteType.to_byte t] ++
  le_bytes 8 h ++ le_bytes 4 r.

Definition serialize_proposal_data (id p h r previous : Z) (data : list Z) : list Z :=
  str_bytes "ZHTP/PROPOSAL/SIG/v1" ++ [0] ++ be_bytes 32 id ++ be_bytes 32 p ++ le_bytes 8 h ++
  le_bytes 4 r ++ be_bytes 32 previous ++ le_bytes 4 (as_u 32 (lenZ data)) ++ data.

Definition reconstruct_vote_envelope (a : CommitAttestation) (h : Z) : list Z :=
  be_bytes 32 (att_vote_id a) ++ be_bytes 32 (att_validator_id a) ++
  be_bytes 32 (att_proposal_id a) ++ [3] ++ le_bytes 8 h ++ le_bytes 4 (att_round a).

Definition local_signing_keypair (v : Validator) (e : ConsensusEngine)
    : result PublicKey ConsensusError :=
  match validator_keypair e with
  | None => Err (ValidatorError "No signing keypair configured for local validator")
  | Some k =>
      if negb (dilithium_pk k =? consensus_key v)
      then Err (ValidatorError "Local keypair does not match validator consensus key") else Ok k
  end.

(** The identity, the registered validator and the key of this node. *)
Definition local_validator (e : ConsensusEngine) : result (Z * PublicKey) ConsensusError :=
  let? id := ok_or (validator_identity e) (ValidatorError "No validator identity") in
  let? v := ok_or (validators (validator_manager e) !! id) (ValidatorError "Validator not found") in
  let? k := local_signing_keypair v e in
  Ok (id, k).

(** [CONSENSUS_PROTOCOL_VERSION]. *)
Definition CONSENSUS_PROTOCOL_VERSION : Z := 1.

Definition get_previous_block_hash (e : ConsensusEngine) : result Z ConsensusError :=
  if height (current_round e) =? 0 then Ok 0 else
  if negb (has_provider e)
  then Err (ValidatorError "Cannot propose: no blockchain provider configured") else
  ok_or (get_latest_block_hash (chain e))
    (ValidatorError "Cannot propose: failed to get previous block hash").

Definition collect_block_transactions (e : ConsensusEngine) : result (list Z) ConsensusError :=
  if negb (has_provider e)
  then Err (ValidatorError "Cannot propose: no blockchain provider configured")
  else if negb (is_ready (chain e))
  then Err (ValidatorError "Cannot propose: blockchain provider is not ready")
  else ok_or (get_pending_transactions (chain e))
         (ValidatorError "Cannot propose: failed to get pending transactions").

Definition create_proposal (e : ConsensusEngine) : result ConsensusProposal ConsensusError :=
  let h := height (current_round e) in
  let r := round (current_round e) in
  let? id := ok_or (validator_identity e) (ValidatorError "No validator identity") in
  let? previous := get_previous_block_hash e in
  let? data := collect_block_transactions e in
  let proposal_id := hash_blake3 (str_bytes "ZHTP/PROPOSAL/ID/v1" ++ [0] ++ be_bytes 32 id ++
    le_bytes 8 h ++ le_bytes 4 r ++ be_bytes 32 previous ++ data) in
  let? proof := ok_or (create_consensus_proof id h) (ProofVerificationFailed "consensus proof") in
  let? local := local_validator e in
  let s := sign local.2 (serialize_proposal_data proposal_id id h r previous data) in
  Ok {| prop_id := proposal_id; proposer := id; prop_height := h; prop_round := r;
        protocol_version := CONSENSUS_PROTOCOL_VERSION; prop_previous_hash := previous;
        block_data := data; prop_timestamp := h; prop_signature := s; consensus_proof := proof |}.

(** ** Casting votes *)

(** [(height << 32) | round as u64]. *)
Definition logical_time (e : ConsensusEngine) : Z :=
  Z.lor (as_u 64 (Z.shiftl (height (current_round e)) 32)) (round (current_round e)).

Definition cast_vote (proposal_id : Z) (t : VoteType.t) : EM ConsensusVote :=
  e <- gets (λ e, e) ;;
  let h := height (current_round e) in
  let r := round (current_round e) in
  local <- lift (local_validator e) ;;
  let id := hash_blake3 (be_bytes 32 proposal_id ++ be_bytes 32 local.1 ++
              [VoteType.to_byte t] ++ le_bytes 8 h ++ le_bytes 4 r) in
  let s := sign local.2 (serialize_vote_data id local.1 proposal_id t h r) in
  let vote := {| vote_id := id; voter := local.1; vote_proposal_id := proposal_id;
                 vote_type := t; vote_height := h; vote_round := r;
                 vote_timestamp := logical_time e; vote_signature := s |} in
  modify (λ e, set_pool (<[vote_key vote := (vote, proposal_id)]> (vote_pool e)) e) ;;;
  modify (λ e, set_manager (update_validator_activity (vote_time vote) local.1 (validator_manager e)) e) ;;;
  ret vote.

(** A broadcast to the validators of the current height; failures are ignored. *)
Definition broadcast (m : ValidatorMessage) : EM unit :=
  ids <- gets get_active_validator_ids ;; emit (Broadcast m ids).

Definition set_step (s : ConsensusStep.t) (r : ConsensusRound) : ConsensusRound := {|
  height := height r; round := round r; step := s; start_time := start_time r;
  round_proposer := round_proposer r; proposals := proposals r; timed_out := timed_out r;
  locked_proposal := locked_proposal r; valid_proposal := valid_proposal r |}.

Definition set_valid (p : option Z) (r : ConsensusRound) : ConsensusRound := {|
  height := height r; round := round r; step := step r; start_time := start_time r;
  round_proposer := round_proposer r; proposals := proposals r; timed_out := timed_out r;
  locked_proposal := locked_proposal r; valid_proposal := p |}.

Definition set_locked (p : option Z) (r : ConsensusRound) : ConsensusRound := {|
  height := height r; round := round r; step := step r; start_time := start_time r;
  round_proposer := round_proposer r; proposals := proposals r; timed_out := timed_out r;
  locked_proposal := p; valid_proposal := valid_proposal r |}.

Definition set_height (h : Z) (r : ConsensusRound) : ConsensusRound := {|
  height := h; round := round r; step := step r; start_time := start_time r;
  round_proposer := round_proposer r; proposals := proposals r; timed_out := timed_out r;
  locked_proposal := locked_proposal r; valid_proposal := valid_proposal r |}.

Definition set_proposer (p : option Z) (r : ConsensusRound) : ConsensusRound := {|
  height := height r; round := round r; step := step r; start_time := start_time r;
  round_proposer := p; proposals := proposals r; timed_out := timed_out r;
  locked_proposal := locked_proposal r; valid_proposal := valid_proposal r |}.

Definition push_proposal (id : Z) (r : ConsensusRound) : ConsensusRound := {|
  height := height r; round := round r; step := step r; start_time := start_time r;
  round_proposer := round_proposer r; proposals := proposals r ++ [id]; timed_out := timed_out r;
  locked_proposal := locked_proposal r; valid_proposal := valid_proposal r |}.

(** A fresh round [r] at height [h]. *)
Definition fresh_round (h r start : Z) : ConsensusRound := {|
  height := h; round := r; step := ConsensusStep.Propose; start_time := start;
  round_proposer := None; proposals := []; timed_out := false; locked_proposal := None;
  valid_proposal := None |}.

Definition on_round (f : ConsensusRound → ConsensusRound) : EM unit :=
  modify (λ e, set_round (f (current_round e)) e).

(** Whether this node has a vote of type [t] for the current round in the pool;
    [default] when it has no identity. *)
Definition already_voted (t : VoteType.t) (default : bool) (e : ConsensusEngine) : bool :=
  match validator_identity e with
  | None => default
  | Some id =>
      bool_decide (is_Some (vote_pool e !! (height (current_round e), round (current_round e), t, id)))
  end.

(** ** Finalization *)

Definition verify_consensus_proof (p : ConsensusProof) (h : Z) : result bool ConsensusError :=
  match consensus_type p with
  | ByzantineFaultTolerance => Ok false
  | _ => ok_or (verify_other_proof p h) CryptoError
  end.

(** The check of the key's length always passes on a fixed-size array. *)
Definition verify_proposal_signature (p : ConsensusProposal) (e : ConsensusEngine)
    : result unit ConsensusError :=
  let key := dilithium_pk (public_key (prop_signature p)) in
  if key =? 0 then Err (ProofVerificationFailed "empty consensus key") else
  match validators (validator_manager e) !! proposer p with
  | None => Err (ProofVerificationFailed "proposer not found in validator registry")
  | Some v =>
      if consensus_key v =? 0 then Err (ProofVerificationFailed "non-verifiable consensus key")
      else if negb (consensus_key v =? key)
      then Err (ProofVerificationFailed "consensus key mismatch")
      else if negb (verify (public_key (prop_signature p))
             (serialize_proposal_data (prop_id p) (proposer p) (prop_height p) (prop_round p)
                (prop_previous_hash p) (block_data p)) (prop_signature p))
      then Err (ProofVerificationFailed "invalid signature") else Ok tt
  end.

Definition validate_committed_block (p : ConsensusProposal) (e : ConsensusEngine)
    : result unit ConsensusError :=
  let? _u := verify_proposal_signature p e in
  if bool_decide (consensus_type (consensus_proof p) = ByzantineFaultTolerance) then Ok tt else
  let? ok := verify_consensus_proof (consensus_proof p) (height (current_round e)) in
  if ok then Ok tt else Err (ProofVerificationFailed "Invalid consensus proof").

Definition attestation (v : ConsensusVote) : CommitAttestation := {|
  att_validator_id := voter v; att_vote_id := vote_id v; att_proposal_id := vote_proposal_id v;
  att_round := vote_round v; att_signature := signature (vote_signature v);
  att_public_key := dilithium_pk (public_key (vote_signature v)) |}.

(** The attestation of a pool entry; signatures of another size are skipped. *)
Definition attestation_of (v : ConsensusVote) : option CommitAttestation :=
  if lenZ (signature (vote_signature v)) =? SIGNBYTES then Some (attestation v) else None.

(** [Vec::dedup_by_key]: of equal neighbours the first is kept. *)
Fixpoint dedup_by_validator (l : list CommitAttestation) : list CommitAttestation :=
  match l with
  | [] => []
  | a :: l' =>
      match dedup_by_validator l' with
      | [] => [a]
      | b :: l'' => if att_validator_id a =? att_validator_id b then a :: l'' else a :: b :: l''
      end
  end.

(** [slice::sort_by_key] on the validator, a stable sort. *)
Fixpoint insert_by_validator (a : CommitAttestation) (l : list CommitAttestation)
    : list CommitAttestation :=
  match l with
  | [] => [a]
  | b :: l' =>
      if att_validator_id a <=? att_validator_id b then a :: l else b :: insert_by_validator a l'
  end.

Definition sort_by_validator (l : list CommitAttestation) : list CommitAttestation :=
  foldr insert_by_validator [] l.

Definition quorum_proof (id : Z) (e : ConsensusEngine) : BftQuorumProof :=
  let h := height (current_round e) in
  let votes := filter (λ kv, ((key_height kv.1 =? h) &&
                 bool_decide (key_type kv.1 = VoteType.Commit) && (kv.2.2 =? id)) = true)
                 (iter_votes (vote_pool e)) in
  let found := omap (λ kv, attestation_of kv.2.1) votes in
  {| proof_height := h; proof_proposal_id := id; total_validators := as_u 32 (active_count e);
     attestations := dedup_by_validator (sort_by_validator found) |}.

Definition apply_block_to_state_with_proof (p : ConsensusProposal) (q : BftQuorumProof) : EM unit :=
  callback <- gets has_callback ;;
  if negb callback then ret tt else
  c <- gets chain ;;
  let '(c', ok) := commit_finalized_block_with_proof p q c in
  if ok then modify (λ e, set_chain c' (outputs e ++ [Committed p q]) e)
  else modify (λ e, set_chain c' (outputs e) e) ;;;
       throw (ValidatorError "BFT safety violation: committed block could not be applied locally").

(** One more reputation point, up to 1000, and the time of the activity. *)
Definition bump (now : Z) (v : Validator) : Validator :=
  update_activity now (with_penalty (stake v) (Z.min (wadd 32 (reputation v) 1) 1000)
    (slash_count v) (voting_power v) (status v) (jail_until v) (jail_status v) v).

Definition update_validator_metrics (p : ConsensusProposal) : EM unit :=
  modify (λ e,
    let voters := (λ kv, voter kv.2.1) <$>
      filter (λ kv, (key_height kv.1 =? prop_height p) = true) (iter_votes (vote_pool e)) in
    let m := validator_manager e in
    set_manager (set_registry (foldl (λ vs id, alter (bump (activity_time p id)) id vs)
      (validators m) (proposer p :: voters)) (total_voting_power m) m) e).

Definition process_committed_block (id commit_round : Z) : EM unit :=
  e <- gets (λ e, e) ;;
  guard (check_supermajority (count_commits_for (height (current_round e)) commit_round id e)
           (active_count e))
    (ValidatorError "INVARIANT VIOLATION (BFT-A-939): no commit quorum") ;;;
  match list_find (λ p, prop_id p = id) (pending_proposals e) with
  | None =>
      if bool_decide (id ∈ proposals (current_round e)) then ret tt
      else throw (ValidatorError "FINALIZATION FAILED: the proposal artifact was never received")
  | Some (i, p) =>
      modify (set_pending (delete i (pending_proposals e))) ;;;
      lift (validate_committed_block p e) ;;;
      apply_block_to_state_with_proof p (quorum_proof id e) ;;;
      update_validator_metrics p ;;;
      vm <- gets validator_manager ;;
      guard (distribute_rewards vm (height (current_round e))) (RewardError "rewards")
  end.

Definition maybe_finalize (h r id : Z) : EM unit :=
  e <- gets (λ e, e) ;;
  if negb (check_supermajority (count_commits_for h r id e) (active_count e)) then ret tt else
  if negb (height (current_round e) =? h) then ret tt else
  (if ConsensusStep.lt (step (current_round e)) ConsensusStep.Commit
   then on_round (set_step ConsensusStep.Commit) else ret tt) ;;;
  process_committed_block id r.

(** ** Steps of a round *)

(** An error that is only logged. *)
Definition logged (m : EM unit) : EM unit := λ e, ((m e).1, Ok tt).

Definition enter_prevote_step : EM unit :=
  r <- gets current_round ;;
  if ConsensusStep.le ConsensusStep.PreVote (step r) then ret tt else
  on_round (set_step ConsensusStep.PreVote) ;;;
  match head (proposals r) with
  | None => ret tt
  | Some id =>
      vote <- cast_vote id VoteType.PreVote ;;
      broadcast (VoteMessage vote)
  end.

Definition enter_precommit_step : EM unit :=
  r <- gets current_round ;;
  if ConsensusStep.lt ConsensusStep.PreCommit (step r) then ret tt else
  (if ConsensusStep.lt (step r) ConsensusStep.PreCommit
   then on_round (set_step ConsensusStep.PreCommit) else ret tt) ;;;
  match (match valid_proposal r with Some id => Some id | None => head (proposals r) end) with
  | None => ret tt
  | Some id =>
      e <- gets (λ e, e) ;;
      if already_voted VoteType.PreCommit false e then ret tt else
      if check_supermajority (count_prevotes_for (height r) (round r) id e) (active_count e) then
        vote <- cast_vote id VoteType.PreCommit ;;
        on_round (set_valid (Some id)) ;;;
        broadcast (VoteMessage vote)
      else ret tt
  end.

Definition enter_commit_step : EM unit :=
  r <- gets current_round ;;
  (if ConsensusStep.lt (step r) ConsensusStep.Commit
   then on_round (set_step ConsensusStep.Commit) else ret tt) ;;;
  match (match valid_proposal r with Some id => Some id | None => locked_proposal r end) with
  | None => ret tt
  | Some id =>
      e <- gets (λ e, e) ;;
      if already_voted VoteType.Commit false e then ret tt else
      if check_supermajority (count_precommits_all_rounds (height r) id e) (active_count e) then
        vote <- cast_vote id VoteType.Commit ;;
        broadcast (VoteMessage vote) ;;;
        maybe_finalize (height r) (round r) id
      else ret tt
  end.

(** Errors after the broadcast are logged and dropped, as are those of
    [create_proposal]. *)
Definition enter_propose_step : EM unit :=
  e <- gets (λ e, e) ;;
  match compute_proposer_for_round (height (current_round e)) (round (current_round e)) e with
  | None => ret tt
  | Some p =>
      on_round (set_proposer (Some p)) ;;;
      if negb (bool_decide (validator_identity e = Some p)) then ret tt else
      e <- gets (λ e, e) ;;
      match create_proposal e with
      | Err _ => ret tt
      | Ok proposal =>
          on_round (push_proposal (prop_id proposal)) ;;;
          modify (λ e, set_pending (pending_proposals e ++ [proposal]) e) ;;;
          broadcast (ProposeMessage proposal) ;;;
          logged enter_prevote_step
      end
  end.

(** ** Heights *)

Definition sync_height_with_blockchain : EM unit :=
  e <- gets (λ e, e) ;;
  if negb (has_provider e) then ret tt else
  match get_blockchain_height (chain e) with
  | None => ret tt
  | Some b =>
      let old := height (current_round e) in
      let new := if b =? 0 then 1 else wadd 64 b 1 in
      on_round (set_height new) ;;;
      (* MonotonicHeight; NoFork holds trivially here *)
      guard ((new =? old) || (old =? 0) || (old <? new))
        (ValidatorError "consensus invariant violated [MonotonicHeight]")
  end.

Definition advance_to_next_round : EM unit :=
  on_round (λ r, let h := wadd 64 (height r) 1 in fresh_round h 0 h).

Definition on_round_timeout : EM unit :=
  r <- gets current_round ;;
  match step r with
  | ConsensusStep.Propose => enter_prevote_step
  | ConsensusStep.PreVote => enter_precommit_step
  | ConsensusStep.PreCommit => enter_commit_step
  | ConsensusStep.Commit =>
      (λ s, match sync_height_with_blockchain s with
            | (s', Err _) => advance_to_next_round s'
            | (s', Ok _) =>
                let h := height (current_round s') in
                let next := if h =? height r then wadd 32 (round r) 1 else 0 in
                on_round (λ _, fresh_round h next h) s'
            end) ;;;
      h <- gets (λ e, height (current_round e)) ;;
      snapshot_validator_set h ;;;
      logged enter_propose_step
  | ConsensusStep.NewRound => ret tt
  end.

(** ** Proposals *)

Definition validate_no_fork_proposal (h r id : Z) (e : ConsensusEngine) : bool :=
  let c := current_round e in
  if h <? height c then false
  else if (h =? height c) && (r =? round c) then
    match valid_proposal c with Some committed => committed =? id | None => true end
  else true.

Definition is_proposal_relevant (p : ConsensusProposal) (e : ConsensusEngine) : bool :=
  (prop_height p =? height (current_round e)) &&
  negb (ConsensusStep.le ConsensusStep.Commit (step (current_round e))).

Definition validate_previous_hash (h previous : Z) (e : ConsensusEngine)
    : result unit ConsensusError :=
  if h =? 0 then
    if previous =? 0 then Ok tt
    else Err (InvalidPreviousHash "Genesis block must have zero previous hash")
  else if has_provider e && (default 0 (get_blockchain_height (chain e)) =? h - 1) then
    match get_latest_block_hash (chain e) with
    | Some expected =>
        if previous =? expected then Ok tt else Err (InvalidPreviousHash "not the local chain tip")
    | None => Ok tt
    end
  else Ok tt.

Definition validate_incoming_proposal (p : ConsensusProposal) (e : ConsensusEngine)
    : result unit ConsensusError :=
  if negb (protocol_version p =? CONSENSUS_PROTOCOL_VERSION)
  then Err (ByzantineFault "Proposal rejected: protocol version mismatch")
  else if negb (bool_decide
            (compute_proposer_for_round (prop_height p) (prop_round p) e = Some (proposer p)))
  then Err (ByzantineFault "Proposal rejected: not the expected leader") else
  let? _s := verify_proposal_signature p e in
  let? _h := validate_previous_hash (prop_height p) (prop_previous_hash p) e in
  if has_provider e && negb (decode_block_data (block_data p))
  then Err (ByzantineFault "Proposal rejected: block_data decode failed") else Ok tt.

Definition on_proposal (p : ConsensusProposal) : EM unit :=
  e <- gets (λ e, e) ;;
  if negb (validate_no_fork_proposal (prop_height p) (prop_round p) (prop_id p) e) then ret tt else
  if negb (is_proposal_relevant p e) then ret tt else
  (if round (current_round e) <? prop_round p then
     on_round (λ r, fresh_round (height r) (prop_round p) (start_time r)) ;;;
     snapshot_validator_set (height (current_round e))
   else ret tt) ;;;
  e <- gets (λ e, e) ;;
  if negb (bool_decide (proposals (current_round e) = [])) then ret tt else
  match validate_incoming_proposal p e with
  | Err _ => ret tt
  | Ok _ =>
      on_round (push_proposal (prop_id p)) ;;;
      broadcast (ProposeMessage p) ;;;
      modify (λ e, set_pending (pending_proposals e ++ [p]) e) ;;;
      match step (current_round e) with
      | ConsensusStep.Propose => enter_prevote_step
      | ConsensusStep.PreVote =>
          e <- gets (λ e, e) ;;
          if already_voted VoteType.PreVote true e then ret tt else
          vote <- cast_vote (prop_id p) VoteType.PreVote ;;
          broadcast (VoteMessage vote) ;;;
          e <- gets (λ e, e) ;;
          if check_supermajority
               (count_prevotes_for (height (current_round e)) (round (current_round e)) (prop_id p) e)
               (active_count e)
          then on_round (set_valid (Some (prop_id p))) ;;; enter_precommit_step
          else ret tt
      | _ => ret tt
      end
  end.

(** ** Votes *)

(** The check of the key's length always passes on a fixed-size array. *)
Definition verify_vote_signature (v : ConsensusVote) (e : ConsensusEngine) : bool :=
  let key := dilithium_pk (public_key (vote_signature v)) in
  negb (key =? 0) &&
  match validators (validator_manager e) !! voter v with
  | None => false
  | Some w =>
      negb (consensus_key w =? 0) && (consensus_key w =? key) &&
      verify (public_key (vote_signature v))
        (serialize_vote_data (vote_id v) (voter v) (vote_proposal_id v) (vote_type v)
           (vote_height v) (vote_round v)) (vote_signature v)
  end.

Definition validate_remote_vote (v : ConsensusVote) : EM bool :=
  e <- gets (λ e, e) ;;
  let c := current_round e in
  if vote_height v <? height c then ret false else
  if height c <? vote_height v then
    (if has_trigger e then emit (CatchUp (saturating_sub (height c) 1)) else ret tt) ;;; ret false
  else if negb (verify_vote_signature v e) then ret false
  else if negb (is_validator_member (voter v) (vote_height v) e) then ret false
  else if vote_round v <? round c then ret false
  else ret (match vote_type v with VoteType.Against => false | _ => true end).

Definition vote_record (v : ConsensusVote) (now : Z) : FirstVoteRecord := {|
  first_vote_id := vote_id v; first_proposal_id := vote_proposal_id v;
  first_signature := vote_signature v; first_timestamp := vote_timestamp v; received_at := now |}.

(** Returns whether the vote conflicts with the first one seen for its key. *)
Definition detect_equivocation (v : ConsensusVote) (now : Z) : EM bool :=
  e <- gets (λ e, e) ;;
  match first_votes e !! vote_key v with
  | Some f =>
      if first_proposal_id f =? vote_proposal_id v then ret false else
      modify (set_detector (first_votes e) (evidence_log e ++
        [{| ev_validator := voter v; ev_height := vote_height v; ev_round := vote_round v;
            ev_vote_type := vote_type v; ev_vote_a := f; ev_vote_b := vote_record v now;
            detected_at := now |}])) ;;;
      ret true
  | None =>
      modify (set_detector (<[vote_key v := vote_record v now]> (first_votes e)) (evidence_log e)) ;;;
      ret false
  end.

(** The common part of the three vote handlers: a vote that is neither
    conflicting nor known, for which [true] is returned, is stored and relayed. *)
Definition accept_vote (v : ConsensusVote) : EM bool :=
  now <- gets logical_time ;;
  conflict <- detect_equivocation v now ;;
  if conflict then ret false else
  known <- gets (λ e, vote_pool e !! vote_key v) ;;
  match known with
  | Some _ => ret false
  | None =>
      modify (λ e, set_pool (<[vote_key v := (v, vote_proposal_id v)]> (vote_pool e)) e) ;;;
      broadcast (VoteMessage v) ;;;
      ret true
  end.

Definition on_prevote (v : ConsensusVote) : EM unit :=
  valid <- validate_remote_vote v ;;
  if negb valid then ret tt else
  accepted <- accept_vote v ;;
  if negb accepted then ret tt else
  let id := vote_proposal_id v in
  e <- gets (λ e, e) ;;
  let quorum := check_supermajority (count_prevotes_for (vote_height v) (vote_round v) id e)
                  (active_count e) &&
                ConsensusStep.le (step (current_round e)) ConsensusStep.PreCommit in
  match valid_proposal (current_round e) with
  | Some existing =>
      if quorum && negb (existing =? id) then ret tt else
      (if quorum then enter_precommit_step else ret tt) ;;;
      maybe_finalize (vote_height v) (vote_round v) id
  | None =>
      (if quorum then on_round (set_valid (Some id)) ;;; enter_precommit_step else ret tt) ;;;
      maybe_finalize (vote_height v) (vote_round v) id
  end.

Definition on_precommit (v : ConsensusVote) : EM unit :=
  valid <- validate_remote_vote v ;;
  if negb valid then ret tt else
  accepted <- accept_vote v ;;
  if negb accepted then ret tt else
  let id := vote_proposal_id v in
  e <- gets (λ e, e) ;;
  let quorum := check_supermajority (count_precommits_for (vote_height v) (vote_round v) id e)
                  (active_count e) &&
                ConsensusStep.le (step (current_round e)) ConsensusStep.Commit in
  match locked_proposal (current_round e) with
  | Some existing =>
      if quorum && negb (existing =? id) then ret tt else
      (if quorum then enter_commit_step else ret tt) ;;;
      maybe_finalize (vote_height v) (vote_round v) id
  | None =>
      (if quorum then on_round (set_locked (Some id)) ;;; enter_commit_step else ret tt) ;;;
      maybe_finalize (vote_height v) (vote_round v) id
  end.

Definition on_commit_vote (v : ConsensusVote) : EM unit :=
  e <- gets (λ e, e) ;;
  if negb (vote_height v =? height (current_round e)) then ret tt else
  if negb (verify_vote_signature v e) then ret tt else
  if negb (is_validator_member (voter v) (vote_height v) e) then ret tt else
  accepted <- accept_vote v ;;
  if negb accepted then ret tt else
  maybe_finalize (vote_height v) (vote_round v) (vote_proposal_id v).

Definition on_message (m : ValidatorMessage) : EM unit :=
  match m with
  | ProposeMessage p => on_proposal p
  | VoteMessage v =>
      match vote_type v with
      | VoteType.PreVote => on_prevote v
      | VoteType.PreCommit => on_precommit v
      | VoteType.Commit => on_commit_vote v
      | VoteType.Against => ret tt
      end
  | HeartbeatMessage => ret tt
  end.

(** ** The consensus loop *)

Definition MIN_BFT_VALIDATORS : Z := 3.

Definition is_bft_mode_active (e : ConsensusEngine) : bool := MIN_BFT_VALIDATORS <=? active_count e.

(** What [run_consensus_loop] does before its first wait. *)
Definition start_loop : EM unit :=
  sync_height_with_blockchain ;;;
  h <- gets (λ e, height (current_round e)) ;;
  snapshot_validator_set h ;;;
  bft <- gets is_bft_mode_active ;;
  if bft then logged enter_propose_step else ret tt.

(** The transition from bootstrap to BFT mode. *)
Definition enter_bft_mode : EM unit :=
  logged sync_height_with_blockchain ;;;
  h <- gets (λ e, height (current_round e)) ;;
  snapshot_validator_set h ;;;
  logged enter_propose_step.

Definition set_local_validator_identity (id : Z) : EM unit :=
  e <- gets (λ e, e) ;;
  if bool_decide (is_Some (validator_identity e)) then ret tt else
  v <- lift (ok_or (validators (validator_manager e) !! id)
    (ValidatorError "Validator not found for local identity")) ;;
  guard (match validator_keypair e with Some k => dilithium_pk k =? consensus_key v | None => true end)
    (ValidatorError "Local validator keypair does not match validator set consensus key") ;;;
  modify (set_local (Some id) (validator_keypair e)).

Definition set_validator_keypair (k : PublicKey) : EM unit :=
  e <- gets (λ e, e) ;;
  id <- lift (ok_or (validator_identity e) (ValidatorError "local validator identity is not configured")) ;;
  v <- lift (ok_or (validators (validator_manager e) !! id)
    (ValidatorError "local validator is not registered")) ;;
  guard (consensus_key v =? dilithium_pk k)
    (ValidatorError "Validator keypair does not match registered consensus key") ;;;
  modify (set_local (validator_identity e) (Some k)).

(** A validator update from the runtime at time [now]; errors are dropped. *)
Definition on_validator_update (now : Z) (entries : list UpdateEntry) (local_identity : option Z)
    (local_keypair : option PublicKey) : EM unit :=
  modify (λ e, set_manager (update_validators now entries (validator_manager e)) e) ;;;
  match local_identity with Some id => logged (set_local_validator_identity id) | None => ret tt end ;;;
  match local_keypair with Some k => logged (set_validator_keypair k) | None => ret tt end ;;;
  h <- gets (λ e, height (current_round e)) ;;
  snapshot_validator_set h.

(** What wakes the loop.  The timer is armed for the current height, round and
    step whenever they change, so it may fire in any state; in bootstrap mode it
    does nothing.  [ChainMoves] is what the rest of the node does to the chain. *)
Inductive Event : Type :=
| Receive (m : ValidatorMessage) | RoundTimeout | BftTransition | ChainMoves (c : Chain)
| ValidatorUpdate (now : Z) (entries : list UpdateEntry) (local_identity : option Z)
    (local_keypair : option PublicKey).

(** One turn of the loop; an error ends it. *)
Definition handle (ev : Event) : EM unit :=
  match ev with
  | Receive m => on_message m
  | RoundTimeout =>
      bft <- gets is_bft_mode_active ;; if bft then on_round_timeout else ret tt
  | BftTransition =>
      bft <- gets is_bft_mode_active ;; if bft then enter_bft_mode else ret tt
  | ChainMoves c => modify (λ e, set_chain c (outputs e) e)
  | ValidatorUpdate now entries id k => on_validator_update now entries id k
  end.

Definition ConsensusEngine_new (id : option Z) (m : ValidatorManager) (k : option PublicKey)
    (provider callback trigger : bool) (c : Chain) : ConsensusEngine := {|
  validator_identity := id; validator_manager := m; current_round := fresh_round 0 0 0;
  pending_proposals := []; vote_pool := ∅; validator_set_history := []; first_votes := ∅;
  evidence_log := []; validator_keypair := k; has_provider := provider;
  has_callback := callback; has_trigger := trigger; chain := c; outputs := [] |}.

End Engine.

(** ** Proposers *)

(** Every validator gets its turn.  Among as many consecutive rounds of a
    height as there are validators, each validator is the proposer of exactly one,
    and nobody else is the proposer of any. *)
Theorem round_robin_fair (s : gset Z) h r :
  s ≠ ∅ → 0 <= h → 0 <= r → h + r + Z.of_nat (size s) <= 2 ^ 64 →
  (∀ v, v ∈ s → exists! k, 0 <= k < Z.of_nat (size s) ∧ round_robin s h (r + k) = Some v) ∧
  (∀ k, 0 <= k < Z.of_nat (size s) → ∃ v, v ∈ s ∧ round_robin s h (r + k) = Some v).
Proof.
  intros Hs Hh Hr Hw. set (l := merge_sort Z.le (elements s)).
  assert (l ≡ₚ elements s) as Hp by apply merge_sort_Permutation.
  assert (NoDup l) as Hnd by (rewrite Hp; apply NoDup_elements).
  assert (length l = size s) as Hl by by rewrite Hp.
  assert (size s ≠ 0%nat) as Hn by by intros He%size_empty_inv%leibniz_equiv.
  assert (∀ x, 0 <= x mod Z.of_nat (size s) < Z.of_nat (size s)) as Hmod by (intros; apply Z.mod_pos_bound; lia).
  assert (∀ k, 0 <= k < Z.of_nat (size s) →
    round_robin s h (r + k) = l !! Z.to_nat ((h + r + k) mod Z.of_nat (size s))) as Hrr.
  { intros k Hk. unfold round_robin. fold l. rewrite bool_decide_false, Hl by done.
    rewrite wadd_small by (unfold umax; lia). by rewrite Z.add_assoc. }
  split.
  - intros v Hv. rewrite <- elem_of_elements, <- Hp in Hv.
    apply list_elem_of_lookup in Hv as [j Hj]. pose proof (lookup_lt_Some _ _ _ Hj) as Hlt.
    exists ((Z.of_nat j - (h + r)) mod Z.of_nat (size s)). split.
    + split; [apply Hmod|]. rewrite Hrr, Zplus_mod_idemp_r by apply Hmod.
      replace (h + r + (Z.of_nat j - (h + r))) with (Z.of_nat j) by lia.
      rewrite Z.mod_small, Nat2Z.id by lia. done.
    + intros k [Hk Hv]. rewrite Hrr in Hv by done.
      pose proof (NoDup_lookup _ _ _ _ Hnd Hj Hv) as Hjk.
      rewrite Hjk, Z2Nat.id by apply Hmod.
      rewrite Zminus_mod_idemp_l. replace (h + r + k - (h + r)) with k by lia. by apply Z.mod_small.
  - intros k Hk. destruct (lookup_lt_is_Some_2 l (Z.to_nat ((h + r + k) mod Z.of_nat (size s)))) as [v Hv].
    { rewrite Hl. specialize (Hmod (h + r + k)). lia. }
    exists v. split; [|by rewrite Hrr]. apply list_elem_of_lookup_2 in Hv. by rewrite Hp, elem_of_elements in Hv.
Qed.

Lemma round_robin_fair_witness :
  exists! k, 0 <= k < 4 ∧ round_robin {[1; 2; 3; 4]} 7 (2 + k) = Some 3.
Proof.
  refine (proj1 (round_robin_fair {[1; 2; 3; 4]} 7 2 _ _ _ _) 3 _).
  - apply (bool_decide_eq_true_1 ({[1; 2; 3; 4]} ≠ ∅)). vm_compute. reflexivity.
  - lia.
  - lia.
  - vm_compute. discriminate.
  - apply (bool_decide_eq_true_1 (3 ∈ {[1; 2; 3; 4]})). vm_compute. reflexivity.
Defined.
