(* ===== verification/ConsensusSafety.v ===== *)
(** * Safety of the consensus engine

    Theorems about [Consensus.v]: what an honest node signs, what a network of
    honest nodes agrees on, and how agreement fails. *)
From stdpp Require Import base tactics numbers list option gmap fin_maps sorting strings.
From S2P Require Import Prelude TokenCore Codec Memo Validators Consensus.

(** ** The chain behind a node

    [ext c c'] says that [c'] extends [c]; a chain never shrinks. *)
Class ChainLaws `{ConsensusEnv} (ext : relation Chain) : Prop := {
  ext_preorder :: PreOrder ext;
  ext_height c c' b b' : ext c c' → get_blockchain_height c = Some b →
    get_blockchain_height c' = Some b' → b <= b';
  ext_commit p q c : ext c (commit_finalized_block_with_proof p q c).1;
  height_range c b : get_blockchain_height c = Some b → 0 <= b < 2 ^ 64 - 1;
}.

Section Node.
Context `{ConsensusEnv} (ext : relation Chain) `{!ChainLaws ext} (me : Z) (V : gset Z).

(** A prevote for round [r] of height [h] cannot be cast any more. *)
Definition passed (c : ConsensusRound) (h r : Z) : Prop :=
  h < height c ∨ h = height c ∧
    (r < round c ∨ r = round c ∧ 1 <= ConsensusStep.as_ordinal (step c)).

Definition vote_bytes (v : ConsensusVote) : list Z :=
  serialize_vote_data (vote_id v) (voter v) (vote_proposal_id v) (vote_type v) (vote_height v)
    (vote_round v).

(** The vote carries the key registered for its voter, and a signature that was
    verified or made under this key. *)
Definition vote_signed (vs : gmap Z Validator) (v : ConsensusVote) : Prop :=
  ∃ w, vs !! voter v = Some w ∧ consensus_key w = dilithium_pk (public_key (vote_signature v)) ∧
    (verify (public_key (vote_signature v)) (vote_bytes v) (vote_signature v) = true ∨
     vote_signature v = sign (public_key (vote_signature v)) (vote_bytes v)).

(** The state [e0] in which a block was committed. *)
Definition committed_in (p : ConsensusProposal) (q : BftQuorumProof) (e0 e : ConsensusEngine) : Prop :=
  vote_pool e0 ⊆ vote_pool e ∧ active_count e0 = Z.of_nat (size V) ∧
  q = quorum_proof (prop_id p) e0 ∧
  check_supermajority (count_commits_for (proof_height q) 0 (prop_id p) e0) (Z.of_nat (size V)) = true.

Record node_inv (e : ConsensusEngine) : Prop := {
  inv_id : validator_identity e = Some me;
  inv_active : active_validators e = V;
  inv_history : Forall (λ s, s.2 = V) (validator_set_history e);
  inv_pool k v id : vote_pool e !! k = Some (v, id) →
    vote_key v = k ∧ vote_proposal_id v = id ∧ key_validator k ∈ V ∧ vote_signed (validators (validator_manager e)) v;
  inv_prevote h r : is_Some (vote_pool e !! (h, r, VoteType.PreVote, me)) →
    passed (current_round e) h r;
  inv_sent v ids : Broadcast (VoteMessage v) ids ∈ outputs e →
    snd <$> vote_pool e !! vote_key v = Some (vote_proposal_id v);
  inv_committed p q : Committed p q ∈ outputs e → ∃ e0, committed_in p q e0 e;
  inv_height c b : ext (chain e) c → get_blockchain_height c = Some b →
    height (current_round e) <= (if b =? 0 then 1 else b + 1);
}.

(** What a handler may do to the pool and to the fault detector when [ov] is the
    vote it was given. *)
Record pool_grows (ov : option ConsensusVote) (e e' : ConsensusEngine) : Prop := {
  grows_kept : vote_pool e ⊆ vote_pool e';
  grows_new k x : vote_pool e' !! k = Some x → vote_pool e !! k = Some x ∨ key_validator k = me ∨
    ∃ v, ov = Some v ∧ k = vote_key v ∧ x = (v, vote_proposal_id v);
  grows_first k f : first_votes e' !! k = Some f → first_votes e !! k = Some f ∨
    ∃ v, ov = Some v ∧ k = vote_key v ∧ first_proposal_id f = vote_proposal_id v;
  grows_evidence ev : ev ∈ evidence_log e' → ev ∈ evidence_log e ∨
    ∃ v f, ov = Some v ∧ ev_validator ev = voter v ∧ first_votes e !! vote_key v = Some f ∧
      first_proposal_id f ≠ vote_proposal_id v;
}.

Lemma grows_same ov e e' :
  vote_pool e' = vote_pool e → first_votes e' = first_votes e → evidence_log e' = evidence_log e →
  pool_grows ov e e'.
Proof. intros Hp Hf He. split; [by rewrite Hp|rewrite Hp|rewrite Hf|rewrite He]; auto. Qed.

Definition safe (ov : option ConsensusVote) (e e' : ConsensusEngine) : Prop :=
  node_inv e → node_inv e' ∧ pool_grows ov e e'.

#[global] Instance safe_preorder ov : PreOrder (safe ov).
Proof.
  split; [intros e Hi; split; [done|by apply grows_same]|].
  intros e1 e2 e3 H12 H23 Hi. destruct (H12 Hi) as [Hi2 [Hs2 Hn2 Hf2 He2]].
  destruct (H23 Hi2) as [Hi3 [Hs3 Hn3 Hf3 He3]]. split; [done|]. split; [by etrans|..].
  - intros k x Hk. destruct (Hn3 _ _ Hk) as [Hk2|?]; [by apply Hn2|by right].
  - intros k f Hk. destruct (Hf3 _ _ Hk) as [Hk2|?]; [by apply Hf2|by right].
  - intros ev Hev. destruct (He3 _ Hev) as [Hev2|(v & f & Hov & Hv & Hf & Hne)]; [by apply He2|].
    destruct (Hf2 _ _ Hf) as [Hf1|(v' & Hov' & _ & Heq)]; [right; by exists v, f|].
    rewrite Hov in Hov'. by injection Hov' as <-.
Qed.

(** [m] run from [e] ends, in success or error, in a state related to [e]. *)
Definition leads {A : Type} (Q : relation ConsensusEngine)
    (m : M ConsensusEngine ConsensusError A) (e : ConsensusEngine) : Prop := Q e (m e).1.

Section Leads.
Context (Q : relation ConsensusEngine) `{!PreOrder Q}.

Lemma leads_ret {A : Type} (a : A) e : leads Q (ret a) e.
Proof. unfold leads. reflexivity. Qed.

Lemma leads_throw {A : Type} x e : leads Q (throw x : M _ _ A) e.
Proof. unfold leads. reflexivity. Qed.

Lemma leads_lift {A : Type} (x : result A _) e : leads Q (lift x) e.
Proof. unfold leads. reflexivity. Qed.

Lemma leads_guard b x e : leads Q (guard b x) e.
Proof. destruct b; [apply leads_ret|apply leads_throw]. Qed.

Lemma leads_gets {A B : Type} (f : ConsensusEngine → A) (k : A → M _ _ B) e :
  leads Q (k (f e)) e → leads Q (bind (gets f) k) e.
Proof. done. Qed.

Lemma leads_bind {A B : Type} (m : M _ _ A) (k : A → M _ _ B) e :
  leads Q m e → (∀ e' a, m e = (e', Ok a) → Q e e' → leads Q (k a) e') → leads Q (bind m k) e.
Proof.
  unfold leads, bind. destruct (m e) as [e' [a|x]] eqn:Hm; cbn; [|done].
  intros HQ Hk. etrans; [exact HQ|]. by apply Hk.
Qed.

Lemma leads_logged m e : leads Q m e → leads Q (logged m) e.
Proof. done. Qed.

End Leads.

Lemma count_votes_mono (f : VotePoolKey → bool) (id : Z) (p p' : VotePool) :
  p ⊆ p' → count_votes f id p <= count_votes f id p'.
Proof.
  intros Hp. unfold count_votes. apply inj_le. rewrite <- !size_dom.
  apply subseteq_size, subseteq_dom, map_filter_subseteq_mono, Hp.
Qed.

Lemma supermajority_mono a b n : a <= b → check_supermajority a n = true → check_supermajority b n = true.
Proof.
  unfold check_supermajority, meets_threshold, BFT_SUPERMAJORITY_BPS. intros.
  destruct (n =? 0); [done|]. rewrite Z.leb_le in *. lia.
Qed.

Lemma committed_quorum e p q :
  node_inv e → Committed p q ∈ outputs e →
  check_supermajority (count_commits_for (proof_height q) 0 (prop_id p) e) (Z.of_nat (size V)) = true.
Proof.
  intros Hi (e0 & Hs & _ & _ & Hq)%(inv_committed _ Hi). eapply supermajority_mono, Hq.
  by apply count_votes_mono.
Qed.

Context (ov : option ConsensusVote).

Notation sound m e := (node_inv e → leads (safe ov) m e) (only parsing).

Lemma sound_bind {A B : Type} (m : M _ _ A) (k : A → M _ _ B) e :
  sound m e → (∀ e' a, m e = (e', Ok a) → sound (k a) e') → sound (bind m k) e.
Proof.
  intros Hm Hk Hi. apply leads_bind; [apply _|by apply Hm|].
  intros e' a He Hs. by apply (Hk _ _ He), Hs.
Qed.

(** A change that leaves the pool, the registry and the height alone. *)
Lemma sound_round c e :
  height c = height (current_round e) →
  (∀ h r, passed (current_round e) h r → passed c h r) →
  safe ov e (set_round c e).
Proof.
  intros Hh Hp [I1 I2 I3 I4 I5 I6 I7 I8]. split; [|by apply grows_same].
  split; cbn; [done..| |done|done|]; [by intros; apply Hp, I5|]. intros c' b Hc Hb.
  rewrite Hh. by eapply I8.
Qed.

Lemma on_round_sound f e :
  height (f (current_round e)) = height (current_round e) →
  (∀ h r, passed (current_round e) h r → passed (f (current_round e)) h r) →
  sound (on_round f) e.
Proof. intros ?? _. by apply sound_round. Qed.

Lemma emit_sound o e :
  match o with
  | Broadcast (VoteMessage v) _ =>
      snd <$> vote_pool e !! vote_key v = Some (vote_proposal_id v)
  | Committed _ _ => False
  | _ => True
  end → sound (emit o) e.
Proof.
  intros Ho _ [I1 I2 I3 I4 I5 I6 I7 I8]. split; [|by apply grows_same].
  split; cbn; [done..| | |done].
  - intros v ids [Hin|Hin%list_elem_of_singleton]%elem_of_app; [by eapply I6|by subst o].
  - intros p q [Hin|Hin%list_elem_of_singleton]%elem_of_app; [by apply I7|by subst o].
Qed.

Lemma broadcast_sound m e :
  match m with
  | VoteMessage v => snd <$> vote_pool e !! vote_key v = Some (vote_proposal_id v)
  | _ => True
  end → sound (broadcast m) e.
Proof. intros Hm Hi. apply leads_gets, emit_sound; by destruct m. Qed.

Lemma snapshot_sound h e : sound (snapshot_validator_set h) e.
Proof.
  intros _. unfold leads, snapshot_validator_set. cbn. destruct (existsb _ _); [reflexivity|].
  intros [I1 I2 I3 I4 I5 I6 I7 I8]. split; [|by apply grows_same]. split; cbn; [done..| |done|done|done|done|done].
  assert (Forall (λ s, s.2 = V) (validator_set_history e ++ [(h, active_validators e)])) as Ha
    by (apply Forall_app; split; [done|by apply list.Forall_singleton]).
  revert Ha. generalize (validator_set_history e ++ [(h, active_validators e)]).
  intros l Ha. case_match; [|done]. by destruct Ha.
Qed.

(** A new entry of the pool. *)
Lemma insert_sound v e :
  vote_pool e !! vote_key v = None → voter v ∈ V → vote_signed (validators (validator_manager e)) v →
  voter v = me ∨ ov = Some v →
  (voter v = me → vote_type v = VoteType.PreVote →
   passed (current_round e) (vote_height v) (vote_round v)) →
  safe ov e (set_pool (<[vote_key v := (v, vote_proposal_id v)]> (vote_pool e)) e).
Proof.
  intros Hn Hv Hsig Hown Hp [I1 I2 I3 I4 I5 I6 I7 I8].
  assert (vote_pool e ⊆ <[vote_key v := (v, vote_proposal_id v)]> (vote_pool e)) as Hsub
    by by apply insert_subseteq.
  split; [|split; [done| |by left|by left]].
  - split; cbn; [done..| | | | |done].
    + intros k v' id [[<- [= <- <-]]|[_ Hk]]%lookup_insert_Some; [done|by apply I4].
    + intros h r [x [[Hk _]|[_ Hk]]%lookup_insert_Some]; [|by apply I5].
      injection Hk as <- <- Ht Hm. by apply Hp.
    + intros v' ids Hin. specialize (I6 _ _ Hin). destruct (vote_pool e !! vote_key v') eqn:Hk; [|done].
      by rewrite (lookup_weaken _ _ _ _ Hk Hsub).
    + intros p q Hin. destruct (I7 _ _ Hin) as (e0 & Hs & ?). exists e0. split; [by etrans|done].
  - cbn. intros k x [[<- <-]|[_ Hk]]%lookup_insert_Some; [|by left]. right.
    destruct Hown as [Hm|Hm]; [by left|right; by exists v].
Qed.

Context (Hme : me ∈ V).

(** The engine after a vote was cast notes the activity of the voter. *)
Definition touch (v : ConsensusVote) (e : ConsensusEngine) : ConsensusEngine :=
  set_manager (update_validator_activity (vote_time v) (voter v) (validator_manager e)) e.

Lemma active_alter f i (vs : gmap Z Validator) :
  (∀ v, can_participate (f v) = can_participate v) →
  get_active_validators (alter f i vs) = get_active_validators vs.
Proof.
  intros Hf. apply set_eq. intros j. unfold get_active_validators. rewrite !elem_of_dom. unfold is_Some.
  setoid_rewrite map_lookup_filter_Some. cbn. destruct (decide (i = j)) as [<-|Hne].
  - rewrite lookup_alter_eq. destruct (vs !! i) as [v|]; cbn; [|naive_solver].
    split; intros (w & [= <-] & Hw); eexists; (split; [done|]); by rewrite ?Hf in *.
  - by rewrite lookup_alter_ne.
Qed.

Lemma signed_alter f i vs v :
  (∀ w, consensus_key (f w) = consensus_key w) → vote_signed vs v → vote_signed (alter f i vs) v.
Proof.
  intros Hf (w & Hw & Hk & Hs). destruct (decide (i = voter v)) as [->|Hne].
  - exists (f w). by rewrite lookup_alter_eq, Hw, Hf.
  - exists w. by rewrite lookup_alter_ne.
Qed.

Lemma touch_safe v e : safe ov e (touch v e).
Proof.
  intros [I1 I2 I3 I4 I5 I6 I7 I8]. split; [|by apply grows_same]. split; cbn; try done.
  - unfold active_validators in *. cbn. by rewrite active_alter.
  - intros k w id (? & ? & ? & ?)%I4. do 3 (split; [done|]). by apply signed_alter.
Qed.

Lemma cast_vote_ok p t e e' v :
  cast_vote p t e = (e', Ok v) →
  e' = touch v (set_pool (<[vote_key v := (v, p)]> (vote_pool e)) e) ∧ vote_proposal_id v = p ∧
  validator_identity e = Some (voter v) ∧
  vote_key v = (height (current_round e), round (current_round e), t, voter v) ∧
  vote_signed (validators (validator_manager e)) v.
Proof.
  unfold cast_vote. intros Hc. monad_inv. unfold local_validator in *.
  destruct (validator_identity e) as [id|] eqn:Hid; cbn in *; [|done].
  destruct (validators (validator_manager e) !! id) as [w|] eqn:Hw; cbn in *; [|done].
  destruct (local_signing_keypair w e) as [k|] eqn:Hk; cbn in *; [|done]. simplify_eq. cbn.
  do 4 (split; [done|]). exists w. split; [done|]. split; [|by right]. cbn.
  unfold local_signing_keypair in Hk. repeat case_match; simplify_eq.
  by match goal with H : negb _ = false |- _ => apply negb_false_iff, Z.eqb_eq in H end.
Qed.

Lemma cast_sound p t e :
  (t = VoteType.PreVote → 1 <= ConsensusStep.as_ordinal (step (current_round e))) →
  vote_pool e !! (height (current_round e), round (current_round e), t, me) = None →
  sound (cast_vote p t) e.
Proof.
  intros Ht Hn Hi. unfold leads. destruct (cast_vote p t e) as [e' [v|x]] eqn:Hc; cbn.
  - apply cast_vote_ok in Hc as (-> & <- & Hid & Hk & Hsig). rewrite (inv_id _ Hi) in Hid.
    injection Hid as Hm. pose proof Hk as Hk'. rewrite <- Hm in Hk'.
    pose proof Hk' as Hj. injection Hj as Hh Hr Hty _.
    etrans; [|apply touch_safe].
    apply insert_sound; [by rewrite Hk'|by rewrite <- Hm|done|by left|].
    intros _ Hpv. right. rewrite Hh, Hr, Hty in *. split; [done|right]. by split; [|apply Ht].
  - unfold cast_vote in Hc. cbn in Hc. unfold bind, lift in Hc. cbn in Hc.
    repeat case_match; simplify_eq; reflexivity.
Qed.

(** After a cast, the vote is in the pool and may be sent. *)
Lemma cast_then {B : Type} p t (k : ConsensusVote → M _ _ B) e :
  (t = VoteType.PreVote → 1 <= ConsensusStep.as_ordinal (step (current_round e))) →
  vote_pool e !! (height (current_round e), round (current_round e), t, me) = None →
  (∀ v e', current_round e' = current_round e →
     snd <$> vote_pool e' !! vote_key v = Some (vote_proposal_id v) → sound (k v) e') →
  sound (bind (cast_vote p t) k) e.
Proof.
  intros Ht Hn Hk. apply sound_bind; [by apply cast_sound|].
  intros e' v Hc. apply cast_vote_ok in Hc as (-> & <- & _). apply Hk; [done|].
  cbn. by rewrite lookup_insert_eq.
Qed.

Lemma safe_pending ps e : safe ov e (set_pending ps e).
Proof. intros [I1 I2 I3 I4 I5 I6 I7 I8]. split; [by split|by apply grows_same]. Qed.

Lemma safe_chain c e : ext (chain e) c → safe ov e (set_chain c (outputs e) e).
Proof.
  intros Hc [I1 I2 I3 I4 I5 I6 I7 I8]. split; [|by apply grows_same]. split; cbn; [done..|].
  intros c' b Hc' Hb. eapply I8, Hb. by etrans.
Qed.

Lemma active_bump now i (vs : gmap Z Validator) :
  get_active_validators (alter (bump now) i vs) = get_active_validators vs.
Proof. by apply active_alter. Qed.

Lemma active_bumps (now : Z → Z) ids (vs : gmap Z Validator) :
  get_active_validators (foldl (λ vs i, alter (bump (now i)) i vs) vs ids) = get_active_validators vs.
Proof. revert vs. induction ids as [|i ids IH]; intros vs; cbn; [done|]. by rewrite IH, active_bump. Qed.

Lemma signed_bump now i vs v : vote_signed vs v → vote_signed (alter (bump now) i vs) v.
Proof. by apply signed_alter. Qed.

Lemma signed_bumps (now : Z → Z) ids vs v :
  vote_signed vs v → vote_signed (foldl (λ vs i, alter (bump (now i)) i vs) vs ids) v.
Proof. revert vs. induction ids as [|i ids IH]; intros vs Hv; cbn; [done|]. by apply IH, signed_bump. Qed.

Lemma metrics_sound p e : sound (update_validator_metrics p) e.
Proof.
  intros _ [I1 I2 I3 I4 I5 I6 I7 I8]. split; [|by apply grows_same]. split; cbn; try done.
  - unfold active_validators in *. cbn. by rewrite (active_bumps (activity_time p)), active_bump.
  - intros k v id (? & ? & ? & ?)%I4. do 3 (split; [done|]). by apply (signed_bumps (activity_time p)), signed_bump.
Qed.

Lemma modify_sound f e : safe ov e (f e) → sound (modify f) e.
Proof. by intros ? _. Qed.

Lemma apply_block_sound p q e :
  (∃ e0, committed_in p q e0 e) → sound (apply_block_to_state_with_proof p q) e.
Proof.
  intros Hq Hi. apply leads_gets. destruct (has_callback e); cbn [negb]; [|apply leads_ret, _].
  apply leads_gets. pose proof (ext_commit p q (chain e)) as Hext.
  destruct (commit_finalized_block_with_proof p q (chain e)) as [c ok]. cbn in Hext.
  pose proof (safe_chain c e Hext) as Hs. destruct ok.
  - intros _. destruct (Hs Hi) as [[I1 I2 I3 I4 I5 I6 I7 I8] _]. split; [|by apply grows_same].
    split; cbn; [done..| | |done].
    + intros v ids [Hin|Hin%list_elem_of_singleton]%elem_of_app; [by eapply I6|done].
    + intros p' q' [Hin|Hin%list_elem_of_singleton]%elem_of_app; [by apply I7|].
      by injection Hin as -> ->.
  - revert Hi. apply sound_bind; [by apply modify_sound|]. intros e' a _ _. apply leads_throw, _.
Qed.

Lemma process_sound id r e : sound (process_committed_block id r) e.
Proof.
  intros Hi. apply leads_gets. revert Hi. apply sound_bind; [intros _; apply leads_guard, _|].
  intros e' u Hg. apply guard_ok in Hg as [-> Hq].
  destruct (list_find _ _) as [[i p]|] eqn:Hf; [|intros _; case_match; [apply leads_ret, _|apply leads_throw, _]].
  apply list_find_Some in Hf as (_ & <- & _).
  apply sound_bind; [apply modify_sound, safe_pending|]. intros e1 ? He1. apply modify_ok in He1 as ->.
  apply sound_bind; [intros _; apply leads_lift, _|]. intros e2 ? He2. apply lift_ok in He2 as [-> _].
  apply sound_bind; [intros Hi; apply apply_block_sound; [|done]|].
  { exists e. unfold committed_in, active_count in *.
    pose proof (inv_active _ Hi : active_validators e = V) as Ha. rewrite <- Ha. by auto. }
  intros e3 ? _.
  apply sound_bind; [apply metrics_sound|]. intros e4 ? _ _.
  apply leads_gets, leads_guard, _.
Qed.

Lemma step_passed c s h r :
  ConsensusStep.as_ordinal (step c) <= ConsensusStep.as_ordinal s →
  passed c h r → passed (set_step s c) h r.
Proof. unfold passed. cbn. lia. Qed.

Lemma set_step_sound s e :
  ConsensusStep.as_ordinal (step (current_round e)) <= ConsensusStep.as_ordinal s →
  sound (on_round (set_step s)) e.
Proof. intros Hs. apply on_round_sound; [done|]. intros h r. by apply step_passed. Qed.

Lemma finalize_sound h r id e : sound (maybe_finalize h r id) e.
Proof.
  intros Hi. apply leads_gets. case_match; [apply leads_ret, _|]. case_match; [apply leads_ret, _|].
  revert Hi. apply sound_bind; [|intros; by apply process_sound].
  destruct (ConsensusStep.lt _ _) eqn:Hlt; [|intros _; apply leads_ret, _].
  apply Z.ltb_lt in Hlt. by apply set_step_sound, Z.lt_le_incl.
Qed.

Lemma prevote_step_sound e : sound enter_prevote_step e.
Proof.
  intros Hi. apply leads_gets. destruct (ConsensusStep.le _ _) eqn:Hle; [apply leads_ret, _|].
  apply Z.leb_gt in Hle. cbn in Hle.
  assert (vote_pool e !! (height (current_round e), round (current_round e), VoteType.PreVote, me) = None)
    as Hn.
  { apply eq_None_not_Some. intros Hs. apply (inv_prevote _ Hi) in Hs. unfold passed in Hs. lia. }
  revert Hi. apply sound_bind; [apply set_step_sound; cbn; lia|].
  intros e' u He. apply modify_ok in He as ->. case_match; [|intros _; apply leads_ret, _].
  apply cast_then; [done|done|]. intros v e' _ Hv. by apply broadcast_sound.
Qed.

Lemma not_voted t d e :
  node_inv e → already_voted t d e = false →
  vote_pool e !! (height (current_round e), round (current_round e), t, me) = None.
Proof.
  unfold already_voted. intros Hi. rewrite (inv_id _ Hi). intros Hv%bool_decide_eq_false.
  by apply eq_None_not_Some.
Qed.

Lemma set_valid_sound id e : sound (on_round (set_valid id)) e.
Proof. by apply on_round_sound. Qed.

Lemma set_locked_sound id e : sound (on_round (set_locked id)) e.
Proof. by apply on_round_sound. Qed.

Lemma maybe_step_sound s e :
  sound (if ConsensusStep.lt (step (current_round e)) s then on_round (set_step s) else ret tt) e.
Proof.
  destruct (ConsensusStep.lt _ _) eqn:Hlt; [|intros _; apply leads_ret, _].
  apply Z.ltb_lt in Hlt. by apply set_step_sound, Z.lt_le_incl.
Qed.

Lemma precommit_step_sound e : sound enter_precommit_step e.
Proof.
  intros Hi. apply leads_gets. case_match; [apply leads_ret, _|]. revert Hi.
  apply sound_bind; [apply maybe_step_sound|]. intros e1 ? He1 Hi.
  destruct (match valid_proposal (current_round e) with Some id => Some id
    | None => head (proposals (current_round e)) end) as [id|]; [|apply leads_ret, _].
  apply leads_gets. destruct (already_voted _ _ _) eqn:Hv; [apply leads_ret, _|].
  destruct (check_supermajority _ _); [|apply leads_ret, _].
  pose proof (not_voted _ _ _ Hi Hv) as Hn. revert Hi.
  apply cast_then; [done|done|]. intros v e2 _ Hv2.
  apply sound_bind; [apply set_valid_sound|]. intros e3 ? He3. apply modify_ok in He3 as ->.
  by apply broadcast_sound.
Qed.

Lemma commit_step_sound e : sound enter_commit_step e.
Proof.
  intros Hi. apply leads_gets. revert Hi.
  apply sound_bind; [apply maybe_step_sound|]. intros e1 ? He1 Hi.
  destruct (match valid_proposal (current_round e) with Some id => Some id
    | None => locked_proposal (current_round e) end) as [id|]; [|apply leads_ret, _].
  apply leads_gets. destruct (already_voted _ _ _) eqn:Hv; [apply leads_ret, _|].
  destruct (check_supermajority _ _); [|apply leads_ret, _].
  pose proof (not_voted _ _ _ Hi Hv) as Hn. revert Hi.
  apply cast_then; [done|done|]. intros v e2 _ Hv2.
  apply sound_bind; [by apply broadcast_sound|]. intros. by apply finalize_sound.
Qed.

Lemma propose_step_sound e : sound enter_propose_step e.
Proof.
  intros Hi. apply leads_gets. case_match; [|apply leads_ret, _]. revert Hi.
  apply sound_bind; [by apply on_round_sound|]. intros e1 ? _ Hi.
  case_match; [apply leads_ret, _|]. apply leads_gets. case_match; [|apply leads_ret, _].
  revert Hi. apply sound_bind; [by apply on_round_sound|]. intros e2 ? _.
  apply sound_bind; [apply modify_sound, safe_pending|]. intros e3 ? _.
  apply sound_bind; [by apply broadcast_sound|]. intros e4 ? _ Hi.
  by apply leads_logged, prevote_step_sound.
Qed.

(** ** Heights and rounds *)

(** After a synchronisation the height is the one the chain asks for, and it
    has not gone down. *)
Lemma sync_sound e :
  node_inv e →
  ∃ c, sync_height_with_blockchain e = (set_round c e, Ok tt) ∧ safe ov e (set_round c e) ∧
    (c = current_round e ∨ ∃ h, c = set_height h (current_round e) ∧ height (current_round e) <= h).
Proof.
  intros Hi. unfold sync_height_with_blockchain. cbn.
  assert (set_round (current_round e) e = e) as He by by destruct e.
  assert (safe ov e e) as Hrefl by reflexivity.
  destruct (has_provider e); cbn [negb]; [|exists (current_round e); rewrite He; by auto].
  destruct (get_blockchain_height (chain e)) as [b|] eqn:Hb;
    [|exists (current_round e); rewrite He; by auto].
  pose proof (height_range _ _ Hb) as Hr.
  assert ((if b =? 0 then 1 else wadd 64 b 1) = if b =? 0 then 1 else b + 1) as ->
    by (rewrite wadd_small; [done|unfold umax; lia]).
  pose proof (inv_height _ Hi (chain e) b ltac:(reflexivity) Hb) as Hh.
  eexists (set_height _ (current_round e)). split; [|split; [|by eauto]].
  - unfold bind, on_round, modify. cbn. unfold guard. rewrite (proj2 (orb_true_iff _ _)); [done|].
    rewrite orb_true_iff, !Z.eqb_eq, Z.ltb_lt. lia.
  - intros [I1 I2 I3 I4 I5 I6 I7 I8]. split; [|by apply grows_same]. split; cbn; [done..| |done|done|].
    + intros h r Hs%I5. unfold passed in *. cbn. lia.
    + intros c b' Hc Hb'. pose proof (ext_height _ _ _ _ Hc Hb Hb'). repeat case_match; lia.
Qed.

Lemma next_round_sound e c h r :
  node_inv e → safe ov e (set_round c e) →
  height c = h ∧ height (current_round e) <= h ∧ (h = height (current_round e) → round (current_round e) < r) →
  safe ov e (set_round (fresh_round h r h) e).
Proof.
  intros Hi Hs (Hc & Hh & Hr). destruct (Hs Hi) as [[_ _ _ _ _ _ _ I8] _].
  intros [I1 I2 I3 I4 I5 I6 I7 _]. split; [|by apply grows_same]. split; cbn; [done..| |done|done|].
  - intros h' r' Hp%I5. unfold passed in *. cbn. lia.
  - intros c' b Hc' Hb. subst h. by eapply I8.
Qed.

Lemma timeout_sound e :
  0 <= round (current_round e) < 2 ^ 32 - 1 → sound on_round_timeout e.
Proof.
  intros Hr Hi. apply leads_gets. destruct (step (current_round e)) eqn:Hst.
  - by apply prevote_step_sound.
  - by apply precommit_step_sound.
  - by apply commit_step_sound.
  - revert Hi. apply sound_bind.
    + intros Hi. unfold leads. destruct (sync_sound e Hi) as (c & Hsync & Hs & Hc). rewrite Hsync. cbn.
      eapply (next_round_sound e c); [done|done|]. split; [done|].
      assert (height (current_round e) <= height c) as Hle by (destruct Hc as [->|(h & -> & ?)]; cbn; lia).
      split; [done|]. intros ->. rewrite Z.eqb_refl, wadd_small; [lia|unfold umax; lia].
    + intros e1 ? _ Hi. apply leads_gets. revert Hi. apply sound_bind; [apply snapshot_sound|].
      intros e2 ? _ Hi. by apply leads_logged, propose_step_sound.
  - apply leads_ret, _.
Qed.

Lemma transition_sound e : sound enter_bft_mode e.
Proof.
  apply sound_bind; [|intros e1 ? _ Hi; apply leads_gets; revert Hi].
  - intros Hi. apply leads_logged. unfold leads. destruct (sync_sound e Hi) as (c & -> & Hs & _). exact Hs.
  - apply sound_bind; [apply snapshot_sound|]. intros e2 ? _ Hi. by apply leads_logged, propose_step_sound.
Qed.

(** ** Messages *)

Lemma broadcast_ok m e e' u :
  broadcast m e = (e', Ok u) → e' = set_chain (chain e) (outputs e ++ [Broadcast m (get_active_validator_ids e)]) e.
Proof. unfold broadcast, emit, bind, gets, modify. by intros [= <- _]. Qed.

Lemma proposal_sound p e : sound (on_proposal p) e.
Proof.
  intros Hi. apply leads_gets. case_match; [apply leads_ret, _|]. case_match; [apply leads_ret, _|].
  revert Hi. apply sound_bind.
  { destruct (round (current_round e) <? prop_round p) eqn:Hlt; [|intros _; apply leads_ret, _].
    apply Z.ltb_lt in Hlt. apply sound_bind; [|intros; by apply snapshot_sound].
    apply on_round_sound; [done|]. intros h r. unfold passed. cbn. lia. }
  intros e1 ? _ Hi. apply leads_gets. case_match; [apply leads_ret, _|].
  destruct (validate_incoming_proposal p e1); [|apply leads_ret, _]. revert Hi.
  apply sound_bind; [by apply on_round_sound|]. intros e2 ? He2. apply modify_ok in He2 as ->.
  apply sound_bind; [by apply broadcast_sound|]. intros e3 ? He3. apply broadcast_ok in He3 as ->.
  apply sound_bind; [apply modify_sound, safe_pending|]. intros e4 ? He4. apply modify_ok in He4 as ->.
  destruct (step (current_round e1)) eqn:Hst; [apply prevote_step_sound| |intros _; apply leads_ret, _..].
  intros Hi. apply leads_gets. destruct (already_voted _ _ _) eqn:Hv; [apply leads_ret, _|].
  pose proof (not_voted _ _ _ Hi Hv) as Hn. revert Hi.
  apply cast_then; [cbn; by rewrite Hst|done|]. intros v e5 _ Hv5.
  apply sound_bind; [by apply broadcast_sound|]. intros e6 ? _ Hi. apply leads_gets.
  case_match; [|apply leads_ret, _]. revert Hi.
  apply sound_bind; [apply set_valid_sound|]. intros. by apply precommit_step_sound.
Qed.

Lemma detect_sound v now e : ov = Some v → sound (detect_equivocation v now) e.
Proof.
  intros Hov Hi. apply leads_gets.
  assert (∀ f l, pool_grows ov e (set_detector f l e) → safe ov e (set_detector f l e)) as Hs
    by (intros f l Hg [I1 I2 I3 I4 I5 I6 I7 I8]; split; [by split|done]).
  revert Hi. destruct (first_votes e !! vote_key v) as [f|] eqn:Hf.
  - destruct (Z.eqb_spec (first_proposal_id f) (vote_proposal_id v)) as [|Hne];
      [intros _; apply leads_ret, _|].
    apply sound_bind; [apply modify_sound, Hs|intros ??? _; apply leads_ret, _].
    split; cbn; [done|by left|by left|].
    intros ev [Hev|Hev%list_elem_of_singleton]%elem_of_app; [by left|right]. subst ev. by exists v, f.
  - apply sound_bind; [apply modify_sound, Hs|intros ??? _; apply leads_ret, _].
    split; cbn; [done|by left| |by left].
    intros k g [[<- <-]|[_ Hk]]%lookup_insert_Some; [right; by exists v|by left].
Qed.

Lemma detect_pool v now e e' b :
  detect_equivocation v now e = (e', b) → vote_pool e' = vote_pool e ∧ validators (validator_manager e') = validators (validator_manager e).
Proof.
  unfold detect_equivocation, bind, gets, modify, ret. intros Hd.
  repeat case_match; simplify_eq; done.
Qed.

Lemma verified_signed v e : verify_vote_signature v e = true → vote_signed (validators (validator_manager e)) v.
Proof.
  unfold verify_vote_signature. intros [_ Hv]%andb_true_iff.
  destruct (validators (validator_manager e) !! voter v) as [w|] eqn:Hw; [|done].
  apply andb_true_iff in Hv as [[_ Hk%Z.eqb_eq]%andb_true_iff Hv]. exists w. by auto.
Qed.

Lemma accept_sound v e :
  ov = Some v → voter v ∈ V → verify_vote_signature v e = true →
  (voter v = me → is_Some (vote_pool e !! vote_key v)) →
  sound (accept_vote v) e.
Proof.
  intros Hov Hv Hs%verified_signed Hown Hi. apply leads_gets. revert Hi.
  apply sound_bind; [by apply detect_sound|].
  intros e1 b He1 Hi. apply detect_pool in He1 as [He1 Hvs]. rewrite <- He1 in Hown. rewrite <- Hvs in Hs.
  destruct b; [apply leads_ret, _|]. apply leads_gets.
  destruct (vote_pool e1 !! vote_key v) eqn:Hk; [apply leads_ret, _|]. revert Hi.
  apply sound_bind.
  - apply modify_sound, insert_sound; [done|done|done|by right|]. intros Hm. by destruct (Hown Hm).
  - intros e2 ? He2. apply modify_ok in He2 as ->.
    apply sound_bind; [apply broadcast_sound; cbn; by rewrite lookup_insert_eq|].
    intros ??? _. apply leads_ret, _.
Qed.

Lemma member_in w h e : node_inv e → is_validator_member w h e = true → w ∈ V.
Proof.
  intros Hi. unfold is_validator_member, validator_set_for_height.
  destruct (find _ _) as [[h' s]|] eqn:Hf; cbn; [|done]. intros Hw%bool_decide_eq_true.
  apply find_some in Hf as [Hin _]. apply list_elem_of_In in Hin.
  pose proof (proj1 (Forall_forall _ _) (inv_history _ Hi) _ Hin) as Hs. cbn in Hs. by subst s.
Qed.

Lemma remote_sound v e : sound (validate_remote_vote v) e.
Proof.
  intros Hi. apply leads_gets. cbv zeta.
  destruct (vote_height v <? height (current_round e)); [apply leads_ret, _|].
  destruct (height (current_round e) <? vote_height v).
  - revert Hi. apply sound_bind; [|intros ??? _; apply leads_ret, _].
    destruct (has_trigger e); [by apply emit_sound|intros _; apply leads_ret, _].
  - destruct (negb _); [apply leads_ret, _|]. destruct (negb _); [apply leads_ret, _|].
    destruct (_ <? _); apply leads_ret, _.
Qed.

Lemma remote_ok v e e' :
  validate_remote_vote v e = (e', Ok true) →
  e' = e ∧ verify_vote_signature v e = true ∧ is_validator_member (voter v) (vote_height v) e = true.
Proof.
  unfold validate_remote_vote, bind, gets, ret. intros Hv. repeat case_match; simplify_eq; try done;
    repeat match goal with H : negb _ = false |- _ => apply negb_false_iff in H end; done.
Qed.

(** The delivered vote is not a forgery of this node's own. *)
Notation own_known v e := (voter v = me → is_Some (vote_pool e !! vote_key v)) (only parsing).

(** The reaction to a stored prevote or precommit. *)
Lemma react_sound h r id b (existing : option Z) (f : ConsensusRound → ConsensusRound) m e :
  (∀ e, sound (on_round f) e) → (∀ e, sound m e) →
  sound (match existing with
         | Some x => if b && negb (x =? id) then ret tt else
                     (if b then m else ret tt) ;;; maybe_finalize h r id
         | None => (if b then on_round f ;;; m else ret tt) ;;; maybe_finalize h r id
         end) e.
Proof.
  intros Hf Hm. destruct existing as [x|].
  - destruct (b && _); [intros _; apply leads_ret, _|]. apply sound_bind; [|intros; by apply finalize_sound].
    destruct b; [apply Hm|intros _; apply leads_ret, _].
  - apply sound_bind; [|intros; by apply finalize_sound].
    destruct b; [|intros _; apply leads_ret, _]. apply sound_bind; [apply Hf|intros; by apply Hm].
Qed.

Lemma prevote_sound v e : ov = Some v → own_known v e → sound (on_prevote v) e.
Proof.
  intros Hov Hown. apply sound_bind; [apply remote_sound|]. intros e1 [] Hr Hi; [|apply leads_ret, _].
  apply remote_ok in Hr as (-> & Hsig & Hm). revert Hi. apply sound_bind.
  { intros Hi. apply accept_sound; [done|by eapply member_in|done..]. }
  intros e2 [] _ Hi; [|apply leads_ret, _]. apply leads_gets. revert Hi.
  apply react_sound; intros; [by apply set_valid_sound|by apply precommit_step_sound].
Qed.

Lemma precommit_sound v e : ov = Some v → own_known v e → sound (on_precommit v) e.
Proof.
  intros Hov Hown. apply sound_bind; [apply remote_sound|]. intros e1 [] Hr Hi; [|apply leads_ret, _].
  apply remote_ok in Hr as (-> & Hsig & Hm). revert Hi. apply sound_bind.
  { intros Hi. apply accept_sound; [done|by eapply member_in|done..]. }
  intros e2 [] _ Hi; [|apply leads_ret, _]. apply leads_gets. revert Hi.
  apply react_sound; intros; [by apply set_locked_sound|by apply commit_step_sound].
Qed.

Lemma commit_vote_sound v e : ov = Some v → own_known v e → sound (on_commit_vote v) e.
Proof.
  intros Hov Hown Hi. apply leads_gets. case_match; [apply leads_ret, _|].
  destruct (verify_vote_signature v e) eqn:Hsig; [|apply leads_ret, _].
  destruct (is_validator_member _ _ _) eqn:Hm; [|apply leads_ret, _].
  revert Hi. apply sound_bind; [intros Hi; apply accept_sound; [done|by eapply member_in|done..]|].
  intros e1 [] _ Hi; [|apply leads_ret, _]. by apply finalize_sound.
Qed.

(** ** Validator updates *)

Lemma safe_keypair k e : safe ov e (set_local (validator_identity e) k e).
Proof. intros [I1 I2 I3 I4 I5 I6 I7 I8]. split; [by split|by apply grows_same]. Qed.

(** The runtime registers nobody, the identity is set already, and a key is only
    replaced by another one with the same public part. *)
Lemma update_sound now l id k e : sound (on_validator_update now l id k) e.
Proof.
  apply sound_bind.
  { apply modify_sound. rewrite update_validators_id. by destruct e. }
  intros e1 ? _. apply sound_bind.
  { intros Hi. destruct id; [|apply leads_ret, _]. apply leads_logged, leads_gets.
    rewrite bool_decide_true by (rewrite (inv_id _ Hi); by eexists). apply leads_ret, _. }
  intros e2 ? _. apply sound_bind; [|intros e3 ? _ Hi; apply leads_gets; by apply snapshot_sound].
  intros Hi. destruct k; [|apply leads_ret, _]. apply leads_logged, leads_gets. revert Hi.
  do 3 (apply sound_bind; [intros _; first [apply leads_lift, _|apply leads_guard, _]|];
        intros ? ? Ho; first [apply lift_ok in Ho as [-> _]|apply guard_ok in Ho as [-> _]]).
  apply modify_sound, safe_keypair.
Qed.

End Node.

(** ** A network of honest nodes

    The honest nodes run the engine; everyone else may send anything except
    votes in the name of an honest node that this node has not sent, which is
    what the signatures are for.  Messages may be delayed, lost, reordered and
    repeated; timers may fire at any time; chains only grow. *)

Section Network.
Context `{ConsensusEnv} (ext : relation Chain) `{!ChainLaws ext} (V : gset Z).

Notation Network := (gmap Z ConsensusEngine) (only parsing).

(** The voter, an honest node, has sent the vote. *)
Definition sent (net : Network) (v : ConsensusVote) : Prop :=
  ∃ e ids, net !! voter v = Some e ∧ Broadcast (VoteMessage v) ids ∈ outputs e.

Definition allowed (net : Network) (e : ConsensusEngine) (ev : Event) : Prop :=
  match ev with
  | Receive (VoteMessage v) => voter v ∈ dom net → sent net v
  | RoundTimeout => 0 <= round (current_round e) < 2 ^ 32 - 1
  | ChainMoves c => ext (chain e) c
  | _ => True
  end.

Inductive net_step : relation Network :=
| net_event net i e ev e' r :
    net !! i = Some e → allowed net e ev → handle ev e = (e', r) → net_step net (<[i := e']> net).

(** Every node has just started its loop and [V] are the active validators. *)
Definition started (net : Network) : Prop :=
  ∀ i e, net !! i = Some e → i ∈ V ∧ ∃ m k p cb t c,
    e = (start_loop (ConsensusEngine_new (Some i) m k p cb t c)).1 ∧
    get_active_validators (validators m) = V.

Definition reachable (net : Network) : Prop := ∃ net0, started net0 ∧ rtc net_step net0 net.

Record net_inv (net : Network) : Prop := {
  net_nodes i e : net !! i = Some e → i ∈ V ∧ node_inv ext i V e;
  net_pools i e k x w ew : net !! i = Some e → vote_pool e !! k = Some x →
    key_validator k = w → net !! w = Some ew → snd <$> vote_pool ew !! k = Some x.2;
  net_first i e k f w ew : net !! i = Some e → first_votes e !! k = Some f →
    key_validator k = w → net !! w = Some ew → snd <$> vote_pool ew !! k = Some (first_proposal_id f);
  net_evidence i e ev : net !! i = Some e → ev ∈ evidence_log e → ev_validator ev ∉ dom net;
}.

Definition given (ev : Event) : option ConsensusVote :=
  match ev with Receive (VoteMessage v) => Some v | _ => None end.

Lemma handle_sound net i e ev :
  net_inv net → net !! i = Some e → allowed net e ev →
  leads (safe ext i V (given ev)) (handle ev) e.
Proof.
  intros Hn He Ha. destruct (net_nodes _ Hn _ _ He) as [HV Hi].
  destruct ev as [[p|v|]| | |c|now l id k]; cbn.
  - by apply proposal_sound.
  - assert (voter v = i → is_Some (vote_pool e !! vote_key v)) as Hown.
    { intros Hv. destruct Ha as (e' & ids & He' & Hin); [rewrite Hv; by eapply elem_of_dom_2|].
      rewrite Hv, He in He'. injection He' as <-.
      destruct (fmap_Some_1 _ _ _ (inv_sent _ _ _ _ Hi _ _ Hin)) as (x & -> & _). by eexists. }
    destruct (vote_type v); [by apply prevote_sound|by apply precommit_sound|by apply commit_vote_sound|].
    apply leads_ret, _.
  - apply leads_ret, _.
  - apply leads_gets. case_match; [by apply timeout_sound|apply leads_ret, _].
  - apply leads_gets. case_match; [by apply transition_sound|apply leads_ret, _].
  - by apply safe_chain.
  - by apply update_sound.
Qed.

(** A vote that was delivered and claims an honest voter is in this voter's pool. *)
Lemma given_sent net e ev v ew :
  net_inv net → allowed net e ev → given ev = Some v → net !! voter v = Some ew →
  snd <$> vote_pool ew !! vote_key v = Some (vote_proposal_id v).
Proof.
  intros Hn Ha Hv Hw. destruct ev as [[|v'|]| | | |]; try done. cbn in Hv, Ha. injection Hv as ->.
  destruct Ha as (e0 & ids & He0 & Hin); [by eapply elem_of_dom_2|].
  rewrite Hw in He0. injection He0 as <-. eapply inv_sent, Hin. by eapply (net_nodes _ Hn).
Qed.

Lemma net_step_inv net net' : net_inv net → net_step net net' → net_inv net'.
Proof.
  intros Hn Hst. destruct Hst as [net i e ev e' r He Ha Hh].
  pose proof (handle_sound _ _ _ _ Hn He Ha) as Hl.
  unfold leads in Hl. rewrite Hh in Hl. cbn in Hl.
  destruct (net_nodes _ Hn _ _ He) as [HV Hi]. destruct (Hl Hi) as [Hi' [Hsub Hnew Hfirst Hevid]].
  assert (∀ w ew k y, <[i := e']> net !! w = Some ew →
            (∀ ew0, net !! w = Some ew0 → snd <$> vote_pool ew0 !! k = Some y) →
            snd <$> vote_pool ew !! k = Some y) as Hkeep.
  { intros w ew k y [[<- <-]|[_ Hw]]%lookup_insert_Some Hall; [|by apply Hall].
    destruct (fmap_Some_1 _ _ _ (Hall _ He)) as (x & Hk & ->). by rewrite (lookup_weaken _ _ _ _ Hk Hsub). }
  split.
  - intros j ej [[<- <-]|[_ Hj]]%lookup_insert_Some; [done|by eapply (net_nodes _ Hn)].
  - intros j ej k x w ew Hj Hk Hw Hew. apply lookup_insert_Some in Hj as [[<- <-]|[_ Hj]];
      [|by eapply Hkeep; [done|]; intros; eapply (net_pools _ Hn _ _ _ _ _ _ Hj Hk Hw)].
    destruct (Hnew _ _ Hk) as [Hk0|[Hm|(v & Hv & -> & ->)]].
    + eapply Hkeep; [done|]. intros ew0. exact (net_pools _ Hn _ _ _ _ _ _ He Hk0 Hw).
    + rewrite <- Hw, Hm, lookup_insert_eq in Hew. injection Hew as <-. by rewrite Hk.
    + eapply Hkeep; [done|]. intros ew0. rewrite <- Hw. by apply (given_sent _ _ _ _ _ Hn Ha).
  - intros j ej k f w ew Hj Hk Hw Hew. apply lookup_insert_Some in Hj as [[<- <-]|[_ Hj]];
      [|by eapply Hkeep; [done|]; intros; eapply (net_first _ Hn _ _ _ _ _ _ Hj Hk Hw)].
    eapply Hkeep; [done|]. intros ew0. destruct (Hfirst _ _ Hk) as [Hk0|(v & Hv & -> & ->)].
    + exact (net_first _ Hn _ _ _ _ _ _ He Hk0 Hw).
    + rewrite <- Hw. by apply (given_sent _ _ _ _ _ Hn Ha).
  - intros j ej x Hj Hx. rewrite dom_insert_lookup_L by done.
    apply lookup_insert_Some in Hj as [[<- <-]|[_ Hj]]; [|by eapply (net_evidence _ Hn)].
    destruct (Hevid _ Hx) as [?|(v & f & Hv & -> & Hf & Hne)]; [by eapply (net_evidence _ Hn)|].
    intros [ew Hw]%elem_of_dom. pose proof (given_sent _ _ _ _ _ Hn Ha Hv Hw).
    pose proof (net_first _ Hn _ _ _ _ _ _ He Hf eq_refl Hw). congruence.
Qed.

Lemma new_inv i m k p cb t c :
  get_active_validators (validators m) = V →
  node_inv ext i V (ConsensusEngine_new (Some i) m k p cb t c).
Proof.
  intros Hvs. split; cbn; try done.
  - by intros h r [x Hx].
  - intros v ids Hin. by apply not_elem_of_nil in Hin.
  - intros q b Hin. by apply not_elem_of_nil in Hin.
  - intros c' b _ Hb%height_range. case_match; lia.
Qed.

Lemma start_sound i e :
  i ∈ V → node_inv ext i V e → leads (safe ext i V None) start_loop e.
Proof.
  intros HV. apply sound_bind.
  - intros Hi. unfold leads. destruct (sync_sound ext i V None e Hi) as (c & -> & Hs & _). exact Hs.
  - intros e1 ? _ Hi. apply leads_gets. revert Hi. apply sound_bind; [apply snapshot_sound|].
    intros e2 ? _ Hi. apply leads_gets. case_match; [|apply leads_ret, _].
    by apply leads_logged, propose_step_sound.
Qed.

Lemma started_inv net : started net → net_inv net.
Proof.
  intros Hs. assert (∀ i e, net !! i = Some e → i ∈ V ∧ node_inv ext i V e ∧
    (∀ k x, vote_pool e !! k = Some x → key_validator k = i) ∧
    (∀ k, first_votes e !! k = None) ∧ ∀ ev, ev ∉ evidence_log e) as Hn.
  { intros i e He. destruct (Hs _ _ He) as (HV & m & k & p & cb & t & c & -> & Hvs).
    pose proof (new_inv i m k p cb t c Hvs) as Hi. pose proof (start_sound _ _ HV Hi) as Hl.
    destruct (Hl Hi) as [Hi' [_ Hnew Hfirst Hevid]]. split_and!; [done|done|..].
    - intros k' x Hk. by destruct (Hnew _ _ Hk) as [?|[?|(? & ? & _)]].
    - intros k'. apply eq_None_not_Some. intros [f Hf]. by destruct (Hfirst _ _ Hf) as [?|(? & ? & _)].
    - intros ev Hev. destruct (Hevid _ Hev) as [Hin|(? & ? & ? & _)]; [by apply not_elem_of_nil in Hin|done]. }
  split.
  - intros i e He. by destruct (Hn _ _ He) as (? & ? & _).
  - intros i e k x w ew He Hk Hw Hew. destruct (Hn _ _ He) as (_ & _ & Hown & _).
    rewrite <- Hw, (Hown _ _ Hk), He in Hew. injection Hew as <-. by rewrite Hk.
  - intros i e k f w ew He Hk. destruct (Hn _ _ He) as (_ & _ & _ & Hf & _). by rewrite Hf in Hk.
  - intros i e ev He Hev. destruct (Hn _ _ He) as (_ & _ & _ & _ & Hnone). by apply Hnone in Hev.
Qed.

Lemma reachable_inv net : reachable net → net_inv net.
Proof.
  intros (net0 & Hs%started_inv & Hr). induction Hr as [|n1 n2 n3 Hst _ IH]; [done|].
  by eapply IH, net_step_inv.
Qed.



(** The validators behind the commit votes for a proposal, when they are all
    votes of one round. *)
Lemma supporters (e : ConsensusEngine) h r id :
  (∀ k x, vote_pool e !! k = Some x → key_height k = h → key_type k = VoteType.Commit →
     key_round k = r) →
  ∃ S : gset Z, Z.of_nat (size S) = count_commits_for h 0 id e ∧
    ∀ w, w ∈ S → ∃ v, vote_pool e !! (h, r, VoteType.Commit, w) = Some (v, id).
Proof.
  intros Hr. unfold count_commits_for, count_votes. set (F := filter _ _).
  assert (∀ k, k ∈ dom F → ∃ w v, k = (h, r, VoteType.Commit, w) ∧ vote_pool e !! k = Some (v, id)) as HF.
  { intros k [[v id'] Hk]%elem_of_dom. apply map_lookup_filter_Some in Hk as [Hk Hc].
    cbn in Hc. apply andb_true_iff in Hc as [[Hh%Z.eqb_eq Ht%bool_decide_eq_true]%andb_true_iff ->%Z.eqb_eq].
    pose proof (Hr _ _ Hk Hh Ht) as Hr'. destruct k as [[[h' r'] t'] w]. cbn in *. subst. by exists w, v. }
  exists (list_to_set (key_validator <$> elements (dom F))). split.
  - rewrite size_list_to_set; [by rewrite length_fmap, <- size_dom|].
    apply NoDup_fmap_2_strong, NoDup_elements. intros k1 k2 H1%elem_of_elements H2%elem_of_elements.
    destruct (HF _ H1) as (w1 & v1 & -> & _), (HF _ H2) as (w2 & v2 & -> & _). cbn. by intros ->.
  - intros w (k & -> & Hk%elem_of_elements)%elem_of_list_to_set%list_elem_of_fmap.
    destruct (HF _ Hk) as (w & v & -> & Hv). by exists v.
Qed.

Lemma quorums_meet (S1 S2 B : gset Z) :
  S1 ⊆ V → S2 ⊆ V → S1 ∩ S2 ⊆ B → 3 * Z.of_nat (size B) < Z.of_nat (size V) →
  check_supermajority (Z.of_nat (size S1)) (Z.of_nat (size V)) = true →
  check_supermajority (Z.of_nat (size S2)) (Z.of_nat (size V)) = true → False.
Proof.
  unfold check_supermajority, meets_threshold, BFT_SUPERMAJORITY_BPS. intros H1 H2 HB Hb.
  case_match; [done|]. rewrite !Z.leb_le. intros Hq1 Hq2.
  pose proof (size_union_alt S1 S2) as Hu. pose proof (size_difference_alt S2 S1) as Hd.
  assert (size (S2 ∩ S1) ≤ size B)%nat by (apply subseteq_size; set_solver).
  assert (size (S1 ∪ S2) ≤ size V)%nat by (apply subseteq_size; set_solver).
  assert (size (S2 ∩ S1) ≤ size S2)%nat by (apply subseteq_size; set_solver). lia.
Qed.


End Network.

(** ** Single messages *)

Section Messages.
Context `{ConsensusEnv}.

(** A proposal that nobody signed moves a node to a later round.  Before any
    check of the proposer or the signature, [on_proposal] replaces the round of
    the node by a fresh one, forgetting the valid and the locked proposal and
    going back to the propose step; the proposal itself is then refused. *)
Theorem unsigned_round_jump e p x :
  verify_proposal_signature p e = Err x → prop_height p = height (current_round e) →
  round (current_round e) < prop_round p → ConsensusStep.lt (step (current_round e)) ConsensusStep.Commit = true →
  ∃ e', on_proposal p e = (e', Ok tt) ∧
    current_round e' =
      fresh_round (height (current_round e)) (prop_round p) (start_time (current_round e)) ∧
    vote_pool e' = vote_pool e ∧ outputs e' = outputs e ∧ pending_proposals e' = pending_proposals e.
Proof.
  intros Hsig Hh Hr Hst. unfold on_proposal, bind, gets.
  assert (validate_no_fork_proposal (prop_height p) (prop_round p) (prop_id p) e = true) as ->.
  { unfold validate_no_fork_proposal. rewrite Hh, Z.ltb_irrefl, Z.eqb_refl.
    by rewrite (proj2 (Z.eqb_neq _ _)) by lia. }
  assert (is_proposal_relevant p e = true) as ->.
  { unfold is_proposal_relevant, ConsensusStep.lt, ConsensusStep.le in *. rewrite Hh, Z.eqb_refl.
    apply negb_true_iff, Z.leb_gt. by apply Z.ltb_lt in Hst. }
  rewrite (proj2 (Z.ltb_lt _ _) Hr). cbn [negb]. unfold on_round, snapshot_validator_set, modify.
  set (e1 := if existsb _ _ then _ else _).
  assert (current_round e1 = fresh_round (height (current_round e)) (prop_round p) (start_time (current_round e))
    ∧ validators (validator_manager e1) = validators (validator_manager e) ∧ vote_pool e1 = vote_pool e ∧ outputs e1 = outputs e ∧
    pending_proposals e1 = pending_proposals e) as (Hc & Hv & Hp & Ho & Hq)
    by (subst e1; by destruct (existsb _ _)).
  cbv iota beta. rewrite Hc. cbn [proposals fresh_round].
  assert (∃ y, validate_incoming_proposal p e1 = Err y) as [y Hy].
  { unfold validate_incoming_proposal. repeat (case_match; [by eexists|]).
    replace (verify_proposal_signature p e1) with (verify_proposal_signature p e)
      by (unfold verify_proposal_signature; by rewrite Hv). rewrite Hsig. by eexists. }
  rewrite Hy. by exists e1.
Qed.

Lemma validate_committed_ext p e e' :
  validators (validator_manager e') = validators (validator_manager e) → height (current_round e') = height (current_round e) →
  validate_committed_block p e' = validate_committed_block p e.
Proof.
  unfold validate_committed_block, verify_proposal_signature. by intros -> ->.
Qed.

Lemma process_commits e id r i p :
  check_supermajority (count_commits_for (height (current_round e)) r id e) (active_count e) = true →
  list_find (λ p, prop_id p = id) (pending_proposals e) = Some (i, p) →
  validate_committed_block p e = Ok tt → has_callback e = true →
  (∀ q, (commit_finalized_block_with_proof p q (chain e)).2 = true) →
  (∀ vs, distribute_rewards vs (height (current_round e)) = true) →
  ∃ e' q, process_committed_block id r e = (e', Ok tt) ∧ Committed p q ∈ outputs e' ∧
    proof_height q = height (current_round e) ∧ proof_proposal_id q = id ∧
    pending_proposals e' = delete i (pending_proposals e) ∧ current_round e' = current_round e.
Proof.
  intros Hq Hp Hv Hcb Hc Hd. unfold process_committed_block, bind, gets, guard, ret. rewrite Hq, Hp.
  unfold modify, lift. rewrite Hv. unfold apply_block_to_state_with_proof, bind, gets.
  cbn [has_callback set_pending]. rewrite Hcb. cbn [negb].
  change (chain (set_pending _ _)) with (chain e).
  specialize (Hc (quorum_proof id e)).
  destruct (commit_finalized_block_with_proof p (quorum_proof id e) (chain e)) as [c ok]. cbn in Hc. subst ok.
  unfold update_validator_metrics, modify. cbv iota beta. rewrite Hd.
  eexists _, (quorum_proof id e). split; [done|]. cbn. split; [|done].
  apply elem_of_app. right. by left.
Qed.

Lemma finalize_commits e h r id i p :
  h = height (current_round e) →
  check_supermajority (count_commits_for h r id e) (active_count e) = true →
  list_find (λ p, prop_id p = id) (pending_proposals e) = Some (i, p) →
  validate_committed_block p e = Ok tt → has_callback e = true →
  (∀ q, (commit_finalized_block_with_proof p q (chain e)).2 = true) →
  (∀ vs, distribute_rewards vs h = true) →
  ∃ e' q, maybe_finalize h r id e = (e', Ok tt) ∧ Committed p q ∈ outputs e' ∧
    proof_height q = h ∧ proof_proposal_id q = id ∧
    pending_proposals e' = delete i (pending_proposals e) ∧
    ConsensusStep.le ConsensusStep.Commit (step (current_round e')) = true.
Proof.
  intros -> Hq Hp Hv Hcb Hc Hd. unfold maybe_finalize, bind, gets, ret. rewrite Hq, Z.eqb_refl. cbn [negb].
  destruct (ConsensusStep.lt _ _) eqn:Hl; unfold on_round, modify; cbv iota beta.
  - destruct (process_commits (set_round (set_step ConsensusStep.Commit (current_round e)) e) id r i p)
      as (e' & q & -> & ? & ? & ? & ? & Hr); [done|done| |done..|].
    + by rewrite <- Hv; apply validate_committed_ext.
    + exists e', q. by rewrite Hr.
  - destruct (process_commits e id r i p) as (e' & q & -> & ? & ? & ? & ? & Hr); [done..|].
    exists e', q. rewrite Hr. do 5 (split; [done|]).
    unfold ConsensusStep.lt, ConsensusStep.le in *. apply Z.ltb_ge in Hl. by apply Z.leb_le.
Qed.

Lemma accept_new v e :
  first_votes e !! vote_key v = None → vote_pool e !! vote_key v = None →
  ∃ f l o, accept_vote v e = (set_chain (chain e) (outputs e ++ o)
    (set_pool (<[vote_key v := (v, vote_proposal_id v)]> (vote_pool e)) (set_detector f l e)), Ok true).
Proof.
  intros Hf Hk. unfold accept_vote, detect_equivocation, bind, gets, modify, ret. rewrite Hf.
  cbn [vote_pool set_detector]. rewrite Hk. do 3 eexists. done.
Qed.

(** A commit quorum finalizes from any step.  When a valid commit vote
    completes the quorum for a proposal the node holds, the node commits the block
    at once, whatever its round and step, and leaves the steps before Commit. *)
Theorem commit_vote_finalizes e v p i :
  vote_type v = VoteType.Commit → vote_height v = height (current_round e) →
  verify_vote_signature v e = true → is_validator_member (voter v) (vote_height v) e = true →
  first_votes e !! vote_key v = None → vote_pool e !! vote_key v = None →
  check_supermajority (count_commits_for (vote_height v) (vote_round v) (vote_proposal_id v)
    (set_pool (<[vote_key v := (v, vote_proposal_id v)]> (vote_pool e)) e)) (active_count e) = true →
  list_find (λ p, prop_id p = vote_proposal_id v) (pending_proposals e) = Some (i, p) →
  validate_committed_block p e = Ok tt → has_callback e = true →
  (∀ q, (commit_finalized_block_with_proof p q (chain e)).2 = true) →
  (∀ vs, distribute_rewards vs (vote_height v) = true) →
  ∃ e' q, on_message (VoteMessage v) e = (e', Ok tt) ∧ Committed p q ∈ outputs e' ∧
    proof_height q = vote_height v ∧ proof_proposal_id q = vote_proposal_id v ∧
    pending_proposals e' = delete i (pending_proposals e) ∧
    ConsensusStep.le ConsensusStep.Commit (step (current_round e')) = true.
Proof.
  intros Ht Hh Hs Hm Hf Hk Hq Hp Hv Hcb Hc Hd. cbn. rewrite Ht.
  unfold on_commit_vote, bind, gets. rewrite (proj2 (Z.eqb_eq _ _) Hh), Hs, Hm. cbn [negb].
  destruct (accept_new v e Hf Hk) as (f & l & o & ->). cbn [negb].
  match goal with |- context [maybe_finalize _ _ _ ?x] => set (e1 := x) end.
  apply (finalize_commits e1 (vote_height v) (vote_round v) (vote_proposal_id v) i p);
    [exact Hh|exact Hq|exact Hp| |exact Hcb|exact Hc|exact Hd].
  rewrite <- Hv. by apply validate_committed_ext.
Qed.

End Messages.

(** ** A concrete network

    Four validators, a hash and a signature scheme small enough to compute
    with, and a chain that is the list of the committed proposals. *)

Module Demo.

Definition hash (l : list Z) : Z := foldl (λ a b, (a * 257 + b + 1) mod 1000000007) 0 l.

#[global] Instance env : ConsensusEnv := {|
  Chain := list Z;
  get_blockchain_height c := if Z.of_nat (length c) <? 2 ^ 64 - 1 then Some (Z.of_nat (length c)) else None;
  get_latest_block_hash c := Some (default 0 (last c));
  is_ready _ := true;
  get_pending_transactions _ := Some [];
  decode_block_data _ := true;
  commit_finalized_block_with_proof p _ c := (c ++ [prop_id p], true);
  hash_blake3 := hash;
  dilithium_sign k m := hash (k :: m) :: replicate 4594 0;
  dilithium_verify k m s := match s with x :: _ => x =? hash (k :: m) | [] => false end;
  unix_time _ := 0;
  verify_other_proof _ _ := Some true;
  create_consensus_proof _ _ := Some {| consensus_type := ProofOfStake; proof_body := 0 |};
  distribute_rewards _ _ := true;
  env_voting_power := λ s storage, wadd 64 s storage;
  activity_time _ _ := 0;
  vote_time _ := 0;
  iter_votes := map_to_list;
|}.

#[global] Instance laws : ChainLaws (prefix (A := Z)).
Proof.
  split; cbn; [apply _| | |].
  - intros c c' b b' Hp%prefix_length. repeat case_match; intros; simplify_eq; lia.
  - intros p q c. by apply prefix_app_r.
  - intros c b. case_match; intros; simplify_eq. apply Z.ltb_lt in H. lia.
Qed.

Definition key (i : Z) : PublicKey := {| dilithium_pk := 100 + i; kyber_pk := 0; key_id := i |}.

Definition info (i : Z) : ValidatorInfo := {|
  info_identity := i; info_stake := 1000; info_storage := 0; info_consensus_key := 100 + i;
  info_networking_key := [i; 1]; info_rewards_key := [i; 2]; info_commission := 0 |}.

Definition registry : ValidatorManager :=
  (sync_from_validator_list 0 (info <$> [1; 2; 3; 4]) (ValidatorManager_new 10 1000 false)).1.

Definition V : gset Z := {[1; 2; 3; 4]}.

Definition boot (i : Z) : ConsensusEngine :=
  (start_loop (ConsensusEngine_new (Some i) registry (Some (key i)) true true true [])).1.

Definition start (honest : list Z) : gmap Z ConsensusEngine :=
  list_to_map ((λ i, (i, boot i)) <$> honest).

(** The first vote of [j] with this type and round that [j] has sent. *)
Fixpoint find_vote (j : Z) (t : VoteType.t) (r : Z) (os : list Output) : option ConsensusVote :=
  match os with
  | Broadcast (VoteMessage v) _ :: os' =>
      if (voter v =? j) && bool_decide (vote_type v = t) && (vote_round v =? r) then Some v
      else find_vote j t r os'
  | _ :: os' => find_vote j t r os'
  | [] => None
  end.

Fixpoint find_proposal (r : Z) (os : list Output) : option ConsensusProposal :=
  match os with
  | Broadcast (ProposeMessage p) _ :: os' => if prop_round p =? r then Some p else find_proposal r os'
  | _ :: os' => find_proposal r os'
  | [] => None
  end.

(** [i] receives the vote or the proposal of [j] for a round; the timer of [i]
    fires; [i] receives a proposal, or a vote of a node that is not honest. *)
Inductive Move : Type :=
| GetVote (i j : Z) (t : VoteType.t) (r : Z) | GetProposal (i j r : Z) | Fire (i : Z)
| Inject (i : Z) (p : ConsensusProposal) | Forge (i : Z) (v : ConsensusVote).

Definition event (net : gmap Z ConsensusEngine) (mv : Move) : option (Z * Event) :=
  match mv with
  | GetVote i j t r =>
      ej ← net !! j; v ← find_vote j t r (outputs ej); Some (i, Receive (VoteMessage v))
  | GetProposal i j r =>
      ej ← net !! j; p ← find_proposal r (outputs ej); Some (i, Receive (ProposeMessage p))
  | Fire i => e ← net !! i; if (0 <=? round (current_round e)) && (round (current_round e) <? 2 ^ 32 - 1)
                            then Some (i, RoundTimeout) else None
  | Inject i p => Some (i, Receive (ProposeMessage p))
  | Forge i v => if bool_decide (voter v ∈ dom net) then None else Some (i, Receive (VoteMessage v))
  end.

Fixpoint run (net : gmap Z ConsensusEngine) (mvs : list Move) : option (gmap Z ConsensusEngine) :=
  match mvs with
  | [] => Some net
  | mv :: mvs' =>
      ev ← event net mv; e ← net !! ev.1;
      match handle ev.2 e with
      | (e', Ok _) => run (<[ev.1 := e']> net) mvs'
      | (_, Err _) => None
      end
  end.

(** Every member of [l] receives the votes of all the others. *)
Definition exchange (l : list Z) (t : VoteType.t) (r : Z) : list Move :=
  i ← l; j ← l; if i =? j then [] else [GetVote i j t r].

Definition fork_script : list Move :=
  [GetProposal 1 2 0; GetProposal 3 2 0; GetProposal 4 2 0] ++
  exchange [1; 2; 3; 4] VoteType.PreVote 0 ++ exchange [1; 2; 3; 4] VoteType.PreCommit 0 ++
  [GetVote 1 2 VoteType.Commit 0; GetVote 1 3 VoteType.Commit 0] ++
  [Fire 2; Fire 3; Fire 4; GetProposal 2 3 1; GetProposal 4 3 1] ++
  exchange [2; 3; 4] VoteType.PreVote 1 ++ exchange [2; 3; 4] VoteType.PreCommit 1 ++
  exchange [2; 3; 4] VoteType.Commit 1.

(** The dishonest validator 4 leads round 2 of height 1.  It makes up a proposal
    identifier and commit votes for it in any round. *)
Definition forged_proposal (id : Z) : ConsensusProposal := {|
  prop_id := id; proposer := 4; prop_height := 1; prop_round := 2; protocol_version := 1;
  prop_previous_hash := 0; block_data := []; prop_timestamp := 1;
  prop_signature := sign (key 4) (serialize_proposal_data id 4 1 2 0 []);
  consensus_proof := {| consensus_type := ProofOfStake; proof_body := 0 |} |}.

Definition forged_commit (id r : Z) : ConsensusVote := {|
  vote_id := r; voter := 4; vote_proposal_id := id; vote_type := VoteType.Commit;
  vote_height := 1; vote_round := r; vote_timestamp := 0;
  vote_signature := sign (key 4) (serialize_vote_data r 4 id VoteType.Commit 1 r) |}.

Definition attack (i id : Z) : list Move :=
  Inject i (forged_proposal id) :: (Forge i ∘ forged_commit id <$> [0; 1; 2]).

(** The first block node [i] has committed. *)
Definition block_of (net : gmap Z ConsensusEngine) (i : Z) : option (ConsensusProposal * BftQuorumProof) :=
  e ← net !! i; head (omap (λ o, match o with Committed p q => Some (p, q) | _ => None end) (outputs e)).

(** Its identifier and height, and the validators that attest to it. *)
Definition summary (net : gmap Z ConsensusEngine) (i : Z) : option (Z * Z * list Z) :=
  (λ x, (prop_id x.1, proof_height x.2, att_validator_id <$> attestations x.2)) <$> block_of net i.

Lemma find_vote_in j t r os v :
  find_vote j t r os = Some v → voter v = j ∧ ∃ ids, Broadcast (VoteMessage v) ids ∈ os.
Proof.
  induction os as [|o os IH]; cbn; [done|]. intros Hf.
  assert (find_vote j t r os = Some v → voter v = j ∧ ∃ ids, Broadcast (VoteMessage v) ids ∈ o :: os) as Hr
    by (intros [? [ids ?]]%IH; split; [done|exists ids; by right]).
  destruct o as [[|v'|] ids| |]; try by apply Hr.
  destruct (_ && _) eqn:Hc; [|by apply Hr]. injection Hf as ->.
  apply andb_true_iff in Hc as [[Hv%Z.eqb_eq _]%andb_true_iff _]. split; [done|]. exists ids. by left.
Qed.

Lemma event_allowed net mv i ev e :
  event net mv = Some (i, ev) → net !! i = Some e → allowed prefix net e ev.
Proof.
  intros He Hi. destruct mv as [i' j t r|i' j r|i'|i' p|i' v]; cbn in He.
  - destruct (net !! j) as [ej|] eqn:Hj; cbn in He; [|done].
    destruct (find_vote _ _ _ _) as [v|] eqn:Hv; cbn in He; [|done]. simplify_eq.
    apply find_vote_in in Hv as [Hv [ids Hin]]. intros _. exists ej, ids. by rewrite Hv.
  - destruct (net !! j) as [ej|]; cbn in He; [|done].
    destruct (find_proposal _ _); cbn in He; [|done]. by simplify_eq.
  - destruct (net !! i') as [e'|] eqn:Hi'; cbn in He; [|done].
    destruct (_ && _) eqn:Hr; [|done]. simplify_eq.
    apply andb_true_iff in Hr as [?%Z.leb_le ?%Z.ltb_lt]. done.
  - by simplify_eq.
  - destruct (bool_decide _) eqn:Hv; [done|]. simplify_eq.
    apply bool_decide_eq_false in Hv. by intros ?.
Qed.

Lemma run_steps mvs net net' : run net mvs = Some net' → rtc (net_step prefix) net net'.
Proof.
  revert net. induction mvs as [|mv mvs IH]; intros net; cbn; [by intros [= ->]|].
  destruct (event net mv) as [[i ev]|] eqn:Hev; cbn; [|done].
  destruct (net !! i) as [e|] eqn:He; cbn; [|done].
  destruct (handle ev e) as [e' [[]|]] eqn:Hh; [|done]. intros Hr.
  eapply rtc_l; [|by apply IH]. eapply net_event; [done|by eapply event_allowed|exact Hh].
Qed.

Lemma registry_active : get_active_validators (validators registry) = V.
Proof. by vm_compute. Qed.

Lemma start_started honest : list_to_set honest ⊆ V → started V (start honest).
Proof.
  intros HV i e Hi. apply elem_of_list_to_map_2 in Hi.
  apply list_elem_of_fmap in Hi as (j & Hij & Hj). apply pair_eq in Hij as [-> ->].
  split; [set_solver|]. exists registry, (Some (key j)), true, true, true, [].
  split; [unfold boot; exact eq_refl|exact registry_active].
Qed.

Lemma run_reachable honest mvs net :
  bool_decide (list_to_set honest ⊆ V) = true → run (start honest) mvs = Some net →
  reachable prefix V net.
Proof. intros HV%bool_decide_eq_true Hr. exists (start honest). split; [by apply start_started|by eapply run_steps]. Qed.

Lemma block_of_in net i p q :
  block_of net i = Some (p, q) → ∃ e, net !! i = Some e ∧ Committed p q ∈ outputs e.
Proof.
  unfold block_of. destruct (net !! i) as [e|]; cbn; [|done]. intros Hh%head_Some_elem_of.
  apply list_elem_of_omap in Hh as (o & Ho & Hp). destruct o; simplify_eq. by exists e.
Qed.

Lemma summary_in net i id h l :
  summary net i = Some (id, h, l) →
  ∃ e p q, net !! i = Some e ∧ Committed p q ∈ outputs e ∧ prop_id p = id ∧ proof_height q = h ∧
    att_validator_id <$> attestations q = l.
Proof.
  unfold summary. destruct (block_of net i) as [[p q]|] eqn:Hb; cbn; [|done].
  apply block_of_in in Hb as (e & ? & ?). intros [= <- <- <-]. by exists e, p, q.
Qed.

Lemma fork_run :
  (λ net, (bool_decide (dom net = V), summary net 1, summary net 2)) <$>
    run (start [1; 2; 3; 4]) fork_script =
  Some (true, Some (764681041, 1, [1; 2; 3]), Some (236989710, 1, [2; 3; 4])).
Proof. vm_compute. reflexivity. Qed.

Lemma attack_run :
  (λ net, (bool_decide (V ∖ dom net = {[4]}), summary net 1, summary net 2)) <$>
    run (start [1; 2; 3]) (attack 1 7 ++ attack 2 8) =
  Some (true, Some (7, 1, [4]), Some (8, 1, [4])).
Proof. vm_compute. reflexivity. Qed.

Definition vote_at (net : gmap Z ConsensusEngine) (i j : Z) : option ConsensusVote :=
  e ← net !! i; find_vote j VoteType.PreVote 0 (outputs e).

Lemma vote_at_in net i j v :
  vote_at net i j = Some v → ∃ e ids, net !! i = Some e ∧ Broadcast (VoteMessage v) ids ∈ outputs e.
Proof.
  unfold vote_at. destruct (net !! i) as [e|]; cbn; [|done]. intros [_ [ids ?]]%find_vote_in.
  by exists e, ids.
Qed.

Lemma relay_run :
  (λ net, (vote_key <$> vote_at net 1 2, vote_key <$> vote_at net 2 2)) <$>
    run (start [1; 2; 3; 4]) [GetProposal 1 2 0; GetVote 1 2 VoteType.PreVote 0] =
  Some (Some (1, 0, VoteType.PreVote, 2), Some (1, 0, VoteType.PreVote, 2)).
Proof. vm_compute. reflexivity. Qed.

(** One round in which everything arrives, as far as nodes 1 and 2. *)
Definition round_script : list Move :=
  [GetProposal 1 2 0; GetProposal 3 2 0; GetProposal 4 2 0] ++
  exchange [1; 2; 3; 4] VoteType.PreVote 0 ++ exchange [1; 2; 3; 4] VoteType.PreCommit 0 ++
  exchange [1; 2; 3] VoteType.Commit 0.

(** All commit votes for height 1 are of round 0. *)
Definition one_round (net : gmap Z ConsensusEngine) : bool :=
  bool_decide (map_Forall (λ _ e, map_Forall (λ k _, key_height k = 1 →
    key_type k = VoteType.Commit → key_round k = 0) (vote_pool e)) net).

Lemma round_run :
  (λ net, (bool_decide (dom net = V), one_round net, summary net 1, summary net 2)) <$>
    run (start [1; 2; 3; 4]) round_script =
  Some (true, true, Some (764681041, 1, [1; 2; 3]), Some (764681041, 1, [1; 2; 3])).
Proof. vm_compute. reflexivity. Qed.

Definition unsigned_proposal : ConsensusProposal := {|
  prop_id := 9; proposer := 4; prop_height := 1; prop_round := 5; protocol_version := 1;
  prop_previous_hash := 0; block_data := []; prop_timestamp := 1;
  prop_signature := {| signature := []; public_key := {| dilithium_pk := 0; kyber_pk := 0; key_id := 0 |};
                       algorithm := 0; sig_timestamp := 0 |};
  consensus_proof := {| consensus_type := ProofOfStake; proof_body := 0 |} |}.

(** Node 1 one commit vote before a quorum. *)
Definition ready : ConsensusEngine :=
  default (boot 1) (run (start [1; 2; 3]) (take 3 (attack 1 7)) ≫= lookup 1).

Definition first_evidence (net : gmap Z ConsensusEngine) (i : Z) : option EquivocationEvidence :=
  e ← net !! i; head (evidence_log e).

Lemma evidence_run :
  (λ net, ev_validator <$> first_evidence net 1) <$>
    run (start [1; 2; 3]) [Forge 1 (forged_commit 7 0); Forge 1 (forged_commit 8 0)] = Some (Some 4).
Proof. vm_compute. reflexivity. Qed.

End Demo.

(** Honest nodes alone can fork.  Four validators, all of them running the
    engine: every node locks and commits the first proposal, but its commit votes
    reach node 1 only; the other nodes time out, forget their lock with the round
    and commit the next leader's proposal at the same height. *)
Theorem honest_fork :
  ∃ net e1 e2 p1 p2 q1 q2,
    reachable prefix Demo.V net ∧ dom net = Demo.V ∧ net !! 1 = Some e1 ∧ net !! 2 = Some e2 ∧
    Committed p1 q1 ∈ outputs e1 ∧ Committed p2 q2 ∈ outputs e2 ∧
    proof_height q1 = proof_height q2 ∧ prop_id p1 ≠ prop_id p2.
Proof.
  pose proof Demo.fork_run as Hr. destruct (Demo.run _ _) as [net|] eqn:Hn; [|done].
  apply Demo.run_reachable in Hn; [|vm_compute; reflexivity].
  cbn in Hr. injection Hr as Hd%bool_decide_eq_true H1 H2.
  apply Demo.summary_in in H1 as (e1 & p1 & q1 & ? & ? & ? & ? & _).
  apply Demo.summary_in in H2 as (e2 & p2 & q2 & ? & ? & ? & ? & _).
  exists net, e1, e2, p1, p2, q1, q2. do 6 (split; [done|]). split; congruence.
Qed.

(** One dishonest validator of four makes honest nodes commit different
    blocks.  Commit votes are counted over all rounds of a height, so the votes
    that a single validator signs for three rounds are a quorum; the certificate
    of the block names this validator only. *)
Theorem one_validator_forks :
  ∃ net e1 e2 p1 p2 q1 q2,
    reachable prefix Demo.V net ∧ Demo.V ∖ dom net = {[4]} ∧ net !! 1 = Some e1 ∧ net !! 2 = Some e2 ∧
    Committed p1 q1 ∈ outputs e1 ∧ Committed p2 q2 ∈ outputs e2 ∧
    proof_height q1 = proof_height q2 ∧ prop_id p1 ≠ prop_id p2 ∧
    att_validator_id <$> attestations q1 = [4] ∧ att_validator_id <$> attestations q2 = [4].
Proof.
  pose proof Demo.attack_run as Hr. destruct (Demo.run _ _) as [net|] eqn:Hn; [|done].
  apply Demo.run_reachable in Hn; [|vm_compute; reflexivity].
  cbn in Hr. injection Hr as Hd%bool_decide_eq_true H1 H2.
  apply Demo.summary_in in H1 as (e1 & p1 & q1 & ? & ? & ? & ? & ?).
  apply Demo.summary_in in H2 as (e2 & p2 & q2 & ? & ? & ? & ? & ?).
  exists net, e1, e2, p1, p2, q1, q2. do 6 (split; [done|]). repeat split; congruence.
Qed.



Lemma unsigned_round_jump_witness :
  ∃ e', on_proposal Demo.unsigned_proposal (Demo.boot 1) = (e', Ok tt) ∧ round (current_round e') = 5.
Proof.
  assert (round (current_round (Demo.boot 1)) < 5) as Hr by (vm_compute; reflexivity).
  destruct (unsigned_round_jump (Demo.boot 1) Demo.unsigned_proposal
    (ProofVerificationFailed "empty consensus key")) as (e' & He & Hc & _);
    [vm_compute; reflexivity|vm_compute; reflexivity|exact Hr|vm_compute; reflexivity|].
  exists e'. split; [exact He|]. rewrite Hc. reflexivity.
Defined.

Lemma commit_vote_finalizes_witness :
  ∃ e' q, on_message (VoteMessage (Demo.forged_commit 7 2)) Demo.ready = (e', Ok tt) ∧
    Committed (Demo.forged_proposal 7) q ∈ outputs e'.
Proof.
  pose proof (commit_vote_finalizes Demo.ready (Demo.forged_commit 7 2) (Demo.forged_proposal 7) 0%nat
    ltac:(vm_compute; reflexivity) ltac:(vm_compute; reflexivity) ltac:(vm_compute; reflexivity)
    ltac:(vm_compute; reflexivity) ltac:(vm_compute; reflexivity) ltac:(vm_compute; reflexivity)
    ltac:(vm_compute; reflexivity) ltac:(vm_compute; reflexivity) ltac:(vm_compute; reflexivity)
    ltac:(vm_compute; reflexivity) (λ q, eq_refl) (λ vs, eq_refl)) as (e' & q & He & Hin & _).
  exists e', q. split; [exact He|exact Hin].
Defined.

