(* ===== verification/QuorumProof.v ===== *)
(** * Quorum certificates (lib-blockchain block/verification)

    [block/verification.rs], with which a node that catches up checks the
    [BftQuorumProof] of a block, and [compute_bft_quorum_root] of
    [lib-types/src/consensus.rs]; then what a certificate made by the consensus
    engine of [Consensus.v] is worth to such a node. *)
From stdpp Require Import base tactics numbers list option gmap fin_maps sorting strings.
From S2P Require Import Prelude TokenCore Codec Memo Validators Consensus ConsensusSafety.

Section Verification.
Context `{ConsensusEnv}.

(** [PublicKey::new]. *)
Definition PublicKey_of (d : Z) : PublicKey :=
  {| dilithium_pk := d; kyber_pk := 0; key_id := hash_blake3 (be_bytes 2592 d) |}.

Fixpoint same_proposal (id : Z) (l : list CommitAttestation) : result unit string :=
  match l with
  | [] => Ok tt
  | a :: l' =>
      if negb (att_proposal_id a =? id) then Err "attestation has mismatched proposal_id"
      else same_proposal id l'
  end.

Definition extract_consistent_proposal_id (q : BftQuorumProof) : result Z string :=
  if bool_decide (attestations q = []) then Err "proof has no attestations" else
  let? _u := same_proposal (proof_proposal_id q) (attestations q) in
  Ok (proof_proposal_id q).

Definition compute_bft_quorum_root (q : BftQuorumProof) : Z :=
  hash_blake3 (dedup_by_validator (sort_by_validator (attestations q)) ≫= λ a,
    be_bytes 32 (att_validator_id a) ++ att_signature a ++ be_bytes 32 (att_proposal_id a)).

Definition verify_quorum_root_binding (q : BftQuorumProof) (expected : Z) : result unit string :=
  if negb (compute_bft_quorum_root q =? expected) then Err "bft_quorum_root mismatch" else Ok tt.

(** Phase 1 of [verify_quorum_proof]; [seen] are the validators so far. *)
Fixpoint check_attestations (keys : gmap Z Z) (seen : gset Z) (l : list CommitAttestation)
    : result unit string :=
  match l with
  | [] => Ok tt
  | a :: l' =>
      if bool_decide (att_validator_id a ∈ seen) then Err "duplicate attestation" else
      match keys !! att_validator_id a with
      | None => Err "unknown validator in quorum proof"
      | Some k =>
          if negb (att_public_key a =? k) then Err "public key mismatch"
          else check_attestations keys ({[att_validator_id a]} ∪ seen) l'
      end
  end.

Definition attestation_signature (a : CommitAttestation) : Signature := {|
  signature := att_signature a; public_key := PublicKey_of (att_public_key a); algorithm := 0;
  sig_timestamp := 0 |}.

(** Phase 2; [PublicKey::verify] does not fail. *)
Fixpoint count_valid (h n : Z) (l : list CommitAttestation) : result Z string :=
  match l with
  | [] => Ok n
  | a :: l' =>
      if verify (PublicKey_of (att_public_key a)) (reconstruct_vote_envelope a h)
           (attestation_signature a)
      then count_valid h (n + 1) l' else Err "invalid signature"
  end.

Definition verify_quorum_proof (q : BftQuorumProof) (keys : gmap Z Z) : result unit string :=
  let n := Z.of_nat (size keys) in
  if n =? 0 then Err "local validator set is empty" else
  if negb (total_validators q =? n) then Err "validator set size mismatch" else
  if negb (check_supermajority (lenZ (attestations q)) n) then Err "insufficient attestations" else
  let? _u := check_attestations keys ∅ (attestations q) in
  let? valid := count_valid (proof_height q) 0 (attestations q) in
  if check_supermajority valid n then Ok tt else Err "too few valid attestations".

Definition verify_quorum_proof_for_proposal (q : BftQuorumProof) (expected : Z) (keys : gmap Z Z)
    : result unit string :=
  if negb (proof_proposal_id q =? expected) then Err "proposal ID mismatch" else
  let? _u := same_proposal expected (attestations q) in
  verify_quorum_proof q keys.

(** What an attestation must satisfy. *)
Definition attests (keys : gmap Z Z) (h : Z) (a : CommitAttestation) : Prop :=
  keys !! att_validator_id a = Some (att_public_key a) ∧
  verify_signature (reconstruct_vote_envelope a h) (att_signature a) (att_public_key a) = true.

Lemma same_proposal_ok id l : same_proposal id l = Ok tt ↔ Forall (λ a, att_proposal_id a = id) l.
Proof.
  induction l as [|a l IH]; cbn; [done|]. rewrite Forall_cons, <- IH.
  destruct (Z.eqb_spec (att_proposal_id a) id); cbn; naive_solver.
Qed.

Lemma check_attestations_ok keys seen l :
  check_attestations keys seen l = Ok tt ↔
  NoDup (att_validator_id <$> l) ∧
  Forall (λ a, att_validator_id a ∉ seen ∧ keys !! att_validator_id a = Some (att_public_key a)) l.
Proof.
  revert seen. induction l as [|a l IH]; intros seen; cbn.
  { split; [intros _; split; constructor|done]. }
  rewrite NoDup_cons, Forall_cons.
  destruct (bool_decide _) eqn:Hs; [apply bool_decide_eq_true in Hs; naive_solver|].
  apply bool_decide_eq_false in Hs.
  destruct (keys !! att_validator_id a) as [k|]; [|naive_solver].
  destruct (Z.eqb_spec (att_public_key a) k) as [<-|]; cbn; [|naive_solver].
  rewrite IH, !Forall_forall, list_elem_of_fmap. set_solver.
Qed.

Lemma count_valid_ok h n l m :
  count_valid h n l = Ok m ↔ m = n + lenZ l ∧
  Forall (λ a, verify_signature (reconstruct_vote_envelope a h) (att_signature a)
                 (att_public_key a) = true) l.
Proof.
  revert n. induction l as [|a l IH]; intros n; cbn.
  { unfold lenZ. cbn. rewrite Z.add_0_r. naive_solver. }
  rewrite Forall_cons. unfold verify. cbn. destruct (verify_signature _ _ _); [|naive_solver].
  rewrite IH. unfold lenZ. cbn [length]. rewrite Nat2Z.inj_succ. naive_solver lia.
Qed.

(** The exact meaning of an accepted certificate.  [verify_quorum_proof]
    succeeds if and only if the certificate names the size of the local validator
    set, which is not empty, and a supermajority of distinct registered validators
    have each signed, with the registered key, a commit vote of the certificate's
    height. *)
Theorem verify_quorum_proof_spec q keys :
  verify_quorum_proof q keys = Ok tt ↔
  keys ≠ ∅ ∧ total_validators q = Z.of_nat (size keys) ∧
  check_supermajority (lenZ (attestations q)) (Z.of_nat (size keys)) = true ∧
  NoDup (att_validator_id <$> attestations q) ∧ Forall (attests keys (proof_height q)) (attestations q).
Proof.
  unfold verify_quorum_proof, attests. rewrite <- map_size_non_empty_iff, Forall_and. cbv zeta.
  destruct (Z.eqb_spec (Z.of_nat (size keys)) 0); [naive_solver lia|].
  destruct (Z.eqb_spec (total_validators q) (Z.of_nat (size keys))); cbn; [|naive_solver].
  destruct (check_supermajority (lenZ _) _) eqn:Hs; cbn; [|naive_solver].
  split.
  - destruct (check_attestations _ _ _) as [[]|] eqn:Hc; cbn; [|done].
    destruct (count_valid _ _ _) as [m|] eqn:Hv; cbn; [|done].
    apply check_attestations_ok in Hc as [? Hc]. apply count_valid_ok in Hv as [_ ?].
    intros _. split_and!; [lia|done..| |done]. eapply Forall_impl; [exact Hc|naive_solver].
  - intros (_ & _ & _ & Hn & Hk & Hv).
    rewrite (proj2 (check_attestations_ok keys ∅ (attestations q))); cbn.
    + rewrite (proj2 (count_valid_ok _ 0 _ (lenZ (attestations q))) (conj eq_refl Hv)). cbn.
      by rewrite Hs.
    + split; [done|]. eapply Forall_impl; [exact Hk|]. intros a Ha. split; [set_solver|done].
Qed.

(** The signers of an accepted certificate. *)
Definition signers (q : BftQuorumProof) : gset Z := list_to_set (att_validator_id <$> attestations q).

Lemma accepted_signers q keys :
  verify_quorum_proof q keys = Ok tt →
  signers q ⊆ dom keys ∧ 0 < Z.of_nat (size (dom keys)) ∧
  Z.of_nat (size (dom keys)) * 6667 <= Z.of_nat (size (signers q)) * 10000 ∧
  ∀ w, w ∈ signers q → ∃ a, a ∈ attestations q ∧ att_validator_id a = w ∧ attests keys (proof_height q) a.
Proof.
  intros (Hne & _ & Hs & Hn & Ha)%verify_quorum_proof_spec.
  assert (∀ w, w ∈ signers q → ∃ a, a ∈ attestations q ∧ att_validator_id a = w ∧
    attests keys (proof_height q) a) as Hall.
  { intros w (a & -> & Hin)%elem_of_list_to_set%list_elem_of_fmap. exists a.
    by rewrite Forall_forall in Ha; auto. }
  split; [|split; [|split; [|done]]].
  - intros w (a & _ & <- & Hk & _)%Hall. by eapply elem_of_dom_2.
  - rewrite size_dom. apply map_size_non_empty_iff in Hne. lia.
  - unfold check_supermajority, meets_threshold, BFT_SUPERMAJORITY_BPS in Hs. case_match; [done|].
    apply Z.leb_le in Hs. unfold signers. rewrite size_list_to_set by done.
    unfold lenZ in Hs. rewrite size_dom, length_fmap. lia.
Qed.

(** Two certificates convict.  If two certificates are accepted under the same
    keys, then more than a third of the validators have signed both of them.  When
    they certify different proposals, each of these has signed two commit votes
    at the height. *)
Theorem certificates_overlap q1 q2 keys :
  verify_quorum_proof q1 keys = Ok tt → verify_quorum_proof q2 keys = Ok tt →
  ∃ S : gset Z, Z.of_nat (size keys) < 3 * Z.of_nat (size S) ∧
    ∀ w, w ∈ S → ∃ a1 a2, a1 ∈ attestations q1 ∧ a2 ∈ attestations q2 ∧
      att_validator_id a1 = w ∧ att_validator_id a2 = w ∧
      attests keys (proof_height q1) a1 ∧ attests keys (proof_height q2) a2.
Proof.
  intros (Hd1 & Hpos & Hs1 & H1)%accepted_signers (Hd2 & _ & Hs2 & H2)%accepted_signers.
  exists (signers q1 ∩ signers q2). split.
  - rewrite <- size_dom.
    pose proof (size_union_alt (signers q2) (signers q1)) as Hu.
    pose proof (size_difference_alt (signers q1) (signers q2)) as Hd.
    assert (size (signers q2 ∪ signers q1) ≤ size (dom keys))%nat by (apply subseteq_size; set_solver).
    assert (size (signers q1 ∩ signers q2) ≤ size (signers q1))%nat by (apply subseteq_size; set_solver). lia.
  - intros w [(a1 & ? & ? & ?)%H1 (a2 & ? & ? & ?)%H2]%elem_of_intersection. by exists a1, a2.
Qed.

(** ** Certificates of the engine *)

Lemma insert_by_validator_perm a l : insert_by_validator a l ≡ₚ a :: l.
Proof.
  induction l as [|b l IH]; cbn; [done|]. case_match; [done|]. rewrite IH. apply Permutation_swap.
Qed.

Lemma sort_by_validator_perm l : sort_by_validator l ≡ₚ l.
Proof. induction l as [|a l IH]; cbn; [done|]. by rewrite insert_by_validator_perm, IH. Qed.

Lemma dedup_nodup l : NoDup (att_validator_id <$> l) → dedup_by_validator l = l.
Proof.
  induction l as [|a l IH]; cbn; [done|]. intros [Ha Hn]%NoDup_cons. rewrite (IH Hn).
  destruct l as [|b l]; [done|]. destruct (Z.eqb_spec (att_validator_id a) (att_validator_id b)); [|done].
  exfalso. apply Ha. cbn. rewrite e. left.
Qed.

Lemma omap_all {A B : Type} (f : A → option B) (g : A → B) (l : list A) :
  (∀ x, x ∈ l → f x = Some (g x)) → omap f l = g <$> l.
Proof.
  intros Hf. induction l as [|x l IH]; cbn; [done|]. rewrite (Hf x (list_elem_of_here _ _)).
  f_equal. apply IH. intros y Hy. apply Hf. by right.
Qed.

Lemma vote_bytes_length v : lenZ (vote_bytes v) = 109.
Proof.
  unfold lenZ, vote_bytes, serialize_vote_data, le_bytes.
  rewrite !length_app, !length_rev, !be_bytes_length. done.
Qed.

(** Properties of the signature scheme, and of the iteration over a [HashMap]. *)
Class CryptoLaws : Prop := {
  sign_verifies pk m : dilithium_verify pk m (dilithium_sign pk m) = true;
  sign_length pk m : lenZ (dilithium_sign pk m) = SIGNBYTES;
  iter_votes_all pool : iter_votes pool ≡ₚ map_to_list pool;
}.

Context `{!CryptoLaws}.

Lemma signed_verifies vs v :
  vote_signed vs v →
  consensus_key <$> vs !! voter v = Some (dilithium_pk (public_key (vote_signature v))) ∧
  lenZ (signature (vote_signature v)) = SIGNBYTES ∧
  verify_signature (vote_bytes v) (signature (vote_signature v))
    (dilithium_pk (public_key (vote_signature v))) = true.
Proof.
  intros (w & -> & Hw & Hs). cbn. split; [by rewrite Hw|].
  unfold verify, verify_signature in *. rewrite vote_bytes_length in *. cbn in *.
  destruct Hs as [Hs| ->]; cbn; [|by rewrite sign_length, sign_verifies].
  by destruct (Z.eqb_spec (lenZ (signature (vote_signature v))) SIGNBYTES).
Qed.

(** The commit votes for a proposal in the pool. *)
Definition commits_for (h id : Z) (pool : VotePool) : VotePool :=
  filter (λ kv, ((key_height kv.1 =? h) && bool_decide (key_type kv.1 = VoteType.Commit) &&
                 (kv.2.2 =? id)) = true) pool.

Lemma commits_for_lookup h id pool k v x :
  commits_for h id pool !! k = Some (v, x) →
  pool !! k = Some (v, x) ∧ key_height k = h ∧ key_type k = VoteType.Commit ∧ x = id.
Proof.
  intros [Hk Hc]%map_lookup_filter_Some. cbn in Hc.
  apply andb_true_iff in Hc as [[?%Z.eqb_eq ?%bool_decide_eq_true]%andb_true_iff ?%Z.eqb_eq]. done.
Qed.

(** Without repeated validators, the attestations are the commit votes. *)
Lemma quorum_proof_attestations id e :
  let F := commits_for (height (current_round e)) id (vote_pool e) in
  (∀ k v x, F !! k = Some (v, x) → lenZ (signature (vote_signature v)) = SIGNBYTES) →
  NoDup ((λ kv, voter kv.2.1) <$> map_to_list F) →
  attestations (quorum_proof id e) ≡ₚ (λ kv, attestation kv.2.1) <$> map_to_list F.
Proof.
  intros F Hl Hn. cbn.
  assert (filter (λ kv, ((key_height kv.1 =? height (current_round e)) &&
      bool_decide (key_type kv.1 = VoteType.Commit) && (kv.2.2 =? id)) = true)
      (iter_votes (vote_pool e)) ≡ₚ map_to_list F) as HF.
  { rewrite iter_votes_all. unfold F, commits_for. rewrite map_filter_alt.
    symmetry. apply map_to_list_to_map, NoDup_fmap_2_strong; [|apply NoDup_filter, NoDup_map_to_list].
    intros [k1 x1] [k2 x2] [_ H1%elem_of_map_to_list]%list_elem_of_filter
      [_ H2%elem_of_map_to_list]%list_elem_of_filter. cbn. intros ->. by rewrite H1 in H2; injection H2 as ->. }
  set (l := filter _ _) in *.
  assert (omap (λ kv, attestation_of kv.2.1) l = (λ kv, attestation kv.2.1) <$> l) as ->.
  { apply omap_all. intros [k [v x]] Hin. rewrite HF in Hin. apply elem_of_map_to_list in Hin.
    unfold attestation_of. cbn. by rewrite (Hl _ _ _ Hin). }
  rewrite dedup_nodup; [by rewrite sort_by_validator_perm, HF|].
  rewrite sort_by_validator_perm, HF, <- list_fmap_compose. exact Hn.
Qed.

Context (ext : relation Chain) `{!ChainLaws ext} (V : gset Z).

Lemma active_registered e : active_validators e = V → V ⊆ dom (validators (validator_manager e)).
Proof. intros <-. unfold active_validators, get_active_validators. apply dom_filter_subseteq. Qed.

(** The certificate of a committed block, when the commit votes of its height are
    of one round. *)
Lemma certificate_votes i e p q r :
  node_inv ext i V e → Committed p q ∈ outputs e →
  (∀ k x, vote_pool e !! k = Some x → key_height k = proof_height q →
     key_type k = VoteType.Commit → key_round k = r) →
  NoDup (att_validator_id <$> attestations q) ∧
  Forall (λ a, attests (consensus_key <$> validators (validator_manager e)) (proof_height q) a ∧
               att_proposal_id a = prop_id p) (attestations q) ∧
  check_supermajority (lenZ (attestations q)) (Z.of_nat (size V)) = true.
Proof.
  intros Hinv Hin Hone.
  destruct (inv_committed _ _ _ _ Hinv _ _ Hin) as (e0 & Hsub & _ & -> & Hq).
  cbn [proof_height quorum_proof] in *.
  set (h := height (current_round e0)) in *. set (id := prop_id p) in *.
  set (F := commits_for h id (vote_pool e0)).
  assert (∀ k v x, F !! k = Some (v, x) → k = (h, r, VoteType.Commit, voter v) ∧
    vote_bytes v = reconstruct_vote_envelope (attestation v) h ∧ vote_proposal_id v = id ∧
    vote_signed (validators (validator_manager e)) v) as HF.
  { intros k v x (Hk & Hh & Ht & ->)%commits_for_lookup.
    pose proof (lookup_weaken _ _ _ _ Hk Hsub) as Hk'.
    apply (inv_pool _ _ _ _ Hinv) in Hk' as Hv. destruct Hv as (<- & Hid & _ & Hs).
    pose proof (Hone _ _ Hk' Hh Ht) as Hrr. unfold vote_key in *. cbn in Hh, Ht, Hrr.
    unfold vote_bytes, serialize_vote_data, reconstruct_vote_envelope. cbn. by rewrite Hh, Ht, Hrr. }
  assert (NoDup ((λ kv, voter kv.2.1) <$> map_to_list F)) as Hn.
  { apply NoDup_fmap_2_strong; [|apply NoDup_map_to_list].
    intros [k1 [v1 x1]] [k2 [v2 x2]] H1%elem_of_map_to_list H2%elem_of_map_to_list. cbn. intros Hv.
    destruct (HF _ _ _ H1) as [-> _], (HF _ _ _ H2) as [-> _]. rewrite Hv in *.
    rewrite H1 in H2. by injection H2 as -> ->. }
  assert (attestations (quorum_proof id e0) ≡ₚ (λ kv, attestation kv.2.1) <$> map_to_list F) as Hatt.
  { apply quorum_proof_attestations, Hn.
    intros k v x (_ & _ & _ & Hs)%HF. by apply signed_verifies in Hs as (_ & ? & _). }
  unfold lenZ. rewrite Hatt, length_fmap, length_map_to_list, <- list_fmap_compose.
  split; [exact Hn|]. split; [|exact Hq]. apply Forall_fmap, Forall_forall.
  intros [k [v x]] Hk%elem_of_map_to_list. destruct (HF _ _ _ Hk) as (_ & Hb & Hid & Hs).
  apply signed_verifies in Hs as (? & _ & Hv). split; [|done]. unfold attests. cbn.
  rewrite lookup_fmap, <- Hb. done.
Qed.

(** C7: other nodes can check what a node has committed, exactly when every
    registered validator is active.  In every reachable network with fewer than 2^32
    active validators, take a block that an honest node has handed to the chain,
    where the commit votes the node holds for that height are all of one round.  Its
    certificate is accepted by [verify_quorum_proof_for_proposal] under the keys of
    the node's registry if no registered validator is inactive, and refused
    otherwise: it carries the number of active validators, and the check compares
    that with the number of registered ones. *)
Theorem committed_proof_verifies net i e p q r :
  reachable ext V net → net !! i = Some e → Committed p q ∈ outputs e →
  Z.of_nat (size V) < 2 ^ 32 →
  (∀ k x, vote_pool e !! k = Some x → key_height k = proof_height q →
     key_type k = VoteType.Commit → key_round k = r) →
  verify_quorum_proof_for_proposal q (prop_id p) (consensus_key <$> validators (validator_manager e)) = Ok tt
  ↔ dom (validators (validator_manager e)) = V.
Proof.
  intros Hr%reachable_inv Hi Hin Hsz Hone; [|done].
  destruct (net_nodes _ _ _ Hr _ _ Hi) as [HiV Hinv].
  destruct (certificate_votes _ _ _ _ _ Hinv Hin Hone) as (Hn & [Ha Hid]%Forall_and & Hq).
  destruct (inv_committed _ _ _ _ Hinv _ _ Hin) as (e0 & _ & Hact & -> & _).
  pose proof (inv_active _ _ _ _ Hinv) as HV. apply active_registered in HV.
  unfold verify_quorum_proof_for_proposal. cbn [proof_proposal_id quorum_proof]. rewrite Z.eqb_refl. cbn [negb].
  rewrite (proj2 (same_proposal_ok _ _) Hid), verify_quorum_proof_spec, map_size_fmap, <- size_dom.
  cbn [total_validators quorum_proof]. rewrite Hact, as_u_small by (unfold in_u, umax; lia). split.
  - intros (_ & Hsize & _). symmetry. apply set_subseteq_size_eq; [done|lia].
  - intros ->. split_and!; [|done..]. rewrite fmap_empty_iff, <- dom_empty_iff. set_solver.
Qed.

End Verification.

(** ** The concrete network *)

#[global] Instance demo_laws : CryptoLaws (H := Demo.env).
Proof.
  split.
  - intros pk m. apply Z.eqb_refl.
  - intros pk m. change (dilithium_sign pk m) with (Demo.hash (pk :: m) :: replicate 4594 0).
    unfold lenZ. rewrite length_cons, length_replicate. done.
  - done.
Qed.

(** The check of the certificate node [i] holds, its height, and whether all registered validators are active. *)
Definition demo_check (net : gmap Z ConsensusEngine) (i : Z) : option (result unit string * Z * bool) :=
  e ← net !! i; x ← Demo.block_of net i;
  Some (verify_quorum_proof x.2 (consensus_key <$> validators (validator_manager e)), proof_height x.2,
        bool_decide (dom (validators (validator_manager e)) = Demo.V)).

Lemma demo_check_in net i b h :
  demo_check net i = Some (b, h, true) →
  ∃ e p q, net !! i = Some e ∧ Committed p q ∈ outputs e ∧ dom (validators (validator_manager e)) = Demo.V ∧
    proof_height q = h ∧ verify_quorum_proof q (consensus_key <$> validators (validator_manager e)) = b.
Proof.
  unfold demo_check. destruct (net !! i) as [e|] eqn:He; cbn; [|done].
  destruct (Demo.block_of net i) as [[p q]|] eqn:Hb; cbn; [|done]. intros [= <- <- Hd%bool_decide_eq_true].
  apply Demo.block_of_in in Hb as (e' & He' & Hin). rewrite He in He'. injection He' as <-.
  by exists e, p, q.
Qed.

Lemma demo_round :
  (λ net, (demo_check net 1, Demo.one_round net)) <$> Demo.run (Demo.start [1; 2; 3; 4]) Demo.round_script =
  Some (Some (Ok tt, 1, true), true).
Proof. vm_compute. reflexivity. Qed.

Lemma demo_attack :
  (λ net, (demo_check net 1, bool_decide (Demo.V ∖ dom net = {[4]}))) <$>
    Demo.run (Demo.start [1; 2; 3]) (Demo.attack 1 7) =
  Some (Some (Err "insufficient attestations", 1, true), true).
Proof. vm_compute. reflexivity. Qed.

(** A block that is final for one node may be unprovable to the others.  With
    one dishonest validator of four, an honest node commits a block whose
    certificate [verify_quorum_proof] refuses, so that no node can catch up over
    it. *)
Theorem committed_without_certificate :
  ∃ net e p q, reachable prefix Demo.V net ∧ Demo.V ∖ dom net = {[4]} ∧ net !! 1 = Some e ∧
    Committed p q ∈ outputs e ∧
    verify_quorum_proof q (consensus_key <$> validators (validator_manager e)) = Err "insufficient attestations".
Proof.
  pose proof demo_attack as Hr. destruct (Demo.run _ _) as [net|] eqn:Hn; [|done].
  apply Demo.run_reachable in Hn; [|vm_compute; reflexivity].
  cbn in Hr. injection Hr as Hc Hd%bool_decide_eq_true.
  apply demo_check_in in Hc as (e & p & q & ? & ? & _ & _ & ?). by exists net, e, p, q.
Qed.

Lemma certificates_overlap_witness :
  ∃ q keys (S : gset Z), verify_quorum_proof q keys = Ok tt ∧ Z.of_nat (size keys) < 3 * Z.of_nat (size S).
Proof.
  pose proof demo_round as Hr. destruct (Demo.run _ _) as [net|]; [|discriminate].
  cbn in Hr. injection Hr as Hc _. apply demo_check_in in Hc as (e & p & q & _ & _ & _ & _ & Hq).
  destruct (certificates_overlap q q _ Hq Hq) as (S & HS & _).
  exists q, (consensus_key <$> validators (validator_manager e)), S. split; [exact Hq|exact HS].
Defined.

Lemma committed_proof_verifies_witness :
  ∃ e p q, Committed p q ∈ outputs e ∧
    verify_quorum_proof_for_proposal q (prop_id p) (consensus_key <$> validators (validator_manager e)) = Ok tt.
Proof.
  pose proof demo_round as Hr. destruct (Demo.run _ _) as [net|] eqn:Hn; [|discriminate].
  apply Demo.run_reachable in Hn; [|vm_compute; reflexivity].
  cbn in Hr. injection Hr as Hc Ho%bool_decide_eq_true.
  apply demo_check_in in Hc as (e & p & q & He & Hin & HV & Hh & _).
  exists e, p, q. split; [exact Hin|].
  eapply (@committed_proof_verifies Demo.env _ prefix _ Demo.V net 1 e p q 0 Hn He Hin).
  - vm_compute. reflexivity.
  - rewrite Hh. intros k x Hk. exact (Ho 1 e He k x Hk).
  - exact HV.
Defined.
