(* ===== verification/Funds.v ===== *)
(** * Funds that hold SOV (lib-blockchain)

    Three contracts that receive SOV and pay it out under their own rules:
    [EmergencyReserve] of [contracts/emergency_reserve/core.rs] (withdrawals
    signed by a number of signers), [DevGrants] of [contracts/dev_grants/core.rs]
    (grants that governance approves and executes) and [UbiDistributor] of
    [contracts/ubi_distribution/core.rs] (a monthly payment to each registered
    citizen).  The grants and the distributor pay with the token contract of
    [TokenCore.v] or through the kernel of [Treasury.v]; the reserve checks
    signatures with lib-crypto as [Consensus.v] has it.  Blake3 and Dilithium are
    parameters. *)
From stdpp Require Import base tactics numbers list option gmap fin_maps fin_sets strings.
From S2P Require Import Prelude TokenCore Codec Memo Ubi Treasury Validators Consensus.

(** ** The emergency reserve *)

Record EmergencyReserve : Type := {
  er_initialized : bool;
  authorized_fee_collector : PublicKey; signers : list PublicKey;
  threshold : Z;         (* u8 *)
  er_received : Z;       (* u64 *)
  er_withdrawn : Z;      (* u64 *)
  received_by_period : gmap Z Z; last_period_id : Z;
  next_nonce : Z;        (* u64 *)
  contract_id : Z;
}.

(** The messages of the code, with the numbers they print. *)
Inductive ReserveError : Type :=
| ZeroCollector | NoSigners | ZeroSigner (index : Z) | DuplicateSigner | BadThreshold (n : Z)
| NotCollector | ZeroCredit | CreditOverflow | PeriodBackwards (period last : Z)
| ZeroRecipient | ZeroWithdrawal | InsufficientReserve (amount balance : Z)
| NonceMismatch (expected got : Z) | WithdrawalExpired (current expiry : Z)
| TooFewSignatures (n threshold : Z) | BalanceCorrupt (received withdrawn : Z).

Notation RM := (M EmergencyReserve ReserveError) (only parsing).

(** The field [domain] is always [WITHDRAW_DOMAIN]. *)
Record WithdrawalMessage : Type := {
  wm_contract : Z; wm_to : Z; wm_amount : Z; wm_nonce : Z; wm_expiry : Z;
}.

Definition WITHDRAW_DOMAIN : list Z := str_bytes "SOV_EMERGENCY_RESERVE_WITHDRAW_V1".

(** [WithdrawalMessage::encode]; a key is an array of 2592 bytes. *)
Definition wm_encode (m : WithdrawalMessage) : list Z :=
  be_bytes 4 (lenZ WITHDRAW_DOMAIN) ++ WITHDRAW_DOMAIN ++ be_bytes 32 (wm_contract m) ++
  be_bytes 4 2592 ++ be_bytes 2592 (wm_to m) ++ be_bytes 8 (wm_amount m) ++
  be_bytes 8 (wm_nonce m) ++ be_bytes 8 (wm_expiry m).

Definition is_zero_key (k : PublicKey) : bool := dilithium_pk k =? 0.

(** The index of the first signer that is zero. *)
Fixpoint zero_signer (i : Z) (l : list PublicKey) : option Z :=
  match l with
  | [] => None
  | k :: l' => if is_zero_key k then Some i else zero_signer (i + 1) l'
  end.

Definition reserve_init (collector : PublicKey) (ks : list PublicKey) (n id : Z)
    : result EmergencyReserve ReserveError :=
  if is_zero_key collector then Err ZeroCollector
  else if bool_decide (ks = []) then Err NoSigners
  else match zero_signer 0 ks with
  | Some i => Err (ZeroSigner i)
  | None =>
      if negb (bool_decide (NoDup ks)) then Err DuplicateSigner
      else if (n =? 0) || (as_u 8 (lenZ ks) <? n) then Err (BadThreshold (lenZ ks))
      else Ok {| er_initialized := true; authorized_fee_collector := collector; signers := ks; threshold := n;
                 er_received := 0; er_withdrawn := 0; received_by_period := ∅; last_period_id := 0;
                 next_nonce := 1; contract_id := id |}
  end.

Definition reserve_balance (r : EmergencyReserve) : result Z ReserveError :=
  ok_or (checked_sub (er_received r) (er_withdrawn r)) (BalanceCorrupt (er_received r) (er_withdrawn r)).

Definition received_for_period (p : Z) (r : EmergencyReserve) : Z :=
  default 0 (received_by_period r !! p).

Definition set_received (n : Z) (ps : gmap Z Z) (last : Z) (r : EmergencyReserve) : EmergencyReserve := {|
  er_initialized := er_initialized r; authorized_fee_collector := authorized_fee_collector r; signers := signers r;
  threshold := threshold r; er_received := n; er_withdrawn := er_withdrawn r;
  received_by_period := ps; last_period_id := last; next_nonce := next_nonce r;
  contract_id := contract_id r |}.

Definition set_withdrawn (n nonce : Z) (r : EmergencyReserve) : EmergencyReserve := {|
  er_initialized := er_initialized r; authorized_fee_collector := authorized_fee_collector r; signers := signers r;
  threshold := threshold r; er_received := er_received r; er_withdrawn := n;
  received_by_period := received_by_period r; last_period_id := last_period_id r;
  next_nonce := nonce; contract_id := contract_id r |}.

(** [EmergencyReserve::credit]. *)
Definition reserve_credit (c : PublicKey) (amount period : Z) : RM unit :=
  r <- gets (λ r, r) ;;
  guard (bool_decide (c = authorized_fee_collector r)) NotCollector ;;;
  guard (negb (amount =? 0)) ZeroCredit ;;;
  guard (bool_decide (is_Some (checked_add 64 (er_received r) amount))) CreditOverflow ;;;
  guard (last_period_id r <=? period) (PeriodBackwards period (last_period_id r)) ;;;
  modify (set_received (wadd 64 (er_received r) amount)
            (<[period := wadd 64 (received_for_period period r) amount]> (received_by_period r)) period).

Section Reserve.
Context `{ConsensusEnv}.

(** The digest that is signed. *)
Definition wm_hash (m : WithdrawalMessage) : list Z := be_bytes 32 (hash_blake3 (wm_encode m)).

(** The first signer under whose key the signature passes. *)
Definition signer_of (message : list Z) (ks : list PublicKey) (s : Signature) : option PublicKey :=
  List.find (λ k, verify_signature message (signature s) (dilithium_pk k)) ks.

Fixpoint valid_signers (message : list Z) (ks : list PublicKey) (acc : gset PublicKey)
    (sigs : list Signature) : gset PublicKey :=
  match sigs with
  | [] => acc
  | s :: sigs' =>
      valid_signers message ks
        (match signer_of message ks s with Some k => {[k]} ∪ acc | None => acc end) sigs'
  end.

(** [EmergencyReserve::withdraw]. *)
Definition reserve_withdraw (to : PublicKey) (amount nonce expiry current_period : Z)
    (sigs : list Signature) : RM unit :=
  r <- gets (λ r, r) ;;
  guard (negb (is_zero_key to)) ZeroRecipient ;;;
  guard (negb (amount =? 0)) ZeroWithdrawal ;;;
  balance <- lift (reserve_balance r) ;;
  guard (amount <=? balance) (InsufficientReserve amount balance) ;;;
  guard (nonce =? next_nonce r) (NonceMismatch (next_nonce r) nonce) ;;;
  guard (current_period <=? expiry) (WithdrawalExpired current_period expiry) ;;;
  let message := wm_hash {| wm_contract := contract_id r; wm_to := dilithium_pk to;
                            wm_amount := amount; wm_nonce := nonce; wm_expiry := expiry |} in
  let n := Z.of_nat (size (valid_signers message (signers r) ∅ sigs)) in
  guard (threshold r <=? n) (TooFewSignatures n (threshold r)) ;;;
  modify (λ r, set_withdrawn (wadd 64 (er_withdrawn r) amount) (wadd 64 (next_nonce r) 1) r).

End Reserve.

(** ** Development grants *)

Inductive GrantError : Type :=
| GUnauthorized | ProposalAlreadyApproved | ProposalNotApproved | ProposalAlreadyExecuted
| GInsufficientBalance | GZeroAmount | GOverflow | InvalidRecipient | GTokenTransferFailed.

Inductive GrantStatus : Type := GApproved | GExecuted.

#[export] Instance GrantStatus_eq_dec : EqDecision GrantStatus.
Proof. solve_decision. Defined.

Record ApprovedGrant : Type := {
  grant_proposal : Z; grant_recipient : Z; grant_amount : Z; approved_at : Z;
  grant_status : GrantStatus;
}.

Record Disbursement : Type := {
  dis_proposal : Z; dis_recipient : Z; dis_amount : Z; executed_at : Z; token_burned : Z;
}.

Record DevGrantsFund : Type := {
  dg_governance : PublicKey; dg_balance : Z; dg_received : Z; dg_disbursed : Z; (* u64 *)
  approved : gmap Z ApprovedGrant; disbursements : list Disbursement;
}.

Definition DevGrants_new (governance : PublicKey) : DevGrantsFund := {|
  dg_governance := governance; dg_balance := 0; dg_received := 0; dg_disbursed := 0;
  approved := ∅; disbursements := [] |}.

(** [Amount::try_new], for both funds. *)
Definition try_amount {E : Type} (n : Z) (e : E) : result Z E := if n =? 0 then Err e else Ok n.

Definition set_money (balance received paid : Z) (f : DevGrantsFund) : DevGrantsFund := {|
  dg_governance := dg_governance f; dg_balance := balance; dg_received := received;
  dg_disbursed := paid; approved := approved f; disbursements := disbursements f |}.

Definition set_approved (m : gmap Z ApprovedGrant) (f : DevGrantsFund) : DevGrantsFund := {|
  dg_governance := dg_governance f; dg_balance := dg_balance f; dg_received := dg_received f;
  dg_disbursed := dg_disbursed f; approved := m; disbursements := disbursements f |}.

Definition push_disbursement (d : Disbursement) (f : DevGrantsFund) : DevGrantsFund := {|
  dg_governance := dg_governance f; dg_balance := dg_balance f; dg_received := dg_received f;
  dg_disbursed := dg_disbursed f; approved := approved f; disbursements := disbursements f ++ [d] |}.

Definition with_executed (g : ApprovedGrant) : ApprovedGrant := {|
  grant_proposal := grant_proposal g; grant_recipient := grant_recipient g;
  grant_amount := grant_amount g; approved_at := approved_at g; grant_status := GExecuted |}.

(** A fund and the token contract it pays with. *)
Notation GM := (M (DevGrantsFund * TokenContract) GrantError) (only parsing).

Definition on_fund (f : DevGrantsFund → DevGrantsFund) : GM unit := modify (λ w, (f w.1, w.2)).

Definition grants_governance (c : PublicKey) : GM unit :=
  f <- gets fst ;; guard (bool_decide (c = dg_governance f)) GUnauthorized.

Definition receive_fees (c : PublicKey) (amount : Z) : GM unit :=
  grants_governance c ;;;
  guard (negb (amount =? 0)) GZeroAmount ;;;
  f <- gets fst ;;
  n <- lift (ok_or (checked_add 64 (dg_received f) amount) GOverflow) ;;
  on_fund (set_money (dg_balance f) n (dg_disbursed f)) ;;;
  b <- lift (ok_or (checked_add 64 (dg_balance f) amount) GOverflow) ;;
  on_fund (set_money b n (dg_disbursed f)).

Definition approve_grant (c : PublicKey) (proposal : Z) (recipient : PublicKey)
    (amount current_height : Z) : GM unit :=
  grants_governance c ;;;
  f <- gets fst ;;
  guard (bool_decide (approved f !! proposal = None)) ProposalAlreadyApproved ;;;
  a <- lift (try_amount amount GZeroAmount) ;;
  on_fund (λ f, set_approved (<[proposal := {| grant_proposal := proposal;
    grant_recipient := key_id recipient; grant_amount := a; approved_at := current_height;
    grant_status := GApproved |}]> (approved f)) f).

(** [TokenContract::transfer], whose error is replaced. *)
Definition pay_grant (ctx : ExecutionContext) (to : PublicKey) (amount : Z) : GM Z :=
  λ w, let '(t, r) := transfer ctx to amount w.2 in
       ((w.1, t), match r with Ok b => Ok b | Err _ => Err GTokenTransferFailed end).

Definition execute_grant (c : PublicKey) (proposal : Z) (recipient : PublicKey) (current_height : Z)
    (ctx : ExecutionContext) : GM unit :=
  grants_governance c ;;;
  f <- gets fst ;;
  g <- lift (ok_or (approved f !! proposal) ProposalNotApproved) ;;
  guard (bool_decide (grant_status g = GApproved)) ProposalAlreadyExecuted ;;;
  guard (key_id recipient =? grant_recipient g) InvalidRecipient ;;;
  let amt := grant_amount g in
  guard (amt <=? dg_balance f) GInsufficientBalance ;;;
  burned <- pay_grant ctx recipient amt ;;
  b <- lift (ok_or (checked_sub (dg_balance f) amt) GOverflow) ;;
  on_fund (set_money b (dg_received f) (dg_disbursed f)) ;;;
  d <- lift (ok_or (checked_add 64 (dg_disbursed f) amt) GOverflow) ;;
  on_fund (set_money b (dg_received f) d) ;;;
  on_fund (λ f, set_approved (<[proposal := with_executed g]> (approved f)) f) ;;;
  on_fund (push_disbursement {| dis_proposal := proposal; dis_recipient := grant_recipient g;
    dis_amount := grant_amount g; executed_at := current_height; token_burned := burned |}).

(** ** The UBI distributor *)

Inductive UbiError : Type :=
| UUnauthorized | AlreadyRegistered | NotRegistered | AlreadyPaidThisMonth | UInsufficientFunds
| UZeroAmount | UOverflow | UTokenTransferFailed | InvalidSchedule.

Record UbiDistributor : Type := {
  ud_governance : PublicKey; blocks_per_month : Z;
  ud_balance : Z; ud_received : Z; ud_paid : Z; (* u64 *)
  registered : gset Z; paid : gmap Z (gset Z); schedule_of : gmap Z Z;
  claim_events : gmap Z (list UbiClaimRecorded);
}.

Definition UbiDistributor_new (governance : PublicKey) (blocks : Z) : result UbiDistributor UbiError :=
  if blocks =? 0 then Err InvalidSchedule
  else Ok {| ud_governance := governance; blocks_per_month := blocks; ud_balance := 0;
             ud_received := 0; ud_paid := 0; registered := ∅; paid := ∅; schedule_of := ∅;
             claim_events := ∅ |}.

Definition set_ubi_money (balance received spent : Z) (u : UbiDistributor) : UbiDistributor := {|
  ud_governance := ud_governance u; blocks_per_month := blocks_per_month u; ud_balance := balance;
  ud_received := received; ud_paid := spent; registered := registered u; paid := paid u;
  schedule_of := schedule_of u; claim_events := claim_events u |}.

Definition set_registered (x : gset Z) (u : UbiDistributor) : UbiDistributor := {|
  ud_governance := ud_governance u; blocks_per_month := blocks_per_month u;
  ud_balance := ud_balance u; ud_received := ud_received u; ud_paid := ud_paid u;
  registered := x; paid := paid u; schedule_of := schedule_of u; claim_events := claim_events u |}.

Definition set_paid (m : gmap Z (gset Z)) (u : UbiDistributor) : UbiDistributor := {|
  ud_governance := ud_governance u; blocks_per_month := blocks_per_month u;
  ud_balance := ud_balance u; ud_received := ud_received u; ud_paid := ud_paid u;
  registered := registered u; paid := m; schedule_of := schedule_of u;
  claim_events := claim_events u |}.

Definition set_schedule (m : gmap Z Z) (u : UbiDistributor) : UbiDistributor := {|
  ud_governance := ud_governance u; blocks_per_month := blocks_per_month u;
  ud_balance := ud_balance u; ud_received := ud_received u; ud_paid := ud_paid u;
  registered := registered u; paid := paid u; schedule_of := m; claim_events := claim_events u |}.

Definition set_claim_events (m : gmap Z (list UbiClaimRecorded)) (u : UbiDistributor) : UbiDistributor := {|
  ud_governance := ud_governance u; blocks_per_month := blocks_per_month u;
  ud_balance := ud_balance u; ud_received := ud_received u; ud_paid := ud_paid u;
  registered := registered u; paid := paid u; schedule_of := schedule_of u; claim_events := m |}.

Definition month_index (height : Z) (u : UbiDistributor) : Z := height / blocks_per_month u.
Definition amount_for_month (month : Z) (u : UbiDistributor) : Z := default 0 (schedule_of u !! month).
Definition paid_in (month : Z) (u : UbiDistributor) : gset Z := default ∅ (paid u !! month).

(** The distributor with the token contract and the kernel. *)
Notation UM := (M (UbiDistributor * Treasury) UbiError) (only parsing).

Definition on_ubi (f : UbiDistributor → UbiDistributor) : UM unit := modify (λ w, (f w.1, w.2)).

Definition ubi_governance (c : PublicKey) : UM unit :=
  u <- gets fst ;; guard (bool_decide (c = ud_governance u)) UUnauthorized.

Definition receive_funds (c : PublicKey) (amount : Z) : UM unit :=
  ubi_governance c ;;;
  guard (negb (amount =? 0)) UZeroAmount ;;;
  u <- gets fst ;;
  n <- lift (ok_or (checked_add 64 (ud_received u) amount) UOverflow) ;;
  on_ubi (set_ubi_money (ud_balance u) n (ud_paid u)) ;;;
  b <- lift (ok_or (checked_add 64 (ud_balance u) amount) UOverflow) ;;
  on_ubi (set_ubi_money b n (ud_paid u)).

Definition initialize_ubi_pool (c : PublicKey) (amount : Z) : UM unit := receive_funds c amount.

Definition ubi_register (citizen : PublicKey) : UM unit :=
  u <- gets fst ;;
  guard (bool_decide (key_id citizen ∉ registered u)) AlreadyRegistered ;;;
  on_ubi (set_registered ({[key_id citizen]} ∪ registered u)).

(** The number of citizens that were new. *)
Fixpoint register_batch (citizens : list PublicKey) (u : UbiDistributor) : UbiDistributor * Z :=
  match citizens with
  | [] => (u, 0)
  | c :: citizens' =>
      let '(u', n) := register_batch citizens' (set_registered ({[key_id c]} ∪ registered u) u) in
      (u', if bool_decide (key_id c ∈ registered u) then n else n + 1)
  end.

Definition set_month_amount (c : PublicKey) (month amount : Z) : UM unit :=
  ubi_governance c ;;;
  _ <- lift (try_amount amount UZeroAmount) ;;
  on_ubi (λ u, set_schedule (<[month := amount]> (schedule_of u)) u).

Definition set_amount_range (c : PublicKey) (start_month end_month amount : Z) : UM unit :=
  ubi_governance c ;;;
  _ <- lift (try_amount amount UZeroAmount) ;;
  guard (start_month <=? end_month) InvalidSchedule ;;;
  on_ubi (λ u, set_schedule
    (foldl (λ m k, <[k := amount]> m) (schedule_of u) (seqZ start_month (end_month - start_month + 1))) u).

(** Through the kernel, from the account the call acts for, or with the token
    contract. *)
Definition pay_ubi (via_kernel : bool) (ctx : ExecutionContext) (citizen : PublicKey) (amount : Z)
    : UM unit :=
  λ w,
    if via_kernel then
      match source_of ctx with
      | Err _ => (w, Err UTokenTransferFailed)
      | Ok from =>
          let '(t, r) := kernel_transfer (kernel_address (kernel w.2)) from citizen amount w.2 in
          ((w.1, t), match r with Ok _ => Ok tt | Err _ => Err UTokenTransferFailed end)
      end
    else
      let '(t, r) := transfer ctx citizen amount (token w.2) in
      ((w.1, set_token t w.2), match r with Ok _ => Ok tt | Err _ => Err UTokenTransferFailed end).

Definition claim_ubi (via_kernel : bool) (citizen : PublicKey) (current_height : Z)
    (ctx : ExecutionContext) : UM unit :=
  u <- gets fst ;;
  let id := key_id citizen in
  guard (bool_decide (id ∈ registered u)) NotRegistered ;;;
  let month := month_index current_height u in
  let amount := amount_for_month month u in
  guard (negb (amount =? 0)) UZeroAmount ;;;
  on_ubi (set_paid (<[month := paid_in month u]> (paid u))) ;;;
  guard (bool_decide (id ∉ paid_in month u)) AlreadyPaidThisMonth ;;;
  guard (amount <=? ud_balance u) UInsufficientFunds ;;;
  pay_ubi via_kernel ctx citizen amount ;;;
  b <- lift (ok_or (checked_sub (ud_balance u) amount) UOverflow) ;;
  on_ubi (set_ubi_money b (ud_received u) (ud_paid u)) ;;;
  n <- lift (ok_or (checked_add 64 (ud_paid u) amount) UOverflow) ;;
  on_ubi (set_ubi_money b (ud_received u) n) ;;;
  on_ubi (set_paid (<[month := {[id]} ∪ paid_in month u]> (paid u))).

Definition record_claim_intent (citizen amount epoch : Z) : UM unit :=
  guard (negb (amount =? 0)) UZeroAmount ;;;
  on_ubi (λ u, set_claim_events
    (<[epoch := default [] (claim_events u !! epoch) ++
         [{| claim_citizen := citizen; claim_amount := amount; claim_epoch := epoch; claim_timestamp := 0 |}]]>
       (claim_events u)) u).

Definition query_ubi_claims (epoch : Z) (u : UbiDistributor) : list UbiClaimRecorded :=
  default [] (claim_events u !! epoch).

(** ** The reserve: what a run withdrew *)

Record Withdrawal : Type := {
  w_to : PublicKey; w_amount : Z; w_nonce : Z; w_expiry : Z; w_period : Z; w_sigs : list Signature;
}.

Section ReserveRuns.
Context `{ConsensusEnv}.

(** Calls on a reserve; the credits (period and amount) and the withdrawals that
    succeeded, newest first. *)
Inductive reserve_run : list (Z * Z) → list Withdrawal → EmergencyReserve → Prop :=
| reserve_start collector ks n id r :
    0 <= n → reserve_init collector ks n id = Ok r → reserve_run [] [] r
| reserve_credited cs ws r c amount period r' x :
    reserve_run cs ws r → 0 <= amount → reserve_credit c amount period r = (r', x) →
    reserve_run (if is_ok x then (period, amount) :: cs else cs) ws r'
| reserve_withdrawn cs ws r w r' x :
    reserve_run cs ws r → 0 <= w_amount w →
    reserve_withdraw (w_to w) (w_amount w) (w_nonce w) (w_expiry w) (w_period w) (w_sigs w) r = (r', x) →
    reserve_run cs (if is_ok x then w :: ws else ws) r'.

Definition withdrawal_digest (r : EmergencyReserve) (w : Withdrawal) : list Z :=
  wm_hash {| wm_contract := contract_id r; wm_to := dilithium_pk (w_to w); wm_amount := w_amount w;
             wm_nonce := w_nonce w; wm_expiry := w_expiry w |}.

(** [n] different signers of the reserve for which the withdrawal carries a
    signature that satisfies [P]. *)
Definition signed_by (r : EmergencyReserve) (w : Withdrawal) (P : PublicKey → Signature → Prop) (n : Z)
    : Prop :=
  ∃ ks, NoDup ks ∧ n <= lenZ ks ∧
    ∀ k, k ∈ ks → k ∈ signers r ∧ ∃ s, s ∈ w_sigs w ∧ P k s.

(** A signature that lib-crypto lets pass, and one that Dilithium verified. *)
Definition passes (r : EmergencyReserve) (w : Withdrawal) (k : PublicKey) (s : Signature) : Prop :=
  verify_signature (withdrawal_digest r w) (signature s) (dilithium_pk k) = true.
Definition genuine (r : EmergencyReserve) (w : Withdrawal) (k : PublicKey) (s : Signature) : Prop :=
  dilithium_verify (dilithium_pk k) (withdrawal_digest r w) (signature s) = true.

Lemma valid_signers_elem message ks acc sigs k :
  k ∈ valid_signers message ks acc sigs ↔
  k ∈ acc ∨ ∃ s, s ∈ sigs ∧ signer_of message ks s = Some k.
Proof.
  revert acc. induction sigs as [|s sigs IH]; intros acc; simpl.
  - split; [auto|]. intros [?|(s & Hs & _)]; [done|]. by apply elem_of_nil in Hs.
  - rewrite IH. setoid_rewrite elem_of_cons. destruct (signer_of message ks s) as [x|] eqn:Hx.
    + rewrite elem_of_union, elem_of_singleton. split.
      * intros [[->|?]|(s' & Hs & Hk)]; [right; eauto|auto|right; eauto].
      * intros [?|(s' & [->|Hs] & Hk)]; [auto|left; left; congruence|right; eauto].
    + split; [intros [?|(s' & ? & ?)]; [auto|right; eauto]|].
      intros [?|(s' & [->|Hs] & Hk)]; [auto|congruence|right; eauto].
Qed.

(** A signature counts for the first signer it passes for; a signature of the
    length of a key passes for every signer, so it only ever counts for the first. *)
Lemma signer_of_some message ks s k :
  signer_of message ks s = Some k →
  k ∈ ks ∧ verify_signature message (signature s) (dilithium_pk k) = true ∧
  (dilithium_verify (dilithium_pk k) message (signature s) = true ∨ head ks = Some k).
Proof.
  intros Hf. pose proof (find_some _ _ Hf) as [Hin Hv]. split; [by apply list_elem_of_In|]. split; [done|].
  revert Hv Hf. unfold verify_signature, signer_of. destruct (_ && _) eqn:Hb.
  - intros _. destruct ks as [|k0 ks]; simpl; [done|]. unfold verify_signature. rewrite Hb. naive_solver.
  - destruct (negb _); [done|]. auto.
Qed.

Lemma withdraw_cases w r r' x :
  reserve_withdraw (w_to w) (w_amount w) (w_nonce w) (w_expiry w) (w_period w) (w_sigs w) r = (r', x) →
  (r' = r ∧ ∃ e, x = Err e) ∨
  (x = Ok tt ∧ w_amount w ≠ 0 ∧ w_amount w <= er_received r - er_withdrawn r ∧ w_nonce w = next_nonce r ∧
   w_period w <= w_expiry w ∧
   threshold r <= Z.of_nat (size (valid_signers (withdrawal_digest r w) (signers r) ∅ (w_sigs w))) ∧
   r' = set_withdrawn (wadd 64 (er_withdrawn r) (w_amount w)) (wadd 64 (next_nonce r) 1) r).
Proof.
  intros Hr. unfold reserve_withdraw, bind, gets, guard, lift, modify, reserve_balance, ok_or in Hr.
  destruct (negb (is_zero_key (w_to w))); [|naive_solver].
  destruct (Z.eqb_spec (w_amount w) 0); simpl in Hr; [naive_solver|].
  destruct (checked_sub (er_received r) (er_withdrawn r)) as [b|] eqn:Hb; [|naive_solver].
  apply checked_sub_Some in Hb as [-> _].
  destruct (Z.leb_spec (w_amount w) (er_received r - er_withdrawn r)); [|naive_solver].
  destruct (Z.eqb_spec (w_nonce w) (next_nonce r)) as [Hn|]; [|naive_solver].
  destruct (Z.leb_spec (w_period w) (w_expiry w)); [|naive_solver].
  change (wm_hash _) with (withdrawal_digest r w) in Hr.
  destruct (Z.leb_spec (threshold r)
    (Z.of_nat (size (valid_signers (withdrawal_digest r w) (signers r) ∅ (w_sigs w))))); [|naive_solver].
  injection Hr as <- <-. right. done.
Qed.

Lemma credit_cases c amount period r r' x :
  reserve_credit c amount period r = (r', x) →
  (r' = r ∧ ∃ e, x = Err e) ∨
  (x = Ok tt ∧ amount ≠ 0 ∧ er_received r + amount <= umax 64 ∧ last_period_id r <= period ∧
   r' = set_received (wadd 64 (er_received r) amount)
     (<[period := wadd 64 (received_for_period period r) amount]> (received_by_period r)) period r).
Proof.
  intros Hr. unfold reserve_credit, bind, gets, guard, modify in Hr.
  case_bool_decide; [|naive_solver]. destruct (Z.eqb_spec amount 0); simpl in Hr; [naive_solver|].
  destruct (checked_add 64 (er_received r) amount) as [n0|] eqn:Hn; cycle 1.
  { rewrite bool_decide_eq_false_2 in Hr by apply is_Some_None. naive_solver. }
  rewrite bool_decide_eq_true_2 in Hr by by eexists. apply checked_add_Some in Hn as [_ ?].
  destruct (Z.leb_spec (last_period_id r) period); [|naive_solver].
  injection Hr as <- <-. right. done.
Qed.

Lemma signed_enough r w :
  1 <= threshold r →
  threshold r <= Z.of_nat (size (valid_signers (withdrawal_digest r w) (signers r) ∅ (w_sigs w))) →
  signed_by r w (passes r w) (threshold r) ∧ signed_by r w (genuine r w) (threshold r - 1).
Proof.
  intros Ht Hsize. set (vs := valid_signers _ _ _ _) in *.
  assert (∀ k, k ∈ vs → ∃ s, s ∈ w_sigs w ∧ signer_of (withdrawal_digest r w) (signers r) s = Some k) as Hvs.
  { intros k Hk. apply valid_signers_elem in Hk as [Hk|?]; [by apply elem_of_empty in Hk|done]. }
  split.
  - exists (elements vs). split; [apply NoDup_elements|]. split; [done|].
    intros k Hk%elem_of_elements. destruct (Hvs k Hk) as (s & Hs & Hk').
    apply signer_of_some in Hk' as (? & ? & _). unfold passes. eauto.
  - destruct (head (signers r)) as [k0|] eqn:Hh.
    + exists (elements (vs ∖ {[k0]})). split; [apply NoDup_elements|]. split.
      * change (lenZ (elements (vs ∖ {[k0]}))) with (Z.of_nat (size (vs ∖ {[k0]}))).
        pose proof (size_union_alt {[k0]} vs) as Hu. rewrite size_singleton in Hu.
        pose proof (subseteq_size vs ({[k0]} ∪ vs) ltac:(apply union_subseteq_r)). lia.
      * intros k Hk%elem_of_elements. apply elem_of_difference in Hk as [Hk Hne].
        rewrite elem_of_singleton in Hne. destruct (Hvs k Hk) as (s & Hs & Hk').
        apply signer_of_some in Hk' as (? & _ & [?|?]); [unfold genuine; eauto|congruence].
    + exists []. split; [apply NoDup_nil_2|]. destruct (signers r) as [|? ?] eqn:Hsig; [|done].
      assert (vs = ∅) as Hvs0.
      { apply set_eq. intros k. split; [|by intros ?%elem_of_empty]. intros Hk.
        by destruct (Hvs k Hk) as (s & _ & Hk'). }
      rewrite Hvs0, size_empty in Hsize. lia.
Qed.

(** *** The invariant *)

Record reserve_inv (cs : list (Z * Z)) (ws : list Withdrawal) (r : EmergencyReserve) : Prop := {
  ri_threshold : 1 <= threshold r <= lenZ (signers r);
  ri_signers : NoDup (signers r);
  ri_received : er_received r = sumZ (map snd cs) ∧ er_received r <= umax 64;
  ri_withdrawn : er_withdrawn r = sumZ (map w_amount ws) ∧ er_withdrawn r <= er_received r;
  ri_nonce : lenZ ws <= er_withdrawn r ∧ next_nonce r = (lenZ ws + 1) mod 2 ^ 64;
  ri_nonces : map w_nonce ws = rev (seqZ 1 (lenZ ws));
  ri_periods : ∀ p, received_for_period p r = sumZ (map snd (filter (λ c, c.1 = p) cs));
  ri_credits : Forall (λ c, 0 <= c.2) cs;
  ri_signed : Forall (λ w, w_period w <= w_expiry w ∧ signed_by r w (passes r w) (threshold r) ∧
                           signed_by r w (genuine r w) (threshold r - 1)) ws;
}.

Lemma init_inv collector ks n id r :
  0 <= n → reserve_init collector ks n id = Ok r → reserve_inv [] [] r.
Proof.
  intros Hn0. unfold reserve_init. destruct (is_zero_key collector); [done|]. case_bool_decide; [done|].
  destruct (zero_signer 0 ks); [done|]. destruct (bool_decide_reflect (NoDup ks)); [|done]. simpl.
  destruct (Z.eqb_spec n 0); [done|]. simpl. destruct (Z.ltb_spec (as_u 8 (lenZ ks)) n); [done|].
  intros [= <-]. constructor; simpl; try done.
  unfold as_u, lenZ in *. pose proof (Z.mod_le (Z.of_nat (length ks)) (2 ^ 8)). lia.
Qed.

Lemma periods_le cs p : Forall (λ c : Z * Z, 0 <= c.2) cs →
  0 <= sumZ (map snd (filter (λ c, c.1 = p) cs)) <= sumZ (map snd cs).
Proof.
  induction 1 as [|c cs Hc _ IH]; [done|]. rewrite filter_cons. case_decide; cbn [map];
    rewrite !sumZ_cons; lia.
Qed.

Lemma credit_inv cs ws r c amount period r' x :
  reserve_credit c amount period r = (r', x) → 0 <= amount → reserve_inv cs ws r →
  reserve_inv (if is_ok x then (period, amount) :: cs else cs) ws r'.
Proof.
  intros [[-> [e ->]]|(-> & _ & Hmax & _ & ->)]%credit_cases Ha Hi; [done|]. destruct Hi.
  pose proof (periods_le cs period ri_credits0). cbn [is_ok].
  rewrite wadd_small by (destruct ri_received0, ri_withdrawn0; lia).
  constructor; try done; cbn [er_received er_withdrawn set_received map snd].
  - rewrite sumZ_cons. lia.
  - lia.
  - intros p. unfold received_for_period. cbn [received_by_period set_received]. rewrite filter_cons. simpl.
    destruct (decide (period = p)) as [<-|Hne].
    + rewrite lookup_insert_eq. cbn [default map snd from_option id]. rewrite sumZ_cons.
      specialize (ri_periods0 period). unfold received_for_period in ri_periods0. rewrite ri_periods0.
      rewrite wadd_small; lia.
    + rewrite lookup_insert_ne by done. apply ri_periods0.
  - by constructor.
Qed.

Lemma withdraw_inv cs ws r w r' x :
  reserve_withdraw (w_to w) (w_amount w) (w_nonce w) (w_expiry w) (w_period w) (w_sigs w) r = (r', x) →
  0 <= w_amount w → reserve_inv cs ws r → reserve_inv cs (if is_ok x then w :: ws else ws) r'.
Proof.
  intros [[-> [e ->]]|(-> & Hz & Hle & Hn & Hexp & Hs & ->)]%withdraw_cases Ha Hi; [done|].
  destruct Hi. cbn [is_ok]. assert (lenZ (w :: ws) = lenZ ws + 1) as Hlen by (unfold lenZ; simpl; lia).
  assert (0 <= lenZ ws) by (unfold lenZ; lia). rewrite wadd_small by (unfold umax in *; lia).
  constructor; try done; cbn [er_received er_withdrawn next_nonce set_withdrawn map].
  - rewrite sumZ_cons. lia.
  - split; [lia|]. destruct ri_nonce0 as [_ ->]. unfold wadd. rewrite Hlen. by rewrite Zplus_mod_idemp_l.
  - rewrite ri_nonces0, Hn, (proj2 ri_nonce0), Z.mod_small, Hlen, seqZ_app by (unfold umax in *; lia).
    rewrite rev_app_distr. by rewrite Z.add_comm.
  - constructor; [|done]. split; [done|]. apply signed_enough; [|done]. cbn. lia.
Qed.

Lemma reserve_run_inv cs ws r : reserve_run cs ws r → reserve_inv cs ws r.
Proof. induction 1; eauto using init_inv, credit_inv, withdraw_inv. Qed.

(** C23: Every withdrawal of the reserve was allowed by its rules.  The nonces of
    the withdrawals are the numbers from one on, each used once; no withdrawal
    came after its expiry; each carried, for at least the threshold of different
    signers, a signature over its digest that passes, and for all but one of
    these a signature that Dilithium verified; and the balance is what was
    credited less what was withdrawn, with the credits of every period added up
    under it. *)
Theorem withdrawals_authorized cs ws r :
  reserve_run cs ws r →
  map w_nonce ws = rev (seqZ 1 (lenZ ws)) ∧
  (∀ w, w ∈ ws → w_period w <= w_expiry w ∧ signed_by r w (passes r w) (threshold r) ∧
                 signed_by r w (genuine r w) (threshold r - 1)) ∧
  reserve_balance r = Ok (sumZ (map snd cs) - sumZ (map w_amount ws)) ∧
  ∀ p, received_for_period p r = sumZ (map snd (filter (λ c, c.1 = p) cs)).
Proof.
  intros []%reserve_run_inv. split; [done|]. split; [by apply Forall_forall|]. split; [|done].
  unfold reserve_balance. rewrite (proj2 (checked_sub_Some _ _ _) (conj eq_refl (proj2 ri_withdrawn0))).
  simpl. f_equal. lia.
Qed.

End ReserveRuns.

(** *** The signed message *)

Lemma be_bytes_inj n a b :
  in_u (8 * Z.of_nat n) a → in_u (8 * Z.of_nat n) b → be_bytes n a = be_bytes n b → a = b.
Proof. intros Ha Hb Heq. rewrite <- (from_be_bytes_be n a), <- (from_be_bytes_be n b) by done. by rewrite Heq. Qed.

Record wf_message (m : WithdrawalMessage) : Prop := {
  wfm_contract : in_u 256 (wm_contract m); wfm_to : in_u (8 * 2592) (wm_to m);
  wfm_amount : in_u 64 (wm_amount m); wfm_nonce : in_u 64 (wm_nonce m); wfm_expiry : in_u 64 (wm_expiry m);
}.

(** The bytes that are hashed determine the withdrawal: a signature for one
    withdrawal is not one for another unless the hashes collide. *)
Lemma wm_encode_inj m1 m2 : wf_message m1 → wf_message m2 → wm_encode m1 = wm_encode m2 → m1 = m2.
Proof.
  intros H1 H2. unfold wm_encode. destruct m1 as [c1 t1 a1 n1 e1], m2 as [c2 t2 a2 n2 e2].
  destruct H1, H2. cbn [wm_contract wm_to wm_amount wm_nonce wm_expiry] in *.
  intros Heq. apply app_inv_head in Heq. apply app_inv_head in Heq.
  apply app_inj_1 in Heq as [Hc Heq]; [|by rewrite !be_bytes_length].
  apply app_inv_head in Heq.
  do 3 (apply app_inj_1 in Heq as [? Heq]; [|by rewrite !be_bytes_length]).
  f_equal; (eapply be_bytes_inj; [| |eassumption]); assumption.
Qed.

(** ** The grants: what a run disbursed *)

(** Calls on the fund, with the fees it received; the token contract is used by
    others in between. *)
Inductive grants_run : list Z → DevGrantsFund * TokenContract → Prop :=
| grants_start governance t : grants_run [] (DevGrants_new governance, t)
| grants_others fees f t t' : grants_run fees (f, t) → grants_run fees (f, t')
| grants_received fees w c amount w' r :
    grants_run fees w → 0 <= amount → receive_fees c amount w = (w', r) →
    grants_run (if is_ok r then amount :: fees else fees) w'
| grants_approved fees w c p k amount h w' r :
    grants_run fees w → 0 <= amount → approve_grant c p k amount h w = (w', r) → grants_run fees w'
| grants_executed fees w c p k h ctx w' r :
    grants_run fees w → execute_grant c p k h ctx w = (w', r) → grants_run fees w'.

Definition disbursement_of (f : DevGrantsFund) (d : Disbursement) (g : ApprovedGrant) : Prop :=
  approved f !! dis_proposal d = Some g ∧ grant_status g = GExecuted ∧
  dis_recipient d = grant_recipient g ∧ dis_amount d = grant_amount g.

Record grants_inv (fees : list Z) (f : DevGrantsFund) : Prop := {
  gi_received : dg_received f = sumZ fees ∧ dg_received f <= umax 64;
  gi_balance : 0 <= dg_balance f ∧ dg_balance f + dg_disbursed f = dg_received f;
  gi_disbursed : 0 <= dg_disbursed f ∧ dg_disbursed f = sumZ (map dis_amount (disbursements f));
  gi_once : NoDup (map dis_proposal (disbursements f));
  gi_approved : ∀ d, d ∈ disbursements f → ∃ g, disbursement_of f d g;
  gi_executed : ∀ p g, approved f !! p = Some g → grant_status g = GExecuted →
                  p ∈ map dis_proposal (disbursements f);
  gi_amounts : ∀ p g, approved f !! p = Some g → 0 < grant_amount g;
}.

Lemma receive_fees_cases c amount fees f t w r :
  receive_fees c amount (f, t) = (w, r) → grants_inv fees f → 0 <= amount →
  (w = (f, t) ∧ ∃ e, r = Err e) ∨
  (r = Ok tt ∧ dg_received f + amount <= umax 64 ∧
   w = (set_money (dg_balance f + amount) (dg_received f + amount) (dg_disbursed f) f, t)).
Proof.
  intros Hr [? ? ? _ _ _ _] Ha.
  unfold receive_fees, grants_governance, on_fund, bind, gets, guard, lift, modify, ok_or in Hr. simpl in Hr.
  case_bool_decide; [|naive_solver]. destruct (Z.eqb_spec amount 0); simpl in Hr; [naive_solver|].
  destruct (checked_add 64 (dg_received f) amount) as [n0|] eqn:Hn; [|naive_solver].
  apply checked_add_Some in Hn as [-> ?].
  assert (checked_add 64 (dg_balance f) amount = Some (dg_balance f + amount)) as Hb
    by (apply checked_add_Some; lia). rewrite Hb in Hr.
  injection Hr as <- <-. by right.
Qed.

Lemma approve_grant_cases c p k amount h f t w r :
  approve_grant c p k amount h (f, t) = (w, r) →
  (w = (f, t) ∧ ∃ e, r = Err e) ∨
  (amount ≠ 0 ∧ approved f !! p = None ∧
   w = (set_approved (<[p := {| grant_proposal := p; grant_recipient := key_id k; grant_amount := amount;
          approved_at := h; grant_status := GApproved |}]> (approved f)) f, t)).
Proof.
  intros Hr. unfold approve_grant, grants_governance, on_fund, bind, gets, guard, lift, modify, ret, throw, try_amount in Hr.
  cbn [fst snd] in Hr. case_bool_decide; [|naive_solver]. cbn [fst snd] in Hr.
  case_bool_decide; [|naive_solver].
  destruct (Z.eqb_spec amount 0); simpl in Hr; [naive_solver|]. injection Hr as <- <-. by right.
Qed.

(** The fund after a grant was paid. *)
Definition disbursed (p h burned : Z) (g : ApprovedGrant) (f : DevGrantsFund) : DevGrantsFund :=
  push_disbursement {| dis_proposal := p; dis_recipient := grant_recipient g;
                       dis_amount := grant_amount g; executed_at := h; token_burned := burned |}
    (set_approved (<[p := with_executed g]> (approved f))
       (set_money (dg_balance f - grant_amount g) (dg_received f) (dg_disbursed f + grant_amount g) f)).

Lemma execute_grant_cases c p k h ctx fees f t w r :
  execute_grant c p k h ctx (f, t) = (w, r) → grants_inv fees f →
  (∃ e, r = Err e ∧ w.1 = f ∧
     (e = GTokenTransferFailed ∧ w.2 = (transfer ctx k
        (from_option grant_amount 0 (approved f !! p)) t).1 ∧
        ¬ is_ok (transfer ctx k (from_option grant_amount 0 (approved f !! p)) t).2 ∨ w.2 = t)) ∨
  ∃ g burned, r = Ok tt ∧ c = dg_governance f ∧ approved f !! p = Some g ∧ grant_status g = GApproved ∧
    key_id k = grant_recipient g ∧ grant_amount g <= dg_balance f ∧
    transfer ctx k (grant_amount g) t = (w.2, Ok burned) ∧ w.1 = disbursed p h burned g f.
Proof.
  intros Hr [? ? ? _ _ _ Hpos]. unfold execute_grant, grants_governance, pay_grant, on_fund in Hr.
  unfold bind, gets, guard, lift, modify, ret, throw, ok_or in Hr. cbn [fst snd] in Hr.
  case_bool_decide as Hc; [|left; eexists; injection Hr as <- <-; eauto]. cbn [fst snd] in Hr.
  destruct (approved f !! p) as [g|] eqn:Hg; [|left; eexists; injection Hr as <- <-; eauto].
  case_bool_decide as Hst; [|left; eexists; injection Hr as <- <-; eauto].
  destruct (Z.eqb_spec (key_id k) (grant_recipient g)) as [Hk|]; [|left; eexists; injection Hr as <- <-; eauto].
  destruct (Z.leb_spec (grant_amount g) (dg_balance f)) as [Hle|]; [|left; eexists; injection Hr as <- <-; eauto].
  cbn [from_option fst snd] in Hr |- *. destruct (transfer ctx k (grant_amount g) t) as [t' x] eqn:Ht.
  destruct x as [b|e]; [|left; eexists; injection Hr as <- <-; split; [done|]; split; [done|]; left; naive_solver].
  specialize (Hpos p g Hg).
  assert (checked_sub (dg_balance f) (grant_amount g) = Some (dg_balance f - grant_amount g)) as Hb
    by (apply checked_sub_Some; lia).
  assert (checked_add 64 (dg_disbursed f) (grant_amount g) = Some (dg_disbursed f + grant_amount g)) as Hd
    by (apply checked_add_Some; lia).
  rewrite Hb, Hd in Hr.
  injection Hr as <- <-. right. by exists g, b.
Qed.

Lemma disbursed_inv fees p h b g f :
  grants_inv fees f → approved f !! p = Some g → grant_status g = GApproved →
  grant_amount g <= dg_balance f → grants_inv fees (disbursed p h b g f).
Proof.
  intros [] Hg Hst Hle. specialize (gi_amounts0 p g Hg) as Hpos.
  assert (p ∉ map dis_proposal (disbursements f)) as Hnew.
  { intros (d & -> & Hd)%list_elem_of_fmap. destruct (gi_approved0 d Hd) as (g' & Hg' & Hst' & _).
    rewrite Hg in Hg'. congruence. }
  constructor; cbn [disbursed push_disbursement set_approved set_money dg_received dg_balance dg_disbursed
    disbursements approved]; [done|lia| | | | |].
  - rewrite map_app, sumZ_app. simpl. lia.
  - rewrite map_app. apply NoDup_app. split; [done|]. split; [|apply NoDup_singleton].
    intros x Hx ->%list_elem_of_singleton. done.
  - intros d [Hd| ->%list_elem_of_singleton]%elem_of_app.
    + destruct (gi_approved0 d Hd) as (g' & Hg' & Hrest). exists g'. split; [|done]. simpl.
      rewrite lookup_insert_ne; [done|]. intros ->. by apply Hnew, list_elem_of_fmap_2.
    + exists (with_executed g). split; [|done]. simpl. by rewrite lookup_insert_eq.
  - intros q g' Hq Hst'. rewrite map_app. apply elem_of_app.
    destruct (decide (p = q)) as [<-|Hne]; [right; by left|].
    rewrite lookup_insert_ne in Hq by done. left. eauto.
  - intros q g' Hq. destruct (decide (p = q)) as [<-|Hne].
    + rewrite lookup_insert_eq in Hq. injection Hq as <-. done.
    + rewrite lookup_insert_ne in Hq by done. eauto.
Qed.

Lemma grants_run_inv fees w : grants_run fees w → grants_inv fees w.1.
Proof.
  induction 1 as [g t|fees f t t' _ IH|fees [f t] c a w' r _ IH Ha Hr|fees [f t] c p k a h w' r _ IH Ha Hr
    |fees [f t] c p k h ctx w' r _ IH Hr].
  - constructor; try done; cbn; try (intros; set_solver); by apply NoDup_nil_2.
  - exact IH.
  - destruct (receive_fees_cases _ _ _ _ _ _ _ Hr IH Ha) as [[-> [e ->]]|(-> & Hmax & ->)]; [done|].
    destruct IH. constructor; try done; cbn [is_ok fst set_money dg_received dg_balance dg_disbursed disbursements] in *;
      rewrite ?sumZ_cons; lia.
  - destruct (approve_grant_cases _ _ _ _ _ _ _ _ _ Hr) as [[-> _]|(Hz & Hnone & ->)]; [done|].
    destruct IH. constructor; try done; cbn [fst set_approved approved disbursements].
    + intros d Hd. destruct (gi_approved0 d Hd) as (g & Hg & Hrest). exists g. split; [|done]. simpl.
      rewrite lookup_insert_ne; [done|]. simpl in Hg. congruence.
    + intros q g Hq Hst. destruct (decide (p = q)) as [<-|Hne].
      * rewrite lookup_insert_eq in Hq. injection Hq as <-. done.
      * rewrite lookup_insert_ne in Hq by done. eauto.
    + intros q g Hq. destruct (decide (p = q)) as [<-|Hne].
      * rewrite lookup_insert_eq in Hq. injection Hq as <-. simpl. lia.
      * rewrite lookup_insert_ne in Hq by done. eauto.
  - destruct (execute_grant_cases _ _ _ _ _ _ _ _ _ _ Hr IH) as
      [(e & _ & Hf & _)|(g & b & _ & _ & Hg & Hst & _ & Hle & _ & Hf)]; rewrite Hf; [done|].
    by apply disbursed_inv.
Qed.

(** The grants fund pays each approved proposal at most once and what was
    approved: the disbursements have different proposals, each carries the
    recipient and the amount of its grant, exactly the executed grants have one,
    and the balance is the fees received less the disbursements and never
    negative. *)
Theorem grants_paid_once fees f t :
  grants_run fees (f, t) →
  NoDup (map dis_proposal (disbursements f)) ∧
  (∀ d, d ∈ disbursements f → ∃ g, disbursement_of f d g) ∧
  (∀ p g, approved f !! p = Some g →
     (grant_status g = GExecuted ↔ p ∈ map dis_proposal (disbursements f))) ∧
  0 <= dg_balance f ∧ dg_balance f = sumZ fees - sumZ (map dis_amount (disbursements f)).
Proof.
  intros []%grants_run_inv. simpl in *. split; [done|]. split; [done|]. split; [|lia].
  intros p g Hg. split; [by apply gi_executed0|]. intros (d & -> & Hd)%list_elem_of_fmap.
  destruct (gi_approved0 d Hd) as (g' & Hg' & ? & _). congruence.
Qed.

(** C34: Executing a grant is atomic.  In every reachable fund, with a token
    contract whose balances are well formed, the call either fails and leaves the
    fund and the token as they were, or it pays: governance called it for a grant
    that was approved and not paid, the grant is marked as paid, the fund holds the
    approved amount less, and that amount has moved, in the token, from the account
    the call acts for to the key the caller presents, while no other balance has
    changed.  That key carries the approved identifier, which is all that is
    checked of it ([FundsDemo.grant_paid_elsewhere]). *)
Theorem execute_grant_atomic fees f t c p k h ctx w r :
  grants_run fees (f, t) → nonneg_balances t → circulating t <= umax 128 →
  execute_grant c p k h ctx (f, t) = (w, r) →
  (w = (f, t) ∧ ∃ e, r = Err e) ∨
  ∃ g from, r = Ok tt ∧ c = dg_governance f ∧ approved f !! p = Some g ∧ grant_status g = GApproved ∧
    key_id k = grant_recipient g ∧ source_of ctx = Ok from ∧
    approved w.1 !! p = Some (with_executed g) ∧ dg_balance w.1 = dg_balance f - grant_amount g ∧
    ∀ a, balance_of a w.2 = balance_of a t -
      (if decide (a = from) then grant_amount g else 0) + (if decide (a = k) then grant_amount g else 0).
Proof.
  intros Hrun%grants_run_inv Hnn Hcirc Hr. cbn [fst] in Hrun.
  assert (0 <= from_option grant_amount 0 (approved f !! p)) as Hpos.
  { destruct (approved f !! p) as [g|] eqn:Hg; simpl; [|lia]. pose proof (gi_amounts _ _ Hrun p g Hg). lia. }
  destruct (execute_grant_cases _ _ _ _ _ _ _ _ _ _ Hr Hrun) as
    [(e & -> & Hf & Ht)|(g & b & -> & Hc & Hg & Hst & Hk & Hle & Ht & Hf)].
  - left. split; [|eauto]. destruct w as [f' t']; cbn [fst snd] in *. subst f'. f_equal.
    destruct Ht as [(_ & -> & Hno)|Ht]; [|done].
    destruct (transfer ctx k _ t) as [t1 x] eqn:Htr.
    destruct (transfer_cases _ _ _ _ _ _ Htr Hnn Hcirc Hpos) as [[-> _]|(from & _ & _ & _ & -> & _)]; [done|].
    by destruct Hno.
  - right. rewrite Hg in Hpos. simpl in Hpos.
    destruct (transfer_cases _ _ _ _ _ _ Ht Hnn Hcirc Hpos) as [[_ [e He]]|(from & Hs & Hb & _ & _ & Ht')]; [done|].
    exists g, from. repeat (split; [done|]). rewrite Hf. cbn [disbursed]. split; [apply lookup_insert_eq|].
    split; [done|]. intros a. rewrite <- (proj1 (proj2 (moved_spec from k (grant_amount g) t))), Ht'.
    by destruct (0 <? burnt (grant_amount g) t).
Qed.

(** ** The distributor: what a run paid *)

(** Calls on the distributor, with the funds it received and the claims (month,
    citizen and amount) it paid; the token contract and the kernel are used by
    others in between. *)
Inductive ubi_run : list Z → list (Z * Z * Z) → UbiDistributor * Treasury → Prop :=
| ubi_start governance blocks u x : UbiDistributor_new governance blocks = Ok u → ubi_run [] [] (u, x)
| ubi_others fs log u x x' : ubi_run fs log (u, x) → ubi_run fs log (u, x')
| ubi_funded fs log w c amount w' r :
    ubi_run fs log w → 0 <= amount → receive_funds c amount w = (w', r) →
    ubi_run (if is_ok r then amount :: fs else fs) log w'
| ubi_registered fs log w k w' r :
    ubi_run fs log w → ubi_register k w = (w', r) → ubi_run fs log w'
| ubi_batch fs log u x ks :
    ubi_run fs log (u, x) → ubi_run fs log ((register_batch ks u).1, x)
| ubi_month fs log w c month amount w' r :
    ubi_run fs log w → 0 <= amount → set_month_amount c month amount w = (w', r) → ubi_run fs log w'
| ubi_range fs log w c m1 m2 amount w' r :
    ubi_run fs log w → 0 <= amount → set_amount_range c m1 m2 amount w = (w', r) → ubi_run fs log w'
| ubi_intent fs log w citizen amount epoch w' r :
    ubi_run fs log w → record_claim_intent citizen amount epoch w = (w', r) → ubi_run fs log w'
| ubi_claimed fs log w via k h ctx w' r :
    ubi_run fs log w → claim_ubi via k h ctx w = (w', r) →
    ubi_run fs (if is_ok r
                then (month_index h w.1, key_id k, amount_for_month (month_index h w.1) w.1) :: log
                else log) w'.

Record ubi_inv (fs : list Z) (log : list (Z * Z * Z)) (u : UbiDistributor) : Prop := {
  ui_received : ud_received u = sumZ fs ∧ ud_received u <= umax 64;
  ui_balance : 0 <= ud_balance u ∧ ud_balance u + ud_paid u = ud_received u;
  ui_paid : 0 <= ud_paid u ∧ ud_paid u = sumZ (map snd log);
  ui_once : NoDup (map fst log);
  ui_registered : ∀ m id a, (m, id, a) ∈ log → id ∈ registered u;
  ui_marked : ∀ m id, id ∈ paid_in m u ↔ (m, id) ∈ map fst log;
  ui_schedule : ∀ m a, schedule_of u !! m = Some a → 0 <= a;
}.

(** Changes that leave the accounts alone. *)
Lemma ubi_inv_same fs log u u' :
  ubi_inv fs log u → ud_received u' = ud_received u → ud_balance u' = ud_balance u →
  ud_paid u' = ud_paid u → registered u ⊆ registered u' → (∀ m, paid_in m u' = paid_in m u) →
  (∀ m a, schedule_of u' !! m = Some a → 0 <= a) → ubi_inv fs log u'.
Proof.
  intros [] H1 H2 H3 H4 H5 H6. constructor; rewrite ?H1, ?H2, ?H3; try done.
  - intros m id a Hin. by eapply H4, ui_registered0.
  - intros m id. by rewrite H5.
Qed.

Lemma register_batch_same ks u :
  let u' := (register_batch ks u).1 in
  ud_received u' = ud_received u ∧ ud_balance u' = ud_balance u ∧ ud_paid u' = ud_paid u ∧
  registered u ⊆ registered u' ∧ paid u' = paid u ∧ schedule_of u' = schedule_of u.
Proof.
  revert u. induction ks as [|k ks IH]; intros u; [done|]. simpl.
  specialize (IH (set_registered ({[key_id k]} ∪ registered u) u)).
  destruct (register_batch ks _) as [u' n]. simpl in *. destruct IH as (H1 & H2 & H3 & H4 & H5 & H6).
  repeat split; try done. etrans; [|exact H4]. apply union_subseteq_r.
Qed.

Lemma range_schedule amount (m : gmap Z Z) (ks : list Z) k a :
  foldl (λ m k, <[k := amount]> m) m ks !! k = Some a → a = amount ∨ m !! k = Some a.
Proof.
  revert m. induction ks as [|x ks IH]; intros m; simpl; [auto|]. intros [?|Hx]%IH; [auto|].
  destruct (decide (x = k)) as [<-|Hne]; [rewrite lookup_insert_eq in Hx; left; congruence|].
  rewrite lookup_insert_ne in Hx by done. auto.
Qed.

(** The state when the month's set exists. *)
Definition month_opened (m : Z) (u : UbiDistributor) : UbiDistributor :=
  set_paid (<[m := paid_in m u]> (paid u)) u.

Lemma month_opened_same m u m' : paid_in m' (month_opened m u) = paid_in m' u.
Proof.
  unfold paid_in at 1. simpl. destruct (decide (m = m')) as [<-|Hne].
  - by rewrite lookup_insert_eq.
  - by rewrite lookup_insert_ne.
Qed.

Lemma pay_ubi_keeps via ctx k a w : (pay_ubi via ctx k a w).1.1 = w.1.
Proof.
  unfold pay_ubi. destruct via.
  - destruct (source_of ctx); [|done]. by destruct (kernel_transfer _ _ _ _ _) as [t []].
  - by destruct (transfer _ _ _ _) as [t []].
Qed.

Lemma pay_ubi_any via ctx k a u u' x : (pay_ubi via ctx k a (u, x)).2 = (pay_ubi via ctx k a (u', x)).2.
Proof.
  unfold pay_ubi. destruct via; simpl.
  - destruct (source_of ctx); [|done]. by destruct (kernel_transfer _ _ _ _ _) as [t []].
  - by destruct (transfer _ _ _ _) as [t []].
Qed.

(** The state after a claim was paid. *)
Definition claim_paid (m id a : Z) (u : UbiDistributor) : UbiDistributor :=
  set_paid (<[m := {[id]} ∪ paid_in m u]> (paid u))
    (set_ubi_money (ud_balance u - a) (ud_received u) (ud_paid u + a) u).

Lemma claim_ubi_cases via k h ctx fs log u x w r :
  claim_ubi via k h ctx (u, x) = (w, r) → ubi_inv fs log u →
  let m := month_index h u in let a := amount_for_month m u in
  let ready := key_id k ∈ registered u ∧ a ≠ 0 ∧ key_id k ∉ paid_in m u ∧ a <= ud_balance u in
  (¬ (ready ∧ (pay_ubi via ctx k a (u, x)).2 = Ok tt) ∧ (∃ e, r = Err e) ∧
     (w.1 = u ∨ w.1 = month_opened m u)) ∨
  (ready ∧ (pay_ubi via ctx k a (u, x)).2 = Ok tt ∧ r = Ok tt ∧ w.1 = claim_paid m (key_id k) a u).
Proof.
  intros Hr Hi m a ready.
  assert (0 <= a) as Ha.
  { unfold a, amount_for_month. destruct (schedule_of u !! m) eqn:Hs; simpl; [|lia]. by eapply ui_schedule. }
  unfold claim_ubi, on_ubi, bind at 1, gets in Hr. cbn [fst snd] in Hr. fold m a in Hr.
  unfold bind at 1, guard in Hr. destruct (bool_decide_reflect (key_id k ∈ registered u)) as [Hreg|Hreg]; cbv beta iota in Hr;
    [|unfold throw in Hr; injection Hr as <- <-; left; unfold ready; naive_solver].
  unfold ret at 1 in Hr. cbv beta iota in Hr. unfold bind at 1 in Hr.
  destruct (Z.eqb_spec a 0) as [Hz|Hz]; cbn [negb] in Hr;
    [unfold throw in Hr; injection Hr as <- <-; left; unfold ready; naive_solver|].
  unfold ret at 1 in Hr. cbv beta iota in Hr. unfold bind at 1, modify at 1 in Hr. cbn [fst snd] in Hr.
  change (set_paid (<[m:=paid_in m u]> (paid u)) u) with (month_opened m u) in Hr.
  unfold bind at 1 in Hr. destruct (bool_decide_reflect (key_id k ∉ paid_in m u)) as [Hnew|Hnew]; cbv beta iota in Hr;
    [|unfold throw in Hr; injection Hr as <- <-; left; unfold ready; naive_solver].
  unfold ret at 1 in Hr. cbv beta iota in Hr. unfold bind at 1 in Hr.
  destruct (Z.leb_spec a (ud_balance u)) as [Hle|Hle]; cbv beta iota in Hr;
    [|unfold throw in Hr; injection Hr as <- <-; left; unfold ready; split; [lia|]; naive_solver].
  unfold ret at 1 in Hr. cbv beta iota in Hr.
  pose proof (pay_ubi_keeps via ctx k a (month_opened m u, x)) as Hk.
  rewrite (pay_ubi_any via ctx k a u (month_opened m u) x).
  destruct (pay_ubi via ctx k a (month_opened m u, x)) as [[u1 x1] [[]|e]] eqn:Hp; cbn [fst snd] in Hk |- *;
    subst u1.
  - right. split; [done|]. split; [done|]. erewrite bind_step in Hr by exact Hp. destruct Hi.
    assert (checked_sub (ud_balance u) a = Some (ud_balance u - a)) as Hb by (apply checked_sub_Some; lia).
    assert (checked_add 64 (ud_paid u) a = Some (ud_paid u + a)) as Hd by (apply checked_add_Some; lia).
    rewrite Hb, Hd in Hr. unfold bind, lift, ok_or, modify in Hr. cbn [fst snd] in Hr.
    injection Hr as <- <-. split; [done|]. cbn [fst]. unfold claim_paid, month_opened. done.
  - left. erewrite bind_stop in Hr by exact Hp. injection Hr as <- <-. split; [naive_solver|]. eauto.
Qed.

Lemma claim_paid_inv fs log u m id a :
  ubi_inv fs log u → id ∈ registered u → id ∉ paid_in m u → 0 <= a <= ud_balance u →
  ubi_inv fs ((m, id, a) :: log) (claim_paid m id a u).
Proof.
  intros [] Hreg Hnew Ha.
  constructor; cbn [claim_paid set_paid set_ubi_money ud_received ud_balance ud_paid registered schedule_of map fst snd];
    try done; [lia|rewrite sumZ_cons; lia| | |].
  - constructor; [|done]. by rewrite <- ui_marked0.
  - intros m' id' a' [[= -> -> ->]|Hin]%elem_of_cons; [done|eauto].
  - intros m' id'. rewrite elem_of_cons, <- ui_marked0. unfold paid_in at 1. cbn [claim_paid set_paid paid].
    destruct (decide (m = m')) as [<-|Hne].
    + rewrite lookup_insert_eq. cbn [default from_option Datatypes.id]. rewrite elem_of_union, elem_of_singleton. naive_solver.
    + rewrite lookup_insert_ne by done. fold (paid_in m' u). naive_solver.
Qed.

Lemma ubi_run_inv fs log w : ubi_run fs log w → ubi_inv fs log w.1.
Proof.
  induction 1 as [g b u x Hn|fs log u x x' _ IH|fs log [u x] c a w' r _ IH Ha Hr|fs log [u x] k w' r _ IH Hr
    |fs log u x ks _ IH|fs log [u x] c m a w' r _ IH Ha Hr|fs log [u x] c m1 m2 a w' r _ IH Ha Hr
    |fs log [u x] id a ep w' r _ IH Hr|fs log [u x] via k h ctx w' r _ IH Hr]; cbn [fst] in *.
  - unfold UbiDistributor_new in Hn. destruct (b =? 0); [done|]. injection Hn as <-.
    constructor; try done; cbn; try by apply NoDup_nil_2.
    + intros m id a Hin. by apply elem_of_nil in Hin.
    + intros m id. unfold paid_in. simpl. rewrite lookup_empty. set_solver.
  - exact IH.
  - unfold receive_funds, ubi_governance, on_ubi, bind, gets, guard, lift, modify, ret, throw, ok_or in Hr.
    cbn [fst snd] in Hr. case_bool_decide; [|by injection Hr as <- <-].
    destruct (Z.eqb_spec a 0); cbn [negb] in Hr; [by injection Hr as <- <-|]. cbn [fst snd] in Hr.
    destruct (checked_add 64 (ud_received u) a) as [n0|] eqn:Hn; [|by injection Hr as <- <-].
    apply checked_add_Some in Hn as [-> Hn]. destruct IH.
    assert (checked_add 64 (ud_balance u) a = Some (ud_balance u + a)) as Hb by (apply checked_add_Some; lia).
    rewrite Hb in Hr. injection Hr as <- <-. constructor; try done; cbn [is_ok fst set_ubi_money ud_received ud_balance ud_paid];
      rewrite ?sumZ_cons; lia.
  - unfold ubi_register, on_ubi, bind, gets, guard, modify, ret, throw in Hr. cbn [fst snd] in Hr.
    case_bool_decide; injection Hr as <- <-; [|done]. eapply ubi_inv_same; try done; [apply union_subseteq_r|].
    apply IH.
  - destruct (register_batch_same ks u) as (H1 & H2 & H3 & H4 & H5 & H6). eapply ubi_inv_same; try done.
    + intros m. unfold paid_in. by rewrite H5.
    + rewrite H6. apply IH.
  - unfold set_month_amount, ubi_governance, on_ubi, bind, gets, guard, modify, lift, try_amount, ret, throw in Hr.
    cbn [fst snd] in Hr. case_bool_decide; [|by injection Hr as <- <-]. destruct (a =? 0); injection Hr as <- <-; [done|].
    eapply ubi_inv_same; try done. simpl. intros m' a'. destruct (decide (m = m')) as [<-|Hne].
    + rewrite lookup_insert_eq. by intros [= <-].
    + rewrite lookup_insert_ne by done. apply IH.
  - unfold set_amount_range, ubi_governance, on_ubi, bind, gets, guard, modify, lift, try_amount, ret, throw in Hr.
    cbn [fst snd] in Hr. case_bool_decide; [|by injection Hr as <- <-]. destruct (a =? 0); [by injection Hr as <- <-|].
    destruct (m1 <=? m2); injection Hr as <- <-; [|done].
    eapply ubi_inv_same; try done. cbn [fst set_schedule schedule_of]. intros m' a' [->|Hm]%range_schedule; [done|].
    by eapply ui_schedule.
  - unfold record_claim_intent, on_ubi, bind, guard, modify, ret, throw in Hr. cbn [fst snd] in Hr.
    destruct (negb (a =? 0)); injection Hr as <- <-; [|done]. eapply ubi_inv_same; try done. apply IH.
  - destruct (claim_ubi_cases _ _ _ _ _ _ _ _ _ _ Hr IH) as
      [(_ & [e ->] & [->| ->])|((Hreg & Hz & Hnew & Hle) & _ & -> & ->)]; [done| |].
    + eapply ubi_inv_same; try done; [intros m; apply month_opened_same|apply IH].
    + cbn [is_ok]. apply claim_paid_inv; try done. split; [|done]. unfold amount_for_month.
      destruct (schedule_of u !! _) eqn:Hs; simpl; [|lia]. by eapply ui_schedule.
Qed.

(** The distributor pays a citizen at most once a month, only if registered,
    and its balance is what it received less what it paid, never negative.  A
    claim succeeds exactly if the citizen is registered and not paid for the
    month, the month has an amount, the balance covers it and the tokens move. *)
Theorem ubi_paid_once_a_month fs log u x :
  ubi_run fs log (u, x) →
  NoDup (map fst log) ∧
  (∀ m id a, (m, id, a) ∈ log → id ∈ registered u ∧ id ∈ paid_in m u) ∧
  0 <= ud_balance u ∧ ud_balance u = sumZ fs - sumZ (map snd log) ∧
  ∀ via k h ctx, let m := month_index h u in let a := amount_for_month m u in
    (claim_ubi via k h ctx (u, x)).2 = Ok tt ↔
    key_id k ∈ registered u ∧ a ≠ 0 ∧ key_id k ∉ paid_in m u ∧ a <= ud_balance u ∧
    (pay_ubi via ctx k a (u, x)).2 = Ok tt.
Proof.
  intros Hi%ubi_run_inv. cbn [fst] in Hi. pose proof Hi as []. split; [done|]. split.
  { intros m id a Hin. split; [eauto|]. apply ui_marked0. by apply (list_elem_of_fmap_2 fst _ (m, id, a)). }
  split; [lia|]. split; [lia|]. intros via k h ctx m a.
  destruct (claim_ubi via k h ctx (u, x)) as [w r] eqn:Hr. cbn [snd].
  destruct (claim_ubi_cases _ _ _ _ _ _ _ _ _ _ Hr Hi) as [(Hno & [e ->] & _)|(Hready & Hp & -> & _)];
    fold m a in Hno || fold m a in Hready, Hp; naive_solver.
Qed.

(** ** Small runs *)
Module FundsDemo.

#[local] Instance env : ConsensusEnv := {|
  Chain := unit;
  get_blockchain_height _ := Some 0;
  get_latest_block_hash _ := Some 0;
  is_ready _ := true;
  get_pending_transactions _ := Some [];
  decode_block_data _ := true;
  commit_finalized_block_with_proof _ _ c := (c, true);
  hash_blake3 := sumZ;
  dilithium_sign k m := (k + sumZ m) :: replicate 4594 0;
  dilithium_verify k m s := match s with x :: _ => x =? k + sumZ m | [] => false end;
  unix_time _ := 0;
  verify_other_proof _ _ := Some true;
  create_consensus_proof _ _ := None;
  distribute_rewards _ _ := true;
  env_voting_power := λ s storage, wadd 64 s storage;
  activity_time _ _ := 0;
  vote_time _ := 0;
  iter_votes := map_to_list;
|}.

(** Two of the signers 1, 2 and 3. *)
Definition reserve0 (n : Z) : EmergencyReserve := {|
  er_initialized := true; authorized_fee_collector := demo_key 9; signers := [demo_key 1; demo_key 2; demo_key 3];
  threshold := n; er_received := 0; er_withdrawn := 0; received_by_period := ∅; last_period_id := 0;
  next_nonce := 1; contract_id := 77 |}.

Definition reserve1 (n : Z) : EmergencyReserve := (reserve_credit (demo_key 9) 100 4 (reserve0 n)).1.

Definition blank (sigs : list Signature) : Withdrawal := {|
  w_to := demo_key 5; w_amount := 40; w_nonce := 1; w_expiry := 6; w_period := 5; w_sigs := sigs |}.

(** The first withdrawal, signed by 2 and 3. *)
Definition w1 : Withdrawal :=
  blank (map (λ i, sign (demo_key i) (withdrawal_digest (reserve0 2) (blank []))) [2; 3]).

Definition draw (w : Withdrawal) (r : EmergencyReserve) : EmergencyReserve * result unit ReserveError :=
  reserve_withdraw (w_to w) (w_amount w) (w_nonce w) (w_expiry w) (w_period w) (w_sigs w) r.

Lemma reserve1_run n : 1 <= n <= 3 → reserve_run [(4, 100)] [] (reserve1 n).
Proof.
  intros Hn. refine (reserve_credited [] [] (reserve0 n) (demo_key 9) 100 4 _ (Ok tt) _ _ _); [|lia|].
  - apply (reserve_start (demo_key 9) [demo_key 1; demo_key 2; demo_key 3] n 77); [lia|].
    assert (n = 1 ∨ n = 2 ∨ n = 3) as [->|[->| ->]] by lia; vm_compute; reflexivity.
  - reflexivity.
Qed.

Lemma withdrawals_authorized_witness :
  (draw w1 (reserve1 2)).2 = Ok tt ∧
  reserve_balance (draw w1 (reserve1 2)).1 = Ok (sumZ (map snd [(4, 100)]) - sumZ (map w_amount [w1])).
Proof.
  split; [vm_compute; reflexivity|].
  apply (withdrawals_authorized [(4, 100)] [w1] (draw w1 (reserve1 2)).1).
  refine (reserve_withdrawn [(4, 100)] [] (reserve1 2) w1 _ (Ok tt) _ _ _).
  - apply reserve1_run. lia.
  - vm_compute. discriminate.
  - vm_compute. reflexivity.
Defined.

(** Bytes of the length of a key, without any signature, withdraw from a reserve
    whose threshold is one. *)
Example placeholder_withdraws :
  let s := {| signature := replicate 2592 0; public_key := demo_key 6; algorithm := 0; sig_timestamp := 0 |} in
  (draw (blank [s]) (reserve1 1)).2 = Ok tt ∧ (draw (blank [s]) (reserve1 2)).2 = Err (TooFewSignatures 1 2).
Proof. split; vm_compute; reflexivity. Qed.

(** *** Grants *)

Definition fund0 : DevGrantsFund * TokenContract := (DevGrants_new (demo_key 8), demo_token false false).
Definition fund1 := (receive_fees (demo_key 8) 500 fund0).1.
Definition fund2 := (approve_grant (demo_key 8) 1 (demo_key 5) 200 10 fund1).1.
Definition pay (k : PublicKey) := execute_grant (demo_key 8) 1 k 11 (demo_ctx 1) fund2.
Definition fund3 := (pay (demo_key 5)).1.

Lemma fund2_run : grants_run [500] fund2.
Proof.
  refine (grants_approved [500] fund1 (demo_key 8) 1 (demo_key 5) 200 10 _ (Ok tt) _ _ _);
    [|lia|vm_compute; reflexivity].
  refine (grants_received [] fund0 (demo_key 8) 500 _ (Ok tt) _ _ _); [constructor|lia|vm_compute; reflexivity].
Qed.

Lemma grants_paid_once_witness :
  map dis_amount (disbursements fund3.1) = [200] ∧
  dg_balance fund3.1 = sumZ [500] - sumZ (map dis_amount (disbursements fund3.1)).
Proof.
  split; [vm_compute; reflexivity|]. apply (grants_paid_once [500] fund3.1 fund3.2).
  rewrite <- surjective_pairing.
  refine (grants_executed [500] fund2 (demo_key 8) 1 (demo_key 5) 11 (demo_ctx 1) _ (Ok tt) _ _);
    [apply fund2_run|vm_compute; reflexivity].
Defined.

Lemma execute_grant_atomic_witness :
  (fund3 = (fund2.1, fund2.2) ∧ ∃ e, (pay (demo_key 5)).2 = Err e) ∨
  ∃ g from, (pay (demo_key 5)).2 = Ok tt ∧ demo_key 8 = dg_governance fund2.1 ∧
    approved fund2.1 !! 1 = Some g ∧ grant_status g = GApproved ∧
    key_id (demo_key 5) = grant_recipient g ∧ source_of (demo_ctx 1) = Ok from ∧
    approved fund3.1 !! 1 = Some (with_executed g) ∧
    dg_balance fund3.1 = dg_balance fund2.1 - grant_amount g ∧
    ∀ a, balance_of a fund3.2 = balance_of a fund2.2 -
      (if decide (a = from) then grant_amount g else 0) +
      (if decide (a = demo_key 5) then grant_amount g else 0).
Proof.
  apply (execute_grant_atomic [500] fund2.1 fund2.2 (demo_key 8) 1 (demo_key 5) 11 (demo_ctx 1)).
  - rewrite <- surjective_pairing. apply fund2_run.
  - exact (wf_nonneg _ (demo_token_wf false false)).
  - vm_compute. discriminate.
  - rewrite <- surjective_pairing. apply surjective_pairing.
Defined.

(** The approval fixes the identifier of the recipient only: the grant goes to
    whatever key carries it, and the account that was approved gets nothing. *)
Example grant_paid_elsewhere :
  let other := {| dilithium_pk := 666; kyber_pk := 0; key_id := 5 |} in
  (pay other).2 = Ok tt ∧ balance_of other (pay other).1.2 = 200 ∧
  balance_of (demo_key 5) (pay other).1.2 = 0.
Proof. vm_compute. repeat split. Qed.

(** *** UBI *)

Definition treasury0 : Treasury := {|
  kernel := TreasuryKernel_new (demo_key 8) (demo_key 9) 100; token := demo_token false false;
  vesting := VestingState_new |}.

Definition ubi0 : UbiDistributor * Treasury :=
  match UbiDistributor_new (demo_key 8) 1000 with
  | Ok u => ((register_batch [demo_key 3; demo_key 4; demo_key 3] u).1, treasury0)
  | Err _ => ({| ud_governance := demo_key 8; blocks_per_month := 0; ud_balance := 0; ud_received := 0;
                 ud_paid := 0; registered := ∅; paid := ∅; schedule_of := ∅; claim_events := ∅ |}, treasury0)
  end.
Definition ubi1 := (receive_funds (demo_key 8) 500 ubi0).1.
Definition ubi2 := (set_amount_range (demo_key 8) 1 3 100 ubi1).1.
Definition ubi3 := (claim_ubi false (demo_key 3) 2500 (demo_ctx 1) ubi2).1.

Lemma ubi3_run : ubi_run [500] [(2, 3, 100)] ubi3.
Proof.
  refine (ubi_claimed [500] [] ubi2 false (demo_key 3) 2500 (demo_ctx 1) _ (Ok tt) _ _); [|vm_compute; reflexivity].
  refine (ubi_range [500] [] ubi1 (demo_key 8) 1 3 100 _ (Ok tt) _ _ _); [|lia|vm_compute; reflexivity].
  refine (ubi_funded [] [] ubi0 (demo_key 8) 500 _ (Ok tt) _ _ _); [|lia|vm_compute; reflexivity].
  apply ubi_batch. by eapply (ubi_start (demo_key 8) 1000).
Qed.

Lemma ubi_paid_once_a_month_witness :
  NoDup (map fst [(2, 3, 100)]) ∧ 0 <= ud_balance ubi3.1 ∧
  (claim_ubi true (demo_key 3) 2999 (demo_ctx 1) (ubi3.1, ubi3.2)).2 = Err AlreadyPaidThisMonth ∧
  (claim_ubi true (demo_key 4) 2999 (demo_ctx 1) (ubi3.1, ubi3.2)).2 = Ok tt.
Proof.
  destruct (ubi_paid_once_a_month [500] [(2, 3, 100)] ubi3.1 ubi3.2) as (H1 & _ & H2 & _ & H3).
  { rewrite <- surjective_pairing. apply ubi3_run. }
  split; [exact H1|]. split; [exact H2|]. split; [vm_compute; reflexivity|].
  apply H3. vm_compute. repeat split; intros; discriminate.
Defined.

(** Anyone that presents a registered identifier under another key collects the
    payment of the citizen it belongs to. *)
Example ubi_paid_elsewhere :
  let thief := {| dilithium_pk := 666; kyber_pk := 0; key_id := 3 |} in
  let '(w, r) := claim_ubi false thief 2500 (demo_ctx 1) ubi2 in
  r = Ok tt ∧ balance_of thief (token w.2) = 100 ∧
  (claim_ubi false (demo_key 3) 2500 (demo_ctx 1) w).2 = Err AlreadyPaidThisMonth.
Proof. vm_compute. repeat split. Qed.

(** Intents name no caller and any amount: somebody records one unit for citizen 1
    before the citizen asks for 1000, and the kernel, which takes the intents of an
    epoch in order, pays the one unit and refuses the rest. *)
Example intent_by_anyone :
  let intend := λ a w, (record_claim_intent 1 a 3 w).1 in
  let claims := query_ubi_claims 3 (intend 1000 (intend 1 ubi0)).1 in
  let '((k, _), (n, m)) :=
    process_ubi_claims_with_minting (H := UbiDemo.hash) claims UbiDemo.registry 3 None (KernelState_new, None) in
  map claim_amount claims = [1; 1000] ∧ get_distributed 3 k = 1 ∧ (n, m) = (1, 1).
Proof. vm_compute. repeat split. Qed.

End FundsDemo.
