(* ===== verification/Replication.v ===== *)
(** * Replicated data (lib-storage consistency)

    [consistency/vector_clock.rs], the replicated data types of
    [consistency/crdt.rs] (last-write-wins registers, grow-only and
    positive-negative counters, observed-remove sets), the conflict resolver of
    [consistency/conflict.rs] and the read and write quorums of
    [consistency/quorum.rs].  Byte arrays are numbers;
    hash maps are finite maps, and loops over them are folds whose
    result does not depend on the order.  Sums of [u64] wrap around. *)
From stdpp Require Import base tactics numbers list option gmap fin_maps fin_sets relations strings.
From S2P Require Import Prelude TokenCore Memo Validators Consensus.

(** [lib-types/src/node_id.rs]: equality is that of the three fields, the order
    that of the first. *)
Record NodeId : Type := { nid_bytes : Z; creation_nonce : Z; network_genesis : Z }.

#[export] Instance NodeId_eq_dec : EqDecision NodeId.
Proof. solve_decision. Defined.

#[export] Program Instance NodeId_countable : Countable NodeId :=
  inj_countable' (λ n, (nid_bytes n, creation_nonce n, network_genesis n))
    (λ '(b, c, g), {| nid_bytes := b; creation_nonce := c; network_genesis := g |}) _.
Next Obligation. by intros []. Qed.

(** [NodeId::cmp], for the comparison the code makes. *)
Definition node_lt (a b : NodeId) : bool := nid_bytes a <? nid_bytes b.

(** ** Vector clocks *)

Notation VectorClock := (gmap NodeId Z).

Definition vc_new : VectorClock := ∅.

Definition vc_get (n : NodeId) (c : VectorClock) : Z := default 0 (c !! n).

(** The counter stays at its maximum. *)
Definition vc_increment (n : NodeId) (c : VectorClock) : VectorClock :=
  let counter := vc_get n c in
  <[n := if counter =? umax 64 then counter else counter + 1]> c.

Definition vc_merge (self other : VectorClock) : VectorClock :=
  map_fold (λ n v acc, <[n := Z.max (vc_get n acc) v]> acc) self other.

Definition happens_before (self other : VectorClock) : bool :=
  forallb (λ p, p.2 <=? vc_get p.1 other) (map_to_list self) &&
  (existsb (λ p, p.2 <? vc_get p.1 other) (map_to_list self) ||
   existsb (λ p, bool_decide (self !! p.1 = None) && (0 <? p.2)) (map_to_list other)).

Definition happens_after (self other : VectorClock) : bool := happens_before other self.

Definition concurrent (self other : VectorClock) : bool :=
  negb (happens_before self other) && negb (happens_before other self) &&
  negb (bool_decide (self = other)).

Inductive ClockOrdering : Type := Equal | Before | After | Concurrent.

Definition compare (self other : VectorClock) : ClockOrdering :=
  if bool_decide (self = other) then Equal
  else if happens_before self other then Before
  else if happens_after self other then After
  else Concurrent.

Definition from_node (n : NodeId) (value : Z) : VectorClock := {[n := value]}.
Definition max_clock (c : VectorClock) : Z := map_fold (λ _ v acc, Z.max v acc) 0 c.
Definition total_clock (c : VectorClock) : Z := as_u 64 (msum (λ _ v, v) c).

(** ** Conflict resolution *)

Inductive ConflictStrategy : Type := LastWriteWins | KeepAll | Custom.

Inductive Resolution (T : Type) : Type := Single (v : T) | Multiple (vs : list T).
Arguments Single {T} v.
Arguments Multiple {T} vs.

Definition resolve_lww {T : Type} (v1 : T) (c1 : VectorClock) (v2 : T) (c2 : VectorClock) : Resolution T :=
  match compare c1 c2 with
  | Before => Single v2
  | After => Single v1
  | Equal => Single v1
  | Concurrent => Multiple [v1; v2]
  end.

Definition resolve {T : Type} (s : ConflictStrategy) (v1 : T) (c1 : VectorClock) (v2 : T)
    (c2 : VectorClock) : Resolution T :=
  match s with
  | LastWriteWins => resolve_lww v1 c1 v2 c2
  | KeepAll | Custom => Multiple [v1; v2]
  end.

(** ** Registers *)

Record LWWRegister (T : Type) : Type := { lww_value : T; lww_timestamp : VectorClock; lww_node : NodeId }.
Arguments lww_value {T} _.
Arguments lww_timestamp {T} _.
Arguments lww_node {T} _.

Definition LWWRegister_new {T : Type} (v : T) (n : NodeId) : LWWRegister T :=
  {| lww_value := v; lww_timestamp := vc_increment n vc_new; lww_node := n |}.

Definition lww_set {T : Type} (v : T) (r : LWWRegister T) : LWWRegister T :=
  {| lww_value := v; lww_timestamp := vc_increment (lww_node r) (lww_timestamp r);
     lww_node := lww_node r |}.

Definition lww_merge {T : Type} (self other : LWWRegister T) : LWWRegister T :=
  if happens_after (lww_timestamp other) (lww_timestamp self) then
    {| lww_value := lww_value other; lww_timestamp := lww_timestamp other; lww_node := lww_node other |}
  else if concurrent (lww_timestamp other) (lww_timestamp self) then
    if node_lt (lww_node self) (lww_node other) then
      {| lww_value := lww_value other; lww_timestamp := lww_timestamp other; lww_node := lww_node other |}
    else self
  else self.

(** ** Counters *)

Record GCounter : Type := { counters : gmap NodeId Z }.

Definition GCounter_new : GCounter := {| counters := ∅ |}.

Definition get_node_value (n : NodeId) (g : GCounter) : Z := default 0 (counters g !! n).

Definition gc_increment (n : NodeId) (amount : Z) (g : GCounter) : GCounter :=
  {| counters := <[n := wadd 64 (get_node_value n g) amount]> (counters g) |}.

Definition gc_value (g : GCounter) : Z := as_u 64 (msum (λ _ v, v) (counters g)).

Definition gc_merge (self other : GCounter) : GCounter :=
  {| counters := map_fold (λ n v acc, <[n := Z.max (default 0 (acc !! n)) v]> acc)
                   (counters self) (counters other) |}.

Record PNCounter : Type := { positive : GCounter; negative : GCounter }.

Definition PNCounter_new : PNCounter := {| positive := GCounter_new; negative := GCounter_new |}.

Definition pn_increment (n : NodeId) (amount : Z) (p : PNCounter) : PNCounter :=
  {| positive := gc_increment n amount (positive p); negative := negative p |}.

Definition pn_decrement (n : NodeId) (amount : Z) (p : PNCounter) : PNCounter :=
  {| positive := positive p; negative := gc_increment n amount (negative p) |}.

(** A cast to [i64]. *)
Definition as_i64 (z : Z) : Z := (z + 2 ^ 63) mod 2 ^ 64 - 2 ^ 63.

Definition pn_value (p : PNCounter) : Z :=
  as_i64 (as_i64 (gc_value (positive p)) - as_i64 (gc_value (negative p))).

Definition pn_merge (self other : PNCounter) : PNCounter :=
  {| positive := gc_merge (positive self) (positive other);
     negative := gc_merge (negative self) (negative other) |}.

(** ** Observed-remove sets *)

Section ORSet.
Context {T : Type} `{Countable T}.

Record ORSet : Type := { elements_of : gmap T (list (NodeId * Z)) }.

Definition ORSet_new : ORSet := {| elements_of := ∅ |}.

Definition tags_of (x : T) (s : ORSet) : list (NodeId * Z) := default [] (elements_of s !! x).

Definition or_add (x : T) (n : NodeId) (timestamp : Z) (s : ORSet) : ORSet :=
  {| elements_of := <[x := tags_of x s ++ [(n, timestamp)]]> (elements_of s) |}.

Definition or_remove (x : T) (observed : list (NodeId * Z)) (s : ORSet) : ORSet * bool :=
  match elements_of s !! x with
  | None => (s, false)
  | Some tags =>
      let tags' := filter (λ t, t ∉ observed) tags in
      if bool_decide (tags' = []) then ({| elements_of := delete x (elements_of s) |}, true)
      else ({| elements_of := <[x := tags']> (elements_of s) |}, false)
  end.

Definition or_remove_all (x : T) (s : ORSet) : ORSet * option (list (NodeId * Z)) :=
  ({| elements_of := delete x (elements_of s) |}, elements_of s !! x).

Definition or_contains (x : T) (s : ORSet) : bool := bool_decide (is_Some (elements_of s !! x)).

Fixpoint add_tags (ours theirs : list (NodeId * Z)) : list (NodeId * Z) :=
  match theirs with
  | [] => ours
  | t :: theirs' => add_tags (if bool_decide (t ∈ ours) then ours else ours ++ [t]) theirs'
  end.

Definition or_merge (self other : ORSet) : ORSet :=
  {| elements_of := map_fold (λ x tags acc, <[x := add_tags (default [] (acc !! x)) tags]> acc)
                      (elements_of self) (elements_of other) |}.

End ORSet.
Arguments ORSet T {_ _}.

(** ** Quorums *)

Record QuorumConfig : Type := { qn : Z; qr : Z; qw : Z }.

Inductive QuorumError : Type :=
| NotStrong | ZeroQuorum | QuorumTooLarge | NodeCountMismatch | NodePresent | AddViolates (r w n : Z)
| RemoveViolates (r w n : Z) | ConfigMismatch (n members : Z).

(** Sizes are [usize]. *)
Definition QuorumConfig_new (n r w : Z) : result QuorumConfig QuorumError :=
  if wadd 64 r w <=? n then Err NotStrong
  else if (r =? 0) || (w =? 0) then Err ZeroQuorum
  else if (n <? r) || (n <? w) then Err QuorumTooLarge
  else Ok {| qn := n; qr := r; qw := w |}.

Definition majority (n : Z) : result QuorumConfig QuorumError :=
  QuorumConfig_new n (n / 2 + 1) (n / 2 + 1).
Definition read_heavy (n : Z) : result QuorumConfig QuorumError :=
  QuorumConfig_new n (n / 3 + 1) (wadd 64 (wsub 64 n (n / 3 + 1)) 1).
Definition write_heavy (n : Z) : result QuorumConfig QuorumError :=
  QuorumConfig_new n (wadd 64 (wsub 64 n (n / 3 + 1)) 1) (n / 3 + 1).

Definition is_strongly_consistent (c : QuorumConfig) : bool := qn c <? wadd 64 (qr c) (qw c).

Record QuorumManager : Type := { config : QuorumConfig; nodes : gset NodeId }.

Inductive QuorumResult : Type := Met (required actual : Z) | NotMet (required actual : Z).

Definition is_met (q : QuorumResult) : bool := match q with Met _ _ => true | NotMet _ _ => false end.

Definition QuorumManager_new (c : QuorumConfig) (ns : list NodeId) : result QuorumManager QuorumError :=
  if negb (lenZ ns =? qn c) then Err NodeCountMismatch
  else Ok {| config := c; nodes := list_to_set ns |}.

Definition sizeZ (s : gset NodeId) : Z := Z.of_nat (size s).

(** The members among the nodes that responded. *)
Definition valid_responses (responding : list NodeId) (m : QuorumManager) : gset NodeId :=
  list_to_set (filter (λ n, n ∈ nodes m) responding).

Definition check_quorum (required actual : Z) : QuorumResult :=
  if required <=? actual then Met required actual else NotMet required actual.

Definition check_read_quorum (responding : list NodeId) (m : QuorumManager) : QuorumResult :=
  check_quorum (qr (config m)) (sizeZ (valid_responses responding m)).
Definition check_write_quorum (responding : list NodeId) (m : QuorumManager) : QuorumResult :=
  check_quorum (qw (config m)) (sizeZ (valid_responses responding m)).

Definition with_nodes (ns : gset NodeId) (m : QuorumManager) : QuorumManager :=
  {| config := {| qn := sizeZ ns; qr := qr (config m); qw := qw (config m) |}; nodes := ns |}.

Definition add_node (id : NodeId) : M QuorumManager QuorumError unit :=
  m <- gets (λ m, m) ;;
  guard (bool_decide (id ∉ nodes m)) NodePresent ;;;
  let ns := {[id]} ∪ nodes m in
  guard (negb ((sizeZ ns <? qr (config m)) || (sizeZ ns <? qw (config m))))
    (AddViolates (qr (config m)) (qw (config m)) (sizeZ ns)) ;;;
  modify (with_nodes ns).

Definition remove_node (id : NodeId) : M QuorumManager QuorumError bool :=
  m <- gets (λ m, m) ;;
  if bool_decide (id ∉ nodes m) then ret false else
  let n_after := saturating_sub (sizeZ (nodes m)) 1 in
  guard (negb ((n_after <? qr (config m)) || (n_after <? qw (config m))))
    (RemoveViolates (qr (config m)) (qw (config m)) n_after) ;;;
  modify (λ m, {| config := {| qn := n_after; qr := qr (config m); qw := qw (config m) |};
                  nodes := nodes m ∖ {[id]} |}) ;;;
  ret true.

Definition reconfigure (c : QuorumConfig) : M QuorumManager QuorumError unit :=
  m <- gets (λ m, m) ;;
  guard (qn c =? sizeZ (nodes m)) (ConfigMismatch (qn c) (sizeZ (nodes m))) ;;;
  guard (negb ((sizeZ (nodes m) <? qr c) || (sizeZ (nodes m) <? qw c))) QuorumTooLarge ;;;
  guard (is_strongly_consistent c) NotStrong ;;;
  modify (λ m, {| config := c; nodes := nodes m |}).

Record SignedQuorumResponse : Type := {
  resp_node : NodeId; resp_payload : list Z; resp_signature : Signature;
}.

Section Signed.
Context `{ConsensusEnv}.

(** [now] is the clock. *)
Definition verify_response (now skew : Z) (keys : gmap NodeId PublicKey) (m : QuorumManager)
    (p : SignedQuorumResponse) : bool :=
  if bool_decide (resp_node p ∉ nodes m) then false
  else if saturating_add 64 now skew <? sig_timestamp (resp_signature p) then false
  else match keys !! resp_node p with
  | None => false
  | Some pk =>
      if negb (key_id pk =? key_id (public_key (resp_signature p))) then false
      else verify pk (resp_payload p) (resp_signature p)
  end.

Definition count_verified (now skew : Z) (keys : gmap NodeId PublicKey) (m : QuorumManager)
    (ps : list SignedQuorumResponse) : Z :=
  lenZ (List.filter (verify_response now skew keys m) ps).

Definition check_signed_read_quorum (now skew : Z) (keys : gmap NodeId PublicKey)
    (ps : list SignedQuorumResponse) (m : QuorumManager) : QuorumResult :=
  check_quorum (qr (config m)) (count_verified now skew keys m ps).
Definition check_signed_write_quorum (now skew : Z) (keys : gmap NodeId PublicKey)
    (ps : list SignedQuorumResponse) (m : QuorumManager) : QuorumResult :=
  check_quorum (qw (config m)) (count_verified now skew keys m ps).

End Signed.

(** ** Merging *)

(** What the types of [crdt.rs] promise to the code that exchanges replicas:
    merging states that satisfy [ok] is commutative, associative and idempotent
    up to [eqv], the states clients can tell apart. *)
Class Mergeable (A : Type) : Type := { eqv : relation A; mrg : A → A → A; ok : A → Prop }.

Class MergeLaws (A : Type) `{Mergeable A} : Prop := {
  eqv_equivalence :: Equivalence eqv;
  mrg_proper :: Proper (eqv ==> eqv ==> eqv) mrg;
  mrg_ok a b : ok a → ok b → ok (mrg a b);
  mrg_comm a b : ok a → ok b → eqv (mrg a b) (mrg b a);
  mrg_assoc a b c : ok a → ok b → ok c → eqv (mrg a (mrg b c)) (mrg (mrg a b) c);
  mrg_idem a : ok a → eqv (mrg a a) a;
}.

Section Lattice.
Context {A : Type} `{MergeLaws A}.

(** [b] has seen everything [a] has. *)
Definition below (a b : A) : Prop := eqv (mrg a b) b.

#[local] Instance below_proper : Proper (eqv ==> eqv ==> iff) below.
Proof. intros a a' Ha b b' Hb. unfold below. by rewrite Ha, Hb. Qed.

Lemma below_trans a b c : ok a → ok b → ok c → below a b → below b c → below a c.
Proof.
  unfold below. intros Ha Hb Hc Hab Hbc. rewrite <- Hbc at 1.
  rewrite mrg_assoc, Hab by done. exact Hbc.
Qed.

Lemma below_mrg_l a b : ok a → ok b → below a (mrg a b).
Proof. intros Ha Hb. unfold below. by rewrite mrg_assoc, mrg_idem by done. Qed.

Lemma below_mrg_r a b : ok a → ok b → below b (mrg a b).
Proof. intros Ha Hb. rewrite (mrg_comm a b) by done. by apply below_mrg_l. Qed.

Lemma mrg_least a b c : ok a → ok b → ok c → below a c → below b c → below (mrg a b) c.
Proof. unfold below. intros Ha Hb Hc Hac Hbc. by rewrite <- mrg_assoc, Hbc by done. Qed.

Lemma below_antisym a b : ok a → ok b → below a b → below b a → eqv a b.
Proof. unfold below. intros Ha Hb Hab Hba. rewrite <- Hab, (mrg_comm a b) by done. by symmetry. Qed.

Lemma merge_all_ok s l : ok s → Forall ok l → ok (foldl mrg s l).
Proof. intros Hs Hl. revert s Hs. induction Hl as [|x l Hx _ IH]; intros s Hs; simpl; [done|]. by apply IH, mrg_ok. Qed.

Lemma merge_all_upper s l : ok s → Forall ok l → below s (foldl mrg s l) ∧ ∀ x, x ∈ l → below x (foldl mrg s l).
Proof.
  intros Hs Hl. revert s Hs. induction Hl as [|y l Hy Hl IH]; intros s Hs; simpl.
  - split; [by apply mrg_idem|]. intros x Hx. by apply elem_of_nil in Hx.
  - assert (ok (mrg s y)) as Hsy by by apply mrg_ok. destruct (IH _ Hsy) as [IH1 IH2].
    pose proof (merge_all_ok _ _ Hsy Hl) as Hok. split.
    + by apply (below_trans _ (mrg s y)); [| | |apply below_mrg_l|].
    + intros x [->|Hx]%elem_of_cons; [|by apply IH2].
      by apply (below_trans _ (mrg s y)); [| | |apply below_mrg_r|].
Qed.

Lemma merge_all_least s l u :
  ok s → Forall ok l → ok u → below s u → (∀ x, x ∈ l → below x u) → below (foldl mrg s l) u.
Proof.
  intros Hs Hl Hu. revert s Hs. induction Hl as [|y l Hy Hl IH]; intros s Hs Hsu Hlu; simpl; [done|].
  apply IH; [by apply mrg_ok| |intros x Hx; apply Hlu; by right].
  apply mrg_least; try done. apply Hlu. by left.
Qed.

(** The order of merges and repeated merges do not matter. *)
Lemma merge_all_same s l1 l2 :
  ok s → Forall ok l1 → Forall ok l2 → (∀ x, x ∈ l1 ↔ x ∈ l2) →
  eqv (foldl mrg s l1) (foldl mrg s l2).
Proof.
  intros Hs H1 H2 Hl. destruct (merge_all_upper s l1 Hs H1), (merge_all_upper s l2 Hs H2).
  pose proof (merge_all_ok s l1 Hs H1). pose proof (merge_all_ok s l2 Hs H2).
  apply below_antisym; try done; apply merge_all_least; try done; intros x Hx; naive_solver.
Qed.

End Lattice.

(** *** Merges of maps *)

Lemma fold_insert_lookup `{Countable K} {B C : Type} (g : option B → C → B) (a : gmap K B) (b : gmap K C) k :
  map_fold (λ k v acc, <[k := g (acc !! k) v]> acc) a b !! k =
  match b !! k with None => a !! k | Some v => Some (g (a !! k) v) end.
Proof.
  revert k. apply (map_fold_weak_ind (λ acc m, ∀ k, acc !! k =
    match m !! k with None => a !! k | Some v => Some (g (a !! k) v) end)).
  - intros k. by rewrite lookup_empty.
  - intros i x m acc Hi IH k. destruct (decide (i = k)) as [<-|Hne].
    + rewrite !lookup_insert_eq, IH, Hi. done.
    + by rewrite !lookup_insert_ne.
Qed.

Definition nonneg_map (c : gmap NodeId Z) : Prop := ∀ n v, c !! n = Some v → 0 <= v.

Definition max_merge (a b : gmap NodeId Z) : gmap NodeId Z :=
  map_fold (λ n v acc, <[n := Z.max (default 0 (acc !! n)) v]> acc) a b.

Lemma max_merge_lookup a b n :
  max_merge a b !! n =
  match b !! n with None => a !! n | Some v => Some (Z.max (default 0 (a !! n)) v) end.
Proof. apply (fold_insert_lookup (λ o v, Z.max (default 0 o) v)). Qed.

Lemma max_merge_union a b :
  nonneg_map a → nonneg_map b → max_merge a b = union_with (λ x y, Some (Z.max x y)) a b.
Proof.
  intros Ha Hb. apply map_eq. intros n. rewrite max_merge_lookup, lookup_union_with.
  destruct (a !! n) as [x|] eqn:Hx, (b !! n) as [y|] eqn:Hy; simpl; try done.
  f_equal. pose proof (Hb n y Hy). lia.
Qed.

Lemma nonneg_merge a b : nonneg_map a → nonneg_map b → nonneg_map (max_merge a b).
Proof.
  intros Ha Hb n v. rewrite max_merge_lookup. destruct (b !! n) as [y|] eqn:Hy; [|apply Ha].
  intros [= <-]. pose proof (Hb n y Hy). lia.
Qed.

Lemma max_merge_comm a b : nonneg_map a → nonneg_map b → max_merge a b = max_merge b a.
Proof.
  intros Ha Hb. rewrite !max_merge_union by done. apply map_eq. intros n. rewrite !lookup_union_with.
  destruct (a !! n), (b !! n); simpl; try done. f_equal. lia.
Qed.

Lemma max_merge_assoc a b c :
  nonneg_map a → nonneg_map b → nonneg_map c →
  max_merge a (max_merge b c) = max_merge (max_merge a b) c.
Proof.
  intros Ha Hb Hc. apply map_eq. intros n. rewrite !max_merge_lookup.
  destruct (a !! n) as [x|] eqn:Hx, (b !! n) as [y|] eqn:Hy, (c !! n) as [z|] eqn:Hz; simpl; try done;
    f_equal; try (pose proof (Hb n y Hy)); try (pose proof (Hc n z Hz)); lia.
Qed.

Lemma max_merge_idem a : nonneg_map a → max_merge a a = a.
Proof.
  intros Ha. apply map_eq. intros n. rewrite max_merge_lookup. destruct (a !! n) as [x|] eqn:Hx; [|done].
  simpl. f_equal. lia.
Qed.

Lemma vc_get_merge a b n : nonneg_map a → nonneg_map b → vc_get n (max_merge a b) = Z.max (vc_get n a) (vc_get n b).
Proof.
  intros Ha Hb. unfold vc_get. rewrite max_merge_lookup.
  destruct (a !! n) as [x|] eqn:Hx, (b !! n) as [y|] eqn:Hy; simpl; try done;
    try (pose proof (Ha n x Hx)); lia.
Qed.

Lemma vc_get_nonneg c n : nonneg_map c → 0 <= vc_get n c.
Proof. intros Hc. unfold vc_get. destruct (c !! n) eqn:Hn; simpl; [eauto|lia]. Qed.

(** *** The instances *)

(** Counters; equality of maps is what clients can tell apart. *)
#[export] Instance gcounter_mergeable : Mergeable GCounter :=
  {| eqv := eq; mrg := gc_merge; ok := λ g, nonneg_map (counters g) |}.

#[export] Instance gcounter_laws : MergeLaws GCounter.
Proof.
  split; cbn; [apply _|by intros ? ? -> ? ? ->| | | |].
  - intros a b Ha Hb. by apply nonneg_merge.
  - intros a b Ha Hb. unfold gc_merge. f_equal. by apply max_merge_comm.
  - intros a b c Ha Hb Hc. unfold gc_merge. f_equal. by apply max_merge_assoc.
  - intros [a] Ha. unfold gc_merge. f_equal. by apply max_merge_idem.
Qed.

#[export] Instance pncounter_mergeable : Mergeable PNCounter :=
  {| eqv := eq; mrg := pn_merge; ok := λ p, ok (positive p) ∧ ok (negative p) |}.

#[export] Instance pncounter_laws : MergeLaws PNCounter.
Proof.
  split; [apply _|by intros ? ? -> ? ? ->| | | |]; cbn [eqv mrg ok pncounter_mergeable]; unfold pn_merge.
  - intros a b [Ha Ha'] [Hb Hb']. split; [exact (mrg_ok _ _ Ha Hb)|exact (mrg_ok _ _ Ha' Hb')].
  - intros a b [Ha Ha'] [Hb Hb']. f_equal; [exact (mrg_comm _ _ Ha Hb)|exact (mrg_comm _ _ Ha' Hb')].
  - intros a b c [Ha Ha'] [Hb Hb'] [Hc Hc'].
    f_equal; [exact (mrg_assoc _ _ _ Ha Hb Hc)|exact (mrg_assoc _ _ _ Ha' Hb' Hc')].
  - intros [p n] [Hp Hn]. f_equal; [exact (mrg_idem _ Hp)|exact (mrg_idem _ Hn)].
Qed.

(** Clocks. *)
Lemma vc_merge_max a b : vc_merge a b = max_merge a b.
Proof. done. Qed.

#[export] Instance clock_mergeable : Mergeable VectorClock :=
  {| eqv := eq; mrg := vc_merge; ok := nonneg_map |}.

#[export] Instance clock_laws : MergeLaws VectorClock.
Proof.
  split; cbn [eqv mrg ok clock_mergeable]; [apply _|by intros ? ? -> ? ? ->| | | |]; intros;
    rewrite !vc_merge_max; auto using nonneg_merge, max_merge_comm, max_merge_assoc, max_merge_idem.
Qed.

(** Sets: the order and the repetitions of tags cannot be observed. *)
Section SetLaws.
Context {T : Type} `{Countable T}.
Implicit Types s : ORSet T.

#[export] Instance orset_mergeable : Mergeable (ORSet T) := {|
  eqv := λ s1 s2, ∀ x, (elements_of s1 !! x = None ↔ elements_of s2 !! x = None) ∧
                       ∀ t, t ∈ tags_of x s1 ↔ t ∈ tags_of x s2;
  mrg := or_merge; ok := λ _, True |}.

Lemma add_tags_elem ours theirs t : t ∈ add_tags ours theirs ↔ t ∈ ours ∨ t ∈ theirs.
Proof.
  revert ours. induction theirs as [|x l IH]; intros ours; simpl.
  - split; [auto|]. intros [?|Ht]; [done|]. by apply elem_of_nil in Ht.
  - rewrite IH, elem_of_cons. case_bool_decide as Hx; [naive_solver|].
    rewrite elem_of_app, list_elem_of_singleton. tauto.
Qed.

Lemma or_merge_lookup s1 s2 x :
  elements_of (or_merge s1 s2) !! x =
  match elements_of s2 !! x with
  | None => elements_of s1 !! x | Some tags => Some (add_tags (tags_of x s1) tags) end.
Proof. apply (fold_insert_lookup (λ o tags, add_tags (default [] o) tags)). Qed.

Lemma or_merge_none s1 s2 x :
  elements_of (or_merge s1 s2) !! x = None ↔ elements_of s1 !! x = None ∧ elements_of s2 !! x = None.
Proof. rewrite or_merge_lookup. destruct (elements_of s2 !! x); naive_solver. Qed.

Lemma or_merge_tags s1 s2 x t :
  t ∈ tags_of x (or_merge s1 s2) ↔ t ∈ tags_of x s1 ∨ t ∈ tags_of x s2.
Proof.
  unfold tags_of at 1 3. rewrite or_merge_lookup. destruct (elements_of s2 !! x) as [tags|]; simpl.
  - apply add_tags_elem.
  - fold (tags_of x s1). rewrite elem_of_nil. tauto.
Qed.

#[export] Instance orset_laws : MergeLaws (ORSet T).
Proof.
  split; cbn [eqv mrg ok orset_mergeable]; try done.
  - split; [done| |]; [intros s1 s2 Hs x|intros s1 s2 s3 H1 H2 x];
      [destruct (Hs x)|destruct (H1 x), (H2 x)]; split; [naive_solver..|]; intros t; naive_solver.
  - intros s1 s2 H1 s3 s4 H3 x. destruct (H1 x) as [? Ht1], (H3 x) as [? Ht3].
    split; [rewrite !or_merge_none; tauto|]. intros t. rewrite !or_merge_tags, Ht1, Ht3. done.
  - intros a b _ _ x. split; [rewrite !or_merge_none; tauto|]. intros t. rewrite !or_merge_tags. tauto.
  - intros a b c _ _ _ x. split; [rewrite !or_merge_none; tauto|]. intros t. rewrite !or_merge_tags. tauto.
  - intros a _ x. split; [rewrite !or_merge_none; tauto|]. intros t. rewrite !or_merge_tags. tauto.
Qed.

(** Adding an element commutes with merging, up to [eqv]. *)
Lemma or_add_tags x n ts s y t :
  t ∈ tags_of y (or_add x n ts s) ↔ t ∈ tags_of y s ∨ (y = x ∧ t = (n, ts)).
Proof.
  unfold tags_of at 1; cbn [or_add elements_of]. destruct (decide (x = y)) as [<-|Hne].
  - rewrite lookup_insert_eq. simpl. rewrite elem_of_app, list_elem_of_singleton. naive_solver.
  - rewrite lookup_insert_ne by done. fold (tags_of y s). naive_solver.
Qed.

(** [remove] takes out exactly the tags it was given. *)
Lemma or_remove_tags x obs s y t :
  t ∈ tags_of y (or_remove x obs s).1 ↔ t ∈ tags_of y s ∧ ¬ (y = x ∧ t ∈ obs).
Proof.
  unfold or_remove. destruct (elements_of s !! x) as [tags|] eqn:Hx; cycle 1.
  { simpl. split; [|tauto]. intros Ht. split; [done|]. intros [-> _]. unfold tags_of in Ht. rewrite Hx in Ht.
    by apply elem_of_nil in Ht. }
  assert (t ∈ tags_of y s ∧ ¬ (y = x ∧ t ∈ obs) ↔
          if decide (x = y) then t ∈ filter (λ t, t ∉ obs) tags else t ∈ tags_of y s) as ->.
  { case_decide as Hd; [subst y|naive_solver]. unfold tags_of. rewrite Hx, list_elem_of_filter. simpl. naive_solver. }
  case_bool_decide as He; unfold tags_of at 1; cbn [fst elements_of]; case_decide as Hd.
  - subst y. by rewrite lookup_delete_eq, He.
  - by rewrite lookup_delete_ne.
  - subst y. by rewrite lookup_insert_eq.
  - by rewrite lookup_insert_ne.
Qed.

End SetLaws.


(** ** A counter in a network *)

(** Nodes add to their own entry and merge any state that some node had at some
    time; [truth] is what each node has added.  The total does not overflow. *)
Definition replica (n : NodeId) (rs : gmap NodeId GCounter) : GCounter := default GCounter_new (rs !! n).

Inductive counter_run : gmap NodeId GCounter → list GCounter → gmap NodeId Z → Prop :=
| counter_start : counter_run ∅ [GCounter_new] ∅
| counter_add rs ms truth n a :
    counter_run rs ms truth → 0 <= a → msum (λ _ v, v) truth + a <= umax 64 →
    counter_run (<[n := gc_increment n a (replica n rs)]> rs)
      (gc_increment n a (replica n rs) :: ms) (<[n := default 0 (truth !! n) + a]> truth)
| counter_receive rs ms truth n m :
    counter_run rs ms truth → m ∈ ms →
    counter_run (<[n := gc_merge (replica n rs) m]> rs) (gc_merge (replica n rs) m :: ms) truth.

(** No state is ahead of the truth. *)
Definition behind (truth : gmap NodeId Z) (g : GCounter) : Prop :=
  ∀ n v, counters g !! n = Some v → ∃ t, truth !! n = Some t ∧ 0 <= v <= t.

Lemma behind_ok truth g : behind truth g → ok g.
Proof. intros Hb n v Hv. destruct (Hb n v Hv) as (t & _ & ?). lia. Qed.

Lemma behind_merge truth a b : behind truth a → behind truth b → behind truth (gc_merge a b).
Proof.
  intros Ha Hb n v. cbn [gc_merge counters]. change (map_fold _ ?x ?y) with (max_merge x y).
  rewrite max_merge_lookup. destruct (counters b !! n) as [y|] eqn:Hy; [|apply Ha].
  intros [= <-]. destruct (Hb n y Hy) as (t & Ht & ?). exists t. split; [done|].
  destruct (counters a !! n) as [x|] eqn:Hx; simpl; [|lia]. destruct (Ha n x Hx) as (t' & Ht' & ?).
  simplify_eq. lia.
Qed.

Lemma behind_all truth s l : behind truth s → Forall (behind truth) l → behind truth (foldl gc_merge s l).
Proof. intros Hs Hl. revert s Hs. induction Hl; intros s Hs; simpl; auto using behind_merge. Qed.

Lemma behind_grows truth n a g :
  0 <= a → behind truth g → behind (<[n := default 0 (truth !! n) + a]> truth) g.
Proof.
  intros Ha Hg k v Hv. destruct (Hg k v Hv) as (t & Ht & ?). destruct (decide (n = k)) as [<-|Hne].
  - exists (t + a). rewrite lookup_insert_eq, Ht. split; [done|lia].
  - exists t. by rewrite lookup_insert_ne.
Qed.

Lemma msum_behind truth g :
  nonneg_map truth → behind truth g → msum (λ _ v, v) (counters g) <= msum (λ _ v, v) truth.
Proof.
  destruct g as [c]. cbn [counters]. revert truth.
  induction c as [|n v c Hn IH] using map_ind; intros truth Hnn Hg.
  - rewrite msum_empty. by apply msum_nonneg.
  - destruct (Hg n v) as (t & Ht & ?); [cbn; by rewrite lookup_insert_eq|].
    rewrite msum_insert_fresh by done. pose proof (msum_delete (λ _ v, v) truth n t Ht). specialize (IH (delete n truth)).
    assert (msum (λ _ v, v) c <= msum (λ _ v, v) (delete n truth)); [|cbv beta in *; lia]. apply IH.
    + intros k x Hk. apply lookup_delete_Some in Hk as [_ Hk]. eauto.
    + intros k x Hk. cbn in Hk. assert (n ≠ k) as Hne by (intros ->; congruence).
      destruct (Hg k x) as (t' & Ht' & ?); [cbn; by rewrite lookup_insert_ne|].
      exists t'. by rewrite lookup_delete_ne.
Qed.

Record counter_inv (rs : gmap NodeId GCounter) (ms : list GCounter) (truth : gmap NodeId Z) : Prop := {
  ci_behind : Forall (behind truth) ms;
  ci_states : ∀ n, replica n rs ∈ ms;
  ci_own : ∀ n, counters (replica n rs) !! n = truth !! n;
  ci_truth : nonneg_map truth ∧ msum (λ _ v, v) truth <= umax 64;
}.

Lemma replica_insert n k g rs : replica k (<[n := g]> rs) = if decide (n = k) then g else replica k rs.
Proof. unfold replica. case_decide; [subst; by rewrite lookup_insert_eq|by rewrite lookup_insert_ne]. Qed.

Lemma counter_run_inv rs ms truth : counter_run rs ms truth → counter_inv rs ms truth.
Proof.
  induction 1 as [|rs ms truth n a _ [IH1 IH2 IH3 [IH4 IH5]] Ha Hmax|rs ms truth n m _ [IH1 IH2 IH3 IH4] Hm].
  - constructor.
    + constructor; [|constructor]. intros n v Hv. cbn in Hv. by rewrite lookup_empty in Hv.
    + intros n. unfold replica. rewrite lookup_empty. by left.
    + intros n. unfold replica. by rewrite !lookup_empty.
    + split; [|done]. intros n v Hv. by rewrite lookup_empty in Hv.
  - pose proof (proj1 (Forall_forall _ _) IH1 _ (IH2 n)) as Hbn.
    assert (get_node_value n (replica n rs) = default 0 (truth !! n)) as Hown
      by (unfold get_node_value; by rewrite IH3).
    assert (0 <= default 0 (truth !! n) <= msum (λ _ v, v) truth) as Hle.
    { destruct (truth !! n) as [t|] eqn:Ht; simpl.
      - split; [eauto|]. by apply (msum_lookup_le (λ _ v, v) truth n t).
      - split; [lia|]. apply msum_nonneg. intros k v Hk. eauto. }
    assert (wadd 64 (get_node_value n (replica n rs)) a = default 0 (truth !! n) + a) as Hw.
    { rewrite Hown. apply wadd_small. lia. }
    constructor.
    + constructor; [|eapply Forall_impl; [exact IH1|]; intros g Hg; by apply behind_grows].
      intros k v. cbn [gc_increment counters]. rewrite Hw. destruct (decide (n = k)) as [<-|Hne].
      * rewrite !lookup_insert_eq. intros [= <-]. eexists. split; [done|]. lia.
      * rewrite !lookup_insert_ne by done. apply Hbn.
    + intros k. rewrite replica_insert. case_decide; [by left|by right].
    + intros k. rewrite replica_insert. case_decide as Hd; [subst k|by rewrite lookup_insert_ne].
      cbn [gc_increment counters]. by rewrite !lookup_insert_eq, Hw.
    + split.
      * intros k v. destruct (decide (n = k)) as [<-|Hne]; [rewrite lookup_insert_eq; intros [= <-]; lia|].
        rewrite lookup_insert_ne by done. apply IH4.
      * rewrite msum_insert. destruct (truth !! n); simpl in *; lia.
  - pose proof (proj1 (Forall_forall _ _) IH1) as Hb. pose proof (Hb _ (IH2 n)) as Hbn. pose proof (Hb _ Hm) as Hbm.
    constructor; [|intros k|intros k|done].
    + constructor; [by apply behind_merge|done].
    + rewrite replica_insert. case_decide; [by left|by right].
    + rewrite replica_insert. case_decide as Hd; [subst k|done]. cbn [gc_merge counters].
      change (map_fold _ ?x ?y) with (max_merge x y). rewrite max_merge_lookup, IH3.
      destruct (counters m !! n) as [v|] eqn:Hv; [|done]. destruct (Hbm n v Hv) as (t & Ht & ?).
      rewrite Ht. simpl. f_equal. lia.
Qed.

(** C17: A grow-only counter counts.  Whatever was exchanged before, a replica that
    merges states among which is the current one of every node that has added
    something shows exactly the total of what all nodes have added; and no state
    of a run shows more than that. *)
Theorem counter_counts rs ms truth s l :
  counter_run rs ms truth → s ∈ ms → (∀ m, m ∈ l → m ∈ ms) →
  (∀ n, is_Some (truth !! n) → replica n rs ∈ l) →
  gc_value (foldl gc_merge s l) = msum (λ _ v, v) truth ∧
  ∀ m, m ∈ ms → gc_value m <= msum (λ _ v, v) truth.
Proof.
  intros [Hb Hst Hown [Hnn Hmax]]%counter_run_inv Hs Hl Hall.
  pose proof (proj1 (Forall_forall _ _) Hb) as Hbeh.
  assert (Forall (behind truth) l) as Hlb by (apply Forall_forall; auto).
  pose proof (behind_all truth s l (Hbeh _ Hs) Hlb) as HF. set (F := foldl gc_merge s l) in *.
  assert (∀ g, behind truth g → 0 <= msum (λ _ v, v) (counters g) <= msum (λ _ v, v) truth) as Hsum.
  { intros g Hg. split; [apply msum_nonneg; intros n v Hv; by eapply behind_ok|]. by apply msum_behind. }
  split; cycle 1.
  { intros m Hm. unfold gc_value. pose proof (Hsum m (Hbeh m Hm)). rewrite as_u_small by (unfold in_u; lia). lia. }
  assert (counters F = truth) as HFt.
  { apply map_eq. intros n. destruct (truth !! n) as [t|] eqn:Ht; cycle 1.
    - destruct (counters F !! n) as [v|] eqn:Hv; [|done]. destruct (HF n v Hv) as (t & Ht' & _). congruence.
    - assert (replica n rs ∈ l) as Hin by (apply Hall; rewrite Ht; by eexists).
      destruct (merge_all_upper (A := GCounter) s l) as [_ Hup];
        [by eapply behind_ok; apply Hbeh|eapply Forall_impl; [exact Hlb|apply behind_ok]|].
      specialize (Hup _ Hin). unfold below in Hup. cbn [eqv mrg gcounter_mergeable] in Hup. fold F in Hup.
      apply (f_equal (λ g, counters g !! n)) in Hup. cbn [gc_merge counters] in Hup.
      change (map_fold _ ?x ?y) with (max_merge x y) in Hup. rewrite max_merge_lookup, Hown, Ht in Hup.
      destruct (counters F !! n) as [v|] eqn:Hv; [|done]. injection Hup as Hup. simpl in Hup.
      destruct (HF n v Hv) as (t' & Ht' & ?). simplify_eq. f_equal. lia. }
  unfold gc_value. rewrite HFt. apply as_u_small. unfold in_u. split; [|lia].
  apply msum_nonneg. intros n v Hv. eauto.
Qed.

(** ** Causality *)

Lemma happens_before_spec a b :
  nonneg_map a → nonneg_map b →
  happens_before a b = true ↔
  (∀ n, vc_get n a <= vc_get n b) ∧ ∃ n, vc_get n a < vc_get n b.
Proof.
  intros Ha Hb. unfold happens_before. rewrite andb_true_iff, orb_true_iff, forallb_forall, !existsb_exists.
  setoid_rewrite <- list_elem_of_In. split.
  - intros [Hle Hlt]. split.
    + intros n. unfold vc_get at 1. destruct (a !! n) as [v|] eqn:Hn; [|by apply vc_get_nonneg].
      specialize (Hle (n, v)). rewrite elem_of_map_to_list in Hle. apply Z.leb_le, Hle, Hn.
    + destruct Hlt as [([n v] & Hin & Hlt)|([n v] & Hin & Hlt)]; simpl in Hlt;
        apply elem_of_map_to_list in Hin; exists n.
      * unfold vc_get at 1. rewrite Hin. by apply Z.ltb_lt.
      * apply andb_true_iff in Hlt as [Hn%bool_decide_eq_true Hv%Z.ltb_lt]. unfold vc_get. by rewrite Hin, Hn.
  - intros [Hle [n Hlt]]. split.
    + intros [k v] Hk. simpl. apply elem_of_map_to_list in Hk. apply Z.leb_le. specialize (Hle k).
      unfold vc_get at 1 in Hle. by rewrite Hk in Hle.
    + destruct (a !! n) as [v|] eqn:Hn.
      * left. exists (n, v). rewrite elem_of_map_to_list. split; [done|]. simpl. apply Z.ltb_lt.
        unfold vc_get at 1 in Hlt. by rewrite Hn in Hlt.
      * right. unfold vc_get in Hlt. rewrite Hn in Hlt. destruct (b !! n) as [w|] eqn:Hw; [|done].
        exists (n, w). rewrite elem_of_map_to_list. split; [done|]. simpl. apply andb_true_iff.
        split; [by apply bool_decide_eq_true|by apply Z.ltb_lt].
Qed.

Lemma vc_increment_get n c k :
  vc_get n c < umax 64 → vc_get k (vc_increment n c) = vc_get k c + if decide (k = n) then 1 else 0.
Proof.
  intros Hn. unfold vc_increment. rewrite (proj2 (Z.eqb_neq _ _)) by lia. unfold vc_get at 1.
  case_decide as Hd; [subst k; by rewrite lookup_insert_eq|]. rewrite lookup_insert_ne by done.
  fold (vc_get k c). lia.
Qed.

(** An event happens at a node, and may receive the clock of an earlier event:
    the node merges it into its own, and then counts the event. *)
Record Ev : Type := { ev_node : NodeId; ev_msg : option nat }.

Definition last_clock (n : NodeId) (cs : list (NodeId * VectorClock)) : VectorClock :=
  from_option snd vc_new (last (filter (λ p, p.1 = n) cs)).

Definition stamp (cs : list (NodeId * VectorClock)) (e : Ev) : VectorClock :=
  vc_increment (ev_node e)
    (match ev_msg e with
     | Some j => vc_merge (last_clock (ev_node e) cs) (from_option snd vc_new (cs !! j))
     | None => last_clock (ev_node e) cs
     end).

Definition stamps (h : list Ev) : list (NodeId * VectorClock) :=
  foldl (λ cs e, cs ++ [(ev_node e, stamp cs e)]) [] h.

Definition valid_history (h : list Ev) : Prop :=
  lenZ h < umax 64 ∧ ∀ k e j, h !! k = Some e → ev_msg e = Some j → (j < k)%nat.

(** An event is caused by the earlier events of its node and by the event whose
    clock it receives. *)
Definition edge (h : list Ev) (i k : nat) : Prop :=
  (i < k)%nat ∧ ∃ ei ek, h !! i = Some ei ∧ h !! k = Some ek ∧
    (ev_node ei = ev_node ek ∨ ev_msg ek = Some i).

Section Causality.
Context (h : list Ev) (Hvalid : valid_history h).

Definition clock_at (k : nat) : VectorClock := from_option snd vc_new (stamps h !! k).
Definition node_at (k : nat) : option NodeId := ev_node <$> h !! k.

(** The number of the first [k] events that happened at [n]. *)
Definition count (n : NodeId) (k : nat) : Z := lenZ (filter (λ e, ev_node e = n) (take k h)).

Lemma stamps_snoc l e : stamps (l ++ [e]) = stamps l ++ [(ev_node e, stamp (stamps l) e)].
Proof. unfold stamps. by rewrite foldl_app. Qed.

Lemma stamps_length l : length (stamps l) = length l.
Proof. induction l as [|e l IH] using rev_ind; [done|]. rewrite stamps_snoc, !length_app, IH. done. Qed.

Lemma stamps_take k l : take k (stamps l) = stamps (take k l).
Proof.
  induction l as [|e l IH] using rev_ind; [by destruct k|].
  destruct (decide (k <= length l)%nat) as [Hk|Hk].
  - rewrite stamps_snoc, !take_app_le by (rewrite ?stamps_length; done). done.
  - rewrite !take_ge; rewrite ?stamps_length, ?length_app; simpl; lia || done.
Qed.

Lemma stamps_lookup k e :
  h !! k = Some e → stamps h !! k = Some (ev_node e, stamp (take k (stamps h)) e).
Proof.
  intros Hk. pose proof (take_S_r _ _ _ Hk) as Ht. rewrite stamps_take.
  pose proof (stamps_take (S k) h) as Hs. rewrite Ht, stamps_snoc in Hs.
  rewrite <- (lookup_take_lt (stamps h) (S k) k) by lia. rewrite Hs.
  apply lookup_lt_Some in Hk. rewrite lookup_app_r; rewrite stamps_length, length_take; [|lia].
  replace (k - k `min` length h)%nat with 0%nat by lia. done.
Qed.

Lemma count_S n k e :
  h !! k = Some e → count n (S k) = count n k + if decide (ev_node e = n) then 1 else 0.
Proof.
  intros Hk. unfold count, lenZ. rewrite (take_S_r _ _ _ Hk), filter_app, length_app, Nat2Z.inj_add.
  rewrite filter_cons, filter_nil. case_decide; simpl; lia.
Qed.

Lemma count_nonneg n k : 0 <= count n k.
Proof. unfold count, lenZ. lia. Qed.

Lemma count_mono n i k : (i <= k)%nat → (k <= length h)%nat → count n i <= count n k.
Proof.
  intros Hik Hk. induction Hik as [|k Hik IH]; [lia|].
  destruct (lookup_lt_is_Some_2 h k ltac:(lia)) as [e He]. rewrite (count_S n k e He).
  specialize (IH ltac:(lia)). case_decide; lia.
Qed.

Lemma count_max n k : count n k < umax 64.
Proof.
  destruct Hvalid as [Hlen _]. unfold count, lenZ in *. pose proof (length_filter (λ e, ev_node e = n) (take k h)).
  rewrite length_take in *. lia.
Qed.

(** The clock a node has before its event [k]. *)
Lemma last_clock_spec n k :
  (k <= length h)%nat →
  (last_clock n (take k (stamps h)) = vc_new ∧ count n k = 0 ∧ ∀ i, (i < k)%nat → node_at i ≠ Some n) ∨
  ∃ p, (p < k)%nat ∧ node_at p = Some n ∧ last_clock n (take k (stamps h)) = clock_at p ∧
       count n k = count n (S p) ∧ ∀ i, (i < k)%nat → node_at i = Some n → (i <= p)%nat.
Proof.
  induction k as [|k IH]; intros Hk.
  - left. split; [done|]. split; [done|]. lia.
  - destruct (lookup_lt_is_Some_2 h k ltac:(lia)) as [e He].
    pose proof (stamps_lookup k e He) as Hs. pose proof (count_S n k e He) as Hc.
    assert (node_at k = Some (ev_node e)) as Hnk by (unfold node_at; by rewrite He).
    unfold last_clock at 1 2. rewrite (take_S_r _ _ _ Hs), filter_app, filter_cons, filter_nil. simpl.
    destruct (decide (ev_node e = n)) as [Hn|Hn].
    + right. exists k. rewrite last_snoc. split; [lia|]. split; [congruence|].
      split; [unfold clock_at; by rewrite Hs|]. split; [done|lia].
    + rewrite app_nil_r. specialize (IH ltac:(lia)). fold (last_clock n (take k (stamps h))).
      assert (∀ i, (i < S k)%nat → node_at i = Some n → (i < k)%nat) as Hlt.
      { intros i Hi Hni. destruct (decide (i = k)) as [->|]; [congruence|lia]. }
      destruct IH as [(H1 & H2 & H3)|(p & H1 & H2 & H3 & H4 & H5)].
      * left. split; [done|]. split; [lia|]. intros i Hi Hni. by apply (H3 i); [apply Hlt|].
      * right. exists p. split; [lia|]. split; [done|]. split; [done|]. split; [lia|]. intros i Hi Hni. by apply H5; [apply Hlt|].
Qed.

(** What the clock of event [k] is made of: the clock before it and the one it
    receives. *)
Definition received (k : nat) : option nat := e ← h !! k; ev_msg e.

Lemma received_lt k j : received k = Some j → (j < k)%nat.
Proof.
  unfold received. destruct (h !! k) as [e|] eqn:Hk; [|done]. simpl. intros Hj. by eapply Hvalid.
Qed.

Definition before (k : nat) (e : Ev) : VectorClock :=
  match ev_msg e with
  | Some j => vc_merge (last_clock (ev_node e) (take k (stamps h))) (clock_at j)
  | None => last_clock (ev_node e) (take k (stamps h))
  end.

Lemma clock_at_eq k e : h !! k = Some e → clock_at k = vc_increment (ev_node e) (before k e).
Proof.
  intros Hk. unfold clock_at at 1. rewrite (stamps_lookup k e Hk). simpl. unfold stamp, before, clock_at.
  destruct (ev_msg e) as [j|] eqn:Hj; [|done]. rewrite lookup_take_lt; [done|]. by eapply Hvalid.
Qed.

Definition good_clock (k : nat) : Prop :=
  nonneg_map (clock_at k) ∧ ∀ n, vc_get n (clock_at k) <= count n (S k) ∧
    (node_at k = Some n → vc_get n (clock_at k) = count n (S k)).

Lemma nonneg_new : nonneg_map vc_new.
Proof. intros n v Hv. unfold vc_new in Hv. by rewrite lookup_empty in Hv. Qed.

Lemma vc_get_new n : vc_get n vc_new = 0.
Proof. unfold vc_get, vc_new. by rewrite lookup_empty. Qed.

Lemma last_good n k :
  (k <= length h)%nat → (∀ i, (i < k)%nat → good_clock i) →
  nonneg_map (last_clock n (take k (stamps h))) ∧
  (∀ m, vc_get m (last_clock n (take k (stamps h))) <= count m k) ∧
  vc_get n (last_clock n (take k (stamps h))) = count n k.
Proof.
  intros Hk IH. destruct (last_clock_spec n k Hk) as [(-> & -> & _)|(p & Hp & Hn & -> & Hc & _)].
  - split; [apply nonneg_new|]. split; [|apply vc_get_new]. intros m. rewrite vc_get_new. apply count_nonneg.
  - destruct (IH p Hp) as [Hnn Hb]. split; [done|]. split; [|rewrite Hc; by apply Hb].
    intros m. destruct (Hb m) as [Hm _]. pose proof (count_mono m (S p) k ltac:(lia) Hk). lia.
Qed.

Lemma before_good k e :
  h !! k = Some e → (∀ i, (i < k)%nat → good_clock i) →
  nonneg_map (before k e) ∧ (∀ n, vc_get n (before k e) <= count n k) ∧
  vc_get (ev_node e) (before k e) = count (ev_node e) k ∧
  ∀ n, vc_get n (before k e) =
    Z.max (vc_get n (last_clock (ev_node e) (take k (stamps h))))
          (from_option (λ j, vc_get n (clock_at j)) 0 (ev_msg e)).
Proof.
  intros Hk IH. assert (k < length h)%nat as Hlt by by eapply lookup_lt_Some.
  destruct (last_good (ev_node e) k ltac:(lia) IH) as (Hnn & Hle & Hown). unfold before.
  destruct (ev_msg e) as [j|] eqn:Hj; simpl.
  - assert (j < k)%nat as Hjk by by eapply Hvalid. destruct (IH j Hjk) as [Hnj Hbj]. rewrite vc_merge_max.
    assert (∀ n, vc_get n (clock_at j) <= count n k) as Hj'.
    { intros n. destruct (Hbj n) as [Hb _]. pose proof (count_mono n (S j) k ltac:(lia) ltac:(lia)). lia. }
    split; [by apply nonneg_merge|]. split; [|split].
    + intros n. rewrite vc_get_merge by done. pose proof (Hle n). pose proof (Hj' n). lia.
    + rewrite vc_get_merge, Hown by done. pose proof (Hj' (ev_node e)). lia.
    + intros n. by rewrite vc_get_merge.
  - split; [done|]. split; [done|]. split; [done|]. intros n. pose proof (vc_get_nonneg _ n Hnn). lia.
Qed.

Lemma clocks_good k : (k < length h)%nat → good_clock k.
Proof.
  induction (lt_wf k) as [k _ IH]. intros Hk. destruct (lookup_lt_is_Some_2 h k Hk) as [e He].
  destruct (before_good k e He) as (Hnn & Hle & Hown & _); [intros i Hi; apply IH; lia|].
  assert (vc_get (ev_node e) (before k e) < umax 64) as Hmax by (rewrite Hown; apply count_max).
  unfold good_clock. rewrite (clock_at_eq k e He). split.
  - intros n v Hv. pose proof (vc_increment_get (ev_node e) (before k e) n Hmax) as Hg.
    unfold vc_get at 1 in Hg. rewrite Hv in Hg. simpl in Hg. pose proof (vc_get_nonneg _ n Hnn).
    revert Hg. case_decide; lia.
  - intros n. rewrite vc_increment_get, (count_S n k e He) by done. specialize (Hle n).
    unfold node_at. rewrite He. simpl. split; [|intros [= <-]; rewrite Hown];
      repeat case_decide; subst; try done; lia.
Qed.

Lemma edge_lt i k : rtc (edge h) i k → (i <= k)%nat.
Proof. induction 1 as [|i j k [Hij _] _ IH]; lia. Qed.

Lemma own_count i n : (i < length h)%nat → node_at i = Some n → vc_get n (clock_at i) = count n (S i).
Proof. intros Hi Hn. by apply clocks_good. Qed.

Lemma node_lt_length i n : node_at i = Some n → (i < length h)%nat.
Proof. unfold node_at. destruct (h !! i) eqn:Hi; [|done]. intros _. by eapply lookup_lt_Some. Qed.

(** The entry of its node in the clock of [i] is reached in the clock of [k]
    exactly if [i] is [k] or a cause of it. *)
Lemma entry_iff_cause k i n :
  (k < length h)%nat → node_at i = Some n →
  vc_get n (clock_at i) <= vc_get n (clock_at k) ↔ rtc (edge h) i k.
Proof.
  revert i n. induction (lt_wf k) as [k _ IH]. intros i n Hk Hi. pose proof (node_lt_length i n Hi) as Hil.
  destruct (lookup_lt_is_Some_2 h k Hk) as [e He]. rewrite (own_count i n Hil Hi).
  destruct (decide (i = k)) as [->|Hik].
  { rewrite (own_count k n Hk Hi). split; [intros _; apply rtc_refl|lia]. }
  unfold node_at in Hi. destruct (h !! i) as [ei|] eqn:Hei; [|done]. injection Hi as Hni.
  destruct (decide (ev_node e = n)) as [Hen|Hen].
  - rewrite (own_count k n Hk) by (unfold node_at; rewrite He; simpl; by rewrite Hen).
    destruct (decide (i < k)%nat) as [Hlt|Hge].
    + split; [|intros _; by apply count_mono; lia]. intros _. apply rtc_once. split; [done|].
      exists ei, e. repeat split; try done. left. congruence.
    + split; [|intros Hr%edge_lt; lia]. rewrite (count_S n i ei Hei), decide_True by done.
      pose proof (count_mono n (S k) i ltac:(lia) ltac:(lia)). lia.
  - destruct (before_good k e He) as (_ & _ & Hown & Hmaxof); [intros j Hj; apply clocks_good; lia|].
    rewrite (clock_at_eq k e He), vc_increment_get by (rewrite Hown; apply count_max).
    rewrite decide_False, Hmaxof, Z.add_0_r by congruence.
    assert (1 <= count n (S i)) as Hpos.
    { rewrite (count_S n i ei Hei), decide_True by done. pose proof (count_nonneg n i). lia. }
    assert (∀ j, (j < k)%nat → count n (S i) <= vc_get n (clock_at j) ↔ rtc (edge h) i j) as IH'.
    { intros j Hj. rewrite <- (own_count i n) by (unfold node_at; rewrite ?Hei; simpl; congruence || done).
      apply IH; [done|lia|]. unfold node_at. rewrite Hei. simpl. congruence. }
    destruct (last_clock_spec (ev_node e) k ltac:(lia)) as [(Hl & _ & Hno)|(p & Hp & Hnp & Hl & _ & Hlast)];
      rewrite Hl; clear Hl.
    + rewrite vc_get_new. split.
      * intros Hle. destruct (ev_msg e) as [j|] eqn:Hj; simpl in Hle; [|lia].
        assert (j < k)%nat as Hjk by by eapply Hvalid. eapply rtc_r; [apply (IH' j Hjk); lia|].
        split; [done|]. destruct (lookup_lt_is_Some_2 h j ltac:(lia)) as [ej Hej]. exists ej, e. auto.
      * intros Hr. apply rtc_inv_r in Hr as [->|(j & Hr & Hjk & ej & ek & Hej & Hek & Hor)]; [done|].
        rewrite He in Hek. injection Hek as <-. destruct Hor as [Hsame|Hmsg].
        -- destruct (Hno j Hjk). unfold node_at. rewrite Hej. simpl. congruence.
        -- rewrite Hmsg. simpl. pose proof (proj2 (IH' j Hjk) Hr). lia.
    + assert (edge h p k) as Hpk.
      { split; [done|]. unfold node_at in Hnp. destruct (h !! p) as [ep|] eqn:Hep; [|done]. exists ep, e.
        injection Hnp as Hnp. auto. }
      split.
      * intros Hle. destruct (decide (count n (S i) <= vc_get n (clock_at p))) as [Hp'|Hp'].
        -- eapply rtc_r; [by apply (IH' p Hp)|done].
        -- destruct (ev_msg e) as [j|] eqn:Hj; simpl in Hle; [|lia].
           assert (j < k)%nat as Hjk by by eapply Hvalid. eapply rtc_r; [apply (IH' j Hjk); lia|].
           split; [done|]. destruct (lookup_lt_is_Some_2 h j ltac:(lia)) as [ej Hej]. exists ej, e. auto.
      * intros Hr. apply rtc_inv_r in Hr as [->|(j & Hr & Hjk & ej & ek & Hej & Hek & Hor)]; [done|].
        rewrite He in Hek. injection Hek as <-. destruct Hor as [Hsame|Hmsg].
        -- assert (rtc (edge h) i p) as Hip.
           { assert (node_at j = Some (ev_node e)) as Hnj by (unfold node_at; rewrite Hej; simpl; congruence).
             pose proof (Hlast j Hjk Hnj). destruct (decide (j = p)) as [->|Hne]; [done|].
             eapply rtc_r; [exact Hr|]. split; [lia|]. unfold node_at in Hnp.
             destruct (h !! p) as [ep|] eqn:Hep; [|done]. injection Hnp as Hnp. exists ej, ep.
             repeat split; try done. left. congruence. }
           pose proof (proj2 (IH' p Hp) Hip). lia.
        -- rewrite Hmsg. simpl. pose proof (proj2 (IH' j Hjk) Hr). lia.
Qed.

(** Clocks grow along causes. *)
Lemma edge_grows k i : edge h i k → ∀ n, vc_get n (clock_at i) <= vc_get n (clock_at k).
Proof.
  revert i. induction (lt_wf k) as [k _ IH]. intros i (Hik & ei & e & Hei & He & Hor) n.
  assert (k < length h)%nat as Hk by by eapply lookup_lt_Some.
  destruct (before_good k e He) as (_ & _ & Hown & Hmaxof); [intros j Hj; apply clocks_good; lia|].
  rewrite (clock_at_eq k e He), vc_increment_get by (rewrite Hown; apply count_max). rewrite Hmaxof.
  destruct Hor as [Hsame|Hmsg]; [|rewrite Hmsg; simpl; case_decide; lia].
  destruct (last_clock_spec (ev_node e) k ltac:(lia)) as [(_ & _ & Hno)|(p & Hp & Hnp & -> & _ & Hlast)].
  - destruct (Hno i Hik). unfold node_at. rewrite Hei. simpl. congruence.
  - assert (vc_get n (clock_at i) <= vc_get n (clock_at p)); [|case_decide; lia].
    assert (node_at i = Some (ev_node e)) as Hni by (unfold node_at; rewrite Hei; simpl; congruence).
    pose proof (Hlast i Hik Hni). destruct (decide (i = p)) as [->|Hne]; [lia|].
    apply (IH p Hp). split; [lia|]. unfold node_at in Hnp. destruct (h !! p) as [ep|] eqn:Hep; [|done].
    injection Hnp as Hnp. exists ei, ep. repeat split; try done. left. congruence.
Qed.

Lemma cause_grows i k n : rtc (edge h) i k → vc_get n (clock_at i) <= vc_get n (clock_at k).
Proof. induction 1 as [|i j k Hij _ IH]; [lia|]. pose proof (edge_grows j i Hij n). lia. Qed.

Lemma before_iff_cause i k :
  (i < length h)%nat → (k < length h)%nat →
  happens_before (clock_at i) (clock_at k) = true ↔ i ≠ k ∧ rtc (edge h) i k.
Proof.
  intros Hi Hk. destruct (clocks_good i Hi) as [Hni _], (clocks_good k Hk) as [Hnk _].
  rewrite happens_before_spec by done.
  destruct (lookup_lt_is_Some_2 h i Hi) as [ei Hei], (lookup_lt_is_Some_2 h k Hk) as [ek Hek].
  assert (node_at i = Some (ev_node ei)) as Hn by (unfold node_at; by rewrite Hei).
  assert (node_at k = Some (ev_node ek)) as Hm by (unfold node_at; by rewrite Hek). split.
  - intros [Hle [n Hlt]]. split; [intros ->; lia|]. by apply (entry_iff_cause k i (ev_node ei)).
  - intros [Hne Hr]. split; [intros n; by apply cause_grows|]. exists (ev_node ek).
    apply Z.nle_gt. intros Hle. apply (entry_iff_cause i k (ev_node ek) Hi Hm) in Hle.
    apply edge_lt in Hle, Hr. lia.
Qed.

Lemma clock_at_inj i k :
  (i < length h)%nat → (k < length h)%nat → clock_at i = clock_at k → i = k.
Proof.
  intros Hi Hk Heq.
  destruct (lookup_lt_is_Some_2 h i Hi) as [ei Hei], (lookup_lt_is_Some_2 h k Hk) as [ek Hek].
  assert (rtc (edge h) i k) as H1%edge_lt.
  { apply (entry_iff_cause k i (ev_node ei) Hk); [unfold node_at; by rewrite Hei|]. rewrite Heq. lia. }
  assert (rtc (edge h) k i) as H2%edge_lt.
  { apply (entry_iff_cause i k (ev_node ek) Hi); [unfold node_at; by rewrite Hek|]. rewrite Heq. lia. }
  lia.
Qed.

End Causality.

(** C16: Vector clocks are causality.  In every history of events at nodes that
    merge the clocks they receive and count their own events, comparing the clocks
    of two events tells whether they are the same event, which of them is a cause
    of the other, or that neither is. *)
Theorem clocks_are_causality h i k :
  valid_history h → (i < length h)%nat → (k < length h)%nat →
  match compare (clock_at h i) (clock_at h k) with
  | Equal => i = k
  | Before => i ≠ k ∧ rtc (edge h) i k
  | After => i ≠ k ∧ rtc (edge h) k i
  | Concurrent => ¬ rtc (edge h) i k ∧ ¬ rtc (edge h) k i
  end.
Proof.
  intros Hv Hi Hk. pose proof (before_iff_cause h Hv i k Hi Hk) as Hik.
  pose proof (before_iff_cause h Hv k i Hk Hi) as Hki. unfold compare, happens_after.
  case_bool_decide as Heq; [by apply (clock_at_inj h Hv)|].
  assert (i ≠ k) as Hne by (intros ->; done).
  destruct (happens_before (clock_at h i) (clock_at h k)); [by apply Hik|].
  destruct (happens_before (clock_at h k) (clock_at h i)); [naive_solver|].
  split; intros Hr; [assert (false = true) by by apply Hik|assert (false = true) by (apply Hki; auto)]; done.
Qed.

(** ** Quorums that meet *)

(** Managers made from a validated configuration; the flag tells whether a node
    was added. *)
Inductive quorum_run : bool → QuorumManager → Prop :=
| quorum_start n r w c ns m :
    0 <= r → 0 <= w → QuorumConfig_new n r w = Ok c → QuorumManager_new c ns = Ok m →
    quorum_run false m
| quorum_add g m id m' x : quorum_run g m → add_node id m = (m', x) → quorum_run true m'
| quorum_remove g m id m' x : quorum_run g m → remove_node id m = (m', x) → quorum_run g m'
| quorum_reconfigure g m c m' x :
    quorum_run g m → 0 <= qr c → 0 <= qw c →
    reconfigure c m = (m', x) → quorum_run (if is_ok x then false else g) m'.

Definition strong (m : QuorumManager) : Prop := sizeZ (nodes m) < qr (config m) + qw (config m).

Lemma wadd_strong n r w : 0 <= r → 0 <= w → n < wadd 64 r w → n < r + w.
Proof.
  intros Hr Hw. unfold wadd. pose proof (Z.mod_le (r + w) (2 ^ 64)). lia.
Qed.

Lemma quorum_run_strong g m : quorum_run g m → g = false → strong m.
Proof.
  induction 1 as [n r w c ns m Hr Hw Hc Hm|g m id m' x _ IH Ha|g m id m' x _ IH Ha
    |g m c m' x _ IH Hr Hw Ha]; intros Hg; [| |specialize (IH Hg)|].
  - unfold QuorumConfig_new in Hc. destruct (Z.leb_spec (wadd 64 r w) n); [done|].
    destruct (_ || _); [done|]. destruct (_ || _); [done|]. injection Hc as <-.
    unfold QuorumManager_new in Hm. cbn [qn] in Hm. destruct (Z.eqb_spec (lenZ ns) n) as [Hlen|]; cbn in Hm; [|done].
    injection Hm as <-. unfold strong, sizeZ; cbn. pose proof (wadd_strong n r w Hr Hw ltac:(lia)).
    assert (size (list_to_set ns : gset NodeId) <= length ns)%nat; [|unfold lenZ in *; lia].
    clear. induction ns as [|x ns IH]; cbn; [by rewrite size_empty|].
    pose proof (size_union_alt {[x]} (list_to_set ns : gset NodeId)) as Hu. rewrite size_singleton in Hu.
    pose proof (subseteq_size (list_to_set ns ∖ {[x]} : gset NodeId) (list_to_set ns) ltac:(set_solver)). lia.
  - done.
  - unfold remove_node, bind, gets, guard, modify, ret, throw in Ha.
    case_bool_decide as Hin; [by injection Ha as <- <-|].
    destruct (negb _); injection Ha as <- <-; [|done]. unfold strong in *. cbn.
    pose proof (subseteq_size (nodes m ∖ {[id]}) (nodes m) ltac:(set_solver)). unfold sizeZ in *. lia.
  - unfold reconfigure, bind, gets, guard, modify, ret, throw in Ha.
    destruct (Z.eqb_spec (qn c) (sizeZ (nodes m))) as [Hq|]; [|injection Ha as <- <-; auto].
    destruct (negb _); [|injection Ha as <- <-; auto].
    unfold is_strongly_consistent in Ha.
    destruct (Z.ltb_spec (qn c) (wadd 64 (qr c) (qw c))) as [Hlt|]; injection Ha as <- <-; [|auto].
    unfold strong. cbn. apply wadd_strong; lia.
Qed.

Lemma check_met required actual : is_met (check_quorum required actual) = true ↔ required <= actual.
Proof. unfold check_quorum. destruct (Z.leb_spec required actual); cbn; split; (done || lia). Qed.

(** C26: Reads see writes.  As long as the quorum sizes were validated for the
    members and no node was added since, the nodes that answered any read that met
    its quorum and any write that met its quorum have a member in common. *)
Theorem quorums_intersect m rs ws :
  quorum_run false m → is_met (check_read_quorum rs m) = true → is_met (check_write_quorum ws m) = true →
  ∃ n, n ∈ rs ∧ n ∈ ws ∧ n ∈ nodes m.
Proof.
  intros Hs Hr%check_met Hw%check_met. apply quorum_run_strong in Hs; [|done]. unfold strong, sizeZ in *.
  set (R := valid_responses rs m) in *. set (W := valid_responses ws m) in *.
  assert (R ⊆ nodes m ∧ W ⊆ nodes m) as [HR HW].
  { split; intros n; unfold R, W, valid_responses; rewrite elem_of_list_to_set, list_elem_of_filter; tauto. }
  destruct (decide (R ∩ W = ∅)) as [He|Hne].
  - assert (size (R ∪ W) = size R + size W)%nat as Hu by (apply size_union; set_solver).
    pose proof (subseteq_size (R ∪ W) (nodes m) ltac:(set_solver)). lia.
  - apply set_choose_L in Hne as [n Hn]. exists n. apply elem_of_intersection in Hn as [H1 H2].
    unfold R, W, valid_responses in H1, H2. rewrite elem_of_list_to_set, list_elem_of_filter in H1, H2. tauto.
Qed.

Lemma QuorumConfig_new_ok n r w :
  n < 2 ^ 62 → 1 <= r <= n → 1 <= w <= n → n < r + w → is_ok (QuorumConfig_new n r w) = true.
Proof.
  intros Hn Hr Hw Hs. unfold QuorumConfig_new. rewrite wadd_small by (unfold umax; lia).
  destruct (Z.leb_spec (r + w) n); [lia|]. destruct (Z.eqb_spec r 0), (Z.eqb_spec w 0); try lia. cbn.
  by destruct (Z.ltb_spec n r), (Z.ltb_spec n w); try lia.
Qed.

(** The three ready-made configurations are valid for every number of nodes. *)
Lemma standard_configs n :
  1 <= n < 2 ^ 62 → is_ok (majority n) = true ∧ is_ok (read_heavy n) = true ∧ is_ok (write_heavy n) = true.
Proof.
  intros Hn. pose proof (Z.div_mod n 2 ltac:(lia)). pose proof (Z.mod_pos_bound n 2 ltac:(lia)).
  pose proof (Z.div_mod n 3 ltac:(lia)). pose proof (Z.mod_pos_bound n 3 ltac:(lia)).
  assert (wadd 64 (wsub 64 n (n / 3 + 1)) 1 = n - n / 3) as Hw.
  { rewrite wsub_small by (unfold umax; lia). rewrite wadd_small by (unfold umax; lia). lia. }
  unfold majority, read_heavy, write_heavy. rewrite Hw.
  repeat split; apply QuorumConfig_new_ok; lia.
Qed.

(** ** Registers *)

(** Every register a run makes carries the clock of one node, its own. *)
Inductive lww_run {T : Type} : LWWRegister T → Prop :=
| lww_start v n : lww_run (LWWRegister_new v n)
| lww_write v r : lww_run r → lww_run (lww_set v r)
| lww_receive r1 r2 : lww_run r1 → lww_run r2 → lww_run (lww_merge r1 r2).

Definition count_of {T : Type} (r : LWWRegister T) : Z := vc_get (lww_node r) (lww_timestamp r).

Lemma lww_single {T : Type} (r : LWWRegister T) :
  lww_run r → lww_timestamp r = {[lww_node r := count_of r]} ∧ 1 <= count_of r <= umax 64.
Proof.
  unfold count_of. induction 1 as [v n|v r _ [IH Hc]|r1 r2 _ IH1 _ IH2]; cbn [lww_timestamp lww_node LWWRegister_new lww_set].
  - unfold vc_increment, vc_get, vc_new. rewrite lookup_empty. cbn. by rewrite lookup_insert_eq.
  - unfold vc_increment. set (x := vc_get _ _) in *. unfold vc_get at 1 2 3. rewrite lookup_insert_eq. cbn [default from_option id].
    rewrite IH, insert_singleton_eq. split; [done|]. destruct (Z.eqb_spec x (umax 64)); lia.
  - unfold lww_merge. by repeat case_match.
Qed.

(** Between different nodes, the register of the greater one wins, whatever was
    written last; between registers of one node, the greater count. *)
Lemma lww_merge_spec {T : Type} (r1 r2 : LWWRegister T) :
  lww_run r1 → lww_run r2 →
  lww_merge r1 r2 =
  if decide (lww_node r1 = lww_node r2) then if count_of r1 <? count_of r2 then r2 else r1
  else if node_lt (lww_node r1) (lww_node r2) then r2 else r1.
Proof.
  intros [H1 [Hc1 _]]%lww_single [H2 [Hc2 _]]%lww_single.
  assert (∀ n a, 1 <= a → nonneg_map {[n := a]}) as Hnn.
  { intros n a Ha k v Hk. apply lookup_singleton_Some in Hk as [_ <-]. lia. }
  assert (∀ n a k, vc_get k ({[n := a]} : VectorClock) = if decide (k = n) then a else 0) as Hget.
  { intros n a k. unfold vc_get. case_decide; [subst; by rewrite lookup_singleton_eq|].
    by rewrite lookup_singleton_ne. }
  assert ({| lww_value := lww_value r2; lww_timestamp := lww_timestamp r2; lww_node := lww_node r2 |} = r2)
    as Heta by by destruct r2.
  unfold lww_merge, happens_after, concurrent. rewrite Heta, H1, H2.
  set (a := count_of r1) in *. set (b := count_of r2) in *.
  set (c1 := {[lww_node r1 := a]} : VectorClock). set (c2 := {[lww_node r2 := b]} : VectorClock).
  pose proof (happens_before_spec c1 c2 (Hnn _ _ Hc1) (Hnn _ _ Hc2)) as H12.
  pose proof (happens_before_spec c2 c1 (Hnn _ _ Hc2) (Hnn _ _ Hc1)) as H21. unfold c1, c2 in H12, H21.
  setoid_rewrite Hget in H12. setoid_rewrite Hget in H21. fold c1 in H12, H21. fold c2 in H12, H21.
  destruct (decide (lww_node r1 = lww_node r2)) as [Hn|Hn].
  - unfold c1, c2 in *. rewrite Hn in *. destruct (Z.ltb_spec a b) as [Hlt|Hge].
    + rewrite (proj2 H12); [done|]. split; [intros k; case_decide; lia|].
      exists (lww_node r2). by rewrite !decide_True by done.
    + assert (happens_before {[lww_node r2 := a]} {[lww_node r2 := b]} = false) as ->.
      { apply not_true_is_false. intros [_ [k Hk]]%H12. revert Hk. case_decide; lia. }
      destruct (decide (a = b)) as [Hab|Hab].
      { rewrite Hab, (bool_decide_eq_true_2 (_ = _)) by done. by rewrite andb_false_r. }
      rewrite (proj2 H21); [done|]. split; [intros k; case_decide; lia|]. exists (lww_node r2).
      rewrite !decide_True by done. lia.
  - assert (happens_before c1 c2 = false) as ->.
    { apply not_true_is_false. intros [Hle _]%H12. specialize (Hle (lww_node r1)).
      rewrite decide_True, decide_False in Hle by done. lia. }
    assert (happens_before c2 c1 = false) as ->.
    { apply not_true_is_false. intros [Hle _]%H21. specialize (Hle (lww_node r2)).
      rewrite decide_True, decide_False in Hle by congruence. lia. }
    rewrite bool_decide_eq_false_2; cbn; [done|].
    intros Heq. apply (f_equal (lookup (lww_node r2))) in Heq. unfold c1, c2 in Heq.
    rewrite lookup_singleton_eq, lookup_singleton_ne in Heq by done. done.
Qed.

(** ** Small runs *)
Module ReplicationDemo.

Definition nd (i : Z) : NodeId := {| nid_bytes := i; creation_nonce := 0; network_genesis := 0 |}.

Definition g1 : GCounter := gc_increment (nd 1) 5 GCounter_new.
Definition g2 : GCounter := gc_increment (nd 2) 7 GCounter_new.

Lemma g_ok i a : 0 <= a <= umax 64 → ok (gc_increment (nd i) a GCounter_new).
Proof.
  intros Ha n v Hv. cbn [gc_increment counters] in Hv. unfold get_node_value, GCounter_new in Hv.
  cbn [counters] in Hv. rewrite lookup_empty in Hv. cbn [default from_option] in Hv.
  rewrite wadd_small in Hv by (unfold id; lia). apply lookup_insert_Some in Hv as [[_ <-]|[_ Hv]]; [unfold id; lia|].
  by rewrite lookup_empty in Hv.
Qed.


(** Two nodes count 5 and 7, and the first sends its state to the second. *)
Definition reps : gmap NodeId GCounter :=
  <[nd 2 := gc_merge g2 g1]> (<[nd 2 := g2]> (<[nd 1 := g1]> ∅)).

Lemma reps_run :
  counter_run reps [gc_merge g2 g1; g2; g1; GCounter_new] (<[nd 2 := 7]> (<[nd 1 := 5]> ∅)).
Proof.
  refine (counter_receive (<[nd 2 := g2]> (<[nd 1 := g1]> ∅)) [g2; g1; GCounter_new] _ (nd 2) g1 _ _);
    [|right; by left].
  refine (counter_add (<[nd 1 := g1]> ∅) [g1; GCounter_new] (<[nd 1 := 5]> ∅) (nd 2) 7 _ _ _);
    [|lia|vm_compute; discriminate].
  refine (counter_add ∅ [GCounter_new] ∅ (nd 1) 5 _ _ _); [constructor|lia|vm_compute; discriminate].
Qed.

Lemma counter_counts_witness : gc_value (foldl gc_merge GCounter_new [gc_merge g2 g1; g1]) = 12.
Proof.
  apply (counter_counts reps [gc_merge g2 g1; g2; g1; GCounter_new] (<[nd 2 := 7]> (<[nd 1 := 5]> ∅))
    GCounter_new [gc_merge g2 g1; g1] reps_run).
  - do 3 right. by left.
  - intros m. rewrite !elem_of_cons. naive_solver.
  - intros n [v Hv]. apply lookup_insert_Some in Hv as [[<- _]|[_ Hv]]; [by left|].
    apply lookup_insert_Some in Hv as [[<- _]|[_ Hv]]; [right; by left|by rewrite lookup_empty in Hv].
Defined.

(** Node 1 has two events; node 2 has one, and then receives the first. *)
Definition hist : list Ev :=
  [{| ev_node := nd 1; ev_msg := None |}; {| ev_node := nd 2; ev_msg := None |};
   {| ev_node := nd 1; ev_msg := None |}; {| ev_node := nd 2; ev_msg := Some 0%nat |}].

Lemma clocks_are_causality_witness :
  (0%nat ≠ 3%nat ∧ rtc (edge hist) 0%nat 3%nat) ∧ (¬ rtc (edge hist) 2%nat 3%nat ∧ ¬ rtc (edge hist) 3%nat 2%nat).
Proof.
  assert (valid_history hist) as Hv.
  { split; [vm_compute; reflexivity|]. intros [|[|[|[|k]]]] e j Hk; cbn in Hk; try discriminate;
      injection Hk as <-; cbn; try discriminate. intros [= <-]. lia. }
  split.
  - exact (clocks_are_causality hist 0%nat 3%nat Hv ltac:(cbn; lia) ltac:(cbn; lia)).
  - exact (clocks_are_causality hist 2%nat 3%nat Hv ltac:(cbn; lia) ltac:(cbn; lia)).
Defined.

Definition trio : QuorumManager := {|
  config := {| qn := 3; qr := 2; qw := 2 |}; nodes := list_to_set [nd 1; nd 2; nd 3] |}.

Lemma quorums_intersect_witness : ∃ n, n ∈ [nd 1; nd 2] ∧ n ∈ [nd 3; nd 2; nd 9] ∧ n ∈ nodes trio.
Proof.
  apply (quorums_intersect trio); [|vm_compute; reflexivity|vm_compute; reflexivity].
  refine (quorum_start 3 2 2 {| qn := 3; qr := 2; qw := 2 |} [nd 1; nd 2; nd 3] _ _ _ _ _);
    [lia|lia|vm_compute; reflexivity|vm_compute; reflexivity].
Defined.

(** [add_node] raises the number of members and keeps the quorum sizes: with one
    node more, a read and a write of the three meet their quorums without a common
    member. *)
Example added_node_loses_overlap :
  let '(m, r) := add_node (nd 4) trio in
  r = Ok tt ∧ is_strongly_consistent (config m) = false ∧
  is_met (check_read_quorum [nd 1; nd 2] m) = true ∧ is_met (check_write_quorum [nd 3; nd 4] m) = true.
Proof. vm_compute. repeat split. Qed.

(** A removed element comes back when a replica is merged that has not seen the
    removal: the set keeps no record of removed tags. *)
Example removed_element_returns :
  let s := or_add 42 (nd 1) 1 (ORSet_new : ORSet Z) in
  let s' := (or_remove 42 [(nd 1, 1)] s).1 in
  or_contains 42 s' = false ∧ or_contains 42 (or_merge s' s) = true.
Proof. vm_compute. repeat split. Qed.

(** A merge takes over the node of the register it copies.  Two replicas that
    copied the same register stamp different writes with the same clock, and
    keep their own values ever after. *)
Example registers_diverge :
  let r := LWWRegister_new 10 (nd 9) in
  let a := lww_set 11 (lww_merge (LWWRegister_new 0 (nd 1)) r) in
  let b := lww_set 12 (lww_merge (LWWRegister_new 0 (nd 2)) r) in
  lww_timestamp a = lww_timestamp b ∧ lww_value (lww_merge a b) = 11 ∧ lww_value (lww_merge b a) = 12.
Proof. vm_compute. repeat split. Qed.

(** A value written once at a node with a greater identifier displaces any number
    of writes at another. *)
Example older_value_wins :
  let a := lww_set 3 (lww_set 2 (LWWRegister_new 1 (nd 1))) in
  lww_value (lww_merge a (LWWRegister_new 0 (nd 2))) = 0.
Proof. vm_compute. reflexivity. Qed.

#[local] Instance env : ConsensusEnv := {|
  Chain := unit;
  get_blockchain_height _ := Some 0;
  get_latest_block_hash _ := Some 0;
  is_ready _ := true;
  get_pending_transactions _ := Some [];
  decode_block_data _ := true;
  commit_finalized_block_with_proof _ _ c := (c, true);
  hash_blake3 := sumZ;
  dilithium_sign k m := (k + sumZ m) :: replicate 4594 0;
  dilithium_verify k m s := match s with x :: _ => x =? k + sumZ m | [] => false end;
  unix_time _ := 0;
  verify_other_proof _ _ := Some true;
  create_consensus_proof _ _ := None;
  distribute_rewards _ _ := true;
  env_voting_power := λ s storage, wadd 64 s storage;
  activity_time _ _ := 0;
  vote_time _ := 0;
  iter_votes := map_to_list;
|}.

(** The signed checks count responses, not nodes: one node fills a quorum of two by
    sending its response twice. *)
Example one_node_fills_quorum :
  let p := {| resp_node := nd 1; resp_payload := [7]; resp_signature := sign (demo_key 5) [7] |} in
  is_met (check_signed_write_quorum 0 0 {[nd 1 := demo_key 5]} [p; p] trio) = true ∧
  is_met (check_write_quorum [nd 1; nd 1] trio) = false.
Proof. split; vm_compute; reflexivity. Qed.

End ReplicationDemo.
